(* ===== verification/_CoqProject ===== *)
-Q . S2P
Prelude.v
Config.v
Memory.v
Gray.v
Fpga.v
FpgaProps.v
FpgaPipeline.v
Ring.v
Feature.v
ModelUpdate.v
Perf.v
RpcCommon.v
Msg.v
RpcConnect.v
Central.v
CentralProps.v
Worker.v
Reply.v
ReplyProps.v
Runner.v
RunnerProps.v
Phase.v
Delivery.v
FpgaInit.v
Tid.v
Sto.v
StoLog.v
StoInv.v
StoSteps.v
StoBody.v
StoCommit.v
StoCheck.v
StoInstall.v
StoProps.v
StoProgress.v
Client.v
ClientProps.v
ClientSend.v
ClientTransfer.v
ClientArrive.v
Procedure.v
ClientLoop.v
ProcedureProps.v
OrderProps.v
TpccProps.v
ClientRun.v
Scratch.v
TpccData.v
TpccGen.v
TpccIndex.v
TpccTxn.v
TpccRunner.v
TpccLoad.v
TpccKeys.v
TpccInv.v
TpccLogic.v
TpccNewOrder.v
TpccCommute.v
TpccPayment.v
TpccDeliver.v
TpccRead.v
TpccSys.v
TpccFill.v
TpccSafe.v
TpccServe.v
TpccRun.v
TpccAnswer.v
TpccWhole.v
Ycsb.v
Rcu.v
Epoch.v
UIndex.v
UIndexSpec.v
UIndexInv.v
UIndexOps.v
UIndexInsert.v
UIndexLoops.v
UIndexCommit.v
UIndexMain.v
