(* ===== verification/Prelude.v ===== *)
(** * AlNiCo: a verification development

    AlNiCo schedules transaction requests on a network card so that requests
    that are likely to conflict run on the same core.  Clients write a request
    into a slot of the server's memory and a 512-bit feature vector into a slot
    of the card; the card (or, in other builds, scheduler threads on the CPU)
    gives the request to the worker whose requests in flight share the most
    heavily weighted features, by writing the slot number into the worker's
    dispatch queue; the worker runs the transaction and writes an answer into
    its reply block; a reply thread sends changed reply blocks to the clients
    with one-sided RDMA writes.  Aborts teach the weights.

    ** Files

    Paths are relative to [src/]; [nic-sched] is [AlNiCo_Server/sto/nic-sched],
    [sto-core] and [benchmark] are its siblings.

    - [Prelude]: machine integers, arrays as finite maps, record updates, loops
      ([for_range], [for_brk], [for_opt]), sums, and the shared lemmas.
    - [Config]: the constants of [nic-sched/Debug.h]; the [-D] flags of the
      build are a class, with two instances taken from the scripts.
    - [Memory]: byte-addressed memory, little-endian accesses, [memcpy].
    - [Gray]: the Gray-code walk shared by the two schedulers.
    - [Fpga]: [Innova2/scheduler/{utils.h,tx_scheduler.cpp,no_dma.cpp}].  The
      globals of the kernel are the record [Hls.fpga], its streams are lists, and
      each dataflow function is a function on the record.  [FpgaProps] has the
      stages' theorems, [FpgaPipeline] those of their interleavings.
    - [FpgaInit]: [nic-sched/fpga.cpp], and the agreement of the card and the
      server on addresses.
    - [Ring]: the two queues of [nic-sched/fpga.h] behind the class
      [RingQueue]; the producer/consumer protocol is proved once against the
      class.  [Delivery] makes the TPC-C delivery queues a third instance.
    - [Feature], [ModelUpdate], [Perf]: key hashing and abort windows
      ([Rpc.h], [fpga.cpp]), [model_update.h], [latency_evaluation.h].
    - [RpcCommon], [Msg], [RpcConnect]: [rpc_common.h], [msg_t] of
      [worker_buf.h], [Rpc.h] with [rpc_connect.cpp] and [rpc_init.cpp].
    - [Central] with [CentralProps]: [central_scheduler_t]; [host] is the state
      the server's threads share.
    - [Worker]: [worker_msg_t], [strife_msg_t],
      [tpcc_delivery_t].
    - [Reply] with [ReplyProps]: [rpc_reply.cpp] and [pollWithCQN].
    - [Runner] with [RunnerProps]: the YCSB worker loops.
    - [Client]: the client side ([Clients/NetTx], [NicTxn/nictxn_as_client.cpp]):
      transactions and connections, the gathering of a request, the chains of
      RDMA writes and the polling of completions; [Procedure]: the generators of
      [NicTxn/tpcc_procedure.cpp]; [ClientLoop]: [generate_tx] and the loops.
      [ClientProps] has the layout of a request, [ClientSend] the send queue,
      [ClientTransfer] the way to the server and to the card,
      [ClientArrive] a write that arrives word by word, [ProcedureProps],
      [OrderProps] and [TpccProps] the requests the generators build and what a
      worker decodes, [ClientRun] the loop against the server's answers.
    - [Phase]: the two-phase (Strife) build as interleaved
      steps of the workers and the reply thread.
    - [Tid], [Sto]: STO's optimistic transactions: version words
      ([sto-core/VersionBase.hh], [OCCVersions.hh]), items, [try_commit] and
      [stop] ([sto-core/Transaction.{hh,cc}], [ConcurrencyControl.hh]) and
      transactional boxes ([datatype/TBox.hh]).  A step is one access to shared
      memory; [run] takes any schedule of the threads.
    - [StoLog], [StoInv], [StoSteps], [StoBody], [StoCommit],
      [StoCheck], [StoInstall]: the serial order of a run, the invariant with its
      ghost state (version numbers, owners, recorded reads, the ledger of ordered
      transactions), and its preservation by each step.  [StoProps] and
      [StoProgress] have the theorems.
    - The server's TPC-C ([benchmark/TPCC_*.hh], [DB_structs.hh], [DB_oindex.hh]):
      [TpccData] the rows, keys, commutators, counters and tables; [TpccGen] the
      input generator; [TpccLoad] the loader; [TpccIndex] the operations on
      indexes as a monad of attempts (they read the committed tables, buffer
      their writes, abort) and the retry loop [RWTXN]; [TpccTxn] the five
      transactions; [TpccRunner] the loops of the workers and of the owners of
      warehouses.  [TpccKeys] the order of the keys' byte strings, [TpccInv] what
      well-formed and consistent tables are, [TpccLogic] a weakest-precondition
      calculus for attempts with its tactics, [TpccNewOrder], [TpccPayment],
      [TpccDeliver], [TpccRead] the effect of each transaction, [TpccCommute] the
      equality of the two builds' bodies by setoid rewriting and the order in which
      commutators may be installed, [TpccSys] the database as a
      system of steps under concurrent attempts and its invariant, [TpccFill] the
      loaded tables, [TpccSafe] the loaded database and the invariant from there on,
      [TpccServe] the transactions as they are served, [TpccRun] and
      [TpccAnswer] the turns of a worker, [TpccWhole] clients, workers and owners
      together.
    - [Scratch]: the memory of a transaction ([sto-core/TransScratch.hh]).
    - [Ycsb]: the YCSB rows, loader and transaction ([YCSB_structs.hh],
      [YCSB_commutators.hh], [YCSB_txns.hh]), the database of the workers of
      [Runner].
    - [Rcu]: the callback sets of deferred reclamation ([sto-core/TRcu.{hh,cc}]) and
      the queue they implement.  [Epoch]: the epochs of [Transaction::start], the
      advancer, [rcu_delete] and [rcu_release_all] ([sto-core/Transaction.{hh,cc}]),
      one access per step, over abstract objects.
    - [UIndex]: the hash index ([benchmark/DB_uindex.hh], [DB_index.hh]): buckets,
      elements with their version words, transaction items, the operations and
      [lock], [check], [install], [cleanup] with [try_commit] and [stop] around
      them.  An operation, or the whole of [try_commit], is a step of its thread.
      [UIndexSpec] has what a body means alone on a table ([serial]), [UIndexInv]
      the invariant and what a step may do to the index as others see it,
      [UIndexOps], [UIndexInsert], [UIndexLoops], [UIndexCommit] its preservation by
      operations, insertions and loading, the loops of the commit, aborts and
      commits, and [UIndexMain] the whole system and the theorems.

    ** What the theorems show

    - The card: every stage does what its comment says on every branch; for
      every interleaving of stages, refreshes, client writes and DMA the counters
      count the requests in flight and no request is lost, duplicated or
      reordered, and the slots announced to a core are the words of its queue in host
      memory; the choice is by the weights of the DMA buffer; the kernel's loop is such
      an interleaving.
    - The CPU scheduler: the same for its tables, choice, counters and queues.
    - Queues: first-in first-out for every interleaving of producers and
      consumer, while at most as many requests are outstanding as there are
      cells.
    - Connections: keys match, slots do not overlap; the handshake connects each
      client with what it published, and ends when all have published.
    - Replies: each changed reply is sent once, and the accounting of completions
      keeps the send queues bounded.
    - Phases: replies are sent only when every worker has finished its batch, and
      no batch is closed while one is executed.
    - Clients: a request arrives with the keys, arguments and features that were
      drawn, in the server's slot and on the card; on an adapter that places the
      words of a write in order ([InOrderPlacement]) it is taken when all its words
      are there and not before; the client finishes exactly the
      transactions that were answered, and never uses the id of a delivery that
      is still open.
    - STO: every interleaving of transactions is serializable in the order of the
      last lock taken; locks are held by exactly the thread the word names and
      none is left behind; [try_commit] is wait-free with an explicit bound.
    - TPC-C: from the loaded database, whatever attempts commit in whatever order,
      the tables stay well-formed and satisfy the consistency conditions; a new
      order, a payment and a delivery have exactly their effect and end as soon
      as an attempt meets no conflict; commutators may be installed in any order but
      for two payments of a customer with bad credit; a worker executes the request
      it answers; the turns of all workers and owners are steps of that system; an order that a
      client draws is the order in the database.  Two errors are proved as
      theorems: the stock level counts nothing and a delivery can retry for ever.
    - YCSB: a request is executed on the table and answered, with exactly the rows
      that the code builds; the blocks of a transaction's scratch memory are apart.
    - The hash index: any interleaving of operations, commits and aborts is
      serializable in the order of the commits, without phantoms, and no step of
      bodies that end alone on any table fails.  The bound [2 ^ 52] on loads and
      steps keeps the version numbers, 52 bits of a word, from wrapping.

    - Reclamation: a callback set is a queue; an object that a running transaction
      holds is never freed, except through a race in the first start of a thread
      ([first_start_race] is a schedule of it); at the end everything is freed.  The bound [2 ^ 62] on the
      number of steps keeps the epochs, compared as signed differences, from
      wrapping.

    ** Conventions, bounds and fuel

    Integers are [Z] wrapped at their width where the source can leave it.  An
    array is a finite map that reads 0 where nothing was written (the card's arrays
    too: a core number past [MAX_CORE] has entries of its own there); a pointer that
    may be null is a lookup that may fail, and [None] is undefined behaviour or
    the end of the program.  Loops that may not end take a [nat] of fuel;
    theorems about them say how much is enough ([reply_pass_once],
    [send_queue_bounded], [batch_is_what_arrived], [handshake_completes],
    [tpcc_request_decoded], [client_matches_replies], [release_all_frees]) or hold
    for every number of rounds ([schedule_nodma_runs]).

    A retry loop takes the conflicts of its attempts as a list of lists, an attempt
    per list; when the list is used up the loop is still running, and theorems say
    that it has ended once an attempt meets no conflict.

    ** Parameters

    libibverbs and libmemcached (acting on an abstract world, with their
    documented behaviour as laws of [VerbsLaws], where posts and polls succeed: a
    failed post ends the program; and of [MemcachedLaws], where a look-up
    may fail), the order in which an adapter places the words of a write
    ([InOrderPlacement]), [rand] and the clients' random generators ([RandomNumber]
    scales a [double] of [fast_random]; the range that it asserts, and never avoiding
    a value for ever, are laws of [RngOk]),
    [std::mt19937] with [uniform_int_distribution] and [shuffle] (their ranges, and
    that a shuffle permutes, as laws of [Mt19937Ok]), the clock, the byte an out-of-range float conversion gives, and the
    addresses [malloc] and [mmap] return.

    ** Not modelled

    The nodes and node versions of the ordered index (masstree is vendored
    code; [TpccIndex] and [Ycsb] have what a transaction sees of an index, with the
    conflicts it meets as an input), the interleaving of the accesses inside an
    operation or a commit of the hash index (that of commits is the subject of
    [Sto]) and its split versions, STO's
    other concurrency controls (opaque, locking, adaptive, Swiss, TicToc,
    multi-version), weak memory orders (the
    steps of [Sto] and [Epoch] are sequentially consistent), the clients' latency
    recorders and their variants for other systems (Eris, Strife, switch),
    printing and report files ([throughput_listen_ms], [merge_print]), the glue
    that fills the attribute structures of libibverbs ([Resource.cpp],
    [StateTrans.cpp]), the PCI and DMA set-up of the card beyond its addresses,
    drivers and generated hardware. *)

From stdpp Require Export base numbers list list_numbers gmap fin_maps sets.
From Stdlib Require Export ZArith Lia.

#[export] Set Default Proof Using "Type".

Open Scope Z_scope.

(** * Machine integers

    A [w]-bit unsigned integer is a [Z] in [[0, 2^w)]; every operation of
    the source that can leave the range is followed by [wrap w]. *)

Definition wrap (w z : Z) : Z := z mod 2 ^ w.

Declare Scope word_scope.
Delimit Scope word_scope with word.
Abbreviation u8 := (wrap 8) (only parsing).
Abbreviation u16 := (wrap 16) (only parsing).
Abbreviation u32 := (wrap 32) (only parsing).
Abbreviation u64 := (wrap 64) (only parsing).

(** Two's complement reading of the low 32 bits: a C [int]. *)
Definition s32 (z : Z) : Z := (z + 2 ^ 31) mod 2 ^ 32 - 2 ^ 31.

(** Two's complement reading of the low 64 bits: an [int64_t]. *)
Definition s64 (z : Z) : Z := (z + 2 ^ 63) mod 2 ^ 64 - 2 ^ 63.

Definition uint (w z : Z) : Prop := 0 <= z < 2 ^ w.

(** [x.range(hi, lo)] of an [ap_uint]. *)
Definition bits (x lo width : Z) : Z := Z.land (Z.shiftr x lo) (Z.ones width).

(** [x.range(lo + width - 1, lo) = v] of an [ap_uint]. *)
Definition set_bits (x lo width v : Z) : Z :=
  Z.lor (Z.land x (Z.lnot (Z.shiftl (Z.ones width) lo))) (Z.shiftl (wrap width v) lo).

(** [x[i] = b] of an [ap_uint]. *)
Definition set_bit (x i : Z) (b : bool) : Z := if b then Z.setbit x i else Z.clearbit x i.

(** * Arrays

    Every array of the modelled code is a statically allocated (hence
    zero-initialised) or [memset] object: it is a finite map from indices to
    cells where an absent cell reads 0. *)

Definition rd {K} `{Countable K} (m : gmap K Z) (k : K) : Z := default 0 (m !! k).

Notation "m .[ k ]" := (rd m k) (at level 1, left associativity, format "m .[ k ]").

(** All the cells ever written lie in the array. *)
Definition in_bounds {K} `{Countable K} (P : K -> Prop) (m : gmap K Z) : Prop :=
  forall k, is_Some (m !! k) -> P k.

(** * Field update

    [r <| f := v |>] is the record [r] with field [f] set to [v].  A record
    opts in by giving its eta expansion as an instance of [Eta]; the setter of
    a field is found by abstracting its projection from that expansion. *)

Class Eta (R : Type) := eta : R -> R.

Class Setter {R E : Type} (proj : R -> E) := setter : (E -> E) -> R -> R.

Ltac derive_setter :=
  lazymatch goal with
  | |- @Setter ?R ?E ?p =>
      let i := constr:(_ : Eta R) in
      let e := eval hnf in i in
      lazymatch eval pattern p in e with
      | ?f _ => let s := eval cbv beta in (fun (u : E -> E) => f (fun r => u (p r))) in exact s
      end
  end.

#[export] Hint Extern 1 (Setter _) => derive_setter : typeclass_instances.

Definition set_field {R E} (proj : R -> E) {s : Setter proj} (u : E -> E) (r : R) : R := s u r.
Arguments set_field {R E} proj {s} u r /.

Declare Scope record_scope.
Notation "r <| f := v |>" := (set_field f (fun _ => v) r)
  (at level 1, f at level 200, left associativity, format "r  <| f  :=  v |>") : record_scope.
Open Scope record_scope.

(** * Loops *)

(** [for (i = b; i < e; i++) s = body(i, s)] *)
Definition for_range {S} (b e : Z) (body : Z -> S -> S) (s : S) : S :=
  foldl (fun s i => body i s) s (seqZ b (e - b)).

(** The same loop with a [break]: the body also says whether to stop. *)
Fixpoint for_list_brk {S} (body : Z -> S -> S * bool) (l : list Z) (s : S) : S :=
  match l with
  | [] => s
  | i :: l => let '(s', stop) := body i s in
              if stop : bool then s' else for_list_brk body l s'
  end.

Definition for_brk {S} (b e : Z) (body : Z -> S -> S * bool) (s : S) : S :=
  for_list_brk body (seqZ b (e - b)) s.

(** A loop whose body may fail. *)
Definition for_opt {S} (b e : Z) (f : Z -> S -> option S) (s : S) : option S :=
  foldl (fun s i => s ← s; f i s) (Some s) (seqZ b (e - b)).

(** Sum of [f] over the indices [l]. *)
Definition sumZ {A} (f : A -> Z) (l : list A) : Z := foldr (fun x a => f x + a) 0 l.

(** [best], [idx] are what the loop "[if (score c > best) take c]" holds after
    looking at the candidates [0 .. k-1] from [best = 0], [idx = dflt]: the
    first candidate with the greatest positive score, or the default. *)
Definition argmax_upto (score : Z -> Z) (dflt k best idx : Z) : Prop :=
  (idx = dflt /\ best = 0 /\ forall c, 0 <= c < k -> score c <= 0) \/
  (0 <= idx < k /\ best = score idx /\ 0 < best /\
   forall c, 0 <= c < k -> score c <= best /\ (c < idx -> score c < best)).

(** * Lemmas on machine integers *)

Lemma wrap_range w z : 0 <= w -> uint w (wrap w z).
Proof. intros. apply Z.mod_pos_bound. by apply Z.pow_pos_nonneg. Qed.

Lemma wrap_small w z : uint w z -> wrap w z = z.
Proof. apply Z.mod_small. Qed.

Lemma wrap_wrap w z : 0 <= w -> wrap w (wrap w z) = wrap w z.
Proof. intros. unfold wrap. apply Z.mod_mod. by apply Z.pow_nonzero. Qed.

Lemma wrap_add_l w a b : 0 <= w -> wrap w (wrap w a + b) = wrap w (a + b).
Proof. intros. unfold wrap. apply Zplus_mod_idemp_l. Qed.

Lemma wrap_add_r w a b : 0 <= w -> wrap w (a + wrap w b) = wrap w (a + b).
Proof. intros. unfold wrap. apply Zplus_mod_idemp_r. Qed.

Lemma wrap_sub_l w a b : 0 <= w -> wrap w (wrap w a - b) = wrap w (a - b).
Proof. intros. unfold wrap. apply Zminus_mod_idemp_l. Qed.

Lemma wrap_land w z : 0 <= w -> wrap w z = Z.land z (Z.ones w).
Proof. intros. unfold wrap. by rewrite Z.land_ones. Qed.

Lemma testbit_wrap w z i :
  0 <= w -> 0 <= i -> Z.testbit (wrap w z) i = (i <? w) && Z.testbit z i.
Proof.
  intros Hw Hi. rewrite wrap_land, Z.land_spec by done.
  destruct (Z.ltb_spec i w).
  - rewrite Z.ones_spec_low by lia. by rewrite andb_true_r.
  - rewrite Z.ones_spec_high by lia. by rewrite andb_false_r.
Qed.

Lemma testbit_small w z i : uint w z -> 0 <= w <= i -> Z.testbit z i = false.
Proof.
  intros Hz Hi. rewrite <-(wrap_small w z Hz), testbit_wrap by lia.
  destruct (Z.ltb_spec i w); [lia|done].
Qed.

Lemma bits_range x lo w : 0 <= w -> uint w (bits x lo w).
Proof. intros. unfold bits. rewrite Z.land_ones by done. by apply wrap_range. Qed.

Lemma testbit_bits x lo w i :
  0 <= lo -> 0 <= w -> 0 <= i ->
  Z.testbit (bits x lo w) i = (i <? w) && Z.testbit x (lo + i).
Proof.
  intros. unfold bits. rewrite <-wrap_land, testbit_wrap by done.
  rewrite Z.shiftr_spec by done. by rewrite (Z.add_comm lo).
Qed.

Lemma testbit_set_bits x lo w v i :
  0 <= lo -> 0 <= w -> 0 <= i ->
  Z.testbit (set_bits x lo w v) i
  = if (lo <=? i) && (i <? lo + w) then Z.testbit v (i - lo) else Z.testbit x i.
Proof.
  intros Hlo Hw Hi. unfold set_bits.
  rewrite Z.lor_spec, Z.land_spec, Z.lnot_spec, !Z.shiftl_spec by done.
  destruct (Z.leb_spec lo i); simpl.
  - rewrite testbit_wrap by lia.
    destruct (Z.ltb_spec i (lo + w)), (Z.ltb_spec (i - lo) w); try lia.
    + rewrite Z.ones_spec_low by lia. by rewrite andb_false_r.
    + rewrite Z.ones_spec_high by lia. by rewrite andb_true_r, orb_false_r.
  - rewrite !(Z.testbit_neg_r _ (i - lo)) by lia. by rewrite andb_true_r, orb_false_r.
Qed.

Lemma set_bits_range x lo w v n :
  0 <= lo -> 0 <= w -> lo + w <= n -> uint n x -> uint n (set_bits x lo w v).
Proof.
  intros Hlo Hw Hn Hx.
  assert (set_bits x lo w v = wrap n (set_bits x lo w v)) as ->; [|apply wrap_range; lia].
  apply Z.bits_inj'. intros i Hi. rewrite testbit_wrap by lia.
  destruct (Z.ltb_spec i n); [done|]. rewrite testbit_set_bits by lia.
  destruct (Z.ltb_spec i (lo + w)); [lia|]. rewrite andb_false_r.
  apply (testbit_small n); [done|lia].
Qed.

Lemma testbit_set_bit x i b j :
  0 <= i -> 0 <= j -> Z.testbit (set_bit x i b) j = if i =? j then b else Z.testbit x j.
Proof.
  intros Hi Hj. unfold set_bit. destruct b.
  - rewrite Z.setbit_eqb by done. by destruct (i =? j).
  - rewrite Z.clearbit_eqb. destruct (i =? j); simpl; by rewrite ?andb_false_r, ?andb_true_r.
Qed.

(** Two [w]-bit integers with the same bits are equal. *)
Lemma uint_bits_inj w a b :
  0 <= w -> uint w a -> uint w b ->
  (forall i, 0 <= i < w -> Z.testbit a i = Z.testbit b i) -> a = b.
Proof.
  intros Hw Ha Hb H. apply Z.bits_inj'. intros i Hi.
  destruct (decide (i < w)); [apply H; lia|].
  by rewrite (testbit_small w a), (testbit_small w b) by (done || lia).
Qed.

(** * Lemmas on arrays *)

Section arrays.
Context {K} `{Countable K}.
Implicit Types (m : gmap K Z) (k : K).

Lemma rd_insert_eq m k v : (<[k:=v]> m).[k] = v.
Proof. unfold rd. by rewrite lookup_insert_eq. Qed.

Lemma rd_insert_ne m k k' v : k <> k' -> (<[k:=v]> m).[k'] = m.[k'].
Proof. intros. unfold rd. by rewrite lookup_insert_ne. Qed.

Lemma rd_insert m k k' v : (<[k:=v]> m).[k'] = if decide (k = k') then v else m.[k'].
Proof. case_decide; [subst; apply rd_insert_eq | by apply rd_insert_ne]. Qed.

Lemma rd_empty k : (∅ : gmap K Z).[k] = 0.
Proof. reflexivity. Qed.

Lemma in_bounds_empty P : in_bounds P (∅ : gmap K Z).
Proof. intros k [x Hx]. by rewrite lookup_empty in Hx. Qed.

Lemma in_bounds_insert (P : K -> Prop) m k v :
  P k -> in_bounds P m -> in_bounds P (<[k:=v]> m).
Proof.
  intros Hk Hm k' Hk'. rewrite lookup_insert in Hk'.
  case_decide; [by subst | by apply Hm].
Qed.

Lemma rd_out_of_bounds (P : K -> Prop) m k : in_bounds P m -> ~ P k -> m.[k] = 0.
Proof.
  intros Hm Hk. unfold rd. destruct (m !! k) eqn:E; [|done].
  exfalso. apply Hk, Hm. by rewrite E.
Qed.
End arrays.

(** * Lemmas on loops *)

Lemma for_range_nil {S} b e (body : Z -> S -> S) s : e <= b -> for_range b e body s = s.
Proof. intros. unfold for_range. by rewrite seqZ_nil by lia. Qed.

Lemma for_range_snoc {S} b e (body : Z -> S -> S) s :
  b <= e -> for_range b (e + 1) body s = body e (for_range b e body s).
Proof.
  intros. unfold for_range. replace (e + 1 - b) with ((e - b) + 1) by lia.
  rewrite seqZ_app by lia. rewrite foldl_app. simpl.
  by replace (b + (e - b)) with e by lia.
Qed.

Lemma for_range_cons {S} b e (body : Z -> S -> S) s :
  b < e -> for_range b e body s = for_range (b + 1) e body (body b s).
Proof.
  intros. unfold for_range. rewrite seqZ_cons by lia. simpl.
  by replace (Z.pred (e - b)) with (e - (b + 1)) by lia.
Qed.

(** The loop rule: an indexed invariant. *)
Lemma for_range_ind {S} (P : Z -> S -> Prop) b e (body : Z -> S -> S) s :
  b <= e -> P b s ->
  (forall i s, b <= i < e -> P i s -> P (i + 1) (body i s)) ->
  P e (for_range b e body s).
Proof.
  intros Hbe Hb Hstep.
  assert (forall n, (n <= Z.to_nat (e - b))%nat ->
            P (b + Z.of_nat n) (for_range b (b + Z.of_nat n) body s)) as Hn.
  { induction n as [|n IH]; intros Hle.
    - rewrite Z.add_0_r, for_range_nil by lia. done.
    - replace (b + Z.of_nat (Datatypes.S n)) with (b + Z.of_nat n + 1) by lia.
      rewrite for_range_snoc by lia. apply Hstep; [lia|]. apply IH. lia. }
  specialize (Hn (Z.to_nat (e - b)) ltac:(lia)).
  by replace (b + Z.of_nat (Z.to_nat (e - b))) with e in Hn by lia.
Qed.

(** The loop rule for an invariant that does not depend on the index. *)
Lemma for_range_inv {S} (P : S -> Prop) b e (body : Z -> S -> S) s :
  P s -> (forall i s, b <= i < e -> P s -> P (body i s)) ->
  P (for_range b e body s).
Proof.
  intros Hs Hstep. destruct (decide (b <= e)).
  - by apply (for_range_ind (fun _ => P)).
  - by rewrite for_range_nil by lia.
Qed.

Lemma for_range_ext {S} b e (f g : Z -> S -> S) s :
  (forall i s, b <= i < e -> f i s = g i s) -> for_range b e f s = for_range b e g s.
Proof.
  intros Hfg. unfold for_range. revert s.
  assert (Forall (fun i => forall s, f i s = g i s) (seqZ b (e - b))) as HF.
  { apply Forall_seqZ. intros i Hi s. apply Hfg. lia. }
  induction HF as [|i l Hi HF IH]; intros s; simpl; [done|]. by rewrite Hi, IH.
Qed.

Lemma for_opt_nil {S} b e (f : Z -> S -> option S) s : e <= b -> for_opt b e f s = Some s.
Proof. intros. unfold for_opt. by rewrite seqZ_nil by lia. Qed.

Lemma for_opt_snoc {S} b e (f : Z -> S -> option S) s :
  b <= e -> for_opt b (e + 1) f s = (s ← for_opt b e f s; f e s).
Proof.
  intros. unfold for_opt. replace (e + 1 - b) with ((e - b) + 1) by lia.
  rewrite seqZ_app by lia. rewrite foldl_app. simpl.
  by replace (b + (e - b)) with e by lia.
Qed.

(** An invariant of the iterations that succeed. *)
Lemma for_opt_ind {S} (P : Z -> S -> Prop) b e (f : Z -> S -> option S) s s' :
  b <= e -> P b s -> (forall i s s', b <= i < e -> P i s -> f i s = Some s' -> P (i + 1) s') ->
  for_opt b e f s = Some s' -> P e s'.
Proof.
  intros Hle Hb Hstep. assert (forall k, 0 <= k -> k <= e - b -> forall s', for_opt b (b + k) f s = Some s' -> P (b + k) s') as H.
  { intros k Hk0. pattern k. apply natlike_ind; [| |exact Hk0]; clear k Hk0.
    - intros _ s1. rewrite for_opt_nil by lia. intros [= <-]. by rewrite Z.add_0_r.
    - intros k Hk IH Hke s1. replace (b + Z.succ k) with (b + k + 1) by lia. rewrite for_opt_snoc by lia.
      intros (s2 & H2%IH & H1)%bind_Some; [|lia]. eapply Hstep; [|exact H2|exact H1]. lia. }
  replace e with (b + (e - b)) by lia. apply H; lia.
Qed.

(** Two nested loops are one loop over the pairs in row order. *)
Lemma for_opt_nest {S} a n (f : Z -> Z -> S -> option S) s :
  0 <= a -> 0 < n ->
  for_opt 0 a (fun i => for_opt 0 n (f i)) s = for_opt 0 (a * n) (fun k => f (k / n) (k mod n)) s.
Proof.
  intros Ha Hn. revert a Ha. apply natlike_ind; [by rewrite !for_opt_nil by lia|].
  intros a Ha IH. rewrite <-Z.add_1_r, for_opt_snoc, IH by lia. clear IH.
  assert (forall j, 0 <= j <= n -> for_opt 0 (a * n + j) (fun k => f (k / n) (k mod n)) s
    = (s ← for_opt 0 (a * n) (fun k => f (k / n) (k mod n)) s; for_opt 0 j (f a) s)) as H.
  2: { replace ((a + 1) * n) with (a * n + n) by lia. by rewrite H by lia. }
  intros j Hj. assert (0 <= j) as Hj0 by lia. revert Hj. pattern j.
  apply natlike_ind; [|intros k Hk IH Hj|exact Hj0].
  - intros _. rewrite Z.add_0_r. destruct (for_opt 0 (a * n) _ s); [|done]. cbn. by rewrite for_opt_nil by lia.
  - rewrite <-Z.add_1_r, Z.add_assoc, for_opt_snoc, IH by nia.
    rewrite Z.div_add_l, Z.div_small, Z.add_0_r by lia.
    rewrite (Z.add_comm (a * n)), Z.mod_add, Z.mod_small by lia.
    destruct (for_opt 0 (a * n) _ s); [|done]. cbn. by rewrite for_opt_snoc by lia.
Qed.

(** The rule for a loop whose body runs with some amount of fuel. *)
Lemma for_opt_fuel {S} (P : Z -> S -> Prop) b e (f : nat -> Z -> S -> option S) s :
  b <= e -> P b s ->
  (forall i s, b <= i < e -> P i s -> exists k s',
     (forall fuel, (k <= fuel)%nat -> f fuel i s = Some s') /\ P (i + 1) s') ->
  exists k s', (forall fuel, (k <= fuel)%nat -> for_opt b e (f fuel) s = Some s') /\ P e s'.
Proof.
  intros Hbe Hb Hstep. remember (Z.to_nat (e - b)) as n eqn:En. revert e Hbe En Hstep.
  induction n as [|n IH]; intros e Hbe En Hstep.
  - assert (e = b) as -> by lia. exists 0%nat, s. split; [|done]. intros. by rewrite for_opt_nil by lia.
  - destruct (IH (e - 1)) as (k & s1 & H1 & H2); [lia|lia|intros; apply Hstep; [lia|done]|].
    destruct (Hstep (e - 1) s1) as (k' & s2 & H3 & H4); [lia|done|].
    exists (k `max` k')%nat, s2. replace (e - 1 + 1) with e in H4 by lia. split; [|done].
    intros fuel Hf. replace e with (e - 1 + 1) by lia. rewrite for_opt_snoc by lia.
    rewrite H1 by lia. apply H3. lia.
Qed.

(** A loop that never breaks is the plain loop; one that breaks exactly from
    [k] on is the loop cut at [k]. *)
Lemma for_brk_cut {S} b k e (f : Z -> S -> S) (stop : Z -> bool) s :
  b <= k <= e ->
  (forall i, b <= i < k -> stop i = false) -> (forall i, k <= i < e -> stop i = true) ->
  for_brk b e (fun i s => if stop i then (s, true) else (f i s, false)) s
  = for_range b k f s.
Proof.
  intros Hk Hlo Hhi. unfold for_brk, for_range.
  replace (e - b) with ((k - b) + (e - k)) by lia.
  rewrite seqZ_app by lia. replace (b + (k - b)) with k by lia.
  assert (Forall (fun i => stop i = false) (seqZ b (k - b))) as HF.
  { apply Forall_seqZ. intros i Hi. apply Hlo. lia. }
  clear Hlo. revert s. induction HF as [|i l Hi HF IH]; intros s; simpl.
  - destruct (decide (k < e)); [|by rewrite seqZ_nil by lia].
    rewrite seqZ_cons by lia. simpl. by rewrite Hhi by lia.
  - rewrite Hi. apply IH.
Qed.

(** A loop whose body breaks at the end of iteration [k - 1]. *)
Lemma for_brk_until {S} (P : Z -> S -> Prop) b k e (body : Z -> S -> S * bool) s :
  b < k <= e -> P b s ->
  (forall i s, b <= i < k -> P i s -> P (i + 1) (body i s).1 /\ (body i s).2 = (i =? k - 1)) ->
  P k (for_brk b e body s).
Proof.
  intros Hk Hb Hstep. unfold for_brk.
  assert (forall n i s, Z.of_nat n = k - i -> b <= i < k -> P i s ->
    P k (for_list_brk body (seqZ i (e - i)) s)) as H.
  { induction n as [|n IH]; intros i s' Hn Hi Hs; [lia|].
    rewrite seqZ_cons by lia. cbn [for_list_brk]. destruct (Hstep i s' Hi Hs) as [H1 H2].
    destruct (body i s') as [s2 stop]. cbn in H1, H2. subst stop.
    destruct (Z.eqb_spec i (k - 1)) as [->|].
    - by replace (k - 1 + 1) with k in H1 by lia.
    - replace (Z.pred (e - i)) with (e - (i + 1)) by lia. replace (Z.succ i) with (i + 1) by lia.
      apply IH; [lia|lia|done]. }
  apply (H (Z.to_nat (k - b))); [lia|lia|done].
Qed.

(** * Lemmas on sums *)

Section sums.
Context {A : Type}.
Implicit Types (f g : A -> Z) (l : list A).

Lemma sumZ_cons f x l : sumZ f (x :: l) = f x + sumZ f l.
Proof. reflexivity. Qed.

Lemma sumZ_app f l1 l2 : sumZ f (l1 ++ l2) = sumZ f l1 + sumZ f l2.
Proof. induction l1 as [|x l1 IH]; simpl; lia. Qed.

Lemma sumZ_ext f g l : (forall x, x ∈ l -> f x = g x) -> sumZ f l = sumZ g l.
Proof.
  induction l as [|x l IH]; intros Hfg; simpl; [done|].
  rewrite Hfg, IH; [done| |]; set_solver.
Qed.

Lemma sumZ_bounds f l M :
  (forall x, x ∈ l -> 0 <= f x <= M) -> 0 <= sumZ f l <= M * Z.of_nat (length l).
Proof.
  induction l as [|x l IH]; intros Hf; simpl; [lia|].
  assert (0 <= f x <= M) by (apply Hf; set_solver).
  assert (0 <= sumZ f l <= M * Z.of_nat (length l)) by (apply IH; set_solver). lia.
Qed.

Lemma sumZ_add f g l : sumZ (fun x => f x + g x) l = sumZ f l + sumZ g l.
Proof. induction l as [|x l IH]; simpl; lia. Qed.

Lemma sumZ_zero f l : (forall x, x ∈ l -> f x = 0) -> sumZ f l = 0.
Proof. intros Hf. rewrite (sumZ_ext f (fun _ => 0)) by done. clear Hf. induction l; simpl; lia. Qed.

(** Changing the summand at one index changes the sum by the difference. *)
Lemma sumZ_update f g l a :
  NoDup l -> a ∈ l -> (forall x, x ∈ l -> x <> a -> f x = g x) ->
  sumZ f l = sumZ g l + (f a - g a).
Proof.
  induction 1 as [|x l Hx Hl IH]; intros Ha Hfg; [by apply elem_of_nil in Ha|].
  apply elem_of_cons in Ha as [->|Ha]; simpl.
  - rewrite (sumZ_ext f g l); [lia|].
    intros y Hy. apply Hfg; set_solver.
  - rewrite (Hfg x) by set_solver. rewrite IH by set_solver. lia.
Qed.
End sums.

Lemma sumZ_seqZ_snoc (f : Z -> Z) n :
  0 <= n -> sumZ f (seqZ 0 (n + 1)) = sumZ f (seqZ 0 n) + f n.
Proof.
  intros. rewrite seqZ_app, sumZ_app by lia.
  rewrite (seqZ_cons (0 + n)), (seqZ_nil (Z.succ (0 + n))) by lia. simpl.
  rewrite Z.add_0_l. lia.
Qed.

Lemma sumZ_seqZ_bounds (f : Z -> Z) n M :
  0 <= n -> (forall i, 0 <= i < n -> 0 <= f i <= M) ->
  0 <= sumZ f (seqZ 0 n) <= M * n.
Proof.
  intros Hn Hf. pose proof (sumZ_bounds f (seqZ 0 n) M) as HB.
  rewrite length_seqZ, Z2Nat.id in HB by done. apply HB.
  intros i Hi%elem_of_seqZ. apply Hf. lia.
Qed.

(** * The selection loop *)

Lemma argmax_start score dflt : argmax_upto score dflt 0 0 dflt.
Proof. left. split_and!; [done|done|lia]. Qed.

Lemma argmax_step score dflt k best idx :
  0 <= k -> argmax_upto score dflt k best idx ->
  argmax_upto score dflt (k + 1)
    (if best <? score k then score k else best) (if best <? score k then k else idx).
Proof.
  intros Hk H. unfold argmax_upto in *. destruct (Z.ltb_spec best (score k)).
  - right. split_and!; [lia|lia|done| |].
    + destruct H as [(_ & -> & _)|(_ & _ & Hb & _)]; lia.
    + intros c Hc. destruct (decide (c = k)) as [->|]; [lia|].
      destruct H as [(_ & -> & H)|(_ & _ & Hb & H)].
      * specialize (H c ltac:(lia)). lia.
      * specialize (H c ltac:(lia)). lia.
  - destruct H as [(-> & -> & H)|(Hi & -> & Hb & H)].
    + left. split_and!; [done|done|]. intros c Hc.
      destruct (decide (c = k)) as [->|]; [lia|]. apply H. lia.
    + right. split_and!; [lia|lia|done|done|]. intros c Hc.
      destruct (decide (c = k)) as [->|]; [lia|]. apply H. lia.
Qed.

Lemma argmax_ext score score' dflt k best idx :
  (forall c, 0 <= c < k -> score c = score' c) ->
  argmax_upto score dflt k best idx -> argmax_upto score' dflt k best idx.
Proof.
  intros E [(-> & -> & H)|(Hi & -> & Hb & H)]; [left|right].
  - split_and!; [done|done|]. intros c Hc. rewrite <-E by lia. by apply H.
  - split; [done|]. rewrite <-E by done. split; [done|]. split; [done|].
    intros c Hc. rewrite <-E by done. by apply H.
Qed.

(** Checking a finite range by evaluation. *)
Lemma forallb_seqZ (P : Z -> bool) b n i :
  forallb P (seqZ b n) = true -> b <= i < b + n -> P i = true.
Proof.
  rewrite forallb_forall. intros H Hi. apply H.
  apply list_elem_of_In, elem_of_seqZ. lia.
Qed.

(** * Automation *)

Create HintDb word.
#[export] Hint Resolve wrap_range bits_range in_bounds_empty in_bounds_insert : word.

Create Rewrite HintDb arr.
#[export] Hint Rewrite @rd_insert_eq @rd_empty : arr.
#[export] Hint Rewrite @rd_insert_ne using (congruence || lia) : arr.

(** Reads of written arrays: rewrite the decided ones, split the others. *)
Ltac arr_simpl := repeat (progress autorewrite with arr in * || rewrite rd_insert in *).
Ltac arr_cases := arr_simpl; repeat (case_decide; simplify_eq/=; try lia).

(** Range side conditions. *)
Ltac range := unfold uint in *; lia.

(** * Partitions of an interval *)

(** A nondecreasing sequence of cut points splits the interval between its
    ends: every point lies between exactly one pair of neighbours. *)
Lemma cuts_cover (f : Z -> Z) n i :
  0 <= n -> (forall k, 0 <= k < n -> f k <= f (k + 1)) -> f 0 <= i < f n ->
  exists k, 0 <= k < n /\ f k <= i < f (k + 1) /\
    forall k', 0 <= k' < n -> f k' <= i < f (k' + 1) -> k' = k.
Proof.
  intros Hn Hmono Hi.
  assert (forall a b, 0 <= a <= b -> b <= n -> f a <= f b) as Hle.
  { intros a b [Ha Hab]. pattern b. apply (Zlt_lower_bound_ind _ a); [|done].
    intros x IH Hx Hxn. destruct (decide (x = a)) as [->|]; [done|].
    transitivity (f (x - 1)); [apply IH; lia|].
    replace x with (x - 1 + 1) at 2 by lia. apply Hmono. lia. }
  cut (exists k, 0 <= k < n /\ f k <= i < f (k + 1)).
  { intros (k & Hk & Hik). exists k. split_and!; [lia..|]. intros k' Hk' Hik'.
    destruct (Z.lt_trichotomy k' k) as [H|[H|H]]; [|done|].
    - pose proof (Hle (k' + 1) k). lia.
    - pose proof (Hle (k + 1) k'). lia. }
  clear Hle. revert Hi Hmono. pattern n. apply natlike_ind; [lia| |done].
  intros m Hm IH Hi Hmono. rewrite <-Z.add_1_r in *. destruct (decide (f m <= i)) as [H|H].
  - exists m. lia.
  - destruct IH as (k & Hk & Hik); [lia|intros; apply Hmono; lia|]. exists k. lia.
Qed.
