(* ===== verification/Config.v ===== *)
(** Build configuration and the constants of [nic-sched/Debug.h],
    [nic-sched/Rdma.h] and [nic-sched/fpga.h].

    The server is compiled with [-D] flags (GNUmakefile.in); each of them is a
    field of the class [Config].  A flag that is tested with [#ifdef] is a
    boolean, a flag that is compared with a number is a number that is 0 when
    the flag is not defined (the preprocessor's reading of an undefined name). *)

From S2P Require Import Prelude.

Class Config := {
  MAX_THREAD : Z;
  CLIENT_THREAD : Z;
  ASYNCTXNUM : Z;
  YCSBSIZE : Z;
  YCSBCOL : Z;
  YCSBplusT : bool;
  NULLRPC : bool;
  STATIC_BEST : bool;
  DYNAMIC : bool;
  CPUBASED : Z;
  BASELINE : Z;
}.

(** The ranges of the flags used by the build scripts. *)
Class ConfigOk (C : Config) : Prop := {
  max_thread_ok : 0 < MAX_THREAD <= 22;
  client_thread_ok : 0 < CLIENT_THREAD <= 24;
  slot_num_ok : 0 < ASYNCTXNUM <= 4;
  ycsbcol_ok : 0 < YCSBCOL <= 20;
  ycsbsize_ok : 0 < YCSBSIZE <= 64;
}.

Section constants.
Context {C : Config}.

Definition KEY2NODE_MOD : Z := 1.
Definition MAX_CLIENT : Z := 2.
Definition FEATURE_SIZE : Z := 512.
Definition ABORT_DEPTH : Z := 4096.
Definition FEATURE_TABLE : Z := FEATURE_SIZE / 10.
Definition TABLE_NUM_MAX : Z := 15.
Definition NOTHING_DEBUG : Z := 100.
Definition YCSB_TABLE_SIZE : Z := 10000000.
Definition SLOT_LEN : Z := 2048.
Definition REPLY_LEN : Z := if YCSBplusT then 8192 else SLOT_LEN.
Definition DATA_LEN : Z := if YCSBplusT then 1024 * 18 else 2048.
Definition SLOT_NUM : Z := ASYNCTXNUM.
Definition MAX_CORE : Z := 24.
Definition STRIFE_COST : Z := 16.
Definition MESS_LEN : Z := 64.
Definition MESS_NUM : Z := 256.
Definition strife_buf_num : Z := 1024 * 64.
Definition QUEUE_METADATA : Z := 256.
Definition CORE_NUM : Z := MAX_THREAD.
Definition PARALLEL_IP_NUM : Z := 1.
Definition MAX_SERVER : Z := KEY2NODE_MOD + MAX_CLIENT.
Definition BatchPostRec : Z := 24.
Definition BatchPollSend : Z := 24.
Definition BatchSignalSend : Z := 64.
Definition IDMAPADDRSIZE : Z := 1000.

(** Number of request slots of all the clients. *)
Definition total_slots : Z := MAX_CLIENT * SLOT_NUM * CLIENT_THREAD.

End constants.

(** The flags of ATC_p1_def_ycsb_alnico.sh and of the TPC-C scripts. *)
Definition ycsb_alnico : Config := {|
  MAX_THREAD := 20; CLIENT_THREAD := 24; ASYNCTXNUM := 4; YCSBSIZE := 16;
  YCSBCOL := 20; YCSBplusT := true; NULLRPC := false; STATIC_BEST := false;
  DYNAMIC := false; CPUBASED := 0; BASELINE := 0 |}.

Definition tpcc_alnico : Config := {|
  MAX_THREAD := 20; CLIENT_THREAD := 24; ASYNCTXNUM := 4; YCSBSIZE := 48;
  YCSBCOL := 20; YCSBplusT := false; NULLRPC := false; STATIC_BEST := false;
  DYNAMIC := false; CPUBASED := 0; BASELINE := 0 |}.

#[export] Instance ycsb_alnico_ok : ConfigOk ycsb_alnico.
Proof. split; simpl; lia. Qed.

#[export] Instance tpcc_alnico_ok : ConfigOk tpcc_alnico.
Proof. split; simpl; lia. Qed.
