(* ===== verification/Memory.v ===== *)
(** Byte-addressed memory of the host: little-endian loads and stores of the
    fixed-width fields that the code reads through pointer casts, and [memcpy].

    A memory is an array of bytes indexed by address (absent cells read 0, as
    after the [memset] of every buffer of the program). *)

From S2P Require Import Prelude.

Abbreviation memory := (gmap Z Z).

Definition byte (m : memory) (a : Z) : Z := u8 m.[a].

(** [n] bytes at [a], least significant first. *)
Fixpoint ld (n : nat) (m : memory) (a : Z) : Z :=
  match n with
  | O => 0
  | S n => byte m a + 256 * ld n m (a + 1)
  end.

Fixpoint st (n : nat) (m : memory) (a v : Z) : memory :=
  match n with
  | O => m
  | S n => st n (<[a := u8 v]> m) (a + 1) (v / 256)
  end.

Abbreviation ld16 := (ld 2) (only parsing).
Abbreviation ld32 := (ld 4) (only parsing).
Abbreviation ld64 := (ld 8) (only parsing).
Abbreviation st8 := (st 1) (only parsing).
Abbreviation st16 := (st 2) (only parsing).
Abbreviation st32 := (st 4) (only parsing).
Abbreviation st64 := (st 8) (only parsing).

(** [memcpy(dst, src, n)]: the source is read in [msrc] (the same memory, or
    another machine's for an RDMA write). *)
Definition copy (msrc mdst : memory) (dst src n : Z) : memory :=
  for_range 0 n (fun k m => <[dst + k := byte msrc (src + k)]> m) mdst.

Definition memcpy (m : memory) (dst src n : Z) : memory := copy m m dst src n.

(** * Lemmas *)

Lemma byte_range m a : uint 8 (byte m a).
Proof. apply wrap_range. lia. Qed.

Lemma byte_insert m a v x : uint 8 v -> byte (<[a := v]> m) x = if decide (a = x) then v else byte m x.
Proof.
  intros Hv. unfold byte. rewrite rd_insert. case_decide; [|done]. by apply wrap_small.
Qed.

Lemma ld_range n m a : 0 <= ld n m a < 256 ^ Z.of_nat n.
Proof.
  revert a. induction n as [|n IH]; intros a; [done|]. cbn [ld].
  replace (Z.of_nat (S n)) with (Z.of_nat n + 1) by lia. rewrite Z.pow_add_r by lia.
  pose proof (byte_range m a). specialize (IH (a + 1)). unfold uint in *. lia.
Qed.

Lemma ld32_range m a : uint 32 (ld 4 m a).
Proof. exact (ld_range 4 m a). Qed.

Lemma ld64_range m a : uint 64 (ld 8 m a).
Proof. exact (ld_range 8 m a). Qed.

(** Loads only look at their bytes. *)
Lemma ld_ext n m m' a :
  (forall x, a <= x < a + Z.of_nat n -> byte m x = byte m' x) -> ld n m a = ld n m' a.
Proof.
  revert a. induction n as [|n IH]; intros a H; [done|]. cbn [ld].
  rewrite H by lia. f_equal. f_equal. apply IH. intros x Hx. apply H. lia.
Qed.

Lemma byte_st n m a v x :
  x < a \/ a + Z.of_nat n <= x -> byte (st n m a v) x = byte m x.
Proof.
  revert m a v. induction n as [|n IH]; intros m a v Hx; [done|]. cbn [st].
  rewrite IH by lia. rewrite byte_insert by (apply wrap_range; lia). case_decide; [lia|done].
Qed.

Lemma ld_st_ne k n m a b v :
  b + Z.of_nat k <= a \/ a + Z.of_nat n <= b -> ld k (st n m a v) b = ld k m b.
Proof. intros H. apply ld_ext. intros x Hx. apply byte_st. lia. Qed.

Lemma ld_st n m a v : ld n (st n m a v) a = v mod 256 ^ Z.of_nat n.
Proof.
  revert m a v. induction n as [|n IH]; intros m a v; [by rewrite Z.mod_1_r|].
  cbn [ld st]. rewrite IH, byte_st by lia.
  rewrite byte_insert, decide_True by (done || (apply wrap_range; lia)).
  replace (Z.of_nat (S n)) with (Z.of_nat n + 1) by lia.
  replace (256 ^ (Z.of_nat n + 1)) with (256 * 256 ^ Z.of_nat n) by (rewrite Z.pow_add_r; lia).
  rewrite Z.rem_mul_r by lia. done.
Qed.

Lemma ld32_st32 m a v : ld 4 (st 4 m a v) a = u32 v.
Proof. exact (ld_st 4 m a v). Qed.

Lemma ld64_st64 m a v : ld 8 (st 8 m a v) a = u64 v.
Proof. exact (ld_st 8 m a v). Qed.

Lemma byte_copy ms md dst src n x :
  0 <= n -> byte (copy ms md dst src n) x
  = if (dst <=? x) && (x <? dst + n) then byte ms (src + (x - dst)) else byte md x.
Proof.
  intros Hn. unfold copy.
  apply (for_range_ind (fun k m => byte m x
    = if (dst <=? x) && (x <? dst + k) then byte ms (src + (x - dst)) else byte md x)); [lia| |].
  - destruct (Z.leb_spec dst x), (Z.ltb_spec x (dst + 0)); (done || lia).
  - intros k m Hk IH. rewrite byte_insert by apply byte_range. rewrite IH.
    case_decide as E.
    + subst x. destruct (Z.leb_spec dst (dst + k)), (Z.ltb_spec (dst + k) (dst + (k + 1))); try lia.
      cbn. f_equal. lia.
    + destruct (Z.leb_spec dst x), (Z.ltb_spec x (dst + k)), (Z.ltb_spec x (dst + (k + 1)));
        (done || lia).
Qed.

(** A load inside the copied block, and one outside it. *)
Lemma ld_copy_in n ms md dst src len a :
  dst <= a -> a + Z.of_nat n <= dst + len ->
  ld n (copy ms md dst src len) a = ld n ms (src + (a - dst)).
Proof.
  intros H1 H2. destruct (decide (0 <= len)); [|destruct n; [done|lia]].
  revert a H1 H2. induction n as [|n IH]; intros a H1 H2; [done|]. cbn [ld].
  rewrite byte_copy by lia. destruct (Z.leb_spec dst a), (Z.ltb_spec a (dst + len)); try lia.
  cbn [andb]. f_equal. f_equal. rewrite IH by lia. f_equal. lia.
Qed.

Lemma ld_copy_out n ms md dst src len a :
  0 <= len -> a + Z.of_nat n <= dst \/ dst + len <= a ->
  ld n (copy ms md dst src len) a = ld n md a.
Proof.
  intros Hl H. apply ld_ext. intros x Hx. rewrite byte_copy by done.
  destruct (Z.leb_spec dst x), (Z.ltb_spec x (dst + len)); (done || lia).
Qed.

(** A 32-bit word is two half-words; a half-word is two bytes. *)
Lemma ld32_halves m a : ld 4 m a = ld 2 m a + 65536 * ld 2 m (a + 2).
Proof. cbn [ld]. replace (a + 1 + 1) with (a + 2) by lia. lia. Qed.

Lemma testbit_ld n m a k b :
  0 <= k < Z.of_nat n -> 0 <= b < 8 -> Z.testbit (ld n m a) (8 * k + b) = Z.testbit (byte m (a + k)) b.
Proof.
  revert a k. induction n as [|n IH]; intros a k Hk Hb; [lia|]. cbn [ld].
  pose proof (byte_range m a) as Hr.
  assert (E : forall i, 0 <= i -> Z.testbit (byte m a + 256 * ld n m (a + 1)) i
    = if i <? 8 then Z.testbit (byte m a) i else Z.testbit (ld n m (a + 1)) (i - 8)).
  { intros i Hi. replace (256 * ld n m (a + 1)) with (Z.shiftl (ld n m (a + 1)) 8)
      by (rewrite Z.shiftl_mul_pow2; lia).
    rewrite Z.add_nocarry_lxor.
    2:{ apply Z.bits_inj'. intros j Hj. rewrite Z.land_spec, Z.bits_0, Z.shiftl_spec by done.
        destruct (decide (j < 8)); [rewrite (Z.testbit_neg_r _ (j - 8)) by lia; apply andb_false_r|].
        by rewrite (testbit_small 8) by (done || lia). }
    rewrite Z.lxor_spec, Z.shiftl_spec by done. destruct (Z.ltb_spec i 8).
    - rewrite (Z.testbit_neg_r _ (i - 8)) by lia. apply xorb_false_r.
    - rewrite (testbit_small 8 (byte m a)) by (done || lia). apply xorb_false_l. }
  rewrite E by lia. destruct (decide (k = 0)) as [->|].
  - destruct (Z.ltb_spec (8 * 0 + b) 8); [|lia]. by rewrite Z.add_0_r, Z.add_0_l.
  - destruct (Z.ltb_spec (8 * k + b) 8); [lia|].
    replace (8 * k + b - 8) with (8 * (k - 1) + b) by lia. rewrite IH by lia. do 2 f_equal. lia.
Qed.

Lemma ld16_st16 m a v : ld 2 (st 2 m a v) a = u16 v.
Proof. exact (ld_st 2 m a v). Qed.

Lemma byte_st8 m a v : byte (st 1 m a v) a = u8 v.
Proof. cbn. rewrite byte_insert by (apply wrap_range; lia). by rewrite decide_True. Qed.

Create Rewrite HintDb mem.
#[export] Hint Rewrite ld16_st16 ld32_st32 ld64_st64 byte_st8 : mem.

(** Loads after stores at decided addresses. *)
Ltac mem_step :=
  match goal with
  | |- context [ld ?k (st ?n ?m ?a ?v) ?b] => rewrite (ld_st_ne k n m a b v) by lia
  | |- context [byte (st ?n ?m ?a ?v) ?b] => rewrite (byte_st n m a v b) by lia
  end.
Ltac mem_simpl := repeat (progress autorewrite with mem || mem_step).
