(* ===== verification/Gray.v ===== *)
(** Gray-code table construction shared by the FPGA scheduler
    ([Innova2/scheduler/tx_scheduler.cpp], [init_weight]) and the software
    scheduler ([nic-sched/worker_buf.cpp], [update_weights]).

    Both fill a table [merge_weights[i][b]] with the total weight of the
    features selected by the byte [b] by walking the 8-bit Gray code: two
    consecutive codes differ in one bit, so one addition or subtraction per
    entry is enough. *)

From S2P Require Import Prelude.

(** [now = gray ^ (gray >> 1)] *)
Definition gray_code (g : Z) : Z := Z.lxor g (Z.shiftr g 1).

(** The [switch (delta_bit)] of both functions ([delta_id] starts at 0). *)
Definition delta_id_of (delta_bit : Z) : Z :=
  if delta_bit =? 1 then 0 else if delta_bit =? 2 then 1
  else if delta_bit =? 4 then 2 else if delta_bit =? 8 then 3
  else if delta_bit =? 16 then 4 else if delta_bit =? 32 then 5
  else if delta_bit =? 64 then 6 else if delta_bit =? 128 then 7 else 0.

(** Reference: the weight of the byte [b] when bit [j] weighs [w j]. *)
Definition byte_weight (w : Z -> Z) (b : Z) : Z :=
  sumZ (fun j => if Z.testbit b j then w j else 0) (seqZ 0 8).

(** What one Gray step looks like, as a check that evaluates. *)
Definition gray_step_ok (g : Z) : bool :=
  let now := gray_code g in
  let last := gray_code (g - 1) in
  let k := delta_id_of (Z.lxor now last) in
  (now =? Z.lxor last (2 ^ k)) && (k <? 8) && (0 <=? k) && (0 <=? now) && (now <? 256)
  && Bool.eqb (last <? now) (Z.testbit now k)
  && Bool.eqb (negb (last <? now)) (Z.testbit last k).

Definition gray_onto (n : Z) : bool :=
  forallb (fun b => existsb (fun g => gray_code g =? b) (seqZ 0 n)) (seqZ 0 n).

Lemma gray_steps : forallb gray_step_ok (seqZ 1 255) = true.
Proof. vm_compute. reflexivity. Qed.

Lemma gray_step g :
  1 <= g < 256 ->
  let now := gray_code g in
  let last := gray_code (g - 1) in
  let k := delta_id_of (Z.lxor now last) in
  now = Z.lxor last (2 ^ k) /\ 0 <= k < 8 /\ 0 <= now < 256 /\
  (last <? now) = Z.testbit now k /\ negb (last <? now) = Z.testbit last k.
Proof.
  intros Hg now last k.
  pose proof (forallb_seqZ _ _ _ g gray_steps ltac:(lia)) as H.
  unfold gray_step_ok in H. fold now last k in H.
  rewrite !andb_true_iff, !Bool.eqb_true_iff in H.
  destruct H as ((((((H1 & H2) & H3) & H4) & H5) & H6) & H7).
  repeat split; (exact H6 || exact H7 || lia).
Qed.

Lemma gray_onto_128 : gray_onto 128 = true.
Proof. vm_compute. reflexivity. Qed.

Lemma gray_onto_256 : gray_onto 256 = true.
Proof. vm_compute. reflexivity. Qed.

Lemma gray_surj n b :
  gray_onto n = true -> 0 <= b < n -> exists g, 0 <= g < n /\ gray_code g = b.
Proof.
  intros H Hb. apply (forallb_seqZ _ _ _ b) in H; [|lia].
  apply existsb_exists in H as (g & Hg & Heq).
  apply list_elem_of_In, elem_of_seqZ in Hg. exists g. lia.
Qed.

(** Toggling bit [k] moves the weight of a byte by [w k]. *)
Lemma byte_weight_toggle w a b k :
  0 <= k < 8 -> b = Z.lxor a (2 ^ k) ->
  byte_weight w b = byte_weight w a + (if Z.testbit b k then w k else - w k).
Proof.
  intros Hk ->. unfold byte_weight.
  rewrite (sumZ_update _ (fun j => if Z.testbit a j then w j else 0) _ k).
  - rewrite Z.lxor_spec, Z.pow2_bits_true by lia.
    destruct (Z.testbit a k); simpl; lia.
  - apply NoDup_seqZ.
  - apply elem_of_seqZ. lia.
  - intros x Hx Hne. apply elem_of_seqZ in Hx.
    rewrite Z.lxor_spec, Z.pow2_bits_false by lia. by rewrite xorb_false_r.
Qed.

(** One step of either loop: the running value follows the reference. *)
Lemma byte_weight_step w g :
  1 <= g < 256 ->
  let now := gray_code g in
  let last := gray_code (g - 1) in
  let k := delta_id_of (Z.lxor now last) in
  byte_weight w now = if last <? now then byte_weight w last + w k
                      else byte_weight w last - w k.
Proof.
  intros Hg now last k.
  destruct (gray_step g Hg) as (Heq & Hk & _ & Hlt & _). fold now last k in Heq, Hk, Hlt.
  rewrite (byte_weight_toggle w last now k Hk Heq), <-Hlt.
  destruct (last <? now); lia.
Qed.

Lemma byte_weight_0 w : byte_weight w 0 = 0.
Proof. apply sumZ_zero. intros x _. by rewrite Z.bits_0. Qed.

Lemma byte_weight_bounds w b M :
  0 <= M -> (forall j, 0 <= j < 8 -> 0 <= w j <= M) -> 0 <= byte_weight w b <= M * 8.
Proof.
  intros HM Hw. apply sumZ_seqZ_bounds; [lia|]. intros i Hi.
  specialize (Hw i Hi). destruct (Z.testbit b i); lia.
Qed.

Lemma byte_weight_ext w w' b :
  (forall j, 0 <= j < 8 -> Z.testbit b j = true -> w j = w' j) ->
  byte_weight w b = byte_weight w' b.
Proof.
  intros Hw. apply sumZ_ext. intros j Hj%elem_of_seqZ.
  destruct (Z.testbit b j) eqn:E; [|done]. apply Hw; [lia|done].
Qed.
