(* ===== verification/Fpga.v ===== *)
(** The on-NIC scheduler: [Innova2/scheduler/utils.h], [tx_scheduler.cpp] and
    [no_dma.cpp] (Vivado HLS C++).

    Clients write a 64-byte feature vector and a 4-byte head (core hint and a
    toggle word) into a slot of the card's memory; [check_message_dataflow]
    polls the slots, [compute_core_id] picks the core whose in-flight requests
    share the most heavily weighted features, [doorbell_dataflow] writes the
    slot number into the host queue of that core and [update_cluster] keeps,
    per core and feature, the number of in-flight requests that touch it.

    [typedef int uint32]: the words are signed 32-bit integers; the code only
    looks at them through masks, so a word is any [Z] with the same low bits.
    The FIFO streams are lists (the [HLS stream depth] pragmas bound them; a
    write to a full stream blocks, which only delays the stage). *)

From S2P Require Import Prelude Gray.

Module Hls.

Definition N : Z := 4.
Definition SLOT_LEN : Z := 2048.
Definition MAX_CORE : Z := 24.
Definition MESS_LEN : Z := 64.
Definition MESS_LEN_DIV_4 : Z := 16.
Definition QUEUE_METADATA : Z := 256.
Definition TOTAL_IP_MESS_N : Z := 256.
Definition HOSTADDR : Z := 0x04000000.
Definition CDMA_OFFSET : Z := 0x02000000.
Definition FEATURE_SIZE : Z := 512.
Definition VECTOR_SIZE : Z := 16.

Record cdma_msg_out_t := {
  cm_i : Z; cm_core_id : Z; cm_old_features : Z; cm_new_features : Z }.

Record update_cluster_in_t := {
  uc_old_features : Z; uc_new_features : Z; uc_i : Z; uc_core_id : Z }.

Record compute_id_out_t := { ci_i : Z; ci_core_id : Z }.

Record membership_t := { mb_index : Z; mb_old_index : Z; mb_ans : Z }.

Definition cheat (m : membership_t) (x cheat_ans : Z) : membership_t :=
  {| mb_index := x; mb_old_index := mb_index m; mb_ans := cheat_ans |}.

(** The [static] variables of no_dma.cpp, its streams and the five memories
    behind the AXI ports.  An array is a total map: a core number past [MAX_CORE]
    (the 16-bit hint of a client is not checked) has entries of its own here, where
    the card would index past [clusters], [bit_clusters] and [queue_metadata]. *)
Record fpga := {
  CLIENT_NUM : Z; SLOT_NUM : Z; CORE_NUM : Z; MESS_NUM : Z;
  BASE_ADDR : Z; b_client : Z; e_client : Z; b_core : Z; e_core : Z; ip_id : Z;
  ii : Z; jj : Z; kk : Z;
  clusters : gmap (Z * Z) Z;
  QUEUE_ADDR_BASE : Z; my_client_num : Z;
  slot_partition0 : Z; slot_partition1 : Z; max_slot : Z;
  slot_offset0 : gmap Z Z; slot_offset1 : gmap Z Z;
  features0 : gmap Z Z; features1 : gmap Z Z;
  RRB0 : gmap Z Z; RRB1 : gmap Z Z;
  old_core_id : gmap Z Z;
  bit_clusters : gmap Z Z;
  weights : gmap (Z * Z) Z;
  hard_partition : gmap Z Z;
  merge_weights : gmap (Z * Z) Z;
  queue_addr_map : gmap Z Z;
  queue_metadata : gmap (Z * Z) Z;
  check_msg_out0 : list cdma_msg_out_t;
  check_msg_out1 : list cdma_msg_out_t;
  compute_core_id_out : list compute_id_out_t;
  update_cluster_in : list update_cluster_in_t;
  m0 : gmap Z Z; m1 : gmap Z Z; hostm : gmap Z Z; cdma : gmap Z Z; cdma_buf : gmap Z Z
}.

#[export] Instance eta_fpga : Eta fpga := fun s => {|
  CLIENT_NUM := CLIENT_NUM s; SLOT_NUM := SLOT_NUM s; CORE_NUM := CORE_NUM s;
  MESS_NUM := MESS_NUM s; BASE_ADDR := BASE_ADDR s; b_client := b_client s;
  e_client := e_client s; b_core := b_core s; e_core := e_core s; ip_id := ip_id s;
  ii := ii s; jj := jj s; kk := kk s; clusters := clusters s;
  QUEUE_ADDR_BASE := QUEUE_ADDR_BASE s; my_client_num := my_client_num s;
  slot_partition0 := slot_partition0 s; slot_partition1 := slot_partition1 s;
  max_slot := max_slot s; slot_offset0 := slot_offset0 s; slot_offset1 := slot_offset1 s;
  features0 := features0 s; features1 := features1 s; RRB0 := RRB0 s; RRB1 := RRB1 s;
  old_core_id := old_core_id s; bit_clusters := bit_clusters s; weights := weights s;
  hard_partition := hard_partition s; merge_weights := merge_weights s;
  queue_addr_map := queue_addr_map s; queue_metadata := queue_metadata s;
  check_msg_out0 := check_msg_out0 s; check_msg_out1 := check_msg_out1 s;
  compute_core_id_out := compute_core_id_out s; update_cluster_in := update_cluster_in s;
  m0 := m0 s; m1 := m1 s; hostm := hostm s; cdma := cdma s; cdma_buf := cdma_buf s |}.

(** Constructor of [clusters_t]: all counters 0 but [clusters[i][i] = 1]. *)
Definition clusters_init : gmap (Z * Z) Z :=
  for_range 0 24 (fun i m =>
    let m := for_range 0 FEATURE_SIZE (fun j m => <[(i, j) := 0]> m) m in
    <[(i, i) := 1]> m) ∅.

(** Power-on state. *)
Definition fpga_reset : fpga := {|
  CLIENT_NUM := 0; SLOT_NUM := 0; CORE_NUM := 0; MESS_NUM := 0; BASE_ADDR := 0;
  b_client := 0; e_client := 0; b_core := 0; e_core := 0; ip_id := 0;
  ii := 0; jj := 0; kk := 0; clusters := clusters_init; QUEUE_ADDR_BASE := 0;
  my_client_num := 0; slot_partition0 := 0; slot_partition1 := 0; max_slot := 0;
  slot_offset0 := ∅; slot_offset1 := ∅; features0 := ∅; features1 := ∅;
  RRB0 := ∅; RRB1 := ∅; old_core_id := ∅; bit_clusters := ∅; weights := ∅;
  hard_partition := ∅; merge_weights := ∅; queue_addr_map := ∅; queue_metadata := ∅;
  check_msg_out0 := []; check_msg_out1 := []; compute_core_id_out := [];
  update_cluster_in := []; m0 := ∅; m1 := ∅; hostm := ∅; cdma := ∅; cdma_buf := ∅ |}.

(** ** init_weight *)

(** Locals of the Gray loop: [now], [last_value] and the global table. *)
Record gray_st := { g_now : Z; g_value : gmap Z Z; g_merge : gmap (Z * Z) Z }.

Definition init_weight_step (w : gmap (Z * Z) Z) (gray : Z) (s : gray_st) : gray_st :=
  let last := g_now s in
  let now := u8 (gray_code gray) in
  let delta_bit := Z.lxor now last in
  let delta_id_ := delta_id_of delta_bit in
  for_range 0 64 (fun i s =>
    let v := if last <? now then u8 ((g_value s).[i] + w.[(i, delta_id_)])
             else u8 ((g_value s).[i] - w.[(i, delta_id_)]) in
    {| g_now := g_now s; g_value := <[i := v]> (g_value s);
       g_merge := <[(i, now) := v]> (g_merge s) |})
    {| g_now := now; g_value := g_value s; g_merge := g_merge s |}.

(** [memcpy(weights, cdma_buf + 0x200000, FEATURE_SIZE)] *)
Definition load_weights (buf : gmap Z Z) (w : gmap (Z * Z) Z) : gmap (Z * Z) Z :=
  for_range 0 FEATURE_SIZE (fun k m => <[(k / 8, k mod 8) := buf.[0x200000 + k]]> m) w.

(** [memcpy(hard_partition, cdma_buf + 0x200000 + FEATURE_SIZE, FEATURE_SIZE)] *)
Definition load_partition (buf hp : gmap Z Z) : gmap Z Z :=
  for_range 0 FEATURE_SIZE (fun k m => <[k := buf.[0x200000 + FEATURE_SIZE + k]]> m) hp.

(** [LOOP_UW_IT] *)
Definition gray_start (mw : gmap (Z * Z) Z) : gray_st :=
  for_range 0 64 (fun i g =>
    {| g_now := g_now g; g_value := <[i := 0]> (g_value g);
       g_merge := <[(i, 0) := 0]> (g_merge g) |})
    {| g_now := 0; g_value := ∅; g_merge := mw |}.

(** [for (int gray = 1; gray < 128; gray++)] *)
Definition gray_loop (w mw : gmap (Z * Z) Z) : gray_st :=
  for_range 1 128 (init_weight_step w) (gray_start mw).

Definition init_weight (s : fpga) : fpga :=
  let w := load_weights (cdma_buf s) (weights s) in
  let mw := g_merge (gray_loop w (merge_weights s)) in
  let hp := load_partition (cdma_buf s) (hard_partition s) in
  let cd := <[CDMA_OFFSET + 0x6 := HOSTADDR]> (cdma s) in
  let cd := <[CDMA_OFFSET + 0x8 := 0x200000]> cd in
  let cd := <[CDMA_OFFSET + 10 := FEATURE_SIZE * 2]> cd in
  s <| weights := w |> <| merge_weights := mw |> <| hard_partition := hp |> <| cdma := cd |>.

(** ** init_bitmap *)

Definition init_bitmap (s : fpga) : fpga :=
  s <| bit_clusters :=
    for_range 0 FEATURE_SIZE (fun f bc =>
      let my_hp := (hard_partition s).[f] in
      let my_hp_true := my_hp =? 25 in
      for_range 0 22 (fun i bc =>
        <[i := set_bit bc.[i] f
                 ((my_hp =? i) || (negb ((clusters s).[(i, f)] =? 0) && my_hp_true))]> bc) bc)
      (bit_clusters s) |>.

(** ** doorbell_dataflow *)

Definition doorbell_dataflow (s : fpga) : fpga :=
  match compute_core_id_out s with
  | [] => s
  | doorbell_msg :: rest =>
      let c := ci_core_id doorbell_msg in
      let local_head := (queue_metadata s).[(c, 0)] in
      let qm := <[(c, 0) := s32 (local_head + 1)]> (queue_metadata s) in
      let qm := if local_head =? MESS_NUM s - 1 then <[(c, 0) := 0]> qm else qm in
      let queue_offset := (queue_addr_map s).[c] + local_head * MESS_LEN_DIV_4 in
      s <| compute_core_id_out := rest |> <| queue_metadata := qm |>
        <| hostm := <[queue_offset := ci_i doorbell_msg]> (hostm s) |>
  end.

(** ** update_cluster *)

Definition update_cluster_bits (msg : update_cluster_in_t) (old_index : Z)
    (cl : gmap (Z * Z) Z) : gmap (Z * Z) Z :=
  for_range 0 512 (fun f cl =>
    let cl := if Z.testbit (uc_old_features msg) f
              then <[(old_index, f) := u8 (cl.[(old_index, f)] - 1)]> cl else cl in
    if Z.testbit (uc_new_features msg) f
    then <[(uc_core_id msg, f) := u8 (cl.[(uc_core_id msg, f)] + 1)]> cl else cl) cl.

Definition update_cluster (s : fpga) : fpga :=
  match update_cluster_in s with
  | [] => s
  | msg :: rest =>
      let old_index := (old_core_id s).[uc_i msg] in
      s <| update_cluster_in := rest |>
        <| clusters := update_cluster_bits msg old_index (clusters s) |>
        <| old_core_id := <[uc_i msg := uc_core_id msg]> (old_core_id s) |>
  end.

(** ** compute_core_id *)

(** The inner loop: the 16-bit accumulator over the 64 bytes. *)
Definition ansmap (mw : gmap (Z * Z) Z) (distance_bitmap : Z) : Z :=
  for_range 0 64 (fun f a => u16 (a + mw.[(f, bits distance_bitmap (8 * f) 8)])) 0.

Definition core_id_func (s : fpga) (msg : cdma_msg_out_t) : fpga :=
  let membership := cheat {| mb_index := 0; mb_old_index := 0; mb_ans := 0 |}
                      (cm_core_id msg) 9 in
  let membership := {| mb_index := mb_index membership;
                       mb_old_index := mb_old_index membership; mb_ans := 0 |} in
  let membership :=
    for_brk 0 22 (fun c mb =>
      if CORE_NUM s <=? c then (mb, true)
      else
        let distance_bitmap := Z.land (cm_new_features msg) (bit_clusters s).[c] in
        let a := ansmap (merge_weights s) distance_bitmap in
        ((if mb_ans mb <? a
          then {| mb_index := c; mb_old_index := mb_old_index mb; mb_ans := a |}
          else mb), false)) membership in
  s <| compute_core_id_out := compute_core_id_out s ++
         [{| ci_i := cm_i msg; ci_core_id := mb_index membership |}] |>
    <| update_cluster_in := update_cluster_in s ++
         [{| uc_old_features := cm_old_features msg; uc_new_features := cm_new_features msg;
             uc_i := cm_i msg; uc_core_id := mb_index membership |}] |>.

Definition compute_core_id (s : fpga) : fpga :=
  if kk s =? 0 then
    match check_msg_out0 s with
    | [] => s <| kk := 1 |>
    | msg :: rest => core_id_func (s <| check_msg_out0 := rest |>) msg
    end
  else
    match check_msg_out1 s with
    | [] => s <| kk := 0 |>
    | msg :: rest => core_id_func (s <| check_msg_out1 := rest |>) msg
    end.

(** ** check_message *)

Definition load_feature (offset : Z) (features : Z) (m_d : gmap Z Z) : Z :=
  for_range 0 VECTOR_SIZE (fun c x => set_bits x (c * 32) 32 m_d.[offset + c]) features.

(** [(tmp_RRB | 0xFFFF0000) == ((~RRB[i]) | 0xFFFF0000)] *)
Definition toggled (tmp_RRB rrb : Z) : bool :=
  Z.lor (u32 tmp_RRB) 0xFFFF0000 =? Z.lor (u32 (Z.lnot rrb)) 0xFFFF0000.

Definition check_message_dataflow_nodma0 (s : fpga) : fpga :=
  let i := ii s in
  let now_slot_offset0 := (slot_offset0 s).[i] in
  let message_head := (m0 s).[now_slot_offset0] in
  let tmp_RRB := Z.land (Z.shiftr message_head 16) 0xFFFF in
  let s := if toggled tmp_RRB (RRB0 s).[i] then
      let core_id := Z.land message_head 0xFFFF in
      let nf := load_feature (now_slot_offset0 - 16) 0 (m0 s) in
      let tmp_msg := {| cm_i := i; cm_core_id := core_id;
                        cm_old_features := (features0 s).[i]; cm_new_features := nf |} in
      s <| RRB0 := <[i := tmp_RRB]> (RRB0 s) |>
        <| check_msg_out0 := check_msg_out0 s ++ [tmp_msg] |>
        <| features0 := <[i := nf]> (features0 s) |>
    else s in
  if ii s =? slot_partition0 s - 1 then s <| ii := 0 |> else s <| ii := ii s + 1 |>.

(** The second half polls [m1_addr = m1 + 0x40000]. *)
Definition check_message_dataflow_nodma1 (s : fpga) : fpga :=
  let j := jj s in
  let now_slot_offset1 := (slot_offset1 s).[j] in
  let message_head := (m1 s).[0x40000 + now_slot_offset1] in
  let tmp_RRB := Z.land (Z.shiftr message_head 16) 0xFFFF in
  let s := if toggled tmp_RRB (RRB1 s).[j] then
      let core_id := Z.land message_head 0xFFFF in
      let nf := load_feature (0x40000 + now_slot_offset1 - 16) 0 (m1 s) in
      let tmp_msg := {| cm_i := j + slot_partition1 s; cm_core_id := core_id;
                        cm_old_features := (features1 s).[j]; cm_new_features := nf |} in
      s <| RRB1 := <[j := tmp_RRB]> (RRB1 s) |>
        <| check_msg_out1 := check_msg_out1 s ++ [tmp_msg] |>
        <| features1 := <[j := nf]> (features1 s) |>
    else s in
  if jj s =? slot_partition1 s - 1 then s <| jj := 0 |> else s <| jj := jj s + 1 |>.

(** ** dataflow_no_dma and schedule_nodma *)

Definition dataflow_no_dma (s : fpga) : fpga :=
  update_cluster (doorbell_dataflow (compute_core_id
    (check_message_dataflow_nodma1 (check_message_dataflow_nodma0 s)))).

(** The arguments of [schedule_nodma] (AXI-lite registers). *)
Record sched_args := {
  con : Z; a_BASE_ADDR : Z; a_CLIENT_NUM : Z; a_SLOT_NUM : Z; a_CORE_NUM : Z;
  a_MESS_NUM : Z; a_b_client : Z; a_e_client : Z; a_b_core : Z; a_e_core : Z; a_ip_id : Z }.

(** The queue loop: [addr] advances by one dispatch queue per core. *)
Definition init_queues (s : fpga) : fpga :=
  let addr0 := SLOT_LEN * SLOT_NUM s * CLIENT_NUM s + HOSTADDR in
  snd (for_range 0 (CORE_NUM s) (fun i '(addr, s) =>
    let parallel_offset := (MESS_NUM s * MESS_LEN * ip_id s) / 2 in
    (addr + (TOTAL_IP_MESS_N * MESS_LEN + QUEUE_METADATA),
     s <| queue_metadata := <[(i, 0) := 0]> (queue_metadata s) |>
       <| queue_addr_map :=
            <[i := (addr + QUEUE_METADATA + parallel_offset) / 4]> (queue_addr_map s) |>))
    (addr0, s)).

(** The slot loop. *)
Definition init_slots (s : fpga) : fpga :=
  for_range 0 (my_client_num s) (fun i s =>
    for_range 0 (SLOT_NUM s) (fun j s =>
      let s :=
        if i * 2 <? my_client_num s then
          let k := i * SLOT_NUM s + j in
          s <| slot_offset0 := <[k := (SLOT_LEN * k + QUEUE_ADDR_BASE s) / 4 + 16]> (slot_offset0 s) |>
            <| RRB0 := <[k := 0]> (RRB0 s) |> <| RRB1 := <[k := 0]> (RRB1 s) |>
        else
          let k := (i - my_client_num s / 2) * SLOT_NUM s + j in
          s <| slot_offset1 := <[k := (SLOT_LEN * k + QUEUE_ADDR_BASE s) / 4 + 16]> (slot_offset1 s) |> in
      s <| old_core_id := <[i * SLOT_NUM s + j := CORE_NUM s]> (old_core_id s) |>) s) s.

(** The part of [schedule_nodma] before the test on [con]. *)
Definition schedule_setup (a : sched_args) (s : fpga) : fpga :=
  let s := s <| BASE_ADDR := a_BASE_ADDR a |> <| CLIENT_NUM := a_CLIENT_NUM a |>
             <| SLOT_NUM := a_SLOT_NUM a |> <| CORE_NUM := a_CORE_NUM a |>
             <| MESS_NUM := a_MESS_NUM a |> <| b_client := a_b_client a |>
             <| e_client := a_e_client a |> <| b_core := a_b_core a |>
             <| e_core := a_e_core a |> <| ip_id := a_ip_id a |>
             <| my_client_num := a_e_client a - a_b_client a |>
             <| QUEUE_ADDR_BASE := a_b_client a * a_SLOT_NUM a * SLOT_LEN |> in
  let s := init_slots (init_queues s) in
  let s := s <| max_slot := SLOT_NUM s * my_client_num s |> in
  let s := s <| slot_partition0 := max_slot s / 2 |> <| slot_partition1 := max_slot s / 2 |> in
  (* cdma[CDMA_OFFSET] = 4; cdma[CDMA_OFFSET] = 0x7000 *)
  s <| cdma := <[CDMA_OFFSET := 0x00007000]> (<[CDMA_OFFSET := 0x00000004]> (cdma s)) |>.

(** [*total_offset] *)
Definition total_offset_value (s : fpga) : Z :=
  (m1 s).[(SLOT_LEN * SLOT_NUM s * CLIENT_NUM s / 2) / 4 + 0x40000].

(** One round of [LOOP_WHILETRUE]; [None] is the [return]. *)
Definition loop_round (s : fpga) (u_w : Z) : option (fpga * Z) :=
  if u_w mod 2 =? 0 then
    if u_w =? 1024 then
      if negb (total_offset_value s =? 666) then None
      else if Z.land (cdma s).[CDMA_OFFSET + 1] 0x2 =? 0x2 then Some (init_weight s, 0)
           else Some (s, 0)
    else Some (init_bitmap s, u_w + 1)
  else Some (for_range 0 1024 (fun _ => dataflow_no_dma) s, u_w + 1).

(** [n] rounds of the loop, or the state in which it returned. *)
Fixpoint loop_rounds (n : nat) (s : fpga) (u_w : Z) : fpga * option Z :=
  match n with
  | O => (s, Some u_w)
  | S n => match loop_round s u_w with
           | None => (s, None)
           | Some (s', u_w') => loop_rounds n s' u_w'
           end
  end.

(** The self test ([con == 1]). *)
Definition self_test (s : fpga) : fpga :=
  let base := BASE_ADDR s / 4 in
  let buff := for_range 0 (N + 2) (fun k b => <[k := (m0 s).[base + k]]> b) (∅ : gmap Z Z) in
  let buff := <[0 := s32 (buff.[0] + 2)]> buff in
  let buff := for_range 0 (N - 1) (fun i b => <[i + 1 := s32 (b.[i] + 2)]> b) buff in
  s <| m0 := for_range 0 (N + 2) (fun k m => <[base + k := buff.[k]]> m) (m0 s) |>
    <| cdma_buf := <[0x200000 := 0xFF]> (cdma_buf s) |>
    <| cdma := <[CDMA_OFFSET + 10 := FEATURE_SIZE]>
         (<[CDMA_OFFSET + 0x8 := HOSTADDR]> (<[CDMA_OFFSET + 0x6 := 0x200000]> (cdma s))) |>.

(** [schedule_nodma], its [while (true)] bounded by [rounds] iterations. *)
Definition schedule_nodma (rounds : nat) (a : sched_args) (s : fpga) : fpga :=
  let s := schedule_setup a s in
  if con a =? 2 then
    fst (loop_rounds rounds (s <| ii := 0 |> <| jj := 0 |> <| kk := 0 |>) 1024)
  else if con a =? 1 then self_test s
  else s.

End Hls.
