(* ===== verification/FpgaProps.v ===== *)
(** Correctness of the stages of the on-NIC scheduler of [Fpga].

    - [init_weight]: the Gray-code table is the per-byte weighted sum;
    - [init_bitmap]: a core's bitmap is its non-zero counters, overridden by
      the hard partition;
    - [core_id_func]: the core chosen is the first one with the greatest
      positive similarity, and the similarity computed from the table is the
      weighted sum over the shared features;
    - [load_feature], [check_message_dataflow_nodma0/1], [doorbell_dataflow]. *)

From S2P Require Import Prelude Gray Fpga.
Import Hls.

(** * Specification vocabulary *)

(** The weight of feature [8 * f + j] as the FPGA holds it. *)
Definition fweight (s : fpga) (f j : Z) : Z := (weights s).[(f, j)].

(** Every entry of the merged table is a byte. *)
Definition table_ok (mw : gmap (Z * Z) Z) : Prop := forall f b, uint 8 mw.[(f, b)].

(** The bytes of the DMA buffer are bytes. *)
Definition bytes_ok (m : gmap Z Z) : Prop := forall k, uint 8 m.[k].

(** Similarity of a request with core [c] according to the table. *)
Definition table_score (s : fpga) (nf c : Z) : Z :=
  sumZ (fun f => (merge_weights s).[(f, bits (Z.land nf (bit_clusters s).[c]) (8 * f) 8)])
       (seqZ 0 64).

(** The number of cores [core_id_func] looks at. *)
Definition scanned_cores (s : fpga) : Z := Z.max 0 (Z.min 22 (CORE_NUM s)).

(** The core the message is sent to. *)
Definition chosen_core (s : fpga) (msg : cdma_msg_out_t) : Z :=
  from_option ci_core_id 0 (last (compute_core_id_out (core_id_func s msg))).

(** * init_weight *)

(** The invariant of the Gray loop before round [g]. *)
Definition gray_inv (w mw0 : gmap (Z * Z) Z) (g : Z) (s : gray_st) : Prop :=
  g_now s = gray_code (g - 1) /\
  (forall i, 0 <= i < 64 ->
     (g_value s).[i] = u8 (byte_weight (fun j => w.[(i, j)]) (gray_code (g - 1)))) /\
  (forall i g', 0 <= i < 64 -> 0 <= g' < g ->
     (g_merge s).[(i, gray_code g')] = u8 (byte_weight (fun j => w.[(i, j)]) (gray_code g'))) /\
  (forall i b, 128 <= b -> (g_merge s).[(i, b)] = mw0.[(i, b)]) /\
  (table_ok mw0 -> table_ok (g_merge s)).

(** The invariant of the inner loop of round [g], before row [r]. *)
Definition row_inv (w mw0 : gmap (Z * Z) Z) (g : Z) (s0 : gray_st) (r : Z) (s : gray_st) : Prop :=
  g_now s = gray_code g /\
  (forall i, 0 <= i < 64 ->
     (g_value s).[i] = if i <? r then u8 (byte_weight (fun j => w.[(i, j)]) (gray_code g))
                       else (g_value s0).[i]) /\
  (forall i b, (g_merge s).[(i, b)]
     = if (0 <=? i) && (i <? r) && (b =? gray_code g)
       then u8 (byte_weight (fun j => w.[(i, j)]) (gray_code g)) else (g_merge s0).[(i, b)]).

Lemma gray_code_range g : 1 <= g < 256 -> 0 <= gray_code g < 256.
Proof. intros Hg. by destruct (gray_step g Hg) as (_ & _ & H & _). Qed.

Lemma gray_code_128 g : 0 <= g < 128 -> 0 <= gray_code g < 128.
Proof.
  intros Hg. apply (forallb_seqZ (fun g => (0 <=? gray_code g) && (gray_code g <? 128)) 0 128) in Hg.
  - lia.
  - vm_compute. reflexivity.
Qed.

Lemma init_weight_rows w mw0 g s0 :
  1 <= g < 128 -> gray_inv w mw0 g s0 ->
  row_inv w mw0 g s0 64 (init_weight_step w g s0).
Proof.
  intros Hg (Hnow & Hval & _). unfold init_weight_step.
  apply (for_range_ind (row_inv w mw0 g s0)); [lia| |].
  - unfold row_inv; simpl. rewrite wrap_small by (pose proof (gray_code_range g); range).
    split_and!; [done| |].
    + intros i Hi. destruct (Z.ltb_spec i 0); [lia|done].
    + intros i b. destruct (Z.leb_spec 0 i), (Z.ltb_spec i 0); simpl; (lia || done).
  - intros r s Hr (H1 & H2 & H3). unfold row_inv; cbn [g_now g_value g_merge].
    assert ((if g_now s0 <? u8 (gray_code g)
       then u8 ((g_value s).[r] + w.[(r, delta_id_of (Z.lxor (u8 (gray_code g)) (g_now s0)))])
       else u8 ((g_value s).[r] - w.[(r, delta_id_of (Z.lxor (u8 (gray_code g)) (g_now s0)))]))
      = u8 (byte_weight (fun j => w.[(r, j)]) (gray_code g))) as Hv.
    { rewrite (wrap_small 8 (gray_code g)) by (pose proof (gray_code_range g); range).
      rewrite Hnow, H2, Hval by lia. destruct (Z.ltb_spec r r); [lia|].
      rewrite wrap_add_l, wrap_sub_l by lia.
      rewrite (byte_weight_step (fun j => w.[(r, j)]) g) by lia.
      by destruct (gray_code (g - 1) <? gray_code g). }
    rewrite Hv, (wrap_small 8 (gray_code g)) by (pose proof (gray_code_range g); range).
    split_and!; [done| |].
    + intros i Hi. rewrite rd_insert. case_decide as E; [subst|].
      * by destruct (Z.ltb_spec i (i + 1)); [|lia].
      * rewrite H2 by done. by destruct (Z.ltb_spec i r), (Z.ltb_spec i (r + 1)); try lia.
    + intros i b. rewrite rd_insert. case_decide as E; [simplify_eq|].
      * rewrite Z.eqb_refl. by destruct (Z.leb_spec 0 i), (Z.ltb_spec i (i + 1)); try lia.
      * rewrite H3. destruct (Z.eqb_spec b (gray_code g)); [|by rewrite !andb_false_r].
        destruct (Z.leb_spec 0 i), (Z.ltb_spec i r), (Z.ltb_spec i (r + 1)); simpl; try done; try lia.
        exfalso. apply E. f_equal; lia.
Qed.

Lemma init_weight_step_inv w mw0 g s :
  1 <= g < 128 -> gray_inv w mw0 g s -> gray_inv w mw0 (g + 1) (init_weight_step w g s).
Proof.
  intros Hg Hinv. destruct (init_weight_rows w mw0 g s Hg Hinv) as (R1 & R2 & R3).
  destruct Hinv as (Hnow & Hval & Hmerge & Hhigh & Htab).
  unfold gray_inv. replace (g + 1 - 1) with g by lia. split_and!.
  - done.
  - intros i Hi. rewrite R2 by done. by destruct (Z.ltb_spec i 64); [|lia].
  - intros i g' Hi Hg'. rewrite R3. destruct (Z.eqb_spec (gray_code g') (gray_code g)) as [->|Hne].
    + by destruct (Z.leb_spec 0 i), (Z.ltb_spec i 64); try lia.
    + rewrite andb_false_r. apply Hmerge; [done|].
      destruct (decide (g' = g)); [by subst|lia].
  - intros i b Hb. rewrite R3. pose proof (gray_code_128 g).
    destruct (Z.eqb_spec b (gray_code g)); [lia|]. rewrite andb_false_r. by apply Hhigh.
  - intros HT f b. rewrite R3. destruct (_ && _); [apply wrap_range; lia|]. by apply Htab.
Qed.

Lemma init_weight_start w mw0 : gray_inv w mw0 1 (gray_start mw0).
Proof.
  set (r := gray_start mw0).
  assert (g_now r = 0 /\ (forall i, 0 <= i < 64 -> (g_value r).[i] = 0) /\
    (forall i b, (g_merge r).[(i, b)] = if (0 <=? i) && (i <? 64) && (b =? 0) then 0 else mw0.[(i, b)]))
    as (H1 & H2 & H3).
  { apply (for_range_ind (fun k g => g_now g = 0 /\
      (forall i, 0 <= i < 64 -> (g_value g).[i] = 0) /\
      (forall i b, (g_merge g).[(i, b)]
         = if (0 <=? i) && (i <? k) && (b =? 0) then 0 else mw0.[(i, b)]))); [lia| |]; simpl.
    - split_and!; [done|done|]. intros i b.
      by destruct (Z.leb_spec 0 i), (Z.ltb_spec i 0); try lia.
    - intros k g Hk (E1 & E2 & E3). split_and!; [done| |].
      + intros i Hi. rewrite rd_insert. case_decide; [done|by apply E2].
      + intros i b. rewrite rd_insert. case_decide as E; [simplify_eq|].
        * by destruct (Z.leb_spec 0 i), (Z.ltb_spec i (i + 1)); try lia.
        * rewrite E3. destruct (Z.eqb_spec b 0); [|by rewrite !andb_false_r].
          destruct (Z.leb_spec 0 i), (Z.ltb_spec i k), (Z.ltb_spec i (k + 1)); simpl; try done; try lia.
          exfalso. apply E. f_equal; lia. }
  unfold gray_inv. change (gray_code (1 - 1)) with 0. split_and!.
  - done.
  - intros i Hi. by rewrite H2, byte_weight_0.
  - intros i g' Hi Hg'. replace g' with 0 by lia. change (gray_code 0) with 0.
    rewrite H3, byte_weight_0. by destruct (Z.leb_spec 0 i), (Z.ltb_spec i 64); try lia.
  - intros i b Hb. rewrite H3. destruct (Z.eqb_spec b 0); [lia|]. by rewrite andb_false_r.
  - intros HT f b. rewrite H3. destruct (_ && _); [unfold uint; lia|]. apply HT.
Qed.

Lemma gray_loop_inv w mw0 : gray_inv w mw0 128 (gray_loop w mw0).
Proof.
  unfold gray_loop. apply (for_range_ind (gray_inv w mw0)).
  - lia.
  - apply init_weight_start.
  - apply init_weight_step_inv.
Qed.

(** The table holds the weighted sum of every byte below 128, and nothing was
    written at or above 128. *)
Lemma gray_loop_table w mw0 i b :
  0 <= i < 64 -> 0 <= b < 128 ->
  (g_merge (gray_loop w mw0)).[(i, b)] = u8 (byte_weight (fun j => w.[(i, j)]) b).
Proof.
  intros Hi Hb. destruct (gray_surj 128 b gray_onto_128 Hb) as (g & Hg & <-).
  destruct (gray_loop_inv w mw0) as (_ & _ & H & _). by apply H.
Qed.

Lemma gray_loop_high w mw0 i b :
  128 <= b -> (g_merge (gray_loop w mw0)).[(i, b)] = mw0.[(i, b)].
Proof. destruct (gray_loop_inv w mw0) as (_ & _ & _ & H & _). apply H. Qed.

Lemma gray_loop_ok w mw0 : table_ok mw0 -> table_ok (g_merge (gray_loop w mw0)).
Proof. destruct (gray_loop_inv w mw0) as (_ & _ & _ & _ & H). exact H. Qed.

Lemma load_weights_spec buf w i j :
  0 <= i < 64 -> 0 <= j < 8 -> (load_weights buf w).[(i, j)] = buf.[0x200000 + (8 * i + j)].
Proof.
  intros Hi Hj. unfold load_weights.
  apply (for_range_ind (fun k m => 8 * i + j < k ->
    m.[(i, j)] = buf.[0x200000 + (8 * i + j)]) 0 FEATURE_SIZE); [done|lia| |unfold FEATURE_SIZE; lia].
  intros k m Hk IH Hlt. rewrite rd_insert. case_decide as E.
  - injection E as E1 E2. f_equal. pose proof (Z.div_mod k 8). lia.
  - apply IH. destruct (decide (k = 8 * i + j)) as [->|]; [|lia].
    exfalso. apply E. f_equal; symmetry;
      [eapply Z.div_unique_pos with j|eapply Z.mod_unique_pos with i]; lia.
Qed.

Lemma load_partition_spec buf hp f :
  0 <= f < 512 -> (load_partition buf hp).[f] = buf.[0x200000 + 512 + f].
Proof.
  intros Hf. unfold load_partition.
  apply (for_range_ind (fun k m => f < k -> m.[f] = buf.[0x200000 + 512 + f]) 0 FEATURE_SIZE);
    [done|lia| |unfold FEATURE_SIZE; lia].
  intros k m Hk IH Hlt. rewrite rd_insert. case_decide as E; [by subst|]. apply IH. lia.
Qed.

(** [init_weight] copies the 512 weights and the hard partition from the DMA
    buffer and, for every byte position and every byte value below 128, the
    merged table holds the 8-bit sum of the weights of the bits set in it; rows
    at 128 and above keep their old content. *)
Theorem init_weight_correct (s : fpga) (i : Z) :
  0 <= i < 64 ->
  let s' := init_weight s in
  (forall j, 0 <= j < 8 -> (weights s').[(i, j)] = (cdma_buf s).[0x200000 + (8 * i + j)]) /\
  (forall f, 0 <= f < 512 -> (hard_partition s').[f] = (cdma_buf s).[0x200000 + 512 + f]) /\
  (forall b, 0 <= b < 128 ->
     (merge_weights s').[(i, b)] = u8 (byte_weight (fweight s' i) b)) /\
  (forall b, 128 <= b -> (merge_weights s').[(i, b)] = (merge_weights s).[(i, b)]).
Proof.
  intros Hi s'. split_and!.
  - intros j Hj. exact (load_weights_spec _ _ i j Hi Hj).
  - intros f Hf. exact (load_partition_spec _ _ f Hf).
  - intros b Hb. by apply gray_loop_table.
  - intros b Hb. by apply gray_loop_high.
Qed.

Lemma init_weight_correct_witness :
  0 <= 3 < 64 /\
  (merge_weights (init_weight (fpga_reset <| cdma_buf := <[0x200000 + 25 := 7]> (<[0x200000 + 27 := 5]> ∅) |>))).[(3, 10)]
  = 12.
Proof.
  set (s := fpga_reset <| cdma_buf := <[0x200000 + 25 := 7]> (<[0x200000 + 27 := 5]> ∅) |>).
  split; [lia|]. destruct (init_weight_correct s 3 ltac:(lia)) as (_ & _ & H & _).
  rewrite (H 10) by lia. vm_compute. reflexivity.
Defined.

(** a byte whose top feature (bit 7) is shared weighs nothing on a freshly
    configured card, whatever the weights: the Gray loop stops at 128, so the
    upper half of the merged table keeps its initial zeros and the other seven
    features of that byte are lost with it. *)
Theorem init_weight_bit7_lost (buf : gmap Z Z) (i b : Z) :
  0 <= i < 64 -> 128 <= b < 256 ->
  (merge_weights (init_weight (fpga_reset <| cdma_buf := buf |>))).[(i, b)] = 0.
Proof. intros Hi Hb. etrans; [apply gray_loop_high; lia|]. done. Qed.

Lemma init_weight_bit7_lost_witness :
  0 <= 0 < 64 /\ 128 <= 129 < 256 /\
  (merge_weights (init_weight (fpga_reset <| cdma_buf := <[0x200000 + 7 := 50]> (<[0x200000 := 50]> ∅) |>))).[(0, 129)] = 0.
Proof. split; [lia|]. split; [lia|]. apply (init_weight_bit7_lost _ 0 129); lia. Defined.

(** * init_bitmap *)

Definition bitmap_bit (s : fpga) (i f : Z) : bool :=
  ((hard_partition s).[f] =? i)
  || (negb ((clusters s).[(i, f)] =? 0) && ((hard_partition s).[f] =? 25)).

Lemma init_bitmap_row s f bc :
  0 <= f < 512 ->
  forall i g, 0 <= i -> 0 <= g ->
  Z.testbit (for_range 0 22 (fun i bc => <[i := set_bit bc.[i] f (bitmap_bit s i f)]> bc) bc).[i] g
  = if (i <? 22) && (g =? f) then bitmap_bit s i f else Z.testbit bc.[i] g.
Proof.
  intros Hf i g Hi Hg.
  apply (for_range_ind (fun k m =>
    Z.testbit m.[i] g = if (i <? k) && (g =? f) then bitmap_bit s i f else Z.testbit bc.[i] g));
    [lia| |].
  - by destruct (Z.ltb_spec i 0); [lia|].
  - intros k m Hk IH. rewrite rd_insert. case_decide as E.
    + subst. rewrite testbit_set_bit by lia. destruct (Z.ltb_spec i (i + 1)); [|lia].
      rewrite (Z.eqb_sym f g). destruct (g =? f); simpl; [done|].
      rewrite IH. by rewrite andb_false_r.
    + rewrite IH. by destruct (Z.ltb_spec i k), (Z.ltb_spec i (k + 1)); try lia.
Qed.

(** after [init_bitmap], bit [f] of the bitmap of core [i] (22 cores, 512
    features) is set exactly when the hard partition gives [f] to core [i], or
    [f] is unpartitioned (25) and core [i] has an in-flight request using it;
    the bitmaps of the other cores are unchanged. *)
Theorem init_bitmap_correct (s : fpga) (i f : Z) :
  0 <= i -> 0 <= f ->
  Z.testbit (bit_clusters (init_bitmap s)).[i] f
  = if (i <? 22) && (f <? 512) then bitmap_bit s i f else Z.testbit (bit_clusters s).[i] f.
Proof.
  intros Hi Hf. unfold init_bitmap; cbn [set_field bit_clusters].
  apply (for_range_ind (fun k m => Z.testbit m.[i] f
    = if (i <? 22) && (f <? k) then bitmap_bit s i f else Z.testbit (bit_clusters s).[i] f));
    [done| |].
  - destruct (Z.ltb_spec f 0); [lia|]. by rewrite andb_false_r.
  - intros k m Hk IH. unfold FEATURE_SIZE in Hk.
    etrans; [exact (init_bitmap_row s k m ltac:(lia) i f Hi Hf)|]. rewrite IH.
    destruct (Z.ltb_spec i 22); simpl; [|done].
    destruct (Z.eqb_spec f k) as [->|].
    + by destruct (Z.ltb_spec k (k + 1)); [|lia].
    + by destruct (Z.ltb_spec f k), (Z.ltb_spec f (k + 1)); try lia.
Qed.

Lemma init_bitmap_correct_witness :
  0 <= 3 /\ 0 <= 7 /\
  Z.testbit (bit_clusters (init_bitmap (fpga_reset <| hard_partition := <[7 := 3]> ∅ |>))).[3] 7 = true.
Proof. split; [lia|]. split; [lia|]. rewrite (init_bitmap_correct _ 3 7); [reflexivity|lia|lia]. Defined.

(** * core_id_func *)

Lemma ansmap_sum mw x :
  table_ok mw -> ansmap mw x = sumZ (fun f => mw.[(f, bits x (8 * f) 8)]) (seqZ 0 64).
Proof.
  intros HT. unfold ansmap.
  assert (for_range 0 64 (fun f a => u16 (a + mw.[(f, bits x (8 * f) 8)])) 0
          = sumZ (fun f => mw.[(f, bits x (8 * f) 8)]) (seqZ 0 64)
          /\ 0 <= 64 <= 64) as [H _]; [|exact H].
  apply (for_range_ind (fun k a => a = sumZ (fun f => mw.[(f, bits x (8 * f) 8)]) (seqZ 0 k)
                                   /\ 0 <= k <= 64)); [lia|split; [done|lia]|].
  intros k a Hk [-> _]. split; [|lia]. rewrite sumZ_seqZ_snoc by lia. apply wrap_small.
  pose proof (sumZ_seqZ_bounds (fun f => mw.[(f, bits x (8 * f) 8)]) k 255 ltac:(lia)) as HB.
  pose proof (HT k (bits x (8 * k) 8)). unfold uint in *.
  assert (0 <= sumZ (fun f => mw.[(f, bits x (8 * f) 8)]) (seqZ 0 k) <= 255 * k); [|lia].
  apply HB. intros i _. pose proof (HT i (bits x (8 * i) 8)). unfold uint in *. lia.
Qed.

Lemma core_loop_argmax s nf d :
  table_ok (merge_weights s) ->
  let mb := for_range 0 (scanned_cores s) (fun c mb =>
      let a := ansmap (merge_weights s) (Z.land nf (bit_clusters s).[c]) in
      if mb_ans mb <? a then {| mb_index := c; mb_old_index := mb_old_index mb; mb_ans := a |} else mb)
    {| mb_index := d; mb_old_index := 0; mb_ans := 0 |} in
  argmax_upto (table_score s nf) d (scanned_cores s) (mb_ans mb) (mb_index mb).
Proof.
  intros HT. apply (for_range_ind (fun k mb =>
    argmax_upto (table_score s nf) d k (mb_ans mb) (mb_index mb))).
  - unfold scanned_cores. lia.
  - apply argmax_start.
  - intros k mb Hk IH. apply argmax_step in IH; [|lia].
    cbv beta zeta. rewrite ansmap_sum by done. fold (table_score s nf k) in *.
    destruct (mb_ans mb <? table_score s nf k); exact IH.
Qed.

Lemma chosen_core_loop s msg :
  chosen_core s msg = mb_index (for_range 0 (scanned_cores s) (fun c mb =>
      let a := ansmap (merge_weights s) (Z.land (cm_new_features msg) (bit_clusters s).[c]) in
      if mb_ans mb <? a then {| mb_index := c; mb_old_index := mb_old_index mb; mb_ans := a |} else mb)
    {| mb_index := cm_core_id msg; mb_old_index := 0; mb_ans := 0 |}).
Proof.
  unfold chosen_core, core_id_func; cbn [set_field compute_core_id_out].
  rewrite last_snoc. cbn [from_option option_rect ci_core_id]. f_equal.
  apply (for_brk_cut 0 (scanned_cores s) 22 (fun c mb =>
      let a := ansmap (merge_weights s) (Z.land (cm_new_features msg) (bit_clusters s).[c]) in
      if mb_ans mb <? a then {| mb_index := c; mb_old_index := mb_old_index mb; mb_ans := a |} else mb)
      (fun c => CORE_NUM s <=? c)); unfold scanned_cores; lia.
Qed.

(** C34: [core_id_func] sends a request to the first core with the greatest
    positive similarity among the cores it scans ([min(22, CORE_NUM)]), and to
    the core named in the request when no core is similar. *)
Theorem core_choice_argmax (s : fpga) (msg : cdma_msg_out_t) :
  table_ok (merge_weights s) ->
  exists best, argmax_upto (table_score s (cm_new_features msg)) (cm_core_id msg)
                 (scanned_cores s) best (chosen_core s msg).
Proof. intros HT. rewrite chosen_core_loop. eexists. by apply core_loop_argmax. Qed.

Lemma core_choice_argmax_witness :
  let s := fpga_reset <| CORE_NUM := 4 |> <| merge_weights := <[(0, 1) := 9]> ∅ |>
             <| bit_clusters := <[2 := 1]> ∅ |> in
  let msg := {| cm_i := 5; cm_core_id := 3; cm_old_features := 0; cm_new_features := 1 |} in
  table_ok (merge_weights s) /\ chosen_core s msg = 2 /\
  exists best, argmax_upto (table_score s 1) 3 4 best 2.
Proof.
  intros s msg. assert (table_ok (merge_weights s)) as HT.
  { intros f b. subst s. simpl. arr_simpl. case_decide; unfold uint; [lia|]. arr_simpl. lia. }
  split; [done|]. assert (chosen_core s msg = 2) as E by (vm_compute; reflexivity).
  split; [exact E|]. rewrite <-E. exact (core_choice_argmax s msg HT).
Defined.

(** The table lookup of one byte, when its table entry was built by
    [init_weight] from weights that do not overflow. *)
Lemma table_byte s f x :
  0 <= f < 64 -> 0 <= x < 128 ->
  (forall j, 0 <= j < 8 -> 0 <= fweight s f j <= 31) ->
  (merge_weights s).[(f, x)] = u8 (byte_weight (fweight s f) x) ->
  (merge_weights s).[(f, x)] = byte_weight (fweight s f) x.
Proof.
  intros Hf Hx Hw ->. apply wrap_small.
  pose proof (byte_weight_bounds (fweight s f) x 31 ltac:(lia) Hw). unfold uint. lia.
Qed.

Lemma bits_below_128 x f :
  0 <= f -> Z.testbit x (8 * f + 7) = false -> 0 <= bits x (8 * f) 8 < 128.
Proof.
  intros Hf Hb. assert (bits x (8 * f) 8 = wrap 7 (bits x (8 * f) 8)) as ->.
  { apply (uint_bits_inj 8); [lia|apply bits_range; lia| |].
    - pose proof (wrap_range 7 (bits x (8 * f) 8)). unfold uint in *. lia.
    - intros i Hi. rewrite testbit_wrap, testbit_bits by lia.
      destruct (Z.ltb_spec i 7); [done|]. replace i with 7 by lia. by rewrite Hb. }
  apply wrap_range. lia.
Qed.

(** The total weight, in the DMA buffer, of the features that the request [nf]
    shares with core [c]. *)
Definition dma_weight (s : fpga) (nf c : Z) : Z :=
  sumZ (fun f => if Z.testbit nf f && Z.testbit (bit_clusters s).[c] f then (cdma_buf s).[0x200000 + f] else 0) (seqZ 0 512).

Lemma sumZ_bytes (g : Z -> Z) n :
  0 <= n -> sumZ g (seqZ 0 (8 * n)) = sumZ (fun i => sumZ (fun j => g (8 * i + j)) (seqZ 0 8)) (seqZ 0 n).
Proof.
  intros Hn. pattern n. apply natlike_ind; [done| |exact Hn]. clear n Hn. intros n Hn IH.
  unfold Z.succ. rewrite sumZ_seqZ_snoc by lia. rewrite <-IH.
  replace (8 * (n + 1)) with (8 * n + 8) by lia. rewrite seqZ_app, sumZ_app by lia. f_equal.
  replace (0 + 8 * n) with (8 * n + 0) by lia. rewrite <-fmap_add_seqZ. clear IH. induction (seqZ 0 8) as [|x l IHl]; [done|].
  change (g (8 * n + x) + sumZ g (Z.add (8 * n) <$> l) = g (8 * n + x) + sumZ (fun j => g (8 * n + j)) l). by rewrite IHl.
Qed.

(** What the scheduler uses of a card on which [init_weight] has run. *)
Record weights_read (s s' : fpga) : Prop := {
  wr_bits : bit_clusters s' = bit_clusters s;
  wr_cores : scanned_cores s' = scanned_cores s;
  wr_weight i j : 0 <= i < 64 -> 0 <= j < 8 -> fweight s' i j = (cdma_buf s).[0x200000 + (8 * i + j)];
  wr_table i b : 0 <= i < 64 -> 0 <= b < 128 -> (merge_weights s').[(i, b)] = u8 (byte_weight (fweight s' i) b);
  wr_ok : table_ok (merge_weights s) -> table_ok (merge_weights s') }.

Lemma init_weight_read s : weights_read s (init_weight s).
Proof.
  split; [done|done|intros i j Hi Hj; exact (load_weights_spec _ _ i j Hi Hj)|intros i b Hi Hb; by apply gray_loop_table|].
  intros HT. by apply gray_loop_ok.
Qed.

Lemma init_weight_score s s' nf c :
  weights_read s s' -> (forall f, 0 <= f < 512 -> 0 <= (cdma_buf s).[0x200000 + f] <= 31) ->
  (forall i, 0 <= i < 64 -> Z.testbit nf (8 * i + 7) && Z.testbit (bit_clusters s).[c] (8 * i + 7) = false) ->
  table_score s' nf c = dma_weight s nf c.
Proof.
  intros HR Hw Hb. unfold dma_weight, table_score. change 512 with (8 * 64). rewrite sumZ_bytes by lia.
  rewrite (wr_bits _ _ HR). apply sumZ_ext. intros i Hi%elem_of_seqZ.
  assert (0 <= bits (Z.land nf (bit_clusters s).[c]) (8 * i) 8 < 128) as Hx.
  { apply bits_below_128; [lia|]. rewrite Z.land_spec. apply Hb. lia. }
  rewrite table_byte; [|lia|exact Hx| |apply (wr_table _ _ HR); [lia|done]].
  - apply sumZ_ext. intros j Hj%elem_of_seqZ. rewrite testbit_bits, Z.land_spec by lia. destruct (Z.ltb_spec j 8); [|lia].
    by rewrite (wr_weight _ _ HR) by lia.
  - intros j Hj. rewrite (wr_weight _ _ HR) by lia. apply Hw. lia.
Qed.

(** C35: the scheduler decides by the weights of the DMA buffer.  After [init_weight]
    has read weights of at most 31 and built its table, the similarity that
    [core_id_func] computes with 64 look-ups is, for every core it scans with which
    the request shares no top feature of a byte, the sum of the weights of the
    features shared; if that is so for all of them, the request goes to the first
    core with the greatest such sum. *)
Theorem similarity_is_shared_weight (s : fpga) (msg : cdma_msg_out_t) :
  table_ok (merge_weights s) -> (forall f, 0 <= f < 512 -> 0 <= (cdma_buf s).[0x200000 + f] <= 31) ->
  let no_top c := forall i, 0 <= i < 64 ->
    Z.testbit (cm_new_features msg) (8 * i + 7) && Z.testbit (bit_clusters s).[c] (8 * i + 7) = false in
  (forall c, no_top c -> ansmap (merge_weights (init_weight s)) (Z.land (cm_new_features msg) (bit_clusters s).[c])
    = dma_weight s (cm_new_features msg) c) /\
  ((forall c, 0 <= c < scanned_cores s -> no_top c) ->
   exists best, argmax_upto (dma_weight s (cm_new_features msg)) (cm_core_id msg) (scanned_cores s) best
     (chosen_core (init_weight s) msg)).
Proof.
  intros HT Hw no_top. pose proof (init_weight_read s) as HR. generalize dependent (init_weight s). intros s' HR.
  pose proof (wr_ok _ _ HR HT) as HT'. split.
  - intros c Hc. rewrite ansmap_sum by done. rewrite <-(wr_bits _ _ HR). exact (init_weight_score s s' _ c HR Hw Hc).
  - intros Hb. rewrite chosen_core_loop. eexists. eapply argmax_ext; [|rewrite <-(wr_cores _ _ HR); by apply core_loop_argmax].
    intros c Hc. apply (init_weight_score s); [done|done|by apply Hb].
Qed.

Lemma similarity_is_shared_weight_witness :
  let s := fpga_reset <| CORE_NUM := 4 |> <| cdma_buf := <[0x200000 := 9]> (<[0x200000 + 9 := 4]> ∅) |>
             <| bit_clusters := <[1 := 1]> (<[2 := 513]> ∅) |> in
  let msg := {| cm_i := 5; cm_core_id := 3; cm_old_features := 0; cm_new_features := 515 |} in
  chosen_core (init_weight s) msg = 2 /\ dma_weight s 515 2 = 13 /\
  ansmap (merge_weights (init_weight s)) (Z.land 515 513) = dma_weight s 515 2 /\
  exists best, argmax_upto (dma_weight s 515) 3 4 best (chosen_core (init_weight s) msg).
Proof.
  intros s msg. split; [vm_compute; reflexivity|]. split; [vm_compute; reflexivity|].
  destruct (similarity_is_shared_weight s msg) as [H1 H2].
  - intros f b. unfold uint. subst s. cbn [set_field merge_weights fpga_reset]. rewrite rd_empty. lia.
  - intros f Hf. subst s. cbn [set_field cdma_buf]. arr_simpl. case_decide; [lia|]. arr_simpl. case_decide; [lia|]. arr_simpl. lia.
  - assert (forall c i, 0 <= i < 64 -> Z.testbit 515 (8 * i + 7) && Z.testbit (bit_clusters s).[c] (8 * i + 7) = false) as Hb.
    { intros c i Hi. destruct (decide (i = 0)) as [->|]; [reflexivity|].
      rewrite (testbit_small 10 515) by (unfold uint; lia). done. }
    split; [exact (H1 2 (Hb 2))|]. apply H2. intros c _. exact (Hb c).
Defined.

(** * check_message *)

Lemma load_feature_bits off m k :
  0 <= k <= 16 ->
  let x := for_range 0 k (fun c x => set_bits x (c * 32) 32 m.[off + c]) 0 in
  uint 512 x /\
  forall c b, 0 <= c < k -> 0 <= b < 32 -> Z.testbit x (32 * c + b) = Z.testbit m.[off + c] b.
Proof.
  intros Hk x. assert (k <= 16 /\ uint 512 x /\ forall c b, 0 <= c < k -> 0 <= b < 32 ->
    Z.testbit x (32 * c + b) = Z.testbit m.[off + c] b) as (_ & H); [|exact H].
  subst x. apply (for_range_ind (fun k x => k <= 16 /\ uint 512 x /\
    forall c b, 0 <= c < k -> 0 <= b < 32 ->
    Z.testbit x (32 * c + b) = Z.testbit m.[off + c] b)); [lia| |].
  - split_and!; [lia|unfold uint; lia|lia].
  - intros i x Hi (_ & Hx & IH). split_and!; [lia|by apply set_bits_range; [lia..|]|].
    intros c b Hc Hb. rewrite testbit_set_bits by lia.
    destruct (Z.leb_spec (i * 32) (32 * c + b)), (Z.ltb_spec (32 * c + b) (i * 32 + 32)); simpl;
      try (apply IH; lia).
    assert (c = i) as -> by lia. f_equal. lia.
Qed.

(** The test on the toggle half-word: the two 16-bit values are complements. *)
Lemma toggled_spec t r : uint 16 t -> uint 16 r -> toggled t r = (t + r =? 0xFFFF).
Proof.
  intros Ht Hr. unfold toggled.
  assert (forall x, uint 16 x -> Z.lor x 0xFFFF0000 = x + 0xFFFF0000) as Hor.
  { intros x Hx. rewrite <-Z.lxor_lor, <-Z.add_nocarry_lxor; [done|..];
      apply Z.bits_inj'; intros i Hi; rewrite Z.land_spec, Z.bits_0;
      destruct (decide (i < 16)); try (rewrite (testbit_small 16 x) by (done || lia); done);
      change 0xFFFF0000 with (Z.shiftl 0xFFFF 16); rewrite Z.shiftl_spec by done;
      rewrite (Z.testbit_neg_r _ (i - 16)) by lia; apply andb_false_r. }
  assert (Z.lor (u32 (Z.lnot r)) 0xFFFF0000 = (0xFFFF - r) + 0xFFFF0000) as ->.
  { replace (u32 (Z.lnot r)) with (0xFFFF0000 + (0xFFFF - r)).
    2:{ unfold wrap, Z.lnot. apply Z.mod_unique_pos with (-1); unfold uint in *; lia. }
    rewrite Z.add_comm, <-(Hor (0xFFFF - r)) by (unfold uint in *; lia).
    by rewrite <-Z.lor_assoc. }
  rewrite (wrap_small 32) by (unfold uint in *; lia). rewrite Hor by done.
  destruct (Z.eqb_spec (t + r) 0xFFFF), (Z.eqb_spec (t + 0xFFFF0000) (0xFFFF - r + 0xFFFF0000)); lia.
Qed.

(** The toggle half-word of a message head. *)
Definition head_rrb (head : Z) : Z := Z.land (Z.shiftr head 16) 0xFFFF.

Lemma head_rrb_range h : uint 16 (head_rrb h).
Proof. apply (bits_range h 16 16). lia. Qed.

(** The request found in slot [i] of the first half. *)
Definition slot_msg0 (s : fpga) (i : Z) : cdma_msg_out_t :=
  let off := (slot_offset0 s).[i] in
  {| cm_i := i; cm_core_id := Z.land (m0 s).[off] 0xFFFF;
     cm_old_features := (features0 s).[i]; cm_new_features := load_feature (off - 16) 0 (m0 s) |}.

(** The two branches of [check_message_dataflow_nodma0]. *)
Lemma check0_eq s :
  uint 16 (RRB0 s).[ii s] ->
  let i := ii s in
  let rrb := head_rrb (m0 s).[(slot_offset0 s).[i]] in
  let i' := if i =? slot_partition0 s - 1 then 0 else i + 1 in
  check_message_dataflow_nodma0 s =
    if rrb + (RRB0 s).[i] =? 0xFFFF then
      s <| RRB0 := <[i := rrb]> (RRB0 s) |>
        <| check_msg_out0 := check_msg_out0 s ++ [slot_msg0 s i] |>
        <| features0 := <[i := cm_new_features (slot_msg0 s i)]> (features0 s) |> <| ii := i' |>
    else s <| ii := i' |>.
Proof.
  intros Hr i rrb i'. unfold check_message_dataflow_nodma0.
  fold (head_rrb (m0 s).[(slot_offset0 s).[ii s]]).
  rewrite toggled_spec by (apply head_rrb_range || done). fold i rrb.
  subst i'. destruct (rrb + (RRB0 s).[i] =? 0xFFFF); simpl; fold i;
    destruct (i =? slot_partition0 s - 1); reflexivity.
Qed.

(** polling a slot hands its request to the scheduler exactly when the
    toggle half-word of its head is the complement of the one remembered: the
    message carries the slot number, the core hint, the features previously
    read from the slot and the 512 new ones (bit [32 c + b] is bit [b] of the
    [c]-th word before the head), and polling the same unchanged slot again
    reports nothing. *)
Theorem check_message0_once (s : fpga) :
  uint 16 (RRB0 s).[ii s] ->
  let i := ii s in
  let off := (slot_offset0 s).[i] in
  let s' := check_message_dataflow_nodma0 s in
  (head_rrb (m0 s).[off] + (RRB0 s).[i] = 0xFFFF ->
     check_msg_out0 s' = check_msg_out0 s ++ [slot_msg0 s i] /\
     (features0 s').[i] = cm_new_features (slot_msg0 s i) /\
     uint 512 (features0 s').[i] /\
     (forall c b, 0 <= c < 16 -> 0 <= b < 32 ->
        Z.testbit (features0 s').[i] (32 * c + b) = Z.testbit (m0 s).[off - 16 + c] b)) /\
  (head_rrb (m0 s).[off] + (RRB0 s).[i] <> 0xFFFF ->
     check_msg_out0 s' = check_msg_out0 s /\ features0 s' = features0 s /\ RRB0 s' = RRB0 s) /\
  check_msg_out0 (check_message_dataflow_nodma0 (s' <| ii := i |>)) = check_msg_out0 s'.
Proof.
  intros Hr i off s'. pose proof (head_rrb_range (m0 s).[off]) as Hh.
  assert (E := check0_eq s Hr). cbv zeta in E. fold s' i off in E.
  split_and!.
  - intros Ht. destruct (Z.eqb_spec (head_rrb (m0 s).[off] + (RRB0 s).[i]) 0xFFFF); [|done].
    rewrite E; cbn [set_field check_msg_out0 features0]. rewrite rd_insert_eq.
    pose proof (load_feature_bits (off - 16) (m0 s) 16 ltac:(lia)) as [L1 L2].
    split_and!; [done|done|exact L1|exact L2].
  - intros Ht. destruct (Z.eqb_spec (head_rrb (m0 s).[off] + (RRB0 s).[i]) 0xFFFF); [done|].
    by rewrite E.
  - assert ((m0 s').[(slot_offset0 s').[i]] = (m0 s).[off]) as Em.
    { rewrite E. by destruct (_ =? 0xFFFF). }
    assert (RRB0 s' = if head_rrb (m0 s).[off] + (RRB0 s).[i] =? 0xFFFF
      then <[i := head_rrb (m0 s).[off]]> (RRB0 s) else RRB0 s) as Er.
    { rewrite E. by destruct (_ =? 0xFFFF). }
    assert (head_rrb (m0 s).[off] + (RRB0 s').[i] <> 0xFFFF /\ uint 16 (RRB0 s').[i]) as [H1 H2].
    { rewrite Er. destruct (Z.eqb_spec (head_rrb (m0 s).[off] + (RRB0 s).[i]) 0xFFFF);
        rewrite ?rd_insert_eq; split; (done || lia). }
    clearbody s' i off. rewrite check0_eq by exact H2. cbn. rewrite Em.
    destruct (Z.eqb_spec (head_rrb (m0 s).[off] + (RRB0 s').[i]) 0xFFFF); done.
Qed.

Lemma check_message0_once_witness :
  let s := fpga_reset <| slot_partition0 := 2 |> <| slot_offset0 := <[0 := 16]> ∅ |>
             <| m0 := <[16 := 0xFFFF0003]> (<[1 := 5]> ∅) |> in
  uint 16 (RRB0 s).[ii s] /\
  check_msg_out0 (check_message_dataflow_nodma0 s) = [slot_msg0 s 0] /\
  cm_new_features (slot_msg0 s 0) = 5 * 2 ^ 32.
Proof.
  intros s. assert (uint 16 (RRB0 s).[ii s]) as Hr by (vm_compute; split; congruence).
  split; [exact Hr|]. split; [|vm_compute; reflexivity].
  destruct (check_message0_once s Hr) as (H & _).
  destruct H as (H & _); [vm_compute; reflexivity|]. exact H.
Defined.

(** * doorbell_dataflow *)

(** ringing a doorbell writes the slot number of the oldest scheduled
    request into the next cell of the ring of its core and advances the head of
    that ring modulo [MESS_NUM]; every other cell and every other ring is
    unchanged, and the heads stay inside the rings. *)
Theorem doorbell_ring (s : fpga) (msg : compute_id_out_t) (rest : list compute_id_out_t) :
  compute_core_id_out s = msg :: rest ->
  0 < MESS_NUM s < 2 ^ 31 ->
  (forall c, 0 <= (queue_metadata s).[(c, 0)] < MESS_NUM s) ->
  let s' := doorbell_dataflow s in
  let c := ci_core_id msg in
  let h := (queue_metadata s).[(c, 0)] in
  compute_core_id_out s' = rest /\
  hostm s' = <[(queue_addr_map s).[c] + 16 * h := ci_i msg]> (hostm s) /\
  (queue_metadata s').[(c, 0)] = (h + 1) mod MESS_NUM s /\
  (forall c', c' <> c -> (queue_metadata s').[(c', 0)] = (queue_metadata s).[(c', 0)]) /\
  (forall c', 0 <= (queue_metadata s').[(c', 0)] < MESS_NUM s').
Proof.
  intros Hout Hn Hq s' c h.
  assert (Hh : 0 <= h < MESS_NUM s) by apply Hq.
  assert (E : forall c', (queue_metadata s').[(c', 0)]
    = if decide (c' = c) then (h + 1) mod MESS_NUM s else (queue_metadata s).[(c', 0)]).
  { intros c'. subst s'. unfold doorbell_dataflow. rewrite Hout. cbn [set_field queue_metadata].
    fold c h. rewrite (Z.mod_eq (h + 1)) by lia.
    assert (s32 (h + 1) = h + 1) as ->.
    { unfold s32. rewrite Z.mod_small; lia. }
    destruct (Z.eqb_spec h (MESS_NUM s - 1)) as [->|].
    - replace (MESS_NUM s - 1 + 1) with (MESS_NUM s) by lia. rewrite Z.div_same by lia.
      case_decide as D; [subst c'; rewrite rd_insert_eq; lia|].
      rewrite !rd_insert_ne by congruence. done.
    - rewrite Z.div_small by lia.
      case_decide as D; [subst c'; rewrite rd_insert_eq; lia|].
      rewrite !rd_insert_ne by congruence. done. }
  assert (MESS_NUM s' = MESS_NUM s) as Em.
  { subst s'. unfold doorbell_dataflow. by rewrite Hout. }
  split_and!.
  - subst s'. unfold doorbell_dataflow. by rewrite Hout.
  - subst s'. unfold doorbell_dataflow. rewrite Hout. cbn [set_field hostm]. fold c h.
    do 2 f_equal. unfold MESS_LEN_DIV_4. lia.
  - rewrite E. by rewrite decide_True.
  - intros c' Hc. rewrite E. by rewrite decide_False.
  - intros c'. rewrite E, Em. case_decide; [apply Z.mod_pos_bound; lia|apply Hq].
Qed.

Lemma doorbell_ring_witness :
  let s := fpga_reset <| MESS_NUM := 4 |> <| queue_metadata := <[(2, 0) := 3]> ∅ |>
             <| queue_addr_map := <[2 := 100]> ∅ |>
             <| compute_core_id_out := [{| ci_i := 7; ci_core_id := 2 |}] |> in
  compute_core_id_out s = [{| ci_i := 7; ci_core_id := 2 |}] /\
  (hostm (doorbell_dataflow s)).[148] = 7 /\ (queue_metadata (doorbell_dataflow s)).[(2, 0)] = 0.
Proof.
  intros s. split; [reflexivity|].
  destruct (doorbell_ring s {| ci_i := 7; ci_core_id := 2 |} []) as (_ & H1 & H2 & _).
  - reflexivity.
  - simpl. lia.
  - intros c. subst s. cbn [set_field queue_metadata MESS_NUM]. rewrite rd_insert.
    case_decide; [lia|]. rewrite rd_empty. lia.
  - split; [rewrite H1; reflexivity|exact H2].
Defined.
