(* ===== verification/FpgaPipeline.v ===== *)
(** The stages of the on-NIC scheduler running as a dataflow pipeline.

    Vivado runs the five stages of [dataflow_no_dma] concurrently, connected
    by the FIFO streams, while the clients write into the card's memory and
    the host writes into the DMA buffer.  [step] lets any stage, any refresh
    of the bitmaps and weights and any such write happen at any time, so what
    holds of [step] holds of every schedule of the pipeline, and in particular
    of the sequential rounds of [loop_round] ([loop_round_steps]).

    The main invariant, [counters_ok]: the counter of core [c] and feature [f]
    is its initial value plus the number of slots whose last request was given
    to [c] and uses [f], taken modulo 256, whatever is still in the streams. *)

From S2P Require Import Prelude Gray Fpga FpgaProps.
Import Hls.

(** * Steps and events *)

(** What an observer of the pipeline sees. *)
Inductive event :=
  | Accepted (i : Z)      (* a toggled slot was read *)
  | Scheduled (i c : Z)   (* core [c] was chosen for slot [i] *)
  | Rang (i c : Z)        (* slot [i] was written into the queue of core [c] *)
  | Applied (i c : Z).    (* the counters took slot [i] on core [c] *)

Definition check0_event (s : fpga) : list event :=
  if toggled (head_rrb (m0 s).[(slot_offset0 s).[ii s]]) (RRB0 s).[ii s]
  then [Accepted (ii s)] else [].

Definition check1_event (s : fpga) : list event :=
  if toggled (head_rrb (m1 s).[0x40000 + (slot_offset1 s).[jj s]]) (RRB1 s).[jj s]
  then [Accepted (jj s + slot_partition1 s)] else [].

Definition compute_event (s : fpga) : list event :=
  match (if kk s =? 0 then check_msg_out0 s else check_msg_out1 s) with
  | [] => []
  | msg :: _ => [Scheduled (cm_i msg) (chosen_core s msg)]
  end.

Definition doorbell_event (s : fpga) : list event :=
  match compute_core_id_out s with [] => [] | m :: _ => [Rang (ci_i m) (ci_core_id m)] end.

Definition update_event (s : fpga) : list event :=
  match update_cluster_in s with [] => [] | m :: _ => [Applied (uc_i m) (uc_core_id m)] end.

Inductive step : fpga -> list event -> fpga -> Prop :=
  | step_check0 s : step s (check0_event s) (check_message_dataflow_nodma0 s)
  | step_check1 s : step s (check1_event s) (check_message_dataflow_nodma1 s)
  | step_compute s : step s (compute_event s) (compute_core_id s)
  | step_doorbell s : step s (doorbell_event s) (doorbell_dataflow s)
  | step_update s : step s (update_event s) (update_cluster s)
  | step_bitmap s : step s [] (init_bitmap s)
  | step_weight s : step s [] (init_weight s)
  | step_env s n0 n1 buf cd :
      step s [] (s <| m0 := n0 |> <| m1 := n1 |> <| cdma_buf := buf |> <| cdma := cd |>).

Inductive steps : fpga -> list event -> fpga -> Prop :=
  | steps_refl s : steps s [] s
  | steps_snoc s t tr e s' : steps s tr t -> step t e s' -> steps s (tr ++ e) s'.

(** * The invariant *)

(** The requests of the pipeline that the counters do not know yet, oldest
    first: slot, features it replaces, features it brings. *)
Definition inflight (s : fpga) : list (Z * (Z * Z)) :=
  ((fun m => (uc_i m, (uc_old_features m, uc_new_features m))) <$> update_cluster_in s)
  ++ ((fun m => (cm_i m, (cm_old_features m, cm_new_features m)))
        <$> check_msg_out0 s ++ check_msg_out1 s).

Definition of_slot (i : Z) (l : list (Z * (Z * Z))) : list (Z * Z) :=
  (filter (fun p => p.1 = i) l).*2.

(** Each request replaces the features the previous one brought. *)
Fixpoint chain (a : Z) (l : list (Z * Z)) (b : Z) : Prop :=
  match l with
  | [] => a = b
  | (o, n) :: l => o = a /\ chain n l b
  end.

(** The features last read from slot [i]. *)
Definition current (s : fpga) (i : Z) : Z :=
  if i <? slot_partition1 s then (features0 s).[i] else (features1 s).[i - slot_partition1 s].

(** The number of slots whose last counted request is on core [c] and uses [f]. *)
Definition load (s : fpga) (applied : Z -> Z) (c f : Z) : Z :=
  sumZ (fun i => Z.b2z (((old_core_id s).[i] =? c) && Z.testbit (applied i) f))
       (seqZ 0 (2 * slot_partition1 s)).

Record pipe_ok (base : gmap (Z * Z) Z) (s : fpga) (applied : Z -> Z) : Prop := {
  p_half : 0 < slot_partition1 s /\ slot_partition0 s = slot_partition1 s;
  p_ii : 0 <= ii s < slot_partition0 s;
  p_jj : 0 <= jj s < slot_partition1 s;
  p_out0 : Forall (fun m => 0 <= cm_i m < slot_partition1 s) (check_msg_out0 s);
  p_out1 : Forall (fun m => slot_partition1 s <= cm_i m < 2 * slot_partition1 s) (check_msg_out1 s);
  p_upd : Forall (fun m => 0 <= uc_i m < 2 * slot_partition1 s) (update_cluster_in s);
  p_chain : forall i, 0 <= i < 2 * slot_partition1 s ->
    chain (applied i) (of_slot i (inflight s)) (current s i);
  p_count : forall c f, 0 <= f < 512 ->
    (clusters s).[(c, f)] = u8 (base.[(c, f)] + load s applied c f)
}.

Definition counters_ok (base : gmap (Z * Z) Z) (s : fpga) : Prop :=
  exists applied, pipe_ok base s applied.

(** * Lists of requests *)

Lemma of_slot_app i l1 l2 : of_slot i (l1 ++ l2) = of_slot i l1 ++ of_slot i l2.
Proof. unfold of_slot. by rewrite filter_app, fmap_app. Qed.

Lemma of_slot_cons i j p l :
  of_slot i ((j, p) :: l) = if decide (j = i) then p :: of_slot i l else of_slot i l.
Proof.
  unfold of_slot. rewrite filter_cons. simpl. by case_decide.
Qed.

Lemma of_slot_none i l : Forall (fun p => p.1 <> i) l -> of_slot i l = [].
Proof.
  induction 1 as [|[j p] l Hj Hl IH]; [done|].
  rewrite of_slot_cons, IH. by rewrite decide_False.
Qed.

Lemma chain_snoc a l b n : chain a l b -> chain a (l ++ [(b, n)]) n.
Proof. revert a. induction l as [|[o m] l IH]; simpl; [intros ? ->; auto|naive_solver]. Qed.

Definition slot_of (m : cdma_msg_out_t) : Z * (Z * Z) :=
  (cm_i m, (cm_old_features m, cm_new_features m)).

Lemma of_slot_foreign (P : Z -> Prop) i l :
  ~ P i -> Forall (fun m => P (cm_i m)) l -> of_slot i (slot_of <$> l) = [].
Proof.
  intros Hi Hl. apply of_slot_none, Forall_fmap. eapply Forall_impl; [exact Hl|].
  intros m Hm Heq. simpl in Heq. by subst.
Qed.

(** * Preservation, stage by stage *)

Section preservation.
Context (base : gmap (Z * Z) Z).

(** The invariant only looks at these fields. *)
Lemma pipe_ok_frame s s' a :
  slot_partition0 s' = slot_partition0 s -> slot_partition1 s' = slot_partition1 s ->
  0 <= ii s' < slot_partition0 s -> 0 <= jj s' < slot_partition1 s ->
  check_msg_out0 s' = check_msg_out0 s -> check_msg_out1 s' = check_msg_out1 s ->
  update_cluster_in s' = update_cluster_in s ->
  features0 s' = features0 s -> features1 s' = features1 s ->
  clusters s' = clusters s -> old_core_id s' = old_core_id s ->
  pipe_ok base s a -> pipe_ok base s' a.
Proof.
  intros E1 E2 E3 E4 E5 E6 E7 E8 E9 E10 E11 [H1 H2 H3 H4 H5 H6 H7 H8].
  split; unfold inflight, current, load in *; rewrite ?E1, ?E2, ?E5, ?E6, ?E7, ?E8, ?E9, ?E10, ?E11;
    done.
Qed.

Lemma next_index i n : 0 <= i < n -> 0 <= (if i =? n - 1 then 0 else i + 1) < n.
Proof. intros. destruct (Z.eqb_spec i (n - 1)); lia. Qed.

(** Reading a new request from a slot of either half. *)
Lemma pipe_accept s s' a i msg :
  pipe_ok base s a ->
  slot_partition0 s' = slot_partition0 s -> slot_partition1 s' = slot_partition1 s ->
  0 <= ii s' < slot_partition0 s -> 0 <= jj s' < slot_partition1 s ->
  0 <= i < 2 * slot_partition1 s ->
  cm_i msg = i -> cm_old_features msg = current s i ->
  check_msg_out0 s' = check_msg_out0 s ++ (if i <? slot_partition1 s then [msg] else []) ->
  check_msg_out1 s' = check_msg_out1 s ++ (if i <? slot_partition1 s then [] else [msg]) ->
  update_cluster_in s' = update_cluster_in s ->
  (forall j, 0 <= j < 2 * slot_partition1 s ->
     current s' j = if decide (i = j) then cm_new_features msg else current s j) ->
  clusters s' = clusters s -> old_core_id s' = old_core_id s ->
  pipe_ok base s' a.
Proof.
  intros [H1 H2 H3 H4 H5 H6 H7 H8] E1 E2 E3 E4 Hi Hmi Hold E5 E6 E7 Ecur E10 E11.
  split; rewrite ?E1, ?E2, ?E5, ?E6, ?E7; try done.
  - apply Forall_app. split; [done|]. destruct (Z.ltb_spec i (slot_partition1 s)); [|done].
    apply Forall_singleton. lia.
  - apply Forall_app. split; [done|]. destruct (Z.ltb_spec i (slot_partition1 s)); [done|].
    apply Forall_singleton. lia.
  - intros j Hj. rewrite Ecur by done. specialize (H7 j Hj).
    assert (of_slot j (inflight s') = of_slot j (inflight s)
              ++ (if decide (i = j) then [(current s i, cm_new_features msg)] else [])) as ->.
    { unfold inflight. rewrite E5, E6, E7. fold slot_of.
      rewrite !of_slot_app, !fmap_app, !of_slot_app, <-!app_assoc. f_equal.
      assert (of_slot j (slot_of <$> [msg])
        = if decide (i = j) then [(current s i, cm_new_features msg)] else []) as Hm.
      { simpl. unfold slot_of. rewrite of_slot_cons, Hmi, Hold. by case_decide. }
      destruct (Z.ltb_spec i (slot_partition1 s)).
      - rewrite Hm. simpl. change (of_slot j []) with ([] : list (Z * Z)). rewrite app_nil_r.
        case_decide; [|by rewrite app_nil_r]. subst j.
        rewrite (of_slot_foreign (fun k => slot_partition1 s <= k < 2 * slot_partition1 s) i
          (check_msg_out1 s)); [by rewrite app_nil_r|lia|done].
      - rewrite Hm. simpl. change (of_slot j []) with ([] : list (Z * Z)). done. }
    case_decide; [subst j; by apply chain_snoc|by rewrite app_nil_r].
  - intros c f Hf. rewrite E10, H8 by done. unfold load. by rewrite E2, E11.
Qed.

Lemma check0_pipe s a : pipe_ok base s a -> pipe_ok base (check_message_dataflow_nodma0 s) a.
Proof.
  intros H. pose proof H as [H1 H2 H3 _ _ _ _ _]. destruct H1 as [Hp Hhalf].
  pose proof (next_index _ _ H2) as Hn. unfold check_message_dataflow_nodma0. cbv zeta.
  fold (head_rrb (m0 s).[(slot_offset0 s).[ii s]]).
  destruct (toggled (head_rrb (m0 s).[(slot_offset0 s).[ii s]]) (RRB0 s).[ii s]).
  - set (nf := load_feature ((slot_offset0 s).[ii s] - 16) 0 (m0 s)).
    apply (pipe_accept s _ a (ii s) {| cm_i := ii s;
      cm_core_id := Z.land (m0 s).[(slot_offset0 s).[ii s]] 0xFFFF;
      cm_old_features := (features0 s).[ii s]; cm_new_features := nf |} H);
      destruct (ii s =? slot_partition0 s - 1) eqn:E; cbn -[Z.mul] in *;
      rewrite ?E; cbn -[Z.mul] in *; try done; try lia; unfold current; cbn.
    all: try (destruct (Z.ltb_spec (ii s) (slot_partition1 s)); [|lia]); rewrite ?app_nil_r; try done.
    all: intros j Hj; rewrite rd_insert;
      destruct (Z.ltb_spec j (slot_partition1 s)); [done|]; case_decide; [lia|done].
  - apply (pipe_ok_frame s); destruct (ii s =? slot_partition0 s - 1) eqn:E; cbn; try done; lia.
Qed.

Lemma check1_pipe s a : pipe_ok base s a -> pipe_ok base (check_message_dataflow_nodma1 s) a.
Proof.
  intros H. pose proof H as [H1 H2 H3 _ _ _ _ _]. destruct H1 as [Hp Hhalf].
  pose proof (next_index _ _ H3) as Hn. unfold check_message_dataflow_nodma1. cbv zeta.
  fold (head_rrb (m1 s).[0x40000 + (slot_offset1 s).[jj s]]).
  destruct (toggled (head_rrb (m1 s).[0x40000 + (slot_offset1 s).[jj s]]) (RRB1 s).[jj s]).
  - set (nf := load_feature (0x40000 + (slot_offset1 s).[jj s] - 16) 0 (m1 s)).
    apply (pipe_accept s _ a (jj s + slot_partition1 s) {| cm_i := jj s + slot_partition1 s;
      cm_core_id := Z.land (m1 s).[0x40000 + (slot_offset1 s).[jj s]] 0xFFFF;
      cm_old_features := (features1 s).[jj s]; cm_new_features := nf |} H);
      destruct (jj s =? slot_partition1 s - 1) eqn:E; cbn -[Z.mul] in *;
      rewrite ?E; cbn -[Z.mul] in *; try done; try lia; unfold current; cbn.
    all: try (destruct (Z.ltb_spec (jj s + slot_partition1 s) (slot_partition1 s)); [lia|]);
      rewrite ?app_nil_r; try done.
    all: try (f_equal; lia).
    all: intros j Hj; rewrite rd_insert;
      destruct (Z.ltb_spec j (slot_partition1 s));
      repeat case_decide; (done || lia).
  - apply (pipe_ok_frame s); destruct (jj s =? slot_partition1 s - 1) eqn:E; cbn; try done; lia.
Qed.

Lemma core_id_func_eq s msg :
  core_id_func s msg =
  s <| compute_core_id_out := compute_core_id_out s ++
         [{| ci_i := cm_i msg; ci_core_id := chosen_core s msg |}] |>
    <| update_cluster_in := update_cluster_in s ++
         [{| uc_old_features := cm_old_features msg; uc_new_features := cm_new_features msg;
             uc_i := cm_i msg; uc_core_id := chosen_core s msg |}] |>.
Proof.
  unfold chosen_core, core_id_func. cbv zeta.
  match goal with |- context [mb_index ?m] => set (mb := mb_index m) end.
  cbn. by rewrite last_snoc.
Qed.

(** Moving the oldest request of one half to the last stream. *)
Lemma pipe_move s s' a msg r0 r1 :
  pipe_ok base s a ->
  (check_msg_out0 s = msg :: r0 /\ check_msg_out1 s = r1 \/
   check_msg_out0 s = r0 /\ check_msg_out1 s = msg :: r1) ->
  slot_partition0 s' = slot_partition0 s -> slot_partition1 s' = slot_partition1 s ->
  ii s' = ii s -> jj s' = jj s ->
  check_msg_out0 s' = r0 -> check_msg_out1 s' = r1 ->
  (exists c, update_cluster_in s' = update_cluster_in s ++
     [{| uc_old_features := cm_old_features msg; uc_new_features := cm_new_features msg;
         uc_i := cm_i msg; uc_core_id := c |}]) ->
  features0 s' = features0 s -> features1 s' = features1 s ->
  clusters s' = clusters s -> old_core_id s' = old_core_id s ->
  pipe_ok base s' a.
Proof.
  intros [H1 H2 H3 H4 H5 H6 H7 H8] Hr E1 E2 E3 E4 E5 E6 [c E7] E8 E9 E10 E11.
  assert (0 <= cm_i msg < 2 * slot_partition1 s /\
    Forall (fun m => 0 <= cm_i m < slot_partition1 s) r0 /\
    Forall (fun m => slot_partition1 s <= cm_i m < 2 * slot_partition1 s) r1) as (Hm & F0 & F1).
  { destruct Hr as [[R0 R1]|[R0 R1]]; rewrite R0 in H4; rewrite R1 in H5.
    - apply Forall_cons in H4 as [? ?]. split_and!; [lia|lia|done..].
    - apply Forall_cons in H5 as [? ?]. split_and!; [lia|lia|done..]. }
  split; rewrite ?E1, ?E2, ?E3, ?E4, ?E5, ?E6, ?E7; try done.
  - apply Forall_app. split; [done|]. by apply Forall_singleton.
  - intros i Hi. specialize (H7 i Hi).
    assert (current s' i = current s i) as -> by (unfold current; by rewrite E2, E8, E9).
    assert (of_slot i (inflight s') = of_slot i (inflight s)) as ->; [|done].
    unfold inflight. rewrite E5, E6, E7. fold slot_of.
    rewrite !fmap_app, !of_slot_app, fmap_cons, fmap_nil, of_slot_cons, <-app_assoc. f_equal.
    cbn [uc_i uc_old_features uc_new_features].
    destruct Hr as [[R0 R1]|[R0 R1]]; rewrite R0, R1, fmap_cons.
    + unfold slot_of at 3. rewrite of_slot_cons. by case_decide.
    + unfold slot_of at 4. rewrite of_slot_cons. case_decide; [|done].
      rewrite R1 in H5. apply Forall_cons in H5 as [? _].
      by rewrite (of_slot_foreign (fun k => 0 <= k < slot_partition1 s) i r0) by (done || lia).
  - intros c' f Hf. rewrite E10, H8 by done. unfold load. by rewrite E2, E11.
Qed.

Lemma compute_pipe s a : pipe_ok base s a -> pipe_ok base (compute_core_id s) a.
Proof.
  intros H. pose proof H as [_ H2 H3 _ _ _ _ _]. unfold compute_core_id. destruct (kk s =? 0).
  - destruct (check_msg_out0 s) as [|msg rest] eqn:E; [by apply (pipe_ok_frame s)|].
    rewrite core_id_func_eq.
    apply (pipe_move s _ a msg rest (check_msg_out1 s)); try done; [by left|by eexists].
  - destruct (check_msg_out1 s) as [|msg rest] eqn:E; [by apply (pipe_ok_frame s)|].
    rewrite core_id_func_eq.
    apply (pipe_move s _ a msg (check_msg_out0 s) rest); try done; [by right|by eexists].
Qed.

Lemma doorbell_pipe s a : pipe_ok base s a -> pipe_ok base (doorbell_dataflow s) a.
Proof.
  intros H. pose proof H as [_ H2 H3 _ _ _ _ _]. unfold doorbell_dataflow.
  destruct (compute_core_id_out s); [done|]. by apply (pipe_ok_frame s).
Qed.

(** The counters after one update, modulo 256. *)
Lemma update_cluster_bits_spec msg o cl c f :
  0 <= f < 512 -> (forall c, uint 8 cl.[(c, f)]) ->
  (update_cluster_bits msg o cl).[(c, f)]
  = u8 (cl.[(c, f)] - Z.b2z ((o =? c) && Z.testbit (uc_old_features msg) f)
        + Z.b2z ((uc_core_id msg =? c) && Z.testbit (uc_new_features msg) f)).
Proof.
  intros Hf Hcl. revert c.
  cut (forall c, (update_cluster_bits msg o cl).[(c, f)] = if f <? 512 then u8 (cl.[(c, f)]
      - Z.b2z ((o =? c) && Z.testbit (uc_old_features msg) f)
      + Z.b2z ((uc_core_id msg =? c) && Z.testbit (uc_new_features msg) f)) else cl.[(c, f)]).
  { intros H c. rewrite H. by destruct (Z.ltb_spec f 512); [|lia]. }
  unfold update_cluster_bits.
  apply (for_range_ind (fun k m => forall c, m.[(c, f)] = if f <? k then u8 (cl.[(c, f)]
      - Z.b2z ((o =? c) && Z.testbit (uc_old_features msg) f)
      + Z.b2z ((uc_core_id msg =? c) && Z.testbit (uc_new_features msg) f)) else cl.[(c, f)]) 0 512);
    [lia| |].
  - intros c'. by destruct (Z.ltb_spec f 0); [lia|].
  - intros k m Hk IH c'. destruct (decide (k = f)) as [->|Hne].
    + destruct (Z.ltb_spec f (f + 1)); [|lia].
      assert (forall c, m.[(c, f)] = cl.[(c, f)]) as IH'.
      { intros c1. rewrite IH. by destruct (Z.ltb_spec f f); [lia|]. }
      destruct (Z.testbit (uc_old_features msg) f), (Z.testbit (uc_new_features msg) f);
        rewrite ?andb_true_r, ?andb_false_r; rewrite ?rd_insert, ?IH';
        destruct (Z.eqb_spec o c'), (Z.eqb_spec (uc_core_id msg) c');
        repeat case_decide; simplify_eq/=; try congruence;
        rewrite ?Z.sub_0_r, ?Z.add_0_r; rewrite ?wrap_add_l by lia; try done; symmetry; try (apply wrap_small, Hcl).
    + assert (forall x y (m' : gmap (Z * Z) Z), (<[(x, k) := y]> m').[(c', f)] = m'.[(c', f)]) as Hx.
      { intros. apply rd_insert_ne. congruence. }
      assert ((if f <? k + 1 then true else false) = (if f <? k then true else false)) as Hk'.
      { destruct (Z.ltb_spec f k), (Z.ltb_spec f (k + 1)); (done || lia). }
      destruct (Z.testbit (uc_old_features msg) k), (Z.testbit (uc_new_features msg) k);
        rewrite ?Hx, IH; destruct (f <? k), (f <? k + 1); (done || congruence).
Qed.

Lemma pipe_bytes s a c f : pipe_ok base s a -> 0 <= f < 512 -> uint 8 (clusters s).[(c, f)].
Proof. intros H Hf. rewrite (p_count _ _ _ H) by done. apply wrap_range. lia. Qed.

Lemma update_pipe s a : pipe_ok base s a -> exists a', pipe_ok base (update_cluster s) a'.
Proof.
  intros H. pose proof H as [H1 H2 H3 H4 H5 H6 H7 H8]. unfold update_cluster.
  destruct (update_cluster_in s) as [|msg rest] eqn:E; [by exists a|].
  set (i := uc_i msg). apply Forall_cons in H6 as [Hi Hrest].
  exists (fun j => if decide (j = i) then uc_new_features msg else a j).
  split; try done.
  - intros j Hj. specialize (H7 j Hj). change (current _ j) with (current s j).
    unfold inflight in *. rewrite E, fmap_cons, <-app_comm_cons in H7. fold i in H7.
    rewrite of_slot_cons in H7.
    destruct (decide (j = i)) as [->|D].
    + rewrite decide_True in H7 by done. by destruct H7.
    + by rewrite decide_False in H7 by congruence.
  - intros c f Hf. cbn. rewrite update_cluster_bits_spec by (intros; done || by apply (pipe_bytes s a)).
    rewrite H8 by done. fold i.
    assert (Z.b2z (((old_core_id s).[i] =? c) && Z.testbit (uc_old_features msg) f)
            = Z.b2z (((old_core_id s).[i] =? c) && Z.testbit (a i) f)) as ->.
    { specialize (H7 i Hi). unfold inflight in H7. rewrite E, fmap_cons, <-app_comm_cons in H7.
      fold i in H7. rewrite of_slot_cons, decide_True in H7 by done. by destruct H7 as [-> _]. }
    rewrite <-Z.add_opp_r, <-Z.add_assoc, wrap_add_l by lia. f_equal.
    unfold load; cbn.
    rewrite (sumZ_update (fun j => Z.b2z (((<[i:=uc_core_id msg]> (old_core_id s)).[j] =? c)
        && Z.testbit (if decide (j = i) then uc_new_features msg else a j) f))
      (fun j => Z.b2z (((old_core_id s).[j] =? c) && Z.testbit (a j) f)) _ i).
    + rewrite rd_insert_eq, decide_True by done. lia.
    + apply NoDup_seqZ.
    + apply elem_of_seqZ. lia.
    + intros j _ Hj. by rewrite rd_insert_ne, decide_False by done.
Qed.

(** Every step of the pipeline preserves the invariant. *)
Lemma step_pipe s e s' a : step s e s' -> pipe_ok base s a -> exists a', pipe_ok base s' a'.
Proof.
  intros Hs H. pose proof H as [_ H2 H3 _ _ _ _ _].
  destruct Hs; eauto using check0_pipe, check1_pipe, compute_pipe, doorbell_pipe, update_pipe;
    exists a; by apply (pipe_ok_frame s).
Qed.

Lemma steps_pipe s tr s' : steps s tr s' -> counters_ok base s -> counters_ok base s'.
Proof.
  induction 1 as [|s t tr e s' _ IH Hstep]; [done|]. intros Hs.
  destruct (IH Hs) as [a Ha]. by eapply step_pipe.
Qed.

End preservation.

(** * The configured card *)

(** A card just configured by [schedule_setup] from power-on. *)
Definition configured (a : sched_args) : fpga := schedule_setup a fpga_reset.

(** What the two set-up loops leave alone. *)
Definition setup_frame (s s' : fpga) : Prop :=
  SLOT_NUM s' = SLOT_NUM s /\ my_client_num s' = my_client_num s /\
  clusters s' = clusters s /\ features0 s' = features0 s /\ features1 s' = features1 s /\
  check_msg_out0 s' = check_msg_out0 s /\ check_msg_out1 s' = check_msg_out1 s /\
  compute_core_id_out s' = compute_core_id_out s /\ update_cluster_in s' = update_cluster_in s /\
  ii s' = ii s /\ jj s' = jj s /\ kk s' = kk s /\ CORE_NUM s' = CORE_NUM s /\
  MESS_NUM s' = MESS_NUM s.

Lemma init_queues_frame s : setup_frame s (init_queues s).
Proof.
  unfold init_queues.
  apply (for_range_inv (fun p => setup_frame s p.2) 0 (CORE_NUM s)); [by unfold setup_frame|].
  intros i [addr s'] _ H. exact H.
Qed.

Lemma init_slots_frame s : setup_frame s (init_slots s).
Proof.
  unfold init_slots. apply (for_range_inv (setup_frame s)); [by unfold setup_frame|].
  intros i s1 _ H1. apply (for_range_inv (setup_frame s)); [exact H1|].
  intros j s2 _ H2. destruct (i * 2 <? my_client_num s2); exact H2.
Qed.

Lemma setup_frame_trans s1 s2 s3 : setup_frame s1 s2 -> setup_frame s2 s3 -> setup_frame s1 s3.
Proof. unfold setup_frame. intuition congruence. Qed.

Lemma clusters_init_bytes k : uint 8 clusters_init.[k].
Proof.
  unfold clusters_init. apply (for_range_inv (fun m : gmap (Z * Z) Z => uint 8 m.[k])); [done|].
  intros i m _ Hm. rewrite rd_insert. case_decide; [done|].
  apply (for_range_inv (fun m : gmap (Z * Z) Z => uint 8 m.[k])); [done|].
  intros j m' _ Hm'. rewrite rd_insert. by case_decide.
Qed.

(** A card with empty streams on which no slot was read yet. *)
Definition idle (r : fpga) : Prop :=
  features0 r = ∅ /\ features1 r = ∅ /\ check_msg_out0 r = [] /\ check_msg_out1 r = [] /\
  update_cluster_in r = [] /\ compute_core_id_out r = [] /\ ii r = 0 /\ jj r = 0 /\
  forall k, uint 8 (clusters r).[k].

Lemma setup_ok a r :
  idle r -> 2 <= a_SLOT_NUM a * (a_e_client a - a_b_client a) ->
  counters_ok (clusters r) (schedule_setup a r) /\ compute_core_id_out (schedule_setup a r) = [] /\
  inflight (schedule_setup a r) = [].
Proof.
  intros (R1 & R2 & R3 & R4 & R5 & R6 & R7 & R8 & R9) Hn.
  set (s0 := r <| BASE_ADDR := a_BASE_ADDR a |> <| CLIENT_NUM := a_CLIENT_NUM a |>
             <| SLOT_NUM := a_SLOT_NUM a |> <| CORE_NUM := a_CORE_NUM a |>
             <| MESS_NUM := a_MESS_NUM a |> <| b_client := a_b_client a |>
             <| e_client := a_e_client a |> <| b_core := a_b_core a |>
             <| e_core := a_e_core a |> <| ip_id := a_ip_id a |>
             <| my_client_num := a_e_client a - a_b_client a |>
             <| QUEUE_ADDR_BASE := a_b_client a * a_SLOT_NUM a * SLOT_LEN |>).
  pose proof (setup_frame_trans _ _ _ (init_queues_frame s0) (init_slots_frame (init_queues s0)))
    as (F1 & F2 & F3 & F4 & F5 & F6 & F7 & F11 & F8 & F9 & F10 & _).
  unfold schedule_setup. cbv zeta. fold s0.
  set (s1 := init_slots (init_queues s0)) in *. clearbody s1.
  assert (F1' : SLOT_NUM s1 = a_SLOT_NUM a) by exact F1.
  assert (F2' : my_client_num s1 = a_e_client a - a_b_client a) by exact F2.
  assert (F3' : clusters s1 = clusters r) by exact F3.
  assert (F4' : features0 s1 = ∅) by (etrans; [exact F4|exact R1]).
  assert (F5' : features1 s1 = ∅) by (etrans; [exact F5|exact R2]).
  assert (F6' : check_msg_out0 s1 = []) by (etrans; [exact F6|exact R3]).
  assert (F7' : check_msg_out1 s1 = []) by (etrans; [exact F7|exact R4]).
  assert (F8' : update_cluster_in s1 = []) by (etrans; [exact F8|exact R5]).
  assert (F9' : ii s1 = 0) by (etrans; [exact F9|exact R7]).
  assert (F10' : jj s1 = 0) by (etrans; [exact F10|exact R8]).
  assert (F11' : compute_core_id_out s1 = []) by (etrans; [exact F11|exact R6]).
  clear F1 F2 F3 F4 F5 F6 F7 F8 F9 F10 F11.
  assert (0 < SLOT_NUM s1 * my_client_num s1 / 2) as Hp.
  { rewrite F1', F2'. apply Z.div_str_pos. lia. }
  match goal with |- counters_ok _ ?x /\ _ => set (s2 := x) end.
  assert (inflight s2 = []) as HI by (unfold inflight; cbn; by rewrite F6', F7', F8').
  split_and!; [|exact F11'|exact HI]. exists (fun _ => 0).
  split; rewrite ?HI; unfold current, load; subst s2; cbn -[Z.mul Z.div seqZ of_slot];
    rewrite ?F3', ?F4', ?F5', ?F6', ?F7', ?F8', ?F9', ?F10'; try done; try lia.
  - intros i Hi. by destruct (_ <? _).
  - intros c f Hf. rewrite sumZ_zero, Z.add_0_r.
    + symmetry. apply wrap_small, R9.
    + intros i _. rewrite Z.bits_0. by rewrite andb_false_r.
Qed.

Lemma idle_reset : idle fpga_reset.
Proof. unfold idle. split_and!; try reflexivity. exact clusters_init_bytes. Qed.

(** * Events *)

(** The number of requests of slot [i] in the first streams. *)
Definition waiting (s : fpga) (i : Z) : Z :=
  sumZ (fun m => Z.b2z (cm_i m =? i)) (check_msg_out0 s ++ check_msg_out1 s).

Definition count (P : event -> bool) (tr : list event) : Z := sumZ (fun e => Z.b2z (P e)) tr.

Definition accepted (i : Z) (e : event) : bool :=
  match e with Accepted j => j =? i | _ => false end.

Definition scheduled (i : Z) (e : event) : bool :=
  match e with Scheduled j _ => j =? i | _ => false end.

(** The decisions, the doorbells and the counter updates of a trace. *)
Definition scheduled_of (e : event) : option (Z * Z) :=
  match e with Scheduled i c => Some (i, c) | _ => None end.
Definition rang_of (e : event) : option (Z * Z) :=
  match e with Rang i c => Some (i, c) | _ => None end.
Definition applied_of (e : event) : option (Z * Z) :=
  match e with Applied i c => Some (i, c) | _ => None end.

Record trace_ok (tr : list event) (s : fpga) : Prop := {
  t_wait : forall i, count (accepted i) tr = count (scheduled i) tr + waiting s i;
  t_rang : omap scheduled_of tr
    = omap rang_of tr ++ ((fun m => (ci_i m, ci_core_id m)) <$> compute_core_id_out s);
  t_applied : omap scheduled_of tr
    = omap applied_of tr ++ ((fun m => (uc_i m, uc_core_id m)) <$> update_cluster_in s)
}.

Lemma count_app P l1 l2 : count P (l1 ++ l2) = count P l1 + count P l2.
Proof. apply sumZ_app. Qed.

(** A step that only adds the events [e] and leaves the decision streams. *)
Lemma trace_accept tr e s s' :
  (e = [] /\ (forall i, waiting s' i = waiting s i)) \/
  (exists j, e = [Accepted j] /\ forall i, waiting s' i = waiting s i + Z.b2z (j =? i)) ->
  compute_core_id_out s' = compute_core_id_out s -> update_cluster_in s' = update_cluster_in s ->
  trace_ok tr s -> trace_ok (tr ++ e) s'.
Proof.
  intros He E1 E2 [H1 H2 H3]. destruct He as [[-> Hw]|(j & -> & Hw)].
  - rewrite app_nil_r. split; rewrite ?E1, ?E2; try done. intros i. by rewrite Hw.
  - split; rewrite ?omap_app, ?E1, ?E2; cbn; rewrite ?app_nil_r; try done.
    intros i. rewrite !count_app, Hw, H1. unfold count at 2 4. cbn. lia.
Qed.

Lemma check0_trace tr s :
  trace_ok tr s -> trace_ok (tr ++ check0_event s) (check_message_dataflow_nodma0 s).
Proof.
  apply trace_accept; unfold check0_event, check_message_dataflow_nodma0; cbv zeta;
    fold (head_rrb (m0 s).[(slot_offset0 s).[ii s]]);
    destruct (toggled _ _); cbn; destruct (ii s =? slot_partition0 s - 1); try done.
  all: first [left; by split | right; eexists; split; [done|]; intros i; unfold waiting; cbn -[sumZ];
    rewrite !sumZ_app; cbn; lia].
Qed.

Lemma check1_trace tr s :
  trace_ok tr s -> trace_ok (tr ++ check1_event s) (check_message_dataflow_nodma1 s).
Proof.
  apply trace_accept; unfold check1_event, check_message_dataflow_nodma1; cbv zeta;
    fold (head_rrb (m1 s).[0x40000 + (slot_offset1 s).[jj s]]);
    destruct (toggled _ _); cbn; destruct (jj s =? slot_partition1 s - 1); try done.
  all: first [left; by split | right; eexists; split; [done|]; intros i; unfold waiting; cbn -[sumZ];
    rewrite !sumZ_app; cbn; lia].
Qed.

Lemma compute_trace tr s : trace_ok tr s -> trace_ok (tr ++ compute_event s) (compute_core_id s).
Proof.
  intros [H1 H2 H3]. unfold compute_event, compute_core_id. destruct (kk s =? 0).
  - destruct (check_msg_out0 s) as [|msg rest] eqn:E; [rewrite app_nil_r; split; [exact H1|exact H2|exact H3]|].
    assert (Hc : chosen_core s msg = chosen_core (s <| check_msg_out0 := rest |>) msg)
      by (rewrite !chosen_core_loop; reflexivity).
    rewrite core_id_func_eq. split; cbn [set_field compute_core_id_out update_cluster_in].
    + intros i. rewrite !count_app, H1. unfold waiting, count. cbn. rewrite E. cbn. lia.
    + rewrite !omap_app, H2, fmap_app, <-app_assoc, Hc. cbn. by rewrite app_nil_r.
    + rewrite !omap_app, H3, fmap_app, <-app_assoc, Hc. cbn. by rewrite app_nil_r.
  - destruct (check_msg_out1 s) as [|msg rest] eqn:E; [rewrite app_nil_r; split; [exact H1|exact H2|exact H3]|].
    assert (Hc : chosen_core s msg = chosen_core (s <| check_msg_out1 := rest |>) msg)
      by (rewrite !chosen_core_loop; reflexivity).
    rewrite core_id_func_eq. split; cbn [set_field compute_core_id_out update_cluster_in].
    + intros i. rewrite !count_app, H1. unfold waiting, count. cbn -[sumZ]. rewrite E, !sumZ_app, sumZ_cons. cbn. lia.
    + rewrite !omap_app, H2, fmap_app, <-app_assoc, Hc. cbn. by rewrite app_nil_r.
    + rewrite !omap_app, H3, fmap_app, <-app_assoc, Hc. cbn. by rewrite app_nil_r.
Qed.

Lemma doorbell_trace tr s : trace_ok tr s -> trace_ok (tr ++ doorbell_event s) (doorbell_dataflow s).
Proof.
  intros [H1 H2 H3]. unfold doorbell_event, doorbell_dataflow.
  destruct (compute_core_id_out s) as [|m rest] eqn:E; [rewrite app_nil_r; split; by rewrite ?E|].
  split.
  - intros i. rewrite !count_app, H1. change (waiting _ i) with (waiting s i) at 2.
    unfold count. cbn. lia.
  - rewrite !omap_app, H2. cbn. by rewrite app_nil_r, <-app_assoc.
  - rewrite !omap_app, H3. cbn. by rewrite !app_nil_r.
Qed.

Lemma update_trace tr s : trace_ok tr s -> trace_ok (tr ++ update_event s) (update_cluster s).
Proof.
  intros [H1 H2 H3]. unfold update_event, update_cluster.
  destruct (update_cluster_in s) as [|m rest] eqn:E; [rewrite app_nil_r; split; by rewrite ?E|].
  split.
  - intros i. rewrite !count_app, H1. change (waiting _ i) with (waiting s i) at 2.
    unfold count. cbn. lia.
  - rewrite !omap_app, H2. cbn. by rewrite !app_nil_r.
  - rewrite !omap_app, H3. cbn. by rewrite app_nil_r, <-app_assoc.
Qed.

Lemma step_trace tr s e s' : step s e s' -> trace_ok tr s -> trace_ok (tr ++ e) s'.
Proof.
  intros Hs H. destruct Hs; eauto using check0_trace, check1_trace, compute_trace,
    doorbell_trace, update_trace; apply (trace_accept _ _ s); try done; left; by split.
Qed.

Lemma steps_trace s tr s' : steps s tr s' -> trace_ok [] s -> trace_ok tr s'.
Proof.
  induction 1 as [|s t tr e s' _ IH Hstep]; [done|]. intros Hs. eapply step_trace; eauto.
Qed.

Lemma drained_trace s : compute_core_id_out s = [] -> inflight s = [] -> trace_ok [] s.
Proof.
  unfold inflight. intros Hc Hi.
  apply app_eq_nil in Hi as [Hu%fmap_nil_inv Hw%fmap_nil_inv].
  split; rewrite ?Hc, ?Hu; [|done|done]. intros i. unfold waiting. by rewrite Hw.
Qed.

Lemma setup_trace a r :
  idle r -> 2 <= a_SLOT_NUM a * (a_e_client a - a_b_client a) -> trace_ok [] (schedule_setup a r).
Proof.
  intros Hr Hn. destruct (setup_ok a r Hr Hn) as (_ & Hc & Hi). exact (drained_trace _ Hc Hi).
Qed.

Lemma init_queues_map s c :
  0 <= c < CORE_NUM s ->
  (queue_addr_map (init_queues s)).[c]
  = (SLOT_LEN * SLOT_NUM s * CLIENT_NUM s + HOSTADDR
     + (TOTAL_IP_MESS_N * MESS_LEN + QUEUE_METADATA) * c + QUEUE_METADATA
     + MESS_NUM s * MESS_LEN * ip_id s / 2) / 4.
Proof.
  intros Hc. unfold init_queues.
  set (addr0 := SLOT_LEN * SLOT_NUM s * CLIENT_NUM s + HOSTADDR).
  apply (for_range_ind (fun k p => p.1 = addr0 + (TOTAL_IP_MESS_N * MESS_LEN + QUEUE_METADATA) * k /\
    MESS_NUM p.2 = MESS_NUM s /\ ip_id p.2 = ip_id s /\
    (c < k -> (queue_addr_map p.2).[c] = (addr0 + (TOTAL_IP_MESS_N * MESS_LEN + QUEUE_METADATA) * c
       + QUEUE_METADATA + MESS_NUM s * MESS_LEN * ip_id s / 2) / 4)) 0 (CORE_NUM s)).
  - lia.
  - cbn [fst snd]. split_and!; lia.
  - intros k [addr s1] Hk (E1 & E2 & E3 & E4). cbn [fst snd] in *.
    change (addr + (TOTAL_IP_MESS_N * MESS_LEN + QUEUE_METADATA)
        = addr0 + (TOTAL_IP_MESS_N * MESS_LEN + QUEUE_METADATA) * (k + 1) /\
      MESS_NUM s1 = MESS_NUM s /\ ip_id s1 = ip_id s /\
      (c < k + 1 -> (<[k := (addr + QUEUE_METADATA + MESS_NUM s1 * MESS_LEN * ip_id s1 / 2) / 4]>
         (queue_addr_map s1)).[c] = (addr0 + (TOTAL_IP_MESS_N * MESS_LEN + QUEUE_METADATA) * c
           + QUEUE_METADATA + MESS_NUM s * MESS_LEN * ip_id s / 2) / 4)).
    rewrite E1, E2, E3. split_and!; [lia|done|done|]. intros Hlt. rewrite rd_insert.
    case_decide as E; [by subst|]. apply E4. lia.
  - lia.
Qed.

(** * Doorbells *)

(** The word of the host's memory at which the queue of core [c] starts. *)
Definition queue_word (a : sched_args) (c : Z) : Z :=
  (SLOT_LEN * a_SLOT_NUM a * a_CLIENT_NUM a + HOSTADDR + (TOTAL_IP_MESS_N * MESS_LEN + QUEUE_METADATA) * c
   + QUEUE_METADATA + a_MESS_NUM a * MESS_LEN * a_ip_id a / 2) / 4.

(** The slots that were announced to core [c], and the cores that slot [i] was
    counted on. *)
Definition bells (c : Z) (tr : list event) : list Z :=
  omap (fun e => match e with Rang i c' => if c' =? c then Some i else None | _ => None end) tr.
Definition counted (i : Z) (tr : list event) : list Z :=
  omap (fun e => match e with Applied i' c => if i' =? i then Some c else None | _ => None end) tr.

Lemma bells_app c tr1 tr2 : bells c (tr1 ++ tr2) = bells c tr1 ++ bells c tr2.
Proof. apply omap_app. Qed.
Lemma counted_app i tr1 tr2 : counted i (tr1 ++ tr2) = counted i tr1 ++ counted i tr2.
Proof. apply omap_app. Qed.

(** [o] is the table of cores before the first update. *)
Record bells_ok (a : sched_args) (o : gmap Z Z) (tr : list event) (s : fpga) : Prop := {
  b_mess : MESS_NUM s = a_MESS_NUM a;
  b_map c : 0 <= c < a_CORE_NUM a -> (queue_addr_map s).[c] = queue_word a c;
  b_head c : 0 <= c < a_CORE_NUM a -> (queue_metadata s).[(c, 0)] = Z.of_nat (length (bells c tr)) mod a_MESS_NUM a;
  b_cell c (n : nat) i : 0 <= c < a_CORE_NUM a -> bells c tr !! n = Some i ->
    Z.of_nat (length (bells c tr)) <= Z.of_nat n + a_MESS_NUM a ->
    (hostm s).[queue_word a c + Z.of_nat n mod a_MESS_NUM a * 16] = i;
  b_core i : (old_core_id s).[i] = default o.[i] (last (counted i tr)) }.

(** Steps that neither ring nor count. *)
Lemma bells_frame a o tr e s s' :
  (forall c, bells c e = []) -> (forall i, counted i e = []) ->
  MESS_NUM s' = MESS_NUM s -> queue_addr_map s' = queue_addr_map s -> queue_metadata s' = queue_metadata s ->
  hostm s' = hostm s -> old_core_id s' = old_core_id s -> bells_ok a o tr s -> bells_ok a o (tr ++ e) s'.
Proof.
  intros He1 He2 E1 E2 E3 E4 E5 [H1 H2 H3 H4 H5].
  split; intros *; rewrite ?bells_app, ?counted_app, ?He1, ?He2, ?app_nil_r, ?E1, ?E2, ?E3, ?E4, ?E5; auto.
Qed.

(** The cells of two queues, or two of the last cells of one queue, are apart. *)
Lemma queue_cells_apart a c c' n n' :
  0 < a_MESS_NUM a <= 256 ->
  queue_word a c + Z.of_nat n mod a_MESS_NUM a * 16 = queue_word a c' + Z.of_nat n' mod a_MESS_NUM a * 16 ->
  c = c' /\ Z.of_nat n mod a_MESS_NUM a = Z.of_nat n' mod a_MESS_NUM a.
Proof.
  intros HM E. unfold queue_word in E.
  assert (forall x y k, (x + (TOTAL_IP_MESS_N * MESS_LEN + QUEUE_METADATA) * k + QUEUE_METADATA + y) / 4
    = (x + QUEUE_METADATA + y) / 4 + 4160 * k) as Hd.
  { intros x y k. change (TOTAL_IP_MESS_N * MESS_LEN + QUEUE_METADATA) with (4160 * 4).
    replace (x + 4160 * 4 * k + QUEUE_METADATA + y) with (x + QUEUE_METADATA + y + 4160 * k * 4) by lia.
    apply Z.div_add. lia. }
  rewrite !Hd in E. pose proof (Z.mod_pos_bound (Z.of_nat n) (a_MESS_NUM a)). pose proof (Z.mod_pos_bound (Z.of_nat n') (a_MESS_NUM a)).
  lia.
Qed.

Lemma lap_apart (n L : nat) M : 0 < M -> (n < L)%nat -> Z.of_nat L < Z.of_nat n + M -> Z.of_nat n mod M <> Z.of_nat L mod M.
Proof.
  intros HM Hn HL E. pose proof (Z.div_mod (Z.of_nat n) M ltac:(lia)). pose proof (Z.div_mod (Z.of_nat L) M ltac:(lia)).
  assert (Z.of_nat L - Z.of_nat n = M * (Z.of_nat L / M - Z.of_nat n / M)) as Hd by lia.
  destruct (Z_le_gt_dec (Z.of_nat L / M - Z.of_nat n / M) 0); nia.
Qed.

Lemma doorbell_bells a o tr s :
  0 < a_MESS_NUM a <= 256 -> Forall (fun p => 0 <= p.2 < a_CORE_NUM a) (omap rang_of (doorbell_event s)) ->
  bells_ok a o tr s -> bells_ok a o (tr ++ doorbell_event s) (doorbell_dataflow s).
Proof.
  intros HM HF H. unfold doorbell_event, doorbell_dataflow in *. destruct (compute_core_id_out s) as [|m rest]; [by apply (bells_frame a o tr [] s)|].
  set (c := ci_core_id m) in *. set (i := ci_i m) in *. cbn in HF. apply Forall_cons in HF as [Hc _]. cbn in Hc.
  destruct H as [H1 H2 H3 H4 H5]. set (L := length (bells c tr)). pose proof (H3 c Hc) as Hh. fold L in Hh.
  pose proof (Z.mod_pos_bound (Z.of_nat L) (a_MESS_NUM a) ltac:(lia)) as HL.
  assert (forall c', bells c' [Rang i c] = if c =? c' then [i] else []) as Hb by (intros c'; cbn; by destruct (c =? c')).
  split; cbn [set_field MESS_NUM queue_addr_map queue_metadata hostm old_core_id]; try done.
  - intros c' Hc'. rewrite bells_app, Hb. rewrite H1, Hh. change (MESS_LEN_DIV_4) with 16.
    destruct (Z.eqb_spec c c') as [<-|Hne].
    + rewrite length_app. fold L. cbn [length]. rewrite Nat2Z.inj_add. change (Z.of_nat 1) with 1.
      destruct (Z.eqb_spec (Z.of_nat L mod a_MESS_NUM a) (a_MESS_NUM a - 1)) as [E|E]; rewrite rd_insert_eq.
      * rewrite <-Zplus_mod_idemp_l, E. replace (a_MESS_NUM a - 1 + 1) with (a_MESS_NUM a) by lia. by rewrite Z_mod_same_full.
      * unfold s32. rewrite (Z.mod_small _ (2 ^ 32)) by lia. rewrite <-Zplus_mod_idemp_l, (Z.mod_small (_ + 1)) by lia. lia.
    + rewrite app_nil_r. destruct (_ =? _); rewrite ?rd_insert_ne by congruence; by apply H3.
  - intros c' n j Hc' Hn Hle. rewrite bells_app, Hb in Hn, Hle. rewrite Hh, H2 by done. change (MESS_LEN_DIV_4) with 16.
    rewrite rd_insert. destruct (Z.eqb_spec c c') as [<-|Hne].
    + rewrite length_app in Hle. fold L in Hle. cbn [length] in Hle. apply lookup_app_Some in Hn as [Hn|[Hn1 Hn2]].
      * pose proof (lookup_lt_Some _ _ _ Hn) as Hlt. fold L in Hlt. rewrite decide_False; [apply H4; [done|done|fold L; lia]|].
        intros E. apply (queue_cells_apart a c c) in E as [_ E]; [|done]. symmetry in E. revert E. apply lap_apart; lia.
      * fold L in Hn1, Hn2. apply list_lookup_singleton_Some in Hn2 as [Hn2 <-].
        replace n with L by lia. by rewrite decide_True.
    + rewrite app_nil_r in Hn, Hle. rewrite decide_False; [by apply H4|].
      intros E. by apply (queue_cells_apart a c c') in E as [? _].
  - intros j. rewrite counted_app. cbn. rewrite app_nil_r. apply H5.
Qed.

Lemma update_bells a o tr s : bells_ok a o tr s -> bells_ok a o (tr ++ update_event s) (update_cluster s).
Proof.
  intros H. unfold update_event, update_cluster. destruct (update_cluster_in s) as [|m rest]; [by apply (bells_frame a o tr [] s)|].
  destruct H as [H1 H2 H3 H4 H5].
  split; cbn [set_field MESS_NUM queue_addr_map queue_metadata hostm old_core_id]; intros *; rewrite ?bells_app; cbn; rewrite ?app_nil_r; auto.
  rewrite counted_app, rd_insert. cbn. destruct (Z.eqb_spec (uc_i m) i) as [->|Hne].
  - by rewrite decide_True, last_snoc.
  - rewrite decide_False, app_nil_r by done. apply H5.
Qed.

Lemma step_bells a o tr s e s' :
  0 < a_MESS_NUM a <= 256 -> Forall (fun p => 0 <= p.2 < a_CORE_NUM a) (omap rang_of e) ->
  step s e s' -> bells_ok a o tr s -> bells_ok a o (tr ++ e) s'.
Proof.
  intros HM HF Hs H. destruct Hs; [| | |by apply doorbell_bells|by apply update_bells|by apply (bells_frame a o tr [] s)..].
  - unfold check0_event, check_message_dataflow_nodma0. cbv zeta. fold (head_rrb (m0 s).[(slot_offset0 s).[ii s]]).
    destruct (toggled _ _); destruct (ii _ =? _); by apply (bells_frame a o tr _ s).
  - unfold check1_event, check_message_dataflow_nodma1. cbv zeta. fold (head_rrb (m1 s).[0x40000 + (slot_offset1 s).[jj s]]).
    destruct (toggled _ _); destruct (jj _ =? _); by apply (bells_frame a o tr _ s).
  - unfold compute_event, compute_core_id. destruct (kk s =? 0); [destruct (check_msg_out0 s)|destruct (check_msg_out1 s)];
      rewrite ?core_id_func_eq; by apply (bells_frame a o tr _ s).
Qed.

Lemma steps_bells a o s tr s' :
  0 < a_MESS_NUM a <= 256 -> steps s tr s' -> Forall (fun p => 0 <= p.2 < a_CORE_NUM a) (omap rang_of tr) ->
  bells_ok a o [] s -> bells_ok a o tr s'.
Proof.
  intros HM. induction 1 as [|s t tr e s' _ IH Hstep]; [done|]. rewrite omap_app. intros [HF1 HF2]%Forall_app Hs.
  eapply step_bells; [done|done|exact Hstep|by apply IH].
Qed.

(** The set-up gives every core an empty queue of its own. *)
Lemma init_slots_queues s : queue_addr_map (init_slots s) = queue_addr_map s /\ queue_metadata (init_slots s) = queue_metadata s /\
  MESS_NUM (init_slots s) = MESS_NUM s.
Proof.
  unfold init_slots. apply (for_range_inv (fun s' => queue_addr_map s' = queue_addr_map s /\ queue_metadata s' = queue_metadata s /\
    MESS_NUM s' = MESS_NUM s)); [done|]. intros i s1 _ H1.
  apply (for_range_inv (fun s' => queue_addr_map s' = queue_addr_map s /\ queue_metadata s' = queue_metadata s /\
    MESS_NUM s' = MESS_NUM s)); [exact H1|]. intros j s2 _ H2. destruct (_ <? _); exact H2.
Qed.

Lemma init_queues_heads s c : 0 <= c < CORE_NUM s -> (queue_metadata (init_queues s)).[(c, 0)] = 0.
Proof.
  intros Hc. unfold init_queues.
  apply (for_range_ind (fun k p => c < k -> (queue_metadata p.2).[(c, 0)] = 0) 0 (CORE_NUM s)); [lia|lia| |lia].
  intros k [addr s1] Hk IH Hlt. cbn [fst snd] in *. cbn [set_field queue_metadata]. rewrite rd_insert. case_decide as E; [done|].
  apply IH. assert (k <> c) by congruence. lia.
Qed.

Lemma setup_queues a : MESS_NUM (configured a) = a_MESS_NUM a /\
  (forall c, 0 <= c < a_CORE_NUM a -> (queue_addr_map (configured a)).[c] = queue_word a c) /\
  forall c, 0 <= c < a_CORE_NUM a -> (queue_metadata (configured a)).[(c, 0)] = 0.
Proof.
  unfold configured, schedule_setup; cbv zeta. match goal with |- context [init_queues ?x] => set (s0 := x) end.
  destruct (init_slots_queues (init_queues s0)) as (E1 & E2 & E3). cbn [set_field MESS_NUM queue_addr_map queue_metadata].
  split; [|split].
  - pose proof (init_queues_frame s0) as (_ & _ & _ & _ & _ & _ & _ & _ & _ & _ & _ & _ & _ & HM). etrans; [exact E3|exact HM].
  - intros c Hc. rewrite E1. exact (init_queues_map s0 c Hc).
  - intros c Hc. rewrite E2. exact (init_queues_heads s0 c Hc).
Qed.

#[local] Opaque configured.

Lemma setup_bells a : bells_ok a (old_core_id (configured a)) [] (configured a).
Proof.
  destruct (setup_queues a) as (E1 & E2 & E3). generalize dependent (configured a). intros s E1 E2 E3. split; try done.
Qed.

#[local] Transparent configured.

(** * Theorems *)

#[local] Opaque clusters_init.

(** C1: from a freshly configured card, whatever the interleaving of the
    pipeline stages, the bitmap and weight refreshes, the client writes and the
    DMA, the counter of core [c] and feature [f] is its initial value plus the
    number of slots whose last counted request was given to [c] and uses [f]
    (modulo 256); once the streams have drained, the last counted request of a
    slot is the last one read from it. *)
Theorem cluster_counters_invariant (a : sched_args) (tr : list event) (s : fpga) :
  2 <= a_SLOT_NUM a * (a_e_client a - a_b_client a) ->
  steps (configured a) tr s ->
  counters_ok clusters_init s /\
  (inflight s = [] -> forall c f, 0 <= f < 512 ->
     (clusters s).[(c, f)] = u8 (clusters_init.[(c, f)] + load s (current s) c f)).
Proof.
  intros Hn Hs. destruct (setup_ok a fpga_reset idle_reset Hn) as [H0 _].
  change (clusters fpga_reset) with clusters_init in H0.
  pose proof (steps_pipe clusters_init _ _ _ Hs H0) as H. split; [done|].
  intros Hi c f Hf. destruct H as [ap [_ _ _ _ _ _ H7 H8]]. rewrite H8 by done.
  assert (load s ap c f = load s (current s) c f) as ->; [|reflexivity].
  apply sumZ_ext. intros i Hir%elem_of_seqZ. specialize (H7 i ltac:(lia)).
  rewrite Hi in H7. simpl in H7. by rewrite H7.
Qed.

(** The pipeline in which one request of slot 0 goes through all the stages. *)
Definition demo_args : sched_args := {|
  con := 2; a_BASE_ADDR := 0; a_CLIENT_NUM := 2; a_SLOT_NUM := 1; a_CORE_NUM := 4;
  a_MESS_NUM := 4; a_b_client := 0; a_e_client := 2; a_b_core := 0; a_e_core := 4; a_ip_id := 0 |}.

Definition demo_write (s : fpga) : fpga :=
  s <| m0 := <[16 := 0xFFFF0002]> (<[0 := 32]> (m0 s)) |> <| m1 := m1 s |>
    <| cdma_buf := cdma_buf s |> <| cdma := cdma s |>.

Lemma demo_steps s0 :
  let s1 := demo_write s0 in
  let s2 := check_message_dataflow_nodma0 s1 in
  let s3 := compute_core_id s2 in
  let s4 := doorbell_dataflow s3 in
  steps s0
    ((((([] ++ []) ++ check0_event s1) ++ compute_event s2) ++ doorbell_event s3) ++ update_event s4)
    (update_cluster s4).
Proof.
  intros s1 s2 s3 s4. apply steps_snoc with s4; [|apply step_update].
  apply steps_snoc with s3; [|apply step_doorbell].
  apply steps_snoc with s2; [|apply step_compute].
  apply steps_snoc with s1; [|apply step_check0].
  apply steps_snoc with s0; [constructor|apply step_env].
Qed.

Lemma cluster_counters_invariant_witness :
  let s1 := demo_write (configured demo_args) in
  let s := update_cluster (doorbell_dataflow (compute_core_id (check_message_dataflow_nodma0 s1))) in
  2 <= a_SLOT_NUM demo_args * (a_e_client demo_args - a_b_client demo_args) /\
  counters_ok clusters_init s /\ (clusters s).[(2, 5)] = 1.
Proof.
  intros s1 s. split; [cbn; lia|].
  destruct (cluster_counters_invariant demo_args _ s ltac:(cbn; lia) (demo_steps _)) as [H1 H2].
  split; [exact H1|]. rewrite H2; [vm_compute; reflexivity|vm_compute; reflexivity|lia].
Defined.

(** C16: no request is lost, duplicated or reordered between the decision and its
    effects.  The requests accepted from a slot are those already given a core
    plus those still waiting in the first streams; both the doorbells and the
    counter updates are, in order and with the same core, a prefix of the
    decisions, the rest being exactly the content of the streams.  The doorbells
    are what the host finds: as long as every request goes to one of the cores
    (the hint of a request that no core is similar to names one), the last
    [MESS_NUM] slots announced to core [c] are in the cells of the queue of [c] in
    the host's memory, the [n]-th in cell [n mod MESS_NUM].  And the core that the
    tables remember for a slot is that of its last counter update. *)
Theorem pipeline_conserves_requests (a : sched_args) (tr : list event) (s : fpga) :
  2 <= a_SLOT_NUM a * (a_e_client a - a_b_client a) -> 0 < a_MESS_NUM a <= 256 ->
  steps (configured a) tr s ->
  ((forall i, count (accepted i) tr = count (scheduled i) tr + waiting s i) /\
   omap scheduled_of tr
     = omap rang_of tr ++ ((fun m => (ci_i m, ci_core_id m)) <$> compute_core_id_out s) /\
   omap scheduled_of tr
     = omap applied_of tr ++ ((fun m => (uc_i m, uc_core_id m)) <$> update_cluster_in s)) /\
  (Forall (fun p => 0 <= p.2 < a_CORE_NUM a) (omap rang_of tr) ->
   (forall c (n : nat) i, 0 <= c < a_CORE_NUM a -> bells c tr !! n = Some i ->
      Z.of_nat (length (bells c tr)) <= Z.of_nat n + a_MESS_NUM a ->
      (hostm s).[queue_word a c + Z.of_nat n mod a_MESS_NUM a * 16] = i) /\
   forall i c, last (counted i tr) = Some c -> (old_core_id s).[i] = c).
Proof.
  intros Hn HM Hs.
  destruct (steps_trace _ _ _ Hs (setup_trace a fpga_reset idle_reset Hn)) as [H1 H2 H3].
  split; [exact (conj H1 (conj H2 H3))|]. intros HF.
  destruct (steps_bells a _ _ _ _ HM Hs HF (setup_bells a)) as [_ _ _ H4 H5].
  split; [exact H4|]. intros i c Hc. by rewrite H5, Hc.
Qed.

Lemma pipeline_conserves_requests_witness :
  let s1 := demo_write (configured demo_args) in
  let s2 := check_message_dataflow_nodma0 s1 in
  let s3 := compute_core_id s2 in
  let s4 := doorbell_dataflow s3 in
  let tr := (((([] ++ []) ++ check0_event s1) ++ compute_event s2) ++ doorbell_event s3)
              ++ update_event s4 in
  tr = [Accepted 0; Scheduled 0 2; Rang 0 2; Applied 0 2] /\
  count (accepted 0) tr = count (scheduled 0) tr + waiting (update_cluster s4) 0 /\
  (hostm (update_cluster s4)).[queue_word demo_args 2] = 0 /\ is_Some (hostm (update_cluster s4) !! queue_word demo_args 2) /\
  (old_core_id (update_cluster s4)).[0] = 2.
Proof.
  intros s1 s2 s3 s4 tr. assert (tr = [Accepted 0; Scheduled 0 2; Rang 0 2; Applied 0 2]) as E by (vm_compute; reflexivity).
  split; [exact E|].
  destruct (pipeline_conserves_requests demo_args tr (update_cluster s4)) as [[H _] HB].
  - cbn. lia.
  - cbn. lia.
  - exact (demo_steps _).
  - rewrite E in HB. destruct HB as [HB HC]; [repeat constructor; cbn; lia|]. split; [apply H|]. split; [|split].
    + pose proof (HB 2 0%nat 0 ltac:(cbn; lia) eq_refl ltac:(cbn; lia)) as K. cbn [Z.of_nat Z.modulo] in K.
      rewrite Zmod_0_l, Z.mul_0_l, Z.add_0_r in K. exact K.
    + vm_compute. by eexists.
    + exact (HC 0 2 eq_refl).
Defined.

(** * The main loop *)

Lemma steps_app s1 tr1 s2 tr2 s3 : steps s1 tr1 s2 -> steps s2 tr2 s3 -> steps s1 (tr1 ++ tr2) s3.
Proof.
  intros H1 H2. induction H2 as [|s t tr e s' _ IH Hstep]; [by rewrite app_nil_r|].
  rewrite app_assoc. apply steps_snoc with t; [by apply IH|done].
Qed.

Lemma steps_one s e s' : step s e s' -> steps s e s'.
Proof. intros H. apply (steps_snoc s s [] e s' (steps_refl s) H). Qed.

Lemma dataflow_steps s : exists tr, steps s tr (dataflow_no_dma s).
Proof.
  unfold dataflow_no_dma. eexists. eapply steps_app; [apply steps_one, step_check0|].
  eapply steps_app; [apply steps_one, step_check1|].
  eapply steps_app; [apply steps_one, step_compute|].
  eapply steps_app; [apply steps_one, step_doorbell|apply steps_one, step_update].
Qed.

Lemma dataflow_burst_steps n s : exists tr, steps s tr (for_range 0 n (fun _ => dataflow_no_dma) s).
Proof.
  apply (for_range_inv (fun s' => exists tr, steps s tr s')); [exists []; constructor|].
  intros i t _ [tr1 H1]. destruct (dataflow_steps t) as [tr2 H2].
  eexists. by eapply steps_app.
Qed.

Lemma loop_round_steps s u s' u' : loop_round s u = Some (s', u') -> exists tr, steps s tr s'.
Proof.
  unfold loop_round. destruct (u mod 2 =? 0).
  - destruct (u =? 1024).
    + destruct (negb _); [done|]. destruct (_ =? 0x2); intros [= <- <-].
      * eexists. apply steps_one, step_weight.
      * exists []. constructor.
    + intros [= <- <-]. eexists. apply steps_one, step_bitmap.
  - intros E%(inj Some). apply pair_eq in E as [<- <-]. apply dataflow_burst_steps.
Qed.

Lemma loop_rounds_steps n s u : exists tr, steps s tr (loop_rounds n s u).1.
Proof.
  revert s u. induction n as [|n IH]; intros s u; simpl; [exists []; constructor|].
  destruct (loop_round s u) as [[s' u']|] eqn:E; [|exists []; constructor].
  destruct (loop_round_steps _ _ _ _ E) as [tr1 H1]. destruct (IH s' u') as [tr2 H2].
  eexists. by eapply steps_app.
Qed.

(** The words the main loop tests are not written by the card. *)
Definition same_ports (s s' : fpga) : Prop :=
  m1 s' = m1 s /\ SLOT_NUM s' = SLOT_NUM s /\ CLIENT_NUM s' = CLIENT_NUM s.

Lemma dataflow_ports s : same_ports s (dataflow_no_dma s).
Proof.
  assert (Ht : forall a b c, same_ports a b -> same_ports b c -> same_ports a c).
  { unfold same_ports. intuition congruence. }
  unfold dataflow_no_dma. set (s1 := check_message_dataflow_nodma0 s).
  set (s2 := check_message_dataflow_nodma1 s1). set (s3 := compute_core_id s2).
  set (s4 := doorbell_dataflow s3). apply (Ht _ s4).
  - apply (Ht _ s3).
    + apply (Ht _ s2); [apply (Ht _ s1)|].
      * unfold s1, check_message_dataflow_nodma0. cbv zeta.
        destruct (toggled _ _), (_ =? _); by split_and!.
      * unfold s2, check_message_dataflow_nodma1. cbv zeta.
        destruct (toggled _ _), (_ =? _); by split_and!.
      * unfold s3, compute_core_id.
        destruct (kk s2 =? 0), (check_msg_out0 s2), (check_msg_out1 s2); by split_and!.
    + unfold s4, doorbell_dataflow. destruct (compute_core_id_out s3); by split_and!.
  - unfold update_cluster. destruct (update_cluster_in s4); by split_and!.
Qed.

Lemma loop_round_ports s u s' u' : loop_round s u = Some (s', u') -> same_ports s s'.
Proof.
  unfold loop_round. destruct (u mod 2 =? 0).
  - destruct (u =? 1024).
    + destruct (negb _); [done|]. destruct (_ =? 0x2); intros [= <- <-]; by split_and!.
    + intros [= <- <-]. by split_and!.
  - intros E%(inj Some). apply pair_eq in E as [<- <-].
    apply (for_range_inv (same_ports s)); [by split_and!|].
    intros i t _ (H1 & H2 & H3). destruct (dataflow_ports t) as (K1 & K2 & K3).
    split_and!; congruence.
Qed.

(** The next value of [u_w]. *)
Definition next_uw (u : Z) : Z := if u =? 1024 then 0 else u + 1.

Lemma loop_round_next s u :
  total_offset_value s = 666 -> exists s', loop_round s u = Some (s', next_uw u).
Proof.
  intros Ht. unfold loop_round, next_uw. rewrite Ht. cbn [negb].
  destruct (Z.eqb_spec u 1024) as [->|].
  - change (negb (666 =? 666)) with false. change (1024 mod 2 =? 0) with true.
    destruct (_ =? 0x2); by eexists.
  - destruct (u mod 2 =? 0); by eexists.
Qed.

Lemma total_offset_ports s s' : same_ports s s' -> total_offset_value s' = total_offset_value s.
Proof. intros (H1 & H2 & H3). unfold total_offset_value. by rewrite H1, H2, H3. Qed.

Lemma loop_rounds_next n s u :
  total_offset_value s = 666 -> (loop_rounds n s u).2 = Some (Nat.iter n next_uw u).
Proof.
  revert s u. induction n as [|n IH]; intros s u Ht; [done|].
  destruct (loop_round_next s u Ht) as [s' E]. cbn [loop_rounds]. rewrite E.
  rewrite IH, <-Nat.iter_succ_r; [done|]. by rewrite (total_offset_ports s s') by (by eapply loop_round_ports).
Qed.

(** the kernel started with [con = 2] is a run of the pipeline (so the
    pipeline theorems hold of it); it polls for ever while the word at the end
    of the request slots is 666, going through one round of weight loading and
    1024 alternating bitmap refreshes and bursts of 1024 dataflow iterations,
    and it returns at the first weight-loading round where the word differs. *)
Theorem schedule_nodma_runs (rounds : nat) (a : sched_args) (r : fpga) :
  con a = 2 ->
  let s := (schedule_setup a r) <| ii := 0 |> <| jj := 0 |> <| kk := 0 |> in
  (exists tr, steps s tr (schedule_nodma rounds a r)) /\
  (total_offset_value s = 666 ->
     (loop_rounds rounds s 1024).2 = Some (Nat.iter rounds next_uw 1024)) /\
  (total_offset_value s <> 666 -> loop_rounds (S rounds) s 1024 = (s, None)).
Proof.
  intros Hc s. split_and!.
  - unfold schedule_nodma. rewrite Hc. change (2 =? 2) with true. apply loop_rounds_steps.
  - apply loop_rounds_next.
  - intros Ht. cbn [loop_rounds]. unfold loop_round. change (1024 mod 2 =? 0) with true.
    change (1024 =? 1024) with true. by destruct (Z.eqb_spec (total_offset_value s) 666).
Qed.

Lemma schedule_nodma_runs_witness :
  con demo_args = 2 /\ Nat.iter 1025 next_uw 1024 = 1024 /\
  exists tr, steps ((configured demo_args) <| ii := 0 |> <| jj := 0 |> <| kk := 0 |>) tr
               (schedule_nodma 3 demo_args fpga_reset).
Proof.
  split; [reflexivity|]. split; [vm_compute; reflexivity|].
  destruct (schedule_nodma_runs 3 demo_args fpga_reset eq_refl) as [H _]. exact H.
Defined.
