(* ===== verification/Ring.v ===== *)
(** The dispatch queues of [nic-sched/fpga.h] and the protocol between their
    producers (the card, or the scheduler threads of [worker_buf.cpp]) and the
    worker that owns the queue.

    [RingQueue] is the interface: an array of cells with an "empty" mark.  A
    producer takes a ticket with an atomic fetch-and-add on a counter and later
    writes its value into the cell of the ticket; the worker polls its next
    cell, uses it and marks it empty.  The protocol is proved first-in
    first-out against the interface, for any interleaving of any number of
    producers; [fpga_dispatch_queue_t] and [strife_queue_t] are its instances. *)

From S2P Require Import Prelude Config.

(** * The interface *)

Class RingQueue (Q : Type) := {
  capacity : Z;
  empty_mark : Z;
  cell : Q -> Z -> Z;
  check_now_message : Q -> Z -> bool;
  set_message_down : Q -> Z -> Q;
  post_message : Q -> Z -> Z -> Q;
  ring_init : Q -> Q;
}.

Class RingQueueLaws (Q : Type) `{!RingQueue Q} : Prop := {
  capacity_pos : 0 < capacity (Q := Q);
  cell_post : forall (q : Q) i j v, cell (post_message q i v) j = if decide (i = j) then v else cell q j;
  cell_down : forall (q : Q) i j, cell (set_message_down q i) j = if decide (i = j) then empty_mark else cell q j;
  check_spec : forall (q : Q) i, check_now_message q i = negb (cell q i =? empty_mark);
  cell_init : forall (q : Q) i, 0 <= i < capacity -> cell (ring_init q) i = empty_mark;
}.

(** * fpga_dispatch_queue_t *)

Record fpga_dispatch_queue_t := {
  q_head : Z; q_tail : Z; message_count : Z; padding : gmap Z Z;
  queue_message : gmap (Z * Z) Z }.

#[export] Instance eta_dispatch : Eta fpga_dispatch_queue_t := fun q => {|
  q_head := q_head q; q_tail := q_tail q; message_count := message_count q;
  padding := padding q; queue_message := queue_message q |}.

Module Dispatch.
Section ops.
Context {C : Config}.

Definition get_message_client_id (q : fpga_dispatch_queue_t) (id : Z) : Z :=
  (queue_message q).[(id, 0)] / SLOT_NUM.

Definition get_message_slot_id (q : fpga_dispatch_queue_t) (id : Z) : Z :=
  (queue_message q).[(id, 0)] mod SLOT_NUM.

(** [table] and [key] are [uint64_t]; the cells are 32 bits wide.  [cnt % 5] is
    the C remainder. *)
Definition add_abort_key (q : fpga_dispatch_queue_t) (id cnt table key : Z) : fpga_dispatch_queue_t :=
  let qm := queue_message q in
  let qm := if qm.[(id, 4)] <=? 5 then <[(id, 4) := u32 (qm.[(id, 4)] + 1)]> qm else qm in
  let cnt := Z.rem cnt 5 in
  let qm := <[(id, 4 + cnt * 2 + 1) := u32 table]> qm in
  q <| queue_message := <[(id, 4 + cnt * 2 + 2) := u32 (key mod FEATURE_TABLE)]> qm |>.

Definition set_message_down (q : fpga_dispatch_queue_t) (id : Z) : fpga_dispatch_queue_t :=
  q <| queue_message := <[(id, 0) := 0xFFFFFFFF]> (queue_message q) |>.

Definition check_now_message (q : fpga_dispatch_queue_t) (id : Z) : bool :=
  negb ((queue_message q).[(id, 0)] =? 0xFFFFFFFF).

Definition init (q : fpga_dispatch_queue_t) : fpga_dispatch_queue_t :=
  let q := q <| q_head := 0 |> <| q_tail := 0 |> <| message_count := 0 |> in
  let q := q <| padding := for_range 0 52 (fun i p => <[i := 0]> p) (padding q) |> in
  q <| queue_message := for_range 0 MESS_NUM (fun i m =>
         <[(i, 3) := 0]> (<[(i, 2) := 0]> (<[(i, 1) := 0]> (<[(i, 0) := 0xFFFFFFFF]> m))))
         (queue_message q) |>.

(** [doorbell_queue[core_id]->queue_message[offset][0] = slot_id]; [slot_id] is a
    [uint32_t], the type of the cell. *)
Definition post (q : fpga_dispatch_queue_t) (offset slot_id : Z) : fpga_dispatch_queue_t :=
  q <| queue_message := <[(offset, 0) := slot_id]> (queue_message q) |>.

End ops.
End Dispatch.

(** * strife_queue_t *)

Record strife_queue_t := { strife_message : gmap Z Z }.

Module Strife.

Definition check_now_message (q : strife_queue_t) (id : Z) : bool :=
  negb ((strife_message q).[id] =? 0xFFFFFFFF).

Definition set_message_down (q : strife_queue_t) (id : Z) : strife_queue_t :=
  {| strife_message := <[id := 0xFFFFFFFF]> (strife_message q) |}.

Definition get_message_addr (q : strife_queue_t) (id : Z) : Z := (strife_message q).[id].

Definition init (q : strife_queue_t) : strife_queue_t :=
  {| strife_message := for_range 0 strife_buf_num (fun i m => <[i := 0xFFFFFFFF]> m) (strife_message q) |}.

(** [strife_queue[core_id]->queue_message[offset] = slot_addr] *)
Definition post (q : strife_queue_t) (offset slot_addr : Z) : strife_queue_t :=
  {| strife_message := <[offset := slot_addr]> (strife_message q) |}.

End Strife.

(** * Instances *)

#[export] Instance dispatch_ring {C : Config} : RingQueue fpga_dispatch_queue_t := {|
  capacity := MESS_NUM; empty_mark := 0xFFFFFFFF;
  cell q i := (queue_message q).[(i, 0)];
  check_now_message := Dispatch.check_now_message;
  set_message_down := Dispatch.set_message_down;
  post_message := Dispatch.post;
  ring_init := Dispatch.init |}.

#[export] Instance strife_ring : RingQueue strife_queue_t := {|
  capacity := strife_buf_num; empty_mark := 0xFFFFFFFF;
  cell q i := (strife_message q).[i];
  check_now_message := Strife.check_now_message;
  set_message_down := Strife.set_message_down;
  post_message := Strife.post;
  ring_init := Strife.init |}.

#[export] Instance dispatch_laws {C : Config} : RingQueueLaws fpga_dispatch_queue_t.
Proof.
  split; try done.
  - intros q i j v. cbn. rewrite rd_insert. repeat case_decide; congruence.
  - intros q i j. cbn. rewrite rd_insert. repeat case_decide; congruence.
  - intros q i Hi. cbn in Hi |- *.
    apply (for_range_ind (fun k (m : gmap (Z * Z) Z) => i < k -> m.[(i, 0)] = 0xFFFFFFFF) 0 MESS_NUM);
      [done|lia| |lia].
    intros k m Hk IH Hlt. rewrite !rd_insert. repeat (case_decide; [congruence|]).
    apply IH. destruct (decide (k = i)); [subst; by exfalso|lia].
Qed.

#[export] Instance strife_laws : RingQueueLaws strife_queue_t.
Proof.
  split.
  - reflexivity.
  - intros q i j v. cbn. by rewrite rd_insert.
  - intros q i j. cbn. by rewrite rd_insert.
  - reflexivity.
  - intros q i Hi. change (0 <= i < strife_buf_num) in Hi.
    change ((for_range 0 strife_buf_num (fun i m => <[i := 0xFFFFFFFF]> m) (strife_message q)).[i]
      = 0xFFFFFFFF).
    apply (for_range_ind (fun k (m : gmap Z Z) => i < k -> m.[i] = 0xFFFFFFFF) 0 strife_buf_num);
      [lia|lia| |lia].
    intros k m Hk IH Hlt. rewrite rd_insert. case_decide; [done|]. apply IH. lia.
Qed.

(** * The protocol *)

#[local] Set Default Proof Using "Type*".

Section protocol.
Context {Q : Type} `{!RingQueue Q, !RingQueueLaws Q}.
Local Abbreviation cap := (capacity (Q := Q)).

(** The queue, the fetch-and-add counter, the worker's [msg_id] and the
    tickets (cell, value) of the producers between their two accesses. *)
Record ring_state := { rq : Q; rhead : Z; ridx : Z; tickets : list (Z * Z) }.

Definition ring_start (q : Q) : ring_state :=
  {| rq := ring_init q; rhead := 0; ridx := 0; tickets := [] |}.

(** [offset = __sync_fetch_and_add(&head, 1) % capacity] *)
Definition reserve (s : ring_state) (v : Z) : ring_state :=
  {| rq := rq s; rhead := u64 (rhead s + 1); ridx := ridx s;
     tickets := tickets s ++ [(rhead s mod cap, v)] |}.

(** [queue_message[offset] = v] *)
Definition publish (s : ring_state) (o v : Z) (rest : list (Z * Z)) : ring_state :=
  {| rq := post_message (rq s) o v; rhead := rhead s; ridx := ridx s; tickets := rest |}.

(** [set_message_down(msg_id); msg_id = (msg_id + 1) % capacity] *)
Definition consume (s : ring_state) : ring_state :=
  {| rq := set_message_down (rq s) (ridx s); rhead := rhead s; ridx := (ridx s + 1) mod cap;
     tickets := tickets s |}.

Inductive ring_event := Reserved (v : Z) | Consumed (v : Z).

Definition reserved_of (e : ring_event) : option Z :=
  match e with Reserved v => Some v | Consumed _ => None end.
Definition consumed_of (e : ring_event) : option Z :=
  match e with Consumed v => Some v | Reserved _ => None end.

(** The 64-bit counter does not disturb the cell numbers: its range is a
    multiple of the capacity, or it has not wrapped around yet. *)
Definition counter_ok (n : nat) : Prop := 2 ^ 64 mod cap = 0 \/ Z.of_nat n < 2 ^ 64.

(** Runs in which at most [capacity] values are outstanding. *)
Inductive ring_run (q0 : Q) : list ring_event -> ring_state -> Prop :=
  | run_start : ring_run q0 [] (ring_start q0)
  | run_reserve tr s v :
      ring_run q0 tr s -> v <> empty_mark -> counter_ok (length (omap reserved_of tr)) ->
      Z.of_nat (length (omap reserved_of tr)) - Z.of_nat (length (omap consumed_of tr)) < cap ->
      ring_run q0 (tr ++ [Reserved v]) (reserve s v)
  | run_publish tr s o v l1 l2 :
      ring_run q0 tr s -> tickets s = l1 ++ (o, v) :: l2 ->
      ring_run q0 tr (publish s o v (l1 ++ l2))
  | run_consume tr s :
      ring_run q0 tr s -> check_now_message (rq s) (ridx s) = true ->
      ring_run q0 (tr ++ [Consumed (cell (rq s) (ridx s))]) (consume s).

(** The cell of ticket [n]. *)
Definition slot (n : nat) : Z := Z.of_nat n mod cap.

Record ring_inv (R K : list Z) (s : ring_state) : Prop := {
  i_prefix : K `prefix_of` R;
  i_head : rhead s = u64 (Z.of_nat (length R));
  i_idx : ridx s = slot (length K);
  i_room : Z.of_nat (length R) - Z.of_nat (length K) <= cap;
  i_vals : Forall (fun v => v <> empty_mark) R;
  i_nodup : NoDup (tickets s).*1;
  i_ticket : forall o v, (o, v) ∈ tickets s ->
    exists n, (length K <= n < length R)%nat /\ o = slot n /\ R !! n = Some v /\ cell (rq s) o = empty_mark;
  i_written : forall n v, (length K <= n < length R)%nat -> slot n ∉ (tickets s).*1 ->
    R !! n = Some v -> cell (rq s) (slot n) = v;
  i_free : forall o, 0 <= o < cap ->
    (forall n, (length K <= n < length R)%nat -> slot n <> o) -> cell (rq s) o = empty_mark
}.

Lemma slot_inj a n m :
  (a <= n)%nat -> (a <= m)%nat -> Z.of_nat n - Z.of_nat a < cap -> Z.of_nat m - Z.of_nat a < cap ->
  slot n = slot m -> n = m.
Proof.
  intros Hn Hm Hn' Hm' E. unfold slot in E. pose proof capacity_pos.
  pose proof (Z.div_mod (Z.of_nat n) cap). pose proof (Z.div_mod (Z.of_nat m) cap).
  assert (Z.of_nat n / cap = Z.of_nat m / cap) by nia. lia.
Qed.

Lemma slot_range n : 0 <= slot n < cap.
Proof. apply Z.mod_pos_bound, capacity_pos. Qed.

Lemma slot_S n : (slot n + 1) mod cap = slot (S n).
Proof. unfold slot. rewrite Zplus_mod_idemp_l. f_equal. lia. Qed.

Lemma slot_wrap n : counter_ok n -> u64 (Z.of_nat n) mod cap = slot n.
Proof.
  unfold slot, wrap. pose proof capacity_pos. intros [Hd|Hlt]; [|by rewrite (Z.mod_small _ (2 ^ 64)) by lia].
  apply Z.mod_divide in Hd as [k Hk]; [|lia].
  rewrite (Z.mod_eq (Z.of_nat n) (2 ^ 64)) by lia. rewrite Hk at 1.
  replace (Z.of_nat n - k * cap * (Z.of_nat n / 2 ^ 64))
    with (Z.of_nat n + - (k * (Z.of_nat n / 2 ^ 64)) * cap) by ring.
  apply Z_mod_plus_full.
Qed.

Lemma start_inv q : ring_inv [] [] (ring_start q).
Proof.
  pose proof capacity_pos. split; cbn; try done; try lia.
  - apply NoDup_nil_2.
  - intros o v Ho. by apply elem_of_nil in Ho.
  - intros o Ho _. by apply cell_init.
Qed.

Lemma reserve_inv R K s v :
  ring_inv R K s -> v <> empty_mark -> counter_ok (length R) ->
  Z.of_nat (length R) - Z.of_nat (length K) < cap ->
  ring_inv (R ++ [v]) K (reserve s v).
Proof.
  intros [I1 I2 I3 I4 I5 I6 I7 I8 I9] Hv Hcnt Hroom.
  assert (rhead s mod cap = slot (length R)) as Ho by (rewrite I2; by apply slot_wrap).
  assert (Hfresh : forall n, (length K <= n < length R)%nat -> slot n <> slot (length R)).
  { intros n Hn E. apply (slot_inj (length K)) in E; lia. }
  assert (Hle : (length K <= length R)%nat) by (by apply prefix_length).
  assert (Hnew : slot (length R) ∉ (tickets s).*1).
  { intros ([o v'] & E & Hin)%list_elem_of_fmap. cbn in E. subst.
    destruct (I7 _ _ Hin) as (n & Hn & E & _). by apply (Hfresh n). }
  split; cbn; rewrite ?length_app, ?Ho; cbn; try done; try lia.
  - by apply prefix_app_r.
  - rewrite I2, wrap_add_l by lia. f_equal. lia.
  - apply Forall_app. split; [done|]. by apply Forall_singleton.
  - rewrite fmap_app. cbn. apply NoDup_app. split; [done|]. split; [|apply NoDup_singleton].
    intros x Hx ->%list_elem_of_singleton. done.
  - intros o v' [Hin|Hin]%elem_of_app.
    + destruct (I7 _ _ Hin) as (n & Hn & -> & E & Hc). exists n.
      split; [lia|]. split; [done|]. split; [|done]. by apply lookup_app_l_Some.
    + apply list_elem_of_singleton in Hin as [= -> ->]. exists (length R).
      split; [lia|]. split; [done|]. split; [by apply list_lookup_middle|].
      apply I9; [apply slot_range|]. intros n Hn. by apply Hfresh.
  - intros n v' Hn Hout E. rewrite fmap_app, not_elem_of_app in Hout. cbn in Hout.
    destruct Hout as [Hout1 Hout2]. destruct (decide (n = length R)) as [->|].
    + exfalso. apply Hout2. by apply list_elem_of_singleton.
    + apply I8; [lia|done|]. rewrite lookup_app_l in E by lia. done.
  - intros o Hor Hno. apply I9; [done|]. intros n Hn. apply Hno. lia.
Qed.

Lemma publish_inv R K s o v l1 l2 :
  ring_inv R K s -> tickets s = l1 ++ (o, v) :: l2 -> ring_inv R K (publish s o v (l1 ++ l2)).
Proof.
  intros [I1 I2 I3 I4 I5 I6 I7 I8 I9] Ht. rewrite Ht in *.
  assert (Hin : forall x, x ∈ l1 ++ l2 -> x ∈ l1 ++ (o, v) :: l2) by set_solver.
  destruct (I7 o v) as (n & Hn & Hon & E & Hc); [set_solver|].
  rewrite fmap_app, fmap_cons in I6. apply NoDup_app in I6 as (N1 & N2 & N3).
  apply NoDup_cons in N3 as (N3 & N4).
  assert (Hnot : o ∉ (l1 ++ l2).*1).
  { rewrite fmap_app, not_elem_of_app. split; [|done]. intros Ho. by apply (N2 o Ho); left. }
  split; cbn; try done.
  - rewrite fmap_app. apply NoDup_app. split; [done|]. split; [|done].
    intros x Hx Hx'. apply (N2 x Hx). by right.
  - intros o' v' Hov. destruct (I7 o' v' (Hin _ Hov)) as (n' & ? & ? & ? & ?). exists n'.
    split_and!; try (done || lia). rewrite cell_post. case_decide as D; [|done].
    exfalso. apply Hnot. rewrite D. apply list_elem_of_fmap. by exists (o', v').
  - intros n' v' Hn' Hout E'. rewrite cell_post. case_decide as D.
    + rewrite Hon in D. apply (slot_inj (length K)) in D; [|lia..]. subst n'. congruence.
    + apply I8; [done| |done]. rewrite fmap_app, fmap_cons. cbn.
      rewrite fmap_app in Hout. set_solver.
  - intros o' Ho' Hno. rewrite cell_post. case_decide as D; [|by apply I9].
    exfalso. apply (Hno n Hn). congruence.
Qed.

(** A non-empty mark in the worker's cell is the oldest outstanding value. *)
Lemma front_cell R K s :
  ring_inv R K s -> cell (rq s) (ridx s) <> empty_mark ->
  (length K < length R)%nat /\ R !! length K = Some (cell (rq s) (ridx s)).
Proof.
  intros [I1 I2 I3 I4 I5 I6 I7 I8 I9] Hc. rewrite I3 in *.
  assert (length K <= length R)%nat by (by apply prefix_length).
  destruct (decide (length K < length R)%nat) as [Hlt|].
  - split; [done|]. destruct (lookup_lt_is_Some_2 R (length K) Hlt) as [v Hv].
    rewrite (I8 _ v); [done|lia| |done]. intros ([o v'] & E & Hin)%list_elem_of_fmap.
    destruct (I7 _ _ Hin) as (_ & _ & _ & _ & He). cbn in E. by subst.
  - exfalso. apply Hc, I9; [apply slot_range|lia].
Qed.

Lemma consume_inv R K s :
  ring_inv R K s -> cell (rq s) (ridx s) <> empty_mark ->
  ring_inv R (K ++ [cell (rq s) (ridx s)]) (consume s).
Proof.
  intros HI Hc. destruct (front_cell R K s HI Hc) as [Hlt Hv].
  destruct HI as [I1 I2 I3 I4 I5 I6 I7 I8 I9].
  assert (Hne : forall n, (S (length K) <= n < length R)%nat -> slot n <> slot (length K)).
  { intros n Hn E. apply (slot_inj (length K)) in E; lia. }
  assert (Hout : slot (length K) ∉ (tickets s).*1).
  { intros ([o v'] & E & Hin)%list_elem_of_fmap. cbn in E. subst o.
    destruct (I7 _ _ Hin) as (_ & _ & _ & _ & He). by rewrite I3 in Hc. }
  split; cbn; rewrite ?length_app; cbn; try done; try lia.
  - destruct I1 as [[|x l] ->]; [rewrite app_nil_r in Hlt; lia|].
    rewrite list_lookup_middle in Hv by done. injection Hv as ->.
    exists l. by rewrite <-app_assoc.
  - rewrite I3, slot_S. f_equal. lia.
  - intros o v' Hin. destruct (I7 o v' Hin) as (n & Hn & -> & E & He).
    destruct (decide (n = length K)) as [->|].
    + exfalso. apply Hout. apply list_elem_of_fmap. by exists (slot (length K), v').
    + exists n. split_and!; try (done || lia). rewrite cell_down. by case_decide.
  - intros n v' Hn Ho E. rewrite cell_down, I3. rewrite decide_False; [by apply I8; [lia|..]|].
    intros D. apply (Hne n); [lia|done].
  - intros o Ho Hno. rewrite cell_down. case_decide as D; [done|]. apply I9; [done|].
    intros n Hn. destruct (decide (n = length K)) as [->|]; [by rewrite <-I3|]. apply Hno. lia.
Qed.

Lemma run_inv q0 tr s :
  ring_run q0 tr s -> ring_inv (omap reserved_of tr) (omap consumed_of tr) s.
Proof.
  induction 1 as [|tr s v _ IH Hv Hcnt Hroom|tr s o v l1 l2 _ IH Ht|tr s _ IH Hc];
    rewrite ?omap_app; cbn; rewrite ?app_nil_r.
  - apply start_inv.
  - by apply reserve_inv.
  - by apply publish_inv.
  - apply consume_inv; [done|]. rewrite check_spec in Hc. by destruct (Z.eqb_spec (cell (rq s) (ridx s)) empty_mark).
Qed.

(** What the protocol promises the worker: values come out in ticket order,
    each exactly once; a full cell holds the next value; and once the producers
    have written, the next value is visible. *)
Definition fifo_promise (tr : list ring_event) (s : ring_state) : Prop :=
  let R := omap reserved_of tr in
  let K := omap consumed_of tr in
  K `prefix_of` R /\
  (check_now_message (rq s) (ridx s) = true ->
     R !! length K = Some (cell (rq s) (ridx s))) /\
  (tickets s = [] -> (length K < length R)%nat -> check_now_message (rq s) (ridx s) = true) /\
  0 <= ridx s < cap.

Lemma run_fifo q0 tr s : ring_run q0 tr s -> fifo_promise tr s.
Proof.
  intros Hrun%run_inv. pose proof Hrun as [I1 I2 I3 I4 I5 I6 I7 I8 I9]. unfold fifo_promise.
  rewrite check_spec. split; [done|]. split; [|split; [|rewrite I3; apply slot_range]].
  - intros Hc. eapply front_cell; [done|].
    by destruct (Z.eqb_spec (cell (rq s) (ridx s)) empty_mark).
  - intros Ht Hlt. destruct (lookup_lt_is_Some_2 _ _ Hlt) as [v Hv].
    rewrite I3, (I8 _ v); [|lia|rewrite Ht; apply not_elem_of_nil|done].
    rewrite Forall_lookup in I5. specialize (I5 _ _ Hv). by destruct (Z.eqb_spec v empty_mark).
Qed.
End protocol.

Arguments ring_state Q : clear implicits.

(** C21: the doorbell queue of a worker is first-in first-out: for every
    interleaving of scheduler threads (ticket by fetch-and-add on a 64-bit
    counter, whose range is a multiple of [MESS_NUM], then the store) and of the
    worker's polling, as long as at most [MESS_NUM] requests are outstanding and
    no request is the empty mark, the worker receives the requests in ticket order, each once, and sees the next
    one as soon as the stores have landed. *)
Theorem dispatch_queue_fifo {C : Config} (q0 : fpga_dispatch_queue_t) (tr : list ring_event)
    (s : ring_state fpga_dispatch_queue_t) :
  ring_run q0 tr s -> fifo_promise tr s.
Proof. apply run_fifo. Qed.

(** the same for the 65536-cell queue of request addresses. *)
Theorem strife_queue_fifo (q0 : strife_queue_t) (tr : list ring_event)
    (s : ring_state strife_queue_t) :
  ring_run q0 tr s -> fifo_promise tr s.
Proof. apply run_fifo. Qed.

(** Two producers that store in the opposite order of their tickets. *)
Lemma two_producers {Q} `{!RingQueue Q, !RingQueueLaws Q} (q0 : Q) :
  1 < capacity (Q := Q) -> 5 <> empty_mark (Q := Q) -> 6 <> empty_mark (Q := Q) ->
  let s2 := reserve (reserve (ring_start q0) 5) 6 in
  let s3 := publish s2 ((u64 (0 + 1)) mod capacity (Q := Q)) 6 [(0 mod capacity (Q := Q), 5)] in
  let s4 := publish s3 (0 mod capacity (Q := Q)) 5 [] in
  ring_run q0 [Reserved 5; Reserved 6] s3 /\ ring_run q0 [Reserved 5; Reserved 6] s4.
Proof.
  intros Hc H5 H6 s2 s3 s4.
  assert (ring_run q0 [Reserved 5; Reserved 6] s2) as R2.
  { apply (run_reserve q0 [Reserved 5] (reserve (ring_start q0) 5) 6); [|done|right; cbn; lia|cbn; lia].
    apply (run_reserve q0 [] (ring_start q0) 5); [constructor|done|right; cbn; lia|cbn; lia]. }
  assert (ring_run q0 [Reserved 5; Reserved 6] s3) as R3.
  { eapply (run_publish q0 _ s2 _ 6 [_] []); [exact R2|reflexivity]. }
  split; [exact R3|]. eapply (run_publish q0 _ s3 _ 5 [] []); [exact R3|reflexivity].
Qed.

Definition empty_dispatch : fpga_dispatch_queue_t :=
  {| q_head := 0; q_tail := 0; message_count := 0; padding := ∅; queue_message := ∅ |}.

Lemma dispatch_queue_fifo_witness :
  let C := ycsb_alnico in
  let s2 := reserve (reserve (ring_start empty_dispatch) 5) 6 in
  let s3 := publish s2 1 6 [(0, 5)] in
  let s4 := publish s3 0 5 [] in
  check_now_message (rq s3) (ridx s3) = false /\
  check_now_message (rq s4) (ridx s4) = true /\ cell (rq s4) (ridx s4) = 5.
Proof.
  intros C s2 s3 s4. split; [vm_compute; reflexivity|].
  destruct (@two_producers fpga_dispatch_queue_t _ _ empty_dispatch) as [_ R4];
    [reflexivity|discriminate|discriminate|].
  destruct (dispatch_queue_fifo empty_dispatch _ s4 R4) as (_ & _ & H2 & _).
  assert (check_now_message (rq s4) (ridx s4) = true) as E by (apply H2; [reflexivity|cbn; lia]).
  split; [exact E|vm_compute; reflexivity].
Defined.

Lemma strife_queue_fifo_witness :
  let s2 := reserve (reserve (ring_start {| strife_message := ∅ |}) 5) 6 in
  let s3 := publish s2 1 6 [(0, 5)] in
  let s4 := publish s3 0 5 [] in
  check_now_message (rq s4) (ridx s4) = true.
Proof.
  intros s2 s3 s4.
  destruct (@two_producers strife_queue_t _ _ {| strife_message := ∅ |}) as [_ R4];
    [reflexivity|discriminate|discriminate|].
  destruct (strife_queue_fifo {| strife_message := ∅ |} _ s4 R4) as (_ & _ & H2 & _).
  apply H2; [reflexivity|cbn; lia].
Defined.
