(* ===== verification/Feature.v ===== *)
(** Features: how keys are hashed to the 512 features and how aborted keys are
    remembered ([nic-sched/fpga.h], [fpga.cpp], [Rpc.h]). *)

From S2P Require Import Prelude Config.

(** ** The partition of the feature vector among the tables *)

Definition WARE_SIZE : Z := 10.
Definition DIST_SIZE : Z := 20.
Definition CUST_SIZE : Z := 110.
Definition HIST_SIZE : Z := 10.
Definition NEWO_SIZE : Z := 10.
Definition ORDE_SIZE : Z := 10.
Definition ORLI_SIZE : Z := 10.
Definition ITEM_SIZE : Z := 115.
Definition STOC_SIZE : Z := 177.
Definition CUST_INDEX_SIZE : Z := 10.
Definition ORDER_INDEX_SIZE : Z := 10.
Definition ARGS_DATA_SIZE : Z := 20.

Definition feature_size_512base : list Z :=
  [WARE_SIZE; DIST_SIZE; CUST_SIZE; HIST_SIZE; NEWO_SIZE; ORDE_SIZE; ORLI_SIZE; ITEM_SIZE;
   STOC_SIZE; CUST_INDEX_SIZE; ORDER_INDEX_SIZE; ARGS_DATA_SIZE; 0; 0; 0].

Definition base_size (i : Z) : Z := nth (Z.to_nat i) feature_size_512base 0.

Record feature_partitiont_t := { offset : gmap Z Z; fsize : gmap Z Z }.

(** The static object before initialisation. *)
Definition no_partition : feature_partitiont_t := {| offset := ∅; fsize := ∅ |}.

Definition init_feature_partition (p : feature_partitiont_t) : feature_partitiont_t :=
  let p := {| offset := <[0 := 0]> (offset p); fsize := <[0 := base_size 0]> (fsize p) |} in
  for_range 1 12 (fun i p =>
    {| offset := <[i := (offset p).[i - 1] + base_size (i - 1)]> (offset p);
       fsize := <[i := base_size i]> (fsize p) |}) p.

Section feature.
Context {C : Config}.

Definition init_feature_partitionycsb (p : feature_partitiont_t) : feature_partitiont_t :=
  let p := {| offset := <[0 := 0]> (offset p); fsize := <[0 := FEATURE_SIZE]> (fsize p) |} in
  for_range 1 12 (fun i p =>
    {| offset := <[i := FEATURE_SIZE]> (offset p); fsize := <[i := 0]> (fsize p) |}) p.

(** ** Hashing *)

(** [tx_key_t]: table and key. *)
Definition tx_key_t : Type := Z * Z.

(** [None]: the remainder by an empty table. *)
Definition hash_k2f (p : feature_partitiont_t) (key : tx_key_t) : option Z :=
  let sz := (fsize p).[key.1] in
  if sz =? 0 then None else Some ((offset p).[key.1] + key.2 mod sz).

(** Unsigned 32-bit arithmetic, then the conversion to [int]. *)
Definition hash_k2f_ycsb (col key : Z) : Z :=
  s32 (u32 (u32 (col * (FEATURE_SIZE / YCSBCOL)) + key mod (FEATURE_SIZE / YCSBCOL))).

(** ** abort_queue_t *)

Record abort_queue_t := { abort_queue_key : list Z; abort_depth : Z }.

Definition abort_init (q : abort_queue_t) : abort_queue_t :=
  {| abort_queue_key := []; abort_depth := 0 |}.

(** [front] and [pop]; [front] of an empty queue is undefined: [None]. *)
Definition pop_front (q : abort_queue_t) : option (Z * abort_queue_t) :=
  match abort_queue_key q with
  | [] => None
  | x :: l => Some (x, {| abort_queue_key := l; abort_depth := abort_depth q |})
  end.

Definition push_key (q : abort_queue_t) (f : Z) : abort_queue_t :=
  {| abort_queue_key := abort_queue_key q ++ [f]; abort_depth := abort_depth q |}.

Definition abort_push (p : feature_partitiont_t) (q : abort_queue_t) (new_key : tx_key_t)
    : option (Z * Z * abort_queue_t) :=
  '(first, q) ← (if abort_depth q =? ABORT_DEPTH then pop_front q else Some (FEATURE_SIZE + 1, q));
  second ← hash_k2f p new_key;
  Some (first, second, push_key q second).

Definition abort_push_ycsb (q : abort_queue_t) (col key : Z) : option (Z * Z * abort_queue_t) :=
  '(first, q) ← (if abort_depth q =? ABORT_DEPTH then pop_front q
                 else Some (FEATURE_SIZE + 1,
                        if DYNAMIC then {| abort_queue_key := abort_queue_key q;
                                           abort_depth := abort_depth q + 1 |} else q));
  let second := hash_k2f_ycsb col key in
  Some (first, second, if DYNAMIC then push_key q second else q).

End feature.

(** * Properties *)

Definition tpcc_partition : feature_partitiont_t := init_feature_partition no_partition.

(** the table partition tiles the 512 features: the first table starts at 0,
    each table starts where the previous one ends, the last one ends at 512,
    and none of the twelve tables is empty. *)
Theorem feature_partition_tiles :
  (offset tpcc_partition).[0] = 0 /\
  (forall i, 0 <= i < 11 -> (offset tpcc_partition).[i + 1]
     = (offset tpcc_partition).[i] + (fsize tpcc_partition).[i]) /\
  (offset tpcc_partition).[11] + (fsize tpcc_partition).[11] = FEATURE_SIZE /\
  (forall i, 0 <= i < 12 -> 0 < (fsize tpcc_partition).[i]).
Proof.
  split_and!; [vm_compute; reflexivity| |vm_compute; reflexivity|].
  - intros i Hi. apply Z.eqb_eq.
    apply (forallb_seqZ (fun i => (offset tpcc_partition).[i + 1]
      =? (offset tpcc_partition).[i] + (fsize tpcc_partition).[i]) 0 11);
      [vm_compute; reflexivity|lia].
  - intros i Hi. apply Z.ltb_lt.
    apply (forallb_seqZ (fun i => 0 <? (fsize tpcc_partition).[i]) 0 12); [vm_compute; reflexivity|lia].
Qed.

Lemma feature_partition_tiles_witness :
  0 <= 8 < 12 /\ 0 < (fsize tpcc_partition).[8] /\ (offset tpcc_partition).[8] = 295.
Proof.
  split; [lia|]. split; [|vm_compute; reflexivity].
  destruct feature_partition_tiles as (_ & _ & _ & H). apply H. lia.
Defined.

(** Tables are laid out in increasing order. *)
Lemma offset_mono i j :
  0 <= i < j -> j < 12 ->
  (offset tpcc_partition).[i] + (fsize tpcc_partition).[i] <= (offset tpcc_partition).[j].
Proof.
  intros Hij Hj.
  assert (forallb (fun i => forallb (fun j => negb (i <? j)
    || ((offset tpcc_partition).[i] + (fsize tpcc_partition).[i] <=? (offset tpcc_partition).[j]))
    (seqZ 0 12)) (seqZ 0 12) = true) as H by (vm_compute; reflexivity).
  apply (forallb_seqZ _ _ _ i) in H; [|lia]. apply (forallb_seqZ _ _ _ j) in H; [|lia].
  destruct (Z.ltb_spec i j); [|lia]. cbn in H. lia.
Qed.

Lemma table_bounds i :
  0 <= i < 12 -> 0 <= (offset tpcc_partition).[i] /\ 0 < (fsize tpcc_partition).[i] /\
  (offset tpcc_partition).[i] + (fsize tpcc_partition).[i] <= 512.
Proof.
  intros Hi.
  assert (forallb (fun i => (0 <=? (offset tpcc_partition).[i]) && (0 <? (fsize tpcc_partition).[i])
    && ((offset tpcc_partition).[i] + (fsize tpcc_partition).[i] <=? 512)) (seqZ 0 12) = true) as H
    by (vm_compute; reflexivity).
  apply (forallb_seqZ _ _ _ i) in H; [|lia]. cbv beta in H. lia.
Qed.

(** hashing a key of one of the twelve tables gives a feature of that
    table's part of the vector, so keys of different tables never share a
    feature. *)
Theorem hash_k2f_in_table (k1 k2 : tx_key_t) :
  0 <= k1.1 < 12 -> 0 <= k2.1 < 12 ->
  exists f1 f2, hash_k2f tpcc_partition k1 = Some f1 /\ hash_k2f tpcc_partition k2 = Some f2 /\
    (offset tpcc_partition).[k1.1] <= f1 < (offset tpcc_partition).[k1.1] + (fsize tpcc_partition).[k1.1] /\
    0 <= f1 < FEATURE_SIZE /\
    (k1.1 <> k2.1 -> f1 <> f2).
Proof.
  intros H1 H2. destruct (table_bounds _ H1) as (A1 & A2 & A3), (table_bounds _ H2) as (B1 & B2 & B3).
  unfold hash_k2f. destruct (Z.eqb_spec (fsize tpcc_partition).[k1.1] 0); [lia|].
  destruct (Z.eqb_spec (fsize tpcc_partition).[k2.1] 0); [lia|].
  pose proof (Z.mod_pos_bound k1.2 _ A2). pose proof (Z.mod_pos_bound k2.2 _ B2).
  do 2 eexists. split; [done|]. split; [done|]. unfold FEATURE_SIZE.
  split; [lia|]. split; [lia|]. intros Hne.
  destruct (decide (k1.1 < k2.1)).
  - pose proof (offset_mono k1.1 k2.1). lia.
  - pose proof (offset_mono k2.1 k1.1). lia.
Qed.

Lemma hash_k2f_in_table_witness :
  exists f1 f2, hash_k2f tpcc_partition (2, 1000) = Some f1 /\ hash_k2f tpcc_partition (8, 1000) = Some f2 /\
  f1 <> f2 /\ f1 = 40.
Proof.
  destruct (hash_k2f_in_table (2, 1000) (8, 1000)) as (f1 & f2 & H1 & H2 & _ & _ & H3); cbn; try lia.
  exists f1, f2. split; [exact H1|]. split; [exact H2|]. split; [apply H3; cbn; lia|].
  vm_compute in H1. injection H1 as <-. reflexivity.
Defined.

(** ** YCSB *)

#[local] Set Default Proof Using "Type*".

Section ycsb.
Context {C : Config} {CO : ConfigOk C}.

Lemma hash_ycsb_val col key :
  0 <= col < YCSBCOL -> 0 <= key ->
  hash_k2f_ycsb col key = col * (512 / YCSBCOL) + key mod (512 / YCSBCOL) /\
  0 <= hash_k2f_ycsb col key < FEATURE_SIZE.
Proof.
  intros Hc Hk. destruct CO as [_ _ _ H _]. unfold hash_k2f_ycsb, FEATURE_SIZE.
  assert (0 < 512 / YCSBCOL) by (apply Z.div_str_pos; lia).
  pose proof (Z.mul_div_le 512 YCSBCOL). pose proof (Z.mod_pos_bound key (512 / YCSBCOL)).
  assert (0 <= col * (512 / YCSBCOL) + key mod (512 / YCSBCOL) < 512) as Hb by nia.
  assert (0 <= col * (512 / YCSBCOL)) by (apply Z.mul_nonneg_nonneg; lia).
  rewrite !(wrap_small 32) by (unfold uint; rewrite ?(wrap_small 32); unfold uint; lia).
  unfold s32. rewrite Z.mod_small by lia. lia.
Qed.

(** for YCSB, column and key give a feature inside the vector, and different
    columns never share a feature. *)
Theorem hash_k2f_ycsb_in_range (c1 c2 k1 k2 : Z) :
  0 <= c1 < YCSBCOL -> 0 <= c2 < YCSBCOL -> 0 <= k1 -> 0 <= k2 ->
  0 <= hash_k2f_ycsb c1 k1 < FEATURE_SIZE /\
  (c1 <> c2 -> hash_k2f_ycsb c1 k1 <> hash_k2f_ycsb c2 k2).
Proof.
  intros H1 H2 H3 H4. destruct (hash_ycsb_val c1 k1 H1 H3) as [E1 B1].
  destruct (hash_ycsb_val c2 k2 H2 H4) as [E2 _]. split; [done|]. rewrite E1, E2.
  destruct CO as [_ _ _ H _]. assert (0 < 512 / YCSBCOL) by (apply Z.div_str_pos; lia).
  pose proof (Z.mod_pos_bound k1 (512 / YCSBCOL)). pose proof (Z.mod_pos_bound k2 (512 / YCSBCOL)).
  intros Hne E. destruct (decide (c1 < c2)); nia.
Qed.
End ycsb.

Lemma hash_k2f_ycsb_in_range_witness :
  hash_k2f_ycsb (C := ycsb_alnico) 3 77 <> hash_k2f_ycsb (C := ycsb_alnico) 4 77.
Proof. apply (hash_k2f_ycsb_in_range (C := ycsb_alnico) 3 4 77 77); cbn; lia. Defined.
