(* ===== verification/ModelUpdate.v ===== *)
(** [nic-sched/model_update.h]: the per-feature weights learnt from the aborts,
    and the guideline that spreads the hottest table over the workers.

    The weights and the guideline are the two 512-byte arrays at the start of
    the memory shared with the card: the card copies them by DMA and the CPU
    scheduler reads them as [weights] and [filter].

    Doubles are IEEE binary64 numbers of the Standard Library's [SpecFloat]
    (round to nearest even).  A conversion to [uint8_t] of a value that does
    not fit is undefined in C++: [ub_byte] stands for what it gives. *)

From Stdlib Require Import SpecFloat.
From stdpp Require Import sorting.
From S2P Require Import Prelude Memory Config Feature.

(** * Doubles *)

Definition double := spec_float.
Definition dbl (z : Z) : double := binary_normalize 53 1024 z 0 false.
Definition dadd : double -> double -> double := SFadd 53 1024.
Definition dmul : double -> double -> double := SFmul 53 1024.
Definition ddiv : double -> double -> double := SFdiv 53 1024.
Definition dlt : double -> double -> bool := SFltb.

Definition d_0_2 : double := S754_finite false 7205759403792794 (-55).
Definition d_0_1 : double := S754_finite false 7205759403792794 (-56).
Definition d_1e_5 : double := S754_finite false 5902958103587057 (-69).

(** Truncation towards zero of a finite double. *)
Definition dtrunc (d : double) : option Z :=
  match d with
  | S754_zero _ => Some 0
  | S754_finite s m e =>
      let a := if e <? 0 then Z.pos m / 2 ^ (- e) else Z.pos m * 2 ^ e in
      Some (if s then - a else a)
  | _ => None
  end.

(** [std::pair<double, uint16_t>]'s operator [<=], as [std::sort] uses it. *)
Definition sw_leb (a b : double * Z) : bool :=
  dlt a.1 b.1 || (negb (dlt b.1 a.1) && (a.2 <=? b.2)).

Definition sw_le (a b : double * Z) : Prop := sw_leb a b = true.

#[export] Instance sw_le_dec : RelDecision sw_le := fun a b => decide (sw_leb a b = true).

(** * State *)

Definition ANALYSIS_FEATURE_NUM : Z := 1024.

Record model_update_t := {
  mu_weights : gmap Z Z;
  guideline_group : gmap Z Z;
  core_weights : gmap (Z * Z) Z;
  sorted_weights : gmap Z (double * Z);
  hottest_table : double * Z;
  table_weight_avg : gmap Z double;
  core_features : gmap (Z * Z * Z) Z;
  feature_id : gmap (Z * Z) Z }.

#[export] Instance eta_model : Eta model_update_t := fun m => {|
  mu_weights := mu_weights m; guideline_group := guideline_group m;
  core_weights := core_weights m; sorted_weights := sorted_weights m;
  hottest_table := hottest_table m; table_weight_avg := table_weight_avg m;
  core_features := core_features m; feature_id := feature_id m |}.

Section model.
Context {C : Config}.
Variable ub_byte : double -> Z.

(** [static_cast<uint8_t>(d)] *)
Definition to_u8 (d : double) : Z :=
  match dtrunc d with
  | Some z => if (0 <=? z) && (z <? 256) then z else ub_byte d
  | None => ub_byte d
  end.

(** [init_addr]: the two arrays. *)
Definition init_addr (m : model_update_t) : model_update_t :=
  let m := m <| mu_weights := for_range 0 512 (fun i a => <[i := 0]> a) (mu_weights m) |> in
  m <| guideline_group :=
         for_range 0 512 (fun i a => <[i := MAX_CORE + 1]> a) (guideline_group m) |>.

(** [core_weights[thread_id]] has [FEATURE_SIZE + 1] cells of 16 bits. *)
Definition update_weight (m : model_update_t) (thread_id : Z) (abort_shift : Z * Z) : model_update_t :=
  let cw := core_weights m in
  let cw := <[(thread_id, abort_shift.2) := u16 (cw.[(thread_id, abort_shift.2)] + 1)]> cw in
  let cw := <[(thread_id, abort_shift.1) := u16 (cw.[(thread_id, abort_shift.1)] - 1)]> cw in
  m <| core_weights := cw |>.

Definition store_feature (mem : memory) (m : model_update_t) (thread_id addr : Z) : model_update_t :=
  let row := Z.rem (feature_id m).[(thread_id, 0)] ANALYSIS_FEATURE_NUM in
  m <| core_features := for_range 0 64 (fun k a => <[(thread_id, row, k) := byte mem (addr + k)]> a)
         (core_features m) |>
    <| feature_id := <[(thread_id, 0) := s32 ((feature_id m).[(thread_id, 0)] + 1)]> (feature_id m) |>.

Definition init_thread (m : model_update_t) (thread_id : Z) : model_update_t :=
  m <| feature_id := <[(thread_id, 0) := 0]> (feature_id m) |>
    <| core_weights := for_range 0 (FEATURE_SIZE + 1) (fun k a => <[(thread_id, k) := 0]> a)
         (core_weights m) |>.

(** ** merge_weights *)

(** The locals of its first loop. *)
Record mw_st := {
  t_id : Z; nothing_count : Z; count : Z; max_double : double;
  w_avg : gmap Z double; w_sorted : gmap Z (double * Z); w_hot : double * Z }.

#[export] Instance eta_mw : Eta mw_st := fun s => {|
  t_id := t_id s; nothing_count := nothing_count s; count := count s; max_double := max_double s;
  w_avg := w_avg s; w_sorted := w_sorted s; w_hot := w_hot s |}.

Definition dget (m : gmap Z double) (k : Z) : double := default (S754_zero false) (m !! k).
Definition sget (m : gmap Z (double * Z)) (k : Z) : double * Z := default (S754_zero false, 0) (m !! k).

(** The average weight of feature [j] over the workers. *)
Definition weight_double (cw : gmap (Z * Z) Z) (j : Z) : double :=
  for_range 0 MAX_THREAD (fun i w =>
    if YCSBplusT then dadd w (dbl (cw.[(i, j)] / MAX_THREAD))
    else dadd w (ddiv (dmul d_0_2 (dbl cw.[(i, j)])) (dbl MAX_THREAD))) (dbl 0).

Definition mw_step (p : feature_partitiont_t) (cw : gmap (Z * Z) Z) (j : Z) (s : mw_st) : mw_st :=
  let s := if j =? (offset p).[t_id s + 1] then
             s <| t_id := t_id s + 1 |> <| nothing_count := 0 |> <| count := 0 |>
               <| w_avg := <[t_id s + 1 := dbl 0]> (w_avg s) |>
           else s in
  let w := weight_double cw j in
  let s := if dlt w (dbl 1) then s <| nothing_count := nothing_count s + 1 |> else s in
  let s := s <| w_avg := <[t_id s := dadd (dget (w_avg s) (t_id s)) w]> (w_avg s) |>
             <| w_sorted := <[j := (SFopp w, j)]> (w_sorted s) |>
             <| count := count s + 1 |> in
  let s := if dlt (max_double s) w then s <| max_double := w |> else s in
  if (count s =? (fsize p).[t_id s]) && negb (count s =? nothing_count s)
     && (MAX_THREAD <=? count s - nothing_count s) then
    let avg := ddiv (dget (w_avg s) (t_id s)) (dbl (count s - nothing_count s)) in
    let s := s <| w_avg := <[t_id s := avg]> (w_avg s) |> in
    if dlt (w_hot s).1 avg then s <| w_hot := (avg, t_id s) |> else s
  else s.

Definition mw_scan (p : feature_partitiont_t) (m : model_update_t) : mw_st :=
  for_range 0 FEATURE_SIZE (mw_step p (core_weights m)) {|
    t_id := -1; nothing_count := 0; count := 0; max_double := dbl 0;
    w_avg := table_weight_avg m; w_sorted := sorted_weights m; w_hot := (d_1e_5, -1) |}.

(** The weight of an unguided feature. *)
Definition base_weight (s : mw_st) (j : Z) : Z :=
  let x := ddiv (SFopp (sget (w_sorted s) j).1) (max_double s) in
  if YCSBplusT then to_u8 (ddiv x (dbl FEATURE_SIZE))
  else to_u8 (dadd (dmul (ddiv x (dbl 200)) (dbl 255)) d_0_1).

(** [std::sort(sorted_weights + b, sorted_weights + e)] *)
Definition sort_range (sw : gmap Z (double * Z)) (b e : Z) : gmap Z (double * Z) :=
  let l := merge_sort sw_le (sget sw <$> seqZ b (e - b)) in
  for_range b e (fun i a => <[i := nth (Z.to_nat (i - b)) l (S754_zero false, 0)]> a) sw.

(** The locals of the guideline loop. *)
Record gl_st := {
  g_ans : Z; g_direct : Z; g_group : gmap Z Z; g_weights : gmap Z Z; g_sorted : gmap Z (double * Z) }.

Definition guideline_step (i : Z) (s : gl_st) : gl_st * bool :=
  let f := (sget (g_sorted s) i).2 in
  let grp := <[f := u8 (g_ans s)]> (g_group s) in
  let ans := g_ans s + g_direct s in
  let srt := <[i := (dbl 0, f)]> (g_sorted s) in
  let wts := <[f := u8 ((if YCSBplusT then 50 else 90) - i)]> (g_weights s) in
  let '(ans, direct) := if ans =? -1 then (0, 1) else (ans, g_direct s) in
  if ans =? MAX_THREAD then
    ({| g_ans := 0; g_direct := direct; g_group := grp; g_weights := wts; g_sorted := srt |}, true)
  else
    ({| g_ans := ans; g_direct := direct; g_group := grp; g_weights := wts; g_sorted := srt |}, false).

Definition merge_weights (p : feature_partitiont_t) (m : model_update_t) : model_update_t :=
  let s := mw_scan p m in
  let grp := for_range 0 FEATURE_SIZE (fun j a => <[j := MAX_CORE + 1]> a) (guideline_group m) in
  let wts := for_range 0 FEATURE_SIZE (fun j a => <[j := base_weight s j]> a) (mu_weights m) in
  let t := (w_hot s).2 in
  let m := m <| table_weight_avg := w_avg s |> <| hottest_table := w_hot s |> in
  if negb (t =? -1) && (MAX_THREAD <=? (fsize p).[t]) then
    let b := (offset p).[t] in
    let e := (offset p).[t] + (fsize p).[t] in
    let g := for_brk b e guideline_step {|
      g_ans := 0; g_direct := 1; g_group := grp; g_weights := wts;
      g_sorted := sort_range (w_sorted s) b e |} in
    m <| guideline_group := g_group g |> <| mu_weights := g_weights g |>
      <| sorted_weights := g_sorted g |>
  else m <| guideline_group := grp |> <| mu_weights := wts |> <| sorted_weights := w_sorted s |>.

End model.

(** * The abort window *)

(** Occurrences of [f] in a list of features. *)
Definition occurrences (f : Z) (l : list Z) : Z := sumZ (fun x => Z.b2z (x =? f)) l.

Section window.
Context {C : Config}.

(** What [worker_msg_t::abort_key_ycsb] does with an aborted column and key. *)
Definition record_abort_ycsb (t : Z) (s : abort_queue_t * model_update_t) (k : Z * Z)
    : option (abort_queue_t * model_update_t) :=
  '(first, second, q) ← abort_push_ycsb s.1 k.1 k.2;
  Some (q, update_weight s.2 t (first, second)).

Definition record_aborts_ycsb (t : Z) (s : abort_queue_t * model_update_t) (ks : list (Z * Z))
    : option (abort_queue_t * model_update_t) :=
  foldl (fun s k => s ← s; record_abort_ycsb t s k) (Some s) ks.

(** The queue is the window; the counters of worker [t] are its histogram. *)
Definition window_inv (t : Z) (hs : list Z) (s : abort_queue_t * model_update_t) : Prop :=
  abort_queue_key s.1 = drop (length hs - 4096) hs /\
  abort_depth s.1 = Z.of_nat (length (abort_queue_key s.1)) /\
  forall f, 0 <= f <= FEATURE_SIZE ->
    (core_weights s.2).[(t, f)] = u16 (occurrences f (abort_queue_key s.1)).

Lemma update_weight_rd m t first second f :
  first <> f ->
  (core_weights (update_weight m t (first, second))).[(t, f)]
  = if decide (second = f) then u16 ((core_weights m).[(t, f)] + 1) else (core_weights m).[(t, f)].
Proof.
  intros Hf. cbn. rewrite rd_insert_ne by congruence. rewrite rd_insert.
  repeat case_decide; congruence.
Qed.

Lemma update_weight_both m t x y f :
  (core_weights (update_weight m t (x, y))).[(t, f)]
  = if decide (x = f) then u16 ((core_weights m).[(t, f)] + Z.b2z (y =? f) - 1)
    else if decide (y = f) then u16 ((core_weights m).[(t, f)] + 1) else (core_weights m).[(t, f)].
Proof.
  case_decide as D; [|by apply update_weight_rd]. subst x. cbn. rewrite rd_insert_eq, rd_insert.
  destruct (Z.eqb_spec y f) as [->|].
  - rewrite decide_True by done. rewrite wrap_sub_l by lia. f_equal.
  - rewrite decide_False by congruence. cbn. f_equal. lia.
Qed.

Lemma occurrences_snoc f l x : occurrences f (l ++ [x]) = occurrences f l + Z.b2z (x =? f).
Proof. unfold occurrences. rewrite sumZ_app. cbn. lia. Qed.

Lemma window_step t hs s k :
  DYNAMIC = true -> window_inv t hs s -> 0 <= hash_k2f_ycsb k.1 k.2 < FEATURE_SIZE ->
  exists s', record_abort_ycsb t s k = Some s' /\ window_inv t (hs ++ [hash_k2f_ycsb k.1 k.2]) s'.
Proof.
  intros HD (W1 & W2 & W3) Hh. unfold record_abort_ycsb, abort_push_ycsb. rewrite HD.
  set (h := hash_k2f_ycsb k.1 k.2) in *. destruct s as [q m]. cbn [fst snd] in *.
  assert (length (abort_queue_key q) = (length hs - (length hs - 4096))%nat) as Hlen
    by (rewrite W1, length_drop; done).
  unfold ABORT_DEPTH. destruct (Z.eqb_spec (abort_depth q) 4096) as [Hd|Hd].
  - unfold pop_front. destruct (abort_queue_key q) as [|x l] eqn:El; [cbn in W2; lia|].
    cbn [length] in Hlen, W2. cbn [mbind option_bind]. eexists. split; [reflexivity|].
    assert (l = drop (length hs + 1 - 4096) hs) as Hl.
    { replace (length hs + 1 - 4096)%nat with (S (length hs - 4096)) by lia.
      change l with (drop 1 (x :: l)). rewrite W1, drop_drop. f_equal. lia. }
    split_and!; cbn [fst snd push_key abort_queue_key abort_depth].
    + rewrite length_app. cbn [length]. rewrite drop_app_le by lia. by rewrite <-Hl.
    + rewrite W2, length_app. cbn. lia.
    + intros f Hf. rewrite update_weight_both, W3, occurrences_snoc by done.
      unfold occurrences. rewrite sumZ_cons. fold (occurrences f l).
      generalize (occurrences f l). intros n.
      destruct (Z.eqb_spec x f), (Z.eqb_spec h f); cbn [Z.b2z];
        repeat case_decide; try congruence.
      * rewrite <-Z.add_sub_assoc, wrap_add_l by lia. f_equal. lia.
      * rewrite <-Z.add_sub_assoc, wrap_add_l by lia. f_equal. lia.
      * rewrite wrap_add_l by lia. done.
      * f_equal. lia.
  - assert (length hs < 4096)%nat as Hlt.
    { rewrite W1, length_drop in W2. lia. }
    replace (length hs - 4096)%nat with 0%nat in * by lia. rewrite drop_0 in W1.
    cbn [mbind option_bind]. eexists. split; [reflexivity|].
    split_and!; cbn [fst snd push_key abort_queue_key abort_depth].
    + rewrite length_app. cbn [length]. replace (length hs + 1 - 4096)%nat with 0%nat by lia.
      rewrite drop_0. by rewrite W1.
    + rewrite W2, length_app. cbn. lia.
    + intros f Hf. unfold FEATURE_SIZE in *. rewrite update_weight_rd, W3, occurrences_snoc by lia.
      destruct (Z.eqb_spec h f); case_decide; try congruence; cbn [Z.b2z].
      * by rewrite wrap_add_l by lia.
      * by rewrite Z.add_0_r.
Qed.

Lemma window_start t m q :
  window_inv t [] (abort_init q, init_thread m t).
Proof.
  split_and!; try done. intros f Hf. cbn [snd init_thread core_weights set_field].
  unfold occurrences. cbn [sumZ foldr abort_queue_key abort_init fst].
  apply (for_range_ind (fun k (a : gmap (Z * Z) Z) => f < k -> a.[(t, f)] = 0)); [done|lia| |].
  - intros k a Hk IH Hlt. rewrite rd_insert. case_decide; [done|]. apply IH.
    destruct (decide (k = f)); [congruence|lia].
  - lia.
Qed.

(** in the dynamic YCSB build, after any sequence of aborts the counters of
    a worker are exactly the histogram (on 16 bits) of the features of its last
    4096 aborts, and no abort is ever lost or taken back twice. *)
Theorem abort_window_histogram (t : Z) (m : model_update_t) (q : abort_queue_t) (ks : list (Z * Z)) :
  DYNAMIC = true ->
  (forall k, k ∈ ks -> 0 <= hash_k2f_ycsb k.1 k.2 < FEATURE_SIZE) ->
  exists q' m', record_aborts_ycsb t (abort_init q, init_thread m t) ks = Some (q', m') /\
    let window := drop (length ks - 4096) ((fun k => hash_k2f_ycsb k.1 k.2) <$> ks) in
    abort_queue_key q' = window /\
    forall f, 0 <= f < FEATURE_SIZE -> (core_weights m').[(t, f)] = u16 (occurrences f window).
Proof.
  intros HD Hk.
  assert (exists s', record_aborts_ycsb t (abort_init q, init_thread m t) ks = Some s' /\
    window_inv t ((fun k => hash_k2f_ycsb k.1 k.2) <$> ks) s') as ([q' m'] & E & W1 & W2 & W3).
  { induction ks as [|k ks IH] using rev_ind.
    - eexists. split; [reflexivity|]. apply window_start.
    - destruct IH as (s & E & W); [intros; apply Hk; set_solver|].
      unfold record_aborts_ycsb in *. rewrite foldl_app, E. cbn [foldl mbind option_bind].
      rewrite fmap_app. apply window_step; [done|done|]. apply Hk. set_solver. }
  exists q', m'. split; [done|]. rewrite length_fmap in W1. cbn [fst snd] in *.
  split; [done|]. intros f Hf. rewrite W3 by lia. by rewrite W1.
Qed.
End window.

Definition dynamic_ycsb : Config := {|
  MAX_THREAD := 20; CLIENT_THREAD := 24; ASYNCTXNUM := 4; YCSBSIZE := 48;
  YCSBCOL := 20; YCSBplusT := true; NULLRPC := false; STATIC_BEST := false;
  DYNAMIC := true; CPUBASED := 0; BASELINE := 0 |}.

#[export] Instance dynamic_ycsb_ok : ConfigOk dynamic_ycsb.
Proof. split; simpl; lia. Qed.

(** A model with all the arrays empty. *)
Definition model_zero : model_update_t := {|
  mu_weights := ∅; guideline_group := ∅; core_weights := ∅; sorted_weights := ∅;
  hottest_table := (S754_zero false, 0); table_weight_avg := ∅; core_features := ∅;
  feature_id := ∅ |}.

Lemma abort_window_histogram_witness :
  exists q' m', record_aborts_ycsb (C := dynamic_ycsb) 0 (abort_init {| abort_queue_key := []; abort_depth := 0 |},
    init_thread model_zero 0) [(1, 3); (2, 7); (1, 28)] = Some (q', m') /\
  (core_weights m').[(0, 28)] = 2.
Proof.
  destruct (abort_window_histogram (C := dynamic_ycsb) 0 model_zero {| abort_queue_key := []; abort_depth := 0 |}
    [(1, 3); (2, 7); (1, 28)] eq_refl) as (q' & m' & E & _ & H).
  - intros k Hk. assert (k = (1, 3) \/ k = (2, 7) \/ k = (1, 28)) as [->|[->| ->]] by set_solver;
      vm_compute; split; congruence.
  - exists q', m'. split; [exact E|]. rewrite H by (vm_compute; split; congruence).
    vm_compute. reflexivity.
Defined.

(** * The guideline *)

#[local] Set Default Proof Using "Type*".

Section guideline.
Context {C : Config} {CO : ConfigOk C}.
Context (ub_byte : double -> Z).

Lemma fill_const (a : gmap Z Z) v n j :
  0 <= j < n -> (for_range 0 n (fun j a => <[j := v]> a) a).[j] = v.
Proof.
  intros Hj. apply (for_range_ind (fun k (a : gmap Z Z) => j < k -> a.[j] = v)); [lia|lia| |lia].
  intros k a' Hk IH Hlt. rewrite rd_insert. case_decide; [done|]. apply IH. lia.
Qed.

(** Every feature keeps its number in [sorted_weights]. *)
Lemma mw_scan_index p m j :
  0 <= j < FEATURE_SIZE -> (sget (w_sorted (mw_scan p m)) j).2 = j.
Proof.
  intros Hj. unfold mw_scan.
  apply (for_range_ind (fun k s => j < k -> (sget (w_sorted s) j).2 = j)); [done|lia| |lia].
  intros k s Hk IH Hlt.
  assert (exists w, w_sorted (mw_step p (core_weights m) k s) = <[k := (SFopp w, k)]> (w_sorted s)) as [w ->].
  { exists (weight_double (core_weights m) k). unfold mw_step. cbv zeta.
    generalize (weight_double (core_weights m) k). intros w.
    destruct (k =? _), (dlt w (dbl 1)); cbn; destruct (dlt _ w); cbn; destruct (_ && _); cbn;
      try destruct (dlt _ _); reflexivity. }
  unfold sget. destruct (decide (k = j)) as [->|].
  - by rewrite lookup_insert_eq.
  - rewrite lookup_insert_ne by done. apply IH. lia.
Qed.

(** After sorting, position [b + k] holds the [k]-th element of the sorted
    list, whose numbers are a permutation of the range. *)
Lemma sort_range_spec sw b e :
  0 <= b <= e -> (forall j, b <= j < e -> (sget sw j).2 = j) ->
  exists L : list Z, L ≡ₚ seqZ b (e - b) /\
    forall k, 0 <= k < e - b -> L !! Z.to_nat k = Some (sget (sort_range sw b e) (b + k)).2.
Proof.
  intros Hbe Hsw. set (l := merge_sort sw_le (sget sw <$> seqZ b (e - b))).
  assert (l ≡ₚ sget sw <$> seqZ b (e - b)) as Hp by apply merge_sort_Permutation.
  exists (l.*2). split.
  - rewrite Hp, <-list_fmap_compose. rewrite (list_fmap_ext _ id); [by rewrite list_fmap_id|].
    intros i j Hj. apply list_elem_of_lookup_2, elem_of_seqZ in Hj. change ((sget sw j).2 = j).
    apply Hsw. lia.
  - assert (length l = Z.to_nat (e - b)) as Hl by (rewrite Hp, length_fmap, length_seqZ; done).
    intros k Hk. rewrite list_lookup_fmap. unfold sort_range. fold l.
    assert (sget (for_range b e (fun i a => <[i := nth (Z.to_nat (i - b)) l (S754_zero false, 0)]> a) sw)
      (b + k) = nth (Z.to_nat k) l (S754_zero false, 0)) as ->.
    { apply (for_range_ind (fun n a => b + k < n -> sget a (b + k) = nth (Z.to_nat k) l (S754_zero false, 0)));
        [lia|lia| |lia].
      intros n a Hn IH Hlt. unfold sget. destruct (decide (n = b + k)) as [->|].
      - rewrite lookup_insert_eq. cbn. f_equal. lia.
      - rewrite lookup_insert_ne by done. apply IH. lia. }
    destruct (lookup_lt_is_Some_2 l (Z.to_nat k)) as [x Hx]; [lia|].
    rewrite Hx. cbn. by rewrite (nth_lookup_Some _ _ _ _ Hx).
Qed.

(** The guideline loop before position [i]: cores [0 .. i-b-1] are given to the
    first [i-b] features of the order [F]. *)
Definition gl_inv (b : Z) (F : Z -> Z) (s0 : gl_st) (i : Z) (s : gl_st) : Prop :=
  (i < b + MAX_THREAD -> g_ans s = i - b) /\ g_direct s = 1 /\
  (forall x, (sget (g_sorted s) x).2 = (sget (g_sorted s0) x).2) /\
  (forall k, 0 <= k < i - b -> (g_group s).[F k] = k /\
     (g_weights s).[F k] = u8 ((if YCSBplusT then 50 else 90) - (b + k))) /\
  (forall f, (forall k, 0 <= k < i - b -> F k <> f) ->
     (g_group s).[f] = (g_group s0).[f] /\ (g_weights s).[f] = (g_weights s0).[f]).

Lemma guideline_step_inv b F s0 i s :
  (forall k, 0 <= k < MAX_THREAD -> F k = (sget (g_sorted s0) (b + k)).2) ->
  (forall j k, 0 <= j < MAX_THREAD -> 0 <= k < MAX_THREAD -> F j = F k -> j = k) ->
  b <= i < b + MAX_THREAD -> gl_inv b F s0 i s ->
  gl_inv b F s0 (i + 1) (guideline_step i s).1 /\
  (guideline_step i s).2 = (i =? b + MAX_THREAD - 1).
Proof.
  intros HF Hinj Hi (G1 & G2 & G3 & G4 & G5). specialize (G1 ltac:(lia)).
  destruct CO as [HM _ _ _ _].
  assert ((sget (g_sorted s) i).2 = F (i - b)) as Hf.
  { rewrite G3, HF by lia. do 2 f_equal. lia. }
  unfold guideline_step. cbv zeta. rewrite Hf, G1, G2.
  destruct (Z.eqb_spec (i - b + 1) (-1)); [lia|].
  assert (E : forall (a : bool) s1 s2, g_group s1 = g_group s2 -> g_weights s1 = g_weights s2 ->
    g_sorted s1 = g_sorted s2 -> g_direct s1 = g_direct s2 ->
    (i + 1 < b + MAX_THREAD -> g_ans s1 = g_ans s2) ->
    gl_inv b F s0 (i + 1) s2 -> gl_inv b F s0 (i + 1) s1).
  { intros _ s1 s2 E1 E2 E3 E4 E5 (K1 & K2 & K3 & K4 & K5).
    unfold gl_inv. rewrite E1, E2, E3, E4. split_and!; try done. intros. rewrite E5; auto. }
  set (s2 := {| g_ans := i - b + 1; g_direct := 1; g_group := <[F (i - b) := u8 (i - b)]> (g_group s);
    g_weights := <[F (i - b) := u8 ((if YCSBplusT then 50 else 90) - i)]> (g_weights s);
    g_sorted := <[i := (dbl 0, F (i - b))]> (g_sorted s) |}).
  assert (gl_inv b F s0 (i + 1) s2) as H2.
  { unfold s2, gl_inv. cbn [g_ans g_direct g_group g_weights g_sorted]. split_and!.
    - lia.
    - done.
    - intros x. destruct (decide (x = i)) as [->|].
      + unfold sget at 1. rewrite lookup_insert_eq. cbn. by rewrite <-Hf, G3.
      + unfold sget at 1. rewrite lookup_insert_ne by done. apply G3.
    - intros k Hk. rewrite !rd_insert. destruct (decide (k = i - b)) as [->|Hne].
      + rewrite !decide_True by done. split; [apply wrap_small; unfold uint; lia|]. f_equal. lia.
      + assert (F (i - b) <> F k) by (intros Heq; apply Hinj in Heq; lia).
        rewrite !decide_False by done. apply G4. lia.
    - intros f Hk. assert (F (i - b) <> f) by (apply Hk; lia).
      rewrite !rd_insert_ne by done. apply G5. intros k Hk'. apply Hk. lia. }
  destruct (Z.eqb_spec (i - b + 1) MAX_THREAD); cbn [fst snd].
  - split; [|destruct (Z.eqb_spec i (b + MAX_THREAD - 1)); lia].
    apply (E true _ s2); try done. cbn. lia.
  - split; [exact H2|]. destruct (Z.eqb_spec i (b + MAX_THREAD - 1)); lia.
Qed.

Lemma mw_scan_const p m :
  exists st, merge_weights ub_byte p m = st /\ hottest_table st = w_hot (mw_scan p m).
Proof.
  eexists. split; [reflexivity|]. unfold merge_weights. cbv zeta. by destruct (_ && _).
Qed.

(** after [merge_weights] the guideline either leaves every feature free (no
    table is hot enough, or it has fewer features than there are workers), or
    gives every worker exactly one feature, all of them in the hottest table,
    with weights that decrease by one from worker to worker, and leaves all
    the other features free. *)
Theorem guideline_one_feature_per_worker (p : feature_partitiont_t) (m : model_update_t) :
  (forall t, 0 <= (offset p).[t] /\ 0 <= (fsize p).[t] /\ (offset p).[t] + (fsize p).[t] <= 512) ->
  let m' := merge_weights ub_byte p m in
  let t := (hottest_table m').2 in
  let b := (offset p).[t] in
  (t = -1 \/ (fsize p).[t] < MAX_THREAD ->
     forall f, 0 <= f < FEATURE_SIZE -> (guideline_group m').[f] = MAX_CORE + 1) /\
  (t <> -1 -> MAX_THREAD <= (fsize p).[t] ->
     exists F : Z -> Z,
       (forall c, 0 <= c < MAX_THREAD -> b <= F c < b + (fsize p).[t] /\
          (guideline_group m').[F c] = c /\
          (mu_weights m').[F c] = u8 ((if YCSBplusT then 50 else 90) - (b + c))) /\
       (forall f, 0 <= f < FEATURE_SIZE -> (forall c, 0 <= c < MAX_THREAD -> F c <> f) ->
          (guideline_group m').[f] = MAX_CORE + 1)).
Proof.
  intros Hp m'. destruct (mw_scan_const p m) as (st & Hst & Hhot). fold m' in Hst. subst st.
  cbv zeta. rewrite Hhot. set (s := mw_scan p m) in *. set (t := (w_hot s).2).
  specialize (Hp t). set (b := (offset p).[t]) in *. set (n := (fsize p).[t]) in *.
  destruct CO as [HM _ _ _ _]. subst m'. unfold merge_weights. cbv zeta. fold s t b n. split.
  - intros Hor f Hf. replace (negb (t =? -1) && (MAX_THREAD <=? n)) with false.
    + cbn. by apply fill_const.
    + destruct Hor as [->|]; [done|]. destruct (Z.leb_spec MAX_THREAD n); [lia|]. by rewrite andb_false_r.
  - intros Ht Hn. replace (negb (t =? -1) && (MAX_THREAD <=? n)) with true.
    2:{ apply Z.eqb_neq in Ht. apply Z.leb_le in Hn. by rewrite Ht, Hn. }
    destruct (sort_range_spec (w_sorted s) b (b + n)) as (L & HL & HLk); [lia| |].
    { intros j Hj. apply mw_scan_index. unfold FEATURE_SIZE. lia. }
    set (srt := sort_range (w_sorted s) b (b + n)) in *.
    set (F k := (sget srt (b + k)).2).
    assert (HFr : forall c, 0 <= c < MAX_THREAD -> b <= F c < b + n).
    { intros c Hc. specialize (HLk c ltac:(lia)). apply list_elem_of_lookup_2 in HLk.
      rewrite HL in HLk. apply elem_of_seqZ in HLk. fold (F c) in HLk. lia. }
    assert (NoDup L) as HND by (rewrite HL; apply NoDup_seqZ).
    match goal with |- context [for_brk b (b + n) guideline_step ?x] => set (s0 := x) end.
    assert (gl_inv b F s0 (b + MAX_THREAD) (for_brk b (b + n) guideline_step s0)) as (_ & _ & _ & G4 & G5).
    { apply (for_brk_until (gl_inv b F s0)); [lia| |].
      - unfold gl_inv. split; [intros _; cbn [g_ans s0]; lia|].
        split; [reflexivity|]. split; [done|]. split; [lia|done].
      - intros i x Hi. apply guideline_step_inv; [done| |done].
        intros j k Hj Hk E. pose proof (HLk j ltac:(lia)) as E1. pose proof (HLk k ltac:(lia)) as E2.
        fold (F j) in E1. fold (F k) in E2. rewrite E in E1.
        pose proof (NoDup_lookup _ _ _ _ HND E1 E2). lia. }
    exists F. split.
    + intros c Hc. split; [by apply HFr|]. apply (G4 c). lia.
    + intros f Hf Hno. cbn. destruct (G5 f) as [-> _]; [intros k Hk; apply Hno; lia|].
      cbn. by apply fill_const.
Qed.
End guideline.

(** Every worker has seen 1000 aborts on every feature of the district table. *)
Definition demo_model : model_update_t :=
  model_zero <| core_weights := for_range 0 20 (fun i m =>
    for_range 10 30 (fun j m => <[(i, j) := 1000]> m) m) ∅ |>.

Lemma tpcc_partition_ok t :
  0 <= (offset tpcc_partition).[t] /\ 0 <= (fsize tpcc_partition).[t] /\
  (offset tpcc_partition).[t] + (fsize tpcc_partition).[t] <= 512.
Proof.
  destruct (decide (0 <= t < 12)) as [Ht|Ht]; [destruct (table_bounds t Ht); lia|].
  assert (in_bounds (fun k => 0 <= k < 12) (offset tpcc_partition) /\
          in_bounds (fun k => 0 <= k < 12) (fsize tpcc_partition)) as [H1 H2].
  { apply (for_range_inv (fun p => in_bounds (fun k => 0 <= k < 12) (offset p) /\
      in_bounds (fun k => 0 <= k < 12) (fsize p)) 1 12).
    - split; apply in_bounds_insert; (lia || apply in_bounds_empty).
    - intros i p Hi [H1 H2]. split; apply in_bounds_insert; (done || lia). }
  rewrite (rd_out_of_bounds _ _ t H1 Ht), (rd_out_of_bounds _ _ t H2 Ht). lia.
Qed.

Lemma guideline_one_feature_per_worker_witness :
  let m' := merge_weights (C := tpcc_alnico) (fun _ => 0) tpcc_partition demo_model in
  (hottest_table m').2 = 1 /\
  exists F, forall c, 0 <= c < 20 -> 10 <= F c < 30 /\ (guideline_group m').[F c] = c.
Proof.
  intros m'. assert ((hottest_table m').2 = 1) as E by (vm_compute; reflexivity).
  split; [exact E|].
  destruct (guideline_one_feature_per_worker (C := tpcc_alnico) (fun _ => 0) tpcc_partition demo_model
    tpcc_partition_ok) as [_ H]. fold m' in H. rewrite E in H.
  destruct H as (F & HF & _); [lia|vm_compute; congruence|].
  exists F. intros c Hc. destruct (HF c Hc) as (H1 & H2 & _). split; [exact H1|exact H2].
Defined.

(** * Aborts of the TPC-C build *)

Section tpcc_aborts.
Context {C : Config}.

(** What [worker_msg_t::abort_key] does with an aborted key. *)
Definition record_abort (p : feature_partitiont_t) (t : Z) (s : abort_queue_t * model_update_t)
    (key : tx_key_t) : option (abort_queue_t * model_update_t) :=
  if key.1 =? 0xFFFF then Some s
  else '(first, second, q) ← abort_push p s.1 key;
       Some (q, update_weight s.2 t (first, second)).

Definition record_aborts (p : feature_partitiont_t) (t : Z) (s : abort_queue_t * model_update_t)
    (ks : list tx_key_t) : option (abort_queue_t * model_update_t) :=
  foldl (fun s k => s ← s; record_abort p t s k) (Some s) ks.

Definition growing (t : Z) (n : nat) (s : abort_queue_t * model_update_t) : Prop :=
  abort_depth s.1 = 0 /\ length (abort_queue_key s.1) = n /\
  ((0 < n)%nat -> is_Some (core_weights s.2 !! (t, FEATURE_SIZE + 1))).

Lemma record_abort_grows t n s k :
  growing t n s -> 0 <= k.1 < 12 ->
  exists s', record_abort tpcc_partition t s k = Some s' /\ growing t (S n) s'.
Proof.
  intros (G1 & G2 & G3) Hk. unfold record_abort, abort_push.
  destruct (Z.eqb_spec k.1 0xFFFF); [lia|]. rewrite G1. change (0 =? ABORT_DEPTH) with false.
  destruct (table_bounds _ Hk) as (_ & Hs & _). unfold hash_k2f.
  destruct (Z.eqb_spec (fsize tpcc_partition).[k.1] 0); [lia|].
  cbn [mbind option_bind]. eexists. split; [reflexivity|]. split_and!; cbn.
  - done.
  - rewrite length_app. cbn. lia.
  - intros _. rewrite lookup_insert_eq. eauto.
Qed.

(** in the TPC-C build an abort never expires: [abort_depth] is never
    incremented, so the queue of remembered keys grows by one with every abort
    and every abort decrements cell [FEATURE_SIZE + 1] of the worker's counters,
    one past the [FEATURE_SIZE + 1] cells that [init_thread] allocates. *)
Theorem tpcc_aborts_never_expire (t : Z) (m : model_update_t) (q : abort_queue_t) (ks : list tx_key_t) :
  (forall k, k ∈ ks -> 0 <= k.1 < 12) ->
  exists q' m', record_aborts tpcc_partition t (abort_init q, init_thread m t) ks = Some (q', m') /\
    abort_depth q' = 0 /\ length (abort_queue_key q') = length ks /\
    (ks <> [] -> is_Some (core_weights m' !! (t, FEATURE_SIZE + 1))).
Proof.
  intros Hk.
  assert (exists s', record_aborts tpcc_partition t (abort_init q, init_thread m t) ks = Some s' /\
    growing t (length ks) s') as ([q' m'] & E & G1 & G2 & G3).
  { induction ks as [|k ks IH] using rev_ind.
    - eexists. split; [reflexivity|]. split_and!; (done || (cbn; lia)).
    - destruct IH as (s & E & G); [intros; apply Hk; set_solver|].
      unfold record_aborts in *. rewrite foldl_app, E. cbn [foldl mbind option_bind].
      rewrite length_app, Nat.add_comm. apply record_abort_grows; [done|]. apply Hk. set_solver. }
  exists q', m'. split; [done|]. split_and!; try done.
  intros Hne. apply G3. destruct ks; cbn; [done|lia].
Qed.
End tpcc_aborts.

Lemma tpcc_aborts_never_expire_witness :
  exists q' m', record_aborts tpcc_partition 0
    (abort_init {| abort_queue_key := []; abort_depth := 0 |}, init_thread model_zero 0)
    [(1, 3); (8, 7)] = Some (q', m') /\ abort_depth q' = 0 /\ length (abort_queue_key q') = 2%nat.
Proof.
  destruct (tpcc_aborts_never_expire 0 model_zero
    {| abort_queue_key := []; abort_depth := 0 |} [(1, 3); (8, 7)]) as (q' & m' & E & H1 & H2 & _).
  - intros k Hk. assert (k = (1, 3) \/ k = (8, 7)) as [->| ->] by set_solver; cbn; lia.
  - exists q', m'. split; [exact E|]. split; [exact H1|exact H2].
Defined.
