(* ===== verification/Perf.v ===== *)
(** [nic-sched/latency_evaluation.h]: the per-thread request counters that
    drive the throughput reports, the batches of the two-phase scheduler and
    the dynamic workload.

    [CLOCK_REALTIME] is read through [Timer]: an operation that reads the clock
    takes its value in nanoseconds as an argument. *)

From S2P Require Import Prelude Config.

(** A thread's counters: [None] before [init_thread] (a null pointer). *)
Record latency_evaluation_t := {
  dynamic_test_phase : Z;
  latency_bucket : gmap Z (gmap Z Z);
  timer : gmap Z Z;
  req_count : gmap Z (gmap Z Z);
  req_retry_count : gmap Z (gmap Z Z);
  l_thread_num : Z;
  throughput : Z;
  try_print_time : Z;
  try_cnt : Z;
  throughput_ms : Z;
  print_num_listen : Z }.

#[export] Instance eta_latency : Eta latency_evaluation_t := fun l => {|
  dynamic_test_phase := dynamic_test_phase l; latency_bucket := latency_bucket l;
  timer := timer l; req_count := req_count l; req_retry_count := req_retry_count l;
  l_thread_num := l_thread_num l; throughput := throughput l;
  try_print_time := try_print_time l; try_cnt := try_cnt l;
  throughput_ms := throughput_ms l; print_num_listen := print_num_listen l |}.

Definition time_u : Z := 100.
Definition range : Z := 10.

Definition latency_new (thread_num now : Z) : latency_evaluation_t := {|
  dynamic_test_phase := 0; latency_bucket := ∅; timer := ∅; req_count := ∅;
  req_retry_count := ∅; l_thread_num := thread_num + 1; throughput := 0;
  try_print_time := now; try_cnt := 0; throughput_ms := 0; print_num_listen := 0 |}.

Definition update_dynamic_phase (l : latency_evaluation_t) (now : Z) : latency_evaluation_t :=
  l <| dynamic_test_phase := u8 now |>.
Definition get_dynamic_phase (l : latency_evaluation_t) : Z := dynamic_test_phase l.

(** A thread number past [thread_num] only prints an error. *)
Definition perf_init_thread (l : latency_evaluation_t) (id now : Z) : latency_evaluation_t :=
  match latency_bucket l !! id with
  | Some _ => l
  | None => l <| latency_bucket := <[id := ∅]> (latency_bucket l) |>
              <| timer := <[id := now]> (timer l) |>
              <| req_count := <[id := ∅]> (req_count l) |>
              <| req_retry_count := <[id := ∅]> (req_retry_count l) |>
  end.

(** [None]: the thread was not initialised. *)
Definition count (l : latency_evaluation_t) (id : Z) : option latency_evaluation_t :=
  a ← req_count l !! id;
  Some (l <| req_count := <[id := <[0 := u64 (a.[0] + 1)]> a]> (req_count l) |>).

Definition retry_count (l : latency_evaluation_t) (id : Z) : option latency_evaluation_t :=
  a ← req_retry_count l !! id;
  Some (l <| req_retry_count := <[id := <[0 := u64 (a.[0] + 1)]> a]> (req_retry_count l) |>).

Definition read_count (l : latency_evaluation_t) (id : Z) : option Z :=
  a ← req_count l !! id; Some a.[0].

(** A counter of a thread, 0 when the thread does not exist. *)
Definition counter (m : gmap Z (gmap Z Z)) (i k : Z) : Z :=
  match m !! i with Some a => a.[k] | None => 0 end.

Definition total_count (l : latency_evaluation_t) : Z :=
  for_range 0 (l_thread_num l) (fun i s => u64 (s + counter (req_count l) i 0)) 0.

Definition retry_pass (l : latency_evaluation_t) : Z * gmap Z (gmap Z Z) :=
  for_range 0 (l_thread_num l) (fun i '(s, m) =>
    match m !! i with
    | None => (s, m)
    | Some a => (u64 (s + (a.[0] - a.[1])), <[i := <[1 := a.[0]]> a]> m)
    end) (0, req_retry_count l).

Definition count_pass (l : latency_evaluation_t) : Z * gmap Z (gmap Z Z) :=
  for_range 0 (l_thread_num l) (fun i '(s, m) =>
    match m !! i with
    | None => (s, m)
    | Some a => (u64 (s + a.[0]), <[i := <[1 := a.[0]]> a]> m)
    end) (0, req_count l).

(** The requests and the retries since the previous call. *)
Definition merge_count (l : latency_evaluation_t) : latency_evaluation_t * (Z * Z) :=
  let '(retries, rm) := retry_pass l in
  let l := l <| req_retry_count := rm |> in
  let last_throught := throughput l in
  let '(tp, cm) := count_pass l in
  (l <| req_count := cm |> <| throughput := tp |>, (u64 (tp - last_throught), retries)).

(** [Timer::end] *)
Definition elapsed (start now : Z) : Z := u64 (now - start).

Definition try_print_throughput (l : latency_evaluation_t) (now : Z) : latency_evaluation_t * bool :=
  if 3000000000 <? elapsed (try_print_time l) now then
    let '(l, _) := merge_count l in
    (l <| try_cnt := s32 (try_cnt l + 1) |> <| try_print_time := now |>, true)
  else (l, false).

Definition try_print_throughput_null (l : latency_evaluation_t) (now : Z) : latency_evaluation_t * bool :=
  if 2000000000 <? elapsed (try_print_time l) now then (l <| try_print_time := now |>, true)
  else (l, false).

Definition check_batch_size (l : latency_evaluation_t) (size_limit time_limit now : Z)
    : latency_evaluation_t * bool :=
  let interval := elapsed (try_print_time l) now in
  let tmp_tp := total_count l in
  if (size_limit <=? u64 (tmp_tp - throughput l)) || (u64 (time_limit * 1000000) <? interval) then
    (l <| throughput := tmp_tp |> <| try_print_time := now |>, true)
  else (l, false).

Definition check_throughput (l : latency_evaluation_t) : bool :=
  (throughput_ms l <? 1100) && (print_num_listen l mod 2 =? 0).

Definition lat_begin (l : latency_evaluation_t) (id now : Z) : option latency_evaluation_t :=
  _ ← timer l !! id; Some (l <| timer := <[id := now]> (timer l) |>).

(** [latency_value / time_u] is truncated to 32 bits by [min]. *)
Definition lat_end (l : latency_evaluation_t) (id now : Z) : option (latency_evaluation_t * Z) :=
  start ← timer l !! id;
  b ← latency_bucket l !! id;
  let v := elapsed start now in
  let k := Z.min (u32 (v / time_u)) (u32 (range - 1)) in
  Some (l <| latency_bucket := <[id := <[k := u64 (b.[k] + 1)]> b]> (latency_bucket l) |>, v).

(** * Properties *)

(** Reference: the sum of a counter over the threads. *)
Definition sum_counters (m : gmap Z (gmap Z Z)) (k n : Z) : Z :=
  sumZ (fun i => counter m i k) (seqZ 0 n).

Lemma total_count_sum l :
  0 <= l_thread_num l -> total_count l = u64 (sum_counters (req_count l) 0 (l_thread_num l)).
Proof.
  intros Hn. unfold total_count, sum_counters.
  apply (for_range_ind (fun k s => s = u64 (sumZ (fun i => counter (req_count l) i 0) (seqZ 0 k))
    /\ 0 <= k)); [done| |].
  - split; [reflexivity|lia].
  - intros i s Hi [-> _]. split; [|lia]. rewrite sumZ_seqZ_snoc, wrap_add_l by lia. done.
Qed.

(** One pass with marking: the sum, and cell 1 becomes cell 0. *)
Lemma pass_spec (g : Z -> Z -> Z) (m : gmap Z (gmap Z Z)) n :
  0 <= n -> (g 0 0 = 0) ->
  let r := for_range 0 n (fun i '(s, m) =>
    match m !! i with
    | None => (s, m)
    | Some a => (u64 (s + g a.[0] a.[1]), <[i := <[1 := a.[0]]> a]> m)
    end) (0, m) in
  r.1 = u64 (sumZ (fun i => g (counter m i 0) (counter m i 1)) (seqZ 0 n)) /\
  (forall i k, counter r.2 i k
     = if (0 <=? i) && (i <? n) && (k =? 1) then counter m i 0 else counter m i k) /\
  (forall i, is_Some (r.2 !! i) <-> is_Some (m !! i)).
Proof.
  intros Hn Hg. cbv zeta.
  apply (for_range_ind (fun k (r : Z * gmap Z (gmap Z Z)) => 0 <= k -> 
    r.1 = u64 (sumZ (fun i => g (counter m i 0) (counter m i 1)) (seqZ 0 k)) /\
    (forall i j, counter r.2 i j
       = if (0 <=? i) && (i <? k) && (j =? 1) then counter m i 0 else counter m i j) /\
    (forall i, is_Some (r.2 !! i) <-> is_Some (m !! i))) 0 n); [done| | |done].
  - intros _. split_and!; [done| |done]. intros i j.
    destruct (Z.leb_spec 0 i), (Z.ltb_spec i 0); (done || lia).
  - intros k [s m'] Hk IH _. destruct (IH ltac:(lia)) as (H1 & H2 & H3). cbn [fst snd] in *.
    assert (E : forall j, counter m' k j = counter m k j).
    { intros j. rewrite H2. destruct (Z.ltb_spec k k); [lia|]. by rewrite andb_false_r. }
    assert (Hout : forall i j, i <> k ->
      (if (0 <=? i) && (i <? k + 1) && (j =? 1) then counter m i 0 else counter m i j) = counter m' i j).
    { intros i j Hi. rewrite H2.
      destruct (Z.leb_spec 0 i), (Z.ltb_spec i k), (Z.ltb_spec i (k + 1)); (done || lia). }
    rewrite sumZ_seqZ_snoc by lia. destruct (m' !! k) as [a|] eqn:Ea; cbn [fst snd].
    + assert (Ca : forall j, a.[j] = counter m k j).
      { intros j. rewrite <-E. unfold counter. by rewrite Ea. }
      rewrite !Ca. split_and!.
      * rewrite H1, wrap_add_l by lia. done.
      * intros i j. destruct (decide (i = k)) as [->|Hi].
        -- unfold counter at 1. rewrite lookup_insert_eq, rd_insert.
           destruct (Z.leb_spec 0 k), (Z.ltb_spec k (k + 1)); try lia. cbn [andb].
           case_decide; destruct (Z.eqb_spec j 1); subst; try done.
        -- unfold counter at 1. rewrite lookup_insert_ne by done.
           fold (counter m' i j). by rewrite Hout.
      * intros i. destruct (decide (i = k)) as [->|Hi].
        -- rewrite lookup_insert_eq, <-H3, Ea. split; eauto.
        -- by rewrite lookup_insert_ne.
    + assert (Ck : forall j, counter m k j = 0).
      { intros j. rewrite <-E. unfold counter. by rewrite Ea. }
      rewrite !Ck, Hg, Z.add_0_r. split_and!; [done| |done].
      intros i j. destruct (decide (i = k)) as [->|Hi]; [|by rewrite Hout].
      rewrite E. by destruct (_ && _); rewrite !Ck.
Qed.

(** [merge_count] reports exactly the requests and the retries counted since
    the previous call (modulo 2^64), leaves the counters themselves alone, and
    a second call with no request in between reports (0, 0). *)
Theorem merge_count_reports_delta (l : latency_evaluation_t) :
  0 <= l_thread_num l ->
  let '(l', (requests, retries)) := merge_count l in
  requests = u64 (sum_counters (req_count l) 0 (l_thread_num l) - throughput l) /\
  retries = u64 (sum_counters (req_retry_count l) 0 (l_thread_num l)
                 - sum_counters (req_retry_count l) 1 (l_thread_num l)) /\
  throughput l' = total_count l /\ total_count l' = total_count l /\
  (merge_count l').2 = (0, 0).
Proof.
  intros Hn. unfold merge_count.
  assert (HR := pass_spec (fun a b => a - b) (req_retry_count l) (l_thread_num l) Hn eq_refl).
  assert (HC := pass_spec (fun a _ => a) (req_count l) (l_thread_num l) Hn eq_refl).
  cbv beta zeta in HR, HC. fold (retry_pass l) in HR. fold (count_pass l) in HC.
  destruct (retry_pass l) as [retries rm] eqn:ER.
  change (count_pass (l <| req_retry_count := rm |>)) with (count_pass l).
  destruct (count_pass l) as [tp cm] eqn:EC. cbn [fst snd] in HR, HC.
  destruct HR as (R1 & R2 & _), HC as (C1 & C2 & _).
  set (l' := (l <| req_retry_count := rm |>) <| req_count := cm |> <| throughput := tp |>).
  assert (S0 : forall m, sumZ (fun i => counter m i 0 - counter m i 1) (seqZ 0 (l_thread_num l))
    = sum_counters m 0 (l_thread_num l) - sum_counters m 1 (l_thread_num l)).
  { intros m. unfold sum_counters. generalize (seqZ 0 (l_thread_num l)). intros q.
    induction q as [|x q IH]; [done|]. rewrite !sumZ_cons. lia. }
  assert (Cz : forall i, counter cm i 0 = counter (req_count l) i 0).
  { intros i. rewrite C2. by rewrite andb_false_r. }
  assert (total_count l' = tp) as Ht.
  { rewrite total_count_sum by done. rewrite C1. f_equal. apply sumZ_ext. intros i _. apply Cz. }
  assert (K1 : (retry_pass l').1 = u64 (sumZ (fun i => counter rm i 0 - counter rm i 1)
    (seqZ 0 (l_thread_num l))))
    by exact (proj1 (pass_spec (fun a b => a - b) rm (l_thread_num l) Hn eq_refl)).
  assert (K2 : (count_pass l').1 = u64 (sumZ (fun i => counter cm i 0) (seqZ 0 (l_thread_num l))))
    by exact (proj1 (pass_spec (fun a _ => a) cm (l_thread_num l) Hn eq_refl)).
  split_and!.
  - rewrite C1. unfold wrap at 1 2. rewrite Zminus_mod_idemp_l. reflexivity.
  - by rewrite R1, S0.
  - change (throughput l') with tp. rewrite total_count_sum by done. exact C1.
  - rewrite Ht, total_count_sum by done. exact C1.
  - destruct (retry_pass l') as [r2 rm2]. cbn [fst] in K1.
    change (count_pass (l' <| req_retry_count := rm2 |>)) with (count_pass l').
    destruct (count_pass l') as [c2 cm2]. cbn [fst] in K2.
    change (throughput (l' <| req_retry_count := rm2 |>)) with tp. cbn [snd]. f_equal.
    + rewrite K2, C1, (sumZ_ext (fun i => counter cm i 0) (fun i => counter (req_count l) i 0))
        by (intros; apply Cz). by rewrite Z.sub_diag.
    + rewrite K1, sumZ_zero; [done|]. intros i Hi%elem_of_seqZ. rewrite !R2.
      destruct (Z.leb_spec 0 i), (Z.ltb_spec i (l_thread_num l)); try lia. cbn. lia.
Qed.

Lemma merge_count_reports_delta_witness :
  exists l, count (perf_init_thread (latency_new 24 0) 3 0) 3 = Some l /\
  (merge_count l).2.1 = 1.
Proof.
  eexists. split; [vm_compute; reflexivity|].
  match goal with |- (merge_count ?x).2.1 = 1 => pose proof (merge_count_reports_delta x) as H end.
  destruct (merge_count _) as [l' [r1 r2]]. cbn [fst snd].
  destruct H as (-> & _); [cbn; lia|]. vm_compute. reflexivity.
Defined.
