(* ===== verification/RpcCommon.v ===== *)
(** [nic-sched/rpc_common.h]: the wire structures and the address arithmetic of
    a connection.

    [rpc_id_t], [ReqHead] and [ReplyHead] are packed structures read through
    pointer casts: each has a record, its field offsets and its load and store
    in a byte memory.  [Connect] is the state of one client connection. *)

From S2P Require Import Prelude Memory Config.

(** ** Packed structures *)

Record rpc_id_t := {
  rpc_type : Z; my_nodeid : Z; server_nodeid : Z; thread_id : Z; rpc_id : Z }.

Definition sizeof_rpc_id_t : Z := 8.

(** Addresses of the fields written one by one through [volatile] pointers. *)
Definition rpc_type_addr (a : Z) : Z := a.
Definition my_nodeid_addr (a : Z) : Z := a + 1.
Definition thread_id_addr (a : Z) : Z := a + 3.
Definition rpc_id_addr (a : Z) : Z := a + 4.

Definition load_rpc_id (m : memory) (a : Z) : rpc_id_t := {|
  rpc_type := byte m (rpc_type_addr a); my_nodeid := byte m (my_nodeid_addr a);
  server_nodeid := byte m (a + 2); thread_id := byte m (thread_id_addr a);
  rpc_id := ld 4 m (rpc_id_addr a) |}.

Definition store_rpc_id (m : memory) (a : Z) (r : rpc_id_t) : memory :=
  st 4 (st 1 (st 1 (st 1 (st 1 m a (rpc_type r)) (a + 1) (my_nodeid r))
    (a + 2) (server_nodeid r)) (a + 3) (thread_id r)) (a + 4) (rpc_id r).

Definition rpc_id_ok (r : rpc_id_t) : Prop :=
  uint 8 (rpc_type r) /\ uint 8 (my_nodeid r) /\ uint 8 (server_nodeid r) /\
  uint 8 (thread_id r) /\ uint 32 (rpc_id r).

Record ReqHead := {
  rpcId : rpc_id_t; read_name : Z; req_num : Z; read_num : Z; write_num : Z; TXID : Z;
  fpga_padding : Z; size : Z; magic : Z; partition_hint : Z }.

Definition sizeof_ReqHead : Z := 28.
Definition sizeof_SIZETYPE : Z := 4.

Definition load_ReqHead (m : memory) (a : Z) : ReqHead := {|
  rpcId := load_rpc_id m a; read_name := ld 2 m (a + 8); req_num := byte m (a + 10);
  read_num := byte m (a + 11); write_num := byte m (a + 12); TXID := byte m (a + 13);
  fpga_padding := ld 2 m (a + 14); size := ld 4 m (a + 16); magic := ld 4 m (a + 20);
  partition_hint := ld 4 m (a + 24) |}.

Definition store_ReqHead (m : memory) (a : Z) (h : ReqHead) : memory :=
  let m := store_rpc_id m a (rpcId h) in
  let m := st 1 (st 2 m (a + 8) (read_name h)) (a + 10) (req_num h) in
  let m := st 1 (st 1 m (a + 11) (read_num h)) (a + 12) (write_num h) in
  let m := st 2 (st 1 m (a + 13) (TXID h)) (a + 14) (fpga_padding h) in
  st 4 (st 4 (st 4 m (a + 16) (size h)) (a + 20) (magic h)) (a + 24) (partition_hint h).

Definition head_ok (h : ReqHead) : Prop :=
  rpc_id_ok (rpcId h) /\ uint 16 (read_name h) /\ uint 8 (req_num h) /\ uint 8 (read_num h) /\
  uint 8 (write_num h) /\ uint 8 (TXID h) /\ uint 16 (fpga_padding h) /\ uint 32 (size h) /\
  uint 32 (magic h) /\ uint 32 (partition_hint h).

Record ReplyHead := { rh_rpcId : rpc_id_t; rh_TXID : Z; replySize : Z }.

Definition load_ReplyHead (m : memory) (a : Z) : ReplyHead := {|
  rh_rpcId := load_rpc_id m a; rh_TXID := byte m (a + 8); replySize := ld 4 m (a + 9) |}.

(** ** Small value types *)

Inductive CallerType := TEMPLATE_CALL | REPLY_COPY_CALL | CALLBACK_CALL | NO_REPLY.

Record IdMapAddr := { im_addr : Z; im_type : CallerType; im_ctx : Z }.

Definition NO_COPY_ADDR : Z := u64 (Z.lnot 0).
Definition is_empty (p : IdMapAddr) : bool := im_addr p =? 0.
Definition is_no_copy (p : IdMapAddr) : bool := im_addr p =? NO_COPY_ADDR.

(** [post_function] is a function pointer: [None] is [nullptr]. *)
Record replyPair := {
  rp_addr : Z; rp_size : Z; rp_locality : bool; rp_post : option Z; rp_ctx : Z }.

Definition replyPair_new (addr size : Z) : replyPair := {|
  rp_addr := u64 addr; rp_size := u32 size; rp_locality := false; rp_post := None; rp_ctx := 0 |}.

Definition replyPair_set (r : replyPair) (addr size : Z) : replyPair := {|
  rp_addr := u64 addr; rp_size := u32 size; rp_locality := rp_locality r;
  rp_post := rp_post r; rp_ctx := rp_ctx r |}.

Definition is_null (r : replyPair) : bool := rp_size r =? 0.
Definition Void : replyPair := replyPair_new 0 0.
Definition VoidWithPostFunc (func ctx : Z) : replyPair := {|
  rp_addr := rp_addr Void; rp_size := rp_size Void; rp_locality := rp_locality Void;
  rp_post := Some func; rp_ctx := ctx |}.

Record reqPair := { rq_addr : Z; rq_size : Z }.

Definition set_value (addr size : Z) : reqPair := {| rq_addr := u64 addr; rq_size := u32 size |}.
Definition set_interval (start end_ : Z) : reqPair :=
  {| rq_addr := u64 start; rq_size := u32 (end_ - start) |}.

Record ExchangeMeta := {
  em_qpNum : Z; em_lid : Z; em_NodeID : Z; em_gid : Z;
  em_rAddr : Z; em_rkey : Z; em_reply_rAddr : Z; em_reply_rkey : Z;
  em_data_rAddr : Z; em_data_rkey : Z }.

Inductive SERVERTYPE := CLIENT_SERVER | CLIENT_ONLY | SERVER_ONLY | SERVER_NIC | WORKER_ONLY.

#[export] Instance servertype_eq_dec : EqDecision SERVERTYPE.
Proof. solve_decision. Defined.

Record NodeInfo := {
  ni_node_id : Z; ni_server_num : Z; ni_client_only_num : Z;
  message_size : Z; message_size_rpc_reply : Z; double_write_data_size : Z;
  ni_write_message_size : Z; server_type : SERVERTYPE }.

Definition mk_id (remoteNodeID tid : Z) : Z := u64 remoteNodeID.
Definition get_id (wcid : Z) : Z := wcid.

(** ** Connect *)

Record sge := { sge_addr : Z; sge_length : Z; sge_lkey : Z }.

(** [next] is the index of the following request of the chain. *)
Record recv_wr_t := { rw_id : Z; rw_sge : Z; rw_num_sge : Z; rw_next : option Z }.

Record Connect := {
  localBase : Z; remoteAddr : Z; remoteRkey : Z;
  reply_addr : Z; local_reply_key : Z; remote_reply_addr : Z; remote_reply_key : Z;
  data_addr : Z; remote_data_addr : Z; remote_data_key : Z;
  qp : Z; remoteQPNum : Z; remoteNodeID : Z; remoteLid : Z; remoteGid : Z;
  recnum : Z; online : bool; curAddr : Z; sendnum : Z; signal_num : Z;
  tail : Z; poolSize : Z; c_thread_id : Z;
  recv_wr : list recv_wr_t; sgl : list sge }.

#[export] Instance eta_Connect : Eta Connect := fun c => {|
  localBase := localBase c; remoteAddr := remoteAddr c; remoteRkey := remoteRkey c;
  reply_addr := reply_addr c; local_reply_key := local_reply_key c;
  remote_reply_addr := remote_reply_addr c; remote_reply_key := remote_reply_key c;
  data_addr := data_addr c; remote_data_addr := remote_data_addr c;
  remote_data_key := remote_data_key c; qp := qp c; remoteQPNum := remoteQPNum c;
  remoteNodeID := remoteNodeID c; remoteLid := remoteLid c; remoteGid := remoteGid c;
  recnum := recnum c; online := online c; curAddr := curAddr c; sendnum := sendnum c;
  signal_num := signal_num c; tail := tail c; poolSize := poolSize c;
  c_thread_id := c_thread_id c; recv_wr := recv_wr c; sgl := sgl c |}.

(** The constructor sets [curAddr], [recnum], [sendnum] and [online]; the
    members it leaves indeterminate are arguments. *)
Definition Connect_new (junk : Connect) : Connect :=
  junk <| curAddr := 0 |> <| recnum := 0 |> <| sendnum := 0 |> <| online := false |>.

(** A connection with all the members zero. *)
Definition Connect_zero : Connect := {|
  localBase := 0; remoteAddr := 0; remoteRkey := 0; reply_addr := 0; local_reply_key := 0;
  remote_reply_addr := 0; remote_reply_key := 0; data_addr := 0; remote_data_addr := 0;
  remote_data_key := 0; qp := 0; remoteQPNum := 0; remoteNodeID := 0; remoteLid := 0;
  remoteGid := 0; recnum := 0; online := false; curAddr := 0; sendnum := 0; signal_num := 0;
  tail := 0; poolSize := 0; c_thread_id := 0; recv_wr := []; sgl := [] |}.

Section connect.
Context {C : Config}.

Definition fill_wr (lkey : Z) (c : Connect) : Connect :=
  let addr := u64 (localBase c + poolSize c) in
  let idx := seqZ 0 BatchPostRec in
  c <| sgl := (fun _ => {| sge_addr := addr; sge_length := 0; sge_lkey := lkey |}) <$> idx |>
    <| recv_wr := (fun i => {| rw_id := mk_id (remoteNodeID c) (c_thread_id c); rw_sge := i;
         rw_num_sge := 1; rw_next := if i =? BatchPostRec - 1 then None else Some (i + 1) |}) <$> idx |>.

(** The new state and [*addr]; [None] is the division by a zero [poolSize]. *)
Definition getsendslot (msize : Z) (c : Connect) : option (Connect * Z) :=
  let cur := if poolSize c <? u64 (curAddr c + msize) then 0 else curAddr c in
  if poolSize c =? 0 then None
  else Some (c <| curAddr := u64 (cur + msize) |>, u64 (cur mod poolSize c + localBase c)).

Definition get_rev_addr (c : Connect) (id : Z) : Z := u64 (data_addr c + id * DATA_LEN).
Definition get_send_addr (c : Connect) (id : Z) : Z := u64 (reply_addr c + id * REPLY_LEN).
Definition get_remote_reply_addr_by_id (c : Connect) (id : Z) : Z :=
  u64 (remote_reply_addr c + id * REPLY_LEN).
Definition get_remote_reply_addr_by_id_strife (c : Connect) (rid : Z) : Z :=
  u64 (remote_reply_addr c + REPLY_LEN * SLOT_NUM + u32 (rid * 8)).
Definition get_strife_send_addr (c : Connect) (rid : Z) : Z :=
  u64 (reply_addr c + REPLY_LEN * SLOT_NUM + u32 (rid * 8)).
Definition get_strife_reply_size : Z := 8 * IDMAPADDRSIZE.
Definition get_my_reply_addr (c : Connect) (id : Z) : Z := u64 (reply_addr c + id * REPLY_LEN).
Definition getRemoteAddr (c : Connect) (localAddr : Z) : Z :=
  u64 (localAddr - localBase c + remoteAddr c).
Definition get_read_remote_addr (c : Connect) (local_reply : Z) : Z :=
  u64 (local_reply - reply_addr c + remote_reply_addr c).
Definition get_send_data_addr (c : Connect) (id : Z) : Z := u64 (data_addr c + id * DATA_LEN).
Definition get_remote_data_addr (c : Connect) (local_data : Z) : Z :=
  u64 (local_data - data_addr c + remote_data_addr c).

(** Prepares the 68 bytes at [addr] that are sent to the card: the features, the
    complemented toggle half-word [metadata[33]] and the core hint
    [metadata[32]] of the request at [data]. *)
Definition serialize_slot (m : memory) (addr data feature_addr : Z) : memory :=
  let m1 := if feature_addr =? 0 then m else memcpy m addr feature_addr 64 in
  let m2 := st 2 m1 (addr + 66) (Z.lnot (ld 2 m1 (addr + 66))) in
  st 2 m2 (addr + 64) (partition_hint (load_ReqHead m2 data)).

(** Returns the memory, [*size] and the address. *)
Definition serialization (m : memory) (c : Connect) (id feature_addr : Z) : memory * Z * Z :=
  let addr := u64 (localBase c + id * SLOT_LEN) in
  let data := u64 (localBase c + 2 * poolSize c + id * DATA_LEN) in
  (serialize_slot m addr data feature_addr, 4 + 64, addr).

End connect.

(** * Properties *)

Lemma load_store_rpc_id m a r : rpc_id_ok r -> load_rpc_id (store_rpc_id m a r) a = r.
Proof.
  intros (H1 & H2 & H3 & H4 & H5). unfold load_rpc_id, store_rpc_id, rpc_type_addr, my_nodeid_addr,
    thread_id_addr, rpc_id_addr. mem_simpl. rewrite !wrap_small by done. by destruct r.
Qed.

Lemma byte_store_rpc_id m a r x :
  x < a \/ a + 8 <= x -> byte (store_rpc_id m a r) x = byte m x.
Proof. intros Hx. unfold store_rpc_id. by rewrite !byte_st by lia. Qed.

Lemma load_rpc_id_ext m m' a :
  (forall x, a <= x < a + 8 -> byte m x = byte m' x) -> load_rpc_id m a = load_rpc_id m' a.
Proof.
  intros H. unfold load_rpc_id, rpc_type_addr, my_nodeid_addr, thread_id_addr, rpc_id_addr.
  rewrite !H by lia. f_equal. apply ld_ext. intros x Hx. apply H. lia.
Qed.

(** a request head written field by field at the packed offsets is read back
    unchanged by the scheduler and the workers, and the write touches only its
    28 bytes. *)
Theorem ReqHead_roundtrip (m : memory) (a : Z) (h : ReqHead) :
  head_ok h ->
  load_ReqHead (store_ReqHead m a h) a = h /\
  forall x, x < a \/ a + sizeof_ReqHead <= x -> byte (store_ReqHead m a h) x = byte m x.
Proof.
  intros (H0 & H1 & H2 & H3 & H4 & H5 & H6 & H7 & H8 & H9). split.
  - unfold load_ReqHead, store_ReqHead.
    rewrite (load_rpc_id_ext _ (store_rpc_id m a (rpcId h))).
    2:{ intros x Hx. by rewrite !byte_st by lia. }
    rewrite load_store_rpc_id by done. mem_simpl.
    rewrite !wrap_small by done. by destruct h.
  - intros x Hx. unfold sizeof_ReqHead in Hx. unfold store_ReqHead.
    rewrite !byte_st by lia. apply byte_store_rpc_id. lia.
Qed.

Definition demo_head : ReqHead := {|
  rpcId := {| rpc_type := 1; my_nodeid := 2; server_nodeid := 0; thread_id := 5; rpc_id := 70000 |};
  read_name := 300; req_num := 4; read_num := 9; write_num := 0; TXID := 3; fpga_padding := 0;
  size := 2000; magic := 0xDEADBEEF; partition_hint := 7 |}.

Lemma ReqHead_roundtrip_witness :
  head_ok demo_head /\ load_ReqHead (store_ReqHead ∅ 4096 demo_head) 4096 = demo_head.
Proof.
  assert (head_ok demo_head) as H by (unfold head_ok, rpc_id_ok, uint; simpl; lia).
  split; [exact H|]. apply (ReqHead_roundtrip ∅ 4096 demo_head H).
Defined.

(** [getsendslot] keeps every message inside the connection's pool: the
    address it gives starts a block of [msize] bytes of the pool, either right
    after the previous block or at the base of the pool when the previous one
    leaves too little room, and the cursor stays in the pool. *)
Theorem getsendslot_in_pool (c : Connect) (msize : Z) :
  0 < msize <= poolSize c -> 0 <= curAddr c <= poolSize c ->
  0 <= localBase c -> localBase c + poolSize c < 2 ^ 63 ->
  exists c' a, getsendslot msize c = Some (c', a) /\
    localBase c <= a /\ a + msize <= localBase c + poolSize c /\
    a = localBase c + (if poolSize c <? curAddr c + msize then 0 else curAddr c) /\
    curAddr c' = a + msize - localBase c /\ 0 <= curAddr c' <= poolSize c' /\
    poolSize c' = poolSize c /\ localBase c' = localBase c.
Proof.
  intros Hm Hc Hb Hp. unfold getsendslot. rewrite (wrap_small 64 (curAddr c + msize)) by range.
  destruct (Z.eqb_spec (poolSize c) 0); [lia|]. do 2 eexists. split; [reflexivity|].
  destruct (Z.ltb_spec (poolSize c) (curAddr c + msize)); cbn;
    rewrite Z.mod_small by lia; rewrite !wrap_small by range; split_and!; lia.
Qed.

Lemma getsendslot_in_pool_witness :
  let c := Connect_zero <| poolSize := 100 |> <| localBase := 5000 |> <| curAddr := 90 |> in
  exists c' a, getsendslot 20 c = Some (c', a) /\ a = 5000 /\ curAddr c' = 20.
Proof.
  intros c. destruct (getsendslot_in_pool c 20) as (c' & a & H & _ & _ & Ha & Hc & _); cbn; try lia.
  exists c', a. split; [exact H|]. cbn in Ha. split; [exact Ha|]. rewrite Hc, Ha. reflexivity.
Defined.

Lemma serialize_slot_spec (m : memory) (addr data fa : Z) :
  (data + sizeof_ReqHead <= addr \/ addr + 68 <= data) ->
  let m' := serialize_slot m addr data fa in
  (forall k, 0 <= k < 64 -> byte m' (addr + k) = byte m ((if fa =? 0 then addr else fa) + k)) /\
  ld 2 m' (addr + 66) = 0xFFFF - ld 2 m (addr + 66) /\
  ld 2 m' (addr + 64) = u16 (partition_hint (load_ReqHead m data)) /\
  (forall x, x < addr \/ addr + 68 <= x -> byte m' x = byte m x).
Proof.
  intros Hd. cbv zeta. unfold serialize_slot, sizeof_ReqHead in *.
  set (m1 := if fa =? 0 then m else memcpy m addr fa 64).
  assert (B1 : forall x, byte m1 x = if (addr <=? x) && (x <? addr + 64)
      then byte m ((if fa =? 0 then addr else fa) + (x - addr)) else byte m x).
  { intros x. unfold m1. destruct (fa =? 0).
    - destruct (_ && _); [f_equal; lia|done].
    - by apply byte_copy. }
  assert (O1 : forall x, x < addr \/ addr + 64 <= x -> byte m1 x = byte m x).
  { intros x Hx. rewrite B1. destruct (Z.leb_spec addr x), (Z.ltb_spec x (addr + 64)); (done || lia). }
  split_and!.
  - intros k Hk. rewrite !byte_st by lia. rewrite B1.
    destruct (Z.leb_spec addr (addr + k)), (Z.ltb_spec (addr + k) (addr + 64)); try lia.
    cbn [andb]. f_equal. lia.
  - rewrite ld_st_ne, ld16_st16 by lia. rewrite (ld_ext 2 m1 m) by (intros; apply O1; lia).
    pose proof (ld_range 2 m (addr + 66)). unfold wrap, Z.lnot. symmetry.
    apply Z.mod_unique_pos with (-1); lia.
  - rewrite ld16_st16. f_equal. unfold load_ReqHead. cbn [partition_hint].
    rewrite ld_st_ne by lia. apply ld_ext. intros x Hx. apply O1. lia.
  - intros x Hx. rewrite !byte_st by lia. apply O1. lia.
Qed.

Section serialization.
Context {C : Config}.

(** [serialization] leaves in the slot the 64 feature bytes (or what was
    there when no features are given), the complement of the previous toggle
    half-word and the low 16 bits of the core hint of the request, and nothing
    else of the memory changes. *)
Theorem serialization_correct (m : memory) (c : Connect) (id fa : Z) :
  let addr := u64 (localBase c + id * SLOT_LEN) in
  let data := u64 (localBase c + 2 * poolSize c + id * DATA_LEN) in
  (data + sizeof_ReqHead <= addr \/ addr + 68 <= data) ->
  let '(m', sz, a) := serialization m c id fa in
  a = addr /\ sz = 68 /\
  (forall k, 0 <= k < 64 -> byte m' (addr + k) = byte m ((if fa =? 0 then addr else fa) + k)) /\
  ld 2 m' (addr + 66) = 0xFFFF - ld 2 m (addr + 66) /\
  ld 2 m' (addr + 64) = u16 (partition_hint (load_ReqHead m data)) /\
  (forall x, x < addr \/ addr + 68 <= x -> byte m' x = byte m x).
Proof.
  intros addr data Hd. destruct (serialize_slot_spec m addr data fa Hd) as (H1 & H2 & H3 & H4).
  split_and!; done.
Qed.
End serialization.

Lemma serialization_correct_witness :
  let c := Connect_zero <| localBase := 10000 |> <| poolSize := 8192 |> in
  let m := st 4 (<[500 := 77]> ∅) (10000 + 2 * 8192 + 18432 + 24) 5 in
  let '(m', _, a) := @serialization ycsb_alnico m c 1 500 in
  a = 12048 /\ byte m' (a + 0) = 77 /\ ld 2 m' (a + 66) = 0xFFFF /\ ld 2 m' (a + 64) = 5.
Proof.
  intros c m. pose proof (@serialization_correct ycsb_alnico m c 1 500) as H. cbv zeta in H.
  destruct (@serialization ycsb_alnico m c 1 500) as [[m' sz] a].
  destruct H as (-> & _ & H1 & H2 & H3 & _); [right; vm_compute; discriminate|].
  split; [vm_compute; reflexivity|]. split; [rewrite H1 by lia; vm_compute; reflexivity|].
  rewrite H2, H3. split; vm_compute; reflexivity.
Defined.
