(* ===== verification/Msg.v ===== *)
(** [msg_t] of [nic-sched/worker_buf.h]: a received request seen as a head, a
    table of block sizes and the blocks, and its typed accessors.

    The pointers of the object are addresses; the accessors read the memory. *)

From S2P Require Import Prelude Memory Config RpcCommon.

(** A stock key is [w * 100000 + s] with [1 <= s <= 100000]. *)
Definition stockKeyToWare (s_key : Z) : Z :=
  let sid := s_key mod 100000 in
  if sid =? 0 then u32 (u64 (s_key / 100000 - 1)) else u32 (s_key / 100000).

Record msg_t := {
  m_addr : Z; m_type : Z; m_req_head : Z; last_num : Z; reqP : gmap Z reqPair;
  main_read_count : Z; keys_array : Z; args_array : Z; rpc_id_ptr : Z;
  ycsb_key_array : Z; ycsb_col_array : Z; write_bits : Z }.

#[export] Instance eta_msg : Eta msg_t := fun m => {|
  m_addr := m_addr m; m_type := m_type m; m_req_head := m_req_head m; last_num := last_num m;
  reqP := reqP m; main_read_count := main_read_count m; keys_array := keys_array m;
  args_array := args_array m; rpc_id_ptr := rpc_id_ptr m; ycsb_key_array := ycsb_key_array m;
  ycsb_col_array := ycsb_col_array m; write_bits := write_bits m |}.

Definition no_block : reqPair := {| rq_addr := 0; rq_size := 0 |}.
Definition block (x : msg_t) (i : Z) : reqPair := default no_block (reqP x !! i).

Section msg.
Context {C : Config}.

(** The block loop: [reqP] and [addr_tmp]. *)
Definition read_blocks (m : memory) (txn_addr n : Z) (p : gmap Z reqPair) : gmap Z reqPair * Z :=
  for_range 0 n (fun i '(p, a) =>
    let sz := ld 4 m (u64 (txn_addr + sizeof_ReqHead + sizeof_SIZETYPE * i)) in
    (<[i := {| rq_addr := a; rq_size := sz |}]> p, u64 (a + sz)))
    (p, u64 (txn_addr + sizeof_ReqHead + sizeof_SIZETYPE * n)).

Definition deserialization (m : memory) (txn_addr : Z) (x : msg_t) : msg_t :=
  let h := load_ReqHead m txn_addr in
  let x := x <| m_addr := txn_addr |> <| m_req_head := txn_addr |> <| rpc_id_ptr := txn_addr |>
             <| m_type := read_name h |> in
  if NULLRPC then x
  else
    let x := x <| reqP := (read_blocks m txn_addr (req_num h) (reqP x)).1 |> in
    x <| write_bits := ld 8 m (rq_addr (block x 0)) |>
      <| ycsb_key_array := rq_addr (block x 1) |> <| ycsb_col_array := rq_addr (block x 2) |>
      <| main_read_count := s32 (ld 4 m (rq_addr (block x 0))) |>
      <| keys_array := rq_addr (block x 1) |> <| args_array := rq_addr (block x 2) |>.

Definition get_read_num (x : msg_t) : Z := s32 (u32 (YCSBSIZE - rq_size (block x 3) / 384)).
Definition get_rpc_id (x : msg_t) : Z := rpc_id_ptr x.

(** [keys_array[k]] and [args_array[k]] *)
Definition key_at (m : memory) (x : msg_t) (k : Z) : Z * Z :=
  (ld 8 m (keys_array x + 16 * k), ld 8 m (keys_array x + 16 * k + 8)).
Definition arg_at (m : memory) (x : msg_t) (k : Z) : Z := ld 4 m (args_array x + 4 * k).

Section accessors.
Variables (m : memory) (x : msg_t).

(** New order *)
Definition get_w_key : Z * Z := key_at m x 1.
Definition get_c_key : Z * Z := key_at m x 0.
Definition get_d_key : Z * Z := key_at m x 2.
Definition get_i_key (id : Z) : Z * Z := key_at m x (2 * id + 3).
Definition get_i_id (id : Z) : Z := (key_at m x (2 * id + 3)).2.
Definition get_s_key (id : Z) : Z * Z := key_at m x (2 * id + 4).
(** The warehouse number goes through an [int]. *)
Definition get_s_w (num id : Z) : Z := u64 (s32 (stockKeyToWare (key_at m x (2 * id + 4)).2)).
Definition get_s_id (id : Z) : Z := (key_at m x (2 * id + 4)).2.
Definition get_w_id : Z := arg_at m x 0.
Definition get_s_num : Z := arg_at m x 3.
Definition get_c_id : Z := arg_at m x 2.
Definition get_d_id : Z := arg_at m x 1.
Definition get_last_num : msg_t := x <| last_num := u32 get_s_num |>.

(** Payment *)
Definition get_w_key_pay : Z * Z := key_at m x 0.
Definition get_d_key_pay : Z * Z := key_at m x 1.
Definition get_c_w_key_pay : Z * Z := key_at m x 2.
Definition get_c_d_key_pay : Z * Z := key_at m x 3.
Definition get_c_key_pay : Z * Z := key_at m x 4.
Definition get_c_c_key_pay : Z * Z := key_at m x 5.
Definition get_w_id_pay : Z := arg_at m x 0.
Definition get_d_id_pay : Z := arg_at m x 1.
Definition get_c_w_id_pay : Z := arg_at m x 2.
Definition get_c_d_id_pay : Z := arg_at m x 3.
Definition get_is_home_pay : bool := negb (arg_at m x 4 =? 0).
Definition get_by_name_pay : bool := negb (arg_at m x 5 =? 0).
Definition get_c_id_pay : Z := arg_at m x 6.

(** Order status, stock level, delivery *)
Definition get_w_id_order : Z := arg_at m x 0.
Definition get_d_id_order : Z := arg_at m x 1.
Definition get_by_name_order : bool := negb (arg_at m x 2 =? 0).
Definition get_c_id_order : Z := arg_at m x 3.
Definition get_w_id_stock : Z := arg_at m x 0.
Definition get_d_id_stock : Z := arg_at m x 1.
Definition get_w_id_del : Z := arg_at m x 0.

(** YCSB *)
Definition get_ycsb_size : Z := YCSBSIZE.
Definition get_ycsb_key_origin (i : Z) : Z := ld 4 m (ycsb_key_array x + 4 * i).
Definition get_ycsb_col_origin (i : Z) : Z := ld 2 m (ycsb_col_array x + 2 * i).
Definition get_ycsb_key (i : Z) : Z :=
  u32 (get_ycsb_key_origin i + get_ycsb_col_origin i * (YCSB_TABLE_SIZE / YCSBCOL)) mod YCSB_TABLE_SIZE.
Definition get_ycsb_col (i : Z) : Z := 0.

(** [(write_bits & (1ull < i)) != 0]: a comparison, not a shift. *)
Definition get_ycsb_is_write (i : Z) : bool :=
  negb (Z.land (write_bits x) (Z.b2z (1 <? i)) =? 0).
End accessors.

End msg.

(** * Properties *)

(** Size of the [i]-th block of the request at [a]. *)
Definition block_size (m : memory) (a i : Z) : Z := ld 4 m (a + 28 + 4 * i).

(** Where the [i]-th block of a request with [n] blocks starts. *)
Definition block_start (m : memory) (a n i : Z) : Z :=
  a + 28 + 4 * n + sumZ (block_size m a) (seqZ 0 i).

Lemma block_sizes_nonneg m a i : 0 <= sumZ (block_size m a) (seqZ 0 i).
Proof.
  destruct (decide (0 <= i)); [|by rewrite seqZ_nil by lia].
  apply (sumZ_seqZ_bounds (block_size m a) i (2 ^ 32)); [done|].
  intros j _. pose proof (ld32_range m (a + 28 + 4 * j)). unfold block_size, uint in *. lia.
Qed.

Lemma block_start_S m a n i :
  0 <= i -> block_start m a n (i + 1) = block_start m a n i + block_size m a i.
Proof. intros. unfold block_start. rewrite sumZ_seqZ_snoc by done. lia. Qed.

Lemma read_blocks_spec m a n p :
  0 <= a -> 0 <= n -> block_start m a n n < 2 ^ 63 ->
  let r := read_blocks m a n p in
  (forall i, 0 <= i < n ->
     r.1 !! i = Some {| rq_addr := block_start m a n i; rq_size := block_size m a i |}).
Proof.
  intros Ha Hn Hend.
  assert (Hb : forall i, 0 <= i <= n -> a + 28 + 4 * n <= block_start m a n i < 2 ^ 63).
  { intros i Hi. split; [unfold block_start; pose proof (block_sizes_nonneg m a i); lia|].
    assert (forall k, 0 <= k -> block_start m a n i <= block_start m a n (i + k)) as Hm.
    { apply (natlike_ind (fun k => block_start m a n i <= block_start m a n (i + k))).
      - by rewrite Z.add_0_r.
      - intros k Hk IH. replace (i + Z.succ k) with (i + k + 1) by lia.
        rewrite block_start_S by lia. pose proof (ld32_range m (a + 28 + 4 * (i + k))).
        unfold block_size, uint in *. lia. }
    specialize (Hm (n - i) ltac:(lia)). replace (i + (n - i)) with n in Hm by lia. lia. }
  cbv zeta. unfold read_blocks, sizeof_ReqHead, sizeof_SIZETYPE.
  apply (for_range_ind (fun k (r : gmap Z reqPair * Z) => r.2 = block_start m a n k /\
    forall i, 0 <= i < k ->
      r.1 !! i = Some {| rq_addr := block_start m a n i; rq_size := block_size m a i |}) 0 n); [done| |].
  - split; [|lia]. cbn [snd]. specialize (Hb 0 ltac:(lia)).
    assert (block_start m a n 0 = a + 28 + 4 * n) as E 
      by (unfold block_start; rewrite seqZ_nil by lia; unfold sumZ; cbn [foldr]; lia).
    rewrite wrap_small by (unfold uint; lia). lia.
  - intros k [p' a'] Hk [H1 H2]. cbn [fst snd] in *. subst a'.
    assert (ld 4 m (u64 (a + 28 + 4 * k)) = block_size m a k) as ->.
    { rewrite wrap_small; [done|]. specialize (Hb 0 ltac:(lia)). unfold uint. lia. }
    split.
    + rewrite block_start_S by lia. apply wrap_small. pose proof (Hb (k + 1) ltac:(lia)) as Hb'.
      rewrite block_start_S in Hb' by lia. unfold uint. lia.
    + intros i Hi. destruct (decide (i = k)) as [->|]; [by rewrite lookup_insert_eq|].
      rewrite lookup_insert_ne by done. apply H2. lia.
Qed.

Lemma deserialization_reqP {C : Config} m a x :
  NULLRPC = false ->
  reqP (deserialization m a x) = (read_blocks m a (req_num (load_ReqHead m a)) (reqP x)).1.
Proof. intros HN. unfold deserialization. by rewrite HN. Qed.

Section claims.
Context {C : Config}.

(** deserialising a request gives each block the size found in the size
    table and the address right after the previous block, so the blocks are
    consecutive and disjoint, start after the table, and end at the end of the
    request; the key and argument arrays are the second and third blocks. *)
Theorem deserialization_blocks (m : memory) (a : Z) (x : msg_t) :
  NULLRPC = false -> 0 <= a ->
  let n := req_num (load_ReqHead m a) in
  let x' := deserialization m a x in
  3 <= n -> block_start m a n n < 2 ^ 63 ->
  (forall i, 0 <= i < n -> rq_addr (block x' i) = block_start m a n i /\
     rq_size (block x' i) = block_size m a i) /\
  (forall i j, 0 <= i < j -> j < n ->
     a + 28 + 4 * n <= rq_addr (block x' i) /\
     rq_addr (block x' i) + rq_size (block x' i) <= rq_addr (block x' j) /\
     rq_addr (block x' j) + rq_size (block x' j) <= block_start m a n n) /\
  keys_array x' = block_start m a n 1 /\ args_array x' = block_start m a n 2 /\
  write_bits x' = ld 8 m (block_start m a n 0).
Proof.
  intros HN Ha n x' Hn Hend.
  assert (Hx : x' = deserialization m a x) by done. unfold deserialization in Hx. rewrite HN in Hx.
  pose proof (read_blocks_spec m a n (reqP x) Ha ltac:(lia) Hend) as HB. cbv zeta in HB.
  assert (HP : reqP x' = (read_blocks m a n (reqP x)).1) by (rewrite Hx; reflexivity).
  assert (H1 : forall i, 0 <= i < n -> rq_addr (block x' i) = block_start m a n i /\
     rq_size (block x' i) = block_size m a i).
  { intros i Hi. unfold block. rewrite HP, HB by done. done. }
  assert (Hs : forall i, 0 <= block_size m a i).
  { intros i. pose proof (ld32_range m (a + 28 + 4 * i)). unfold block_size, uint in *. lia. }
  assert (Hm : forall i k, 0 <= i -> 0 <= k -> block_start m a n i <= block_start m a n (i + k)).
  { intros i k Hi. revert k. apply (natlike_ind (fun k => block_start m a n i <= block_start m a n (i + k))).
    - by rewrite Z.add_0_r.
    - intros k Hk IH. replace (i + Z.succ k) with (i + k + 1) by lia.
      rewrite block_start_S by lia. specialize (Hs (i + k)). lia. }
  split; [done|]. split.
  - intros i j Hij Hj. destruct (H1 i ltac:(lia)) as [-> ->], (H1 j ltac:(lia)) as [-> ->].
    rewrite <-!block_start_S by lia. split_and!.
    + unfold block_start. pose proof (block_sizes_nonneg m a i). lia.
    + replace j with (i + 1 + (j - (i + 1))) at 1 by lia. apply Hm; lia.
    + replace (block_start m a n n) with (block_start m a n (j + 1 + (n - (j + 1)))) by (f_equal; lia).
      apply Hm; lia.
  - destruct (H1 0 ltac:(lia)) as [E0 _], (H1 1 ltac:(lia)) as [E1 _], (H1 2 ltac:(lia)) as [E2 _].
    rewrite <-E0, <-E1, <-E2. rewrite Hx. split_and!; reflexivity.
Qed.

(** the write flag of a YCSB operation ignores the bit of its position:
    [1ull < i] is a comparison, so operations 0 and 1 are never writes and all
    the others follow bit 0 of the bitmap. *)
Theorem ycsb_is_write_ignores_position (x : msg_t) (i : Z) :
  get_ycsb_is_write x i = (1 <? i) && Z.testbit (write_bits x) 0.
Proof.
  unfold get_ycsb_is_write. destruct (1 <? i); cbn [Z.b2z andb].
  - change 1 with (Z.ones 1). rewrite Z.land_ones, Z.bit0_odd by lia. change (2 ^ 1) with 2.
    rewrite Zmod_odd. by destruct (Z.odd (write_bits x)).
  - by rewrite Z.land_0_r.
Qed.

(** the YCSB key of every operation is a row of the table, and a stock key
    built from warehouse [w] and item [s] (1 to 100000) is mapped back to [w]. *)
Theorem keys_in_table (m : memory) (x : msg_t) (i w s : Z) :
  0 <= w < 2 ^ 32 -> 1 <= s <= 100000 ->
  0 <= get_ycsb_key m x i < YCSB_TABLE_SIZE /\ stockKeyToWare (w * 100000 + s) = w.
Proof.
  intros Hw Hs. split; [apply Z.mod_pos_bound; reflexivity|]. unfold stockKeyToWare.
  destruct (decide (s = 100000)) as [->|].
  - replace (w * 100000 + 100000) with (0 + (w + 1) * 100000) by lia.
    rewrite Z_mod_plus_full, Z.div_add by lia. change (0 mod 100000 =? 0) with true. cbv iota.
    change (0 / 100000) with 0. rewrite (wrap_small 64), (wrap_small 32) by (unfold uint; lia). lia.
  - rewrite Z.add_comm, Z_mod_plus_full, (Z.mod_small s) by lia.
    destruct (Z.eqb_spec s 0); [lia|]. rewrite Z.div_add, Z.div_small by lia.
    apply wrap_small. unfold uint. lia.
Qed.
End claims.

Lemma keys_in_table_witness :
  stockKeyToWare 700000 = 6 /\ stockKeyToWare 700001 = 7.
Proof.
  split.
  - apply (keys_in_table (C := tpcc_alnico) ∅ {| m_addr := 0; m_type := 0; m_req_head := 0; last_num := 0;
      reqP := ∅; main_read_count := 0; keys_array := 0; args_array := 0; rpc_id_ptr := 0;
      ycsb_key_array := 0; ycsb_col_array := 0; write_bits := 0 |} 0 6 100000); lia.
  - reflexivity.
Defined.

Definition demo_msg : msg_t := {|
  m_addr := 0; m_type := 0; m_req_head := 0; last_num := 0; reqP := ∅; main_read_count := 0;
  keys_array := 0; args_array := 0; rpc_id_ptr := 0; ycsb_key_array := 0; ycsb_col_array := 0;
  write_bits := 0 |}.

(** A request of three blocks of 8, 32 and 12 bytes. *)
Definition demo_request : memory :=
  st 4 (st 4 (st 4 (store_ReqHead ∅ 4096 {| rpcId := rpcId demo_head; read_name := 1; req_num := 3;
    read_num := 0; write_num := 0; TXID := 0; fpga_padding := 0; size := 92; magic := 7;
    partition_hint := 0 |}) 4124 8) 4128 32) 4132 12.

Lemma deserialization_blocks_witness :
  let x := deserialization (C := tpcc_alnico) demo_request 4096 demo_msg in
  keys_array x = 4144 /\ args_array x = 4176.
Proof.
  intros x. destruct (deserialization_blocks (C := tpcc_alnico) demo_request 4096 demo_msg eq_refl)
    as (_ & _ & H1 & H2 & _); [lia|vm_compute; congruence|vm_compute; reflexivity|].
  split; [etrans; [exact H1|vm_compute; reflexivity]|etrans; [exact H2|vm_compute; reflexivity]].
Defined.
