(* ===== verification/RpcConnect.v ===== *)
(** [nic-sched/Rpc.h], [rpc_connect.cpp] and the memory set-up of
    [rpc_init.cpp]: the server's buffers, its connections and the exchange of
    connection metadata through memcached.

    libibverbs and libmemcached are not part of the repository: their calls,
    and the glue that hands them attribute structures (Resource.cpp,
    StateTrans.cpp), are parameters that act on an abstract world [W]. *)

From Stdlib Require Import Ascii.
From stdpp Require Import strings pretty.
From S2P Require Import Prelude Memory Config RpcCommon.

(** ** Data *)

Record ibv_mr := { mr_rkey : Z; mr_lkey : Z }.

Record rdma_memory_t := {
  mm_part1 : Z; part1_size : Z; mr_part1 : ibv_mr;
  mm_part2 : Z; part2_size : Z; mr_part2 : ibv_mr }.

Record RdmaContext := { ctx_lid : Z; ctx_gid : Z; signalNum : Z }.

Record Rpc := {
  my_node : NodeInfo; others_server : list NodeInfo; r_thread_id : Z;
  recv_mm : rdma_memory_t; send_mm : rdma_memory_t; double_recv_mm : rdma_memory_t;
  context : RdmaContext; context_dual : RdmaContext;
  nic_connect : gmap (Z * Z) Connect; localMeta : ExchangeMeta }.

#[export] Instance eta_Rpc : Eta Rpc := fun r => {|
  my_node := my_node r; others_server := others_server r; r_thread_id := r_thread_id r;
  recv_mm := recv_mm r; send_mm := send_mm r; double_recv_mm := double_recv_mm r;
  context := context r; context_dual := context_dual r; nic_connect := nic_connect r;
  localMeta := localMeta r |}.

#[export] Instance eta_meta : Eta ExchangeMeta := fun e => {|
  em_qpNum := em_qpNum e; em_lid := em_lid e; em_NodeID := em_NodeID e; em_gid := em_gid e;
  em_rAddr := em_rAddr e; em_rkey := em_rkey e; em_reply_rAddr := em_reply_rAddr e;
  em_reply_rkey := em_reply_rkey e; em_data_rAddr := em_data_rAddr e;
  em_data_rkey := em_data_rkey e |}.

(** ** Keys of the exchange *)

(** [std::to_string] of an unsigned integer. *)
Definition to_string (n : Z) : string := pretty (Z.to_N n).

Definition exchange_key (from to thread : Z) : string :=
  ("S" ++ to_string from ++ "S" ++ to_string to ++ "S" ++ to_string thread)%string.

Definition setKey (s : Rpc) (remote_id : Z) : string :=
  exchange_key (ni_node_id (my_node s)) remote_id (r_thread_id s).
Definition getKey (s : Rpc) (remote_id : Z) : string :=
  exchange_key remote_id (ni_node_id (my_node s)) (r_thread_id s).
Definition setKey_nic (s : Rpc) (remote_id client_thread : Z) : string :=
  exchange_key (ni_node_id (my_node s)) remote_id client_thread.
Definition getKey_nic (s : Rpc) (remote_id client_thread : Z) : string :=
  exchange_key remote_id (ni_node_id (my_node s)) client_thread.

Section connect.
Context {C : Config}.

(** The external libraries (the booleans select the dual port). *)
Context {W : Type}.
Variable createMemoryRegion : Z -> Z -> bool -> W -> ibv_mr * W.
Variable createQueuePair : bool -> W -> Z * W.
Variable modifyQP : Z -> ExchangeMeta -> bool -> W -> W.
Variable memcached_set : string -> ExchangeMeta -> W -> bool * W.
Variable memcached_get : string -> W -> option ExchangeMeta * W.
Variable ibv_post_recv : Z -> W -> bool * W.

(** The indeterminate members of a fresh [Connect]. *)
Variable junk : Connect.

(** [rdma_memory_t::init_dual]: the two halves are registered with the two
    ports (the boolean is the dual port). *)
Definition init_dual (addr sz : Z) (w : W) : rdma_memory_t * W :=
  let '(mr1, w) := createMemoryRegion addr (sz / 2) false w in
  let '(mr2, w) := createMemoryRegion (u64 (addr + sz / 2)) (sz / 2) true w in
  ({| mm_part1 := addr; part1_size := sz / 2; mr_part1 := mr1;
      mm_part2 := u64 (addr + sz / 2); part2_size := sz / 2; mr_part2 := mr2 |}, w).

(** The three buffers of [Rpc::Rpc]; the allocations are the arguments. *)
Definition fpga_rev_size : Z := u32 (SLOT_LEN * SLOT_NUM * MAX_CLIENT * CLIENT_THREAD).
Definition reply_mm_size (n : NodeInfo) : Z := u32 (message_size_rpc_reply n * (MAX_CLIENT * CLIENT_THREAD)).
Definition data_mm_size (n : NodeInfo) : Z := u32 (double_write_data_size n * (MAX_CLIENT * CLIENT_THREAD)).

Definition Rpc_buffers (fpga_mm send_addr doublerdma_addr : Z) (s : Rpc) (w : W) : Rpc * W :=
  let '(r, w) := init_dual fpga_mm fpga_rev_size w in
  let '(sd, w) := init_dual send_addr (reply_mm_size (my_node s)) w in
  let '(d, w) := init_dual doublerdma_addr (data_mm_size (my_node s)) w in
  (s <| recv_mm := r |> <| send_mm := sd |> <| double_recv_mm := d |>, w).

(** [while (true)] of [write_connect]: the first try and [cnt + 1] more. *)
Fixpoint memcached_set_retry (cnt : nat) (key : string) (meta : ExchangeMeta) (w : W) : W :=
  let '(ok, w) := memcached_set key meta w in
  match ok, cnt with
  | true, _ | false, O => w
  | false, S cnt => memcached_set_retry cnt key meta w
  end.

Definition write_connect (remote_id : Z) (dual : bool) (client_thread : Z) (peer : Connect)
    (s : Rpc) (w : W) : Connect * Rpc * W :=
  let peer := peer <| poolSize := message_size (my_node s) |>
                   <| tail := u32 (message_size (my_node s) - 1) |> in
  let ctx := if dual then context_dual s else context s in
  let meta := (localMeta s) <| em_NodeID := ni_node_id (my_node s) |> <| em_lid := ctx_lid ctx |>
                <| em_qpNum := qp peer |> <| em_gid := ctx_gid ctx |> in
  let s := s <| localMeta := meta |> in
  let key := if decide (server_type (my_node s) = SERVER_NIC)
             then setKey_nic s remote_id client_thread else setKey s remote_id in
  (peer, s, memcached_set_retry 10 key meta w).

(** [remote_global_id] and the test for the dual port. *)
Definition global_id (remote_id client_thread : Z) : Z :=
  u16 ((remote_id - KEY2NODE_MOD) * CLIENT_THREAD + client_thread).

Definition is_dual (remote_id client_thread : Z) : bool :=
  MAX_CLIENT * CLIENT_THREAD / 2 <=? (remote_id - KEY2NODE_MOD) * CLIENT_THREAD + client_thread.

Definition nictxn_new_connect (remote_id client_thread : Z) (s : Rpc) (w : W) : Rpc * W :=
  let g := global_id remote_id client_thread in
  let n := my_node s in
  let peer := (Connect_new junk)
    <| localBase := u64 (u32 (message_size n * g) + mm_part1 (recv_mm s)) |>
    <| reply_addr := u64 (u32 (message_size_rpc_reply n * g) + mm_part1 (send_mm s)) |>
    <| data_addr := u64 (u32 (double_write_data_size n * g) + mm_part1 (double_recv_mm s)) |> in
  let meta := (localMeta s) <| em_rAddr := localBase peer |> <| em_reply_rAddr := reply_addr peer |>
                <| em_data_rAddr := data_addr peer |> in
  let dual := is_dual remote_id client_thread in
  let mr x := if dual then mr_part2 x else mr_part1 x in
  let meta := meta <| em_rkey := mr_rkey (mr (recv_mm s)) |>
                   <| em_reply_rkey := mr_rkey (mr (send_mm s)) |>
                   <| em_data_rkey := mr_rkey (mr (double_recv_mm s)) |> in
  let peer := peer <| local_reply_key := mr_lkey (mr (send_mm s)) |> in
  let '(q, w) := createQueuePair dual w in
  let peer := peer <| qp := q |> in
  let '(peer, s, w) := write_connect remote_id dual client_thread peer (s <| localMeta := meta |>) w in
  (s <| nic_connect := <[(remote_id, client_thread) := peer]> (nic_connect s) |>, w).

(** [read_connect]: one look-up ([cnt = 1]); the new peer and the result. *)
Definition read_connect (remote_id : Z) (dual : bool) (client_thread : Z) (peer : Connect)
    (s : Rpc) (w : W) : Connect * bool * W :=
  let '(r, w) := memcached_get (getKey_nic s remote_id client_thread) w in
  match r with
  | None => (peer, false, w)
  | Some meta =>
      let peer := peer <| remoteGid := em_gid meta |> <| remoteAddr := em_rAddr meta |>
        <| remoteRkey := em_rkey meta |> <| remote_reply_addr := em_reply_rAddr meta |>
        <| remote_reply_key := em_reply_rkey meta |> <| remote_data_addr := em_data_rAddr meta |>
        <| remote_data_key := em_data_rkey meta |> <| remoteQPNum := em_qpNum meta |>
        <| remoteLid := em_lid meta |> <| remoteNodeID := em_NodeID meta |> in
      let w := modifyQP (qp peer) meta dual w in
      (peer <| online := true |> <| c_thread_id := r_thread_id s |>, true, w)
  end.

(** [None]: the connection does not exist (a null pointer). *)
Definition nictxn_fill_connect (remote_id client_thread : Z) (s : Rpc) (w : W)
    : option (Rpc * bool * W) :=
  match nic_connect s !! (remote_id, client_thread) with
  | None => None
  | Some peer =>
      let '(peer, ok, w) :=
        read_connect remote_id (is_dual remote_id client_thread) client_thread peer s w in
      Some (s <| nic_connect := <[(remote_id, client_thread) := peer]> (nic_connect s) |>, ok, w)
  end.

(** The filter of both loops of [server_connect]. *)
Definition skipped (s : Rpc) (n : NodeInfo) : bool :=
  (bool_decide (server_type (my_node s) = CLIENT_ONLY) && negb (bool_decide (server_type n = SERVER_NIC)))
  || (bool_decide (server_type (my_node s) = SERVER_NIC) && negb (bool_decide (server_type n = CLIENT_ONLY))).

(** The first loop: the connections are created and published. *)
Definition new_connects (s : Rpc) (w : W) : Rpc * W :=
  foldl (fun '(s, w) n =>
    if skipped s n then (s, w)
    else if decide (server_type (my_node s) = SERVER_NIC) then
      for_range 0 CLIENT_THREAD (fun t '(s, w) => nictxn_new_connect (ni_node_id n) t s w) (s, w)
    else nictxn_new_connect (ni_node_id n) 0 s w) (s, w) (others_server s).

(** The inner loop of one pass over the threads [ts] of node [id]. *)
Fixpoint fill_threads (id : Z) (ts : list Z) (s : Rpc) (flag : bool) (w : W)
    : option (Rpc * bool * W) :=
  match ts with
  | [] => Some (s, flag, w)
  | t :: ts =>
      match nic_connect s !! (id, t) with
      | None => None
      | Some c =>
          if online c then fill_threads id ts s flag w
          else match nictxn_fill_connect id t s w with
               | None => None
               | Some (s, _, w) => fill_threads id ts s false w
               end
      end
  end.

(** One pass of the [while (true)]: [flag] says that all were already online. *)
Fixpoint connect_pass (ns : list NodeInfo) (s : Rpc) (flag : bool) (w : W) : option (Rpc * bool * W) :=
  match ns with
  | [] => Some (s, flag, w)
  | n :: ns =>
      if (ni_node_id n =? ni_node_id (my_node s)) || skipped s n then connect_pass ns s flag w
      else match fill_threads (ni_node_id n) (seqZ 0 CLIENT_THREAD) s flag w with
           | None => None
           | Some (s, flag, w) => connect_pass ns s flag w
           end
  end.

(** At most [fuel] passes; [Some (_, false, _)] when that was not enough. *)
Fixpoint connect_loop (fuel : nat) (s : Rpc) (w : W) : option (Rpc * bool * W) :=
  match fuel with
  | O => Some (s, false, w)
  | S fuel =>
      match connect_pass (others_server s) s true w with
      | None => None
      | Some (s, true, w) => Some (s, true, w)
      | Some (s, false, w) => connect_loop fuel s w
      end
  end.

Definition server_connect (fuel : nat) (s : Rpc) (w : W) : option (Rpc * bool * W) :=
  if decide (server_type (my_node s) = WORKER_ONLY) then Some (s, true, w)
  else let '(s, w) := new_connects s w in connect_loop fuel s w.

Definition init_connect (fuel : nat) (s : Rpc) (w : W) : option (Rpc * bool * W) :=
  server_connect fuel s w.

(** [post_rec]: [Debug::notifyError] only prints. *)
Definition post_rec (c : Connect) (w : W) : Connect * W :=
  let '(c, w) :=
    if recnum c =? 0 then
      let '(_, w) := ibv_post_recv (qp c) w in
      let '(_, w) := ibv_post_recv (qp c) w in (c <| recnum := 2 * BatchPostRec |>, w)
    else (c, w) in
  if recnum c =? BatchPostRec then
    let '(_, w) := ibv_post_recv (qp c) w in (c <| recnum := 2 * BatchPostRec |>, w)
  else (c, w).

End connect.

(** * Properties *)

(** ** Keys *)

(** No digit is the separator. *)
Fixpoint no_S (s : string) : Prop :=
  match s with EmptyString => True | String c s => c <> "S"%char /\ no_S s end.

Lemma no_S_go x s : no_S s -> no_S (pretty_N_go x s).
Proof.
  revert s. induction (N.lt_wf_0 x) as [x _ IH]; intros s Hs.
  destruct (decide (x = 0)%N) as [->|]; [by rewrite pretty_N_go_0|].
  rewrite pretty_N_go_step by lia. apply IH; [apply N.div_lt; lia|].
  split; [|done]. unfold pretty_N_char. by repeat case_match.
Qed.

Lemma no_S_to_string n : no_S (to_string n).
Proof.
  unfold to_string, pretty, pretty_N. case_decide; [by split|]. by apply no_S_go.
Qed.

Lemma split_at_S a b x y :
  no_S a -> no_S b -> (a ++ String "S" x = b ++ String "S" y)%string -> a = b /\ x = y.
Proof.
  revert b. induction a as [|c a IH]; intros [|d b] Ha Hb E; simpl in *; simplify_eq; try tauto.
  destruct Ha, Hb. destruct (IH b) as [-> ->]; auto.
Qed.

Lemma to_string_inj a b : 0 <= a -> 0 <= b -> to_string a = to_string b -> a = b.
Proof. unfold to_string. intros Ha Hb E. apply pretty_N_inj in E. lia. Qed.

(** two connections never share a memcached key (the key determines both
    nodes and the thread), and what a node publishes for a peer is what the
    peer looks up. *)
Theorem exchange_keys_match (s r : Rpc) (a1 b1 t1 a2 b2 t2 thread : Z) :
  0 <= a1 /\ 0 <= b1 /\ 0 <= t1 -> 0 <= a2 /\ 0 <= b2 /\ 0 <= t2 ->
  (exchange_key a1 b1 t1 = exchange_key a2 b2 t2 -> a1 = a2 /\ b1 = b2 /\ t1 = t2) /\
  setKey_nic s (ni_node_id (my_node r)) thread = getKey_nic r (ni_node_id (my_node s)) thread.
Proof.
  intros (? & ? & ?) (? & ? & ?). split; [|reflexivity].
  unfold exchange_key. intros E. simpl in E. injection E as E.
  apply split_at_S in E as [E1 E]; [|apply no_S_to_string..].
  apply split_at_S in E as [E2 E3]; [|apply no_S_to_string..].
  split_and!; by apply to_string_inj.
Qed.

(** The server of the benchmarks (node 0) with two client nodes. *)
Definition demo_mr : ibv_mr := {| mr_rkey := 1; mr_lkey := 2 |}.
Definition demo_mm (base sz : Z) : rdma_memory_t := {|
  mm_part1 := base; part1_size := sz / 2; mr_part1 := demo_mr;
  mm_part2 := base + sz / 2; part2_size := sz / 2; mr_part2 := demo_mr |}.
Definition demo_ctx : RdmaContext := {| ctx_lid := 3; ctx_gid := 4; signalNum := 0 |}.
Definition demo_meta : ExchangeMeta := {|
  em_qpNum := 0; em_lid := 0; em_NodeID := 0; em_gid := 0; em_rAddr := 0; em_rkey := 0;
  em_reply_rAddr := 0; em_reply_rkey := 0; em_data_rAddr := 0; em_data_rkey := 0 |}.
Definition demo_node (C : Config) (id : Z) (ty : SERVERTYPE) : NodeInfo := {|
  ni_node_id := id; ni_server_num := 1; ni_client_only_num := 2;
  message_size := SLOT_LEN * SLOT_NUM; message_size_rpc_reply := REPLY_LEN * SLOT_NUM + 8 * 1024;
  double_write_data_size := DATA_LEN * SLOT_NUM; ni_write_message_size := 0; server_type := ty |}.
Definition demo_rpc (C : Config) : Rpc := {|
  my_node := demo_node C 0 SERVER_NIC;
  others_server := [demo_node C 1 CLIENT_ONLY; demo_node C 2 CLIENT_ONLY]; r_thread_id := 0;
  recv_mm := demo_mm 0x10000000 (SLOT_LEN * SLOT_NUM * (MAX_CLIENT * CLIENT_THREAD));
  send_mm := demo_mm 0x20000000 ((REPLY_LEN * SLOT_NUM + 8 * 1024) * (MAX_CLIENT * CLIENT_THREAD));
  double_recv_mm := demo_mm 0x30000000 (DATA_LEN * SLOT_NUM * (MAX_CLIENT * CLIENT_THREAD));
  context := demo_ctx; context_dual := demo_ctx; nic_connect := ∅; localMeta := demo_meta |}.

Lemma exchange_keys_match_witness :
  exchange_key 1 12 3 <> exchange_key 11 2 3 /\ exchange_key 0 1 23 = "S0S1S23"%string.
Proof.
  split; [|vm_compute; reflexivity]. intros E.
  destruct (exchange_keys_match (demo_rpc ycsb_alnico) (demo_rpc ycsb_alnico) 1 12 3 11 2 3 0)
    as [H _]; [lia|lia|]. destruct (H E) as [H1 _]. discriminate H1.
Defined.

(** ** Buffers *)

(** [server->nic_connect[client_id / CLIENT_THREAD + KEY2NODE_MOD][client_id % CLIENT_THREAD]] *)
Definition client_connect {C : Config} (s : Rpc) (client_id : Z) : option Connect :=
  nic_connect s !! (client_id / CLIENT_THREAD + KEY2NODE_MOD, client_id mod CLIENT_THREAD).

#[local] Set Default Proof Using "Type*".

Section buffers.
Context {C : Config} {CO : ConfigOk C}.

(** The buffer sizes that both benchmarks put into the node table. *)
Definition node_sizes (n : NodeInfo) : Prop :=
  message_size n = SLOT_LEN * SLOT_NUM /\
  message_size_rpc_reply n = REPLY_LEN * SLOT_NUM + 8 * 1024 /\
  double_write_data_size n = DATA_LEN * SLOT_NUM.

(** The three buffers lie in the lower half of the address space. *)
Definition bases_ok (s : Rpc) : Prop :=
  0 <= mm_part1 (recv_mm s) < 2 ^ 62 /\ 0 <= mm_part1 (send_mm s) < 2 ^ 62 /\
  0 <= mm_part1 (double_recv_mm s) < 2 ^ 62.

(** The connection of client [g] points at the [g]-th block of every buffer. *)
Definition connect_at (s : Rpc) (g : Z) (c : Connect) : Prop :=
  localBase c = mm_part1 (recv_mm s) + SLOT_LEN * SLOT_NUM * g /\
  reply_addr c = mm_part1 (send_mm s) + (REPLY_LEN * SLOT_NUM + 8 * 1024) * g /\
  data_addr c = mm_part1 (double_recv_mm s) + DATA_LEN * SLOT_NUM * g /\
  poolSize c = SLOT_LEN * SLOT_NUM /\ sendnum c = 0 /\ recnum c = 0.

(** All the clients of the build have their connection. *)
Definition server_ready (s : Rpc) : Prop :=
  bases_ok s /\
  forall g, 0 <= g < MAX_CLIENT * CLIENT_THREAD ->
  exists c, client_connect s g = Some c /\ connect_at s g c.

Lemma sizes_small :
  0 < SLOT_NUM <= 4 /\ 0 < CLIENT_THREAD <= 24 /\ 0 < DATA_LEN <= 18432 /\ 0 < REPLY_LEN <= 8192 /\
  8 < REPLY_LEN /\ SLOT_LEN = 2048 /\ KEY2NODE_MOD = 1 /\ MAX_CLIENT = 2 /\ 68 <= DATA_LEN.
Proof.
  destruct CO as [_ H1 H2 _ _]. unfold SLOT_NUM, DATA_LEN, REPLY_LEN, SLOT_LEN.
  destruct YCSBplusT; split_and!; (lia || reflexivity).
Qed.

Lemma wrap_block k g b :
  0 <= k <= 2 ^ 20 -> 0 <= g < 64 -> 0 <= b < 2 ^ 62 -> u64 (u32 (k * g) + b) = b + k * g.
Proof. intros. rewrite (wrap_small 32), wrap_small by (unfold uint; nia). lia. Qed.

Lemma client_index r t :
  1 <= r <= MAX_CLIENT -> 0 <= t < CLIENT_THREAD ->
  let g := (r - KEY2NODE_MOD) * CLIENT_THREAD + t in
  global_id r t = g /\ 0 <= g < MAX_CLIENT * CLIENT_THREAD /\
  g / CLIENT_THREAD + KEY2NODE_MOD = r /\ g mod CLIENT_THREAD = t.
Proof.
  intros Hr Ht g. pose proof sizes_small as (_ & H1 & _ & _ & _ & _ & E1 & E2 & _).
  rewrite E1, E2 in *. assert (0 <= g < 2 * CLIENT_THREAD) by (unfold g; nia).
  split_and!; try lia.
  - unfold global_id. rewrite E1. apply wrap_small. unfold uint. lia.
  - unfold g. rewrite Z.div_add_l, Z.div_small by lia. lia.
  - unfold g. rewrite Z.add_comm, Z_mod_plus_full. apply Z.mod_small. lia.
Qed.

Section world.
Context {W : Type}.
Context (createQueuePair : bool -> W -> Z * W)
        (memcached_set : string -> ExchangeMeta -> W -> bool * W) (junk : Connect).

Let new_connect := nictxn_new_connect createQueuePair memcached_set junk.

(** What creating a connection leaves alone. *)
Definition same_server (s s' : Rpc) : Prop :=
  my_node s' = my_node s /\ others_server s' = others_server s /\ recv_mm s' = recv_mm s /\
  send_mm s' = send_mm s /\ double_recv_mm s' = double_recv_mm s.

Lemma new_connect_spec r t s w :
  node_sizes (my_node s) -> bases_ok s ->
  1 <= r <= MAX_CLIENT -> 0 <= t < CLIENT_THREAD ->
  let s' := (new_connect r t s w).1 in
  same_server s s' /\
  (exists c, nic_connect s' !! (r, t) = Some c /\
     connect_at s ((r - KEY2NODE_MOD) * CLIENT_THREAD + t) c) /\
  (forall k, k <> (r, t) -> nic_connect s' !! k = nic_connect s !! k).
Proof.
  intros (N1 & N2 & N3) (B1 & B2 & B3) Hr Ht s'.
  destruct (client_index r t Hr Ht) as (G & Hg & _). rewrite <-G in *.
  pose proof sizes_small as (P1 & P2 & P3 & P4 & _ & P6 & _ & E2 & _).
  subst s'. unfold new_connect, nictxn_new_connect. cbv zeta.
  destruct (createQueuePair _ w) as [q w1]. unfold write_connect. cbn -[Connect_new global_id].
  split_and!; try done.
  - eexists. split; [apply lookup_insert_eq|]. unfold connect_at. cbn -[Connect_new global_id].
    rewrite N1, N2, N3, !wrap_block by nia. done.
  - intros k Hk. by apply lookup_insert_ne.
Qed.

Definition has_client (s : Rpc) (r t : Z) : Prop :=
  exists c, nic_connect s !! (r, t) = Some c /\ connect_at s ((r - KEY2NODE_MOD) * CLIENT_THREAD + t) c.

Lemma new_connect_keeps r t s w r' t' :
  node_sizes (my_node s) -> bases_ok s ->
  1 <= r <= MAX_CLIENT -> 0 <= t < CLIENT_THREAD ->
  (r', t') = (r, t) \/ has_client s r' t' -> has_client (new_connect r t s w).1 r' t'.
Proof.
  intros HN HB Hr Ht Hor.
  destruct (new_connect_spec r t s w HN HB Hr Ht) as ((F1 & F2 & F3 & F4 & F5) & (c & Hc1 & Hc2) & Hfr).
  assert (T : forall g c, connect_at s g c -> connect_at (new_connect r t s w).1 g c).
  { unfold connect_at. intros g c'. by rewrite F3, F4, F5. }
  destruct (decide ((r', t') = (r, t))) as [[= -> ->]|Hne].
  - exists c. auto.
  - destruct Hor as [?|(c' & H1 & H2)]; [done|]. exists c'. rewrite Hfr by done. auto.
Qed.

Lemma same_server_ok s s' :
  same_server s s' -> node_sizes (my_node s) -> bases_ok s -> node_sizes (my_node s') /\ bases_ok s'.
Proof. intros (E1 & _ & E3 & E4 & E5) HN HB. unfold bases_ok. by rewrite E1, E3, E4, E5. Qed.

(** The thread loop for one client node. *)
Lemma new_connect_node r s w :
  node_sizes (my_node s) -> bases_ok s -> 1 <= r <= MAX_CLIENT ->
  let s' := (for_range 0 CLIENT_THREAD (fun t '(s, w) => new_connect r t s w) (s, w)).1 in
  same_server s s' /\ (forall t, 0 <= t < CLIENT_THREAD -> has_client s' r t) /\
  (forall r' t, has_client s r' t -> has_client s' r' t).
Proof.
  intros HN HB Hr. pose proof sizes_small as (_ & HC & _).
  apply (for_range_ind (fun k (p : Rpc * W) => same_server s p.1 /\
    (forall t, 0 <= t < k -> has_client p.1 r t) /\
    (forall r' t, has_client s r' t -> has_client p.1 r' t)) 0 CLIENT_THREAD); [lia| |].
  - split_and!; try done. lia.
  - intros t [s1 w1] Ht (H1 & H2 & H3). cbn [fst] in *.
    destruct (same_server_ok _ _ H1 HN HB) as [HN1 HB1].
    destruct (new_connect_spec r t s1 w1 HN1 HB1 Hr ltac:(lia)) as (F & _ & _).
    split_and!.
    + unfold same_server in *. intuition congruence.
    + intros t' Ht'. apply new_connect_keeps; try (done || lia).
      destruct (decide (t' = t)) as [->|]; [by left|right; apply H2; lia].
    + intros r' t' Hrt. apply new_connect_keeps; try (done || lia). right. auto.
Qed.

(** The client nodes of the cluster. *)
Definition cluster_ok (s : Rpc) : Prop :=
  server_type (my_node s) = SERVER_NIC /\ node_sizes (my_node s) /\ bases_ok s /\
  (forall n, n ∈ others_server s -> server_type n = CLIENT_ONLY -> 1 <= ni_node_id n <= MAX_CLIENT) /\
  (forall r, 1 <= r <= MAX_CLIENT ->
     exists n, n ∈ others_server s /\ server_type n = CLIENT_ONLY /\ ni_node_id n = r).

Lemma skipped_nic s n :
  server_type (my_node s) = SERVER_NIC -> skipped s n = false <-> server_type n = CLIENT_ONLY.
Proof.
  intros H. unfold skipped. rewrite H. rewrite bool_decide_false by done.
  rewrite (bool_decide_true (SERVER_NIC = SERVER_NIC)) by done. cbn.
  destruct (server_type n); rewrite ?bool_decide_true, ?bool_decide_false by done; cbn; naive_solver.
Qed.

Lemma new_connects_list s w l :
  server_type (my_node s) = SERVER_NIC -> node_sizes (my_node s) -> bases_ok s ->
  (forall n, n ∈ l -> server_type n = CLIENT_ONLY -> 1 <= ni_node_id n <= MAX_CLIENT) ->
  let s' := (foldl (fun '(s, w) n =>
    if skipped s n then (s, w)
    else if decide (server_type (my_node s) = SERVER_NIC) then
      for_range 0 CLIENT_THREAD (fun t '(s, w) => new_connect (ni_node_id n) t s w) (s, w)
    else new_connect (ni_node_id n) 0 s w) (s, w) l).1 in
  same_server s s' /\
  (forall n t, n ∈ l -> server_type n = CLIENT_ONLY -> 0 <= t < CLIENT_THREAD ->
     has_client s' (ni_node_id n) t) /\
  (forall r t, has_client s r t -> has_client s' r t).
Proof.
  revert s w. induction l as [|n l IH]; intros s w HS HN HB Hl.
  { cbn. split_and!; try done. intros n t Hn. by apply elem_of_nil in Hn. }
  cbn [foldl]. assert (Hl' : forall n, n ∈ l -> server_type n = CLIENT_ONLY -> 1 <= ni_node_id n <= MAX_CLIENT)
    by (intros; apply Hl; [by right|done]).
  destruct (skipped s n) eqn:E.
  - destruct (IH s w HS HN HB Hl') as (H1 & H2 & H3). split_and!; try done.
    intros n' t [->|Hn']%elem_of_cons Hty; [|by apply H2].
    apply (skipped_nic s _ HS) in Hty. congruence.
  - rewrite decide_True by done. apply (skipped_nic s n HS) in E.
    destruct (new_connect_node (ni_node_id n) s w HN HB (Hl n ltac:(by left) E)) as (H1 & H2 & H3).
    destruct (for_range _ _ _ _) as [s1 w1]. cbn [fst] in *.
    destruct (same_server_ok _ _ H1 HN HB) as [HN1 HB1].
    destruct (IH s1 w1) as (K1 & K2 & K3); [by rewrite (proj1 H1)|done|done|done|].
    split_and!.
    + unfold same_server in *. intuition congruence.
    + intros n' t [->|Hn']%elem_of_cons Hty Ht; [by apply K3, H2|by apply K2].
    + intros r t Hrt. by apply K3, H3.
Qed.

Lemma new_connects_ready s w :
  cluster_ok s ->
  let s' := (new_connects createQueuePair memcached_set junk s w).1 in
  same_server s s' /\ server_ready s'.
Proof.
  intros (HS & HN & HB & H4 & H5) s'.
  destruct (new_connects_list s w (others_server s) HS HN HB H4) as (H1 & H2 & H3).
  fold new_connect in H1. change (same_server s s') in H1. split; [done|].
  destruct (same_server_ok _ _ H1 HN HB) as [_ HB']. split; [done|]. intros g Hg.
  pose proof sizes_small as (_ & HC & _ & _ & _ & _ & E1 & E2 & _).
  assert (1 <= g / CLIENT_THREAD + KEY2NODE_MOD <= MAX_CLIENT) as Hr.
  { rewrite E1, E2 in *. pose proof (Z.div_pos g CLIENT_THREAD).
    pose proof (Z.div_lt_upper_bound g CLIENT_THREAD 2). lia. }
  assert (0 <= g mod CLIENT_THREAD < CLIENT_THREAD) as Ht by (apply Z.mod_pos_bound; lia).
  destruct (H5 _ Hr) as (n & Hn & Hty & Hid).
  destruct (H2 n (g mod CLIENT_THREAD) Hn Hty Ht) as (c & Hc & Hat). rewrite Hid in Hc, Hat.
  exists c. split; [exact Hc|].
  replace ((g / CLIENT_THREAD + KEY2NODE_MOD - KEY2NODE_MOD) * CLIENT_THREAD + g mod CLIENT_THREAD)
    with g in Hat by (pose proof (Z.div_mod g CLIENT_THREAD); lia).
  exact Hat.
Qed.

End world.
End buffers.

(** ** Slots *)

Section slots.
Context {C : Config} {CO : ConfigOk C}.

(** Where the [i]-th slot of the cluster lives. *)
Definition slot_rev_addr (s : Rpc) (i : Z) : option Z :=
  c ← client_connect s (i / SLOT_NUM); Some (get_rev_addr c (i mod SLOT_NUM)).
Definition slot_send_addr (s : Rpc) (i : Z) : option Z :=
  c ← client_connect s (i / SLOT_NUM); Some (get_send_addr c (i mod SLOT_NUM)).
Definition slot_meta_addr (s : Rpc) (i : Z) : option Z :=
  c ← client_connect s (i / SLOT_NUM); Some (u64 (localBase c + (i mod SLOT_NUM) * SLOT_LEN)).

Lemma slot_index i :
  0 <= i < total_slots ->
  0 <= i / SLOT_NUM < MAX_CLIENT * CLIENT_THREAD /\ 0 <= i mod SLOT_NUM < SLOT_NUM /\
  i = SLOT_NUM * (i / SLOT_NUM) + i mod SLOT_NUM.
Proof.
  unfold total_slots. intros Hi. pose proof sizes_small as (H1 & H2 & _).
  pose proof (Z.mod_pos_bound i SLOT_NUM). pose proof (Z.div_pos i SLOT_NUM).
  pose proof (Z.div_lt_upper_bound i SLOT_NUM (MAX_CLIENT * CLIENT_THREAD)).
  pose proof (Z.div_mod i SLOT_NUM). nia.
Qed.

Lemma slot_addrs s i :
  server_ready s -> 0 <= i < total_slots ->
  slot_rev_addr s i = Some (mm_part1 (double_recv_mm s) + DATA_LEN * i) /\
  slot_meta_addr s i = Some (mm_part1 (recv_mm s) + SLOT_LEN * i) /\
  slot_send_addr s i = Some (mm_part1 (send_mm s)
    + (REPLY_LEN * SLOT_NUM + 8 * 1024) * (i / SLOT_NUM) + REPLY_LEN * (i mod SLOT_NUM)).
Proof.
  intros [(B1 & B2 & B3) HR] Hi. destruct (slot_index i Hi) as (H1 & H2 & H3).
  destruct (HR _ H1) as (c & Hc & D1 & D2 & D3 & _).
  pose proof sizes_small as (P1 & P2 & P3 & P4 & _ & P6 & _ & E2 & _).
  unfold slot_rev_addr, slot_meta_addr, slot_send_addr. rewrite Hc. cbn [mbind option_bind].
  unfold get_rev_addr, get_send_addr. rewrite D1, D2, D3.
  split_and!; f_equal; (rewrite wrap_small; [nia|unfold uint; nia]).
Qed.

(** once the connections are created, the receive, metadata and reply
    blocks of the slots of all the clients lie inside the registered buffers
    and no two slots overlap: the [i]-th receive block is the [i]-th [DATA_LEN]
    bytes of its buffer, the [i]-th metadata block the [i]-th [SLOT_LEN] bytes,
    and the reply blocks of a client are followed by its own completion words. *)
Theorem slots_disjoint {W : Type} (createQueuePair : bool -> W -> Z * W)
    (memcached_set : string -> ExchangeMeta -> W -> bool * W) (junk : Connect)
    (s : Rpc) (w : W) :
  cluster_ok s ->
  let s' := (new_connects createQueuePair memcached_set junk s w).1 in
  let rep := REPLY_LEN * SLOT_NUM + 8 * 1024 in
  (forall i, 0 <= i < total_slots -> exists a b c,
     slot_rev_addr s' i = Some a /\ a = mm_part1 (double_recv_mm s) + DATA_LEN * i /\
     a + DATA_LEN <= mm_part1 (double_recv_mm s) + data_mm_size (my_node s) /\
     slot_meta_addr s' i = Some b /\ b = mm_part1 (recv_mm s) + SLOT_LEN * i /\
     b + SLOT_LEN <= mm_part1 (recv_mm s) + fpga_rev_size /\
     slot_send_addr s' i = Some c /\
     mm_part1 (send_mm s) + rep * (i / SLOT_NUM) <= c /\
     c + REPLY_LEN <= mm_part1 (send_mm s) + rep * (i / SLOT_NUM) + REPLY_LEN * SLOT_NUM /\
     c + REPLY_LEN <= mm_part1 (send_mm s) + reply_mm_size (my_node s)) /\
  (forall i j c d, 0 <= i < j -> j < total_slots ->
     slot_send_addr s' i = Some c -> slot_send_addr s' j = Some d -> c + REPLY_LEN <= d).
Proof.
  intros HC s' rep. destruct (new_connects_ready createQueuePair memcached_set junk s w HC) as [F HR].
  fold s' in F, HR. destruct F as (F1 & F2 & F3 & F4 & F5).
  destruct HC as (_ & (N1 & N2 & N3) & _).
  pose proof sizes_small as (P1 & P2 & P3 & P4 & _ & P6 & _ & E2 & _). split.
  - intros i Hi. destruct (slot_addrs s' i HR Hi) as (H1 & H2 & H3).
    rewrite F3, F4, F5 in *. destruct (slot_index i Hi) as (K1 & K2 & K3).
    do 3 eexists. split; [exact H1|]. split; [done|].
    unfold data_mm_size, reply_mm_size, fpga_rev_size, rep. rewrite N2, N3.
    rewrite P6, E2 in *.
    assert (0 <= SLOT_NUM * CLIENT_THREAD <= 96) by nia.
    assert (0 <= DATA_LEN * (SLOT_NUM * CLIENT_THREAD) <= 18432 * 96) by nia.
    assert (0 <= REPLY_LEN * (SLOT_NUM * CLIENT_THREAD) <= 8192 * 96) by nia.
    rewrite !(wrap_small 32) by (unfold uint; lia).
    unfold total_slots in Hi. rewrite E2 in Hi.
    assert (DATA_LEN * (i + 1) <= DATA_LEN * (2 * SLOT_NUM * CLIENT_THREAD))
      by (apply Z.mul_le_mono_nonneg_l; lia).
    assert (0 <= REPLY_LEN * (i mod SLOT_NUM)) by (apply Z.mul_nonneg_nonneg; lia).
    assert (REPLY_LEN * (i mod SLOT_NUM + 1) <= REPLY_LEN * SLOT_NUM)
      by (apply Z.mul_le_mono_nonneg_l; lia).
    assert ((REPLY_LEN * SLOT_NUM + 8 * 1024) * (i / SLOT_NUM + 1)
      <= (REPLY_LEN * SLOT_NUM + 8 * 1024) * (2 * CLIENT_THREAD))
      by (apply Z.mul_le_mono_nonneg_l; [nia|lia]).
    split; [lia|]. split; [exact H2|]. split; [done|]. split; [lia|]. split; [exact H3|].
    split; [lia|]. split; lia.
  - intros i j c d Hij Hj Hc Hd. destruct (slot_addrs s' i HR ltac:(lia)) as (_ & _ & H1).
    destruct (slot_addrs s' j HR ltac:(lia)) as (_ & _ & H2).
    rewrite H1 in Hc. rewrite H2 in Hd. injection Hc as <-. injection Hd as <-.
    destruct (slot_index i ltac:(lia)) as (K1 & K2 & K3).
    destruct (slot_index j ltac:(lia)) as (L1 & L2 & L3).
    assert (i / SLOT_NUM <= j / SLOT_NUM) by (apply Z.div_le_mono; lia).
    destruct (decide (i / SLOT_NUM = j / SLOT_NUM)) as [E|].
    + rewrite E. assert (REPLY_LEN * (i mod SLOT_NUM + 1) <= REPLY_LEN * (j mod SLOT_NUM))
        by (apply Z.mul_le_mono_nonneg_l; lia). lia.
    + assert (REPLY_LEN * (i mod SLOT_NUM + 1) <= REPLY_LEN * SLOT_NUM)
        by (apply Z.mul_le_mono_nonneg_l; lia).
      assert (0 <= REPLY_LEN * (j mod SLOT_NUM)) by (apply Z.mul_nonneg_nonneg; lia).
      assert ((REPLY_LEN * SLOT_NUM + 8 * 1024) * (i / SLOT_NUM + 1)
        <= (REPLY_LEN * SLOT_NUM + 8 * 1024) * (j / SLOT_NUM))
        by (apply Z.mul_le_mono_nonneg_l; [nia|lia]). lia.
Qed.
End slots.

Lemma demo_cluster_ok_of (C : Config) : C = ycsb_alnico \/ C = tpcc_alnico -> cluster_ok (C := C) (demo_rpc C).
Proof.
  intros HC. split; [by destruct HC; subst C|]. split; [by destruct HC; subst C; vm_compute|].
  split; [destruct HC; subst C; unfold bases_ok; cbn; lia|]. split.
  - intros n Hn _. apply elem_of_cons in Hn as [->|[->|Hn%elem_of_nil]%elem_of_cons];
      [destruct HC; subst C; vm_compute; split; congruence..|done].
  - intros r Hr. assert (r = 1 \/ r = 2) as [->| ->] by (unfold MAX_CLIENT in Hr; lia).
    + exists (demo_node C 1 CLIENT_ONLY). split; [by left|done].
    + exists (demo_node C 2 CLIENT_ONLY). split; [by right; left|done].
Qed.

Lemma demo_cluster_ok : cluster_ok (C := ycsb_alnico) (demo_rpc ycsb_alnico).
Proof. apply demo_cluster_ok_of. by left. Qed.

Lemma slots_disjoint_witness :
  let s' := (new_connects (C := ycsb_alnico) (W := unit) (fun _ w => (9, w)) (fun _ _ w => (true, w))
    Connect_zero (demo_rpc ycsb_alnico) tt).1 in
  cluster_ok (C := ycsb_alnico) (demo_rpc ycsb_alnico) /\
  exists a, slot_rev_addr (C := ycsb_alnico) s' 100 = Some a /\ a = 0x30000000 + 18432 * 100.
Proof.
  intros s'. split; [exact demo_cluster_ok|].
  destruct (slots_disjoint (C := ycsb_alnico) (fun _ (w : unit) => (9, w)) (fun _ _ w => (true, w))
    Connect_zero (demo_rpc ycsb_alnico) tt demo_cluster_ok) as [H _].
  destruct (H 100) as (a & _ & _ & Ha & E & _); [vm_compute; split; congruence|].
  exists a. split; [exact Ha|exact E].
Defined.

(** ** The handshake loop *)

(** What the handshake relies on: [store] is the content of the memcached server.
    A look-up returns nothing but the value stored under its key (it may fail);
    the other nodes may store more while the server runs, and no entry
    disappears. *)
Class MemcachedLaws {W : Type} (modifyQP : Z -> ExchangeMeta -> bool -> W -> W)
    (memcached_get : string -> W -> option ExchangeMeta * W) (store : W -> gmap string ExchangeMeta) := {
  get_value : forall k w m, (memcached_get k w).1 = Some m -> store w !! k = Some m;
  get_keeps : forall k w, store w ⊆ store (memcached_get k w).2;
  modify_keeps : forall q m d w, store w ⊆ store (modifyQP q m d w) }.

(** What [read_connect] copies. *)
Definition joined (c : Connect) (meta : ExchangeMeta) : Prop :=
  remoteGid c = em_gid meta /\ remoteAddr c = em_rAddr meta /\ remoteRkey c = em_rkey meta /\
  remote_reply_addr c = em_reply_rAddr meta /\ remote_reply_key c = em_reply_rkey meta /\
  remote_data_addr c = em_data_rAddr meta /\ remote_data_key c = em_data_rkey meta /\
  remoteQPNum c = em_qpNum meta /\ remoteLid c = em_lid meta /\ remoteNodeID c = em_NodeID meta.

Section handshake.
Context {C : Config} {W : Type}.
Context (modifyQP : Z -> ExchangeMeta -> bool -> W -> W)
        (memcached_get : string -> W -> option ExchangeMeta * W)
        (store : W -> gmap string ExchangeMeta) {ML : MemcachedLaws modifyQP memcached_get store}.

(** The client processes: [clients (id, t)] is thread [t] of node [id].  Each
    publishes its [localMeta] under the key that [setKey] gives it (they are not
    NIC servers), and nobody else writes there. *)
Context (clients : Z * Z -> Rpc) (me : Z).
Hypothesis client_ids : forall k, ni_node_id (my_node (clients k)) = k.1 /\ r_thread_id (clients k) = k.2.
Hypothesis client_writes : forall k w m, store w !! setKey (clients k) me = Some m -> m = localMeta (clients k).

(** A look-up of a key that is stored succeeds. *)
Definition answers : Prop := forall k w, is_Some (store w !! k) -> is_Some (memcached_get k w).1.
(** Client [k] has published. *)
Definition published (w : W) (k : Z * Z) : Prop := store w !! setKey (clients k) me = Some (localMeta (clients k)).

Let fill := fill_threads modifyQP memcached_get.
Let pass := connect_pass modifyQP memcached_get.

(** The connection of client [k] is online with what that client published; it
    exists and is not online yet. *)
Definition connected (s : Rpc) (k : Z * Z) : Prop :=
  exists c, nic_connect s !! k = Some c /\ online c = true /\ joined c (localMeta (clients k)).
Definition offline (s : Rpc) (k : Z * Z) : Prop :=
  exists c, nic_connect s !! k = Some c /\ online c = false.

Definition progress (s s' : Rpc) (w w' : W) : Prop :=
  my_node s' = my_node s /\ others_server s' = others_server s /\ store w ⊆ store w' /\
  (forall k, connected s k -> connected s' k) /\
  (forall k, connected s k \/ offline s k -> connected s' k \/ offline s' k).

Lemma progress_refl s w : progress s s w w.
Proof. by split_and!. Qed.

Lemma progress_trans s1 s2 s3 w1 w2 w3 : progress s1 s2 w1 w2 -> progress s2 s3 w2 w3 -> progress s1 s3 w1 w3.
Proof.
  intros (A1 & A2 & A3 & A4 & A5) (B1 & B2 & B3 & B4 & B5).
  split_and!; try congruence; auto. by etrans.
Qed.

Lemma published_progress s s' w w' k : progress s s' w w' -> published w k -> published w' k.
Proof. intros (_ & _ & H & _) HP. by eapply lookup_weaken. Qed.

(** The server looks up the key under which the client publishes. *)
Lemma lookup_key s id t : ni_node_id (my_node s) = me -> getKey_nic s id t = setKey (clients (id, t)) me.
Proof using client_ids.
  intros E. destruct (client_ids (id, t)) as [E1 E2]. unfold getKey_nic, setKey. by rewrite E, E1, E2.
Qed.

Lemma fill_one s w id t :
  ni_node_id (my_node s) = me -> offline s (id, t) ->
  exists s' ok w', nictxn_fill_connect modifyQP memcached_get id t s w = Some (s', ok, w') /\
    progress s s' w w' /\ (answers -> published w (id, t) -> connected s' (id, t)).
Proof using ML client_ids client_writes.
  intros Hme (c & Hc & Hoff). unfold nictxn_fill_connect, read_connect. rewrite Hc, (lookup_key s id t Hme).
  pose proof (get_value (setKey (clients (id, t)) me) w) as Hv.
  pose proof (get_keeps (setKey (clients (id, t)) me) w) as Hk.
  assert (answers -> published w (id, t) -> is_Some (memcached_get (setKey (clients (id, t)) me) w).1) as Ha.
  { intros HA HP. apply HA. by rewrite HP. }
  destruct (memcached_get _ w) as [[m|] w1]; cbn in Hv, Hk, Ha; do 3 eexists; (split; [reflexivity|]).
  - pose proof (client_writes _ _ _ (Hv m eq_refl)) as ->.
    match goal with |- progress s ?x _ _ /\ _ => set (s' := x) end.
    assert (connected s' (id, t)) as HK by (eexists; split; [apply lookup_insert_eq|]; by split_and!).
    assert (forall k, k <> (id, t) -> nic_connect s' !! k = nic_connect s !! k) as Hne
      by (intros k Hk'; by apply lookup_insert_ne).
    split; [|done]. split_and!; try done; [by etrans; [|apply modify_keeps]| |];
      intros k Hk'; (destruct (decide (k = (id, t))) as [->|]; [tauto|]); unfold connected, offline; by rewrite Hne.
  - rewrite insert_id by done. replace (s <| nic_connect := nic_connect s |>) with s by by destruct s.
    split; [by split_and!|]. intros HA HP. by destruct (Ha HA HP).
Qed.

(** [flag] survives only when nothing had to be done. *)
Lemma fill_all s w id ts flag :
  ni_node_id (my_node s) = me -> (forall t, t ∈ ts -> connected s (id, t) \/ offline s (id, t)) ->
  exists s' flag' w', fill id ts s flag w = Some (s', flag', w') /\ progress s s' w w' /\
    (flag' = true -> flag = true /\ forall t, t ∈ ts -> connected s' (id, t)) /\
    (answers -> forall t, t ∈ ts -> published w (id, t) -> connected s' (id, t)).
Proof using ML client_ids client_writes.
  revert s w flag. induction ts as [|t ts IH]; intros s w flag Hme Hts.
  { exists s, flag, w. split_and!; [done|apply progress_refl| |]; [intros ->; split; [done|]|intros _];
      intros t Ht; by apply elem_of_nil in Ht. }
  unfold fill. cbn [fill_threads]. fold fill.
  destruct (Hts t ltac:(by left)) as [(c & Hc & Hon & Hrest)|(c & Hc & Hon)]; rewrite Hc, Hon.
  - destruct (IH s w flag Hme) as (s' & f' & w' & E & HP & HF & HC); [intros; apply Hts; by right|].
    assert (connected s' (id, t)) by (apply HP; by exists c).
    exists s', f', w'. split_and!; [done|done| |].
    + intros Hf. destruct (HF Hf) as [? HF']. split; [done|]. by intros t' [->|Ht']%elem_of_cons; [|apply HF'].
    + by intros HA t' [->|Ht']%elem_of_cons; [|apply HC].
  - destruct (fill_one s w id t Hme) as (s1 & ok & w1 & -> & HP1 & HC1); [by exists c|].
    destruct (IH s1 w1 false) as (s' & f' & w' & E & HP & HF & HC).
    { by rewrite (proj1 HP1). }
    { intros t' Ht'. apply HP1. apply Hts. by right. }
    exists s', f', w'. split; [done|]. split; [by eapply progress_trans|]. split; [intros Hf; by destruct (HF Hf)|].
    intros HA t' [->|Ht']%elem_of_cons Hpub; [apply HP; by apply HC1|].
    apply HC; [done|done|]. by eapply published_progress.
Qed.

(** All the threads of node [n] satisfy [P]. *)
Definition node_all (P : Z * Z -> Prop) (n : NodeInfo) : Prop :=
  forall t, 0 <= t < CLIENT_THREAD -> P (ni_node_id n, t).

(** Node [n] takes part in the handshake. *)
Definition peer_of (s : Rpc) (n : NodeInfo) : Prop :=
  (ni_node_id n =? ni_node_id (my_node s)) || skipped s n = false.

(** [P] holds of every connection of the handshake. *)
Definition peers_all (s : Rpc) (ns : list NodeInfo) (P : Z * Z -> Prop) : Prop :=
  forall n, n ∈ ns -> peer_of s n -> node_all P n.

Lemma peers_all_progress s s' w w' ns P : progress s s' w w' -> peers_all s ns P <-> peers_all s' ns P.
Proof. intros (E & _). unfold peers_all, peer_of, skipped. by rewrite E. Qed.

Lemma peers_all_impl s ns (P Q : Z * Z -> Prop) : (forall k, P k -> Q k) -> peers_all s ns P -> peers_all s ns Q.
Proof. intros H HP n Hn Hp t Ht. by apply H, (HP n). Qed.

Lemma peers_all_cons s n ns P : peers_all s (n :: ns) P <-> (peer_of s n -> node_all P n) /\ peers_all s ns P.
Proof.
  split; [intros H; split; [apply H; by left|intros n' Hn'; apply H; by right]|].
  by intros [H1 H2] n' [->|Hn']%elem_of_cons Hp; [apply H1|apply H2].
Qed.

Lemma pass_all ns s w flag :
  ni_node_id (my_node s) = me -> peers_all s ns (fun k => connected s k \/ offline s k) ->
  exists s' flag' w', pass ns s flag w = Some (s', flag', w') /\ progress s s' w w' /\
    (flag' = true -> flag = true /\ peers_all s ns (connected s')) /\
    (answers -> peers_all s ns (published w) -> peers_all s ns (connected s')).
Proof using ML client_ids client_writes.
  revert s w flag. induction ns as [|n ns IH]; intros s w flag Hme Hns.
  { exists s, flag, w. split_and!; [done|apply progress_refl| |]; [intros ->; split; [done|]|intros _ _];
      intros n Hn; by apply elem_of_nil in Hn. }
  apply peers_all_cons in Hns as [Hn Hns]. unfold pass. cbn [connect_pass]. fold pass.
  destruct ((ni_node_id n =? ni_node_id (my_node s)) || skipped s n) eqn:E.
  - destruct (IH s w flag Hme Hns) as (s' & f' & w' & -> & HP & HF & HC).
    exists s', f', w'. rewrite !peers_all_cons. unfold peer_of. rewrite E. split_and!; try done; naive_solver.
  - destruct (fill_all s w (ni_node_id n) (seqZ 0 CLIENT_THREAD) flag Hme) as (s1 & f1 & w1 & F & HP1 & HF1 & HC1).
    { intros t Ht%elem_of_seqZ. apply Hn; [done|lia]. }
    fold fill. rewrite F. destruct (IH s1 w1 f1) as (s' & f' & w' & E' & HP & HF & HC).
    { by rewrite (proj1 HP1). }
    { apply (peers_all_progress _ _ _ _ _ _ HP1). eapply peers_all_impl; [apply HP1|done]. }
    exists s', f', w'. rewrite !peers_all_cons. split; [done|]. split; [by eapply progress_trans|].
    rewrite (peers_all_progress _ _ _ _ ns (connected s') HP1).
    rewrite (peers_all_progress _ _ _ _ ns (published w) HP1). split.
    + intros Hf. destruct (HF Hf) as [Hf1 HF']. destruct (HF1 Hf1) as [Hf0 HF1']. split_and!; [done| |done].
      intros _ t Ht. apply HP, HF1', elem_of_seqZ. lia.
    + intros HA [Hp Hps]. split.
      * intros Hpeer t Ht. apply HP, HC1; [done|apply elem_of_seqZ; lia|by apply Hp].
      * apply HC; [done|]. eapply peers_all_impl; [|done]. intros k. by apply published_progress with s s1.
Qed.

Lemma loop_any fuel : forall s w,
  ni_node_id (my_node s) = me -> peers_all s (others_server s) (fun k => connected s k \/ offline s k) ->
  exists s' ok w', connect_loop modifyQP memcached_get fuel s w = Some (s', ok, w') /\ progress s s' w w' /\
    (ok = true -> peers_all s (others_server s) (connected s')).
Proof using ML client_ids client_writes.
  induction fuel as [|fuel IH]; intros s w Hme Hs.
  { exists s, false, w. split_and!; [done|apply progress_refl|done]. }
  destruct (pass_all (others_server s) s w true Hme Hs) as (s1 & f1 & w1 & E1 & HP & HF & _).
  unfold pass in E1. cbn [connect_loop]. rewrite E1. destruct f1; [exists s1, true, w1; naive_solver|].
  destruct (IH s1 w1) as (s' & ok & w' & E & HP' & HF').
  { by rewrite (proj1 HP). }
  { rewrite (proj1 (proj2 HP)). apply (peers_all_progress _ _ _ _ _ _ HP). eapply peers_all_impl; [apply HP|done]. }
  exists s', ok, w'. split; [done|]. split; [by eapply progress_trans|]. intros Hok.
  apply (peers_all_progress _ _ _ _ _ _ HP). rewrite <-(proj1 (proj2 HP)). by apply HF'.
Qed.

Lemma fill_done s w id ts flag :
  (forall t, t ∈ ts -> connected s (id, t)) -> fill id ts s flag w = Some (s, flag, w).
Proof.
  induction ts as [|t ts IH]; intros Hts; [done|]. unfold fill. cbn [fill_threads]. fold fill.
  destruct (Hts t ltac:(by left)) as (c & -> & -> & _). apply IH. intros t' Ht'. apply Hts. by right.
Qed.

Lemma pass_done ns s w flag :
  peers_all s ns (connected s) -> pass ns s flag w = Some (s, flag, w).
Proof.
  induction ns as [|n ns IH]; [done|]. intros [Hn Hns]%peers_all_cons. unfold pass. cbn [connect_pass]. fold pass.
  destruct ((ni_node_id n =? ni_node_id (my_node s)) || skipped s n) eqn:E; [by apply IH|].
  fold fill. rewrite fill_done; [by apply IH|]. intros t Ht%elem_of_seqZ. apply Hn; [done|lia].
Qed.

(** C36: the handshake loop of the server, started when no connection is online
    yet.  Whatever look-ups fail and however many passes it makes, it never
    dereferences a missing connection, a connection is either still offline or
    online with exactly what its client published (addresses, keys, queue pair),
    and it leaves the loop only when all of them are online.  If every client has
    published before the loop starts and the look-up of a stored key succeeds, two
    passes are enough. *)
Theorem handshake_completes (s : Rpc) (w : W) :
  ni_node_id (my_node s) = me -> peers_all s (others_server s) (offline s) ->
  (forall fuel, exists s' ok w', connect_loop modifyQP memcached_get fuel s w = Some (s', ok, w') /\
     peers_all s (others_server s) (fun k => connected s' k \/ offline s' k) /\
     (ok = true -> peers_all s (others_server s) (connected s'))) /\
  (answers -> peers_all s (others_server s) (published w) ->
   exists s' w', connect_loop modifyQP memcached_get 2 s w = Some (s', true, w') /\
     peers_all s (others_server s) (connected s')).
Proof using ML client_ids client_writes.
  intros Hme Hoff.
  assert (peers_all s (others_server s) (fun k => connected s k \/ offline s k)) as Hs
    by (eapply peers_all_impl; [|exact Hoff]; tauto).
  split.
  - intros fuel. destruct (loop_any fuel s w Hme Hs) as (s' & ok & w' & E & HP & HF).
    exists s', ok, w'. split_and!; [done| |done]. eapply peers_all_impl; [apply HP|done].
  - intros HA Hpub. destruct (pass_all (others_server s) s w true Hme Hs) as (s1 & f1 & w1 & E1 & HP & _ & HC).
    specialize (HC HA Hpub). unfold pass in E1. cbn [connect_loop]. rewrite E1. destruct f1; [by exists s1, w1|].
    rewrite (proj1 (proj2 HP)). assert (E2 := pass_done (others_server s) s1 w1 true). unfold pass in E2.
    rewrite E2; [by exists s1, w1|]. by apply (peers_all_progress _ _ _ _ _ _ HP).
Qed.
End handshake.

(** The 24 threads of client node 1 have published; the world is a constant store. *)
Definition demo_peer (k : Z * Z) : Rpc :=
  (demo_rpc ycsb_alnico) <| my_node := demo_node ycsb_alnico k.1 CLIENT_ONLY |> <| r_thread_id := k.2 |>
    <| localMeta := demo_meta <| em_rAddr := 100 * Z.max 0 k.1 |> <| em_qpNum := 77 + Z.max 0 k.2 |> |>.
Definition demo_store : gmap string ExchangeMeta :=
  list_to_map ((fun t => (setKey (demo_peer (1, t)) 0, localMeta (demo_peer (1, t)))) <$> seqZ 0 24).
Definition demo_get (k : string) (w : unit) : option ExchangeMeta * unit := (demo_store !! k, w).

Lemma demo_memcached : MemcachedLaws (fun _ _ _ w => w) demo_get (fun _ => demo_store).
Proof. split; [intros k w m E; exact E|done|done]. Qed.

Lemma demo_store_keys k m : demo_store !! k = Some m -> exists t, 0 <= t < 24 /\
  k = setKey (demo_peer (1, t)) 0 /\ m = localMeta (demo_peer (1, t)).
Proof.
  intros E%elem_of_list_to_map_2. apply list_elem_of_fmap in E as (t & [= -> ->] & Ht%elem_of_seqZ).
  exists t. split_and!; try lia; done.
Qed.

Lemma demo_peer_writes k m : demo_store !! setKey (demo_peer k) 0 = Some m -> m = localMeta (demo_peer k).
Proof.
  intros (t & Ht & E & ->)%demo_store_keys. destruct k as [a b].
  unfold setKey, exchange_key in E. simpl in E. injection E as E.
  apply split_at_S in E as [E1 E]; [|apply no_S_to_string..].
  apply split_at_S in E as [_ E2]; [|apply no_S_to_string..].
  unfold to_string in E1, E2. apply (inj (pretty (A := N))) in E1, E2.
  unfold demo_peer. cbn. do 2 f_equal; lia.
Qed.

Lemma handshake_completes_witness :
  let s := (demo_rpc ycsb_alnico) <| others_server := [demo_node ycsb_alnico 1 CLIENT_ONLY] |>
    <| nic_connect := list_to_map ((fun t => ((1, t), Connect_zero)) <$> seqZ 0 24) |> in
  exists s' w', connect_loop (C := ycsb_alnico) (W := unit) (fun _ _ _ w => w) demo_get 2 s tt = Some (s', true, w') /\
  exists c, nic_connect s' !! (1, 23) = Some c /\ online c = true /\ remoteAddr c = 100 /\ remoteQPNum c = 100.
Proof.
  intros s.
  destruct (handshake_completes (C := ycsb_alnico) (ML := demo_memcached) (fun _ _ _ (w : unit) => w) demo_get
    (fun _ => demo_store) demo_peer 0 (fun _ => conj eq_refl eq_refl) (fun k _ => demo_peer_writes k) s tt)
    as [_ H].
  - reflexivity.
  - intros n [->|Hn%elem_of_nil]%elem_of_cons _ t Ht; [|done].
    exists Connect_zero. split; [|reflexivity].
    apply elem_of_list_to_map_1.
    + rewrite <-list_fmap_compose. apply NoDup_fmap; [intros x y [= E]; exact E|apply NoDup_seqZ].
    + apply list_elem_of_fmap. exists t. split; [reflexivity|]. apply elem_of_seqZ. cbn in Ht. lia.
  - destruct H as (s' & w' & E & H).
    + intros k w E. exact E.
    + assert (forallb (fun t => bool_decide (is_Some (demo_store !! setKey (demo_peer (1, t)) 0))) (seqZ 0 24) = true)
        as K by (vm_compute; reflexivity).
      assert (forall n, n ∈ [demo_node ycsb_alnico 1 CLIENT_ONLY] -> ni_node_id n = 1) as Hid
        by (intros n ->%list_elem_of_singleton; reflexivity).
      intros n Hn _ t Ht. rewrite (Hid n Hn).
      pose proof (forallb_seqZ _ _ _ t K Ht) as [m Hm]%bool_decide_eq_true.
      unfold published. rewrite Hm. f_equal. by apply demo_peer_writes.
    + exists s', w'. split; [exact E|].
      destruct (H (demo_node ycsb_alnico 1 CLIENT_ONLY) ltac:(by left) eq_refl 23 ltac:(cbn; lia)) as (c & Hc & Hon & J).
      exists c. split; [exact Hc|]. split; [exact Hon|]. split; apply J.
Defined.
