(* ===== verification/Central.v ===== *)
(** [central_scheduler_t] of [nic-sched/worker_buf.cpp]: the scheduler that runs
    on CPU cores instead of (or in front of) the card.

    Scheduler threads poll the receive slots of the clients; a slot holds
    [ReqHead | data | tail_magic], and a request is complete when the magic
    number of its head is found after its data.  [host] gathers the state the
    threads share: memory, connections, queues, model, counters. *)

From S2P Require Import Prelude Memory Config Gray Ring Feature ModelUpdate Perf RpcCommon RpcConnect.

(** * State *)

Record central_scheduler_t := {
  atomic_add : bool;
  sched_thread_num : Z;
  run_count : gmap Z Z;
  head : gmap (Z * Z) Z;
  doorbell_queue : gmap Z Z;   (* core -> index of its dispatch queue; absent: null *)
  strife_queue : gmap Z Z;
  c_feature : gmap (Z * Z) Z;
  c_byte_feature : gmap (Z * Z) Z;
  merge_weights : gmap (Z * Z) Z;
  old_feature : gmap (Z * Z) Z;
  old_core_id : gmap Z Z;
  strife_buffer : Z }.

#[export] Instance eta_central : Eta central_scheduler_t := fun s => {|
  atomic_add := atomic_add s; sched_thread_num := sched_thread_num s; run_count := run_count s;
  head := head s; doorbell_queue := doorbell_queue s; strife_queue := strife_queue s;
  c_feature := c_feature s; c_byte_feature := c_byte_feature s; merge_weights := merge_weights s;
  old_feature := old_feature s; old_core_id := old_core_id s; strife_buffer := strife_buffer s |}.

(** [rand_calls] numbers the calls of [rand()]. *)
Record host := {
  mem : memory;
  server : Rpc;
  dispatch : gmap Z fpga_dispatch_queue_t;
  strife_dispatch : gmap Z strife_queue_t;
  model : model_update_t;
  performance : latency_evaluation_t;
  strife_batch : latency_evaluation_t;
  central : central_scheduler_t;
  rand_calls : Z }.

#[export] Instance eta_host : Eta host := fun h => {|
  mem := mem h; server := server h; dispatch := dispatch h; strife_dispatch := strife_dispatch h;
  model := model h; performance := performance h; strife_batch := strife_batch h; central := central h;
  rand_calls := rand_calls h |}.

(** The shared arrays as the scheduler names them. *)
Abbreviation weights := mu_weights (only parsing).
Abbreviation filter := guideline_group (only parsing).

Section central.
Context {C : Config}.

(** The [n]-th value of [rand()]. *)
Variable rand : Z -> Z.

(** * Initialisation *)

(** What [cpu_alnico_init] and [init] have in common; [-1] is stored in bytes
    and 16-bit words. *)
Definition reset_scheduler (thread_num : Z) (h : host) : host :=
  let s := central h in
  let s := s <| sched_thread_num := thread_num |> <| head := ∅ |> <| atomic_add := true |>
             <| run_count := ∅ |> <| c_byte_feature := ∅ |>
             <| old_core_id := for_range 0 total_slots (fun i m => <[i := 0xFFFF]> m) (old_core_id s) |>
             <| merge_weights := ∅ |> in
  h <| central := s |>
    <| model := (model h) <| guideline_group :=
         for_range 0 FEATURE_SIZE (fun i m => <[i := u8 (-1)]> m) (filter (model h)) |> |>.

Definition cpu_alnico_init (thread_num : Z) (h : host) : host := reset_scheduler thread_num h.

Definition init (thread_num : Z) (h : host) : host :=
  let s := central h in
  let s := s <| doorbell_queue :=
                  for_range 0 thread_num (fun i m => <[i := i]> m) (doorbell_queue s) |> in
  reset_scheduler thread_num (h <| central := s |>).

(** [buf] is what [malloc] returned. *)
Definition init_strife (thread_num buf : Z) (h : host) : host :=
  let s := central h in
  h <| central := s <| strife_queue :=
         for_range 0 thread_num (fun i m => <[i := i]> m) (strife_queue s) |>
       <| strife_buffer := buf |> <| sched_thread_num := thread_num |> <| head := ∅ |>
       <| atomic_add := true |> |>.

(** * Queues *)

(** [fetch_and_add(&head[core_id][0], 1)]: the old value. *)
Definition take_ticket (core_id : Z) (s : central_scheduler_t) : Z * central_scheduler_t :=
  let old := (head s).[(core_id, 0)] in
  (old, s <| head := <[(core_id, 0) := u64 (old + 1)]> (head s) |>).

(** [None]: a null queue. *)
Definition push_new_request (core_id slot_id : Z) (h : host) : option host :=
  let '(old, s) := take_ticket core_id (central h) in
  let offset := old mod MESS_NUM in
  d ← doorbell_queue s !! core_id;
  q ← dispatch h !! d;
  Some (h <| central := s |> <| dispatch := <[d := Dispatch.post q offset slot_id]> (dispatch h) |>).

Definition push_new_request_stife (core_id slot_addr : Z) (h : host) : option host :=
  let '(old, s) := take_ticket core_id (central h) in
  let offset := old mod strife_buf_num in
  d ← strife_queue s !! core_id;
  q ← strife_dispatch h !! d;
  Some (h <| central := s |>
          <| strife_dispatch := <[d := Strife.post q offset slot_addr]> (strife_dispatch h) |>).

(** * Similarity state *)

(** The body of the two inner loops of [replace_new_request] for feature
    [i * 8 + j]; the atomic and the plain branch have the same effect. *)
Definition add_feature (flt : gmap Z Z) (core_id i j : Z) (s : central_scheduler_t) : central_scheduler_t :=
  let f := i * 8 + j in
  let old := (c_feature s).[(core_id, f)] in
  let x := s32 old in
  let s := s <| c_feature := <[(core_id, f) := u64 (old + 1)]> (c_feature s) |> in
  if (0 <=? x) && ((flt.[f] =? MAX_CORE + 1) || (flt.[f] =? core_id)) then
    s <| c_byte_feature := <[(core_id, i) :=
           u8 (Z.lor (c_byte_feature s).[(core_id, i)] (Z.shiftl 1 j))]> (c_byte_feature s) |>
  else s.

Definition replace_new_request (flt : gmap Z Z) (core_id slot_id : Z) (s : central_scheduler_t)
    : central_scheduler_t :=
  let s := s <| old_core_id := <[slot_id := core_id]> (old_core_id s) |> in
  for_range 0 (FEATURE_SIZE / 8) (fun i s =>
    let now_f := (old_feature s).[(slot_id, i)] in
    for_range 0 8 (fun j s =>
      if negb (Z.land now_f (Z.shiftl 1 j) =? 0) then add_feature flt core_id i j s else s) s) s.

Definition remove_feature (flt : gmap Z Z) (old_c_id i j : Z) (s : central_scheduler_t) : central_scheduler_t :=
  let f := i * 8 + j in
  let s := s <| c_feature := <[(old_c_id, f) := u64 ((c_feature s).[(old_c_id, f)] - 1)]> (c_feature s) |> in
  if negb (flt.[f] =? MAX_CORE + 1) && negb (flt.[f] =? old_c_id) then
    s <| c_byte_feature := <[(old_c_id, i) :=
           Z.land (c_byte_feature s).[(old_c_id, i)] (Z.shiftl 1 8 - 1 - Z.shiftl 1 j)]> (c_byte_feature s) |>
  else s.

(** The 16-bit [old_core_id] converted to [int] is never [-1]. *)
Definition delate_loop (flt : gmap Z Z) (slot_id : Z) (s : central_scheduler_t) : central_scheduler_t :=
  let old_c_id := (old_core_id s).[slot_id] in
  if negb (old_c_id =? -1) then
    for_range 0 (FEATURE_SIZE / 8) (fun i s =>
      let now_f := (old_feature s).[(slot_id, i)] in
      for_range 0 8 (fun j s =>
        if negb (Z.land now_f (Z.shiftl 1 j) =? 0) then remove_feature flt old_c_id i j s else s) s) s
  else s.

(** [memcpy(old_feature[slot_id], feature_addr, FEATURE_SIZE / 8)] *)
Definition take_features (m : memory) (slot_id feature_addr : Z) (s : central_scheduler_t)
    : central_scheduler_t :=
  s <| old_feature := for_range 0 (FEATURE_SIZE / 8)
         (fun k a => <[(slot_id, k) := byte m (feature_addr + k)]> a) (old_feature s) |>.

(** * Addresses *)

Definition get_addr (h : host) (slot_id : Z) : option Z :=
  c ← client_connect (server h) (slot_id / SLOT_NUM);
  Some (get_rev_addr c (slot_id mod SLOT_NUM)).

(** [req_head[k]] *)
Definition head_word (m : memory) (a k : Z) : Z := ld 4 m (a + 4 * k).

Definition get_feature_addr (h : host) (slot_id : Z) : option Z :=
  addr ← get_addr h slot_id;
  Some (u64 (addr + head_word (mem h) addr 4 - FEATURE_SIZE / 8)).

Definition delate_old_request (slot_id : Z) (h : host) : option host :=
  let h := h <| central := delate_loop (filter (model h)) slot_id (central h) |> in
  a ← get_feature_addr h slot_id;
  Some (h <| central := take_features (mem h) slot_id a (central h) |>).

(** * Choosing a core *)

(** [tmp_ans] of candidate [t]: an [int] to which 32-bit weights are added. *)
Definition candidate_score (s : central_scheduler_t) (slot_id t : Z) : Z :=
  for_range 0 (FEATURE_SIZE / 8) (fun i a =>
    s32 (a + (merge_weights s).[(i, Z.land (old_feature s).[(slot_id, i)] (c_byte_feature s).[(t, i)])])) 0.

Definition get_core_id (slot_id default_id : Z) (s : central_scheduler_t) : Z :=
  let ans := for_range 0 MAX_THREAD (fun t '(best, second) =>
    let tmp_ans := candidate_score s slot_id t in
    if best <? tmp_ans then (tmp_ans, t) else (best, second)) (0, s32 default_id) in
  u16 ans.2.

(** * Weights *)

Definition update_weights_byte (w : gmap Z Z) (i : Z) (mw : gmap (Z * Z) Z) : gmap (Z * Z) Z :=
  snd (for_range 1 256 (fun j '(now, mw) =>
    let last := now in
    let now := u8 (gray_code j) in
    let delta_bit := Z.lxor now last in
    let delta_id := delta_id_of delta_bit in
    (now,
     if last <? now then <[(i, now) := u32 (mw.[(i, last)] + w.[i * 8 + delta_id])]> mw
     else <[(i, now) := u32 (mw.[(i, last)] - w.[i * 8 + delta_id])]> mw))
    (0, <[(i, 0) := 0]> mw)).

Definition update_weights (h : host) : host :=
  h <| central := (central h) <| merge_weights :=
         for_range 0 (FEATURE_SIZE / 8) (update_weights_byte (weights (model h)))
           (merge_weights (central h)) |> |>.

(** The test at the top of a round. *)
Definition refresh_weights (tid : Z) (h : host) : host :=
  let h := if ((run_count (central h)).[tid] mod 1000 =? 0) && (tid =? 0) then update_weights h else h in
  h <| central := (central h) <| run_count :=
         <[tid := u64 ((run_count (central h)).[tid] + 1)]> (run_count (central h)) |> |>.

(** * run_once *)

(** A request is complete when its magic number follows its data; the tail is
    then cleared.  [None]: nothing to do for this slot; otherwise the memory and
    the size read. *)
Definition take_request (addr : Z) (m : memory) : option (memory * Z) :=
  let size := head_word m addr 4 in
  if size =? 0 then None
  else
    let tail_magic := addr + 4 * (size / 4) in
    if negb (head_word m addr 5 =? ld 4 m tail_magic) then None
    else Some (st 4 m tail_magic 0, size).

Definition run_slot (i : Z) (h : host) : option host :=
  addr ← get_addr h i;
  match take_request addr (mem h) with
  | None => Some h
  | Some (m, _) =>
      h ← delate_old_request i (h <| mem := m |>);
      let c_id := get_core_id i (head_word (mem h) addr 6) (central h) in
      let h := h <| central := replace_new_request (filter (model h)) c_id i (central h) |> in
      push_new_request c_id i h
  end.

Definition run_once (begin_id end_id tid : Z) (h : host) : option host :=
  foldl (fun h i => h ← h; run_slot i h) (Some (refresh_weights tid h))
    (seqZ begin_id (end_id - begin_id)).

Definition test_reply (tid addr : Z) (h : host) : option host :=
  p ← count (performance h) tid;
  Some (h <| performance := p |> <| mem := st 8 (mem h) addr (ld 8 (mem h) addr + 11) |>).

(** * run_strife_once *)

Definition next_rand (h : host) : Z * host :=
  (rand (rand_calls h), h <| rand_calls := rand_calls h + 1 |>).

(** Where the request is queued from: its slot, or a copy of it. *)
Definition strife_addr (recv_addr size : Z) (h : host) : Z * host :=
  if CPUBASED =? 3 then
    let hd := load_ReqHead (mem h) recv_addr in
    let client_id := u32 (my_nodeid (rpcId hd) - KEY2NODE_MOD) in
    let addr := u64 (u32 (((client_id * CLIENT_THREAD + thread_id (rpcId hd)) * IDMAPADDRSIZE
                           + rpc_id (rpcId hd)) * DATA_LEN) + strife_buffer (central h)) in
    (addr, h <| mem := memcpy (mem h) addr recv_addr size |>)
  else (recv_addr, h).

(** The core hint, as the build options change it. *)
Definition strife_hint (c_id rid : Z) (h : host) : Z * host :=
  let c_id :=
    if negb STATIC_BEST && negb YCSBplusT then
      let c_id := if (CPUBASED =? 3) && (c_id <? 2) then rid mod 21 + 1 else c_id in
      if (CPUBASED =? 4) && (c_id <? 2)
      then ((if rid mod 10 <? 5 then 1 else 0) * 10 + c_id) mod (MAX_THREAD + 2) else c_id
    else c_id in
  if BASELINE =? 1 then
    let '(r, h) := next_rand h in
    ((if YCSBplusT then r mod MAX_THREAD else r mod (MAX_THREAD + 2)), h)
  else (c_id, h).

(** The similarity-based choice of the builds 1 and 2. *)
Definition strife_choose (i c_id : Z) (h : host) : option (Z * host) :=
  if (CPUBASED =? 1) || (CPUBASED =? 2) then
    let '(r, h) := next_rand h in
    h ← delate_old_request i h;
    let c_id := get_core_id i (r mod MAX_THREAD) (central h) in
    Some (c_id, h <| central := replace_new_request (filter (model h)) c_id i (central h) |>)
  else Some (c_id, h).

(** The connection named in the head of the request at [a]. *)
Definition head_connect (h : host) (a : Z) : option Connect :=
  let hd := load_ReqHead (mem h) a in
  nic_connect (server h) !!
    (u32 (my_nodeid (rpcId hd) - KEY2NODE_MOD) + KEY2NODE_MOD, thread_id (rpcId hd)).

(** The [NULLRPC] reply. *)
Definition null_reply (i recv_addr tid : Z) (h : host) : option host :=
  if NULLRPC then
    p ← count (performance h) tid;
    c ← head_connect h recv_addr;
    let reply := get_send_addr c (i mod SLOT_NUM) in
    let m := st 1 (mem h) (rpc_type_addr reply) 0 in
    let m := st 4 m (rpc_id_addr reply) (rpc_id (rpcId (load_ReqHead m recv_addr)) + NOTHING_DEBUG) in
    Some (h <| performance := p |> <| mem := m |>)
  else Some h.

(** The acknowledgement of build 3. *)
Definition strife_ack (i recv_addr : Z) (h : host) : option host :=
  if CPUBASED =? 3 then
    c ← head_connect h recv_addr;
    let reply := get_send_addr c (i mod SLOT_NUM) in
    let m := mem h in
    let m := if YCSBplusT then
               let m := st 1 m (rpc_type_addr reply) (read_num (load_ReqHead m recv_addr)) in
               st 1 m (my_nodeid_addr reply) (get_dynamic_phase (performance h))
             else m in
    let m := st 4 m (rpc_id_addr reply) (rpc_id (rpcId (load_ReqHead m recv_addr)) + NOTHING_DEBUG) in
    Some (h <| mem := m |>)
  else Some h.

(** One slot; the guard on [begin_id] is the code's. *)
Definition run_strife_slot (begin_id tid i : Z) (h : host) : option host :=
  if MAX_CLIENT * SLOT_NUM * CLIENT_THREAD <=? begin_id then Some h
  else
    recv_addr ← get_addr h i;
    match take_request recv_addr (mem h) with
    | None => Some h
    | Some (m, size) =>
        let h := h <| mem := m |> in
        let rid := rpc_id (rpcId (load_ReqHead m recv_addr)) in
        let '(addr, h) := strife_addr recv_addr size h in
        let '(c_id, h) := strife_hint (head_word (mem h) recv_addr 6) rid h in
        '(c_id, h) ← strife_choose i c_id h;
        h ← (if NULLRPC then Some h else push_new_request_stife (u16 c_id) addr h);
        h ← null_reply i recv_addr tid h;
        strife_ack i recv_addr h
    end.

Definition run_strife_once (begin_id end_id tid : Z) (h : host) : option host :=
  let h := if (CPUBASED =? 1) || (CPUBASED =? 2) then refresh_weights tid h else h in
  foldl (fun h i => h ← h; run_strife_slot begin_id tid i h) (Some h)
    (seqZ begin_id (end_id - begin_id)).

(** [run]: [n] rounds of its endless loop. *)
Fixpoint run (n : nat) (begin_id end_id tid : Z) (h : host) : option host :=
  match n with
  | O => Some h
  | S n => h ← run_strife_once begin_id end_id tid h; run n begin_id end_id tid h
  end.

End central.
