(* ===== verification/CentralProps.v ===== *)
(** Correctness of the CPU scheduler of [Central].

    - [update_weights] fills the whole 256-entry table of every byte with the
      reference weight;
    - [get_core_id] chooses the first worker with the greatest positive
      similarity;
    - the counters [c_feature] are the number of slots whose last request is on
      the worker and uses the feature, whatever requests are scheduled;
    - a complete request is queued once. *)

From S2P Require Import Prelude Memory Config Gray Ring Feature ModelUpdate Perf RpcCommon RpcConnect Central.

(** * update_weights *)

(** Weight of feature [8 * i + j]. *)
Definition cweight (w : gmap Z Z) (i j : Z) : Z := w.[i * 8 + j].

Definition row_ok (w : gmap Z Z) (i g : Z) (r : Z * gmap (Z * Z) Z) : Prop :=
  r.1 = gray_code (g - 1) /\
  forall g', 0 <= g' < g -> r.2.[(i, gray_code g')] = byte_weight (cweight w i) (gray_code g').

Lemma gray_code_256 g : 0 <= g < 256 -> 0 <= gray_code g < 256.
Proof.
  intros Hg. destruct (decide (g = 0)) as [->|]; [vm_compute; split; congruence|].
  destruct (gray_step g) as (_ & _ & H & _); [lia|exact H].
Qed.

Lemma gray_code_inj g g' : 0 <= g < 256 -> 0 <= g' < 256 -> gray_code g = gray_code g' -> g = g'.
Proof.
  intros Hg Hg' E.
  assert (forallb (fun a => forallb (fun b => negb (gray_code a =? gray_code b) || (a =? b))
    (seqZ 0 256)) (seqZ 0 256) = true) as H by (vm_compute; reflexivity).
  apply (forallb_seqZ _ _ _ g) in H; [|lia]. apply (forallb_seqZ _ _ _ g') in H; [|lia].
  rewrite E, Z.eqb_refl in H. cbn in H. lia.
Qed.

Lemma update_byte_spec w i mw :
  (forall k, uint 8 w.[k]) ->
  let mw' := update_weights_byte w i mw in
  (forall b, 0 <= b < 256 -> mw'.[(i, b)] = byte_weight (cweight w i) b) /\
  (forall i' b, i' <> i -> mw'.[(i', b)] = mw.[(i', b)]).
Proof.
  intros Hw. cbv zeta. unfold update_weights_byte.
  assert (Hbw : forall b, 0 <= byte_weight (cweight w i) b <= 255 * 8).
  { intros b. apply byte_weight_bounds; [lia|]. intros j _. specialize (Hw (i * 8 + j)).
    unfold cweight, uint in *. lia. }
  match goal with |- context [for_range 1 256 ?f ?x] => set (r := for_range 1 256 f x) end.
  assert (row_ok w i 256 r /\ forall i' b, i' <> i -> r.2.[(i', b)] = mw.[(i', b)]) as [[_ H1] H2].
  { subst r. apply (for_range_ind (fun g r => row_ok w i g r /\
      forall i' b, i' <> i -> r.2.[(i', b)] = mw.[(i', b)])); [lia| |].
    - split; [split|]; cbn [fst snd].
      + reflexivity.
      + intros g' Hg'. replace g' with 0 by lia. change (gray_code 0) with 0.
        by rewrite rd_insert_eq, byte_weight_0.
      + intros i' b Hne. by rewrite rd_insert_ne by congruence.
    - intros g [now m] Hg [[Hn Hm] Hout]. cbn [fst snd] in *. subst now.
      rewrite (wrap_small 8) by (unfold uint; pose proof (gray_code_256 g); lia).
      pose proof (byte_weight_step (cweight w i) g ltac:(lia)) as Hs. cbv zeta in Hs.
      rewrite (Hm (g - 1)) by lia. unfold cweight in Hs at 3 5.
      set (k := delta_id_of (Z.lxor (gray_code g) (gray_code (g - 1)))) in *.
      assert (u32 (byte_weight (cweight w i) (gray_code g)) = byte_weight (cweight w i) (gray_code g)) as Hu.
      { apply wrap_small. specialize (Hbw (gray_code g)). unfold uint. lia. }
      assert (forall v, u32 v = byte_weight (cweight w i) (gray_code g) ->
        row_ok w i (g + 1) (gray_code g, <[(i, gray_code g) := u32 v]> m) /\
        forall i' b, i' <> i -> (<[(i, gray_code g) := u32 v]> m).[(i', b)] = mw.[(i', b)]) as Hv.
      { intros v ->. split; [split|]; cbn [fst snd].
        - f_equal. lia.
        - intros g' Hg'. destruct (decide (g' = g)) as [->|]; [by rewrite rd_insert_eq|].
          rewrite rd_insert_ne; [apply Hm; lia|]. intros [= E]. apply gray_code_inj in E; lia.
        - intros i' b Hne. rewrite rd_insert_ne by congruence. by apply Hout. }
      destruct (gray_code (g - 1) <? gray_code g); cbn [fst snd]; apply Hv; by rewrite <-Hs, Hu. }
  split; [|exact H2]. intros b Hb.
  destruct (gray_surj 256 b gray_onto_256 Hb) as (g & Hg & <-). by apply H1.
Qed.

Lemma update_table_spec w mw i b :
  (forall k, uint 8 w.[k]) -> 0 <= i < 64 -> 0 <= b < 256 ->
  (for_range 0 64 (update_weights_byte w) mw).[(i, b)] = byte_weight (cweight w i) b.
Proof.
  intros Hw Hi Hb.
  apply (for_range_ind (fun k (m : gmap (Z * Z) Z) => i < k ->
    m.[(i, b)] = byte_weight (cweight w i) b)); [lia|lia| |lia].
  intros k m Hk IH Hlt. destruct (update_byte_spec w k m Hw) as [H1 H2].
  destruct (decide (i = k)) as [->|]; [by apply H1|]. rewrite H2 by done. apply IH. lia.
Qed.

(** [update_weights] gives every byte value of every byte position (all 256
    of them, unlike the card's table) exactly the sum of the weights of the
    features set in it. *)
Theorem update_weights_correct (h : host) (i b : Z) :
  (forall k, uint 8 (mu_weights (model h)).[k]) ->
  0 <= i < 64 -> 0 <= b < 256 ->
  (merge_weights (central (update_weights h))).[(i, b)]
  = byte_weight (cweight (mu_weights (model h)) i) b.
Proof.
  intros Hw Hi Hb. unfold update_weights; cbn [set_field central merge_weights].
  change (FEATURE_SIZE / 8) with 64. exact (update_table_spec _ _ i b Hw Hi Hb).
Qed.

(** * get_core_id *)

(** The total weight of the features that slot [slot_id]'s request shares with
    worker [t]. *)
Definition shared_weight (w : gmap Z Z) (s : central_scheduler_t) (slot_id t : Z) : Z :=
  sumZ (fun i => byte_weight (cweight w i)
    (Z.land (old_feature s).[(slot_id, i)] (c_byte_feature s).[(t, i)])) (seqZ 0 64).

(** The table was built from the weights [w]. *)
Definition table_of (w : gmap Z Z) (s : central_scheduler_t) : Prop :=
  (forall k, uint 8 w.[k]) /\
  forall i b, 0 <= i < 64 -> 0 <= b < 256 -> (merge_weights s).[(i, b)] = byte_weight (cweight w i) b.

(** The feature bytes are bytes. *)
Definition feature_bytes (s : central_scheduler_t) : Prop :=
  (forall k, uint 8 (old_feature s).[k]) /\ (forall k, uint 8 (c_byte_feature s).[k]).

Lemma land_byte a b : uint 8 a -> uint 8 b -> 0 <= Z.land a b < 256.
Proof.
  intros Ha Hb. assert (Z.land a b = wrap 8 (Z.land a b)) as ->; [|by apply (wrap_range 8)].
  apply Z.bits_inj'. intros i Hi. rewrite testbit_wrap, Z.land_spec by lia.
  destruct (Z.ltb_spec i 8); [done|]. by rewrite (testbit_small 8 a) by (done || lia).
Qed.

Lemma candidate_score_spec w s slot_id t :
  table_of w s -> feature_bytes s -> candidate_score s slot_id t = shared_weight w s slot_id t.
Proof.
  intros [Hw HT] [Hf Hc]. unfold candidate_score, shared_weight. change (FEATURE_SIZE / 8) with 64.
  set (val i := byte_weight (cweight w i) (Z.land (old_feature s).[(slot_id, i)] (c_byte_feature s).[(t, i)])).
  assert (Hb : forall i, 0 <= val i <= 2040).
  { intros i. apply (byte_weight_bounds _ _ 255); [lia|]. intros j _.
    specialize (Hw (i * 8 + j)). unfold cweight, uint in *. lia. }
  cut (for_range 0 64 (fun i a => s32 (a + (merge_weights s).[(i,
    Z.land (old_feature s).[(slot_id, i)] (c_byte_feature s).[(t, i)])])) 0
    = sumZ val (seqZ 0 64) /\ 0 <= 64 <= 64); [tauto|].
  apply (for_range_ind (fun k a => a = sumZ val (seqZ 0 k) /\ 0 <= k <= 64)); [lia|split; [done|lia]|].
  intros k a Hk [-> _]. split; [|lia].
  rewrite HT by (try lia; apply land_byte; done). fold (val k). rewrite sumZ_seqZ_snoc by lia.
  pose proof (sumZ_seqZ_bounds val k 2040 ltac:(lia) (fun i _ => Hb i)). specialize (Hb k).
  unfold s32. rewrite Z.mod_small; lia.
Qed.

(** [get_core_id] returns the first worker whose in-flight requests share the
    greatest positive total weight of features with the request, and the hint
    (on 16 bits) when no worker shares any weight. *)
Theorem get_core_id_argmax {C : Config} (w : gmap Z Z) (s : central_scheduler_t) (slot_id hint : Z) :
  table_of w s -> feature_bytes s -> 0 < MAX_THREAD < 2 ^ 16 -> uint 16 hint ->
  exists best, argmax_upto (shared_weight w s slot_id) hint MAX_THREAD best (get_core_id slot_id hint s).
Proof.
  intros HT HF HM Hh. unfold get_core_id.
  assert (s32 hint = hint) as -> by (unfold s32, uint in *; rewrite Z.mod_small; lia).
  match goal with |- context [for_range 0 MAX_THREAD ?f ?x] => set (r := for_range 0 MAX_THREAD f x) end.
  assert (argmax_upto (shared_weight w s slot_id) hint MAX_THREAD r.1 r.2) as HA.
  { subst r. apply (for_range_ind (fun k (r : Z * Z) =>
      argmax_upto (shared_weight w s slot_id) hint k r.1 r.2)); [lia|apply argmax_start|].
    intros k [best idx] Hk IH. apply argmax_step in IH; [|lia]. cbn [fst snd] in *.
    rewrite (candidate_score_spec w) by done. by destruct (best <? _). }
  assert (u16 r.2 = r.2) as ->.
  { apply wrap_small. destruct HA as [(-> & _)|(Hi & _)]; [done|unfold uint; lia]. }
  by exists r.1.
Qed.

(** * Counters *)

(** [now_f & (1u << j)] tests bit [j]. *)
Lemma bit_test x j : 0 <= j -> negb (Z.land x (Z.shiftl 1 j) =? 0) = Z.testbit x j.
Proof.
  intros Hj. rewrite Z.shiftl_1_l. destruct (Z.testbit x j) eqn:E.
  - apply negb_true_iff, Z.eqb_neq. intros H0.
    assert (Z.testbit (Z.land x (2 ^ j)) j = false) as H by (by rewrite H0, Z.bits_0).
    by rewrite Z.land_spec, E, Z.pow2_bits_true in H.
  - apply negb_false_iff, Z.eqb_eq, Z.bits_inj'. intros i Hi.
    rewrite Z.land_spec, Z.bits_0. destruct (decide (i = j)) as [->|]; [by rewrite E|].
    by rewrite Z.pow2_bits_false, andb_false_r by done.
Qed.

(** Bit [f] of the feature vector remembered for slot [i]. *)
Definition slot_feature (s : central_scheduler_t) (i f : Z) : bool :=
  Z.testbit (old_feature s).[(i, f / 8)] (f mod 8).

(** The parts of the state that the feature loops leave alone. *)
Definition loop_frame (s s' : central_scheduler_t) : Prop :=
  old_feature s' = old_feature s /\ old_core_id s' = old_core_id s /\ head s' = head s /\
  doorbell_queue s' = doorbell_queue s /\ merge_weights s' = merge_weights s /\
  strife_queue s' = strife_queue s /\ run_count s' = run_count s.

#[local] Set Default Proof Using "Type*".

Section feature_loop.
Context (op : Z -> Z -> central_scheduler_t -> central_scheduler_t) (core d slot_id : Z).
Hypothesis op_spec : forall i j s,
  loop_frame s (op i j s) /\
  c_feature (op i j s)
  = <[(core, i * 8 + j) := u64 ((c_feature s).[(core, i * 8 + j)] + d)]> (c_feature s).

Let loop (s : central_scheduler_t) : central_scheduler_t :=
  for_range 0 64 (fun i s =>
    let now_f := (old_feature s).[(slot_id, i)] in
    for_range 0 8 (fun j s =>
      if negb (Z.land now_f (Z.shiftl 1 j) =? 0) then op i j s else s) s) s.

(** After the features below [k]. *)
Definition upto (s0 : central_scheduler_t) (k : Z) (s : central_scheduler_t) : Prop :=
  loop_frame s0 s /\
  forall c f, 0 <= f < 512 -> (c_feature s).[(c, f)]
    = if (f <? k) && (c =? core) && slot_feature s0 slot_id f
      then u64 ((c_feature s0).[(c, f)] + d) else (c_feature s0).[(c, f)].

Lemma upto_step s0 i j s :
  0 <= i < 64 -> 0 <= j < 8 -> upto s0 (i * 8 + j) s ->
  upto s0 (i * 8 + j + 1)
    (if negb (Z.land (old_feature s0).[(slot_id, i)] (Z.shiftl 1 j) =? 0) then op i j s else s).
Proof.
  intros Hi Hj [F H]. rewrite bit_test by lia.
  assert (slot_feature s0 slot_id (i * 8 + j) = Z.testbit (old_feature s0).[(slot_id, i)] j) as Eb.
  { unfold slot_feature. f_equal; [do 2 f_equal|].
    - rewrite Z.div_add_l, Z.div_small by lia. lia.
    - rewrite Z.add_comm, Z_mod_plus_full. apply Z.mod_small. lia. }
  set (k := i * 8 + j) in *. rewrite <-Eb. destruct (slot_feature s0 slot_id k) eqn:Es.
  - destruct (op_spec i j s) as [F' E]. split; [unfold loop_frame in *; intuition congruence|].
    intros c f Hf. rewrite E. fold k. rewrite rd_insert. case_decide as D.
    + injection D as <- <-. rewrite H by lia. destruct (Z.ltb_spec k k); [lia|].
      destruct (Z.ltb_spec k (k + 1)); [|lia]. rewrite Z.eqb_refl, Es. done.
    + rewrite H by lia. destruct (Z.eqb_spec c core) as [->|]; [|by rewrite !andb_false_r].
      destruct (Z.ltb_spec f k), (Z.ltb_spec f (k + 1)); try (done || lia).
      assert (f = k) as -> by lia. congruence.
  - split; [done|]. intros c f Hf. rewrite H by lia.
    destruct (Z.ltb_spec f k), (Z.ltb_spec f (k + 1)); try (done || lia).
    assert (f = k) as -> by lia. by rewrite Es, !andb_false_r.
Qed.

Lemma feature_loop s : upto s 512 (loop s).
Proof.
  unfold loop. change 512 with (64 * 8).
  apply (for_range_ind (fun i s' => upto s (i * 8) s')); [lia| |].
  - split; [by unfold loop_frame|]. intros c f Hf. by destruct (Z.ltb_spec f (0 * 8)); [lia|].
  - intros i s1 Hi H1. assert (old_feature s1 = old_feature s) as -> by apply H1.
    replace ((i + 1) * 8) with (i * 8 + 8) by lia.
    apply (for_range_ind (fun j s' => upto s (i * 8 + j) s')); [lia|by rewrite Z.add_0_r|].
    intros j s2 Hj H2. rewrite Z.add_assoc. by apply upto_step.
Qed.
End feature_loop.

Lemma add_feature_spec flt core i j s :
  loop_frame s (add_feature flt core i j s) /\
  c_feature (add_feature flt core i j s)
  = <[(core, i * 8 + j) := u64 ((c_feature s).[(core, i * 8 + j)] + 1)]> (c_feature s).
Proof. unfold add_feature. cbv zeta. destruct (_ && _); (split; [unfold loop_frame; by split_and!|reflexivity]). Qed.

Lemma remove_feature_spec flt core i j s :
  loop_frame s (remove_feature flt core i j s) /\
  c_feature (remove_feature flt core i j s)
  = <[(core, i * 8 + j) := u64 ((c_feature s).[(core, i * 8 + j)] + -1)]> (c_feature s).
Proof. unfold remove_feature. cbv zeta. destruct (_ && _); (split; [unfold loop_frame; by split_and!|reflexivity]). Qed.

Section counters.
Context {C : Config}.

(** The number of slots whose last request is on worker [c] and uses [f]. *)
Definition cpu_load (s : central_scheduler_t) (c f : Z) : Z :=
  sumZ (fun i => Z.b2z (((old_core_id s).[i] =? c) && slot_feature s i f)) (seqZ 0 total_slots).

Definition cpu_counters_ok (s : central_scheduler_t) : Prop :=
  (forall i, 0 <= (old_core_id s).[i]) /\
  forall c f, 0 <= f < 512 -> (c_feature s).[(c, f)] = u64 (cpu_load s c f).

Lemma take_features_spec m slot_id a s :
  let s' := take_features m slot_id a s in
  old_core_id s' = old_core_id s /\ c_feature s' = c_feature s /\
  (forall i f, i <> slot_id -> slot_feature s' i f = slot_feature s i f).
Proof.
  split_and!; try done. intros i f Hi. unfold slot_feature, take_features; cbn [set_field old_feature].
  f_equal. apply (for_range_inv (fun g : gmap (Z * Z) Z => g.[(i, f / 8)] = (old_feature s).[(i, f / 8)]));
    [done|]. intros k g _ IH. by rewrite rd_insert_ne by congruence.
Qed.

(** Replacing the request of a slot: the old one is taken out, the new features
    are read and counted on the chosen worker. *)
Lemma reschedule_counters flt m a slot_id c s :
  cpu_counters_ok s -> 0 <= slot_id < total_slots -> 0 <= c ->
  cpu_counters_ok (replace_new_request flt c slot_id
    (take_features m slot_id a (delate_loop flt slot_id s))).
Proof.
  intros [Hold Hc] Hs Hcore. set (o := (old_core_id s).[slot_id]).
  assert (upto o (-1) slot_id s 512 (delate_loop flt slot_id s)) as [F1 D1].
  { unfold delate_loop. fold o. destruct (Z.eqb_spec o (-1)); [specialize (Hold slot_id); lia|].
    apply (feature_loop (remove_feature flt o)). apply remove_feature_spec. }
  set (s1 := delate_loop flt slot_id s) in *.
  destruct (take_features_spec m slot_id a s1) as (T1 & T2 & T3).
  set (s2 := take_features m slot_id a s1) in *.
  set (s2' := s2 <| old_core_id := <[slot_id := c]> (old_core_id s2) |>).
  assert (upto c 1 slot_id s2' 512 (replace_new_request flt c slot_id s2)) as [F3 D3].
  { apply (feature_loop (add_feature flt c)). apply add_feature_spec. }
  set (s3 := replace_new_request flt c slot_id s2) in *.
  destruct F1 as (F1a & F1b & _), F3 as (F3a & F3b & _).
  assert (Ec : old_core_id s3 = <[slot_id := c]> (old_core_id s)).
  { rewrite F3b. change (old_core_id s2') with (<[slot_id := c]> (old_core_id s2)). by rewrite T1, F1b. }
  assert (Ef : forall i f, i <> slot_id -> slot_feature s3 i f = slot_feature s i f).
  { intros i f Hi. unfold slot_feature in *. rewrite F3a. change (old_feature s2') with (old_feature s2).
    rewrite (T3 i f Hi). by rewrite F1a. }
  assert (En : forall f, slot_feature s3 slot_id f = slot_feature s2' slot_id f).
  { intros f. unfold slot_feature. by rewrite F3a. }
  split.
  - intros i. rewrite Ec, rd_insert. by case_decide.
  - intros c' f Hf. rewrite D3 by done. change (c_feature s2') with (c_feature s2).
    rewrite T2, D1 by done. rewrite Hc by done. destruct (Z.ltb_spec f 512); [|lia]. cbn [andb].
    unfold cpu_load.
    rewrite (sumZ_update (fun i => Z.b2z (((old_core_id s3).[i] =? c') && slot_feature s3 i f))
      (fun i => Z.b2z (((old_core_id s).[i] =? c') && slot_feature s i f)) _ slot_id).
    + fold o. rewrite Ec, rd_insert_eq, En. rewrite (Z.eqb_sym c c'), (Z.eqb_sym o c').
      set (L := sumZ _ _). destruct ((c' =? o) && slot_feature s slot_id f),
        ((c' =? c) && slot_feature s2' slot_id f); cbn [Z.b2z];
        repeat (rewrite <-?Z.add_assoc; rewrite wrap_add_l by lia); f_equal; lia.
    + apply NoDup_seqZ.
    + apply elem_of_seqZ. lia.
    + intros i _ Hi. by rewrite Ec, rd_insert_ne, Ef by done.
Qed.

(** ** The scheduler's rounds *)

Lemma push_counters core slot h h' :
  push_new_request core slot h = Some h' -> cpu_counters_ok (central h) -> cpu_counters_ok (central h').
Proof.
  unfold push_new_request, take_ticket. cbv zeta.
  destruct (doorbell_queue _ !! core) as [d|]; cbn [mbind option_bind]; [|done].
  destruct (dispatch h !! d); cbn [mbind option_bind]; [|done]. by intros [= <-].
Qed.

Lemma push_strife_counters core a h h' :
  push_new_request_stife core a h = Some h' -> cpu_counters_ok (central h) -> cpu_counters_ok (central h').
Proof.
  unfold push_new_request_stife, take_ticket. cbv zeta.
  destruct (strife_queue _ !! core) as [d|]; cbn [mbind option_bind]; [|done].
  destruct (strife_dispatch h !! d); cbn [mbind option_bind]; [|done].
  intros E H. assert (central h' = (central h) <| head := <[(core, 0) :=
    u64 ((head (central h)).[(core, 0)] + 1)]> (head (central h)) |>) as ->; [|exact H].
  apply (inj Some) in E. by rewrite <-E.
Qed.

Lemma refresh_counters tid h : cpu_counters_ok (central h) -> cpu_counters_ok (central (refresh_weights tid h)).
Proof. unfold refresh_weights. intros H. destruct (_ && _); exact H. Qed.

Lemma get_core_id_nonneg s slot_id hint : 0 <= get_core_id slot_id hint s.
Proof. apply (wrap_range 16). lia. Qed.

(** [delate_old_request], the choice and [replace_new_request] in sequence. *)
Lemma delate_replace_counters i h h1 c :
  delate_old_request i h = Some h1 -> 0 <= i < total_slots -> 0 <= c ->
  cpu_counters_ok (central h) ->
  cpu_counters_ok (replace_new_request (guideline_group (model h1)) c i (central h1)).
Proof.
  unfold delate_old_request. intros E Hi Hc H. apply bind_Some in E as (a & _ & E).
  apply (inj Some) in E. rewrite <-E. exact (reschedule_counters _ _ _ _ _ _ H Hi Hc).
Qed.

#[local] Opaque delate_old_request replace_new_request get_core_id.

Lemma run_slot_counters i h h' :
  run_slot i h = Some h' -> 0 <= i < total_slots ->
  cpu_counters_ok (central h) -> cpu_counters_ok (central h').
Proof.
  unfold run_slot. intros E Hi H. apply bind_Some in E as (addr & _ & E).
  destruct (take_request addr (mem h)) as [[m sz]|]; [|by injection E as <-].
  apply bind_Some in E as (h1 & ED & E). eapply push_counters; [exact E|].
  exact (delate_replace_counters i _ h1 _ ED Hi (get_core_id_nonneg _ _ _) H).
Qed.

Section strife_counters.
Variable rand : Z -> Z.

Lemma strife_addr_central a sz h : central (strife_addr a sz h).2 = central h.
Proof. unfold strife_addr. by destruct (CPUBASED =? 3). Qed.

Lemma strife_hint_central c rid h : central (strife_hint rand c rid h).2 = central h.
Proof. unfold strife_hint, next_rand. by destruct (BASELINE =? 1). Qed.

Lemma strife_choose_counters i c h c' h' :
  strife_choose rand i c h = Some (c', h') -> 0 <= i < total_slots ->
  cpu_counters_ok (central h) -> cpu_counters_ok (central h').
Proof.
  unfold strife_choose. intros E Hi H. destruct (_ || _); [|by injection E as _ <-].
  unfold next_rand in E. cbv zeta in E.
  apply bind_Some in E as (h1 & ED & E). apply (inj Some) in E. apply pair_eq in E as [_ <-].
  exact (delate_replace_counters i _ h1 _ ED Hi (get_core_id_nonneg _ _ _) H).
Qed.

Lemma null_reply_central i a tid h h' : null_reply i a tid h = Some h' -> central h' = central h.
Proof.
  unfold null_reply. destruct NULLRPC; [|by intros [= <-]].
  destruct (count _ tid); cbn [mbind option_bind]; [|done].
  destruct (head_connect h a); cbn [mbind option_bind]; [|done]. by intros [= <-].
Qed.

Lemma strife_ack_central i a h h' : strife_ack i a h = Some h' -> central h' = central h.
Proof.
  unfold strife_ack. destruct (CPUBASED =? 3); [|by intros [= <-]].
  destruct (head_connect h a); cbn [mbind option_bind]; [|done]. by intros [= <-].
Qed.

Lemma run_strife_slot_counters b tid i h h' :
  run_strife_slot rand b tid i h = Some h' -> 0 <= i < total_slots ->
  cpu_counters_ok (central h) -> cpu_counters_ok (central h').
Proof.
  unfold run_strife_slot. intros E Hi H. destruct (_ <=? b); [by injection E as <-|].
  destruct (get_addr h i) as [addr|]; cbn [mbind option_bind] in E; [|done].
  destruct (take_request addr (mem h)) as [[m sz]|]; [|by injection E as <-].
  pose proof (strife_addr_central addr sz (h <| mem := m |>)) as E1.
  destruct (strife_addr addr sz _) as [a h1]. cbn [snd] in E1.
  pose proof (strife_hint_central (head_word (mem h1) addr 6) (rpc_id (rpcId (load_ReqHead m addr))) h1) as E2.
  destruct (strife_hint rand _ _ h1) as [c h2]. cbn [snd] in E2.
  destruct (strife_choose rand i c h2) as [[c' h3]|] eqn:E3; cbn [mbind option_bind] in E; [|done].
  apply strife_choose_counters in E3; [|done|rewrite E2, E1; exact H].
  destruct (if NULLRPC then Some h3 else push_new_request_stife (u16 c') a h3) as [h4|] eqn:E4;
    cbn [mbind option_bind] in E; [|done].
  assert (cpu_counters_ok (central h4)) as H4.
  { destruct NULLRPC; [by injection E4 as <-|by eapply push_strife_counters]. }
  destruct (null_reply i addr tid h4) as [h5|] eqn:E5; cbn [mbind option_bind] in E; [|done].
  apply null_reply_central in E5. apply strife_ack_central in E. by rewrite E, E5.
Qed.

(** A loop over slots keeps what each slot keeps. *)
Lemma slots_fold (f : Z -> host -> option host) l h h' :
  (forall i h h', i ∈ l -> f i h = Some h' -> cpu_counters_ok (central h) -> cpu_counters_ok (central h')) ->
  foldl (fun h i => h ← h; f i h) (Some h) l = Some h' ->
  cpu_counters_ok (central h) -> cpu_counters_ok (central h').
Proof.
  revert h. induction l as [|i l IH]; intros h Hf E H; cbn in E; [by injection E as <-|].
  destruct (f i h) as [h1|] eqn:E1.
  - apply (IH h1); [intros; eapply Hf; [by right|done..]|done|]. eapply Hf; [by left|done..].
  - exfalso. clear -E. induction l as [|j l IH]; cbn in E; [done|auto].
Qed.

(** What can happen to the scheduler: rounds of the two loops, requests written
    by clients, workers taking requests, and refreshed weights and filters. *)
Inductive sched_step : host -> host -> Prop :=
  | step_once b e tid h h' :
      0 <= b -> e <= total_slots -> run_once b e tid h = Some h' -> sched_step h h'
  | step_strife b e tid h h' :
      0 <= b -> e <= total_slots -> run_strife_once rand b e tid h = Some h' -> sched_step h h'
  | step_world h m d q mo p b :
      sched_step h (h <| mem := m |> <| dispatch := d |> <| strife_dispatch := q |>
                      <| model := mo |> <| performance := p |> <| strife_batch := b |>).

(** C33: whatever rounds the CPU scheduler runs, in whatever order with client
    writes, worker progress and weight updates, the counter of worker [c] and
    feature [f] is the number of slots whose last scheduled request was given to
    [c] and uses [f] (modulo 2^64). *)
Theorem cpu_counters_invariant (h0 h : host) (thread_num : Z) :
  c_feature (central h0) = ∅ -> old_feature (central h0) = ∅ -> old_core_id (central h0) = ∅ ->
  rtc sched_step (cpu_alnico_init thread_num h0) h ->
  forall c f, 0 <= f < 512 -> (c_feature (central h)).[(c, f)] = u64 (cpu_load (central h) c f).
Proof.
  intros Z1 Z2 Z3 Hr.
  assert (cpu_counters_ok (central (cpu_alnico_init thread_num h0))) as H0.
  { unfold cpu_alnico_init, reset_scheduler. cbv zeta. split.
    - cbn. intros i. rewrite Z3.
      apply (for_range_inv (fun m : gmap Z Z => 0 <= m.[i])); [done|].
      intros k m _ Hm. rewrite rd_insert. by case_decide.
    - cbn. intros c f Hf. rewrite Z1. unfold cpu_load. rewrite sumZ_zero; [done|].
      intros i _. unfold slot_feature. cbn. rewrite Z2, rd_empty, Z.bits_0. by rewrite andb_false_r. }
  assert (cpu_counters_ok (central h)) as [_ H]; [|exact H].
  induction Hr as [|h1 h2 h3 Hs _ IH]; [done|]. apply IH. clear IH.
  destruct Hs as [b e tid h h' Hb He E|b e tid h h' Hb He E|]; [| |exact H0].
  - unfold run_once in E. eapply (slots_fold (fun i h => run_slot i h)); [|exact E|by apply refresh_counters].
    intros i h4 h5 Hi%elem_of_seqZ E' H'. eapply run_slot_counters; [done|lia|done].
  - unfold run_strife_once in E. cbv zeta in E.
    eapply (slots_fold (fun i h => run_strife_slot rand b tid i h)); [|exact E|].
    + intros i h4 h5 Hi%elem_of_seqZ E' H'. eapply run_strife_slot_counters; [done|lia|done].
    + destruct (_ || _); [by apply refresh_counters|done].
Qed.
End strife_counters.
End counters.

(** ** Bitmaps *)

(** taking a request out never clears a bit of a worker's feature bitmap as
    long as no feature is guided (every filter is [MAX_CORE + 1]), even when the
    worker has no request left that uses the feature: the old value of the
    counter is computed and ignored.  The card recomputes its bitmaps from the
    counters instead. *)
Theorem cpu_bitmap_never_cleared (flt : gmap Z Z) (slot_id : Z) (s : central_scheduler_t) :
  (forall f, 0 <= f < FEATURE_SIZE -> flt.[f] = MAX_CORE + 1) ->
  c_byte_feature (delate_loop flt slot_id s) = c_byte_feature s.
Proof.
  intros Hf. unfold delate_loop. destruct (negb _); [|done].
  apply (for_range_inv (fun s' => c_byte_feature s' = c_byte_feature s)); [done|].
  intros i s1 Hi H1. apply (for_range_inv (fun s' => c_byte_feature s' = c_byte_feature s)); [done|].
  intros j s2 Hj H2. change (FEATURE_SIZE / 8) with 64 in Hi. destruct (negb (Z.land _ _ =? 0)); [|done].
  unfold remove_feature. cbv zeta. rewrite Hf, Z.eqb_refl by (unfold FEATURE_SIZE; lia). exact H2.
Qed.

(** * Queueing *)

#[local] Opaque delate_old_request replace_new_request get_core_id.

Section queueing.
Context {C : Config}.

(** A request of [sz] bytes with a non-zero magic number waits at [addr]. *)
Definition complete_request (m : memory) (addr sz : Z) : Prop :=
  head_word m addr 4 = sz /\ 28 <= sz /\ head_word m addr 5 <> 0 /\
  ld 4 m (addr + 4 * (sz / 4)) = head_word m addr 5.

Lemma take_complete m addr sz :
  complete_request m addr sz ->
  take_request addr m = Some (st 4 m (addr + 4 * (sz / 4)) 0, sz) /\
  take_request addr (st 4 m (addr + 4 * (sz / 4)) 0) = None.
Proof.
  intros (H1 & H2 & H3 & H4). assert (7 <= sz / 4) by (apply Z.div_le_lower_bound; lia).
  unfold take_request. rewrite H1. destruct (Z.eqb_spec sz 0); [lia|].
  rewrite H4, Z.eqb_refl. split; [done|].
  assert (E : forall k, k < 7 -> head_word (st 4 m (addr + 4 * (sz / 4)) 0) addr k = head_word m addr k).
  { intros k Hk. unfold head_word. apply ld_st_ne. lia. }
  rewrite !E, H1, ld32_st32 by lia. destruct (Z.eqb_spec sz 0); [done|].
  change (u32 0) with 0. by destruct (Z.eqb_spec (head_word m addr 5) 0).
Qed.

Lemma delate_frame i h h1 :
  delate_old_request i h = Some h1 ->
  mem h1 = mem h /\ server h1 = server h /\ dispatch h1 = dispatch h /\ model h1 = model h /\
  head (central h1) = head (central h) /\ doorbell_queue (central h1) = doorbell_queue (central h).
Proof.
  Transparent delate_old_request.
  unfold delate_old_request. intros E. apply bind_Some in E as (a & _ & E).
  apply (inj Some) in E. rewrite <-E.
  assert (loop_frame (central h) (delate_loop (guideline_group (model h)) i (central h))) as F.
  { unfold delate_loop. destruct (negb _); [|by unfold loop_frame].
    eapply (feature_loop (remove_feature _ _) _ (-1)). apply remove_feature_spec. }
  destruct F as (_ & _ & F3 & F4 & _). split_and!; try reflexivity; [exact F3|exact F4].
Qed.

Lemma replace_frame flt c i s :
  head (replace_new_request flt c i s) = head s /\
  doorbell_queue (replace_new_request flt c i s) = doorbell_queue s.
Proof.
  Transparent replace_new_request. unfold replace_new_request.
  match goal with |- context [for_range 0 _ _ ?x] => set (s1 := x) end.
  pose proof (feature_loop (add_feature flt c) c 1 i (add_feature_spec flt c) s1)
    as [(_ & _ & F3 & F4 & _) _]. split; [exact F3|exact F4].
Qed.

Lemma replace_core flt c i s : (old_core_id (replace_new_request flt c i s)).[i] = c.
Proof.
  unfold replace_new_request. match goal with |- context [for_range 0 _ _ ?x] => set (s1 := x) end.
  pose proof (feature_loop (add_feature flt c) c 1 i (add_feature_spec flt c) s1) as [(_ & F2 & _) _].
  transitivity ((old_core_id s1).[i]); [by f_equal|]. apply rd_insert_eq.
Qed.

#[local] Opaque delate_old_request replace_new_request.

Lemma push_inv c i h h' :
  push_new_request c i h = Some h' ->
  exists d q, doorbell_queue (central h) !! c = Some d /\ dispatch h !! d = Some q /\
    let t := (head (central h)).[(c, 0)] in
    dispatch h' = <[d := Dispatch.post q (t mod MESS_NUM) i]> (dispatch h) /\
    head (central h') = <[(c, 0) := u64 (t + 1)]> (head (central h)) /\
    mem h' = mem h /\ server h' = server h.
Proof.
  unfold push_new_request, take_ticket. intros E.
  apply bind_Some in E as (d & Ed & E). apply bind_Some in E as (q & Eq & E).
  apply (inj Some) in E. exists d, q. rewrite <-E. by split_and!.
Qed.

(** The total weight of the features that worker [t] shares with the request
    whose feature vector is at address [a]. *)
Definition request_weight (w : gmap Z Z) (s : central_scheduler_t) (m : memory) (a t : Z) : Z :=
  sumZ (fun k => byte_weight (cweight w k) (Z.land (byte m (a + k)) (c_byte_feature s).[(t, k)])) (seqZ 0 64).

Definition has_queue (h : host) (c : Z) : Prop :=
  exists d, doorbell_queue (central h) !! c = Some d /\ is_Some (dispatch h !! d).

Lemma delate_bytes flt i s :
  (forall k, uint 8 (c_byte_feature s).[k]) -> forall k, uint 8 (c_byte_feature (delate_loop flt i s)).[k].
Proof.
  intros Hs. unfold delate_loop. destruct (negb _); [|done].
  apply (for_range_inv (fun s => forall k, uint 8 (c_byte_feature s).[k])); [done|]. intros b s1 _ H1.
  apply (for_range_inv (fun s => forall k, uint 8 (c_byte_feature s).[k])); [done|]. intros j s2 Hj H2.
  destruct (negb (Z.land _ _ =? 0)); [|done]. unfold remove_feature. cbv zeta. destruct (_ && _); [|exact H2].
  intros k. cbn [set_field c_byte_feature]. rewrite rd_insert. case_decide; [|apply H2].
  apply land_byte; [apply H2|]. rewrite (Z.shiftl_1_l j). assert (2 ^ j <= 2 ^ 7) by (apply Z.pow_le_mono_r; lia).
  pose proof (Z.pow_pos_nonneg 2 j ltac:(lia) ltac:(lia)). change (Z.shiftl 1 8) with 256. unfold uint. lia.
Qed.

(** What a scheduler knows of a request that it has taken. *)
Lemma take_features_at m i a s t :
  (forall k, 0 <= k < 64 -> (old_feature (take_features m i a s)).[(i, k)] = byte m (a + k)) /\
  c_byte_feature (take_features m i a s) = c_byte_feature s /\ merge_weights (take_features m i a s) = merge_weights s /\
  forall w, shared_weight w (take_features m i a s) i t = request_weight w s m a t.
Proof.
  assert (forall k, 0 <= k < 64 -> (old_feature (take_features m i a s)).[(i, k)] = byte m (a + k)) as H.
  { intros k Hk. unfold take_features; cbn [set_field old_feature]. change (FEATURE_SIZE / 8) with 64.
    apply (for_range_ind (fun b (g : gmap (Z * Z) Z) => k < b -> g.[(i, k)] = byte m (a + k)) 0 64); [lia|lia| |lia].
    intros b g Hb IH Hlt. rewrite rd_insert. case_decide as D; [by injection D as ->|].
    apply IH. assert (b <> k) by congruence. lia. }
  split_and!; [exact H|done|done|]. intros w. unfold shared_weight, request_weight. apply sumZ_ext.
  intros k Hk%elem_of_seqZ. by rewrite H by lia.
Qed.

Lemma take_features_frame m i a s :
  head (take_features m i a s) = head s /\ doorbell_queue (take_features m i a s) = doorbell_queue s.
Proof. done. Qed.

Lemma take_features_bytes m i a s :
  (forall k, uint 8 (old_feature s).[k]) -> forall k, uint 8 (old_feature (take_features m i a s)).[k].
Proof.
  intros Hs. unfold take_features. cbn [set_field old_feature].
  apply (for_range_inv (fun g : gmap (Z * Z) Z => forall k, uint 8 g.[k])); [done|].
  intros b g _ H k. rewrite rd_insert. case_decide; [apply byte_range|apply H].
Qed.

Lemma delate_loop_frame flt i s : loop_frame s (delate_loop flt i s).
Proof.
  unfold delate_loop. destruct (negb _); [|by unfold loop_frame].
  eapply (feature_loop (remove_feature _ _) _ (-1)). apply remove_feature_spec.
Qed.

(** The worker that [get_core_id] chooses when the slot's last request has been
    taken out and the features of the new one have been read. *)
Lemma choice_argmax w flt m a i hint s :
  table_of w s -> feature_bytes s -> 0 < MAX_THREAD < 2 ^ 16 -> uint 16 hint ->
  exists best, argmax_upto (request_weight w (delate_loop flt i s) m a) hint MAX_THREAD best
    (get_core_id i hint (take_features m i a (delate_loop flt i s))).
Proof.
  intros HT [HF1 HF2] HM Hh. destruct (delate_loop_frame flt i s) as (F1 & _ & _ & _ & F5 & _).
  set (s1 := delate_loop flt i s) in *.
  destruct (get_core_id_argmax w (take_features m i a s1) i hint) as [best HA]; [| |done|done|].
  - destruct (take_features_at m i a s1 0) as (_ & _ & E & _). unfold table_of in *. by rewrite E, F5.
  - split; [apply take_features_bytes; by rewrite F1|]. by apply delate_bytes.
  - exists best. eapply argmax_ext; [|exact HA]. intros c _. apply take_features_at.
Qed.

(** The steps of [run_slot]. *)
Lemma delate_eq i addr m h :
  get_addr h i = Some addr -> 0 <= addr + head_word m addr 4 - 64 < 2 ^ 64 ->
  delate_old_request i (h <| mem := m |>) = Some (h <| mem := m |> <| central := take_features m i (addr + head_word m addr 4 - 64)
    (delate_loop (guideline_group (model h)) i (central h)) |>).
Proof.
  Transparent delate_old_request. unfold delate_old_request, get_feature_addr. cbn [set_field model central].
  generalize (delate_loop (guideline_group (model h)) i (central h)). intros s1 Ha Hr.
  match goal with |- context [get_addr ?h' i] => assert (get_addr h' i = Some addr) as -> by exact Ha end.
  cbn [mbind option_bind set_field mem central].
  change (FEATURE_SIZE / 8) with 64. rewrite wrap_small by done. reflexivity.
  Opaque delate_old_request.
Qed.

Lemma run_slot_eq i addr m sz h h1 :
  get_addr h i = Some addr -> take_request addr (mem h) = Some (m, sz) -> delate_old_request i (h <| mem := m |>) = Some h1 ->
  let c := get_core_id i (head_word (mem h1) addr 6) (central h1) in
  run_slot i h = push_new_request c i (h1 <| central := replace_new_request (guideline_group (model h1)) c i (central h1) |>).
Proof. intros Ha Ht Hd. unfold run_slot. rewrite Ha. cbn [mbind option_bind]. rewrite Ht, Hd. reflexivity. Qed.

Lemma push_eq c i d q s h :
  doorbell_queue s !! c = Some d -> dispatch h !! d = Some q ->
  let t := (head s).[(c, 0)] in
  exists h', push_new_request c i (h <| central := s |>) = Some h' /\
    dispatch h' = <[d := Dispatch.post q (t mod MESS_NUM) i]> (dispatch h) /\
    head (central h') = <[(c, 0) := u64 (t + 1)]> (head s) /\ old_core_id (central h') = old_core_id s /\
    mem h' = mem h /\ server h' = server h.
Proof.
  intros Hd Hq. unfold push_new_request, take_ticket. cbn [set_field central dispatch doorbell_queue]. rewrite Hd. cbn [mbind option_bind].
  rewrite Hq. eexists. split; [reflexivity|]. done.
Qed.

(** C23: a complete request is queued exactly once, on the worker that fits it best.
    The scheduler takes the slot's last request out of its tables, chooses the
    first worker with the greatest positive total weight of features shared with
    the request (or the worker named in the request, when no worker shares any
    weight), writes the slot number into the next cell of that worker's doorbell
    queue, advances the queue's ticket counter, changes no other queue, remembers
    the choice, clears the tail of the request, and a further look at the same
    slot does nothing. *)
Theorem request_queued_once (i addr sz : Z) (w : gmap Z Z) (h : host) :
  get_addr h i = Some addr -> complete_request (mem h) addr sz -> 0 <= addr + sz - 64 < 2 ^ 64 ->
  table_of w (central h) -> feature_bytes (central h) -> 0 < MAX_THREAD < 2 ^ 16 ->
  let hint := head_word (mem h) addr 6 in
  uint 16 hint -> (forall c, 0 <= c < MAX_THREAD \/ c = hint -> has_queue h c) ->
  exists h' c best d q, run_slot i h = Some h' /\ run_slot i h' = Some h' /\
    argmax_upto (request_weight w (delate_loop (guideline_group (model h)) i (central h)) (mem h') (addr + sz - 64))
      hint MAX_THREAD best c /\
    doorbell_queue (central h) !! c = Some d /\ dispatch h !! d = Some q /\
    let t := (head (central h)).[(c, 0)] in
    dispatch h' = <[d := Dispatch.post q (t mod MESS_NUM) i]> (dispatch h) /\
    head (central h') = <[(c, 0) := u64 (t + 1)]> (head (central h)) /\
    (old_core_id (central h')).[i] = c /\
    mem h' = st 4 (mem h) (addr + 4 * (sz / 4)) 0.
Proof.
  intros Ha Hreq Haddr HT HF HM hint Hh HQ. destruct (take_complete _ _ _ Hreq) as [T1 T2].
  pose proof Hreq as (R1 & R2 & _). assert (7 <= sz / 4) by (apply Z.div_le_lower_bound; lia).
  remember (st 4 (mem h) (addr + 4 * (sz / 4)) 0) as m eqn:Em.
  assert (forall k, k < 7 -> head_word m addr k = head_word (mem h) addr k) as Ehd.
  { intros k Hk. unfold head_word. rewrite Em. apply ld_st_ne. lia. }
  pose proof (delate_eq i addr m h Ha) as ED.
  rewrite Ehd, R1 in ED by lia. specialize (ED Haddr).
  destruct (choice_argmax w (guideline_group (model h)) m (addr + sz - 64) i hint (central h) HT HF HM Hh) as [best HA].
  destruct (delate_loop_frame (guideline_group (model h)) i (central h)) as (_ & _ & G1 & G2 & _).
  pose proof (take_features_frame m i (addr + sz - 64) (delate_loop (guideline_group (model h)) i (central h))) as [G3 G4].
  remember (delate_loop (guideline_group (model h)) i (central h)) as s1 eqn:Es1.
  remember (take_features m i (addr + sz - 64) s1) as s2 eqn:Es2. clear Es2.
  pose proof (run_slot_eq i addr m sz h _ Ha T1 ED) as ER. cbn [set_field mem model central] in ER.
  rewrite Ehd in ER by lia. fold hint in ER. remember (get_core_id i hint s2) as c eqn:Ec. clear Ec.
  destruct (replace_frame (guideline_group (model h)) c i s2) as [F1 F2].
  pose proof (replace_core (guideline_group (model h)) c i s2) as F3.
  remember (replace_new_request (guideline_group (model h)) c i s2) as s3 eqn:Es3. clear Es3.
  rewrite G3, G1 in F1. rewrite G4, G2 in F2.
  destruct (HQ c) as (d & Hd & q & Hq).
  { destruct HA as [(-> & _)|(Hc & _)]; [by right|by left]. }
  assert (dispatch (h <| mem := m |>) !! d = Some q) as Hq' by exact Hq. rewrite <-F2 in Hd.
  destruct (push_eq c i d q s3 _ Hd Hq') as (h' & P1 & P2 & P3 & P4 & P5 & P6). cbn [set_field dispatch mem server] in P1, P2, P5, P6.
  rewrite F2 in Hd.
  exists h', c, best, d, q. split; [rewrite ER; exact P1|]. cbv zeta. rewrite P5. split_and!; try done.
  - unfold run_slot. assert (get_addr h' i = Some addr) as -> by (unfold get_addr in *; by rewrite P6).
    cbn [mbind option_bind]. by rewrite P5, T2.
  - by rewrite P2, F1.
  - by rewrite P3, F1.
  - by rewrite P4.
Qed.
End queueing.

(** * Examples *)

Definition central_zero : central_scheduler_t := {|
  atomic_add := false; sched_thread_num := 0; run_count := ∅; head := ∅; doorbell_queue := ∅;
  strife_queue := ∅; c_feature := ∅; c_byte_feature := ∅; merge_weights := ∅; old_feature := ∅;
  old_core_id := ∅; strife_buffer := 0 |}.

(** The server with its connections, empty queues and no requests. *)
Definition demo_server (C : Config) : Rpc :=
  (new_connects (W := unit) (fun _ w => (9, w)) (fun _ _ w => (true, w)) Connect_zero (demo_rpc C) tt).1.

Definition demo_host (C : Config) : host := {|
  mem := ∅; server := demo_server C;
  dispatch := for_range 0 4 (fun i m => <[i := Dispatch.init empty_dispatch]> m) ∅;
  strife_dispatch := ∅; model := model_zero; performance := latency_new 24 0;
  strife_batch := latency_new 24 0; central := central_zero; rand_calls := 0 |}.

(** Slot 3 holds a complete request of 96 bytes with hint 2. *)
Definition demo_addr : Z := 0x30000000 + 18432 * 3.
Definition demo_pending (C : Config) : host :=
  let h := init 4 (demo_host C) in
  h <| mem := st 4 (st 4 (st 4 (st 4 (mem h) (demo_addr + 16) 96) (demo_addr + 20) 7)
         (demo_addr + 24) 2) (demo_addr + 96) 7 |>.

(** A filter that guides no feature. *)
Definition free_filter : gmap Z Z := for_range 0 FEATURE_SIZE (fun f m => <[f := MAX_CORE + 1]> m) ∅.

Lemma cpu_bitmap_never_cleared_witness :
  let s := central_zero <| c_byte_feature := <[(2, 0) := 1]> ∅ |> <| c_feature := <[(2, 0) := 1]> ∅ |>
             <| old_feature := <[(5, 0) := 1]> ∅ |> <| old_core_id := <[5 := 2]> ∅ |> in
  (c_feature (delate_loop free_filter 5 s)).[(2, 0)] = 0 /\
  (c_byte_feature (delate_loop free_filter 5 s)).[(2, 0)] = 1.
Proof.
  intros s. split; [vm_compute; reflexivity|].
  rewrite (cpu_bitmap_never_cleared free_filter 5 s).
  - vm_compute. reflexivity.
  - intros f Hf. by apply fill_const.
Defined.

Lemma update_weights_correct_witness :
  let h := (demo_host ycsb_alnico) <| model := model_zero <| mu_weights := <[7 := 40]> (<[0 := 3]> ∅) |> |> in
  (merge_weights (central (update_weights h))).[(0, 129)] = 43.
Proof.
  intros h. rewrite (update_weights_correct h 0 129); [vm_compute; reflexivity| |lia|lia].
  intros k. subst h. cbn [set_field model mu_weights]. rewrite !rd_insert, rd_empty.
  repeat case_decide; unfold uint; lia.
Defined.

Lemma get_core_id_argmax_witness :
  let s := central_zero <| old_feature := <[(5, 0) := 1]> ∅ |> <| c_byte_feature := <[(2, 0) := 1]> ∅ |>
             <| merge_weights := for_range 0 64 (update_weights_byte (<[0 := 9]> ∅)) ∅ |> in
  get_core_id (C := ycsb_alnico) 5 7 s = 2 /\
  exists best, argmax_upto (shared_weight (<[0 := 9]> ∅) s 5) 7 20 best 2.
Proof.
  intros s. assert (get_core_id (C := ycsb_alnico) 5 7 s = 2) as E by (vm_compute; reflexivity).
  split; [exact E|]. rewrite <-E.
  assert (forall k : Z, uint 8 (<[0 := 9]> (∅ : gmap Z Z)).[k]) as Hw.
  { intros k. rewrite rd_insert, rd_empty. case_decide; unfold uint; lia. }
  apply (get_core_id_argmax (C := ycsb_alnico) (<[0 := 9]> ∅) s 5 7).
  - split; [exact Hw|]. intros i b Hi Hb.
    exact (update_table_spec _ _ i b Hw Hi Hb).
  - split; intros k; subst s; cbn [set_field old_feature c_byte_feature]; rewrite rd_insert, rd_empty;
      case_decide; unfold uint; lia.
  - cbn. lia.
  - unfold uint. lia.
Defined.

(** Slots 3 and 4 hold requests with hint 2 and feature 5. *)
Definition pending_at (a : Z) (m : memory) : memory :=
  st 1 (st 4 (st 4 (st 4 (st 4 m (a + 16) 96) (a + 20) 7) (a + 24) 2) (a + 96) 7) (a + 32) 32.
Definition demo_start : host := (demo_host ycsb_alnico) <| central := central_zero <| doorbell_queue := <[2 := 2]> ∅ |> |>.
Definition demo_writes : host :=
  let h := cpu_alnico_init (C := ycsb_alnico) 20 demo_start in
  h <| mem := pending_at demo_addr (pending_at (demo_addr + 18432) ∅) |>.

Lemma client_writes {C : Config} rand h m : sched_step rand h (h <| mem := m |>).
Proof. destruct h as [m0 s d q mo p b c r]. exact (step_world rand (Build_host m0 s d q mo p b c r) m d q mo p b). Qed.

(** One round schedules both on worker 2. *)
Lemma cpu_counters_invariant_witness : exists h,
  rtc (sched_step (C := ycsb_alnico) (fun n => n)) (cpu_alnico_init (C := ycsb_alnico) 20 demo_start) h /\
  (old_core_id (central h)).[3] = 2 /\ (c_feature (central h)).[(2, 5)] = u64 (cpu_load (C := ycsb_alnico) (central h) 2 5) /\
  u64 (cpu_load (C := ycsb_alnico) (central h) 2 5) = 2.
Proof.
  assert (match run_once (C := ycsb_alnico) 3 5 1 demo_writes with
    | Some h => ((old_core_id (central h)).[3] =? 2) && (u64 (cpu_load (C := ycsb_alnico) (central h) 2 5) =? 2)
    | None => false end = true) as K by (vm_compute; reflexivity).
  destruct (run_once 3 5 1 demo_writes) as [h|] eqn:E; [|discriminate K].
  apply andb_true_iff in K as [K1%Z.eqb_eq K2%Z.eqb_eq].
  assert (rtc (sched_step (C := ycsb_alnico) (fun n => n)) (cpu_alnico_init (C := ycsb_alnico) 20 demo_start) h) as Hr.
  { apply (rtc_l _ _ demo_writes); [|apply rtc_once].
    - unfold demo_writes. apply client_writes.
    - apply (step_once (C := ycsb_alnico) _ 3 5 1); [lia|vm_compute; congruence|exact E]. }
  exists h. split; [exact Hr|]. split; [exact K1|]. split; [|exact K2].
  exact (cpu_counters_invariant (C := ycsb_alnico) (fun n => n) demo_start h 20 eq_refl eq_refl eq_refl Hr 2 5 ltac:(lia)).
Defined.

(** A request with hint 2 that shares feature 5, of weight 9, with worker 1. *)
Definition demo_choice : host :=
  let h := demo_host ycsb_alnico in
  h <| mem := pending_at demo_addr ∅ |>
    <| dispatch := for_range 0 20 (fun i m => <[i := Dispatch.init empty_dispatch]> m) ∅ |>
    <| central := central_zero <| doorbell_queue := for_range 0 20 (fun i m => <[i := i]> m) ∅ |>
         <| c_byte_feature := <[(1, 0) := 32]> ∅ |>
         <| merge_weights := for_range 0 64 (update_weights_byte (<[5 := 9]> ∅)) ∅ |> |>.

Lemma request_queued_once_witness : exists h', run_slot (C := ycsb_alnico) 3 demo_choice = Some h' /\
  run_slot (C := ycsb_alnico) 3 h' = Some h' /\ (old_core_id (central h')).[3] = 1 /\
  exists q, dispatch h' = <[1 := Dispatch.post q 0 3]> (dispatch demo_choice).
Proof.
  assert (forall k : Z, uint 8 (<[5 := 9]> (∅ : gmap Z Z)).[k]) as Hw.
  { intros k. rewrite rd_insert, rd_empty. case_decide; unfold uint; lia. }
  destruct (request_queued_once (C := ycsb_alnico) 3 demo_addr 96 (<[5 := 9]> ∅) demo_choice)
    as (h' & c & best & d & q & E1 & E2 & HA & Ed & Eq & E3 & E4 & E5 & E6).
  - vm_compute. reflexivity.
  - split_and!; vm_compute; congruence.
  - vm_compute. split; congruence.
  - split; [exact Hw|]. intros i b Hi Hb. exact (update_table_spec _ _ i b Hw Hi Hb).
  - split; intros k; cbn [demo_choice set_field central old_feature c_byte_feature central_zero];
      rewrite ?rd_insert, ?rd_empty; try case_decide; unfold uint; lia.
  - cbn. lia.
  - vm_compute. split; congruence.
  - assert (forallb (fun c => match doorbell_queue (central demo_choice) !! c with
      | Some d => bool_decide (is_Some (dispatch demo_choice !! d)) | None => false end) (seqZ 0 20) = true) as K
      by (vm_compute; reflexivity).
    intros c Hc. assert (0 <= c < 0 + 20) as Hr by (destruct Hc as [Hc| ->]; [cbn in Hc; lia|vm_compute; split; congruence]).
    apply (forallb_seqZ _ _ _ c K) in Hr. unfold has_queue. destruct (doorbell_queue (central demo_choice) !! c) as [d|]; [|done].
    exists d. split; [done|]. by apply bool_decide_eq_true in Hr.
  - assert (c = 1) as ->.
    { assert (match run_slot (C := ycsb_alnico) 3 demo_choice with Some h => (old_core_id (central h)).[3] =? 1 | None => false end = true)
        as K by (vm_compute; reflexivity). rewrite E1 in K. apply Z.eqb_eq in K. congruence. }
    exists h'. split; [exact E1|]. split; [exact E2|]. split; [exact E5|].
    assert (d = 1) as -> by (vm_compute in Ed; congruence).
    exists q. exact E3.
Defined.
