(* ===== verification/Worker.v ===== *)
(** [worker_msg_t], [strife_msg_t] and [tpcc_delivery_t] of
    [nic-sched/worker_buf.h] and [worker_buf.cpp]: how a worker takes requests
    from its queue, answers them and feeds the model; and counting a batch:
    [count_strife] ends and counts the requests that arrived. *)

From S2P Require Import Prelude Config Memory Ring Feature ModelUpdate Perf RpcCommon Msg RpcConnect Central.
From S2P Require Import CentralProps.

(** * State of a worker *)

(** [my_fpga_queue] and [my_strife_queue] point to the worker's queues: they are
    the indices of the queues in the two queue arrays. *)
Record worker_msg_t := {
  worker_thread_id : Z; txn_reply_addr : Z; txn_addr : Z; client_id : Z; slot_id : Z;
  now_msg : msg_t; abort_queue : abort_queue_t; msg_id : Z; my_fpga_queue : Z;
  (* strife_msg_t *)
  batch_req_num : Z; last_epoch_num : Z; my_strife_queue : Z; strife_msg_id : Z;
  cq_signal_id : Z; txn_reply_addr_strife : Z; client_node_id : Z; client_thread_id : Z;
  client_rpc_id : Z }.

#[export] Instance eta_worker : Eta worker_msg_t := fun w => {|
  worker_thread_id := worker_thread_id w; txn_reply_addr := txn_reply_addr w;
  txn_addr := txn_addr w; client_id := client_id w; slot_id := slot_id w; now_msg := now_msg w;
  abort_queue := abort_queue w; msg_id := msg_id w; my_fpga_queue := my_fpga_queue w;
  batch_req_num := batch_req_num w; last_epoch_num := last_epoch_num w;
  my_strife_queue := my_strife_queue w; strife_msg_id := strife_msg_id w;
  cq_signal_id := cq_signal_id w; txn_reply_addr_strife := txn_reply_addr_strife w;
  client_node_id := client_node_id w; client_thread_id := client_thread_id w;
  client_rpc_id := client_rpc_id w |}.

Section worker.
Context {C : Config}.

Definition worker_init (id : Z) (w : worker_msg_t) (h : host) : worker_msg_t * host :=
  (w <| worker_thread_id := id |> <| msg_id := 0 |> <| my_fpga_queue := id |>
     <| abort_queue := abort_init (abort_queue w) |>,
   h <| model := init_thread (model h) id |>).

(** * Replies *)

(** The reply word: the request's [rpc_id] plus [NOTHING_DEBUG]. *)
Definition write_reply_id (w : worker_msg_t) (m : memory) : memory :=
  st 4 m (rpc_id_addr (txn_reply_addr w))
    (rpc_id (rpcId (load_ReqHead m (m_req_head (now_msg w)))) + NOTHING_DEBUG).

(** The YCSB part of the reply head: number of values read and phase. *)
Definition write_reply_head (w : worker_msg_t) (h : host) (m : memory) : memory :=
  if YCSBplusT then
    let m := st 1 m (rpc_type_addr (txn_reply_addr w)) (get_read_num (now_msg w)) in
    let m := if NULLRPC then st 1 m (rpc_type_addr (txn_reply_addr w)) 0 else m in
    st 1 m (my_nodeid_addr (txn_reply_addr w)) (get_dynamic_phase (performance h))
  else m.

Definition count_unless (no_perf_flag : bool) (id : Z) (h : host) : option host :=
  if no_perf_flag then Some h
  else p ← count (performance h) id; Some (h <| performance := p |>).

Definition reply_now (no_perf_flag : bool) (w : worker_msg_t) (h : host)
    : option (worker_msg_t * host) :=
  let h := h <| mem := write_reply_id w (write_reply_head w h (mem h)) |> in
  h ← count_unless no_perf_flag (worker_thread_id w) h;
  q ← dispatch h !! my_fpga_queue w;
  Some (w <| msg_id := (msg_id w + 1) mod MESS_NUM |>,
        h <| dispatch := <[my_fpga_queue w := Dispatch.set_message_down q (msg_id w)]> (dispatch h) |>).

(** [set_message_down(strife_msg_id)] and the step to the next cell. *)
Definition strife_down (w : worker_msg_t) (h : host) : option host :=
  q ← strife_dispatch h !! my_strife_queue w;
  Some (h <| strife_dispatch :=
          <[my_strife_queue w := Strife.set_message_down q (strife_msg_id w)]> (strife_dispatch h) |>).
Definition strife_next (w : worker_msg_t) : worker_msg_t :=
  w <| strife_msg_id := (strife_msg_id w + 1) mod strife_buf_num |>.

(** Unlike [reply_now] it has no [NULLRPC] case. *)
Definition reply_now_partition (no_perf_flag : bool) (w : worker_msg_t) (h : host)
    : option (worker_msg_t * host) :=
  let m := if YCSBplusT then
             let m := st 1 (mem h) (rpc_type_addr (txn_reply_addr w)) (get_read_num (now_msg w)) in
             st 1 m (my_nodeid_addr (txn_reply_addr w)) (get_dynamic_phase (performance h))
           else mem h in
  h ← strife_down w (h <| mem := m |>);
  h ← count_unless no_perf_flag (worker_thread_id w) (h <| mem := write_reply_id w (mem h) |>);
  Some (strife_next w, h).

Definition count_count_only (w : worker_msg_t) (h : host) : option host :=
  count_unless false (worker_thread_id w) h.

(** * Taking requests *)

(** The fields set from the queue cell and the connection. *)
Definition receive (cid sid : Z) (c : Connect) (m : memory) (w : worker_msg_t) : worker_msg_t :=
  let w := w <| client_id := cid |> <| slot_id := sid |> <| txn_addr := get_rev_addr c sid |>
             <| txn_reply_addr := get_send_addr c sid |> in
  w <| now_msg := deserialization m (get_rev_addr c sid) (now_msg w) |>.

(** [None]: a null pointer; otherwise the boolean is the result. *)
Definition next_txn_check (w : worker_msg_t) (h : host) : option (worker_msg_t * host * bool) :=
  q ← dispatch h !! my_fpga_queue w;
  if negb (Dispatch.check_now_message q (msg_id w)) then Some (w, h, false)
  else
    let cid := u16 (Dispatch.get_message_client_id q (msg_id w)) in
    let sid := u16 (Dispatch.get_message_slot_id q (msg_id w)) in
    c ← client_connect (server h) cid;
    let w := receive cid sid c (mem h) w in
    if NULLRPC then
      h ← count_unless false (worker_thread_id w) h;
      '(w, h) ← reply_now true w h;
      Some (w, h, false)
    else
      Some (w, h <| model := store_feature (mem h) (model h) (worker_thread_id w)
                               (rq_addr (block (now_msg w) 3)) |>, true).

Definition next_txn_check_strife (w : worker_msg_t) (h : host) : option (worker_msg_t * host * bool) :=
  q ← strife_dispatch h !! my_strife_queue w;
  if negb (Strife.check_now_message q (strife_msg_id w)) then Some (w, h, false)
  else
    let a := Strife.get_message_addr q (strife_msg_id w) in
    let hd := load_ReqHead (mem h) a in
    let w := w <| client_node_id := u32 (my_nodeid (rpcId hd) - KEY2NODE_MOD) |>
               <| client_thread_id := thread_id (rpcId hd) |> <| client_rpc_id := rpc_id (rpcId hd) |> in
    c ← nic_connect (server h) !! (u32 (client_node_id w + KEY2NODE_MOD), client_thread_id w);
    let w := w <| txn_reply_addr_strife := get_strife_send_addr c (client_rpc_id w) |>
               <| txn_reply_addr := get_send_addr c (TXID hd) |> in
    Some (w <| now_msg := deserialization (mem h) a (now_msg w) |>, h, true).

Definition reply_now_strife (w : worker_msg_t) (h : host) : option (worker_msg_t * host) :=
  h ← strife_down w h;
  h ← count_unless false (worker_thread_id w) h;
  let a := txn_reply_addr_strife w in
  Some (strife_next w, h <| mem := st 8 (mem h) a (ld 8 (mem h) a + 11) |>).

Definition next_now_strife (w : worker_msg_t) (h : host) : option (worker_msg_t * host) :=
  h ← strife_down w h; Some (strife_next w, h).

Definition worker_init_strife (id : Z) (w : worker_msg_t) : worker_msg_t :=
  w <| batch_req_num := 0 |> <| last_epoch_num := 0 |> <| my_strife_queue := id |>
    <| strife_msg_id := 0 |> <| cq_signal_id := 0 |>.

(** The [while (true)] of [count_strife], at most [fuel] iterations. *)
Fixpoint count_strife (fuel : nat) (w : worker_msg_t) (h : host) : option (worker_msg_t * host) :=
  match fuel with
  | O => None
  | S fuel =>
      q ← strife_dispatch h !! my_strife_queue w;
      if negb (Strife.check_now_message q (cq_signal_id w)) then Some (w, h)
      else
        b ← count (strife_batch h) (worker_thread_id w);
        count_strife fuel (w <| cq_signal_id := (cq_signal_id w + 1) mod strife_buf_num |>)
          (h <| strife_batch := b |>)
  end.

(** The three reading loops of [store_count] only add up words they read. *)
Definition store_count (w : worker_msg_t) (h : host) : option worker_msg_t :=
  let tmp := u64 (last_epoch_num w) in
  n ← read_count (strife_batch h) (worker_thread_id w);
  let w := w <| last_epoch_num := s32 n |> in
  Some (w <| batch_req_num := s32 (u64 (last_epoch_num w - tmp)) |>).

(** * Aborts *)

Definition worker_abort_key (p : feature_partitiont_t) (key : tx_key_t) (w : worker_msg_t) (h : host)
    : option (worker_msg_t * host) :=
  '(q, m) ← record_abort p (worker_thread_id w) (abort_queue w, model h) key;
  Some (w <| abort_queue := q |>, h <| model := m |>).

Definition worker_abort_key_ycsb (i : Z) (w : worker_msg_t) (h : host) : option (worker_msg_t * host) :=
  '(q, m) ← record_abort_ycsb (worker_thread_id w) (abort_queue w, model h)
             (get_ycsb_col_origin (mem h) (now_msg w) i, get_ycsb_key_origin (mem h) (now_msg w) i);
  Some (w <| abort_queue := q |>, h <| model := m |>).

End worker.

(** * tpcc_delivery_t *)

(** One warehouse's queue of raw [rpc_id_t] words; [head] is its producers'
    counter and [tail] the cell of the delivery worker. *)
Record tpcc_delivery_t := {
  d_head : gmap (Z * Z) Z; d_tail : gmap (Z * Z) Z; delivery_queue : gmap Z (gmap Z Z) }.

Section delivery.
Context {C : Config}.

Definition delivery_length : Z := 1024 * MAX_CLIENT * CLIENT_THREAD.
Definition delivery_empty : Z := 0xFFFFFFF.

Definition delivery_init_queue (q : gmap Z Z) : gmap Z Z :=
  for_range 0 delivery_length (fun j a => <[j := delivery_empty]> a) q.

Definition delivery_init (warehouse_num : Z) (d : tpcc_delivery_t) : tpcc_delivery_t :=
  for_range 0 warehouse_num (fun i d => {|
    d_head := <[(i, 0) := 0]> (d_head d); d_tail := <[(i, 0) := 0]> (d_tail d);
    delivery_queue := <[i := delivery_init_queue ∅]> (delivery_queue d) |}) d.

Definition delivery_check (w_id : Z) (d : tpcc_delivery_t) : option bool :=
  q ← delivery_queue d !! w_id;
  Some (negb (q.[(d_tail d).[(w_id, 0)]] =? delivery_empty)).

Definition push_new_delivery (w_id rpc_word : Z) (d : tpcc_delivery_t) : option tpcc_delivery_t :=
  q ← delivery_queue d !! w_id;
  let old := (d_head d).[(w_id, 0)] in
  Some {| d_head := <[(w_id, 0) := u64 (old + 1)]> (d_head d); d_tail := d_tail d;
          delivery_queue := <[w_id := <[old mod delivery_length := rpc_word]> q]> (delivery_queue d) |}.

(** The fields of the raw word. *)
Definition word_nodeid (v : Z) : Z := Z.land (Z.shiftr v 8) 0xFF.
Definition word_thread (v : Z) : Z := Z.land (Z.shiftr v 24) 0xFF.
Definition word_rpc_id (v : Z) : Z := Z.shiftr v 32.

(** [tpcc_reply_delivery[client][thread] = 1] is in the flags. *)
Definition reply_now_delivery (w_id tid : Z) (d : tpcc_delivery_t) (flags : gmap (Z * Z) Z) (h : host)
    : option (tpcc_delivery_t * gmap (Z * Z) Z * host) :=
  q ← delivery_queue d !! w_id;
  let off := (d_tail d).[(w_id, 0)] in
  let now := q.[off] in
  let d := {| d_head := d_head d;
              d_tail := <[(w_id, 0) := u64 ((d_tail d).[(w_id, 0)] + 1) mod delivery_length]> (d_tail d);
              delivery_queue := <[w_id := <[off := delivery_empty]> q]> (delivery_queue d) |} in
  p ← count (performance h) tid;
  c ← nic_connect (server h) !! (word_nodeid now, word_thread now);
  let a := get_strife_send_addr c (word_rpc_id now) in
  Some (d, <[(word_nodeid now - KEY2NODE_MOD, word_thread now) := 1]> flags,
        h <| performance := p |> <| mem := st 8 (mem h) a (ld 8 (mem h) a + 11) |>).

End delivery.

(** * Signed words *)

Lemma s32_mod z : s32 z mod 2 ^ 32 = z mod 2 ^ 32.
Proof.
  unfold s32. rewrite Zminus_mod, Zmod_mod, <-Zminus_mod. f_equal. lia.
Qed.

Lemma s32_ext a b : a mod 2 ^ 32 = b mod 2 ^ 32 -> s32 a = s32 b.
Proof. intros E. unfold s32. by rewrite (Zplus_mod a), (Zplus_mod b), E. Qed.

Lemma s32_small z : - 2 ^ 31 <= z < 2 ^ 31 -> s32 z = z.
Proof. intros H. unfold s32. rewrite Z.mod_small by lia. lia. Qed.

Lemma wrap_mod32 z : wrap 64 z mod 2 ^ 32 = z mod 2 ^ 32.
Proof.
  unfold wrap. apply Z.mod_mod_divide. by exists (2 ^ 32).
Qed.

Section counting.
Context {C : Config}.

(** [n] cells from [k] on hold requests and the next one is empty. *)
Definition arrived (q : strife_queue_t) (k n : Z) : Prop :=
  (forall j, 0 <= j < n -> Strife.check_now_message q ((k + j) mod strife_buf_num) = true) /\
  Strife.check_now_message q ((k + n) mod strife_buf_num) = false.

Lemma count_step l id c :
  read_count l id = Some c -> exists l', count l id = Some l' /\ read_count l' id = Some (u64 (c + 1)).
Proof.
  unfold read_count, count. destruct (req_count l !! id) as [a|]; [|done]. intros [= <-].
  eexists. split; [reflexivity|]. cbn [set_field req_count]. rewrite lookup_insert_eq. cbn [mbind option_bind].
  by rewrite rd_insert_eq.
Qed.

Lemma count_strife_loop n w h q c :
  strife_dispatch h !! my_strife_queue w = Some q -> 0 <= cq_signal_id w < strife_buf_num ->
  arrived q (cq_signal_id w) (Z.of_nat n) -> read_count (strife_batch h) (worker_thread_id w) = Some c ->
  uint 64 c ->
  exists w' h', (forall fuel, (n < fuel)%nat -> count_strife fuel w h = Some (w', h')) /\
    cq_signal_id w' = (cq_signal_id w + Z.of_nat n) mod strife_buf_num /\
    worker_thread_id w' = worker_thread_id w /\ last_epoch_num w' = last_epoch_num w /\
    strife_dispatch h' = strife_dispatch h /\
    read_count (strife_batch h') (worker_thread_id w) = Some (u64 (c + Z.of_nat n)).
Proof.
  revert w h c. induction n as [|n IH]; intros w h c Hq Hk [Hfull Hempty] Hc Hrange.
  - exists w, h. change (Z.of_nat 0) with 0 in *. rewrite Z.add_0_r, (Z.mod_small (cq_signal_id w)) in * by done.
    split_and!; try done.
    + intros fuel Hf. destruct fuel as [|fuel]; [lia|]. cbn [count_strife]. rewrite Hq.
      cbn [mbind option_bind]. by rewrite Hempty.
    + by rewrite Z.add_0_r, wrap_small.
  - destruct (count_step _ _ _ Hc) as (l' & El & Hc').
    set (w1 := w <| cq_signal_id := (cq_signal_id w + 1) mod strife_buf_num |>).
    set (h1 := h <| strife_batch := l' |>).
    destruct (IH w1 h1 (u64 (c + 1))) as (w' & h' & H1 & H2 & H3 & H4 & H5 & H6).
    + exact Hq.
    + apply Z.mod_pos_bound. reflexivity.
    + change (cq_signal_id w1) with ((cq_signal_id w + 1) mod strife_buf_num). split.
      * intros j Hj. rewrite Zplus_mod_idemp_l. replace (cq_signal_id w + 1 + j) with (cq_signal_id w + (j + 1)) by lia.
        apply Hfull. lia.
      * rewrite Zplus_mod_idemp_l. by replace (cq_signal_id w + 1 + Z.of_nat n) with (cq_signal_id w + Z.of_nat (S n)) by lia.
    + exact Hc'.
    + apply wrap_range. lia.
    + exists w', h'. split_and!; [| |exact H3|exact H4|exact H5|].
      * intros fuel Hf. destruct fuel as [|fuel]; [lia|]. cbn [count_strife]. rewrite Hq. cbn [mbind option_bind].
        specialize (Hfull 0 ltac:(lia)). rewrite Z.add_0_r, Z.mod_small in Hfull by done. rewrite Hfull.
        cbn [negb]. rewrite El. cbn [mbind option_bind]. apply (H1 fuel). lia.
      * rewrite H2. change (cq_signal_id w1) with ((cq_signal_id w + 1) mod strife_buf_num).
        rewrite Zplus_mod_idemp_l. f_equal. lia.
      * change (worker_thread_id w1) with (worker_thread_id w) in H6. rewrite H6, wrap_add_l by lia.
        do 2 f_equal. lia.
Qed.

(** the counting loop ends after the requests that have arrived (fuel above
    their number is enough) and counts each once; [store_count] then makes the
    size of the batch the number of requests counted since the batch before,
    here [c0] requests were counted when that batch was closed, also when the
    [int] counters have wrapped around. *)
Theorem batch_is_what_arrived (n : nat) (w : worker_msg_t) (h : host) (q : strife_queue_t) (c c0 : Z) :
  strife_dispatch h !! my_strife_queue w = Some q -> 0 <= cq_signal_id w < strife_buf_num ->
  arrived q (cq_signal_id w) (Z.of_nat n) ->
  read_count (strife_batch h) (worker_thread_id w) = Some c -> uint 64 c ->
  last_epoch_num w = s32 c0 -> 0 <= c + Z.of_nat n - c0 < 2 ^ 31 ->
  exists w' h' w'', (forall fuel, (n < fuel)%nat -> count_strife fuel w h = Some (w', h')) /\
    cq_signal_id w' = (cq_signal_id w + Z.of_nat n) mod strife_buf_num /\
    read_count (strife_batch h') (worker_thread_id w) = Some (u64 (c + Z.of_nat n)) /\
    store_count w' h' = Some w'' /\ batch_req_num w'' = c + Z.of_nat n - c0 /\
    last_epoch_num w'' = s32 (c + Z.of_nat n).
Proof.
  intros Hq Hk Harr Hc Hrange Hlast Hsmall.
  destruct (count_strife_loop n w h q c Hq Hk Harr Hc Hrange) as (w' & h' & H1 & H2 & H3 & H4 & _ & H6).
  assert (s32 (u64 (c + Z.of_nat n)) = s32 (c + Z.of_nat n)) as E by apply s32_ext, wrap_mod32.
  exists w', h'. unfold store_count. rewrite H3, H6. cbn [mbind option_bind]. eexists.
  split_and!; [done|done|done|reflexivity| |exact E].
  change (s32 (u64 (s32 (u64 (c + Z.of_nat n)) - u64 (last_epoch_num w'))) = c + Z.of_nat n - c0).
  rewrite E, H4, Hlast. transitivity (s32 (c + Z.of_nat n - c0)); [|apply s32_small; lia].
  apply s32_ext. rewrite wrap_mod32, Zminus_mod, wrap_mod32, !s32_mod, <-Zminus_mod. done.
Qed.
End counting.

(** Two requests in cells 65535 and 0 of worker 1's queue; the counter has
    just passed [2^31]. *)
Lemma batch_is_what_arrived_witness :
  let q := {| strife_message := <[1 := 0xFFFFFFFF]> (<[0 := 64]> (<[65535 := 32]> ∅)) |} in
  let h := (demo_host ycsb_alnico) <| strife_dispatch := <[1 := q]> ∅ |>
    <| strife_batch := (latency_new 24 0) <| req_count := <[1 := <[0 := 2 ^ 31]> ∅]> ∅ |> |> in
  exists w, cq_signal_id w = 65535 /\ exists w' h' w'', count_strife 9 w h = Some (w', h') /\
    cq_signal_id w' = 1 /\ store_count w' h' = Some w'' /\ batch_req_num w'' = 3.
Proof.
  intros q h.
  set (w := {| worker_thread_id := 1; txn_reply_addr := 0; txn_addr := 0; client_id := 0; slot_id := 0;
    now_msg := Msg.demo_msg; abort_queue := {| Feature.abort_queue_key := []; Feature.abort_depth := 0 |};
    msg_id := 0; my_fpga_queue := 0; batch_req_num := 0; last_epoch_num := 2 ^ 31 - 1; my_strife_queue := 1;
    strife_msg_id := 0; cq_signal_id := 65535; txn_reply_addr_strife := 0; client_node_id := 0;
    client_thread_id := 0; client_rpc_id := 0 |}).
  exists w. split; [reflexivity|].
  destruct (batch_is_what_arrived 2 w h q (2 ^ 31) (2 ^ 31 - 1))
    as (w' & h' & w'' & H1 & H2 & _ & H3 & H4 & _).
  - exact (lookup_insert_eq _ _ _).
  - vm_compute. split; congruence.
  - split; [|vm_compute; reflexivity]. intros j Hj. assert (j = 0 \/ j = 1) as [->| ->] by (cbn in Hj; lia);
      vm_compute; reflexivity.
  - vm_compute. reflexivity.
  - vm_compute. split; congruence.
  - vm_compute. reflexivity.
  - vm_compute. split; congruence.
  - exists w', h', w''. split_and!; [apply H1; lia|exact H2|exact H3|exact H4].
Defined.
