(* ===== verification/Reply.v ===== *)
(** [nic-sched/rpc_reply.cpp]: the thread that sends the replies to the
    clients, and [pollWithCQN] of [nic-sched/Operation.cpp].

    A worker answers a request by changing the [rpc_id] word of its reply block;
    the reply thread compares that word with the last one it has seen and writes
    the block to the client with a one-sided RDMA write.  Only the 24th write of
    a connection asks for a completion; [sendnum], [signalNum] count what is
    outstanding.

    libibverbs is not part of the repository: [ibv_post_send] and [ibv_poll_cq]
    are parameters that act on a world [W]. *)

From S2P Require Import Prelude Memory Config Ring Perf RpcCommon RpcConnect Central Worker.

(** * Data *)

#[export] Instance eta_ctx : Eta RdmaContext := fun c => {|
  ctx_lid := ctx_lid c; ctx_gid := ctx_gid c; signalNum := signalNum c |}.

(** An [ibv_send_wr] with its one scatter element; the opcode is always
    [IBV_WR_RDMA_WRITE]. *)
Record send_wr := {
  sw_wr_id : Z; sw_sge : sge; sw_remote_addr : Z; sw_rkey : Z; sw_signaled : bool; sw_inline : bool }.

#[export] Instance eta_send_wr : Eta send_wr := fun x => {|
  sw_wr_id := sw_wr_id x; sw_sge := sw_sge x; sw_remote_addr := sw_remote_addr x;
  sw_rkey := sw_rkey x; sw_signaled := sw_signaled x; sw_inline := sw_inline x |}.

(** [fillSgeWr] clears both structures. *)
Definition fillSgeWr (source size lkey : Z) : send_wr := {|
  sw_wr_id := 0; sw_sge := {| sge_addr := source; sge_length := u32 size; sge_lkey := lkey |};
  sw_remote_addr := 0; sw_rkey := 0; sw_signaled := false; sw_inline := false |}.

(** The static arrays of the file. *)
Record reply_arrays := {
  wr : gmap (Z * Z) send_wr; last_rpc_id : gmap (Z * Z) Z; wr_strife : gmap Z send_wr;
  tpcc_reply_delivery : gmap (Z * Z) Z }.

#[export] Instance eta_arrays : Eta reply_arrays := fun a => {|
  wr := wr a; last_rpc_id := last_rpc_id a; wr_strife := wr_strife a;
  tpcc_reply_delivery := tpcc_reply_delivery a |}.

Section reply.
Context {C : Config} {W : Type}.

(** [ibv_post_send(qp, wr)] and its return value; [ibv_poll_cq(send_cq, n, wc)]
    of the second context if the boolean is set, its return value and the
    [wr_id]s of the entries it filled. *)
Context (ibv_post_send : Z -> send_wr -> W -> Z * W)
        (ibv_poll_cq : bool -> Z -> W -> Z * list Z * W).

(** * Initialisation *)

Definition init_strife_queue (h : host) : host :=
  h <| strife_dispatch := for_range 0 (MAX_THREAD + 2) (fun i m =>
         <[i := Strife.init {| strife_message := ∅ |}]> m) ∅ |>.

Definition init_tpcc_delivery (a : reply_arrays) : reply_arrays :=
  a <| tpcc_reply_delivery := for_range 0 MAX_CLIENT (fun i m =>
         for_range 0 CLIENT_THREAD (fun j m => <[(i, j) := 0]> m) m) (tpcc_reply_delivery a) |>.

Definition init_wr (s : Rpc) (i j : Z) : option send_wr :=
  c ← client_connect s i;
  Some ((fillSgeWr (get_send_addr c j) sizeof_rpc_id_t (local_reply_key c))
          <| sw_wr_id := i |> <| sw_remote_addr := get_remote_reply_addr_by_id c j |>
          <| sw_rkey := remote_reply_key c |>).

Definition init_wr_strife (s : Rpc) (i : Z) : option send_wr :=
  c ← client_connect s i;
  Some ((fillSgeWr (get_strife_send_addr c 0) get_strife_reply_size (local_reply_key c))
          <| sw_wr_id := i |> <| sw_remote_addr := get_remote_reply_addr_by_id_strife c 0 |>
          <| sw_rkey := remote_reply_key c |>).

Definition init_strife (s : Rpc) (a : reply_arrays) : option reply_arrays :=
  for_opt 0 (MAX_CLIENT * CLIENT_THREAD) (fun i a =>
    x ← init_wr_strife s i; Some (a <| wr_strife := <[i := x]> (wr_strife a) |>)) a.

(** [reply_write] up to its [while (true)]. *)
Definition reply_write_init (s : Rpc) (a : reply_arrays) : option reply_arrays :=
  a ← for_opt 0 (MAX_CLIENT * CLIENT_THREAD) (fun i a =>
        for_opt 0 SLOT_NUM (fun j a =>
          x ← init_wr s i j; Some (a <| wr := <[(i, j) := x]> (wr a) |>)) a)
      (a <| last_rpc_id := ∅ |>);
  init_strife s a.

(** * Sending *)

(** [while (pollNumber > count)], at most [fuel] polls; the results are the
    return value and the [wr_id]s of the entries. *)
Fixpoint poll_entries (fuel : nat) (dual : bool) (n : Z) (wc : list Z) (w : W) : option (Z * list Z * W) :=
  if n <=? Z.of_nat (length wc) then Some (0, wc, w)
  else match fuel with
  | O => None
  | S fuel =>
      let '(ret, ids, w) := ibv_poll_cq dual (n - Z.of_nat (length wc)) w in
      if ret <? 0 then Some (-1, wc, w) else poll_entries fuel dual n (wc ++ ids) w
  end.

Definition pollWithCQN (fuel : nat) (dual : bool) (n : Z) (w : W) : option (Z * list Z * W) :=
  if n =? 0 then Some (0, [], w) else poll_entries fuel dual n [] w.

(** The two contexts of the server. *)
Definition ctx_of (dual : bool) (s : Rpc) : RdmaContext := if dual then context_dual s else context s.
Definition set_signalNum (dual : bool) (n : Z) (s : Rpc) : Rpc :=
  if dual then s <| context_dual := (context_dual s) <| signalNum := n |> |>
  else s <| context := (context s) <| signalNum := n |> |>.

Definition set_connect (k : Z * Z) (c : Connect) (s : Rpc) : Rpc :=
  s <| nic_connect := <[k := c]> (nic_connect s) |>.

(** The completion of the write with [wr_id] [id]. *)
Definition complete (s : Rpc) (id : Z) : option Rpc :=
  let '(c, k) := if MAX_CLIENT * CLIENT_THREAD <=? id
                 then (id - MAX_CLIENT * CLIENT_THREAD, 1) else (id, BatchPollSend) in
  let key := (c / CLIENT_THREAD + KEY2NODE_MOD, c mod CLIENT_THREAD) in
  x ← nic_connect s !! key;
  Some (set_connect key (x <| sendnum := u64 (sendnum x - k) |>) s).

(** The [do ... while (true)] of [poll_signal]; the early return tests
    [context.signalNum] whatever the context polled. *)
Fixpoint poll_loop (fuel : nat) (dual : bool) (key : Z * Z) (pollflag sync_op : bool)
    (poll_num : Z) (wc : list Z) (s : Rpc) (w : W) : option (Rpc * W * bool) :=
  match fuel with
  | O => None
  | S fuel' =>
      s ← foldl (fun s id => s ← s; complete s id) (Some s) wc;
      let s := set_signalNum dual (u64 (signalNum (ctx_of dual s) - poll_num)) s in
      c ← nic_connect s !! key;
      if (sendnum c <? BatchPollSend) && pollflag then Some (s, w, true)
      else if (signal_num c =? 0) && sync_op then Some (s, w, true)
      else if (signalNum (context s) <? BatchSignalSend) && negb sync_op && negb pollflag
      then Some (s, w, true)
      else
        '(tmp, wc, w) ← pollWithCQN fuel' dual 1 w;
        if tmp =? -1 then Some (s, w, false)
        else poll_loop fuel' dual key pollflag sync_op 1 wc s w
  end.

(** [signalNum + 1 / 2] is [signalNum]; [min] takes 32-bit arguments. *)
Definition poll_signal (fuel : nat) (dual : bool) (key : Z * Z) (pollflag sync_op : bool)
    (s : Rpc) (w : W) : option (Rpc * W * bool) :=
  if pollflag || sync_op || (2 * BatchSignalSend <=? signalNum (ctx_of dual s)) then
    let poll_num := Z.min BatchSignalSend (u32 (signalNum (ctx_of dual s) + 1 / 2)) in
    '(tmp, wc, w) ← pollWithCQN fuel dual poll_num w;
    if tmp =? -1 then Some (s, w, false)
    else poll_loop fuel dual key pollflag sync_op poll_num wc s w
  else Some (s, w, true).

(** [None] also stands for the [exit(1)] after a failed post.  The request is
    an element of a static array: its flags stay as they were set. *)
Definition rdma_write_reply_nictx (fuel : nat) (dual : bool) (key : Z * Z) (x : send_wr)
    (inline_flag : bool) (s : Rpc) (w : W) : option (Rpc * send_wr * W) :=
  c ← nic_connect s !! key;
  let c := c <| sendnum := u64 (sendnum c + 1) |> in
  let signaled := sendnum c =? BatchPollSend in
  let c := if signaled then c <| signal_num := u64 (signal_num c + 1) |> else c in
  let s := set_connect key c s in
  let s := if signaled then set_signalNum dual (u64 (signalNum (ctx_of dual s) + 1)) s else s in
  let x := x <| sw_signaled := signaled |> <| sw_inline := inline_flag |> in
  let pollflag := sendnum c =? 2 * BatchPollSend - 1 in
  let '(ret, w) := ibv_post_send (qp c) x w in
  if negb (ret =? 0) then None
  else '(s, w, _) ← poll_signal fuel dual key pollflag false s w; Some (s, x, w).

(** * The loops *)

(** The shared memory does not change during a call: [m] is its value when
    the words are read. *)
Record reply_st := { rs_server : Rpc; rs_arrays : reply_arrays; rs_world : W }.

Definition conn_key (i : Z) : Z * Z := (i / CLIENT_THREAD + KEY2NODE_MOD, i mod CLIENT_THREAD).
Definition second_half (i : Z) : bool := MAX_CLIENT * CLIENT_THREAD / 2 <=? i.

(** The body of the two [for] loops of [reply_write]. *)
Definition reply_slot (fuel : nat) (m : memory) (i j : Z) (st : reply_st) : option reply_st :=
  let s := rs_server st in let a := rs_arrays st in
  c ← nic_connect s !! conn_key i;
  let addr := get_send_addr c j in
  let now := load_rpc_id m addr in
  if rpc_id now =? (last_rpc_id a).[(i, j)] then Some st
  else
    x ← wr a !! (i, j);
    let x := if YCSBplusT then
               x <| sw_sge := {| sge_addr := sge_addr (sw_sge x);
                      sge_length := u32 (sizeof_rpc_id_t + rpc_type now * 384);
                      sge_lkey := sge_lkey (sw_sge x) |} |>
             else x in
    let inline_flag := NULLRPC || negb YCSBplusT in
    let a := a <| last_rpc_id := <[(i, j) := rpc_id now]> (last_rpc_id a) |> in
    '(s, x, w) ← rdma_write_reply_nictx fuel (second_half i) (conn_key i) x inline_flag s (rs_world st);
    Some {| rs_server := s; rs_arrays := a <| wr := <[(i, j) := x]> (wr a) |>; rs_world := w |}.

Definition reply_pass (fuel : nat) (m : memory) (st : reply_st) : option reply_st :=
  for_opt 0 (MAX_CLIENT * CLIENT_THREAD) (fun i st =>
    for_opt 0 SLOT_NUM (fun j st => reply_slot fuel m i j st) st) st.

(** One request of [wr_strife]. *)
Definition send_strife (fuel : nat) (i : Z) (st : reply_st) : option reply_st :=
  let a := rs_arrays st in
  x ← wr_strife a !! i;
  '(s, x, w) ← rdma_write_reply_nictx fuel (second_half i) (conn_key i) x false
                 (rs_server st) (rs_world st);
  Some {| rs_server := s; rs_arrays := a <| wr_strife := <[i := x]> (wr_strife a) |>; rs_world := w |}.

Definition tpcc_reply (fuel : nat) (st : reply_st) : option reply_st :=
  for_opt 0 (MAX_CLIENT * CLIENT_THREAD) (fun i st =>
    let a := rs_arrays st in let k := (i / CLIENT_THREAD, i mod CLIENT_THREAD) in
    if (tpcc_reply_delivery a).[k] =? 1 then
      send_strife fuel i {| rs_server := rs_server st;
        rs_arrays := a <| tpcc_reply_delivery := <[k := 0]> (tpcc_reply_delivery a) |>;
        rs_world := rs_world st |}
    else Some st) st.

Definition reply_write_strife (fuel : nat) (st : reply_st) : option reply_st :=
  for_opt 0 (MAX_CLIENT * CLIENT_THREAD) (send_strife fuel) st.

(** The rest of a round of [reply_write] in the builds other than Strife. *)
Definition reply_round (fuel : nat) (m : memory) (st : reply_st) : option reply_st :=
  st ← reply_pass fuel m st;
  if (CPUBASED =? 3) || YCSBplusT then Some st else tpcc_reply fuel st.

End reply.
