(* ===== verification/ReplyProps.v ===== *)
(** The reply thread: completions are accounted for, the send queues stay
    bounded, and every reply is written to its client exactly once. *)

From stdpp Require Import sorting.
From S2P Require Import Prelude Memory Config Ring Perf RpcCommon RpcConnect Central CentralProps Worker Reply.

#[local] Set Default Proof Using "Type*".

(** * What libibverbs promises *)

(** [pending d w]: the signalled writes of context [d] whose completion has not
    been polled; [posted w]: the writes handed to the card so far, with their
    queue pair; [delay d w]: how many more polls of context [d] may come back
    empty while a completion is due. *)
Class Verbs (W : Type) := {
  ibv_post_send : Z -> send_wr -> W -> Z * W;
  ibv_poll_cq : bool -> Z -> W -> Z * list Z * W;
  qp_dual : Z -> bool;
  pending : bool -> W -> list Z;
  posted : W -> list (Z * send_wr);
  delay : bool -> W -> nat }.

(** A post of a request to a connected queue pair with room returns 0 and queues
    the request; a poll returns completions that are waiting.  The errors that the
    library may report are not in these laws: after a failed post the program exits
    ([None] in the model), and a failed poll is reported and given up. *)
Class VerbsLaws (W : Type) `{!Verbs W} : Prop := {
  post_ok : forall q x (w : W), (ibv_post_send q x w).1 = 0;
  post_pending : forall d q x (w : W),
    pending d (ibv_post_send q x w).2
    = if bool_decide (d = qp_dual q) && sw_signaled x then pending d w ++ [sw_wr_id x] else pending d w;
  post_posted : forall q x (w : W), posted (ibv_post_send q x w).2 = posted w ++ [(q, x)];
  poll_spec : forall d n (w w' : W) ret ids, 0 < n -> ibv_poll_cq d n w = (ret, ids, w') ->
    ret = Z.of_nat (length ids) /\ Z.of_nat (length ids) <= n /\
    pending d w ≡ₚ ids ++ pending d w' /\ pending (negb d) w' = pending (negb d) w /\
    posted w' = posted w /\
    (pending d w <> [] -> ids = [] -> (delay d w' < delay d w)%nat) }.

Section connections.
Context {C : Config} {CO : ConfigOk C}.

(** ** Connections *)

Local Abbreviation N := (MAX_CLIENT * CLIENT_THREAD).

Lemma conn_key_inj g g' : conn_key g = conn_key g' -> g = g'.
Proof.
  pose proof sizes_small as (_ & P2 & _). unfold conn_key. intros [= E1 E2].
  rewrite (Z.div_mod g CLIENT_THREAD), (Z.div_mod g' CLIENT_THREAD) by lia. nia.
Qed.

Lemma client_connect_set g g' c s :
  client_connect (set_connect (conn_key g) c s) g'
  = if decide (g = g') then Some c else client_connect s g'.
Proof.
  change (<[conn_key g := c]> (nic_connect s) !! conn_key g' = if decide (g = g') then Some c else client_connect s g').
  case_decide as E; [subst; apply lookup_insert_eq|].
  apply lookup_insert_ne. by intros ?%conn_key_inj.
Qed.

(** [c'] is [c] up to its two send counters. *)
Definition same_conn (c c' : Connect) : Prop :=
  exists n k, c' = c <| sendnum := n |> <| signal_num := k |>.

Lemma same_conn_refl c : same_conn c c.
Proof. exists (sendnum c), (signal_num c). by destruct c. Qed.

Lemma same_conn_trans c1 c2 c3 : same_conn c1 c2 -> same_conn c2 c3 -> same_conn c1 c3.
Proof. intros (n & k & ->) (n' & k' & ->). by exists n', k'. Qed.

Definition same_conns (s s' : Rpc) : Prop :=
  forall g, match client_connect s g, client_connect s' g with
            | Some c, Some c' => same_conn c c'
            | None, None => True
            | _, _ => False
            end.

Lemma same_conns_refl s : same_conns s s.
Proof. intros g. destruct (client_connect s g); [apply same_conn_refl|done]. Qed.

Lemma same_conns_trans s1 s2 s3 : same_conns s1 s2 -> same_conns s2 s3 -> same_conns s1 s3.
Proof.
  intros H1 H2 g. specialize (H1 g). specialize (H2 g).
  destruct (client_connect s1 g), (client_connect s2 g), (client_connect s3 g); try done.
  by eapply same_conn_trans.
Qed.

Lemma same_conns_set g c c' s :
  client_connect s g = Some c -> same_conn c c' -> same_conns s (set_connect (conn_key g) c' s).
Proof.
  intros Hc HS g'. rewrite client_connect_set. case_decide as E.
  - subst. by rewrite Hc.
  - destruct (client_connect s g'); [apply same_conn_refl|done].
Qed.

Lemma same_conns_signal d n s : same_conns s (set_signalNum d n s).
Proof. pose proof (same_conns_refl s) as H. by destruct d. Qed.

(** ** Completions *)

Definition completed (c : Connect) : Connect := c <| sendnum := u64 (sendnum c - BatchPollSend) |>.

Lemma complete_spec s g c :
  0 <= g < N -> client_connect s g = Some c ->
  complete s g = Some (set_connect (conn_key g) (completed c) s).
Proof.
  intros Hg Hc. unfold complete. assert ((N <=? g) = false) as -> by (apply Z.leb_gt; lia).
  change (nic_connect s !! (g / CLIENT_THREAD + KEY2NODE_MOD, g mod CLIENT_THREAD)) with (client_connect s g).
  by rewrite Hc.
Qed.

Lemma complete_all ids s :
  NoDup ids -> (forall g, g ∈ ids -> 0 <= g < N /\ is_Some (client_connect s g)) ->
  exists s', foldl (fun s id => s ← s; complete s id) (Some s) ids = Some s' /\
    same_conns s s' /\ (forall d, ctx_of d s' = ctx_of d s) /\
    forall g, client_connect s' g
      = if decide (g ∈ ids) then completed <$> client_connect s g else client_connect s g.
Proof.
  revert s. induction ids as [|g ids IH]; intros s HN HC.
  { exists s. split_and!; [done|apply same_conns_refl|done|]. intros g. by rewrite decide_False by set_solver. }
  apply NoDup_cons in HN as [HN1 HN2].
  destruct (HC g) as [Hg [c Hc]]; [by left|].
  destruct (IH (set_connect (conn_key g) (completed c) s) HN2) as (s' & E & F & X & L).
  { intros g' Hg'. split; [apply HC; by right|]. rewrite client_connect_set.
    case_decide; [done|]. apply HC. by right. }
  exists s'. cbn [foldl]. cbn [mbind option_bind]. rewrite (complete_spec s g c Hg Hc).
  split_and!; [exact E| |done|].
  - eapply same_conns_trans; [|exact F]. apply (same_conns_set g c); [done|].
    exists (u64 (sendnum c - BatchPollSend)), (signal_num c). by destruct c.
  - intros g'. rewrite L, client_connect_set. destruct (decide (g = g')) as [->|Hne].
    + rewrite decide_False, decide_True by set_solver. by rewrite Hc.
    + destruct (decide (g' ∈ ids)); [rewrite decide_True by set_solver|rewrite decide_False by set_solver];
        done.
Qed.
End connections.

Lemma list_length_nil_r {A} (l ids r : list A) : l ≡ₚ ids ++ r -> (length l <= length ids)%nat -> l ≡ₚ ids.
Proof.
  intros H HL. assert (r = []) as ->; [|by rewrite app_nil_r in H].
  apply length_zero_iff_nil. apply Permutation_length in H. rewrite length_app in H. lia.
Qed.

Section accounting.
Context {C : Config} {CO : ConfigOk C} {W : Type} `{!Verbs W, !VerbsLaws W}.

Local Abbreviation N := (MAX_CLIENT * CLIENT_THREAD).
Local Abbreviation poll_entries := (poll_entries ibv_poll_cq).
Local Abbreviation rdma_write_reply := (rdma_write_reply_nictx ibv_post_send ibv_poll_cq).

(** ** Polling *)

Definition polled (d : bool) (w w' : W) (ids : list Z) : Prop :=
  pending d w ≡ₚ ids ++ pending d w' /\ pending (negb d) w' = pending (negb d) w /\ posted w' = posted w.

Lemma polled_refl d w : polled d w w [].
Proof. done. Qed.

Lemma polled_app d w w1 w2 l1 l2 : polled d w w1 l1 -> polled d w1 w2 l2 -> polled d w w2 (l1 ++ l2).
Proof.
  intros (H1 & H2 & H3) (K1 & K2 & K3). split; [|split; congruence].
  by rewrite H1, K1, (assoc_L (++)).
Qed.

Lemma poll_entries_all d n (w : W) (wc : list Z) :
  0 <= n -> Z.of_nat (length wc) <= n <= Z.of_nat (length wc + length (pending d w)) ->
  exists k ids w', (forall fuel, (k <= fuel)%nat -> poll_entries fuel d n wc w = Some (0, wc ++ ids, w')) /\
    Z.of_nat (length (wc ++ ids)) = n /\ polled d w w' ids.
Proof.
  intros Hn. remember (Z.to_nat n - length wc)%nat as r eqn:Er.
  revert w wc Er. induction (lt_wf r) as [r _ IHr]. intros w wc Er Hlen.
  destruct (decide (Z.of_nat (length wc) = n)) as [E|Hne].
  { exists 0%nat, [], w. rewrite app_nil_r. split_and!; [|done|apply polled_refl].
    intros fuel _. assert ((n <=? Z.of_nat (length wc)) = true) as Hle by (apply Z.leb_le; lia).
    destruct fuel; cbn [Reply.poll_entries]; by rewrite Hle. }
  remember (delay d w) as dl eqn:Ed. revert w Hlen Ed.
  induction (lt_wf dl) as [dl _ IHd]. intros w Hlen Ed.
  destruct (ibv_poll_cq d (n - Z.of_nat (length wc)) w) as [[ret ids] w1] eqn:EP.
  destruct (poll_spec d (n - Z.of_nat (length wc)) w w1 ret ids ltac:(lia) EP) as (R1 & R2 & R3 & R4 & R5 & R6).
  pose proof (Permutation_length R3) as RL. rewrite length_app in RL.
  assert (exists k ids' w', (forall fuel, (k <= fuel)%nat ->
      poll_entries fuel d n (wc ++ ids) w1 = Some (0, (wc ++ ids) ++ ids', w')) /\
      Z.of_nat (length ((wc ++ ids) ++ ids')) = n /\ polled d w1 w' ids') as (k & ids' & w' & K1 & K2 & K3).
  { destruct (decide (ids = [])) as [->|Hids].
    - rewrite app_nil_r. refine (IHd _ _ w1 _ eq_refl); [|cbn [length] in RL; lia].
      rewrite Ed. apply R6; [|done]. intros E0. rewrite E0 in Hlen. cbn in Hlen. lia.
    - assert (length ids <> 0%nat) by (destruct ids; [done|cbn; lia]).
      eapply IHr; [|reflexivity|]; rewrite length_app; lia. }
  exists (S k), (ids ++ ids'), w'. rewrite (assoc_L (++)). split_and!; [|done|].
  - intros fuel Hf. destruct fuel as [|fuel]; [lia|]. cbn [Reply.poll_entries].
    assert ((n <=? Z.of_nat (length wc)) = false) as -> by (apply Z.leb_gt; lia).
    rewrite EP. assert ((ret <? 0) = false) as -> by (apply Z.ltb_ge; lia). apply K1. lia.
  - by eapply polled_app.
Qed.


(** ** The invariant *)

(** [sendnum] is the number of writes since the last polled completion: at most
    [lim g] for client [g]; the completions that are due are those of the
    clients with at least [BatchPollSend] of them, and [signalNum] counts
    them. *)
Record acct (lim : Z -> Z) (s : Rpc) (w : W) : Prop := {
  acct_conn : forall g, 0 <= g < N -> exists c, client_connect s g = Some c /\
    0 <= sendnum c <= lim g /\ qp_dual (qp c) = second_half g;
  acct_pending : forall d g, g ∈ pending d w <->
    (0 <= g < N /\ second_half g = d) /\
    exists c, client_connect s g = Some c /\ BatchPollSend <= sendnum c;
  acct_nodup : forall d, NoDup (pending d w);
  acct_signal : forall d, signalNum (ctx_of d s) = Z.of_nat (length (pending d w)) }.

Definition limit (_ : Z) : Z := 2 * BatchPollSend - 2.
Definition limit_at (g g' : Z) : Z := if decide (g' = g) then 2 * BatchPollSend - 1 else 2 * BatchPollSend - 2.

Lemma pending_clients lim s w d : acct lim s w -> Z.of_nat (length (pending d w)) <= N.
Proof.
  intros H. pose proof sizes_small as (_ & P2 & _ & _ & _ & _ & _ & E2 & _).
  assert (pending d w ⊆ seqZ 0 N) as Hsub.
  { intros g Hg%(acct_pending _ _ _ H). apply elem_of_seqZ. lia. }
  pose proof (submseteq_length _ _ (NoDup_submseteq _ _ (acct_nodup _ _ _ H d) Hsub)) as HL.
  rewrite length_seqZ in HL. lia.
Qed.

Lemma pending_few lim s w d : acct lim s w -> Z.of_nat (length (pending d w)) <= 48.
Proof.
  intros H%(pending_clients _ _ _ d). pose proof sizes_small as (_ & P2 & _ & _ & _ & _ & _ & E2 & _). lia.
Qed.

(** The counters after the increment of [rdma_write_reply_nictx]. *)
Definition counted (d : bool) (g : Z) (c : Connect) (s : Rpc) : Connect * Rpc :=
  let c := c <| sendnum := u64 (sendnum c + 1) |> in
  let signaled := sendnum c =? BatchPollSend in
  let c := if signaled then c <| signal_num := u64 (signal_num c + 1) |> else c in
  let s := set_connect (conn_key g) c s in
  (c, if signaled then set_signalNum d (u64 (signalNum (ctx_of d s) + 1)) s else s).

Lemma ctx_of_set d d' n s :
  signalNum (ctx_of d (set_signalNum d' n s)) = if decide (d = d') then n else signalNum (ctx_of d s).
Proof. by destruct d, d'. Qed.

Lemma client_connect_signal d n s g : client_connect (set_signalNum d n s) g = client_connect s g.
Proof. by destruct d. Qed.

Lemma counted_spec d g c s :
  client_connect s g = Some c -> 0 <= sendnum c <= limit g ->
  let '(c', s') := counted d g c s in
  same_conns s s' /\ qp c' = qp c /\ sendnum c' = sendnum c + 1 /\
  (forall g', client_connect s' g' = if decide (g = g') then Some c' else client_connect s g') /\
  (forall d', signalNum (ctx_of d' s')
     = if decide (d' = d /\ sendnum c' = BatchPollSend)
       then u64 (signalNum (ctx_of d s) + 1) else signalNum (ctx_of d' s)).
Proof.
  intros Hc Hn. unfold counted, limit, BatchPollSend in *.
  set (c1 := c <| sendnum := u64 (sendnum c + 1) |>).
  assert (sendnum c1 = sendnum c + 1) as E1.
  { change (u64 (sendnum c + 1) = sendnum c + 1). apply wrap_small. unfold uint. lia. }
  assert (same_conn c c1) as S1 by (exists (u64 (sendnum c + 1)), (signal_num c); by destruct c).
  assert (qp c1 = qp c) as Q1 by done.
  clearbody c1. destruct (Z.eqb_spec (sendnum c1) 24) as [E|E].
  - set (c2 := c1 <| signal_num := u64 (signal_num c1 + 1) |>).
    assert (same_conn c c2) as S2.
    { eapply same_conn_trans; [exact S1|]. exists (sendnum c1), (u64 (signal_num c1 + 1)). by destruct c1. }
    assert (sendnum c2 = sendnum c1) as E2 by done. assert (qp c2 = qp c1) as Q2 by done. clearbody c2.
    split_and!; [|congruence|congruence| |].
    + eapply same_conns_trans; [by apply (same_conns_set g c)|apply same_conns_signal].
    + intros g'. rewrite client_connect_signal. apply client_connect_set.
    + intros d'. rewrite ctx_of_set. destruct (decide (d' = d)) as [->|Hd].
      * rewrite decide_True by (split; congruence). by destruct d.
      * rewrite decide_False by (intros [? _]; done). by destruct d'.
  - split_and!; [by apply (same_conns_set g c)|done|done|intros g'; apply client_connect_set|].
    intros d'. rewrite decide_False by (intros [_ ?]; done). by destruct d'.
Qed.

Lemma post_acct g c x s w :
  acct limit s w -> 0 <= g < N -> client_connect s g = Some c -> sw_wr_id x = g ->
  sw_signaled x = (sendnum (counted (second_half g) g c s).1 =? BatchPollSend) ->
  acct (limit_at g) (counted (second_half g) g c s).2
    (ibv_post_send (qp (counted (second_half g) g c s).1) x w).2.
Proof.
  intros H Hg Hc Hid Hsig. destruct (acct_conn _ _ _ H g Hg) as (c0 & Hc0 & Hn & Hq).
  rewrite Hc in Hc0. injection Hc0 as <-.
  pose proof (counted_spec (second_half g) g c s Hc Hn) as HS.
  pose proof (pending_few _ _ _ (second_half g) H) as Hfew.
  destruct (counted (second_half g) g c s) as [c' s']. cbn [fst snd] in *.
  destruct HS as (_ & Q & E & L & X). unfold limit, BatchPollSend in *.
  assert (forall d, pending d (ibv_post_send (qp c') x w).2
    = if decide (d = second_half g /\ sendnum c' = 24) then pending d w ++ [g] else pending d w) as HP.
  { intros d. rewrite post_pending, Q, Hq, Hsig, Hid.
    destruct (Z.eqb_spec (sendnum c') 24); repeat case_decide; repeat case_bool_decide; naive_solver. }
  assert (g ∉ pending (second_half g) w \/ sendnum c' <> 24) as Hfresh.
  { destruct (decide (sendnum c' = 24)); [left|by right].
    intros (_ & c0 & Hc0 & Hge)%(acct_pending _ _ _ H). unfold BatchPollSend in Hge.
    rewrite Hc in Hc0. injection Hc0 as <-. lia. }
  split.
  - intros g' Hg'. rewrite L. unfold limit_at, BatchPollSend. destruct (decide (g = g')) as [<-|Hne].
    + exists c'. rewrite decide_True by done. split_and!; [done|lia|lia|congruence].
    + rewrite decide_False by done. exact (acct_conn _ _ _ H g' Hg').
  - intros d g'. rewrite HP, L.
    transitivity (g' ∈ pending d w \/ (g' = g /\ d = second_half g /\ sendnum c' = 24)).
    { destruct (decide (d = second_half g /\ sendnum c' = 24)) as [K|K];
        [rewrite elem_of_app, list_elem_of_singleton|]; naive_solver. }
    rewrite (acct_pending _ _ _ H). unfold BatchPollSend. destruct (decide (g = g')) as [<-|Hne].
    + split.
      * intros [(K1 & c0 & K2 & K3)|(_ & -> & K)]; (split; [try done|exists c'; split; [done|]]).
        -- rewrite Hc in K2. injection K2 as <-. lia.
        -- lia.
      * intros (K1 & c0 & K2 & K3). injection K2 as <-.
        destruct (decide (sendnum c' = 24)); [right; split_and!; [done|by destruct K1|done]|left].
        split; [done|]. exists c. split; [done|lia].
    + naive_solver.
  - intros d. rewrite HP. destruct (decide (d = second_half g /\ sendnum c' = 24)) as [[-> K]|K]; [|apply H].
    apply NoDup_app. split_and!; [apply H| |apply NoDup_singleton].
    intros g' Hg' ->%list_elem_of_singleton. destruct Hfresh; naive_solver.
  - intros d. rewrite HP, X.
    destruct (decide (d = second_half g /\ sendnum c' = 24)) as [[-> K]|K]; [|apply H].
    rewrite (acct_signal _ _ _ H), length_app. cbn [length]. rewrite wrap_small by (unfold uint; lia). lia.
Qed.

(** All the completions of a context were polled. *)
Lemma drained_acct lim d s s' w w' ids :
  acct lim s w -> (forall g, lim g <= 2 * BatchPollSend - 1) -> polled d w w' ids ->
  length ids = length (pending d w) -> (forall d', ctx_of d' s' = ctx_of d' s) ->
  (forall g, client_connect s' g
     = if decide (g ∈ ids) then completed <$> client_connect s g else client_connect s g) ->
  (forall g, 0 <= g < N -> second_half g <> d -> lim g <= limit g) ->
  acct limit (set_signalNum d 0 s') w'.
Proof.
  intros H Hlim (P1 & P2 & _) HL HX HC Hother.
  assert (pending d w' = []) as E0.
  { apply length_zero_iff_nil. apply Permutation_length in P1. rewrite length_app in P1. lia. }
  rewrite E0, app_nil_r in P1.
  assert (forall g, g ∈ ids <-> (0 <= g < N /\ second_half g = d) /\
    exists c, client_connect s g = Some c /\ BatchPollSend <= sendnum c) as Hids.
  { intros g. rewrite <-P1. apply (acct_pending _ _ _ H). }
  assert (forall d', d' <> d -> pending d' w' = pending d' w) as E1.
  { intros d' Hd. assert (d' = negb d) as -> by by destruct d, d'. done. }
  assert (forall g c, second_half g <> d -> client_connect s' g = Some c <-> client_connect s g = Some c) as Hfar.
  { intros g c Hg. rewrite HC. rewrite decide_False; [done|]. intros ((_ & ?) & _)%Hids. done. }
  split.
  - intros g Hg. destruct (acct_conn _ _ _ H g Hg) as (c & Hc & Hn & Hq).
    specialize (Hlim g). rewrite client_connect_signal, HC, Hc. unfold limit, BatchPollSend in *.
    destruct (decide (g ∈ ids)) as [K|K].
    + apply Hids in K as (_ & c0 & Hc0 & Hge). rewrite Hc in Hc0. injection Hc0 as <-.
      exists (completed c). split; [done|]. unfold BatchPollSend in Hge.
      change (0 <= u64 (sendnum c - 24) <= 2 * 24 - 2 /\ qp_dual (qp c) = second_half g).
      rewrite wrap_small by (unfold uint; lia). split; [lia|done].
    + exists c. split_and!; [done|lia| |done]. destruct (decide (second_half g = d)) as [Hd|Hd].
      * destruct (decide (24 <= sendnum c)); [|lia]. exfalso. apply K, Hids. split; [done|]. by exists c.
      * specialize (Hother g Hg Hd). unfold BatchPollSend in Hother. lia.
  - intros d' g. destruct (decide (d' = d)) as [->|Hd].
    + rewrite E0. split; [by intros ?%not_elem_of_nil|]. intros ((Hg & Hd) & c & Hc & Hge).
      rewrite client_connect_signal, HC in Hc.
      destruct (acct_conn _ _ _ H g Hg) as (c0 & Hc0 & Hn & _). rewrite Hc0 in Hc.
      specialize (Hlim g). unfold BatchPollSend in *. destruct (decide (g ∈ ids)) as [K|K].
      * apply Hids in K as (_ & c1 & Hc1 & Hge1). rewrite Hc0 in Hc1. injection Hc1 as <-.
        injection Hc as <-. change (24 <= u64 (sendnum c0 - 24)) in Hge.
        rewrite wrap_small in Hge by (unfold uint; lia). lia.
      * injection Hc as <-. exfalso. apply K, Hids. split; [done|]. by exists c0.
    + rewrite (E1 d' Hd), (acct_pending _ _ _ H). split; (intros ((Hg & <-) & c & Hc & Hge); split; [done|];
        exists c; split; [|done]); rewrite client_connect_signal in *; by apply Hfar.
  - intros d'. destruct (decide (d' = d)) as [->|Hd]; [rewrite E0; apply NoDup_nil_2|].
    rewrite (E1 d' Hd). apply H.
  - intros d'. rewrite ctx_of_set. destruct (decide (d' = d)) as [->|Hd]; [by rewrite E0|].
    rewrite HX, (E1 d' Hd). apply H.
Qed.

Lemma poll_idle g s w c :
  acct (limit_at g) s w -> client_connect s g = Some c -> sendnum c <> 2 * BatchPollSend - 1 ->
  acct limit s w.
Proof.
  intros H Hc Hn. split; [|apply H..]. intros g' Hg'.
  destruct (acct_conn _ _ _ H g' Hg') as (c' & Hc' & Hn' & Hq). exists c'. split_and!; [done|lia| |done].
  unfold limit, limit_at, BatchPollSend in *. destruct (decide (g' = g)) as [->|]; [|lia].
  rewrite Hc in Hc'. injection Hc' as <-. lia.
Qed.

Lemma poll_acct g s w c :
  acct (limit_at g) s w -> 0 <= g < N -> client_connect s g = Some c ->
  exists k s' w' b, (forall fuel, (k <= fuel)%nat ->
    poll_signal ibv_poll_cq fuel (second_half g) (conn_key g) (sendnum c =? 2 * BatchPollSend - 1) false s w
    = Some (s', w', b)) /\
  acct limit s' w' /\ same_conns s s' /\ posted w' = posted w.
Proof.
  intros H Hg Hc. pose proof (pending_few _ _ _ (second_half g) H) as Hfew.
  set (d := second_half g) in *.
  assert (signalNum (ctx_of d s) = Z.of_nat (length (pending d w))) as HS by apply H.
  unfold poll_signal. rewrite HS. destruct (Z.eqb_spec (sendnum c) (2 * BatchPollSend - 1)) as [E|E].
  2: { exists 0%nat, s, w, true. split_and!; [|by eapply poll_idle|apply same_conns_refl|done]. intros fuel _.
       cbn [orb]. assert ((2 * BatchSignalSend <=? Z.of_nat (length (pending d w))) = false) as ->; [|done].
       apply Z.leb_gt. unfold BatchSignalSend. lia. }
  assert (Z.min BatchSignalSend (u32 (Z.of_nat (length (pending d w)) + 1 / 2))
    = Z.of_nat (length (pending d w))) as ->.
  { change (1 / 2) with 0. rewrite wrap_small by (unfold uint; lia). unfold BatchSignalSend. lia. }
  assert (g ∈ pending d w) as Hin.
  { apply (acct_pending _ _ _ H). split; [done|]. exists c. split; [done|]. unfold BatchPollSend in *. lia. }
  destruct (poll_entries_all d (Z.of_nat (length (pending d w))) w []) as (k & ids & w' & HP & HL & HP2);
    [lia|cbn; lia|]. cbn [app] in HP, HL.
  destruct HP2 as (P1 & P2 & P3).
  assert (ids ⊆ pending d w) as Hsub by (intros x Hx; rewrite P1; apply elem_of_app; by left).
  assert (NoDup ids) as HND.
  { pose proof (acct_nodup _ _ _ H d) as K. rewrite P1 in K. by apply NoDup_app in K as [? _]. }
  destruct (complete_all ids s HND) as (s1 & F1 & F2 & F3 & F4).
  { intros x Hx%Hsub. apply (acct_pending _ _ _ H) in Hx as ((? & _) & c1 & Hc1 & _). split; [done|by exists c1]. }
  assert (acct limit (set_signalNum d 0 s1) w') as HA.
  { eapply (drained_acct (limit_at g) d s s1 w w' ids); try done; [|lia|].
    - intros x. unfold limit_at, BatchPollSend. case_decide; lia.
    - intros x _ Hx. unfold limit_at, limit. rewrite decide_False; [done|]. by intros ->. }
  assert (g ∈ ids) as Hgi.
  { apply list_length_nil_r in P1; [by rewrite <-P1|lia]. }
  exists (S k), (set_signalNum d 0 s1), w', true.
  split_and!; [|done|eapply same_conns_trans; [exact F2|apply same_conns_signal]|done].
  intros fuel Hf. cbn [orb]. unfold pollWithCQN.
  assert ((Z.of_nat (length (pending d w)) =? 0) = false) as ->.
  { apply Z.eqb_neq. destruct (pending d w); [by apply not_elem_of_nil in Hin|cbn; lia]. }
  rewrite HP by lia. cbn [mbind option_bind]. destruct fuel as [|fuel]; [lia|].
  cbn [poll_loop]. change (0 =? -1) with false. cbn iota. rewrite F1. cbn [mbind option_bind].
  rewrite F3, HS, Z.sub_diag. change (u64 0) with 0.
  change (nic_connect (set_signalNum d 0 s1) !! conn_key g) with (client_connect (set_signalNum d 0 s1) g).
  rewrite client_connect_signal, F4, decide_True, Hc by done. cbn [fmap option_fmap option_map mbind option_bind].
  assert ((sendnum (completed c) <? BatchPollSend) = true) as ->; [|done].
  apply Z.ltb_lt. change (u64 (sendnum c - BatchPollSend) < BatchPollSend). rewrite E.
  unfold BatchPollSend. by vm_compute.
Qed.

Definition flagged (c : Connect) (inln : bool) (x : send_wr) : send_wr :=
  x <| sw_signaled := sendnum c + 1 =? BatchPollSend |> <| sw_inline := inln |>.

(** One write: it is posted once, the loop of [poll_signal] ends, and the
    accounting holds again. *)
Lemma rdma_write_spec g x inln s w :
  acct limit s w -> 0 <= g < N -> sw_wr_id x = g ->
  exists k c s' w', client_connect s g = Some c /\
    (forall fuel, (k <= fuel)%nat -> rdma_write_reply fuel (second_half g) (conn_key g) x inln s w
       = Some (s', flagged c inln x, w')) /\
    acct limit s' w' /\ same_conns s s' /\ posted w' = posted w ++ [(qp c, flagged c inln x)].
Proof.
  intros H Hg Hx. destruct (acct_conn _ _ _ H g Hg) as (c & Hc & Hn & Hq).
  pose proof (counted_spec (second_half g) g c s Hc Hn) as HS.
  assert (acct (limit_at g) (counted (second_half g) g c s).2
    (ibv_post_send (qp (counted (second_half g) g c s).1) (flagged c inln x) w).2) as HA.
  { apply post_acct; try done.
    destruct (counted (second_half g) g c s) as [c' s']. destruct HS as (_ & _ & E & _). cbn [fst].
    by rewrite E. }
  destruct (counted (second_half g) g c s) as [c1 s1] eqn:EC. cbn [fst snd] in HA.
  destruct HS as (S1 & Q1 & E1 & L1 & _).
  assert (client_connect s1 g = Some c1) as Hc1 by (by rewrite L1, decide_True by done).
  destruct (poll_acct g s1 _ c1 HA Hg Hc1) as (k & s' & w' & b & HP & HA' & HS' & HW).
  exists k, c, s', w'. split_and!; [done| |done|by eapply same_conns_trans|].
  - intros fuel Hf. unfold rdma_write_reply_nictx.
    change (nic_connect s !! conn_key g) with (client_connect s g). rewrite Hc. cbn [mbind option_bind].
    unfold counted in EC. apply pair_eq in EC as [EC1 EC2]. rewrite EC1 in EC2 |- *. rewrite EC2.
    assert (sendnum (c <| sendnum := u64 (sendnum c + 1) |>) = sendnum c + 1) as ES.
    { change (u64 (sendnum c + 1) = sendnum c + 1). apply wrap_small. unfold limit, BatchPollSend in Hn.
      unfold uint. lia. }
    rewrite ES. fold (flagged c inln x).
    destruct (ibv_post_send (qp c1) (flagged c inln x) w) as [ret w1] eqn:EP.
    assert (ret = 0) as -> by (pose proof (post_ok (qp c1) (flagged c inln x) w) as K; by rewrite EP in K).
    cbn [negb Z.eqb]. cbn [snd] in HP. by rewrite HP.
  - rewrite HW, post_posted. by rewrite Q1.
Qed.
End accounting.

(** * The replies *)

Section replies.
Context {C : Config} {CO : ConfigOk C}.

Definition slot_pair (n : Z) : Z * Z := (n / SLOT_NUM, n mod SLOT_NUM).

Lemma slot_pair_inj n n' : slot_pair n = slot_pair n' -> n = n'.
Proof.
  pose proof sizes_small as (P1 & _). unfold slot_pair. intros [= E1 E2].
  rewrite (Z.div_mod n SLOT_NUM), (Z.div_mod n' SLOT_NUM) by lia. nia.
Qed.

(** The write of the reply block [j] of client [i]. *)
Definition template (c : Connect) (i j len : Z) (sig inln : bool) : send_wr := {|
  sw_wr_id := i;
  sw_sge := {| sge_addr := get_send_addr c j; sge_length := len; sge_lkey := local_reply_key c |};
  sw_remote_addr := get_remote_reply_addr_by_id c j; sw_rkey := remote_reply_key c;
  sw_signaled := sig; sw_inline := inln |}.

(** The requests of the array [wr]; only YCSB changes their length. *)
Definition wr_ok (s : Rpc) (a : reply_arrays) : Prop :=
  forall n, 0 <= n < total_slots -> exists c len sig inln,
    client_connect s (n / SLOT_NUM) = Some c /\
    wr a !! slot_pair n = Some (template c (n / SLOT_NUM) (n mod SLOT_NUM) len sig inln) /\
    (YCSBplusT = false -> len = sizeof_rpc_id_t).

(** The reply word of slot [n], and the write it asks for. *)
Definition reply_word (m : memory) (s : Rpc) (n : Z) : rpc_id_t :=
  match slot_send_addr s n with Some a => load_rpc_id m a | None => load_rpc_id m 0 end.

Definition reply_msg (m : memory) (s : Rpc) (n : Z) : option (Z * send_wr) :=
  c ← client_connect s (n / SLOT_NUM);
  Some (qp c, template c (n / SLOT_NUM) (n mod SLOT_NUM)
    (if YCSBplusT then u32 (sizeof_rpc_id_t + rpc_type (reply_word m s n) * 384) else sizeof_rpc_id_t)
    false (NULLRPC || negb YCSBplusT)).

Definition pending_reply (m : memory) (s : Rpc) (a : reply_arrays) (n : Z) : option (Z * send_wr) :=
  if rpc_id (reply_word m s n) =? (last_rpc_id a).[slot_pair n] then None else reply_msg m s n.

(** A posted write without its completion flag. *)
Definition plain (p : Z * send_wr) : Z * send_wr := (p.1, p.2 <| sw_signaled := false |>).

Lemma same_conns_inv s s' g c' :
  same_conns s s' -> client_connect s' g = Some c' ->
  exists c, client_connect s g = Some c /\ same_conn c c'.
Proof.
  intros H Hc. specialize (H g). rewrite Hc in H. destruct (client_connect s g) as [c|]; [by exists c|done].
Qed.

Lemma same_conns_fwd s s' g c :
  same_conns s s' -> client_connect s g = Some c ->
  exists c', client_connect s' g = Some c' /\ same_conn c c'.
Proof.
  intros H Hc. specialize (H g). rewrite Hc in H. destruct (client_connect s' g) as [c'|]; [by exists c'|done].
Qed.

Lemma reply_word_same m s s' n : same_conns s s' -> reply_word m s' n = reply_word m s n.
Proof.
  intros H. unfold reply_word, slot_send_addr. specialize (H (n / SLOT_NUM)).
  destruct (client_connect s (n / SLOT_NUM)) as [c|], (client_connect s' (n / SLOT_NUM)) as [c'|]; try done.
  by destruct H as (k & l & ->).
Qed.

Lemma template_same c c' i j len sig inln : same_conn c c' -> template c' i j len sig inln = template c i j len sig inln.
Proof. by intros (k & l & ->). Qed.
End replies.

Section pass.
Context {C : Config} {CO : ConfigOk C} {W : Type} `{!Verbs W, !VerbsLaws W}.

Local Abbreviation N := (MAX_CLIENT * CLIENT_THREAD).
Local Abbreviation reply_slot := (reply_slot ibv_post_send ibv_poll_cq).
Local Abbreviation reply_pass := (reply_pass ibv_post_send ibv_poll_cq).

(** The thread is between two rounds. *)
Definition reply_ready (st : reply_st (W := W)) : Prop :=
  acct limit (rs_server st) (rs_world st) /\ wr_ok (rs_server st) (rs_arrays st).

(** After the slots below [n]. *)
Record pass_inv (m : memory) (st0 : reply_st) (n : Z) (st : reply_st) : Prop := {
  pi_ready : reply_ready st;
  pi_conns : same_conns (rs_server st0) (rs_server st);
  pi_last : forall k, (last_rpc_id (rs_arrays st)).[slot_pair k]
    = if decide (0 <= k < n) then rpc_id (reply_word m (rs_server st0) k)
      else (last_rpc_id (rs_arrays st0)).[slot_pair k];
  pi_posted : plain <$> posted (rs_world st) = (plain <$> posted (rs_world st0))
    ++ omap (pending_reply m (rs_server st0) (rs_arrays st0)) (seqZ 0 n) }.

Lemma omap_snoc_seqZ {A} (f : Z -> option A) n :
  0 <= n -> omap f (seqZ 0 (n + 1)) = omap f (seqZ 0 n) ++ match f n with Some a => [a] | None => [] end.
Proof. intros. rewrite seqZ_app, omap_app by lia. f_equal. Qed.

(** The request of slot [n] that is posted. *)
Definition updated (m : memory) (s : Rpc) (n : Z) (x : send_wr) : send_wr :=
  if YCSBplusT then
    x <| sw_sge := {| sge_addr := sge_addr (sw_sge x);
           sge_length := u32 (sizeof_rpc_id_t + rpc_type (reply_word m s n) * 384);
           sge_lkey := sge_lkey (sw_sge x) |} |>
  else x.

Definition recorded (n rid : Z) (x : send_wr) (a : reply_arrays) : reply_arrays :=
  a <| last_rpc_id := <[slot_pair n := rid]> (last_rpc_id a) |> <| wr := <[slot_pair n := x]> (wr a) |>.

Lemma wr_recorded n rid x a : wr (recorded n rid x a) = <[slot_pair n := x]> (wr a).
Proof. done. Qed.

Lemma last_recorded n rid x a : last_rpc_id (recorded n rid x a) = <[slot_pair n := rid]> (last_rpc_id a).
Proof. done. Qed.

Lemma slot_unfold fuel m n (st : reply_st (W := W)) c x :
  client_connect (rs_server st) (n / SLOT_NUM) = Some c ->
  wr (rs_arrays st) !! slot_pair n = Some x ->
  reply_slot fuel m (n / SLOT_NUM) (n mod SLOT_NUM) st
  = let rid := rpc_id (reply_word m (rs_server st) n) in
    let a := rs_arrays st in
    if rid =? (last_rpc_id a).[slot_pair n] then Some st
    else
      '(s, x, w) ← rdma_write_reply_nictx ibv_post_send ibv_poll_cq fuel (second_half (n / SLOT_NUM))
         (conn_key (n / SLOT_NUM)) (updated m (rs_server st) n x) (NULLRPC || negb YCSBplusT)
         (rs_server st) (rs_world st);
      Some {| rs_server := s; rs_world := w; rs_arrays := recorded n rid x a |}.
Proof.
  intros Hc Hx. unfold Reply.reply_slot, updated, reply_word, slot_send_addr.
  change (nic_connect (rs_server st) !! conn_key (n / SLOT_NUM)) with (client_connect (rs_server st) (n / SLOT_NUM)).
  rewrite Hc. cbn [mbind option_bind]. fold (slot_pair n). rewrite Hx. cbn [mbind option_bind]. reflexivity.
Qed.

Lemma pass_step m st0 n st :
  0 <= n < total_slots -> pass_inv m st0 n st ->
  exists k st', (forall fuel, (k <= fuel)%nat ->
    reply_slot fuel m (n / SLOT_NUM) (n mod SLOT_NUM) st = Some st') /\ pass_inv m st0 (n + 1) st'.
Proof.
  intros Hn [[HA HW] HS HL HP]. destruct (slot_index n Hn) as (K1 & K2 & K3).
  destruct (HW n Hn) as (c & len & sig & inln & Hc & Hx & Hlen).
  pose proof (reply_word_same m _ _ n HS) as Eword.
  pose proof (HL n) as HLn. rewrite decide_False in HLn by lia.
  assert (pending_reply m (rs_server st0) (rs_arrays st0) n
    = if rpc_id (reply_word m (rs_server st) n) =? (last_rpc_id (rs_arrays st)).[slot_pair n] then None
      else reply_msg m (rs_server st0) n) as Epend by (unfold pending_reply; by rewrite Eword, HLn).
  destruct (Z.eqb_spec (rpc_id (reply_word m (rs_server st) n)) (last_rpc_id (rs_arrays st)).[slot_pair n]) as [E|E].
  { exists 0%nat, st. split.
    - intros fuel _. rewrite (slot_unfold _ _ _ _ _ _ Hc Hx). cbv zeta. by rewrite E, Z.eqb_refl.
    - split; [done|done| |rewrite omap_snoc_seqZ, Epend, app_nil_r by lia; done].
      intros k. rewrite HL. destruct (decide (k = n)) as [->|].
      + rewrite decide_False, decide_True by lia. by rewrite <-Eword, E, HLn.
      + apply decide_ext. lia. }
  set (x := template c (n / SLOT_NUM) (n mod SLOT_NUM) len sig inln) in *.
  destruct (rdma_write_spec (n / SLOT_NUM) (updated m (rs_server st) n x) (NULLRPC || negb YCSBplusT)
    (rs_server st) (rs_world st) HA K1) as (k & c' & s' & w' & Hc' & HR & HA' & HS' & HPo).
  { unfold updated. by destruct YCSBplusT. }
  rewrite Hc in Hc'. injection Hc' as <-.
  eexists k, _. split.
  { intros fuel Hf. rewrite (slot_unfold _ _ _ _ _ _ Hc Hx). cbv zeta.
    rewrite (proj2 (Z.eqb_neq _ _) E), HR by done. reflexivity. }
  split; cbn [rs_server rs_arrays rs_world].
  - split; [done|]. intros n' Hn'. destruct (HW n' Hn') as (c1 & len1 & sig1 & inln1 & Hc1 & Hx1 & Hl1).
    destruct (same_conns_fwd _ _ _ _ HS' Hc1) as (c2 & Hc2 & HS2). exists c2.
    cbn [rs_server rs_arrays]. rewrite wr_recorded. destruct (decide (n = n')) as [<-|Hne].
    + rewrite Hc in Hc1. injection Hc1 as <-.
      exists (sge_length (sw_sge (updated m (rs_server st) n x))), (sendnum c + 1 =? BatchPollSend), (NULLRPC || negb YCSBplusT).
      split_and!; [done| |].
      * rewrite lookup_insert_eq, (template_same c c2) by done. f_equal. unfold updated, flagged, x.
        by destruct YCSBplusT.
      * intros EY. unfold updated. rewrite EY. cbn. auto.
    + exists len1, sig1, inln1. rewrite lookup_insert_ne by (by intros ?%slot_pair_inj).
      by rewrite (template_same c1 c2) by done.
  - by eapply same_conns_trans.
  - intros k'. rewrite last_recorded, rd_insert. destruct (decide (k' = n)) as [->|Hne].
    + rewrite !decide_True by (done || lia). by rewrite Eword.
    + rewrite decide_False by (by intros ?%slot_pair_inj). rewrite HL. apply decide_ext. lia.
  - rewrite HPo, fmap_app, HP, omap_snoc_seqZ, Epend, <-(assoc_L (++)) by lia. do 2 f_equal.
    unfold reply_msg. destruct (same_conns_inv _ _ _ _ HS Hc) as (c0 & Hc0 & HS0). rewrite Hc0.
    cbn [mbind option_bind fmap list_fmap]. f_equal. unfold plain. cbn [fst snd].
    rewrite <-Eword. destruct HS0 as (k1 & k2 & ->). unfold updated, flagged, x.
    destruct YCSBplusT eqn:EY; [done|]. by rewrite Hlen.
Qed.

(** C22: one round of the reply thread ends, posts exactly one write for every
    slot whose reply word differs from the last one seen, in slot order and
    with the addresses, keys and length of that slot's reply, remembers the
    words, and leaves the accounting intact; a further round over the same
    memory posts nothing. *)
Theorem reply_pass_once (m : memory) (st : reply_st) :
  reply_ready st ->
  exists k st', (forall fuel, (k <= fuel)%nat -> reply_pass fuel m st = Some st') /\
    (forall fuel, reply_pass fuel m st' = Some st') /\
    reply_ready st' /\ same_conns (rs_server st) (rs_server st') /\
    plain <$> posted (rs_world st') = (plain <$> posted (rs_world st))
      ++ omap (pending_reply m (rs_server st) (rs_arrays st)) (seqZ 0 total_slots).
Proof.
  intros HR. pose proof sizes_small as (P1 & P2 & _ & _ & _ & _ & _ & E2 & _).
  assert (forall fuel st, reply_pass fuel m st
    = for_opt 0 total_slots (fun n => reply_slot fuel m (n / SLOT_NUM) (n mod SLOT_NUM)) st) as Eflat.
  { intros fuel st0. unfold Reply.reply_pass. rewrite (for_opt_nest N SLOT_NUM (reply_slot fuel m)) by lia.
    f_equal. unfold total_slots. lia. }
  destruct (for_opt_fuel (pass_inv m st) 0 total_slots
    (fun fuel n => reply_slot fuel m (n / SLOT_NUM) (n mod SLOT_NUM)) st) as (k & st' & H1 & [K1 K2 K3 K4]).
  - unfold total_slots. lia.
  - split; [done|apply same_conns_refl| |by rewrite app_nil_r]. intros k. by rewrite decide_False by lia.
  - intros i s Hi. by apply pass_step.
  - exists k, st'. split_and!; [|intros fuel|done|done|done].
    { intros fuel Hf. rewrite Eflat. by apply H1. }
    rewrite Eflat. destruct (for_opt_fuel (fun _ s => s = st') 0 total_slots
      (fun (_ : nat) n => reply_slot fuel m (n / SLOT_NUM) (n mod SLOT_NUM)) st') as (k1 & s1 & E & ->).
    + unfold total_slots. lia.
    + done.
    + intros i s Hi ->. exists 0%nat, st'. split; [|done]. intros _ _.
      destruct (proj2 K1 i Hi) as (c & len & sig & inln & Hc & Hx & _).
      rewrite (slot_unfold _ _ _ _ _ _ Hc Hx). cbv zeta. rewrite (K3 i), decide_True by done.
      by rewrite (reply_word_same m _ _ i K2), Z.eqb_refl.
    + by apply (E k1).
Qed.

(** Writes one after the other, each for the client of its [wr_id]. *)
Definition send_all (fuel : nat) (l : list (send_wr * bool)) (s : Rpc) (w : W) : option (Rpc * W) :=
  foldl (fun sw '(x, inln) => '(s, w) ← sw;
    '(s, _, w) ← rdma_write_reply_nictx ibv_post_send ibv_poll_cq fuel (second_half (sw_wr_id x))
                   (conn_key (sw_wr_id x)) x inln s w;
    Some (s, w)) (Some (s, w)) l.

(** C29: any sequence of reply writes is posted, in order and without blocking
    for ever; afterwards no connection has more than [2 * BatchPollSend - 2]
    writes that are not known to be finished, at most one completion per client
    is waiting, and [signalNum] of each context is the number of completions
    that wait in its queue. *)
Theorem send_queue_bounded (l : list (send_wr * bool)) (s : Rpc) (w : W) :
  acct limit s w -> Forall (fun p => 0 <= sw_wr_id p.1 < N) l ->
  exists k s' w', (forall fuel, (k <= fuel)%nat -> send_all fuel l s w = Some (s', w')) /\
    (exists sent, posted w' = posted w ++ sent /\ (fun p => sw_sge p.2) <$> sent = (fun p => sw_sge p.1) <$> l) /\
    (forall g, 0 <= g < N -> exists c, client_connect s' g = Some c /\ 0 <= sendnum c <= 2 * BatchPollSend - 2) /\
    (forall d, signalNum (ctx_of d s') = Z.of_nat (length (pending d w')) /\
       Z.of_nat (length (pending d w')) <= N /\ NoDup (pending d w')).
Proof.
  intros H HF. cut (exists k s' w', (forall fuel, (k <= fuel)%nat -> send_all fuel l s w = Some (s', w')) /\
    (exists sent, posted w' = posted w ++ sent /\ (fun p => sw_sge p.2) <$> sent = (fun p => sw_sge p.1) <$> l) /\
    acct limit s' w').
  { intros (k & s' & w' & H1 & H2 & H3). exists k, s', w'. split_and!; [done|done| |].
    - intros g Hg. destruct (acct_conn _ _ _ H3 g Hg) as (c & Hc & Hn & _). by exists c.
    - intros d. split_and!; [apply H3|by eapply pending_clients|apply H3]. }
  revert s w H. induction HF as [|[x inln] l Hx HF IH]; intros s w H.
  { exists 0%nat, s, w. split_and!; [done| |done]. exists []. by rewrite app_nil_r. }
  cbn [fst] in Hx. destruct (rdma_write_spec (sw_wr_id x) x inln s w H Hx eq_refl)
    as (k & c & s1 & w1 & Hc & HR & HA & _ & HP).
  destruct (IH s1 w1 HA) as (k2 & s2 & w2 & H1 & (sent & H2 & H2') & H3).
  exists (k `max` k2)%nat, s2, w2. split_and!; [| |done].
  - intros fuel Hf. unfold send_all. cbn [foldl mbind option_bind]. rewrite HR by lia. apply H1. lia.
  - exists ((qp c, flagged c inln x) :: sent). rewrite H2, HP, <-(assoc_L (++)). split; [done|]. cbn. by f_equal.
Qed.
End pass.

(** * Initialisation and the other loops *)

Section start.
Context {C : Config} {CO : ConfigOk C}.
Local Abbreviation N := (MAX_CLIENT * CLIENT_THREAD).

Definition strife_template (c : Connect) (i : Z) (sig inln : bool) : send_wr := {|
  sw_wr_id := i;
  sw_sge := {| sge_addr := get_strife_send_addr c 0; sge_length := get_strife_reply_size;
               sge_lkey := local_reply_key c |};
  sw_remote_addr := get_remote_reply_addr_by_id_strife c 0; sw_rkey := remote_reply_key c;
  sw_signaled := sig; sw_inline := inln |}.

Definition strife_ok (s : Rpc) (a : reply_arrays) : Prop :=
  forall i, 0 <= i < N -> exists c sig inln,
    client_connect s i = Some c /\ wr_strife a !! i = Some (strife_template c i sig inln).

Lemma init_strife_ok s a :
  (forall g, 0 <= g < N -> is_Some (client_connect s g)) ->
  exists a', init_strife s a = Some a' /\ strife_ok s a' /\ wr a' = wr a /\ last_rpc_id a' = last_rpc_id a.
Proof.
  intros Hs. pose proof sizes_small as (_ & P2 & _ & _ & _ & _ & _ & E2 & _).
  destruct (for_opt_fuel (fun n a' => wr a' = wr a /\ last_rpc_id a' = last_rpc_id a /\
    forall i, 0 <= i < n -> exists c, client_connect s i = Some c /\
      wr_strife a' !! i = Some (strife_template c i false false)) 0 N
    (fun (_ : nat) i a => x ← init_wr_strife s i; Some (a <| wr_strife := <[i := x]> (wr_strife a) |>)) a)
    as (k & a' & H1 & H2 & H3 & H4); [lia|split_and!; [done|done|lia]| |].
  - intros i a' Hi (F1 & F2 & F3). destruct (Hs i Hi) as [c Hc].
    exists 0%nat. eexists. split; [intros _ _; unfold init_wr_strife; rewrite Hc; reflexivity|].
    split_and!; [done|done|]. intros j Hj. cbn [set_field wr_strife]. destruct (decide (j = i)) as [->|].
    + exists c. split; [done|]. apply lookup_insert_eq.
    + rewrite lookup_insert_ne by done. apply F3. lia.
  - exists a'. split_and!; [by apply (H1 k)| |done|done].
    intros i Hi. destruct (H4 i Hi) as (c & Hc & E). by exists c, false, false.
Qed.

Lemma reply_write_init_ok s a :
  (forall g, 0 <= g < N -> is_Some (client_connect s g)) ->
  exists a', reply_write_init s a = Some a' /\ wr_ok s a' /\ strife_ok s a' /\ last_rpc_id a' = ∅.
Proof.
  intros Hs. pose proof sizes_small as (P1 & P2 & _ & _ & _ & _ & _ & E2 & _).
  unfold reply_write_init.
  rewrite (for_opt_nest N SLOT_NUM (fun i j a => x ← init_wr s i j;
    Some (a <| wr := <[(i, j) := x]> (wr a) |>))) by lia.
  destruct (for_opt_fuel (fun n a' => last_rpc_id a' = ∅ /\
    forall i, 0 <= i < n -> exists c, client_connect s (i / SLOT_NUM) = Some c /\
      wr a' !! slot_pair i
      = Some (template c (i / SLOT_NUM) (i mod SLOT_NUM) sizeof_rpc_id_t false false)) 0 (N * SLOT_NUM)
    (fun (_ : nat) k a => x ← init_wr s (k / SLOT_NUM) (k mod SLOT_NUM);
       Some (a <| wr := <[(k / SLOT_NUM, k mod SLOT_NUM) := x]> (wr a) |>)) (a <| last_rpc_id := ∅ |>))
    as (k & a' & H1 & H2 & H3); [lia|split; [done|lia]| |].
  - intros i a' Hi (F1 & F2). destruct (slot_index i) as (K1 & _); [unfold total_slots; lia|].
    destruct (Hs _ K1) as [c Hc].
    exists 0%nat. eexists. split; [intros _ _; unfold init_wr; rewrite Hc; reflexivity|].
    split; [done|]. intros j Hj. cbn [set_field wr]. destruct (decide (j = i)) as [->|].
    + exists c. split; [done|]. apply lookup_insert_eq.
    + fold (slot_pair i). rewrite lookup_insert_ne by (by intros ?%slot_pair_inj). apply F2. lia.
  - rewrite (H1 k) by done. cbn [mbind option_bind].
    destruct (init_strife_ok s a' Hs) as (a2 & K1 & K2 & K3 & K4). exists a2.
    split_and!; [done| |done|congruence]. intros n Hn. unfold total_slots in Hn. rewrite K3.
    destruct (H3 n) as (c & Hc & E); [lia|]. by exists c, sizeof_rpc_id_t, false, false.
Qed.
End start.

Section strife_replies.
Context {C : Config} {CO : ConfigOk C} {W : Type} `{!Verbs W, !VerbsLaws W}.
Local Abbreviation N := (MAX_CLIENT * CLIENT_THREAD).

(** The completion words of client [i], as [reply_write_strife] sends them. *)
Definition strife_msg (s : Rpc) (i : Z) : option (Z * send_wr) :=
  c ← client_connect s i; Some (qp c, strife_template c i false false).

Lemma reply_write_strife_all (st : reply_st (W := W)) :
  acct limit (rs_server st) (rs_world st) -> strife_ok (rs_server st) (rs_arrays st) ->
  exists k st', (forall fuel, (k <= fuel)%nat ->
      reply_write_strife ibv_post_send ibv_poll_cq fuel st = Some st') /\
    acct limit (rs_server st') (rs_world st') /\ strife_ok (rs_server st') (rs_arrays st') /\
    same_conns (rs_server st) (rs_server st') /\
    plain <$> posted (rs_world st') = (plain <$> posted (rs_world st))
      ++ omap (strife_msg (rs_server st)) (seqZ 0 N).
Proof.
  intros HA HK. pose proof sizes_small as (P1 & P2 & _ & _ & _ & _ & _ & E2 & _).
  apply (for_opt_fuel (fun n st' => acct limit (rs_server st') (rs_world st') /\
    strife_ok (rs_server st') (rs_arrays st') /\ same_conns (rs_server st) (rs_server st') /\
    plain <$> posted (rs_world st') = (plain <$> posted (rs_world st))
      ++ omap (strife_msg (rs_server st)) (seqZ 0 n)) 0 N
    (fun fuel => send_strife ibv_post_send ibv_poll_cq fuel) st); [lia| |].
  { split_and!; [done|done|apply same_conns_refl|by rewrite app_nil_r]. }
  clear HA HK. intros i st1 Hi (HA & HK & HS & HP).
  destruct (HK i Hi) as (c & sig & inln & Hc & Hx).
  destruct (rdma_write_spec i (strife_template c i sig inln) false (rs_server st1) (rs_world st1) HA Hi eq_refl)
    as (k & c' & s' & w' & Hc' & HR & HA' & HS' & HPo).
  rewrite Hc in Hc'. injection Hc' as <-.
  eexists k, _. split.
  { intros fuel Hf. unfold send_strife. rewrite Hx. cbn [mbind option_bind]. rewrite HR by done. reflexivity. }
  cbn [rs_server rs_arrays rs_world]. split_and!; [done| |by eapply same_conns_trans|].
  - intros j Hj. destruct (HK j Hj) as (c1 & sig1 & inln1 & Hc1 & Hx1).
    destruct (same_conns_fwd _ _ _ _ HS' Hc1) as (c2 & Hc2 & n2 & k2 & ->). eexists.
    cbn [set_field wr_strife]. destruct (decide (j = i)) as [->|].
    + rewrite Hc in Hc1. injection Hc1 as <-. do 2 eexists. split; [exact Hc2|]. apply lookup_insert_eq.
    + exists sig1, inln1. split; [exact Hc2|]. by rewrite lookup_insert_ne.
  - rewrite HPo, fmap_app, HP, omap_snoc_seqZ, <-(assoc_L (++)) by lia. do 2 f_equal.
    unfold strife_msg. destruct (same_conns_inv _ _ _ _ HS Hc) as (c0 & Hc0 & k1 & k2 & ->).
    rewrite Hc0. reflexivity.
Qed.
End strife_replies.

(** * Examples *)

(** A card that completes every signalled write at once. *)
Record sim := { sim_first : list Z; sim_second : list Z; sim_log : list (Z * send_wr) }.

Definition sim_pending (d : bool) (w : sim) : list Z := if d then sim_second w else sim_first w.

#[export] Instance sim_verbs : Verbs sim := {|
  ibv_post_send q x w :=
    (0, {| sim_first := if negb (q =? 1) && sw_signaled x then sim_first w ++ [sw_wr_id x] else sim_first w;
           sim_second := if (q =? 1) && sw_signaled x then sim_second w ++ [sw_wr_id x] else sim_second w;
           sim_log := sim_log w ++ [(q, x)] |});
  ibv_poll_cq d n w :=
    let ids := take (Z.to_nat n) (sim_pending d w) in
    (Z.of_nat (length ids), ids,
     {| sim_first := if d then sim_first w else drop (Z.to_nat n) (sim_first w);
        sim_second := if d then drop (Z.to_nat n) (sim_second w) else sim_second w; sim_log := sim_log w |});
  qp_dual q := q =? 1; pending := sim_pending; posted := sim_log; delay _ _ := 0%nat |}.

#[export] Instance sim_laws : VerbsLaws sim.
Proof.
  split; [done| |done|].
  - intros d q x w. cbn. destruct d, (q =? 1); cbn; by destruct (sw_signaled x).
  - intros d n w w' ret ids Hn. cbn. intros [= <- <- <-]. split_and!; [done| | | |done|].
    + rewrite length_take. lia.
    + destruct d; cbn; by rewrite take_drop.
    + by destruct d.
    + intros Hp E. exfalso. apply Hp. destruct (sim_pending d w) as [|a l]; [done|].
      by replace (Z.to_nat n) with (S (Z.to_nat (n - 1))) in E by lia.
Qed.

Definition sim_start : sim := {| sim_first := []; sim_second := []; sim_log := [] |}.

(** The server of [demo_rpc] with its connections; queue pair 1 belongs to the
    second context. *)
Definition demo_reply_server (C : Config) : Rpc :=
  (new_connects (W := unit) (fun dual w => (Z.b2z dual, w)) (fun _ _ w => (true, w)) Connect_zero
     (demo_rpc C) tt).1.

Lemma acct_start {C : Config} {CO : ConfigOk C} {W} `{!Verbs W} (s : Rpc) (w : W) :
  (forall g, 0 <= g < MAX_CLIENT * CLIENT_THREAD -> exists c, client_connect s g = Some c /\
     sendnum c = 0 /\ qp_dual (qp c) = second_half g) ->
  (forall d, pending d w = [] /\ signalNum (ctx_of d s) = 0) -> acct limit s w.
Proof.
  intros H1 H2. split.
  - intros g Hg. destruct (H1 g Hg) as (c & Hc & E & Hq). exists c. rewrite E. done.
  - intros d g. rewrite (proj1 (H2 d)). split; [by intros ?%not_elem_of_nil|].
    intros ((Hg & _) & c & Hc & Hn). destruct (H1 g Hg) as (c1 & Hc1 & E & _).
    rewrite Hc in Hc1. injection Hc1 as <-. rewrite E in Hn. by destruct Hn.
  - intros d. rewrite (proj1 (H2 d)). apply NoDup_nil_2.
  - intros d. by rewrite (proj1 (H2 d)), (proj2 (H2 d)).
Qed.

Lemma demo_conns : forall g, 0 <= g < 48 -> exists c,
  client_connect (C := ycsb_alnico) (demo_reply_server ycsb_alnico) g = Some c /\
  sendnum c = 0 /\ qp_dual (qp c) = second_half (C := ycsb_alnico) g.
Proof.
  intros g Hg. pose proof (forallb_seqZ (fun g =>
    match client_connect (C := ycsb_alnico) (demo_reply_server ycsb_alnico) g with
    | Some c => (sendnum c =? 0) && Bool.eqb (qp c =? 1) (second_half (C := ycsb_alnico) g)
    | None => false end) 0 48 g) as K.
  cbv beta in K. destruct (client_connect _ g) as [c|].
  - exists c. split; [done|]. rewrite andb_true_iff, Z.eqb_eq, Bool.eqb_true_iff in K.
    apply K; [vm_compute; reflexivity|lia].
  - discriminate K; [vm_compute; reflexivity|lia].
Qed.

Lemma demo_acct : acct (C := ycsb_alnico) limit (demo_reply_server ycsb_alnico) sim_start.
Proof.
  apply acct_start; [exact demo_conns|]. intros d. destruct d; split; vm_compute; reflexivity.
Qed.

Lemma send_queue_bounded_witness :
  let l := replicate 100 ((fillSgeWr 64 8 1) <| sw_wr_id := 3 |>, true) in
  acct (C := ycsb_alnico) limit (demo_reply_server ycsb_alnico) sim_start /\
  exists k s' w', (forall fuel, (k <= fuel)%nat ->
      send_all (C := ycsb_alnico) fuel l (demo_reply_server ycsb_alnico) sim_start = Some (s', w')) /\
    exists c, client_connect (C := ycsb_alnico) s' 3 = Some c /\ sendnum c <= 46.
Proof.
  intros l. split; [exact demo_acct|].
  destruct (send_queue_bounded (C := ycsb_alnico) l (demo_reply_server ycsb_alnico) sim_start demo_acct)
    as (k & s' & w' & H1 & _ & H2 & _).
  - apply Forall_replicate. vm_compute. split; congruence.
  - exists k, s', w'. split; [exact H1|]. destruct (H2 3) as (c & Hc & Hn); [vm_compute; split; congruence|].
    exists c. split; [exact Hc|exact (proj2 Hn)].
Defined.

(** Slot 5 (client 1, block 1) has been answered. *)
Definition demo_reply_memory : memory := st 4 ∅ (0x20000000 + 40960 + 8192 + 4) 77.

Lemma reply_pass_once_witness :
  exists (st : reply_st (W := sim)) k st', reply_ready (C := ycsb_alnico) st /\
    (forall fuel, (k <= fuel)%nat ->
       reply_pass (C := ycsb_alnico) ibv_post_send ibv_poll_cq fuel demo_reply_memory st = Some st') /\
    length (posted (rs_world st')) = 1%nat.
Proof.
  destruct (reply_write_init_ok (C := ycsb_alnico) (demo_reply_server ycsb_alnico)
    {| wr := ∅; last_rpc_id := ∅; wr_strife := ∅; tpcc_reply_delivery := ∅ |}) as (a & _ & H1 & _ & H2).
  { intros g Hg. destruct (demo_conns g Hg) as (c & Hc & _). by exists c. }
  set (st := {| rs_server := demo_reply_server ycsb_alnico; rs_arrays := a; rs_world := sim_start |}).
  assert (reply_ready (C := ycsb_alnico) st) as HR by (split; [exact demo_acct|exact H1]).
  destruct (reply_pass_once (C := ycsb_alnico) demo_reply_memory st HR) as (k & st' & K1 & _ & _ & _ & K2).
  exists st, k, st'. split_and!; [exact HR|exact K1|].
  apply (f_equal length) in K2. rewrite length_fmap, length_app, length_fmap in K2. rewrite K2.
  change (rs_arrays st) with a. unfold pending_reply. rewrite H2. vm_compute. reflexivity.
Defined.
