(* ===== verification/Runner.v ===== *)
(** The YCSB worker loops of [benchmark/YCSB_bench.cc] and
    [benchmark/YCSB_txns.hh]: which receive slots a worker polls, how it decodes
    a request into a transaction, runs it and answers.

    The database and its concurrency control are behind the call [sto_ycsb]: it
    takes the transaction and the database and gives back the database and the
    number of attempts. *)

From S2P Require Import Prelude Memory Config Ring Feature ModelUpdate Perf RpcCommon Msg RpcConnect Central Worker.

(** * Slots of a runner *)

Section slots.
Context {C : Config}.

(** [ycsb_static_hack]: the first [left] runners poll one slot more. *)
Definition static_slots (id : Z) : Z * Z :=
  let slot_size := u16 (MAX_CLIENT * SLOT_NUM * CLIENT_THREAD / MAX_THREAD) in
  let left := u16 (MAX_CLIENT * SLOT_NUM * CLIENT_THREAD - slot_size * MAX_THREAD) in
  let slot_base := u16 (Z.min (slot_size * id + Z.min left id) (MAX_CLIENT * SLOT_NUM * CLIENT_THREAD)) in
  let slot_end := u16 (Z.min (slot_base + slot_size + Z.b2z (id <? left))
                             (MAX_CLIENT * SLOT_NUM * CLIENT_THREAD)) in
  (slot_base, slot_end).

(** The other runners: [n] is [MAX_THREAD], or [MAX_THREAD + 2] in TPC-C. *)
Definition strife_slots (n id : Z) : Z * Z :=
  let slot_size := u16 ((MAX_CLIENT * SLOT_NUM * CLIENT_THREAD + n - 1) / n) in
  let slot_base := u16 (slot_size * id) in
  let slot_end := u16 (Z.min (slot_base + slot_size) (MAX_CLIENT * SLOT_NUM * CLIENT_THREAD)) in
  (slot_base, slot_end).

End slots.

Section slot_partition.
Context {C : Config} {CO : ConfigOk C}.

Lemma slots_small : 0 < total_slots <= 192 /\ 0 < MAX_THREAD <= 22.
Proof using CO.
  pose proof sizes_small as (P1 & P2 & _ & _ & _ & _ & _ & E2 & _). pose proof max_thread_ok.
  unfold total_slots. rewrite E2. nia.
Qed.

Lemma static_slots_eq id :
  0 <= id < MAX_THREAD ->
  let cut k := total_slots / MAX_THREAD * k + Z.min (total_slots mod MAX_THREAD) k in
  static_slots id = (cut id, cut (id + 1)).
Proof using CO.
  intros Hid cut. pose proof slots_small as [H1 H2]. unfold static_slots. fold total_slots.
  pose proof (Z.div_mod total_slots MAX_THREAD). pose proof (Z.mod_pos_bound total_slots MAX_THREAD).
  pose proof (Z.div_pos total_slots MAX_THREAD). unfold cut.
  set (q := total_slots / MAX_THREAD) in *. set (r := total_slots mod MAX_THREAD) in *.
  assert (0 <= q <= 192) by nia. assert (0 <= q * id <= 192) by nia.
  rewrite (wrap_small 16 q) by (unfold uint; lia).
  replace (total_slots - q * MAX_THREAD) with r by lia.
  rewrite (wrap_small 16 r) by (unfold uint; lia).
  assert (q * id + q <= q * MAX_THREAD) by nia.
  rewrite (Z.min_l (q * id + Z.min r id)) by lia.
  rewrite (wrap_small 16 (q * id + Z.min r id)) by (unfold uint; lia).
  f_equal. destruct (Z.ltb_spec id r); cbn [Z.b2z]; rewrite wrap_small by (unfold uint; lia); lia.
Qed.

Lemma strife_slots_eq n id :
  0 < n <= 24 -> 0 <= id < n ->
  let q := (total_slots + n - 1) / n in
  strife_slots n id = (q * id, Z.min (q * id + q) total_slots).
Proof using CO.
  intros Hn Hid q. pose proof slots_small as [H1 H2]. unfold strife_slots. fold total_slots. fold q.
  pose proof (Z.div_mod (total_slots + n - 1) n). pose proof (Z.mod_pos_bound (total_slots + n - 1) n).
  assert (0 < q <= 215) by (unfold q; nia). assert (0 <= q * id <= 215 * 24) by nia.
  rewrite (wrap_small 16 q), (wrap_small 16 (q * id)), wrap_small by (unfold uint; lia). done.
Qed.

(** the runners share out the receive slots: whichever of the two formulas
    the build uses, every slot is polled by exactly one runner. *)
Theorem runner_slots_partition (n i : Z) :
  0 < n <= 24 -> 0 <= i < total_slots ->
  (exists id, 0 <= id < MAX_THREAD /\ (static_slots id).1 <= i < (static_slots id).2 /\
     forall id', 0 <= id' < MAX_THREAD -> (static_slots id').1 <= i < (static_slots id').2 -> id' = id) /\
  (exists id, 0 <= id < n /\ (strife_slots n id).1 <= i < (strife_slots n id).2 /\
     forall id', 0 <= id' < n -> (strife_slots n id').1 <= i < (strife_slots n id').2 -> id' = id).
Proof using CO.
  intros Hn Hi. pose proof slots_small as [H1 H2]. split.
  - destruct (cuts_cover (fun k => total_slots / MAX_THREAD * k + Z.min (total_slots mod MAX_THREAD) k)
      MAX_THREAD i) as (id & Hid & Hlo & Huniq).
    + lia.
    + intros k Hk. pose proof (Z.div_pos total_slots MAX_THREAD). nia.
    + pose proof (Z.div_mod total_slots MAX_THREAD). pose proof (Z.mod_pos_bound total_slots MAX_THREAD).
      cbv beta. lia.
    + pose proof static_slots_eq as E. cbv zeta beta in E. cbv beta in Hlo, Huniq.
      exists id. rewrite E by done. cbn [fst snd]. split_and!; [lia..|].
      intros id' Hid'. rewrite E by done. by apply Huniq.
  - pose proof (Z.div_mod (total_slots + n - 1) n). pose proof (Z.mod_pos_bound (total_slots + n - 1) n).
    pose proof (strife_slots_eq n) as E. cbv zeta in E. set (q := (total_slots + n - 1) / n) in *.
    assert (0 < q) by (unfold q; nia). assert (total_slots <= q * n) by lia. pose proof (Z.div_mod i q). pose proof (Z.mod_pos_bound i q).
    assert (0 <= i / q < n) as Hq by (split; [apply Z.div_pos; lia|apply Z.div_lt_upper_bound; lia]).
    exists (i / q). rewrite E by done. cbn [fst snd]. split_and!; [lia..|].
    intros id' Hid'. rewrite E by done. cbn [fst snd]. intros Hlo.
    apply (Z.div_unique i q id' (i - q * id')); lia.
Qed.
End slot_partition.

Lemma runner_slots_partition_witness :
  exists id, 0 <= id < 20 /\ (static_slots (C := ycsb_alnico) id).1 <= 137 < (static_slots (C := ycsb_alnico) id).2.
Proof.
  destruct (runner_slots_partition (C := ycsb_alnico) 22 137) as [(id & H1 & H2 & _) _];
    [lia|vm_compute; split; congruence|]. exists id. split; [exact H1|exact H2].
Defined.

(** * YCSB transactions *)

Record ycsb_op_t := { is_write : bool; op_key : Z; col_n : Z; write_value0 : Z }.
Record ycsb_txn_t := { ops : gmap Z ycsb_op_t; cnt : Z; rw_txn : bool }.

#[export] Instance eta_ycsb_txn : Eta ycsb_txn_t := fun t => {| ops := ops t; cnt := cnt t; rw_txn := rw_txn t |}.

Definition no_op : ycsb_op_t := {| is_write := false; op_key := 0; col_n := 0; write_value0 := 0 |}.

Section ycsb.
Context {C : Config} {DB : Type}.

(** The committed database and the number of times the body was started. *)
Variable sto_ycsb : ycsb_txn_t -> DB -> DB * Z.
Variable rand : Z -> Z.

(** One operation; the character is written into the value of a write only. *)
Definition msg_op (m : memory) (x : msg_t) (j : Z) (old : ycsb_op_t) : ycsb_op_t :=
  let w := get_ycsb_is_write x j in
  {| is_write := w; op_key := get_ycsb_key m x j; col_n := get_ycsb_col j;
     write_value0 := if w then 65 else write_value0 old |}.

(** The body of the loop of [msg_next_tx]. *)
Definition msg_step (j : Z) (s : gmap Z ycsb_op_t * bool * worker_msg_t * host)
    : option (gmap Z ycsb_op_t * bool * worker_msg_t * host) :=
  let '(o, any_write, w, h) := s in
  let op := msg_op (mem h) (now_msg w) j (default no_op (o !! j)) in
  '(w, h) ← (if DYNAMIC then Some (w, h) else worker_abort_key_ycsb j w h);
  Some (<[j := op]> o, any_write || is_write op, w, h).

Definition msg_next_tx (t : ycsb_txn_t) (w : worker_msg_t) (h : host)
    : option (ycsb_txn_t * worker_msg_t * host) :=
  '(o, any_write, w, h) ← for_opt 0 get_ycsb_size msg_step (ops t, false, w, h);
  '(w, h) ← worker_abort_key_ycsb 0 w h;
  Some ({| ops := o; cnt := get_ycsb_size; rw_txn := any_write |}, w, h).

(** [performance.retry_count] from the third attempt on. *)
Definition run_txn (runner_id : Z) (t : ycsb_txn_t) (h : host) (db : DB) : option (host * DB) :=
  let '(db, attempts) := sto_ycsb t db in
  h ← for_opt 0 attempts (fun cnt h =>
        if 1 <? cnt then p ← retry_count (performance h) runner_id; Some (h <| performance := p |>)
        else Some h) h;
  Some (h, db).

Definition execute (id : Z) (t : ycsb_txn_t) (w : worker_msg_t) (h : host) (db : DB)
    : option (ycsb_txn_t * worker_msg_t * host * DB) :=
  '(t, w, h) ← msg_next_tx t w h;
  '(h, db) ← run_txn id t h db;
  Some (t, w, h, db).

(** One iteration of [ycsb_runner_thread]. *)
Definition ycsb_turn (id : Z) (t : ycsb_txn_t) (w : worker_msg_t) (h : host) (db : DB)
    : option (ycsb_txn_t * worker_msg_t * host * DB) :=
  '(w, h, found) ← next_txn_check w h;
  if negb found then Some (t, w, h, db)
  else
    '(t, w, h, db) ← execute id t w h db;
    '(w, h) ← reply_now false w h;
    Some (t, w, h, db).

(** One iteration of [ycsb_static_hack]. *)
Definition ycsb_static_turn (id : Z) (t : ycsb_txn_t) (w : worker_msg_t) (h : host) (db : DB)
    : option (ycsb_txn_t * worker_msg_t * host * DB) :=
  h ← run_strife_once rand (static_slots id).1 (static_slots id).2 id h;
  '(w, h, found) ← next_txn_check_strife w h;
  if negb found then Some (t, w, h, db)
  else
    '(t, w, h, db) ← execute id t w h db;
    '(w, h) ← reply_now_partition false w h;
    Some (t, w, h, db).

End ycsb.
