(* ===== verification/RunnerProps.v ===== *)
(** A worker that finds a request in its queue runs it and answers it in the
    reply block of the client's slot. *)

From S2P Require Import Prelude Memory Config Ring Feature ModelUpdate Perf RpcCommon Msg RpcConnect Central CentralProps Worker Runner.

#[local] Set Default Proof Using "Type*".

Section frames.
Context {C : Config}.

(** The worker's abort queue is what [abort_queue_t] makes of an empty one. *)
Definition aq_ok (q : abort_queue_t) : Prop :=
  if DYNAMIC then abort_depth q = Z.of_nat (length (abort_queue_key q)) /\ abort_depth q <= ABORT_DEPTH
  else abort_depth q = 0.

Lemma aq_init q : aq_ok (abort_init q).
Proof. unfold aq_ok. by destruct DYNAMIC. Qed.

Lemma abort_push_ycsb_ok q col key :
  aq_ok q -> exists first q', abort_push_ycsb q col key = Some (first, hash_k2f_ycsb col key, q') /\ aq_ok q'.
Proof.
  unfold aq_ok, abort_push_ycsb. destruct DYNAMIC.
  - intros [E Hle]. destruct (Z.eqb_spec (abort_depth q) ABORT_DEPTH) as [E1|E1].
    + unfold pop_front. destruct q as [[|x l] d]; cbn [abort_queue_key abort_depth] in *.
      * rewrite E1 in E. discriminate E.
      * do 2 eexists. split; [reflexivity|]. unfold push_key. cbn [abort_queue_key abort_depth].
        rewrite length_app. cbn [length] in *. lia.
    + do 2 eexists. split; [reflexivity|]. unfold push_key. cbn [abort_queue_key abort_depth].
      rewrite length_app. cbn [length]. lia.
  - intros E. rewrite E. change (0 =? ABORT_DEPTH) with false. do 2 eexists. split; [reflexivity|done].
Qed.

(** What a worker does between taking a request and answering it only touches
    its abort queue, the model and the retry counters. *)
Definition worker_frame (w w' : worker_msg_t) : Prop :=
  worker_thread_id w' = worker_thread_id w /\ txn_reply_addr w' = txn_reply_addr w /\
  now_msg w' = now_msg w /\ msg_id w' = msg_id w /\ my_fpga_queue w' = my_fpga_queue w.

Definition host_frame (h h' : host) : Prop :=
  mem h' = mem h /\ server h' = server h /\ dispatch h' = dispatch h /\
  req_count (performance h') = req_count (performance h) /\
  dynamic_test_phase (performance h') = dynamic_test_phase (performance h) /\
  (forall t, is_Some (req_retry_count (performance h) !! t) -> is_Some (req_retry_count (performance h') !! t)).

Lemma worker_frame_refl w : worker_frame w w.
Proof. done. Qed.

Lemma worker_frame_trans w1 w2 w3 : worker_frame w1 w2 -> worker_frame w2 w3 -> worker_frame w1 w3.
Proof. intros (?&?&?&?&?) (?&?&?&?&?). split_and!; congruence. Qed.

Lemma host_frame_refl h : host_frame h h.
Proof. done. Qed.

Lemma host_frame_model h m : host_frame h (h <| model := m |>).
Proof. done. Qed.

Lemma host_frame_trans h1 h2 h3 : host_frame h1 h2 -> host_frame h2 h3 -> host_frame h1 h3.
Proof. intros (?&?&?&?&?&?) (?&?&?&?&?&?). split_and!; [congruence..|auto]. Qed.

Lemma abort_key_ok i w h :
  aq_ok (abort_queue w) -> exists w' h', worker_abort_key_ycsb i w h = Some (w', h') /\
    worker_frame w w' /\ host_frame h h' /\ aq_ok (abort_queue w').
Proof.
  intros H. unfold worker_abort_key_ycsb, record_abort_ycsb. cbn [fst snd].
  destruct (abort_push_ycsb_ok (abort_queue w) (get_ycsb_col_origin (mem h) (now_msg w) i)
    (get_ycsb_key_origin (mem h) (now_msg w) i) H) as (first & q' & E & H').
  rewrite E. cbn [mbind option_bind]. do 2 eexists. split; [reflexivity|].
  split; [done|]. split; [done|exact H'].
Qed.

Lemma msg_next_tx_ok t w h :
  0 <= YCSBSIZE -> aq_ok (abort_queue w) ->
  exists t' w' h', msg_next_tx t w h = Some (t', w', h') /\ cnt t' = YCSBSIZE /\
    worker_frame w w' /\ host_frame h h' /\ aq_ok (abort_queue w').
Proof.
  intros HY H. unfold msg_next_tx.
  destruct (for_opt_fuel (fun _ '(_, _, w', h') => worker_frame w w' /\ host_frame h h' /\ aq_ok (abort_queue w'))
    0 get_ycsb_size (fun (_ : nat) => msg_step) (ops t, false, w, h))
    as (k & [[[o aw] w1] h1] & E & F1 & F2 & F3).
  - done.
  - split_and!; [apply worker_frame_refl|apply host_frame_refl|done].
  - intros i [[[o aw] w1] h1] Hi (F1 & F2 & F3). unfold msg_step.
    assert (exists w2 h2, (if DYNAMIC then Some (w1, h1) else worker_abort_key_ycsb i w1 h1) = Some (w2, h2) /\
      worker_frame w1 w2 /\ host_frame h1 h2 /\ aq_ok (abort_queue w2)) as (w2 & h2 & E & G1 & G2 & G3).
    { destruct DYNAMIC; [by exists w1, h1|by apply abort_key_ok]. }
    rewrite E. exists 0%nat. eexists. split; [reflexivity|].
    split_and!; [by eapply worker_frame_trans|by eapply host_frame_trans|done].
  - rewrite (E k) by done. cbn [mbind option_bind].
    destruct (abort_key_ok 0 w1 h1 F3) as (w2 & h2 & -> & G1 & G2 & G3). cbn [mbind option_bind].
    do 3 eexists. split; [reflexivity|].
    split_and!; [done|by eapply worker_frame_trans|by eapply host_frame_trans|done].
Qed.

Context {DB : Type} (sto_ycsb : ycsb_txn_t -> DB -> DB * Z).

Lemma run_txn_ok id t h db :
  is_Some (req_retry_count (performance h) !! id) ->
  exists h', run_txn sto_ycsb id t h db = Some (h', (sto_ycsb t db).1) /\ host_frame h h'.
Proof.
  intros Hid. unfold run_txn. destruct (sto_ycsb t db) as [db' n]. cbn [fst].
  destruct (decide (0 <= n)) as [Hn|Hn].
  2: { rewrite for_opt_nil by lia. by exists h. }
  destruct (for_opt_fuel (fun _ h' => host_frame h h') 0 n (fun (_ : nat) cnt h =>
    if 1 <? cnt then p ← retry_count (performance h) id; Some (h <| performance := p |>) else Some h) h)
    as (k & h' & E & F); [done|apply host_frame_refl| |].
  - intros i h1 Hi F. exists 0%nat. destruct (1 <? i); [|by exists h1].
    destruct F as (F1 & F2 & F3 & F4 & F5 & F6). destruct (F6 id Hid) as [a Ha].
    unfold retry_count. rewrite Ha. eexists. split; [reflexivity|].
    split_and!; [done..|]. intros t' Ht'. cbn [set_field performance req_retry_count].
    destruct (decide (id = t')) as [->|]; [rewrite lookup_insert_eq; by eexists|].
    rewrite lookup_insert_ne by done. by apply F6.
  - rewrite (E k) by done. by exists h'.
Qed.
End frames.

Section turn.
Context {C : Config} {CO : ConfigOk C}.

(** The receive and the reply buffers of the server do not overlap. *)
Definition buffers_apart (s : Rpc) : Prop :=
  mm_part1 (send_mm s) + (REPLY_LEN * SLOT_NUM + 8 * 1024) * (MAX_CLIENT * CLIENT_THREAD)
    <= mm_part1 (double_recv_mm s) \/
  mm_part1 (double_recv_mm s) + DATA_LEN * total_slots <= mm_part1 (send_mm s).

Lemma slot_blocks s i a b :
  server_ready s -> buffers_apart s -> 0 <= i < total_slots ->
  slot_rev_addr s i = Some a -> slot_send_addr s i = Some b -> b + 8 <= a \/ a + 68 <= b.
Proof.
  intros HR HB Hi Ha Hb. destruct (slot_addrs s i HR Hi) as (E1 & _ & E3).
  rewrite E1 in Ha. rewrite E3 in Hb. injection Ha as <-. injection Hb as <-.
  pose proof sizes_small as (P1 & P2 & P3 & P4 & P5 & _ & _ & E2 & P8).
  destruct (slot_index i Hi) as (K1 & K2 & K3). unfold buffers_apart in HB.
  assert (DATA_LEN * (i + 1) <= DATA_LEN * total_slots) by (apply Z.mul_le_mono_nonneg_l; lia).
  assert (0 <= DATA_LEN * i) by (apply Z.mul_nonneg_nonneg; lia).
  assert (0 <= REPLY_LEN * (i mod SLOT_NUM)) by (apply Z.mul_nonneg_nonneg; lia).
  assert (REPLY_LEN * (i mod SLOT_NUM + 1) <= REPLY_LEN * SLOT_NUM) by (apply Z.mul_le_mono_nonneg_l; lia).
  assert (0 <= (REPLY_LEN * SLOT_NUM + 8 * 1024) * (i / SLOT_NUM)) by (apply Z.mul_nonneg_nonneg; nia).
  assert ((REPLY_LEN * SLOT_NUM + 8 * 1024) * (i / SLOT_NUM + 1)
    <= (REPLY_LEN * SLOT_NUM + 8 * 1024) * (MAX_CLIENT * CLIENT_THREAD))
    by (apply Z.mul_le_mono_nonneg_l; [nia|lia]).
  lia.
Qed.

(** Taking the request. *)
Lemma next_txn_check_found w h q i a b :
  server_ready (server h) -> NULLRPC = false -> dispatch h !! my_fpga_queue w = Some q ->
  (queue_message q).[(msg_id w, 0)] = i -> 0 <= i < total_slots ->
  slot_rev_addr (server h) i = Some a -> slot_send_addr (server h) i = Some b ->
  exists w' h', next_txn_check w h = Some (w', h', true) /\
    txn_reply_addr w' = b /\ m_req_head (now_msg w') = a /\ worker_thread_id w' = worker_thread_id w /\
    msg_id w' = msg_id w /\ my_fpga_queue w' = my_fpga_queue w /\ abort_queue w' = abort_queue w /\
    host_frame h h'.
Proof.
  intros HR HN Hq Hcell Hi Ha Hb. destruct (slot_index i Hi) as (K1 & K2 & K3).
  pose proof sizes_small as (P1 & P2 & _ & _ & _ & _ & _ & E2 & _).
  unfold next_txn_check. rewrite Hq. cbn [mbind option_bind].
  unfold Dispatch.check_now_message, Dispatch.get_message_client_id, Dispatch.get_message_slot_id.
  rewrite Hcell.
  assert ((i =? 0xFFFFFFFF) = false) as ->.
  { apply Z.eqb_neq. unfold total_slots in Hi. nia. }
  cbn [negb]. cbv zeta. rewrite !(wrap_small 16) by (unfold uint; lia).
  unfold slot_rev_addr in Ha. unfold slot_send_addr in Hb.
  destruct (client_connect (server h) (i / SLOT_NUM)) as [c|]; [|discriminate Ha].
  cbn [mbind option_bind] in *. rewrite HN. injection Ha as <-. injection Hb as <-.
  do 2 eexists. split; [reflexivity|]. split_and!; try reflexivity; [|apply host_frame_model].
  change (m_req_head (deserialization (mem h) (get_rev_addr c (i mod SLOT_NUM)) (now_msg w))
    = get_rev_addr c (i mod SLOT_NUM)). unfold deserialization. rewrite HN. reflexivity.
Qed.

Lemma next_txn_check_msg w h q i a w' h' :
  server_ready (server h) -> NULLRPC = false -> dispatch h !! my_fpga_queue w = Some q ->
  (queue_message q).[(msg_id w, 0)] = i -> 0 <= i < total_slots -> slot_rev_addr (server h) i = Some a ->
  next_txn_check w h = Some (w', h', true) -> now_msg w' = deserialization (mem h) a (now_msg w).
Proof.
  intros HR HN Hq Hcell Hi Ha. destruct (slot_index i Hi) as (K1 & K2 & K3).
  pose proof sizes_small as (P1 & P2 & _ & _ & _ & _ & _ & E2 & _).
  unfold next_txn_check. rewrite Hq. cbn [mbind option_bind].
  unfold Dispatch.check_now_message, Dispatch.get_message_client_id, Dispatch.get_message_slot_id. rewrite Hcell.
  assert ((i =? 0xFFFFFFFF) = false) as -> by (apply Z.eqb_neq; unfold total_slots in Hi; nia).
  cbn [negb]. cbv zeta. rewrite !(wrap_small 16) by (unfold uint; lia). unfold slot_rev_addr in Ha.
  destruct (client_connect (server h) (i / SLOT_NUM)) as [c|]; [|discriminate Ha].
  cbn [mbind option_bind] in *. rewrite HN. injection Ha as <-. intros H. injection H as <- <-. reflexivity.
Qed.

(** Answering it. *)
Lemma reply_now_writes w h q :
  NULLRPC = false -> dispatch h !! my_fpga_queue w = Some q ->
  is_Some (req_count (performance h) !! worker_thread_id w) ->
  let a := m_req_head (now_msg w) in let b := txn_reply_addr w in
  b + 8 <= a \/ a + 68 <= b ->
  exists w' h', reply_now false w h = Some (w', h') /\
    ld 4 (mem h') (b + 4) = u32 (ld 4 (mem h) (a + 4) + NOTHING_DEBUG) /\
    (forall x, x < b \/ b + 8 <= x -> byte (mem h') x = byte (mem h) x) /\
    dispatch h' = <[my_fpga_queue w := Dispatch.set_message_down q (msg_id w)]> (dispatch h) /\
    server h' = server h /\ msg_id w' = (msg_id w + 1) mod MESS_NUM /\ my_fpga_queue w' = my_fpga_queue w /\
    worker_thread_id w' = worker_thread_id w /\ abort_queue w' = abort_queue w /\
    counter (req_count (performance h')) (worker_thread_id w) 0
      = u64 (counter (req_count (performance h)) (worker_thread_id w) 0 + 1).
Proof.
  intros HN Hq [cnts Hcnt] a b Hab. unfold reply_now, count_unless, count. cbv zeta.
  set (m1 := write_reply_head w h (mem h)).
  assert (forall x, x < b \/ b + 2 <= x -> byte m1 x = byte (mem h) x) as Hm1.
  { intros x Hx. unfold m1, write_reply_head. destruct YCSBplusT; [|done]. rewrite HN.
    unfold rpc_type_addr, my_nodeid_addr. fold b. rewrite !byte_st by (cbn; lia). done. }
  assert (ld 4 m1 (a + 4) = ld 4 (mem h) (a + 4)) as Hld.
  { apply ld_ext. intros x Hx. apply Hm1. cbn in Hx. lia. }
  clearbody m1.
  set (h1 := h <| mem := write_reply_id w m1 |>).
  assert (performance h1 = performance h) as EP by done. rewrite EP, Hcnt. cbn [mbind option_bind].
  set (h2 := h1 <| performance := _ |>). assert (dispatch h2 = dispatch h) as ED by done.
  rewrite ED, Hq. cbn [mbind option_bind]. do 2 eexists. split; [reflexivity|].
  split_and!; try done.
  - change (ld 4 (st 4 m1 (b + 4) (ld 4 m1 (a + 4) + NOTHING_DEBUG)) (b + 4)
      = u32 (ld 4 (mem h) (a + 4) + NOTHING_DEBUG)). by rewrite ld32_st32, Hld.
  - intros x Hx. change (byte (st 4 m1 (b + 4) (ld 4 m1 (a + 4) + NOTHING_DEBUG)) x = byte (mem h) x).
    rewrite byte_st by (cbn; lia). apply Hm1. lia.
  - unfold counter at 2. rewrite Hcnt. unfold counter.
    change (match <[worker_thread_id w := <[0:=u64 (cnts.[0] + 1)]> cnts]> (req_count (performance h))
      !! worker_thread_id w with Some a => a.[0] | None => 0 end = u64 (cnts.[0] + 1)).
    by rewrite lookup_insert_eq, rd_insert_eq.
Qed.

Context {DB : Type} (sto_ycsb : ycsb_txn_t -> DB -> DB * Z).

(** a worker whose next queue cell names slot [i] runs the request of that
    slot and answers it: one iteration of its loop runs one transaction of
    [YCSBSIZE] operations, stores the request's id plus [NOTHING_DEBUG] in the
    reply block of slot [i], changes no memory outside the head of that block,
    empties its queue cell and no other, moves to the next cell and counts the
    request once. *)
Theorem worker_answers_slot (id i : Z) (t : ycsb_txn_t) (w : worker_msg_t) (h : host) (db : DB)
    (q : fpga_dispatch_queue_t) :
  server_ready (server h) -> buffers_apart (server h) -> NULLRPC = false -> aq_ok (abort_queue w) ->
  is_Some (req_count (performance h) !! worker_thread_id w) ->
  is_Some (req_retry_count (performance h) !! id) ->
  dispatch h !! my_fpga_queue w = Some q -> (queue_message q).[(msg_id w, 0)] = i -> 0 <= i < total_slots ->
  exists t' w' h' a b, ycsb_turn sto_ycsb id t w h db = Some (t', w', h', (sto_ycsb t' db).1) /\
    cnt t' = YCSBSIZE /\ slot_rev_addr (server h) i = Some a /\ slot_send_addr (server h) i = Some b /\
    ld 4 (mem h') (b + 4) = u32 (ld 4 (mem h) (a + 4) + NOTHING_DEBUG) /\
    (forall x, x < b \/ b + 8 <= x -> byte (mem h') x = byte (mem h) x) /\
    dispatch h' = <[my_fpga_queue w := Dispatch.set_message_down q (msg_id w)]> (dispatch h) /\
    server h' = server h /\ msg_id w' = (msg_id w + 1) mod MESS_NUM /\ my_fpga_queue w' = my_fpga_queue w /\
    aq_ok (abort_queue w') /\
    counter (req_count (performance h')) (worker_thread_id w) 0
      = u64 (counter (req_count (performance h)) (worker_thread_id w) 0 + 1).
Proof.
  intros HR HB HN HQ Hc1 Hc2 Hq Hcell Hi.
  destruct (slot_addrs _ i HR Hi) as (Ea & _ & Eb).
  remember (mm_part1 (double_recv_mm (server h)) + DATA_LEN * i) as a eqn:Da.
  match type of Eb with _ = Some ?x => remember x as b eqn:Db end.
  pose proof (slot_blocks _ _ _ _ HR HB Hi Ea Eb) as Hab.
  destruct (next_txn_check_found w h q i a b HR HN Hq Hcell Hi Ea Eb)
    as (w1 & h1 & E1 & F1 & F2 & F3 & F4 & F5 & F6 & G1).
  destruct (msg_next_tx_ok t w1 h1) as (t' & w2 & h2 & E2 & Et & (W1 & W2 & W3 & W4 & W5) & G2 & HQ2).
  { pose proof ycsbsize_ok. lia. }
  { by rewrite F6. }
  pose proof (host_frame_trans _ _ _ G1 G2) as (_ & _ & _ & _ & _ & Hretry).
  destruct (run_txn_ok sto_ycsb id t' h2 db (Hretry id Hc2)) as (h3 & E3 & G3).
  destruct (host_frame_trans _ _ _ G1 (host_frame_trans _ _ _ G2 G3)) as (M1 & M2 & M3 & M4 & _ & _).
  destruct (reply_now_writes w2 h3 q HN) as (w4 & h4 & E4 & R1 & R2 & R3 & R4 & R5 & R6 & R7 & R8 & R9).
  { by rewrite M3, W5, F5. }
  { by rewrite M4, W1, F3. }
  { rewrite W3, F2, W2, F1. exact Hab. }
  exists t', w4, h4, a, b. rewrite W3, F2, W2, F1, M1 in R1. rewrite W2, F1, M1 in R2.
  rewrite M3, W4, W5, F4, F5 in R3. rewrite W1, F3, M4 in R9.
  split.
  { unfold ycsb_turn. rewrite E1. cbn [mbind option_bind negb]. unfold execute. rewrite E2.
    cbn [mbind option_bind]. rewrite E3. cbn [mbind option_bind]. by rewrite E4. }
  rewrite R4, R5, R6, R8, W4, F4, W5, F5, M2. by split_and!.
Qed.
End turn.

(** * Example *)

Lemma demo_ready : server_ready (C := ycsb_alnico) (demo_server ycsb_alnico).
Proof. exact (proj2 (new_connects_ready (C := ycsb_alnico) _ _ _ _ _ demo_cluster_ok)). Qed.

Definition worker_zero : worker_msg_t := {|
  worker_thread_id := 0; txn_reply_addr := 0; txn_addr := 0; client_id := 0; slot_id := 0;
  now_msg := demo_msg; abort_queue := {| abort_queue_key := []; abort_depth := 0 |}; msg_id := 0;
  my_fpga_queue := 0; batch_req_num := 0; last_epoch_num := 0; my_strife_queue := 0; strife_msg_id := 0;
  cq_signal_id := 0; txn_reply_addr_strife := 0; client_node_id := 0; client_thread_id := 0;
  client_rpc_id := 0 |}.

(** The card has put slot 3 into the first cell of worker 2. *)
Definition demo_posted : host :=
  (demo_host ycsb_alnico)
    <| dispatch := <[2 := Dispatch.post (Dispatch.init empty_dispatch) 0 3]> ∅ |>
    <| performance := perf_init_thread (latency_new 24 0) 2 0 |>.

Lemma worker_answers_slot_witness :
  let w := worker_zero <| worker_thread_id := 2 |> <| my_fpga_queue := 2 |> in
  exists t' w' h' n, ycsb_turn (C := ycsb_alnico) (fun _ n => (n + 1, 1)) 2
      {| ops := ∅; cnt := 0; rw_txn := false |} w demo_posted 0 = Some (t', w', h', n) /\
    ld 4 (mem h') (0x20000000 + 8192 * 3 + 4) = 100 /\ msg_id w' = 1 /\ n = 1.
Proof.
  intros w.
  destruct (worker_answers_slot (C := ycsb_alnico) (fun _ n => (n + 1, 1)) 2 3
    {| ops := ∅; cnt := 0; rw_txn := false |} w demo_posted 0
    (Dispatch.post (Dispatch.init empty_dispatch) 0 3))
    as (t' & w' & h' & a & b & H1 & _ & Ha & Hb & H2 & _ & _ & _ & H3 & _).
  - exact demo_ready.
  - left. vm_compute. congruence.
  - reflexivity.
  - reflexivity.
  - eexists. vm_compute. reflexivity.
  - eexists. vm_compute. reflexivity.
  - exact (lookup_insert_eq _ _ _).
  - exact (rd_insert_eq _ (0, 0) 3).
  - vm_compute. split; congruence.
  - exists t', w', h', 1. split_and!; [exact H1| |exact H3|reflexivity].
    assert (slot_send_addr (C := ycsb_alnico) (server demo_posted) 3 = Some (0x20000000 + 8192 * 3)) as E
      by (vm_compute; reflexivity).
    rewrite E in Hb. injection Hb as <-. rewrite H2. reflexivity.
Defined.
