(* ===== verification/Phase.v ===== *)
(** The phases of the Strife build: [ycsb_runner_thread_strife_hack] of
    [benchmark/YCSB_bench.cc] on every worker, [reply_write] and
    [phase_sync_strife] of [nic-sched/rpc_reply.cpp] on the reply thread.

    The threads share [now_phase] and one [strife_phase] cell per worker.  Each
    test of the phase, with the assignment it guards, and each cell the reply
    thread reads is a step of its own, and the steps of the threads interleave
    in any order.  They are a barrier: batches are executed while nobody collects,
    and the completion words are sent only when every worker has finished its
    batch. *)

From S2P Require Import Prelude Config Memory Ring Feature ModelUpdate Perf RpcCommon Msg RpcConnect Central.
From S2P Require Import CentralProps Worker Reply ReplyProps Runner RunnerProps.

(** * State *)

(** Where a worker is in its loop: polling the clients, counting its queue, the
    three tests of the phase, the test of [batch_req_num], and the next
    transaction. *)
Inductive wpc := AtPoll | AtCount | AtOne | AtTwo | AtTest | AtDrain | AtNext.

(** Where the reply thread is: sending replies, reading cell [i], or past the
    loop with [flag] set. *)
Inductive cpc := AtPass | AtScan (i : Z) (flag : bool) | AtSwitch.

#[export] Instance wpc_eq_dec : EqDecision wpc.
Proof. solve_decision. Defined.

Record thread := { t_pc : wpc; t_msg : worker_msg_t; t_txn : ycsb_txn_t }.

Section phase.
Context {C : Config} {W DB : Type}.

Record phase_sys := {
  p_host : host; p_db : DB; p_arrays : reply_arrays; p_world : W;
  p_threads : gmap Z thread; strife_phase : gmap Z Z; now_phase : Z; p_cpc : cpc }.

#[local] Instance eta_phase : Eta phase_sys := fun s => {|
  p_host := p_host s; p_db := p_db s; p_arrays := p_arrays s; p_world := p_world s;
  p_threads := p_threads s; strife_phase := strife_phase s; now_phase := now_phase s; p_cpc := p_cpc s |}.

(** The cells the reply thread looks at. *)
Definition phase_threads : Z := if YCSBplusT then MAX_THREAD else MAX_THREAD + 2.

Definition init_strife_phase (s : phase_sys) : phase_sys :=
  s <| now_phase := 0 |>
    <| strife_phase := for_range 0 (MAX_THREAD + 2) (fun i m => <[i := 0]> m) (strife_phase s) |>.

Inductive phase_event := Closed (id n : Z) | Executed (id : Z) | Replied.

Context (sto_ycsb : ycsb_txn_t -> DB -> DB * Z) (rand : Z -> Z).
Context (ibv_post_send : Z -> send_wr -> W -> Z * W) (ibv_poll_cq : bool -> Z -> W -> Z * list Z * W).

Definition set_thread (id : Z) (t : thread) (s : phase_sys) : phase_sys :=
  s <| p_threads := <[id := t]> (p_threads s) |>.
Definition set_phase (id v : Z) (s : phase_sys) : phase_sys :=
  s <| strife_phase := <[id := v]> (strife_phase s) |>.
Definition at_pc (pc : wpc) (t : thread) : thread := {| t_pc := pc; t_msg := t_msg t; t_txn := t_txn t |}.
Definition with_msg (pc : wpc) (w : worker_msg_t) (t : thread) : thread :=
  {| t_pc := pc; t_msg := w; t_txn := t_txn t |}.

(** The transaction and its answer. *)
Definition strife_execute (id : Z) (t : thread) (h : host) (db : DB) : option (thread * host * DB) :=
  '(x, w, h, db) ← execute sto_ycsb id (t_txn t) (t_msg t) h db;
  let w := w <| batch_req_num := s32 (batch_req_num w - 1) |> in
  '(w, h) ← reply_now_strife w h;
  Some ({| t_pc := AtPoll; t_msg := w; t_txn := x |}, h, db).

(** One step of worker [id] whose state is [t]. *)
Inductive worker_step (id : Z) (t : thread) (s : phase_sys) : list phase_event -> phase_sys -> Prop :=
  | do_poll h :
      t_pc t = AtPoll ->
      run_strife_once rand (strife_slots MAX_THREAD id).1 (strife_slots MAX_THREAD id).2 id (p_host s) = Some h ->
      worker_step id t s [] (set_thread id (at_pc AtCount t) (s <| p_host := h |>))
  | do_count fuel w h :
      t_pc t = AtCount -> count_strife fuel (t_msg t) (p_host s) = Some (w, h) ->
      worker_step id t s [] (set_thread id (with_msg AtOne w t) (s <| p_host := h |>))
  | do_one :
      t_pc t = AtOne ->
      worker_step id t s []
        (set_thread id (at_pc AtTwo t)
           (if (now_phase s =? 1) && ((strife_phase s).[id] =? 0) then set_phase id 1 s else s))
  | do_two_skip :
      t_pc t = AtTwo -> ((strife_phase s).[id] =? 1) && (now_phase s =? 2) = false ->
      worker_step id t s [] (set_thread id (at_pc AtTest t) s)
  | do_two_close w :
      t_pc t = AtTwo -> ((strife_phase s).[id] =? 1) && (now_phase s =? 2) = true ->
      store_count (t_msg t) (p_host s) = Some w ->
      worker_step id t s [Closed id (batch_req_num w)] (set_thread id (with_msg AtTest w t) (set_phase id 2 s))
  | do_test :
      t_pc t = AtTest ->
      worker_step id t s []
        (set_thread id (at_pc (if (now_phase s =? 0) && ((strife_phase s).[id] =? 2) then AtDrain else AtPoll) t) s)
  | do_drain :
      t_pc t = AtDrain ->
      worker_step id t s []
        (if batch_req_num (t_msg t) =? 0 then set_thread id (at_pc AtPoll t) (set_phase id 0 s)
         else set_thread id (at_pc AtNext t) s)
  | do_next_none w h :
      t_pc t = AtNext -> next_txn_check_strife (t_msg t) (p_host s) = Some (w, h, false) ->
      worker_step id t s [] (set_thread id (with_msg AtPoll w t) (s <| p_host := h |>))
  | do_next_txn w h t' h' db' :
      t_pc t = AtNext -> next_txn_check_strife (t_msg t) (p_host s) = Some (w, h, true) ->
      strife_execute id (with_msg AtNext w t) h (p_db s) = Some (t', h', db') ->
      worker_step id t s [Executed id]
        (set_thread id t' (s <| p_host := h' |> <| p_db := db' |>)).

(** The reply thread on the shared state. *)
Definition reply_view (s : phase_sys) : reply_st := {|
  rs_server := server (p_host s); rs_arrays := p_arrays s; rs_world := p_world s |}.
Definition from_reply (st : reply_st) (s : phase_sys) : phase_sys :=
  s <| p_host := (p_host s) <| server := rs_server st |> |> <| p_arrays := rs_arrays st |>
    <| p_world := rs_world st |>.
Definition at_cpc (pc : cpc) (s : phase_sys) : phase_sys := s <| p_cpc := pc |>.

Inductive reply_step (s : phase_sys) : list phase_event -> phase_sys -> Prop :=
  | do_pass fuel st :
      p_cpc s = AtPass ->
      reply_pass ibv_post_send ibv_poll_cq fuel (mem (p_host s)) (reply_view s) = Some st ->
      reply_step s [] (at_cpc (AtScan 0 true) (from_reply st s))
  | do_read i flag :
      p_cpc s = AtScan i flag -> i < phase_threads ->
      reply_step s []
        (at_cpc (AtScan (i + 1) (flag && ((strife_phase s).[i] =? now_phase s))) s)
  | do_end flag :
      p_cpc s = AtScan phase_threads flag ->
      reply_step s [] (at_cpc (if flag then AtSwitch else AtPass) s)
  | do_switch_0 fuel st :
      p_cpc s = AtSwitch -> now_phase s = 0 ->
      reply_write_strife ibv_post_send ibv_poll_cq fuel (reply_view s) = Some st ->
      reply_step s [Replied] (at_cpc AtPass ((from_reply st s) <| now_phase := 1 |>))
  | do_switch_1 clock b full :
      p_cpc s = AtSwitch -> now_phase s = 1 ->
      check_batch_size (strife_batch (p_host s)) 10000 5 clock = (b, full) ->
      reply_step s [] (at_cpc AtPass
        (s <| p_host := (p_host s) <| strife_batch := b |> |> <| now_phase := if full then 2 else 1 |>))
  | do_switch_2 :
      p_cpc s = AtSwitch -> now_phase s = 2 ->
      reply_step s [] (at_cpc AtPass (s <| now_phase := 0 |>)).

Inductive phase_run (s0 : phase_sys) : list phase_event -> phase_sys -> Prop :=
  | run_nil : phase_run s0 [] s0
  | run_worker tr s id t e s' :
      phase_run s0 tr s -> 0 <= id < MAX_THREAD -> p_threads s !! id = Some t -> worker_step id t s e s' ->
      phase_run s0 (tr ++ e) s'
  | run_reply tr s e s' :
      phase_run s0 tr s -> reply_step s e s' -> phase_run s0 (tr ++ e) s'.

(** Before the threads run. *)
Definition phase_start (s : phase_sys) : Prop :=
  now_phase s = 0 /\ p_cpc s = AtPass /\ (forall i, 0 <= i < MAX_THREAD + 2 -> (strife_phase s).[i] = 0) /\
  forall id, 0 <= id < MAX_THREAD -> exists t, p_threads s !! id = Some t /\
    t_pc t = AtPoll /\ batch_req_num (t_msg t) = 0.

End phase.

(** * Histories *)

(** What worker [id] still has to execute of the batch it closed last. *)
Definition owed_step (id n : Z) (e : phase_event) : Z :=
  match e with
  | Closed i k => if i =? id then k else n
  | Executed i => if i =? id then s32 (n - 1) else n
  | Replied => n
  end.
Definition owed (id : Z) (tr : list phase_event) : Z := foldl (owed_step id) 0 tr.

(** How many batches worker [id] has closed, and how often replies were sent. *)
Definition closes (id : Z) (tr : list phase_event) : Z :=
  sumZ (fun e => match e with Closed i _ => Z.b2z (i =? id) | _ => 0 end) tr.
Definition replies (tr : list phase_event) : Z :=
  sumZ (fun e => match e with Replied => 1 | _ => 0 end) tr.

Lemma owed_snoc id tr e : owed id (tr ++ [e]) = owed_step id (owed id tr) e.
Proof. unfold owed. by rewrite foldl_app. Qed.

(** * Frames *)

Section frames.
Context {C : Config}.

Lemma count_strife_batch fuel w h w' h' :
  count_strife fuel w h = Some (w', h') -> batch_req_num w' = batch_req_num w.
Proof.
  revert w h. induction fuel as [|fuel IH]; intros w h; [done|]. cbn [count_strife]. intros E.
  apply bind_Some in E as (q & _ & E). destruct (negb _); [by injection E as <- _|].
  apply bind_Some in E as (b & _ & E). by apply IH in E.
Qed.

Lemma next_strife_batch w h w' h' b :
  next_txn_check_strife w h = Some (w', h', b) -> batch_req_num w' = batch_req_num w.
Proof.
  unfold next_txn_check_strife. intros E. apply bind_Some in E as (q & _ & E).
  destruct (negb _); [by injection E as <- _ _|].
  apply bind_Some in E as (c & _ & E). apply (inj Some) in E. apply pair_eq in E as [E _].
  apply pair_eq in E as [<- _]. reflexivity.
Qed.

Lemma abort_key_batch i w h w' h' :
  worker_abort_key_ycsb i w h = Some (w', h') -> batch_req_num w' = batch_req_num w.
Proof.
  unfold worker_abort_key_ycsb. intros E. apply bind_Some in E as ([q m] & _ & E).
  apply (inj Some) in E. apply pair_eq in E as [<- _]. reflexivity.
Qed.

(** A property kept by every iteration holds after the loop. *)
Lemma for_opt_keeps {S} (P : S -> Prop) b e (f : Z -> S -> option S) s s' :
  (forall i s s', f i s = Some s' -> P s -> P s') -> P s -> for_opt b e f s = Some s' -> P s'.
Proof.
  intros Hstep. unfold for_opt. generalize (seqZ b (e - b)) as l. intros l. revert s.
  induction l as [|i l IH]; intros s Hs E; [by injection E as <-|].
  cbn [foldl] in E. cbn [mbind option_bind] in E. destruct (f i s) as [s1|] eqn:E1.
  - eapply IH; [by eapply Hstep|exact E].
  - exfalso. clear IH. induction l as [|j l IH]; [discriminate E|]. by apply IH.
Qed.

Lemma execute_batch {DB} (sto : ycsb_txn_t -> DB -> DB * Z) id t w h db t' w' h' db' :
  execute sto id t w h db = Some (t', w', h', db') -> batch_req_num w' = batch_req_num w.
Proof.
  unfold execute, msg_next_tx. intros E. apply bind_Some in E as ([[t1 w1] h1] & E1 & E).
  apply bind_Some in E as ([h2 db2] & _ & E). injection E as _ <- _ _.
  apply bind_Some in E1 as ([[[o aw] w2] h3] & EL & E1).
  apply bind_Some in E1 as ([w3 h4] & EA & E1). injection E1 as _ <- _.
  apply abort_key_batch in EA. rewrite EA.
  apply (for_opt_keeps (fun s => batch_req_num s.1.2 = batch_req_num w)) in EL; [done| |done].
  clear. intros i [[[o aw] w1] h1] [[[o' aw'] w2] h2]. unfold msg_step. intros E.
  apply bind_Some in E as ([w3 h3] & E1 & E). injection E as _ _ <- _. cbn [fst snd].
  destruct DYNAMIC; [by injection E1 as -> ->|]. apply abort_key_batch in E1. congruence.
Qed.

Lemma reply_now_strife_batch w h w' h' :
  reply_now_strife w h = Some (w', h') -> batch_req_num w' = batch_req_num w.
Proof.
  unfold reply_now_strife. intros E. apply bind_Some in E as (h1 & _ & E).
  apply bind_Some in E as (h2 & _ & E). apply (inj Some) in E. apply pair_eq in E as [<- _]. reflexivity.
Qed.

Lemma strife_execute_batch {DB} (sto : ycsb_txn_t -> DB -> DB * Z) id t h (db : DB) t' h' db' :
  strife_execute sto id t h db = Some (t', h', db') ->
  t_pc t' = AtPoll /\ batch_req_num (t_msg t') = s32 (batch_req_num (t_msg t) - 1).
Proof.
  unfold strife_execute. intros E. apply bind_Some in E as ([[[x w1] h1] db1] & E1 & E).
  apply bind_Some in E as ([w2 h2] & E2 & E). injection E as <- _ _. cbn [t_pc t_msg].
  apply execute_batch in E1. apply reply_now_strife_batch in E2. rewrite E2, <-E1. done.
Qed.
End frames.

(** * The invariant *)

Section barrier.
Context {C : Config} {CO : ConfigOk C} {W DB : Type}.
Context (sto_ycsb : ycsb_txn_t -> DB -> DB * Z) (rand : Z -> Z).
Context (ibv_post_send : Z -> send_wr -> W -> Z * W) (ibv_poll_cq : bool -> Z -> W -> Z * list Z * W).

Local Abbreviation sys := (phase_sys (W := W) (DB := DB)).
Local Abbreviation worker_step := (worker_step sto_ycsb rand).
Local Abbreviation reply_step := (reply_step ibv_post_send ibv_poll_cq).
Local Abbreviation phase_run := (phase_run sto_ycsb rand ibv_post_send ibv_poll_cq).

(** The phases that go with [now_phase]. *)
Definition phases (p f : Z) : Prop :=
  (p = 0 /\ (f = 0 \/ f = 2)) \/ (p = 1 /\ (f = 0 \/ f = 1)) \/ (p = 2 /\ (f = 1 \/ f = 2)).

(** The worker has closed a batch since the last replies. *)
Definition behind (p f : Z) : Z := if decide (p = 1 \/ (p = 2 /\ f = 1)) then 1 else 0.

Definition thread_ok (p f : Z) (t : thread) (tr : list phase_event) (id : Z) : Prop :=
  phases p f /\ (t_pc t = AtDrain \/ t_pc t = AtNext -> p = 0 /\ f = 2) /\
  (f <> 2 -> batch_req_num (t_msg t) = 0) /\ batch_req_num (t_msg t) = owed id tr /\
  closes id tr = replies tr - behind p f.

Definition scan_ok (s : sys) : Prop :=
  match p_cpc s with
  | AtPass => True
  | AtScan i flag => i <= phase_threads /\
      (flag = true -> forall j, 0 <= j < MAX_THREAD -> j < i -> (strife_phase s).[j] = now_phase s)
  | AtSwitch => forall j, 0 <= j < MAX_THREAD -> (strife_phase s).[j] = now_phase s
  end.

Definition replied_ok (tr : list phase_event) : Prop :=
  forall tr1 tr2, tr = tr1 ++ Replied :: tr2 ->
  forall id, 0 <= id < MAX_THREAD -> owed id tr1 = 0 /\ closes id tr1 = replies tr1.

Record phase_inv (tr : list phase_event) (s : sys) : Prop := {
  inv_thread : forall id, 0 <= id < MAX_THREAD -> exists t, p_threads s !! id = Some t /\
    thread_ok (now_phase s) (strife_phase s).[id] t tr id;
  inv_scan : scan_ok s;
  inv_replied : replied_ok tr }.

(** The event of a step of worker [id]. *)
Definition own_event (id : Z) (e : list phase_event) : Prop :=
  e = [] \/ (exists n, e = [Closed id n]) \/ e = [Executed id].

Lemma own_event_frame id id' e tr :
  own_event id e -> id' <> id ->
  owed id' (tr ++ e) = owed id' tr /\ closes id' (tr ++ e) = closes id' tr /\ replies (tr ++ e) = replies tr.
Proof.
  intros He Hne. assert ((id =? id') = false) as E by (apply Z.eqb_neq; lia).
  destruct He as [->|[[n ->]| ->]]; [by rewrite app_nil_r|..];
    rewrite owed_snoc; unfold owed_step, closes, replies; rewrite !sumZ_app; cbn [sumZ foldr];
    rewrite E; cbn [Z.b2z]; lia.
Qed.

Lemma replied_snoc tr x : replied_ok tr -> x <> Replied -> replied_ok (tr ++ [x]).
Proof.
  intros H Hx tr1 tr2 E id Hid. destruct (exists_last (l := Replied :: tr2)) as (l & y & El); [done|].
  rewrite El, (assoc_L (++)) in E. apply app_inj_tail in E as [E <-].
  destruct l as [|z l]; [by injection El as <- _|]. injection El as <- _. by apply (H tr1 l).
Qed.

Lemma replied_own tr id e : replied_ok tr -> own_event id e -> replied_ok (tr ++ e).
Proof.
  intros H [->|[[n ->]| ->]]; [by rewrite app_nil_r|by apply replied_snoc..].
Qed.

(** What a worker's step may do to the shared state. *)
Lemma inv_worker tr (s s' : sys) id t' e :
  phase_inv tr s -> own_event id e ->
  p_threads s' = <[id := t']> (p_threads s) ->
  (forall j, j <> id -> (strife_phase s').[j] = (strife_phase s).[j]) ->
  now_phase s' = now_phase s -> p_cpc s' = p_cpc s ->
  ((strife_phase s).[id] = now_phase s -> (strife_phase s').[id] = now_phase s) ->
  thread_ok (now_phase s) (strife_phase s').[id] t' (tr ++ e) id ->
  phase_inv (tr ++ e) s'.
Proof.
  intros [HT HS HR] He Hthr Hoth Hnow Hcpc Hstable Hok. split.
  - intros j Hj. rewrite Hthr, Hnow. destruct (decide (j = id)) as [->|Hne].
    + exists t'. by rewrite lookup_insert_eq.
    + destruct (HT j Hj) as (t & Ht & Hok'). exists t. rewrite lookup_insert_ne, Hoth by done. split; [done|].
      destruct (own_event_frame id j e tr He Hne) as (E1 & E2 & E3). unfold thread_ok. by rewrite E1, E2, E3.
  - assert (forall j, (strife_phase s).[j] = now_phase s -> (strife_phase s').[j] = now_phase s) as Hst.
    { intros j Hj. destruct (decide (j = id)) as [->|Hne]; [by apply Hstable|by rewrite Hoth]. }
    unfold scan_ok in *. rewrite Hcpc, Hnow. destruct (p_cpc s) as [|i flag|]; [done| |by auto].
    destruct HS as [HS1 HS2]. split; [done|]. intros Hf j Hj Hji. by apply Hst, HS2.
  - by eapply replied_own.
Qed.

Lemma closes_own tr id x :
  closes id (tr ++ [x]) = closes id tr + match x with Closed i _ => Z.b2z (i =? id) | _ => 0 end /\
  replies (tr ++ [x]) = replies tr + match x with Replied => 1 | _ => 0 end.
Proof. unfold closes, replies. rewrite !sumZ_app. cbn [sumZ foldr]. lia. Qed.

Lemma thread_ok_move p f t t' tr id :
  thread_ok p f t tr id -> batch_req_num (t_msg t') = batch_req_num (t_msg t) ->
  (t_pc t' = AtDrain \/ t_pc t' = AtNext -> p = 0 /\ f = 2) -> thread_ok p f t' tr id.
Proof. intros (H1 & H2 & H3 & H4 & H5) E Hpc. unfold thread_ok. rewrite E. by split_and!. Qed.

(** A step that neither changes the worker's phase nor is an event. *)
Lemma inv_move tr (s s' : sys) id t t' :
  phase_inv tr s -> 0 <= id < MAX_THREAD -> p_threads s !! id = Some t ->
  p_threads s' = <[id := t']> (p_threads s) -> strife_phase s' = strife_phase s ->
  now_phase s' = now_phase s -> p_cpc s' = p_cpc s ->
  batch_req_num (t_msg t') = batch_req_num (t_msg t) ->
  (t_pc t' = AtDrain \/ t_pc t' = AtNext -> now_phase s = 0 /\ (strife_phase s).[id] = 2) ->
  phase_inv (tr ++ []) s'.
Proof.
  intros H Hid Ht H1 H2 H3 H4 H5 H6. destruct (inv_thread _ _ H id Hid) as (t0 & Ht0 & Hok).
  rewrite Ht in Ht0. injection Ht0 as <-.
  eapply (inv_worker tr s s' id t'); rewrite ?H2; try done; [by left|].
  rewrite app_nil_r. by eapply thread_ok_move.
Qed.

(** A step that sets the worker's phase to [f']. *)
Lemma inv_set_phase tr (s s' : sys) id t' e f' :
  phase_inv tr s -> own_event id e -> p_threads s' = <[id := t']> (p_threads s) ->
  strife_phase s' = <[id := f']> (strife_phase s) -> now_phase s' = now_phase s -> p_cpc s' = p_cpc s ->
  (strife_phase s).[id] <> now_phase s ->
  thread_ok (now_phase s) f' t' (tr ++ e) id -> phase_inv (tr ++ e) s'.
Proof.
  intros H He H1 H2 H3 H4 Hne Hok. eapply (inv_worker tr s s' id t' e); rewrite ?H2; try done.
  - intros j Hj. rewrite rd_insert. by rewrite decide_False by congruence.
  - by rewrite rd_insert_eq.
Qed.

Lemma worker_step_inv tr s id t e s' :
  phase_inv tr s -> 0 <= id < MAX_THREAD -> p_threads s !! id = Some t -> worker_step id t s e s' ->
  phase_inv (tr ++ e) s'.
Proof.
  intros H Hid Ht Hstep. destruct (inv_thread _ _ H id Hid) as (t0 & Ht0 & P & D & B & O & K).
  rewrite Ht in Ht0. injection Ht0 as <-.
  destruct Hstep as [h Hpc E|fuel w h Hpc E|Hpc|Hpc E|w Hpc E ES|Hpc|Hpc|w h Hpc E|w h t' h' db' Hpc E EX].
  - eapply inv_move; try done; by intros [?|?].
  - apply count_strife_batch in E. eapply inv_move; try done; by intros [?|?].
  - destruct (_ && _) eqn:E.
    + apply andb_true_iff in E as [E1%Z.eqb_eq E2%Z.eqb_eq]. rewrite E1, E2 in *.
      eapply (inv_set_phase tr s _ id _ [] 1); try done; [by left|lia|].
      rewrite app_nil_r. rewrite E1. split_and!; [right; left; lia|by intros [?|?]|by intros _; apply B|done|].
      rewrite K. done.
    + eapply inv_move; try done; by intros [?|?].
  - eapply inv_move; try done; by intros [?|?].
  - apply andb_true_iff in E as [E1%Z.eqb_eq E2%Z.eqb_eq]. rewrite E1, E2 in *.
    eapply (inv_set_phase tr s _ id _ _ 2); try done; [right; left; by eexists|lia|]. rewrite E2.
    destruct (closes_own tr id (Closed id (batch_req_num w))) as [K1 K2].
    split_and!; [right; right; lia|by intros [?|?]|done| |].
    + rewrite owed_snoc. cbn [owed_step]. by rewrite Z.eqb_refl.
    + rewrite K1, K2, K, Z.eqb_refl. cbn [Z.b2z]. change (behind 2 1) with 1. change (behind 2 2) with 0. lia.
  - eapply inv_move; try done. cbn [t_pc at_pc].
    destruct (_ && _) eqn:E; [|by intros [?|?]]. intros _.
    by apply andb_true_iff in E as [E1%Z.eqb_eq E2%Z.eqb_eq].
  - destruct (D (or_introl Hpc)) as [D1 D2]. destruct (Z.eqb_spec (batch_req_num (t_msg t)) 0) as [E|E].
    + eapply (inv_set_phase tr s _ id _ [] 0); try done; [by left|lia|].
      rewrite app_nil_r, D1. rewrite D1, D2 in K. split_and!; [left; lia|by intros [?|?]|done|done|done].
    + eapply inv_move; try done.
  - apply next_strife_batch in E. eapply inv_move; try done; by intros [?|?].
  - destruct (D (or_intror Hpc)) as [D1 D2]. apply next_strife_batch in E.
    apply strife_execute_batch in EX as [X1 X2]. cbn [t_msg with_msg] in X2.
    eapply (inv_worker tr s _ id t' [Executed id]); try done; [by right; right|].
    change (strife_phase (set_thread id t' _)) with (strife_phase s). rewrite D1, D2.
    destruct (closes_own tr id (Executed id)) as [K1 K2]. rewrite D1, D2 in K.
    split_and!; [left; lia|rewrite X1; by intros [?|?]|lia| |lia].
    rewrite owed_snoc. cbn [owed_step]. by rewrite Z.eqb_refl, X2, E, O.
Qed.

(** The reply thread moves on to its next loop without an event. *)
Lemma inv_cpc tr (s s' : sys) :
  phase_inv tr s -> p_threads s' = p_threads s -> strife_phase s' = strife_phase s ->
  now_phase s' = now_phase s -> scan_ok s' -> phase_inv (tr ++ []) s'.
Proof.
  intros [HT HS HR] H1 H2 H3 HS'. rewrite app_nil_r. split; [|done|done]. by rewrite H1, H2, H3.
Qed.

(** All the workers have reached [now_phase], which moves on to [p']. *)
Lemma inv_switch tr (s s' : sys) p' e :
  phase_inv tr s -> p_cpc s = AtSwitch -> p_cpc s' = AtPass ->
  p_threads s' = p_threads s -> strife_phase s' = strife_phase s -> now_phase s' = p' ->
  (e = [] /\ (now_phase s = 1 /\ (p' = 1 \/ p' = 2) \/ now_phase s = 2 /\ p' = 0) \/
   e = [Replied] /\ now_phase s = 0 /\ p' = 1) ->
  phase_inv (tr ++ e) s'.
Proof.
  intros [HT HS HR] HC HC' H1 H2 H3 He. unfold scan_ok in HS. rewrite HC in HS. split.
  - intros id Hid. destruct (HT id Hid) as (t & Ht & P & D & B & O & K). exists t. rewrite H1, H2, H3.
    split; [done|]. rewrite (HS id Hid) in *.
    destruct He as [[-> [[E Hp]|[E Hp]]]|(-> & E & Hp)]; rewrite E in *.
    + rewrite app_nil_r. split_and!; [unfold phases; lia|intros Hd%D; lia|done|done|]. destruct Hp as [->| ->]; exact K.
    + rewrite app_nil_r, Hp. split_and!; [left; lia|intros Hd%D; lia|done|done|exact K].
    + destruct (closes_own tr id Replied) as [K1 K2]. unfold thread_ok. rewrite owed_snoc, K1, K2, Hp.
      split_and!; [right; left; lia|intros Hd%D; lia|done|done|].
      change (behind 0 0) with 0 in K. change (behind 1 0) with 1. lia.
  - unfold scan_ok. by rewrite HC'.
  - destruct He as [[-> _]|(-> & E & Hp)]; [by rewrite app_nil_r|].
    intros tr1 tr2 Etr id Hid. destruct (HT id Hid) as (t & Ht & P & D & B & O & K).
    destruct (exists_last (l := Replied :: tr2)) as (l & y & El); [done|].
    rewrite El, (assoc_L (++)) in Etr. apply app_inj_tail in Etr as [Etr <-].
    destruct l as [|z l]; [|injection El as <- _; by apply (HR tr1 l)].
    rewrite app_nil_r in Etr. subst tr1. rewrite (HS id Hid), E in *.
    change (behind 0 0) with 0 in K. rewrite <-O. split; [by apply B|lia].
Qed.

Lemma reply_step_inv tr s e s' : phase_inv tr s -> reply_step s e s' -> phase_inv (tr ++ e) s'.
Proof using CO.
  intros H Hstep. pose proof (inv_scan _ _ H) as HS. pose proof max_thread_ok as HM. unfold scan_ok in HS.
  assert (MAX_THREAD <= phase_threads) as HPT by (unfold phase_threads; destruct YCSBplusT; lia).
  destruct Hstep as [fuel st Hc E|i flag Hc Hi|flag Hc|fuel st Hc Hp E|clock b full Hc Hp E|Hc Hp]; rewrite Hc in HS.
  - eapply inv_cpc; try done. split; [lia|]. intros _ j Hj Hji. lia.
  - eapply inv_cpc; try done. destruct HS as [HS1 HS2]. split; [lia|].
    intros [Hf Hcell%Z.eqb_eq]%andb_true_iff j Hj Hji. destruct (decide (j = i)) as [->|]; [done|].
    apply HS2; [done|done|lia].
  - eapply inv_cpc; try done. unfold scan_ok. destruct HS as [_ HS2].
    destruct flag; cbn; [|done]. intros j Hj. apply HS2; [done|done|lia].
  - eapply inv_switch; try done. right. by split_and!.
  - eapply inv_switch; try done. left. split; [done|]. left. split; [done|]. destruct full; cbn; lia.
  - eapply inv_switch; try done. left. split; [done|]. by right.
Qed.

Lemma phase_run_inv s0 tr s : phase_start s0 -> phase_run s0 tr s -> phase_inv tr s.
Proof using CO.
  intros (H1 & H2 & H3 & H4) Hrun. induction Hrun as [|tr s id t e s' Hrun IH Hid Ht Hs|tr s e s' Hrun IH Hs].
  - split.
    + intros id Hid. destruct (H4 id Hid) as (t & Ht & Hpc & Hb). exists t. split; [done|].
      rewrite H1, H3 by lia. split_and!; [left; lia|rewrite Hpc; by intros [?|?]|done|done|done].
    + unfold scan_ok. by rewrite H2.
    + intros tr1 tr2 E. by destruct tr1.
  - by eapply worker_step_inv.
  - by eapply reply_step_inv.
Qed.

(** C17: in every run of the workers and the reply thread, whatever their
    interleaving: whenever the completion words are sent, every worker has
    executed all the requests of the batch it closed last and has closed exactly
    one batch for each earlier round of replies; and while a worker executes,
    [now_phase] is 0, the reply thread is not about to change it, every worker has
    either finished or is still executing its own closed batch, and no worker
    closes a batch.  (Workers go on polling and counting for the next batch.) *)
Theorem strife_phase_barrier (s0 s : sys) (tr : list phase_event) :
  phase_start s0 -> phase_run s0 tr s ->
  (forall tr1 tr2 id, tr = tr1 ++ Replied :: tr2 -> 0 <= id < MAX_THREAD ->
     owed id tr1 = 0 /\ closes id tr1 = replies tr1) /\
  (forall id t, 0 <= id < MAX_THREAD -> p_threads s !! id = Some t -> t_pc t = AtNext ->
     now_phase s = 0 /\ (strife_phase s).[id] = 2 /\ p_cpc s <> AtSwitch /\
     (forall id', 0 <= id' < MAX_THREAD -> (strife_phase s).[id'] = 0 \/ (strife_phase s).[id'] = 2) /\
     forall id' t' n s', ~ worker_step id' t' s [Closed id' n] s').
Proof using CO.
  intros H0 Hrun. pose proof (phase_run_inv s0 tr s H0 Hrun) as [HT HS HR]. split.
  - intros tr1 tr2 id E Hid. by eapply HR.
  - intros id t Hid Ht Hpc. destruct (HT id Hid) as (t0 & Ht0 & _ & D & _). rewrite Ht in Ht0. injection Ht0 as <-.
    destruct D as [D1 D2]; [by right|]. split_and!; [done|done| | |].
    + intros HC. unfold scan_ok in HS. rewrite HC in HS. specialize (HS id Hid). lia.
    + intros id' Hid'. destruct (HT id' Hid') as (t' & _ & P & _). unfold phases in P. lia.
    + intros id' t' n s' Hs. inversion Hs as [| | | |w Hpc' E Hw| | | |].
      apply andb_true_iff in E as [_ E%Z.eqb_eq]. lia.
Qed.
End barrier.

(** * Running a schedule *)

Section exec.
Context {C : Config} {W DB : Type}.
Context (sto_ycsb : ycsb_txn_t -> DB -> DB * Z) (rand : Z -> Z).
Context (ibv_post_send : Z -> send_wr -> W -> Z * W) (ibv_poll_cq : bool -> Z -> W -> Z * list Z * W).
Context (fuel : nat) (clock : Z).

Local Abbreviation sys := (phase_sys (W := W) (DB := DB)).
#[local] Existing Instance eta_phase.

(** The step of a worker. *)
Definition worker_exec (id : Z) (t : thread) (s : sys) : option (list phase_event * sys) :=
  match t_pc t with
  | AtPoll =>
      h ← run_strife_once rand (strife_slots MAX_THREAD id).1 (strife_slots MAX_THREAD id).2 id (p_host s);
      Some ([], set_thread id (at_pc AtCount t) (s <| p_host := h |>))
  | AtCount =>
      '(w, h) ← count_strife fuel (t_msg t) (p_host s);
      Some ([], set_thread id (with_msg AtOne w t) (s <| p_host := h |>))
  | AtOne => Some ([], set_thread id (at_pc AtTwo t)
      (if (now_phase s =? 1) && ((strife_phase s).[id] =? 0) then set_phase id 1 s else s))
  | AtTwo =>
      if ((strife_phase s).[id] =? 1) && (now_phase s =? 2) then
        w ← store_count (t_msg t) (p_host s);
        Some ([Closed id (batch_req_num w)], set_thread id (with_msg AtTest w t) (set_phase id 2 s))
      else Some ([], set_thread id (at_pc AtTest t) s)
  | AtTest => Some ([], set_thread id
      (at_pc (if (now_phase s =? 0) && ((strife_phase s).[id] =? 2) then AtDrain else AtPoll) t) s)
  | AtDrain => Some ([],
      if batch_req_num (t_msg t) =? 0 then set_thread id (at_pc AtPoll t) (set_phase id 0 s)
      else set_thread id (at_pc AtNext t) s)
  | AtNext =>
      '(w, h, found) ← next_txn_check_strife (t_msg t) (p_host s);
      if (found : bool) then
        '(t', h', db') ← strife_execute sto_ycsb id (with_msg AtNext w t) h (p_db s);
        Some ([Executed id], set_thread id t' (s <| p_host := h' |> <| p_db := db' |>))
      else Some ([], set_thread id (with_msg AtPoll w t) (s <| p_host := h |>))
  end.

(** The step of the reply thread. *)
Definition reply_exec (s : sys) : option (list phase_event * sys) :=
  match p_cpc s with
  | AtPass =>
      st ← reply_pass ibv_post_send ibv_poll_cq fuel (mem (p_host s)) (reply_view s);
      Some ([], at_cpc (AtScan 0 true) (from_reply st s))
  | AtScan i flag =>
      if i <? phase_threads
      then Some ([], at_cpc (AtScan (i + 1) (flag && ((strife_phase s).[i] =? now_phase s))) s)
      else if i =? phase_threads then Some ([], at_cpc (if flag then AtSwitch else AtPass) s) else None
  | AtSwitch =>
      if now_phase s =? 0 then
        st ← reply_write_strife ibv_post_send ibv_poll_cq fuel (reply_view s);
        Some ([Replied], at_cpc AtPass ((from_reply st s) <| now_phase := 1 |>))
      else if now_phase s =? 1 then
        let '(b, full) := check_batch_size (strife_batch (p_host s)) 10000 5 clock in
        Some ([], at_cpc AtPass
          (s <| p_host := (p_host s) <| strife_batch := b |> |> <| now_phase := if (full : bool) then 2 else 1 |>))
      else if now_phase s =? 2 then Some ([], at_cpc AtPass (s <| now_phase := 0 |>)) else None
  end.

(** [None] is the reply thread. *)
Fixpoint phase_exec (sched : list (option Z)) (tr : list phase_event) (s : sys) : option (list phase_event * sys) :=
  match sched with
  | [] => Some (tr, s)
  | None :: sched => '(e, s) ← reply_exec s; phase_exec sched (tr ++ e) s
  | Some id :: sched =>
      if (0 <=? id) && (id <? MAX_THREAD) then
        t ← p_threads s !! id; '(e, s) ← worker_exec id t s; phase_exec sched (tr ++ e) s
      else None
  end.

Lemma worker_exec_step id t s e s' : worker_exec id t s = Some (e, s') -> worker_step sto_ycsb rand id t s e s'.
Proof.
  unfold worker_exec. destruct (t_pc t) eqn:Hpc; intros E.
  - apply bind_Some in E as (h & E & [= <- <-]). by apply do_poll.
  - apply bind_Some in E as ([w h] & E & [= <- <-]). by eapply do_count.
  - injection E as <- <-. by apply do_one.
  - destruct (_ && _) eqn:Ec; [|injection E as <- <-; by apply do_two_skip].
    apply bind_Some in E as (w & E & [= <- <-]). by apply do_two_close.
  - injection E as <- <-. by apply do_test.
  - injection E as <- <-. by apply do_drain.
  - apply bind_Some in E as ([[w h] found] & En & E). destruct found; [|injection E as <- <-; by apply do_next_none].
    apply bind_Some in E as ([[t' h'] db'] & E & [= <- <-]). by eapply do_next_txn.
Qed.

Lemma reply_exec_step s e s' : reply_exec s = Some (e, s') -> reply_step ibv_post_send ibv_poll_cq s e s'.
Proof.
  unfold reply_exec. destruct (p_cpc s) as [|i flag|] eqn:Hc; intros E.
  - apply bind_Some in E as (st & E & [= <- <-]). by eapply do_pass.
  - destruct (Z.ltb_spec i phase_threads); [injection E as <- <-; by apply do_read|].
    destruct (Z.eqb_spec i phase_threads) as [->|]; [|done]. injection E as <- <-. by apply do_end.
  - destruct (Z.eqb_spec (now_phase s) 0); [apply bind_Some in E as (st & E & [= <- <-]); by eapply do_switch_0|].
    destruct (Z.eqb_spec (now_phase s) 1).
    + destruct (check_batch_size _ _ _ _) as [b full] eqn:Eb. injection E as <- <-. by eapply do_switch_1.
    + destruct (Z.eqb_spec (now_phase s) 2); [|done]. injection E as <- <-. by apply do_switch_2.
Qed.

Lemma phase_exec_run s0 sched : forall tr s tr' s',
  phase_run sto_ycsb rand ibv_post_send ibv_poll_cq s0 tr s -> phase_exec sched tr s = Some (tr', s') ->
  phase_run sto_ycsb rand ibv_post_send ibv_poll_cq s0 tr' s'.
Proof.
  induction sched as [|[id|] sched IH]; intros tr s tr' s' Hr E; cbn [phase_exec] in E.
  - by injection E as <- <-.
  - destruct (_ && _) eqn:Eb; [|done]. apply andb_true_iff in Eb as [Eb1%Z.leb_le Eb2%Z.ltb_lt].
    apply bind_Some in E as (t & Et & E). apply bind_Some in E as ([e s1] & Ee & E).
    eapply IH; [|exact E]. eapply run_worker; [exact Hr|done|exact Et|by apply worker_exec_step].
  - apply bind_Some in E as ([e s1] & Ee & E). eapply IH; [|exact E]. eapply run_reply; [exact Hr|by apply reply_exec_step].
Qed.
End exec.

(** * Example *)

(** The Strife build of the YCSB scripts, and a card that completes every write at
    once.  Slot 3 holds a request for worker 2. *)
Definition ycsb_strife : Config := {|
  MAX_THREAD := 20; CLIENT_THREAD := 24; ASYNCTXNUM := 4; YCSBSIZE := 16;
  YCSBCOL := 20; YCSBplusT := true; NULLRPC := false; STATIC_BEST := false;
  DYNAMIC := false; CPUBASED := 3; BASELINE := 0 |}.
#[local] Instance ycsb_strife_ok : ConfigOk ycsb_strife.
Proof. split; simpl; lia. Qed.

Definition demo_arrays : reply_arrays :=
  default {| wr := ∅; last_rpc_id := ∅; wr_strife := ∅; tpcc_reply_delivery := ∅ |}
    (reply_write_init (C := ycsb_strife) (demo_reply_server ycsb_strife)
       {| wr := ∅; last_rpc_id := ∅; wr_strife := ∅; tpcc_reply_delivery := ∅ |}).

Definition demo_thread (i : Z) : thread :=
  {| t_pc := AtPoll; t_msg := worker_zero <| worker_thread_id := i |> <| my_strife_queue := i |>;
     t_txn := {| ops := ∅; cnt := 0; rw_txn := false |} |}.

(** The first cells of a queue. *)
Definition short_queue : strife_queue_t := {| strife_message := for_range 0 4 (fun i m => <[i := 0xFFFFFFFF]> m) ∅ |}.
Definition counters : latency_evaluation_t := for_range 0 20 (fun i p => perf_init_thread p i 0) (latency_new 24 0).

Definition demo_phase : phase_sys (W := sim) (DB := unit) := init_strife_phase (C := ycsb_strife) {|
  p_host := (demo_host ycsb_strife) <| server := demo_reply_server ycsb_strife |>
    <| mem := st 1 (pending_at demo_addr ∅) (demo_addr + 1) 1 |>
    <| strife_dispatch := for_range 0 20 (fun i m => <[i := short_queue]> m) ∅ |>
    <| performance := counters |> <| strife_batch := counters |>
    <| central := central_zero <| strife_queue := for_range 0 20 (fun i m => <[i := i]> m) ∅ |>
         <| strife_buffer := 0x50000000 |> |>;
  p_db := tt; p_arrays := demo_arrays; p_world := sim_start;
  p_threads := for_range 0 20 (fun i m => <[i := demo_thread i]> m) ∅;
  strife_phase := ∅; now_phase := 7; p_cpc := AtPass |}.

(** All workers make [n] steps, and the reply thread looks at all of them. *)
Definition workers (n : nat) : list (option Z) := seqZ 0 20 ≫= fun id => replicate n (Some id).
Definition round : list (option Z) := replicate 23 None.
Definition collect : list (option Z) := round ++ workers 5 ++ round ++ workers 5 ++ round ++ workers 6.

Local Abbreviation exec := (phase_exec (C := ycsb_strife) (fun _ (d : unit) => (d, 1)) (fun n => n) ibv_post_send ibv_poll_cq
  50 (2 ^ 40)).
Local Abbreviation run := (phase_run (C := ycsb_strife) (fun _ (d : unit) => (d, 1)) (fun n => n) ibv_post_send ibv_poll_cq).

Lemma demo_phase_start : phase_start (C := ycsb_strife) demo_phase.
Proof.
  split_and!; [reflexivity|reflexivity| |].
  - assert (forallb (fun i => (strife_phase demo_phase).[i] =? 0) (seqZ 0 22) = true) as K by (vm_compute; reflexivity).
    intros i Hi. apply Z.eqb_eq. exact (forallb_seqZ _ _ _ i K Hi).
  - intros id Hid. exists (demo_thread id). split; [|by split].
    change (for_range 0 20 (fun i (m : gmap Z thread) => <[i := demo_thread i]> m) ∅ !! id = Some (demo_thread id)).
    change (0 <= id < 20) in Hid. revert id Hid.
    apply (for_range_ind (fun k (m : gmap Z thread) => forall id, 0 <= id < k -> m !! id = Some (demo_thread id)) 0 20).
    + lia.
    + lia.
    + intros k m Hk IH id Hid. destruct (decide (k = id)) as [->|]; [apply lookup_insert_eq|].
      rewrite lookup_insert_ne by done. apply IH. lia.
Qed.

(** The events of a schedule, and whether worker 2 is at its next transaction. *)
Definition look (sched : list (option Z)) : option (list phase_event * bool) :=
  match exec sched [] demo_phase with
  | Some (tr, s) => Some (tr, match p_threads s !! 2 with Some t => bool_decide (t_pc t = AtNext) | None => false end)
  | None => None
  end.

Definition closings : list phase_event :=
  map (fun id => Closed id (if id =? 2 then 1 else 0)) (seqZ 0 20).

Lemma look_run sched tr : look sched = Some (tr, true) ->
  exists s t, run demo_phase tr s /\ p_threads s !! 2 = Some t /\ t_pc t = AtNext.
Proof.
  unfold look. destruct (exec sched [] demo_phase) as [[tr' s]|] eqn:E; [|done].
  destruct (p_threads s !! 2) as [t|] eqn:Et; [|done]. intros [= <- Hb%bool_decide_eq_true].
  exists s, t. split; [|done]. exact (phase_exec_run _ _ _ _ _ _ _ _ _ _ _ _ (run_nil (C := ycsb_strife) _ _ _ _ _) E).
Qed.

Lemma look_trace sched tr b : look sched = Some (tr, b) -> exists s, run demo_phase tr s.
Proof.
  unfold look. destruct (exec sched [] demo_phase) as [[tr' s]|] eqn:E; [|done]. intros [= <- _].
  exists s. exact (phase_exec_run _ _ _ _ _ _ _ _ _ _ _ _ (run_nil (C := ycsb_strife) _ _ _ _ _) E).
Qed.

(** One batch: the 20 workers close theirs, worker 2 with the one request of the
    run.  While it is about to execute it the phase is 0; the second round of
    completion words comes after it has executed it. *)
Lemma strife_phase_barrier_witness :
  (exists s t, run demo_phase (Replied :: closings) s /\ p_threads s !! 2 = Some t /\ t_pc t = AtNext /\
     now_phase s = 0 /\ (strife_phase s).[2] = 2 /\ p_cpc s <> AtSwitch) /\
  (exists s, run demo_phase (Replied :: closings ++ [Executed 2; Replied]) s) /\
  owed 2 (Replied :: closings) = 1 /\
  owed 2 (Replied :: closings ++ [Executed 2]) = 0 /\
  closes 2 (Replied :: closings ++ [Executed 2]) = replies (Replied :: closings ++ [Executed 2]).
Proof.
  split.
  - destruct (look_run collect (Replied :: closings)) as (s & t & Hrun & Ht & Hpc); [vm_compute; reflexivity|].
    exists s, t. destruct (strife_phase_barrier (C := ycsb_strife) _ _ _ _ _ _ _ demo_phase_start Hrun) as [_ H].
    destruct (H 2 t ltac:(cbn; lia) Ht Hpc) as (H1 & H2 & H3 & _). split_and!; assumption.
  - destruct (look_trace (collect ++ workers 12 ++ round) (Replied :: closings ++ [Executed 2; Replied]) false)
      as [s Hrun]; [vm_compute; reflexivity|].
    split; [by exists s|]. split; [reflexivity|].
    destruct (strife_phase_barrier (C := ycsb_strife) _ _ _ _ _ _ _ demo_phase_start Hrun) as [H _].
    refine (H (Replied :: closings ++ [Executed 2]) [] 2 _ ltac:(cbn; lia)). reflexivity.
Defined.
