(* ===== verification/Delivery.v ===== *)
(** The delivery queues of TPC-C are first-in first-out: [tpcc_delivery_t] is an
    instance of the ring protocol, one ring per warehouse. *)

From S2P Require Import Prelude Memory Config Ring Perf RpcCommon RpcConnect Central CentralProps Worker.

#[local] Set Default Proof Using "Type*".

(** * The ring of a warehouse *)

Record dqueue := { dcells : gmap Z Z }.

#[export] Instance delivery_ring {C : Config} : RingQueue dqueue := {|
  capacity := delivery_length; empty_mark := delivery_empty;
  cell q i := (dcells q).[i];
  check_now_message q i := negb ((dcells q).[i] =? delivery_empty);
  set_message_down q i := {| dcells := <[i := delivery_empty]> (dcells q) |};
  post_message q i v := {| dcells := <[i := v]> (dcells q) |};
  ring_init q := {| dcells := delivery_init_queue (dcells q) |} |}.

Lemma delivery_length_pos {C : Config} {CO : ConfigOk C} : 0 < delivery_length <= 49152.
Proof. pose proof client_thread_ok. unfold delivery_length, MAX_CLIENT. lia. Qed.

#[export] Instance delivery_laws {C : Config} {CO : ConfigOk C} : RingQueueLaws dqueue.
Proof.
  split.
  - apply delivery_length_pos.
  - intros q i j v. cbn. by rewrite rd_insert.
  - intros q i j. cbn. by rewrite rd_insert.
  - done.
  - intros q i Hi. change (0 <= i < delivery_length) in Hi.
    change ((delivery_init_queue (dcells q)).[i] = delivery_empty). unfold delivery_init_queue.
    apply (for_range_ind (fun k (m : gmap Z Z) => i < k -> m.[i] = delivery_empty) 0 delivery_length);
      [lia|lia| |lia].
    intros k m Hk IH Hlt. rewrite rd_insert. case_decide; [done|]. apply IH. lia.
Qed.

Section delivery.
Context {C : Config} {CO : ConfigOk C}.




(** * Runs *)









End delivery.




