(* ===== verification/FpgaInit.v ===== *)
(** [nic-sched/fpga.cpp]: the server's side of the card, and the agreement of
    the two sides on addresses.

    The server maps the card's memory and a piece of reserved host memory, and
    starts the card with a set of registers; the card derives from them where the
    clients' metadata arrives and where the dispatch queues are.  The two
    programs share no header: that they mean the same bytes is a theorem. *)

From S2P Require Import Prelude Memory Config Ring Fpga FpgaPipeline RpcCommon RpcConnect Central.

Section init.
Context {C : Config}.

(** * Sizes *)

(** [MESS_LEN * (MESS_NUM + 4)], as asserted by [init_fpga]. *)
Definition sizeof_fpga_dispatch_queue_t : Z := 4 + 4 + 4 + 244 + MESS_NUM * (4 * (MESS_LEN / 4)).
Definition FPGATEST_BUF : Z := 4096.
Definition control_size : Z := u32 (u32 (sizeof_fpga_dispatch_queue_t * MAX_CORE) + 4096 + FPGATEST_BUF).
Definition CARD_WINDOW : Z := 0x100000.

(** * init_fpga *)

Record fpga_layout := { fpga_mm : Z; host_mm : Z; control_mm : Z; control_addr : Z }.

(** [fpga_addr] is where [mmap] put the card's memory and [host_addr] what
    [p_alloc] (or [malloc]) returned.  [None]: an assertion failed. *)
Definition init_fpga (fpga_addr host_addr : Z) (h : host) : option (fpga_layout * host) :=
  if negb (sizeof_fpga_dispatch_queue_t =? MESS_LEN * (MESS_NUM + 4)) then None
  else if negb (u32 (control_size + fpga_rev_size) <=? 2 * 1024 * 1024) then None
  else
    Some ({| fpga_mm := fpga_addr; host_mm := host_addr; control_mm := u64 (host_addr + fpga_rev_size);
             control_addr := u64 (fpga_addr + fpga_rev_size) |},
          h <| dispatch := for_range 0 MAX_THREAD (fun i m =>
                 <[i := Dispatch.init {| q_head := 0; q_tail := 0; message_count := 0; padding := ∅;
                                         queue_message := ∅ |}]> m) ∅ |>).

(** The two mappings of the card's memory: the byte of the card behind the
    [x]-th byte from [fpga_mm]. *)
Definition card_byte (x : Z) : Z :=
  if x <? fpga_rev_size / 2 then x else CARD_WINDOW + (x - fpga_rev_size / 2).

(** The byte of the reserved host memory behind [queue_message[k][0]] of queue
    [c], counted from [host_mm]. *)
Definition queue_byte (c k : Z) : Z :=
  fpga_rev_size + c * sizeof_fpga_dispatch_queue_t + (4 + 4 + 4 + 244) + k * (4 * (MESS_LEN / 4)).

(** * begin_fpga *)

(** The registers of the [i]-th scheduler. *)
Definition begin_args (i : Z) : Hls.sched_args :=
  let client_num_per_ip := (MAX_CLIENT * CLIENT_THREAD + PARALLEL_IP_NUM - 1) / PARALLEL_IP_NUM in
  {| Hls.con := 2; Hls.a_BASE_ADDR := s32 fpga_rev_size;
     Hls.a_CLIENT_NUM := MAX_CLIENT * CLIENT_THREAD; Hls.a_SLOT_NUM := SLOT_NUM;
     Hls.a_CORE_NUM := CORE_NUM; Hls.a_MESS_NUM := MESS_NUM / PARALLEL_IP_NUM;
     Hls.a_b_client := client_num_per_ip * i;
     Hls.a_e_client := Z.min (client_num_per_ip * (i + 1)) (MAX_CLIENT * CLIENT_THREAD);
     Hls.a_b_core := 0; Hls.a_e_core := 0; Hls.a_ip_id := i * 2 |}.

(** [*control_addr = 666] and the start of the schedulers: the word as the
    card sees it, and the registers of each scheduler. *)
Definition begin_fpga (m1 : gmap Z Z) : gmap Z Z * list Hls.sched_args :=
  (<[card_byte fpga_rev_size / 4 := 666]> m1, begin_args <$> seqZ 0 PARALLEL_IP_NUM).

End init.

(** * The card's tables *)

Import Hls.

(** After [n] rounds of the two slot loops; [h] is half the number of
    clients. *)
Definition slots_done (s : fpga) (h n : Z) (s' : fpga) : Prop :=
  (my_client_num s' = my_client_num s /\ SLOT_NUM s' = SLOT_NUM s /\
   QUEUE_ADDR_BASE s' = QUEUE_ADDR_BASE s /\ CORE_NUM s' = CORE_NUM s /\
   queue_addr_map s' = queue_addr_map s /\ CLIENT_NUM s' = CLIENT_NUM s) /\
  (forall k, 0 <= k < h * SLOT_NUM s ->
     (k < n -> (slot_offset0 s').[k] = (SLOT_LEN * k + QUEUE_ADDR_BASE s) / 4 + 16 /\
               (RRB0 s').[k] = 0 /\ (RRB1 s').[k] = 0) /\
     (k + h * SLOT_NUM s < n -> (slot_offset1 s').[k] = (SLOT_LEN * k + QUEUE_ADDR_BASE s) / 4 + 16)) /\
  (forall k, 0 <= k < n -> (old_core_id s').[k] = CORE_NUM s).

Lemma slots_step s h i j s1 :
  my_client_num s = 2 * h -> 0 <= i < 2 * h -> 0 <= j < SLOT_NUM s ->
  slots_done s h (i * SLOT_NUM s + j) s1 ->
  let s2 :=
    if i * 2 <? my_client_num s1 then
      let k := i * SLOT_NUM s1 + j in
      s1 <| slot_offset0 := <[k := (SLOT_LEN * k + QUEUE_ADDR_BASE s1) / 4 + 16]> (slot_offset0 s1) |>
         <| RRB0 := <[k := 0]> (RRB0 s1) |> <| RRB1 := <[k := 0]> (RRB1 s1) |>
    else
      let k := (i - my_client_num s1 / 2) * SLOT_NUM s1 + j in
      s1 <| slot_offset1 := <[k := (SLOT_LEN * k + QUEUE_ADDR_BASE s1) / 4 + 16]> (slot_offset1 s1) |> in
  slots_done s h (i * SLOT_NUM s + (j + 1))
    (s2 <| old_core_id := <[i * SLOT_NUM s2 + j := CORE_NUM s2]> (old_core_id s2) |>).
Proof.
  intros Hm Hi Hj ((F1 & F2 & F3 & F4 & F5 & F6) & HT & HO). rewrite F1, F2, F3, Hm.
  replace (2 * h / 2) with h by (apply (Z.div_unique _ _ _ 0); lia).
  set (n := i * SLOT_NUM s + j) in *.
  assert (forall (m : gmap Z Z) v, (forall k, 0 <= k < n -> m.[k] = v) ->
    forall k, 0 <= k < i * SLOT_NUM s + (j + 1) -> (<[n := v]> m).[k] = v) as HO'.
  { intros m v Hv k Hk. rewrite rd_insert. case_decide; [done|]. apply Hv. lia. }
  destruct (Z.ltb_spec (i * 2) (2 * h)) as [Hlt|Hge]; cbv zeta.
  - assert (n < h * SLOT_NUM s) by nia. split; [by split_and!|]. split.
    + intros k Hk. destruct (HT k Hk) as [HT1 HT2]. cbn [set_field slot_offset0 slot_offset1 RRB0 RRB1].
      rewrite !rd_insert. destruct (decide (n = k)) as [<-|Hne]; (split; [|intros; apply HT2; lia]); [done|].
      intros Hk2. apply HT1. lia.
    + cbn [set_field SLOT_NUM CORE_NUM old_core_id]. rewrite F2, F4. by apply HO'.
  - split; [by split_and!|]. split.
    + intros k Hk. destruct (HT k Hk) as [HT1 HT2]. cbn [set_field slot_offset0 slot_offset1 RRB0 RRB1].
      rewrite !rd_insert. assert (h * SLOT_NUM s <= n) by nia. split; [intros; apply HT1; lia|].
      intros Hk2. case_decide as E; [by rewrite <-E|]. apply HT2. nia.
    + cbn [set_field SLOT_NUM CORE_NUM old_core_id]. rewrite F2, F4. by apply HO'.
Qed.

Lemma init_slots_tables s h :
  my_client_num s = 2 * h -> 0 <= h -> 0 <= SLOT_NUM s -> slots_done s h (2 * h * SLOT_NUM s) (init_slots s).
Proof.
  intros Hm Hh Hs. unfold init_slots. rewrite Hm.
  apply (for_range_ind (fun i => slots_done s h (i * SLOT_NUM s)) 0 (2 * h)); [lia| |].
  { split; [by split_and!|]. split; [|lia]. intros k Hk. lia. }
  intros i s1 Hi H1. pose proof (proj1 H1) as (_ & F2 & _). rewrite F2.
  replace ((i + 1) * SLOT_NUM s) with (i * SLOT_NUM s + SLOT_NUM s) by lia.
  apply (for_range_ind (fun j => slots_done s h (i * SLOT_NUM s + j)) 0 (SLOT_NUM s)); [lia| |].
  { by rewrite Z.add_0_r. }
  intros j s2 Hj H2. by apply slots_step.
Qed.

(** The tables of the configured card. *)
Lemma setup_tables a s h :
  a_e_client a - a_b_client a = 2 * h -> a_b_client a = 0 -> 0 <= h -> 0 <= a_SLOT_NUM a ->
  let s' := schedule_setup a s in
  (forall c, 0 <= c < a_CORE_NUM a -> (queue_addr_map s').[c]
     = (SLOT_LEN * a_SLOT_NUM a * a_CLIENT_NUM a + HOSTADDR
        + (TOTAL_IP_MESS_N * MESS_LEN + QUEUE_METADATA) * c + QUEUE_METADATA
        + a_MESS_NUM a * MESS_LEN * a_ip_id a / 2) / 4) /\
  (forall k, 0 <= k < h * a_SLOT_NUM a ->
     (slot_offset0 s').[k] = SLOT_LEN * k / 4 + 16 /\ (slot_offset1 s').[k] = SLOT_LEN * k / 4 + 16 /\
     (RRB0 s').[k] = 0 /\ (RRB1 s').[k] = 0) /\
  slot_partition0 s' = h * a_SLOT_NUM a /\ slot_partition1 s' = h * a_SLOT_NUM a /\
  total_offset_value s' = (m1 s).[(SLOT_LEN * a_SLOT_NUM a * a_CLIENT_NUM a / 2) / 4 + 0x40000].
Proof.
  intros Hc Hb Hh Hsn.
  set (s0 := s <| BASE_ADDR := a_BASE_ADDR a |> <| CLIENT_NUM := a_CLIENT_NUM a |>
             <| SLOT_NUM := a_SLOT_NUM a |> <| CORE_NUM := a_CORE_NUM a |>
             <| MESS_NUM := a_MESS_NUM a |> <| b_client := a_b_client a |>
             <| e_client := a_e_client a |> <| b_core := a_b_core a |>
             <| e_core := a_e_core a |> <| ip_id := a_ip_id a |>
             <| my_client_num := a_e_client a - a_b_client a |>
             <| QUEUE_ADDR_BASE := a_b_client a * a_SLOT_NUM a * SLOT_LEN |>).
  unfold schedule_setup. cbv zeta. fold s0.
  pose proof (init_queues_map s0) as HQ. pose proof (init_queues_frame s0) as HF.
  assert (CLIENT_NUM (init_queues s0) = CLIENT_NUM s0 /\ QUEUE_ADDR_BASE (init_queues s0) = QUEUE_ADDR_BASE s0 /\
    m1 (init_slots (init_queues s0)) = m1 s) as (E1 & E2 & E3).
  { split_and!.
    - unfold init_queues. apply (for_range_inv (fun p => CLIENT_NUM p.2 = CLIENT_NUM s0)); [done|].
      by intros i [ad s1] _ H.
    - unfold init_queues. apply (for_range_inv (fun p => QUEUE_ADDR_BASE p.2 = QUEUE_ADDR_BASE s0)); [done|].
      by intros i [ad s1] _ H.
    - unfold init_slots. apply (for_range_inv (fun s1 => m1 s1 = m1 s)).
      + unfold init_queues. apply (for_range_inv (fun p => m1 p.2 = m1 s)); [done|]. by intros i [ad s1] _ H.
      + intros i s1 _ H1. apply (for_range_inv (fun s1 => m1 s1 = m1 s)); [done|].
        intros j s2 _ H2. by destruct (_ <? _). }
  set (s1 := init_queues s0) in *.
  assert (SLOT_NUM s1 = a_SLOT_NUM a) as N1 by exact (proj1 HF).
  assert (my_client_num s1 = 2 * h) as N2 by (rewrite <-Hc; exact (proj1 (proj2 HF))).
  assert (QUEUE_ADDR_BASE s1 = 0) as N3.
  { etrans; [exact E2|]. change (a_b_client a * a_SLOT_NUM a * SLOT_LEN = 0). rewrite Hb. lia. }
  assert (CLIENT_NUM s1 = a_CLIENT_NUM a) as N4 by exact E1.
  clearbody s1. clear HF E1 E2.
  destruct (init_slots_tables s1 h N2 Hh) as ((F1 & F2 & F3 & F4 & F5 & F6) & HT & _); [lia|].
  set (s2 := init_slots s1) in *. clearbody s2.
  rewrite N1 in *. rewrite N2 in F1. rewrite N3 in HT.
  split_and!.
  - intros c Hcc. etrans; [|exact (HQ c Hcc)]. exact (f_equal (fun m => rd m c) F5).
  - intros k Hk. destruct (HT k Hk) as [H1 H2]. destruct H1 as (H1 & H3 & H4); [lia|].
    rewrite Z.add_0_r in H1, H2. split_and!; [exact H1|apply H2; lia|exact H3|exact H4].
  - change (SLOT_NUM s2 * my_client_num s2 / 2 = h * a_SLOT_NUM a). rewrite F1, F2.
    symmetry. apply (Z.div_unique _ _ _ 0); lia.
  - change (SLOT_NUM s2 * my_client_num s2 / 2 = h * a_SLOT_NUM a). rewrite F1, F2.
    symmetry. apply (Z.div_unique _ _ _ 0); lia.
  - change ((m1 s2).[(SLOT_LEN * SLOT_NUM s2 * CLIENT_NUM s2 / 2) / 4 + 0x40000]
      = (m1 s).[(SLOT_LEN * a_SLOT_NUM a * a_CLIENT_NUM a / 2) / 4 + 0x40000]).
    by rewrite E3, F2, F6, N4.
Qed.

(** * Agreement *)

Section agreement.
Context {C : Config} {CO : ConfigOk C}.

Lemma fpga_rev_size_eq : fpga_rev_size = 2048 * total_slots /\ 0 < total_slots <= 192.
Proof using CO.
  pose proof sizes_small as (P1 & P2 & _ & _ & _ & _ & _ & E2 & _).
  assert (0 < total_slots <= 192) as H by (unfold total_slots; rewrite E2; nia).
  split; [|done]. unfold fpga_rev_size. rewrite wrap_small.
  - unfold total_slots, Config.SLOT_LEN. lia.
  - unfold total_slots, Config.SLOT_LEN in *. unfold uint. lia.
Qed.

(** C31: the card and the server mean the same bytes.  With the registers that
    [begin_fpga] writes, for every worker [c] and cell [k] the word in which the
    card rings the doorbell is [queue_message[k][0]] of the worker's queue in the
    reserved host memory, inside the area [init_fpga] allocates; the word the
    card polls for slot [i] is byte 64 of the [SLOT_LEN] bytes the server
    registers for the metadata of slot [i], through the mapping of the half it
    is in; and the word at [control_addr] is the one that keeps the card's loop
    running. *)
Theorem card_addresses_agree (s : fpga) :
  let '(m1', args) := begin_fpga (m1 s) in
  let s' := schedule_setup (begin_args 0) (s <| m1 := m1' |>) in
  let half := total_slots / 2 in
  args = [begin_args 0] /\
  (forall c k, 0 <= c < MAX_THREAD -> 0 <= k < Config.MESS_NUM ->
     4 * ((queue_addr_map s').[c] + k * MESS_LEN_DIV_4) = HOSTADDR + queue_byte c k /\
     fpga_rev_size <= queue_byte c k /\ queue_byte c k + 4 <= fpga_rev_size + control_size) /\
  (forall i, 0 <= i < half ->
     4 * (slot_offset0 s').[i] = card_byte (Config.SLOT_LEN * i + 64) /\
     4 * (0x40000 + (slot_offset1 s').[i]) = card_byte (Config.SLOT_LEN * (i + slot_partition1 s') + 64)) /\
  slot_partition1 s' = half /\ total_offset_value s' = 666.
Proof using CO.
  destruct fpga_rev_size_eq as [ER HT]. pose proof sizes_small as (P1 & P2 & _ & _ & _ & _ & _ & E2 & _).
  unfold begin_fpga. cbn [fst snd].
  assert (total_slots = 2 * (CLIENT_THREAD * Config.SLOT_NUM)) as ET by (unfold total_slots; lia).
  assert (total_slots / 2 = CLIENT_THREAD * Config.SLOT_NUM) as EH
    by (symmetry; apply (Z.div_unique _ _ _ 0); lia).
  assert (fpga_rev_size / 2 = 1024 * total_slots) as EF by (symmetry; apply (Z.div_unique _ _ _ 0); lia).
  assert (forall x y, x = 4 * y -> 4 * (x / 4) = x) as E4.
  { intros x y ->. rewrite (Z.mul_comm 4 y), Z.div_mul by lia. lia. }
  set (m1' := <[card_byte fpga_rev_size / 4 := 666]> (m1 s)).
  assert (a_e_client (begin_args 0) - a_b_client (begin_args 0) = 2 * CLIENT_THREAD) as Ecl.
  { cbn [begin_args a_e_client a_b_client]. unfold PARALLEL_IP_NUM. rewrite Z.div_1_r, E2. lia. }
  destruct (setup_tables (begin_args 0) (s <| m1 := m1' |>) CLIENT_THREAD Ecl) as (H1 & H2 & _ & H4 & H5).
  { cbn [begin_args a_b_client]. lia. }
  { lia. }
  { change (0 <= Config.SLOT_NUM). lia. }
  set (s' := schedule_setup (begin_args 0) (s <| m1 := m1' |>)) in *. clearbody s'.
  change (a_SLOT_NUM (begin_args 0)) with Config.SLOT_NUM in *.
  change (a_CLIENT_NUM (begin_args 0)) with (MAX_CLIENT * CLIENT_THREAD) in *.
  assert (Hls.SLOT_LEN * Config.SLOT_NUM * (MAX_CLIENT * CLIENT_THREAD) = 2048 * total_slots) as ES
    by (unfold total_slots, Hls.SLOT_LEN; lia).
  rewrite ES in *. rewrite EH. split_and!.
  - reflexivity.
  - intros c k Hc Hk. rewrite (H1 c Hc).
    change (TOTAL_IP_MESS_N * MESS_LEN + QUEUE_METADATA) with 16640. change QUEUE_METADATA with 256.
    change (a_MESS_NUM (begin_args 0) * MESS_LEN * a_ip_id (begin_args 0) / 2) with 0.
    change HOSTADDR with 0x04000000. change MESS_LEN_DIV_4 with 16. unfold queue_byte.
    change sizeof_fpga_dispatch_queue_t with 16640. change (4 * (Config.MESS_LEN / 4)) with 64.
    change control_size with 407552. change Config.MESS_NUM with 256 in Hk. pose proof max_thread_ok.
    rewrite Z.mul_add_distr_l, (E4 _ (512 * total_slots + 0x1000000 + 4160 * c + 64)) by lia.
    rewrite ER. lia.
  - intros i Hi. destruct (H2 i ltac:(lia)) as (K1 & K2 & _). rewrite K1, K2, H4.
    change (Hls.SLOT_LEN * i) with (2048 * i). change Config.SLOT_LEN with 2048.
    assert (2048 * i / 4 = 512 * i) as -> by (symmetry; apply (Z.div_unique _ _ _ 0); lia).
    unfold card_byte. rewrite EF, ET, (proj2 (Z.ltb_lt _ _)), (proj2 (Z.ltb_ge _ _)) by lia.
    unfold CARD_WINDOW. lia.
  - exact H4.
  - rewrite H5. change (m1 (s <| m1 := m1' |>)) with m1'. subst m1'.
    assert (2048 * total_slots / 2 / 4 + 0x40000 = card_byte fpga_rev_size / 4) as ->; [|apply rd_insert_eq].
    unfold card_byte. rewrite (proj2 (Z.ltb_ge _ _)) by lia. rewrite EF, ER. unfold CARD_WINDOW.
    replace (2048 * total_slots) with (1024 * total_slots * 2) by lia. rewrite Z.div_mul by lia.
    replace (0x100000 + (1024 * total_slots * 2 - 1024 * total_slots)) with (1024 * total_slots + 0x40000 * 4) by lia.
    by rewrite Z.div_add by lia.
Qed.
End agreement.

Lemma card_addresses_agree_witness :
  let s' := schedule_setup (begin_args (C := ycsb_alnico) 0)
    (fpga_reset <| m1 := (begin_fpga (C := ycsb_alnico) ∅).1 |>) in
  4 * ((queue_addr_map s').[7] + 3 * 16) = HOSTADDR + (393216 + 7 * 16640 + 256 + 3 * 64) /\
  total_offset_value s' = 666.
Proof.
  intros s'. destruct (card_addresses_agree (C := ycsb_alnico) fpga_reset) as (_ & H1 & _ & _ & H2).
  split; [|exact H2]. exact (proj1 (H1 7 3 ltac:(cbn; lia) ltac:(vm_compute; split; congruence))).
Defined.
