(* ===== verification/Tid.v ===== *)
(** [TransactionTid] of [sto-core/VersionBase.hh]: the 64-bit version word of
    STO's concurrency control, and [TNonopaqueVersion] of
    [sto-core/OCCVersions.hh].

    A word holds a 52-bit version number, five flags and, while it is locked, the
    id of the thread that holds it.  [TThread::id()] is the argument [here]; a
    compare-and-exchange takes the word that memory holds at that moment.  A
    failed [assert] is [None]. *)

From S2P Require Import Prelude.

(** * TransactionTid *)

Module Tid.

Definition mask_width : Z := 7.
Definition threadid_mask : Z := 0x7F.
Definition lock_bit : Z := Z.shiftl 1 mask_width.
Definition nonopaque_bit : Z := Z.shiftl 1 (mask_width + 1).
Definition user_bit : Z := Z.shiftl 1 (mask_width + 2).
Definition dirty_bit : Z := Z.shiftl 1 (mask_width + 3).
Definition opt_bit : Z := Z.shiftl 1 (mask_width + 4).
Definition increment_value : Z := Z.shiftl 1 (mask_width + 5).
Definition initialized_tid : Z := increment_value.

Definition is_locked (v : Z) : bool := negb (Z.land v lock_bit =? 0).
Definition is_dirty (v : Z) : bool := negb (Z.land v dirty_bit =? 0).
Definition is_optimistic (v : Z) : bool := negb (Z.land v opt_bit =? 0).
Definition is_locked_here (v here : Z) : bool :=
  Z.land v (Z.lor lock_bit threadid_mask) =? Z.lor lock_bit here.
Definition is_locked_elsewhere (v here : Z) : bool :=
  let m := Z.land v lock_bit in
  let t := Z.land v threadid_mask in
  negb (m =? 0) && negb (t =? here).

(** [bool_cmpxchg(&v, expected, desired)] on a word that holds [cur]. *)
Definition bool_cmpxchg (cur expected desired : Z) : bool * Z :=
  if cur =? expected then (true, desired) else (false, cur).

Definition set_lock (v here : Z) : Z := Z.lor (Z.lor v lock_bit) here.

(** The compare-and-exchange of [try_lock] after [vv] was loaded. *)
Definition try_lock_cas (vv cur here : Z) : bool * Z :=
  bool_cmpxchg cur (Z.ldiff vv lock_bit) (Z.lor (Z.lor vv lock_bit) here).
Definition try_lock (v here : Z) : bool * Z := try_lock_cas v v here.
(** [try_lock_val]: the word that was installed, or the one that was found. *)
Definition try_lock_val (vv cur here : Z) : Z * Z :=
  let expected := Z.ldiff vv lock_bit in
  let desired := Z.lor (Z.lor vv lock_bit) here in
  if cur =? expected then (desired, desired) else (cur, cur).

Definition unlocked (v : Z) : Z := Z.ldiff v (Z.lor lock_bit threadid_mask).
Definition unlock (v : Z) : Z := unlocked v.
Definition unlock_dirty (v : Z) : Z := Z.ldiff v (Z.lor (Z.lor lock_bit dirty_bit) threadid_mask).
Definition unlock_here (v here : Z) : option Z :=
  if is_locked_here v here then Some (unlocked v) else None.

Definition set_version (v new_v here : Z) : option Z :=
  if is_locked_here v here && (Z.land new_v (Z.lor lock_bit threadid_mask) =? 0)
  then Some (Z.lor new_v (Z.lor lock_bit here)) else None.
Definition set_version_locked (v new_v here : Z) : option Z :=
  if is_locked_here v here && is_locked_here new_v here then Some new_v else None.
Definition set_version_unlock (new_v : Z) : Z := Z.ldiff new_v (Z.lor lock_bit threadid_mask).
Definition set_version_unlock_dirty (new_v : Z) : Z :=
  Z.ldiff new_v (Z.lor (Z.lor lock_bit dirty_bit) threadid_mask).

Definition set_nonopaque (v : Z) : Z := Z.lor v nonopaque_bit.
Definition next_nonopaque_version (v : Z) : Z := Z.lor (u64 (v + increment_value)) nonopaque_bit.
Definition next_unflagged_version (v : Z) : Z := Z.ldiff (u64 (v + increment_value)) (increment_value - 1).
Definition next_unflagged_nonopaque_version (v : Z) : Z := Z.lor (next_unflagged_version v) nonopaque_bit.
Definition inc_nonopaque_version (v here : Z) : option Z :=
  if is_locked_here v here then Some (Z.lor (u64 (v + increment_value)) nonopaque_bit) else None.

Definition check_version (cur_vers old_vers : Z) : bool :=
  Z.ldiff cur_vers (increment_value - 1) =? Z.ldiff old_vers (increment_value - 1).
Definition check_version_here (cur_vers old_vers here : Z) : option bool :=
  if is_locked_elsewhere old_vers here then None
  else Some (negb (negb (Z.land cur_vers lock_bit =? 0) && negb (Z.land cur_vers threadid_mask =? here))
             && check_version cur_vers old_vers).
Definition try_check_opacity (start_tid v : Z) : bool :=
  (0 <? s64 (start_tid - v)) && (Z.land v (Z.lor lock_bit nonopaque_bit) =? 0).

End Tid.

(** * TNonopaqueVersion *)

Module TNonopaqueVersion.

(** The default constructor. *)
Definition new : Z := Tid.nonopaque_bit.

(** [cp_check_version_impl]; [lock_word] and [v] are the two loads of [v_]. *)
Definition cp_check_locked (lock_word : Z) (has_write : bool) : bool :=
  negb (Tid.is_locked lock_word && negb has_write).
Definition cp_check_version (v read_value : Z) : bool := Tid.check_version v read_value.

(** [cp_commit_tid_impl]; [tid] is [commit_tid_] of the transaction. *)
Definition cp_commit_tid (tid v : Z) : Z :=
  if negb (tid =? 0) then tid else Tid.next_unflagged_nonopaque_version v.

End TNonopaqueVersion.

(** * Words by their fields *)

(** The words of non-opaque versions: version number [n], locked by [o]. *)
Definition word_of (n : Z) (o : option Z) : Z :=
  4096 * n + 256 + match o with Some id => 128 + id | None => 0 end.

Definition owner_ok (o : option Z) : Prop := match o with Some id => uint 7 id | None => True end.

Lemma ldiff_low w v : 0 <= w -> Z.ldiff v (2 ^ w - 1) = 2 ^ w * (v / 2 ^ w).
Proof.
  intros. rewrite Z.sub_1_r, <-Z.ones_equiv, Z.ldiff_ones_r by done.
  rewrite Z.shiftl_mul_pow2, Z.shiftr_div_pow2 by done. lia.
Qed.

(** The bits of a word. *)
Lemma word_of_low n o : owner_ok o -> word_of n o mod 256 = match o with Some id => 128 + id | None => 0 end.
Proof.
  intros Ho. unfold word_of. symmetry. apply (Z.mod_unique _ _ (16 * n + 1)); [left|lia].
  destruct o as [id|]; cbn in *; unfold uint in *; lia.
Qed.

Lemma land_low8 v m : 0 <= m < 256 -> Z.land v m = Z.land (v mod 256) m.
Proof.
  intros Hm. change 256 with (2 ^ 8). rewrite <-Z.land_ones by done. rewrite <-Z.land_assoc. f_equal.
  rewrite Z.land_comm, Z.land_ones by done. symmetry. apply Z.mod_small. lia.
Qed.

(** A fact about all the thread ids, by inspection. *)
Lemma ids_forall (P : Z -> Prop) `{forall id, Decision (P id)} :
  forallb (fun id => bool_decide (P id)) (seqZ 0 128) = true -> forall id, uint 7 id -> P id.
Proof.
  intros Hall id Hid. rewrite forallb_forall in Hall.
  apply (bool_decide_eq_true_1 _), Hall. apply list_elem_of_In, elem_of_seqZ. unfold uint in Hid. lia.
Qed.

Ltac by_ids H :=
  match type of H with uint 7 ?id => revert id H end;
  match goal with |- forall id, _ -> @?P id => apply (ids_forall P); by vm_compute end.

Lemma is_locked_word n o : owner_ok o -> Tid.is_locked (word_of n o) = bool_decide (is_Some o).
Proof.
  intros Ho. unfold Tid.is_locked. change Tid.lock_bit with 128.
  rewrite land_low8, word_of_low by done. destruct o as [id|].
  - rewrite bool_decide_true by eauto. cbn in Ho. by_ids Ho.
  - by vm_compute.
Qed.

Lemma locked_elsewhere_word n o here :
  owner_ok o -> uint 7 here ->
  Tid.is_locked_elsewhere (word_of n o) here = match o with Some id => negb (id =? here) | None => false end.
Proof.
  intros Ho Hh. unfold Tid.is_locked_elsewhere. change Tid.lock_bit with 128. change Tid.threadid_mask with 127.
  rewrite (land_low8 _ 128), (land_low8 _ 127), !word_of_low by (done || lia). destruct o as [id|].
  - assert (Z.land (128 + id) 128 = 128 /\ Z.land (128 + id) 127 = id) as [-> ->].
    { cbn in Ho. clear Hh. by_ids Ho. }
    done.
  - done.
Qed.

Lemma locked_here_word n here : uint 7 here -> Tid.is_locked_here (word_of n (Some here)) here = true.
Proof.
  intros Hh. unfold Tid.is_locked_here. change (Z.lor Tid.lock_bit Tid.threadid_mask) with 255.
  rewrite land_low8, word_of_low by done. apply Z.eqb_eq. by_ids Hh.
Qed.

Lemma check_version_word n o m o' :
  owner_ok o -> owner_ok o' -> Tid.check_version (word_of n o) (word_of m o') = (n =? m).
Proof.
  intros Ho Ho'. unfold Tid.check_version. change (Tid.increment_value - 1) with (2 ^ 12 - 1).
  rewrite !ldiff_low by done. change (2 ^ 12) with 4096. unfold word_of.
  assert (forall k p, owner_ok p -> (4096 * k + 256 + match p with Some id => 128 + id | None => 0 end) / 4096 = k) as E.
  { intros k p Hp. symmetry. apply (Z.div_unique _ _ _ (256 + match p with Some id => 128 + id | None => 0 end)); [left|lia].
    destruct p; cbn in *; unfold uint in *; lia. }
  rewrite !E by done. destruct (Z.eqb_spec n m); [subst; apply Z.eqb_refl|]. apply Z.eqb_neq. lia.
Qed.

(** Clearing and setting bits of the low byte. *)
Lemma bits_split v i : 0 <= i -> Z.testbit v i = if i <? 8 then Z.testbit (v mod 256) i else Z.testbit (v / 256) (i - 8).
Proof.
  intros Hi. change 256 with (2 ^ 8). destruct (Z.ltb_spec i 8).
  - by rewrite Z.mod_pow2_bits_low by lia.
  - rewrite <-Z.shiftr_div_pow2, Z.shiftr_spec by lia. f_equal. lia.
Qed.

Lemma op_low8 (f : Z -> Z -> Z) (fb : bool -> bool -> bool) v m :
  (forall a b i, Z.testbit (f a b) i = fb (Z.testbit a i) (Z.testbit b i)) ->
  (forall b, fb b false = b) -> 0 <= m < 256 ->
  f v m = 256 * (v / 256) + f (v mod 256) m.
Proof.
  intros Hf Hz Hm.
  assert (0 <= f (v mod 256) m < 256) as Hr.
  { pose proof (Z.mod_pos_bound v 256 ltac:(lia)).
    assert (f (v mod 256) m = wrap 8 (f (v mod 256) m)) as ->; [|apply (wrap_range 8); lia].
    apply Z.bits_inj'. intros i Hi. rewrite testbit_wrap, Hf by lia.
    destruct (Z.ltb_spec i 8); [done|]. by rewrite (testbit_small 8 m), (testbit_small 8 (v mod 256)), Hz by (unfold uint; lia). }
  apply Z.bits_inj'. intros i Hi. rewrite Hf.
  rewrite (bits_split (256 * _ + _) i), (bits_split v i) by done.
  assert ((256 * (v / 256) + f (v mod 256) m) mod 256 = f (v mod 256) m) as ->.
  { symmetry. by apply (Z.mod_unique_pos _ _ (v / 256)); [|lia]. }
  assert ((256 * (v / 256) + f (v mod 256) m) / 256 = v / 256) as ->.
  { symmetry. by apply (Z.div_unique_pos _ _ _ (f (v mod 256) m)); [|lia]. }
  destruct (Z.ltb_spec i 8); [by rewrite Hf|]. by rewrite (testbit_small 8 m), Hz by (unfold uint; lia).
Qed.

Lemma word_of_high n o : owner_ok o -> word_of n o / 256 = 16 * n + 1.
Proof.
  intros Ho. unfold word_of. symmetry.
  apply (Z.div_unique_pos _ _ _ (match o with Some id => 128 + id | None => 0 end)); [|lia].
  destruct o as [id|]; cbn in *; unfold uint in *; lia.
Qed.

Lemma word_ldiff n o m :
  owner_ok o -> 0 <= m < 256 ->
  Z.ldiff (word_of n o) m = 4096 * n + 256 + Z.ldiff (match o with Some id => 128 + id | None => 0 end) m.
Proof.
  intros Ho Hm. rewrite (op_low8 Z.ldiff (fun a b => a && negb b)); [|intros; apply Z.ldiff_spec|by intros []|done].
  rewrite word_of_high, word_of_low by done. lia.
Qed.

Lemma unlocked_word n o : owner_ok o -> Tid.unlocked (word_of n o) = word_of n None.
Proof.
  intros Ho. unfold Tid.unlocked. change (Z.lor Tid.lock_bit Tid.threadid_mask) with 255.
  rewrite word_ldiff by done. unfold word_of. f_equal. destruct o as [id|]; [|done]. cbn in Ho. by_ids Ho.
Qed.

(** Locking a free word. *)
Lemma set_lock_word n here : uint 7 here -> Z.lor (Z.lor (word_of n None) Tid.lock_bit) here = word_of n (Some here).
Proof.
  intros Hh. change Tid.lock_bit with 128.
  rewrite <-Z.lor_assoc, (op_low8 Z.lor orb); [|intros; apply Z.lor_spec|by intros []|].
  - rewrite word_of_high, word_of_low by done. unfold word_of.
    enough (Z.lor 0 (Z.lor 128 here) = 128 + here) by lia.
    by_ids Hh.
  - by_ids Hh.
Qed.


(** The compare-and-exchange of [try_lock] leaves a word with another version, or
    a word that is locked, as it is; on a free word with the version that was
    loaded free it takes the lock. *)
Lemma try_lock_cas_free n here : uint 7 here ->
  Tid.try_lock_cas (word_of n None) (word_of n None) here = (true, word_of n (Some here)).
Proof.
  intros Hh. unfold Tid.try_lock_cas, Tid.bool_cmpxchg. rewrite set_lock_word by done.
  change Tid.lock_bit with 128. rewrite word_ldiff by done. change (Z.ldiff 0 128) with 0.
  unfold word_of at 1. by rewrite Z.eqb_refl.
Qed.

(** Whatever was loaded, a successful exchange found the word free and took it. *)
Lemma try_lock_cas_spec vn vo n o here :
  owner_ok vo -> owner_ok o -> uint 7 here ->
  Tid.try_lock_cas (word_of vn vo) (word_of n o) here = (true, word_of n (Some here)) /\ o = None \/
  Tid.try_lock_cas (word_of vn vo) (word_of n o) here = (false, word_of n o).
Proof.
  intros Hv Ho Hh. unfold Tid.try_lock_cas, Tid.bool_cmpxchg. change Tid.lock_bit with 128.
  rewrite word_ldiff by done. match goal with |- context [?a =? ?b] => destruct (Z.eqb_spec a b) as [E|] end; [left|by right].
  assert (o = None /\ vn = n /\ (vo = None \/ vo = Some 0)) as (-> & -> & Hvo).
  { assert (exists r, Z.ldiff (match vo with Some id => 128 + id | None => 0 end) 128 = r /\ 0 <= r < 128 /\
      (r = 0 -> vo = None \/ vo = Some 0)) as (r & Er & Hr & Hr0).
    { eexists. split; [done|]. destruct vo as [id|]; [|split; [by vm_compute|by left]]. cbn in Hv.
      assert (Z.ldiff (128 + id) 128 = id) as -> by (clear E; by_ids Hv).
      unfold uint in Hv. split; [lia|]. intros ->. by right. }
    rewrite Er in E. unfold word_of in E. destruct o as [id|]; cbn in Ho; unfold uint in *; [lia|].
    assert (vn = n) by lia. rewrite Z.add_0_r in E. assert (r = 0) by lia. auto. }
  split; [|done]. f_equal. destruct Hvo as [->| ->]; [by apply (set_lock_word n here)|].
  change (Z.lor (word_of n (Some 0)) 128) with (Z.lor (word_of n (Some 0)) Tid.lock_bit).
  rewrite <-(set_lock_word n 0) by done. rewrite <-(set_lock_word n here) by done.
  by rewrite Z.lor_0_r, <-(Z.lor_assoc _ Tid.lock_bit Tid.lock_bit), Z.lor_diag.
Qed.

(** Installing the next version releases the lock. *)
Lemma next_version_word n o :
  owner_ok o -> 0 <= n -> n + 1 < 2 ^ 52 ->
  Tid.set_version_unlock (TNonopaqueVersion.cp_commit_tid 0 (word_of n o)) = word_of (n + 1) None.
Proof.
  intros Ho Hn Hb. unfold TNonopaqueVersion.cp_commit_tid. cbn [Z.eqb negb].
  unfold Tid.next_unflagged_nonopaque_version, Tid.next_unflagged_version.
  change (Tid.increment_value - 1) with (2 ^ 12 - 1). rewrite ldiff_low by done.
  change (2 ^ 12) with 4096. change Tid.increment_value with 4096. change Tid.nonopaque_bit with 256.
  assert (0 <= (match o with Some id => 128 + id | None => 0 end) < 256) as Hl
    by (destruct o; cbn in *; unfold uint in *; lia).
  rewrite wrap_small by (unfold uint, word_of; lia).
  assert ((word_of n o + 4096) / 4096 = n + 1) as ->.
  { unfold word_of. symmetry. apply (Z.div_unique_pos _ _ _ (256 + match o with Some id => 128 + id | None => 0 end)); lia. }
  assert (Z.lor (4096 * (n + 1)) 256 = word_of (n + 1) None) as ->; [|by apply unlocked_word].
  assert (Z.land (4096 * (n + 1)) 256 = 0) as E.
  { apply Z.bits_inj'. intros i Hi. rewrite Z.land_spec, Z.bits_0.
    change 4096 with (2 ^ 12). change 256 with (2 ^ 8). rewrite Z.mul_comm, Z.mul_pow2_bits by done.
    rewrite Z.pow2_bits_eqb by done. destruct (Z.eqb_spec 8 i) as [<-|]; [|by rewrite andb_false_r].
    by rewrite Z.testbit_neg_r. }
  unfold word_of. rewrite Z.add_0_r, (Z.add_nocarry_lxor _ _ E). symmetry. by apply Z.lxor_lor.
Qed.

(** * Words of the hash index *)

(** A version number, the flag of a row that is not committed yet ([invalid_bit]) and,
    while it is locked, the thread that holds it. *)
Definition low (inv : bool) (o : option Z) : Z :=
  256 + (if inv then 512 else 0) + match o with Some id => 128 + id | None => 0 end.
Definition vword (n : Z) (inv : bool) (o : option Z) : Z := 4096 * n + low inv o.

Lemma low_range inv o : owner_ok o -> 0 <= low inv o < 4096.
Proof. intros Ho. unfold low. destruct inv, o; cbn in *; unfold uint in *; lia. Qed.

Lemma vword_mod n inv o : owner_ok o -> vword n inv o mod 4096 = low inv o.
Proof. intros Ho. symmetry. apply (Z.mod_unique_pos _ _ n); [by apply low_range|done]. Qed.

Lemma vword_div n inv o : owner_ok o -> vword n inv o / 4096 = n.
Proof. intros Ho. symmetry. apply (Z.div_unique_pos _ _ _ (low inv o)); [by apply low_range|done]. Qed.

(** A bitwise operation with a small mask works on the low 12 bits. *)
Lemma op_low12 (f : Z -> Z -> Z) (fb : bool -> bool -> bool) v m :
  (forall a b i, Z.testbit (f a b) i = fb (Z.testbit a i) (Z.testbit b i)) ->
  (forall b, fb b false = b) -> 0 <= m < 4096 ->
  f v m = 4096 * (v / 4096) + f (v mod 4096) m.
Proof.
  intros Hf Hz Hm. pose proof (Z.mod_pos_bound v 4096 ltac:(lia)) as Hv.
  assert (f (v mod 4096) m = wrap 12 (f (v mod 4096) m)) as Hr.
  { apply Z.bits_inj'. intros i Hi. rewrite testbit_wrap, Hf by lia.
    destruct (Z.ltb_spec i 12); [done|]. by rewrite (testbit_small 12 m), (testbit_small 12 (v mod 4096)), Hz by (unfold uint; lia). }
  assert (0 <= f (v mod 4096) m < 2 ^ 12) as Hb by (rewrite Hr; apply wrap_range; lia).
  rewrite (Z.div_mod (f v m) 4096) by lia. f_equal; [f_equal|].
  - change 4096 with (2 ^ 12). rewrite <-!Z.shiftr_div_pow2 by lia. apply Z.bits_inj'. intros i Hi.
    rewrite !Z.shiftr_spec, Hf by lia. rewrite (testbit_small 12 m), Hz by (unfold uint; lia). done.
  - change 4096 with (2 ^ 12). apply Z.bits_inj'. intros i Hi.
    rewrite Z.testbit_mod_pow2 by lia. rewrite Hf. destruct (Z.ltb_spec i 12) as [Hlt|Hge]; cbn [andb].
    + by rewrite Hf, Z.mod_pow2_bits_low by lia.
    + symmetry. apply (testbit_small 12); [exact Hb|lia].
Qed.

Section words.
Context (n : Z) (inv : bool) (o : option Z) (Ho : owner_ok o).
#[local] Set Default Proof Using "Ho".

(** Decide a fact about the low bits, for every flag and every owner. *)
Ltac low_bits :=
  destruct inv, o as [id|]; cbn in Ho; try (by vm_compute); clear -Ho; by_ids Ho.

Lemma vword_land m : 0 <= m < 4096 -> Z.land (vword n inv o) m = Z.land (low inv o) m.
Proof.
  intros Hm. assert (m = Z.land (Z.ones 12) m) as E.
  { rewrite Z.land_comm, Z.land_ones by lia. symmetry. by apply Z.mod_small. }
  rewrite E at 1. rewrite Z.land_assoc, Z.land_ones by lia. change (2 ^ 12) with 4096. by rewrite vword_mod.
Qed.

Lemma vword_ldiff m : 0 <= m < 4096 -> Z.ldiff (vword n inv o) m = 4096 * n + Z.ldiff (low inv o) m.
Proof.
  intros Hm. rewrite (op_low12 Z.ldiff (fun a b => a && negb b)); [|intros; apply Z.ldiff_spec|by intros []|done].
  by rewrite vword_div, vword_mod.
Qed.

Lemma vword_lor m : 0 <= m < 4096 -> Z.lor (vword n inv o) m = 4096 * n + Z.lor (low inv o) m.
Proof.
  intros Hm. rewrite (op_low12 Z.lor orb); [|intros; apply Z.lor_spec|by intros []|done].
  by rewrite vword_div, vword_mod.
Qed.

Lemma vword_locked : Tid.is_locked (vword n inv o) = bool_decide (is_Some o).
Proof.
  unfold Tid.is_locked. change Tid.lock_bit with 128. rewrite vword_land by done.
  destruct o as [id|]; [rewrite bool_decide_true by eauto|by destruct inv].
  destruct inv; cbn in Ho; clear -Ho; by_ids Ho.
Qed.

Lemma vword_invalid : (Z.land (vword n inv o) Tid.user_bit =? 0) = negb inv.
Proof. change Tid.user_bit with 512. rewrite vword_land by done. low_bits. Qed.

Lemma vword_unlocked : Tid.unlocked (vword n inv o) = vword n inv None.
Proof.
  unfold Tid.unlocked. change (Z.lor Tid.lock_bit Tid.threadid_mask) with 255. rewrite vword_ldiff by done.
  unfold vword. f_equal. low_bits.
Qed.

Lemma vword_nonopaque : Z.lor (vword n inv o) Tid.nonopaque_bit = vword n inv o.
Proof. change Tid.nonopaque_bit with 256. rewrite vword_lor by done. unfold vword. f_equal. low_bits. Qed.

Lemma vword_inc : Z.lor (vword n inv o + Tid.increment_value) Tid.nonopaque_bit = vword (n + 1) inv o.
Proof.
  change Tid.nonopaque_bit with 256. change Tid.increment_value with 4096.
  replace (vword n inv o + 4096) with (vword (n + 1) inv o) by (unfold vword; lia).
  rewrite (op_low12 Z.lor orb); [|intros; apply Z.lor_spec|by intros []|done].
  rewrite vword_div, vword_mod by done. unfold vword. f_equal. low_bits.
Qed.

Lemma vword_check m inv' o' : owner_ok o' -> Tid.check_version (vword n inv o) (vword m inv' o') = (n =? m).
Proof.
  intros Ho'. unfold Tid.check_version. change (Tid.increment_value - 1) with (2 ^ 12 - 1).
  rewrite !ldiff_low by done. change (2 ^ 12) with 4096. rewrite !vword_div by done.
  destruct (Z.eqb_spec n m); [subst; apply Z.eqb_refl|]. apply Z.eqb_neq. lia.
Qed.

(** The version of a commit. *)
Lemma vword_next : 0 <= n -> n + 1 < 2 ^ 52 -> TNonopaqueVersion.cp_commit_tid 0 (vword n inv o) = vword (n + 1) false None.
Proof.
  intros Hn Hb. unfold TNonopaqueVersion.cp_commit_tid. cbn [Z.eqb negb].
  unfold Tid.next_unflagged_nonopaque_version, Tid.next_unflagged_version.
  change (Tid.increment_value - 1) with (2 ^ 12 - 1). rewrite ldiff_low by done. change (2 ^ 12) with 4096.
  change Tid.increment_value with 4096. change Tid.nonopaque_bit with 256.
  replace (vword n inv o + 4096) with (vword (n + 1) inv o) by (unfold vword; lia).
  pose proof (low_range inv o Ho). rewrite wrap_small by (unfold uint, vword; lia). rewrite vword_div by done.
  rewrite (op_low12 Z.lor orb); [|intros; apply Z.lor_spec|by intros []|done].
  replace (4096 * (n + 1)) with ((n + 1) * 4096) by lia. rewrite Z.div_mul, Z.mod_mul by lia.
  change (Z.lor 0 256) with 256. unfold vword, low. lia.
Qed.

End words.

(** Locking. *)
Lemma vword_set_lock n inv here : uint 7 here -> Tid.set_lock (vword n inv None) here = vword n inv (Some here).
Proof.
  intros Hh. unfold Tid.set_lock. change Tid.lock_bit with 128. rewrite <-Z.lor_assoc, vword_lor; [|done|].
  - unfold vword. f_equal. destruct inv; by_ids Hh.
  - assert (0 <= Z.lor 128 here < 256); [|lia]. by_ids Hh.
Qed.

Lemma vword_locked_here n inv here : uint 7 here -> Tid.is_locked_here (vword n inv (Some here)) here = true.
Proof.
  intros Hh. unfold Tid.is_locked_here. change (Z.lor Tid.lock_bit Tid.threadid_mask) with 255.
  rewrite vword_land by done. apply Z.eqb_eq. destruct inv; by_ids Hh.
Qed.

Lemma vword_try_lock n inv o here :
  owner_ok o -> uint 7 here ->
  Tid.try_lock (vword n inv o) here
  = match o with None => (true, vword n inv (Some here)) | Some _ => (false, vword n inv o) end.
Proof.
  intros Ho Hh. unfold Tid.try_lock, Tid.try_lock_cas, Tid.bool_cmpxchg. rewrite vword_ldiff by done.
  fold (Tid.set_lock (vword n inv o) here). destruct o as [id|].
  - destruct (Z.eqb_spec (vword n inv (Some id)) (4096 * n + Z.ldiff (low inv (Some id)) Tid.lock_bit)) as [E|]; [|done].
    exfalso. assert (low inv (Some id) = Z.ldiff (low inv (Some id)) Tid.lock_bit) as E' by (unfold vword in E; lia).
    revert E'. clear E. cbn in Ho. destruct inv; by_ids Ho.
  - rewrite vword_set_lock by done. replace (Z.ldiff (low inv None) Tid.lock_bit) with (low inv None) by (by destruct inv).
    unfold vword at 1. by rewrite Z.eqb_refl.
Qed.

(** [set_version] keeps the lock, [set_version_unlock] releases it. *)
Lemma vword_set_version n inv n' here :
  uint 7 here -> Tid.set_version (vword n inv (Some here)) (vword n' false None) here = Some (vword n' false (Some here)).
Proof.
  intros Hh. unfold Tid.set_version. rewrite vword_locked_here by done.
  change (Z.lor Tid.lock_bit Tid.threadid_mask) with 255. rewrite vword_land by done.
  change (Z.land (low false None) 255 =? 0) with true. cbn [andb]. f_equal.
  rewrite Z.lor_assoc. by apply vword_set_lock.
Qed.

Lemma vword_set_version_unlock n inv o : owner_ok o -> Tid.set_version_unlock (vword n inv o) = vword n inv None.
Proof. apply vword_unlocked. Qed.
