(* ===== verification/Sto.v ===== *)
(** STO's optimistic transactions: [TransItem], [Transaction::try_commit] and
    [stop] of [sto-core/Transaction.cc], and the transactional object [TBox] of
    [datatype/TBox.hh] over [TNonopaqueWrapped] of a small type: [read] is
    [read_nonatomic] of [sto-core/TWrapped.hh], which observes the version and then
    loads the value.  The build flags have their defaults: [STO_ABORT_ON_LOCKED],
    no [STO_SORT_WRITESET], no [STO_SPIN_EXPBACKOFF].

    Threads run transactions over boxes; every load, store and
    compare-and-exchange of shared memory is a step of its own ([step]), and the
    steps of the threads interleave in any order ([run]), in sequentially
    consistent memory.  A box is named by its address: the owner of its item
    (the key of a box's item is always 0).

    The body of a transaction is any program that reads and writes boxes and
    returns a number ([prog]); reads may depend on what was read before. *)

From stdpp Require Import functions.
From S2P Require Import Prelude Tid.

(** * Transaction bodies *)

Inductive prog :=
  | Done (r : Z)
  | Read (x : Z) (k : Z -> prog)
  | Write (x v : Z) (p : prog).

(** What a body means when nothing runs beside it. *)
Fixpoint serial (p : prog) (db : Z -> Z) : Z * (Z -> Z) :=
  match p with
  | Done r => (r, db)
  | Read x k => serial (k (db x)) db
  | Write x v p => serial p (<[x := v]> db)
  end.

(** * Items and transactions *)

(** The flag bits of [s_] as booleans; [rdata] is meaningful with [has_read],
    [wdata] with [has_write]. *)
Record TransItem := {
  it_box : Z; has_write : bool; has_read : bool; needs_unlock : bool; locked_at_commit : bool;
  rdata : Z; wdata : Z }.

#[export] Instance eta_item : Eta TransItem := fun i => {|
  it_box := it_box i; has_write := has_write i; has_read := has_read i; needs_unlock := needs_unlock i;
  locked_at_commit := locked_at_commit i; rdata := rdata i; wdata := wdata i |}.

Definition TransItem_new (x : Z) : TransItem := {|
  it_box := x; has_write := false; has_read := false; needs_unlock := false; locked_at_commit := false;
  rdata := 0; wdata := 0 |}.

Inductive txn_state := s_in_progress | s_committing | s_committing_locked | s_aborted | s_committed.

Record Transaction := {
  tset : list TransItem; any_writes : bool; any_nonopaque : bool; commit_tid : Z; tstate : txn_state }.

#[export] Instance eta_txn : Eta Transaction := fun t => {|
  tset := tset t; any_writes := any_writes t; any_nonopaque := any_nonopaque t; commit_tid := commit_tid t;
  tstate := tstate t |}.

(** [Transaction::start] *)
Definition start : Transaction := {|
  tset := []; any_writes := false; any_nonopaque := false; commit_tid := 0; tstate := s_in_progress |}.

(** [find_item_scan]: the index of the item of a box. *)
Fixpoint find_item (l : list TransItem) (x : Z) : option nat :=
  match l with
  | [] => None
  | it :: l => if it_box it =? x then Some 0%nat else S <$> find_item l x
  end.

(** [Transaction::item]: find the item or allocate a new one at the end. *)
Definition item (x : Z) (t : Transaction) : nat * Transaction :=
  match find_item (tset t) x with
  | Some i => (i, t)
  | None => (length (tset t), t <| tset := tset t ++ [TransItem_new x] |>)
  end.

Definition set_item (i : nat) (it : TransItem) (t : Transaction) : Transaction :=
  t <| tset := <[i := it]> (tset t) |>.

(** [TransProxy::add_write] of a value (boxes have no commutative updates). *)
Definition add_write (i : nat) (it : TransItem) (v : Z) (t : Transaction) : Transaction :=
  if negb (has_write it) then
    (set_item i (it <| has_write := true |> <| wdata := v |>) t) <| any_writes := true |>
  else set_item i (it <| wdata := v |>) t.

(** [TNonopaqueVersion::observe_read_impl] on a version word that reads [v];
    [None]: the read must abort. *)
Definition observe_read (i : nat) (it : TransItem) (v : Z) (t : Transaction) : option Transaction :=
  if Tid.is_locked v then None
  else if negb (has_read it) then
    Some ((set_item i (it <| has_read := true |> <| rdata := v |>) t) <| any_nonopaque := true |>)
  else Some t.

(** The indices collected in [writeset]. *)
Fixpoint writeset_from (i : nat) (l : list TransItem) : list nat :=
  match l with
  | [] => []
  | it :: l => if has_write it then i :: writeset_from (S i) l else writeset_from (S i) l
  end.
Definition writeset (t : Transaction) : list nat := writeset_from 0 (tset t).

(** * Threads *)

(** Where a thread is.  [LockLoad] and [LockCas] are the two accesses of
    [TransactionTid::try_lock] inside the spinning [Transaction::try_lock] after
    [n] failures; [Check] and [CheckVersion] the two loads of
    [cp_check_version_impl]; [InstallValue] and [InstallVersion] the two stores of
    [TBox::install]; [Stop] the unlocking loop of [stop]. *)
Inductive pc :=
  | Idle
  | Body (p : prog)
  | ReadValue (x : Z) (k : Z -> prog)
  | Phase1 (tidx : nat)
  | LockLoad (tidx : nat) (n : Z)
  | LockCas (tidx : nat) (n vv : Z)
  | Check (tidx : nat)
  | CheckVersion (tidx : nat)
  | InstallValue (ws : list nat)
  | InstallVersion (j : nat) (ws : list nat)
  | Stop (committed : bool) (tidx : nat).

Record thread := { txn : Transaction; th_pc : pc; th_prog : prog; th_result : Z }.

#[export] Instance eta_thread : Eta thread := fun t => {|
  txn := txn t; th_pc := th_pc t; th_prog := th_prog t; th_result := th_result t |}.

(** Shared memory: the version words and the values of the boxes. *)
Record sys := { words : Z -> Z; vals : Z -> Z; threads : gmap Z thread }.

#[export] Instance eta_sys : Eta sys := fun s => {|
  words := words s; vals := vals s; threads := threads s |}.

(** What an observer sees of a run: a body starts; its transaction has taken all
    its locks and starts to check its reads; it will commit and return [r]; it
    gives up; [try_commit] returns true. *)
Inductive event :=
  | Began (id : Z) (p : prog)
  | Serialized (id : Z) (p : prog)
  | Decided (id : Z) (r : Z)
  | Aborted (id : Z)
  | Finished (id : Z) (r : Z).

Section sto.

(** [STO_SPIN_BOUND_WRITE], a flag of the build. *)
Variable spin_bound : Z.

Definition goto (p : pc) (t : thread) : thread := t <| th_pc := p |>.

(** The [abort] label of [try_commit], and a read that throws. *)
Definition abort (id : Z) (t : thread) : thread * list event :=
  (goto (Stop false (length (tset (txn t)))) t, [Aborted id]).

(** One step of a body: [TBox::read], [TBox::write], or the entry of
    [try_commit]. *)
Definition step_body (id : Z) (p : prog) (t : thread) (s : sys) : thread * list event :=
  match p with
  | Read x k =>
      let '(i, tx) := item x (txn t) in
      let it := default (TransItem_new x) (tset tx !! i) in
      if has_write it then (goto (Body (k (wdata it))) (t <| txn := tx |>), [])
      else
        match observe_read i it (words s x) tx with
        | Some tx => (goto (ReadValue x k) (t <| txn := tx |>), [])
        | None => abort id (t <| txn := tx |>)
        end
  | Write x v p =>
      let '(i, tx) := item x (txn t) in
      let it := default (TransItem_new x) (tset tx !! i) in
      (goto (Body p) (t <| txn := add_write i it v tx |>), [])
  | Done r =>
      let t := t <| th_result := r |> in
      if negb (any_writes (txn t)) && negb (any_nonopaque (txn t)) then
        (goto (Stop true (length (tset (txn t)))) t, [Serialized id (th_prog t); Decided id r])
      else (goto (Phase1 0) (t <| txn := (txn t) <| tstate := s_committing |> |>), [])
  end.

(** One iteration of the first loop of [try_commit], up to the call of [lock]. *)
Definition step_phase1 (id : Z) (tidx : nat) (t : thread) : thread * list event :=
  match tset (txn t) !! tidx with
  | None => (goto (Check 0) t, [Serialized id (th_prog t)])
  | Some it =>
      if has_write it then
        let t := t <| txn := (txn t) <| tstate := s_committing_locked |> |> in
        if negb (needs_unlock it) then (goto (LockLoad tidx 0) t, [])
        else (goto (Phase1 (S tidx))
                (t <| txn := set_item tidx (it <| locked_at_commit := true |>) (txn t) |>), [])
      else (goto (Phase1 (S tidx)) t, [])
  end.

(** The compare-and-exchange, the flags of a locked item, and the decision to
    spin or to give up. *)
Definition step_lock (id : Z) (tidx : nat) (n vv : Z) (t : thread) (s : sys) : option (thread * sys * list event) :=
  it ← tset (txn t) !! tidx;
  let x := it_box it in
  let '(locked, w) := Tid.try_lock_cas vv (words s x) id in
  if locked : bool then
    let it := it <| needs_unlock := true |> <| locked_at_commit := true |> in
    Some (goto (Phase1 (S tidx)) (t <| txn := set_item tidx it (txn t) |>),
          s <| words := <[x := w]> (words s) |>, [])
  else if has_read it || (n + 1 =? Z.shiftl 1 spin_bound) then
    let '(t, ev) := abort id t in Some (t, s, ev)
  else Some (goto (LockLoad tidx (n + 1)) t, s, []).

(** The second loop of [try_commit]: the first load of the version. *)
Definition step_check (id : Z) (tidx : nat) (t : thread) (s : sys) : thread * list event :=
  match tset (txn t) !! tidx with
  | None => (goto (InstallValue (writeset (txn t))) t, [Decided id (th_result t)])
  | Some it =>
      if has_read it && (locked_at_commit it || negb (needs_unlock it)) then
        if TNonopaqueVersion.cp_check_locked (words s (it_box it)) (has_write it)
        then (goto (CheckVersion tidx) t, [])
        else abort id t
      else (goto (Check (S tidx)) t, [])
  end.

(** The second load of the version. *)
Definition step_check_version (id : Z) (tidx : nat) (t : thread) (s : sys) : option (thread * list event) :=
  it ← tset (txn t) !! tidx;
  if TNonopaqueVersion.cp_check_version (words s (it_box it)) (rdata it)
  then Some (goto (Check (S tidx)) t, []) else Some (abort id t).

(** [TBox::install], the store of the value. *)
Definition step_install_value (ws : list nat) (t : thread) (s : sys) : option (thread * sys) :=
  match ws with
  | [] => Some (goto (Stop true (length (tset (txn t)))) t, s)
  | j :: ws =>
      it ← tset (txn t) !! j;
      Some (goto (InstallVersion j ws) t, s <| vals := <[it_box it := wdata it]> (vals s) |>)
  end.

(** [Transaction::set_version_unlock] *)
Definition step_install_version (j : nat) (ws : list nat) (t : thread) (s : sys) : option (thread * sys) :=
  it ← tset (txn t) !! j;
  let x := it_box it in
  let v := TNonopaqueVersion.cp_commit_tid (commit_tid (txn t)) (words s x) in
  Some (goto (InstallValue ws) (t <| txn := set_item j (it <| needs_unlock := false |>) (txn t) |>),
        s <| words := <[x := Tid.set_version_unlock v]> (words s) |>).

(** [Transaction::stop]: [cleanup] does nothing for boxes; the items are unlocked
    from the last to the first. *)
Definition step_stop (id : Z) (committed : bool) (tidx : nat) (t : thread) (s : sys)
    : option (thread * sys * list event) :=
  match tidx with
  | O => Some (goto Idle (t <| txn := (txn t) <| tstate := if committed then s_committed else s_aborted |> |>), s,
               if committed then [Finished id (th_result t)] else [])
  | S i =>
      it ← tset (txn t) !! i;
      let s := if needs_unlock it
               then s <| words := <[it_box it := Tid.unlock (words s (it_box it))]> (words s) |> else s in
      Some (goto (Stop committed i) t, s, [])
  end.

(** The next step of thread [id]; [None]: it is idle. *)
Definition step_thread (id : Z) (t : thread) (s : sys) : option (thread * sys * list event) :=
  match th_pc t with
  | Idle => None
  | Body p => let '(t, ev) := step_body id p t s in Some (t, s, ev)
  | ReadValue x k => Some (goto (Body (k (vals s x))) t, s, [])
  | Phase1 tidx => let '(t, ev) := step_phase1 id tidx t in Some (t, s, ev)
  | LockLoad tidx n => it ← tset (txn t) !! tidx; Some (goto (LockCas tidx n (words s (it_box it))) t, s, [])
  | LockCas tidx n vv => step_lock id tidx n vv t s
  | Check tidx => let '(t, ev) := step_check id tidx t s in Some (t, s, ev)
  | CheckVersion tidx => '(t, ev) ← step_check_version id tidx t s; Some (t, s, ev)
  | InstallValue ws => '(t, s) ← step_install_value ws t s; Some (t, s, [])
  | InstallVersion j ws => '(t, s) ← step_install_version j ws t s; Some (t, s, [])
  | Stop c tidx => step_stop id c tidx t s
  end.

(** An idle thread is given a body, or a thread makes a step. *)
Inductive action := Run (id : Z) (p : prog) | Step (id : Z).

Definition step (a : action) (s : sys) : option (sys * list event) :=
  match a with
  | Run id p =>
      match threads s !! id with
      | Some {| th_pc := Idle |} | None =>
          Some (s <| threads := <[id := {| txn := start; th_pc := Body p; th_prog := p; th_result := 0 |}]> (threads s) |>,
                [Began id p])
      | _ => None
      end
  | Step id =>
      t ← threads s !! id;
      '(t, s, ev) ← step_thread id t s;
      Some (s <| threads := <[id := t]> (threads s) |>, ev)
  end.

Fixpoint run (sched : list action) (s : sys) : option (sys * list event) :=
  match sched with
  | [] => Some (s, [])
  | a :: sched => '(s, ev) ← step a s; '(s, tr) ← run sched s; Some (s, ev ++ tr)
  end.

(** Boxes holding [db], not locked, in version 0; no thread has run yet. *)
Definition init (db : Z -> Z) : sys := {|
  words := fun _ => TNonopaqueVersion.new; vals := db; threads := ∅ |}.

End sto.
