(* ===== verification/StoLog.v ===== *)
(** The serial order of a run of [Sto] and the ledger its proof keeps.

    [serial_order] reads off the trace the transactions that commit, in the order
    in which they took their last lock.  The ledger lists the same transactions
    with what they read and wrote and with the writes they have still to install;
    what the boxes hold is determined by the writes already installed. *)

From stdpp Require Import functions.
From S2P Require Import Prelude Tid Sto.

(** * The serial order *)

Inductive status := Pending | Committed (r : Z) | Dropped.

(** A pending transaction of a thread is settled. *)
Definition settle (id : Z) (st : status) (L : list (Z * prog * status)) : list (Z * prog * status) :=
  (fun e => match e with
            | (i, p, Pending) => (i, p, if i =? id then st else Pending)
            | _ => e
            end) <$> L.

#[global] Arguments settle : simpl never.

Definition log_step (L : list (Z * prog * status)) (ev : event) : list (Z * prog * status) :=
  match ev with
  | Serialized id p => L ++ [(id, p, Pending)]
  | Decided id r => settle id (Committed r) L
  | Aborted id => settle id Dropped L
  | Began _ _ | Finished _ _ => L
  end.

Definition committed_of (e : Z * prog * status) : option (Z * prog * Z) :=
  match e with (id, p, Committed r) => Some (id, p, r) | _ => None end.

Definition log (tr : list event) : list (Z * prog * status) := foldl log_step [] tr.
Definition serial_order (tr : list event) : list (Z * prog * Z) := omap committed_of (log tr).

(** The boxes after running the transactions one after the other. *)
Definition replay (db : Z -> Z) (l : list (Z * prog * Z)) : Z -> Z :=
  foldl (fun db e => (serial e.1.2 db).2) db l.

(** The results a thread's transactions returned, and those of the order. *)
Definition finished_of (id : Z) (ev : event) : option Z :=
  match ev with Finished i r => if i =? id then Some r else None | _ => None end.
Definition result_of (id : Z) (e : Z * prog * Z) : option Z := if e.1.1 =? id then Some e.2 else None.

(** The bodies a thread was given, and those of its transactions in the order. *)
Definition began_of (id : Z) (ev : event) : option prog :=
  match ev with Began i p => if i =? id then Some p else None | _ => None end.
Definition serialized_of (id : Z) (ev : event) : option prog :=
  match ev with Serialized i p => if i =? id then Some p else None | _ => None end.
Definition prog_of {A} (id : Z) (e : Z * prog * A) : option prog := if e.1.1 =? id then Some e.1.2 else None.

(** * Pointwise equal databases *)

Lemma serial_ext p db db' :
  (forall x, db x = db' x) ->
  (serial p db).1 = (serial p db').1 /\ forall x, (serial p db).2 x = (serial p db').2 x.
Proof.
  revert db db'. induction p as [r|x k IH|x v p IH]; intros db db' E; cbn.
  - done.
  - rewrite (E x). by apply IH.
  - apply IH. intros y. destruct (decide (x = y)) as [->|]; [by rewrite !fn_lookup_insert|].
    by rewrite !fn_lookup_insert_ne.
Qed.

#[export] Instance serial_proper p :
  Proper (pointwise_relation Z eq ==> pointwise_relation Z eq) (fun db => (serial p db).2).
Proof. intros db db' E x. by apply (serial_ext p db db'). Qed.

(** * Write sets *)

Fixpoint written (l : list TransItem) (x : Z) : option Z :=
  match l with
  | [] => None
  | it :: l => if (it_box it =? x) && has_write it then Some (wdata it) else written l x
  end.

Definition overlay (l : list TransItem) (db : Z -> Z) (x : Z) : Z := default (db x) (written l x).

Lemma written_snoc l it x : has_write it = false -> written (l ++ [it]) x = written l x.
Proof.
  intros H. induction l as [|a l IH]; cbn; [by rewrite H, andb_false_r|].
  by destruct ((it_box a =? x) && has_write a).
Qed.

Lemma written_None l x : (forall it, it ∈ l -> it_box it <> x) -> written l x = None.
Proof.
  induction l as [|a l IH]; intros H; [done|]. cbn.
  destruct (Z.eqb_spec (it_box a) x) as [E|]; cbn.
  - by destruct (H a); [apply list_elem_of_here|].
  - apply IH. intros it Hit. apply H. by apply list_elem_of_further.
Qed.

(** With one item per box, an item decides for its box. *)
Lemma written_item l i it :
  NoDup (it_box <$> l) -> l !! i = Some it ->
  written l (it_box it) = if has_write it then Some (wdata it) else None.
Proof.
  revert i. induction l as [|a l IH]; intros i; [done|]. cbn. rewrite NoDup_cons. intros [Ha Hl] Hi.
  destruct i as [|i]; cbn in Hi.
  - injection Hi as ->. rewrite Z.eqb_refl. cbn. destruct (has_write it); [done|].
    apply written_None. intros it' Hit' E. apply Ha. rewrite <-E. apply list_elem_of_fmap. eauto.
  - destruct (Z.eqb_spec (it_box a) (it_box it)) as [E|]; [|by apply (IH i)]. exfalso. apply Ha.
    rewrite E. apply list_elem_of_fmap. exists it. split; [done|]. by eapply list_elem_of_lookup_2.
Qed.

Lemma written_elem l x v : written l x = Some v -> exists i it, l !! i = Some it /\ it_box it = x /\ has_write it = true /\ wdata it = v.
Proof.
  induction l as [|a l IH]; [done|]. cbn. destruct ((it_box a =? x) && has_write a) eqn:E.
  - intros [= <-]. apply andb_prop in E as [E%Z.eqb_eq E2]. by exists 0%nat, a.
  - intros (i & it & H)%IH. by exists (S i), it.
Qed.

Lemma written_insert l i it it' x :
  NoDup (it_box <$> l) -> l !! i = Some it -> it_box it' = it_box it ->
  written (<[i := it']> l) x
  = if it_box it =? x then (if has_write it' then Some (wdata it') else None) else written l x.
Proof.
  intros Hl Hi Hb.
  assert (NoDup (it_box <$> <[i := it']> l)) as Hl'.
  { rewrite list_fmap_insert, Hb, list_insert_id; [done|]. by rewrite list_lookup_fmap, Hi. }
  destruct (Z.eqb_spec (it_box it) x) as [<-|Hne].
  - rewrite <-Hb at 1. apply (written_item _ i); [done|]. apply list_lookup_insert_eq. by eapply lookup_lt_Some.
  - clear Hl Hl'. revert i Hi. induction l as [|a l IH]; intros i Hi; [done|].
    destruct i as [|i]; cbn in Hi |- *.
    + injection Hi as ->. rewrite Hb. by destruct (Z.eqb_spec (it_box it) x).
    + by rewrite IH.
Qed.

(** * The ledger *)

(** A transaction that has taken its locks: its reads (box, version, value), its
    writes, and the boxes whose new version it has still to install. *)
Record entry := {
  e_id : Z; e_prog : prog; e_reads : list (Z * Z * Z); e_writes : Z -> option Z;
  e_todo : list Z; e_status : status }.

#[export] Instance eta_entry : Eta entry := fun e => {|
  e_id := e_id e; e_prog := e_prog e; e_reads := e_reads e; e_writes := e_writes e;
  e_todo := e_todo e; e_status := e_status e |}.

Definition erase (e : entry) : Z * prog * status := (e_id e, e_prog e, e_status e).

(** What an entry has put into box [x]. *)
Definition contrib (e : entry) (x : Z) : option Z :=
  match e_status e with
  | Committed _ => if decide (x ∈ e_todo e) then None else e_writes e x
  | _ => None
  end.

(** The value and the version of a box. *)
Definition inst (db : Z -> Z) (E : list entry) (x : Z) : Z :=
  foldl (fun v e => default v (contrib e x)) (db x) E.
Definition one (o : option Z) : Z := match o with Some _ => 1 | None => 0 end.
Definition cnt (E : list entry) (x : Z) : Z := sumZ (fun e => one (contrib e x)) E.
#[global] Arguments inst : simpl never.
#[global] Arguments cnt : simpl never.

Lemma cnt_cons e E x : cnt (e :: E) x = one (contrib e x) + cnt E x.
Proof. done. Qed.

Definition silent (x : Z) (l : list entry) : Prop := Forall (fun e => contrib e x = None) l.

Lemma inst_app db E1 E2 x : inst db (E1 ++ E2) x = foldl (fun v e => default v (contrib e x)) (inst db E1 x) E2.
Proof. unfold inst. by rewrite foldl_app. Qed.

Lemma foldl_silent x l v : silent x l -> foldl (fun v e => default v (contrib e x)) v l = v.
Proof.
  intros H. revert v. induction H as [|e l He _ IH]; intros v; [done|]. cbn. rewrite He. apply IH.
Qed.

Lemma cnt_app E1 E2 x : cnt (E1 ++ E2) x = cnt E1 x + cnt E2 x.
Proof. induction E1 as [|e E1 IH]; [done|]. cbn [app]. rewrite !cnt_cons, IH. lia. Qed.

Lemma cnt_nonneg E x : 0 <= cnt E x.
Proof. induction E as [|e E IH]; [done|]. rewrite cnt_cons. destruct (contrib e x); cbn; lia. Qed.

Lemma cnt_zero E x : cnt E x = 0 -> silent x E.
Proof.
  induction E as [|e E IH]; intros H; [constructor|]. unfold silent.
  pose proof (cnt_nonneg E x). rewrite cnt_cons in H.
  destruct (contrib e x) eqn:He; cbn in H; [lia|]. constructor; [done|]. apply IH. lia.
Qed.

(** An entry and what is around it. *)
Lemma split_at (E : list entry) i e : E !! i = Some e -> E = take i E ++ e :: drop (S i) E.
Proof. intros H. symmetry. by apply take_drop_middle. Qed.

Lemma insert_split (E : list entry) i e e' :
  E !! i = Some e -> <[i := e']> E = take i E ++ e' :: drop (S i) E.
Proof. intros H. apply insert_take_drop. by eapply lookup_lt_Some. Qed.

Lemma cnt_insert E i e e' x :
  E !! i = Some e ->
  cnt (<[i := e']> E) x = cnt E x - one (contrib e x) + one (contrib e' x).
Proof.
  intros H. rewrite (insert_split _ _ _ _ H). rewrite (split_at _ _ _ H) at 3.
  rewrite !cnt_app, !cnt_cons. lia.
Qed.

Lemma inst_insert_same db E i e e' x :
  E !! i = Some e -> contrib e' x = contrib e x -> inst db (<[i := e']> E) x = inst db E x.
Proof.
  intros H Hc. rewrite (insert_split _ _ _ _ H). rewrite (split_at _ _ _ H) at 3.
  rewrite !inst_app. cbn. by rewrite Hc.
Qed.

(** The last writer of a box decides. *)
Lemma inst_insert_last db E i e e' x v :
  E !! i = Some e -> contrib e' x = Some v -> silent x (drop (S i) E) -> inst db (<[i := e']> E) x = v.
Proof.
  intros H Hc Hs. rewrite (insert_split _ _ _ _ H), inst_app. cbn. rewrite Hc. by apply foldl_silent.
Qed.

Lemma inst_snoc db E e x : contrib e x = None -> inst db (E ++ [e]) x = inst db E x.
Proof. intros H. rewrite inst_app. cbn. by rewrite H. Qed.

Lemma cnt_snoc E e x : contrib e x = None -> cnt (E ++ [e]) x = cnt E x.
Proof. intros H. rewrite cnt_app, cnt_cons, H. change (cnt [] x) with 0. cbn. lia. Qed.

(** If no later entry has written a box, its value is that of the prefix. *)
Lemma inst_prefix db E i x : cnt E x <= cnt (take i E) x -> inst db (take i E) x = inst db E x.
Proof.
  intros H. assert (cnt E x = cnt (take i E) x + cnt (drop i E) x) as Hs by by rewrite <-cnt_app, take_drop.
  pose proof (cnt_nonneg (drop i E) x). rewrite <-(take_drop i E) at 2.
  rewrite inst_app, foldl_silent; [done|]. apply cnt_zero. lia.
Qed.

(** * From the ledger to the serial order *)

(** All the writers of box [x] in the prefix have installed it, and left [v]. *)
Definition good (db : Z -> Z) (P : list entry) (x v : Z) : Prop :=
  Forall (fun e => e_status e <> Dropped -> e_writes e x <> None -> is_Some (contrib e x)) P /\
  inst db P x = v.

(** Run alone on any boxes that hold what it read, the transaction returns [r]
    and makes the writes of the entry. *)
Definition sound (e : entry) (r : Z) : Prop :=
  forall db, (forall x n v, (x, n, v) ∈ e_reads e -> db x = v) ->
    (serial (e_prog e) db).1 = r /\
    forall x, (serial (e_prog e) db).2 x = default (db x) (e_writes e x).

Definition entry_ok (db : Z -> Z) (P : list entry) (e : entry) : Prop :=
  forall r, e_status e = Committed r ->
    sound e r /\ forall x n v, (x, n, v) ∈ e_reads e -> good db P x v.

(** The boxes when every committed transaction has installed its writes. *)
Definition final (db : Z -> Z) (E : list entry) (x : Z) : Z :=
  foldl (fun v e => match e_status e with Committed _ => default v (e_writes e x) | _ => v end) (db x) E.

Lemma contrib_committed e x v : contrib e x = Some v -> exists r, e_status e = Committed r /\ e_writes e x = Some v.
Proof. unfold contrib. destruct (e_status e) as [|r|]; try done. case_decide; [done|]. eauto. Qed.

Lemma good_final db P x v : good db P x v -> final db P x = v.
Proof.
  intros [HP <-]. unfold final, inst. generalize (db x) as a.
  induction HP as [|e P He _ IH]; intros a; [done|]. cbn. rewrite IH. f_equal.
  destruct (contrib e x) as [w|] eqn:Hc.
  - apply contrib_committed in Hc as (r & -> & ->). done.
  - destruct (e_status e) as [|r|] eqn:Hs; [done| |done]. destruct (e_writes e x) eqn:Hw; [|done].
    destruct He as [y Hy]; done.
Qed.

(** When nothing is left to install, the boxes hold the final state. *)
Lemma inst_final db E x :
  Forall (fun e => e_status e <> Pending /\ e_todo e = []) E -> inst db E x = final db E x.
Proof.
  intros H. symmetry. apply good_final. split; [|done]. eapply Forall_impl; [exact H|].
  intros e [Hp Ht] Hd Hw. unfold contrib. destruct (e_status e); try done. rewrite Ht, decide_False by set_solver.
  destruct (e_writes e x); eauto. done.
Qed.

Lemma order_snoc E e :
  omap committed_of (erase <$> E ++ [e])
  = omap committed_of (erase <$> E)
    ++ match e_status e with Committed r => [(e_id e, e_prog e, r)] | _ => [] end.
Proof.
  rewrite fmap_app, omap_app. f_equal. cbn. by destruct (e_status e).
Qed.

Lemma replay_snoc db l e : replay db (l ++ [e]) = (serial e.1.2 (replay db l)).2.
Proof. unfold replay. by rewrite foldl_app. Qed.

Lemma ledger_serial db E :
  (forall i e, E !! i = Some e -> entry_ok db (take i E) e) ->
  (forall x, replay db (omap committed_of (erase <$> E)) x = final db E x) /\
  (forall l1 id p r l2, omap committed_of (erase <$> E) = l1 ++ (id, p, r) :: l2 ->
     (serial p (replay db l1)).1 = r).
Proof.
  induction E as [|e E IH] using rev_ind; intros HE.
  { split; [done|]. intros l1 id p r l2 H. by destruct l1. }
  assert (forall i e', E !! i = Some e' -> entry_ok db (take i E) e') as HE'.
  { intros i e' Hi. specialize (HE i e'). rewrite lookup_app_l, take_app_le in HE
      by (apply lookup_lt_Some in Hi; lia). by apply HE. }
  destruct (IH HE') as [IH1 IH2]. clear IH HE'.
  assert (entry_ok db E e) as He.
  { specialize (HE (length E) e). rewrite take_app_le, take_ge in HE by lia. apply HE.
    by rewrite lookup_app_r, Nat.sub_diag. }
  rewrite order_snoc. unfold final at 1. setoid_rewrite foldl_app. cbn [foldl]. fold (final db E).
  destruct (e_status e) as [|r|] eqn:Hs; [rewrite app_nil_r; by split| |rewrite app_nil_r; by split].
  destruct (He r Hs) as [Hsound Hreads].
  destruct (Hsound (replay db (omap committed_of (erase <$> E)))) as [Hr Hw].
  { intros x n v Hx. rewrite IH1. by eapply good_final, Hreads. }
  split.
  - intros x. rewrite replay_snoc. cbn [fst snd]. rewrite Hw, IH1. done.
  - intros l1 id p r' l2 H. destruct l2 as [|a l2 _] using rev_ind.
    + apply app_inj_tail in H as [<- [= <- <- <-]]. exact Hr.
    + rewrite app_comm_cons, app_assoc in H. apply app_inj_tail in H as [H _]. by eapply IH2.
Qed.
