(* ===== verification/StoInv.v ===== *)
(** The invariant of the runs of [Sto]: what the threads, the boxes and the
    ledger of [StoLog] have to do with each other. *)

From stdpp Require Import functions.
From S2P Require Import Prelude Tid Sto StoLog.

(** * Ghost state *)

(** The version number and the owner of a box, the thread that has stored a new
    value into it but not the version, the external reads of the threads, the
    entry of a thread's transaction, and the ledger. *)
Record ghost := {
  num : Z -> Z; own : Z -> option Z; mid : Z -> option Z;
  reads : Z -> list (Z * Z * Z); cur : Z -> option nat; elog : list entry }.

#[export] Instance eta_ghost : Eta ghost := fun g => {|
  num := num g; own := own g; mid := mid g; reads := reads g; cur := cur g; elog := elog g |}.

(** The boxes a thread has locked, and the one it is storing into. *)
Definition held (t : thread) : list Z :=
  it_box <$> filter (fun it => needs_unlock it = true)
    match th_pc t with
    | Idle => []
    | Stop _ i => take i (tset (txn t))
    | _ => tset (txn t)
    end.

#[global] Arguments held : simpl never.

Definition installing (t : thread) : option Z :=
  match th_pc t with InstallVersion j _ => it_box <$> tset (txn t) !! j | _ => None end.

Definition boxes_at (t : thread) (ws : list nat) : list Z :=
  omap (fun j => it_box <$> tset (txn t) !! j) ws.

(** Whatever boxes hold the values read, the whole body does what its rest does
    over the write set. *)
Definition tracks (p0 : prog) (rs : list (Z * Z * Z)) (l : list TransItem) (p : prog) : Prop :=
  forall d, (forall x n v, (x, n, v) ∈ rs -> d x = v) ->
    (serial p0 d).1 = (serial p (overlay l d)).1 /\
    forall x, (serial p0 d).2 x = (serial p (overlay l d)).2 x.

Section inv.
Variable db : Z -> Z.

(** * A thread *)

(** A version that was observed is not from the future, and as long as the box
    has not moved on the value that was read belongs to it. *)
Definition read_ok (g : ghost) (t : thread) (r : Z * Z * Z) : Prop :=
  let '(x, n, v) := r in
  (exists i it, tset (txn t) !! i = Some it /\ it_box it = x /\ has_read it = true /\ rdata it = word_of n None) /\
  n <= num g x /\ (n < num g x \/ mid g x <> None \/ inst db (elog g) x = v).

Definition base (t : thread) : Prop :=
  NoDup (it_box <$> tset (txn t)) /\ commit_tid (txn t) = 0.

(** A transaction that may still abort. *)
Definition open_txn (g : ghost) (id : Z) (t : thread) : Prop :=
  (forall i it, tset (txn t) !! i = Some it -> has_read it = true ->
     exists n, rdata it = word_of n None /\ n <= num g (it_box it)) /\
  (forall i it, tset (txn t) !! i = Some it -> needs_unlock it = true -> locked_at_commit it = true) /\
  (forall i it, tset (txn t) !! i = Some it ->
     (has_write it = true -> any_writes (txn t) = true) /\ (has_read it = true -> any_nonopaque (txn t) = true)) /\
  Forall (read_ok g t) (reads g id).

Definition flags (f : nat -> TransItem -> bool) (t : thread) : Prop :=
  forall i it, tset (txn t) !! i = Some it -> needs_unlock it = f i it.

Definition link (g : ghost) (id : Z) (t : thread) (st : status) (todo : list Z) : Prop :=
  exists i e, cur g id = Some i /\ elog g !! i = Some e /\ e_id e = id /\ e_prog e = th_prog t /\
    e_reads e = reads g id /\ (forall x, e_writes e x = written (tset (txn t)) x) /\
    e_todo e = todo /\ e_status e = st.

(** The reads of the first [i] items are known to be good at the place of the
    transaction in the ledger, and none is newer than that place. *)
Definition checked (g : ghost) (id : Z) (t : thread) (i : nat) : Prop :=
  forall x n v idx j it, (x, n, v) ∈ reads g id -> cur g id = Some idx -> tset (txn t) !! j = Some it ->
    it_box it = x -> (j < i)%nat -> good db (take idx (elog g)) x v.

Definition before (g : ghost) (id : Z) : Prop :=
  forall x n v idx, (x, n, v) ∈ reads g id -> cur g id = Some idx -> n <= cnt (take idx (elog g)) x.

Definition writes_at (t : thread) (ws : list nat) : Prop :=
  NoDup ws /\ forall j, j ∈ ws -> exists it, tset (txn t) !! j = Some it /\ has_write it = true.

Definition locking (g : ghost) (id : Z) (t : thread) (i : nat) : Prop :=
  cur g id = None /\ open_txn g id t /\ flags (fun j it => has_write it && bool_decide (j < i)%nat) t /\
  tracks (th_prog t) (reads g id) (tset (txn t)) (Done (th_result t)).

Definition checking (g : ghost) (id : Z) (t : thread) (i : nat) : Prop :=
  open_txn g id t /\ flags (fun _ it => has_write it) t /\
  link g id t Pending (boxes_at t (writeset (txn t))) /\
  tracks (th_prog t) (reads g id) (tset (txn t)) (Done (th_result t)) /\
  checked g id t i /\ before g id.

Definition phase (g : ghost) (mem : Z -> Z) (id : Z) (t : thread) : Prop :=
  match th_pc t with
  | Idle => cur g id = None
  | Body p =>
      cur g id = None /\ open_txn g id t /\ flags (fun _ _ => false) t /\
      tracks (th_prog t) (reads g id) (tset (txn t)) p
  | ReadValue x k =>
      cur g id = None /\ open_txn g id t /\ flags (fun _ _ => false) t /\
      tracks (th_prog t) (reads g id) (tset (txn t)) (Read x k) /\
      exists i it, tset (txn t) !! i = Some it /\ it_box it = x /\ has_read it = true /\ has_write it = false
  | Phase1 i => locking g id t i
  | LockLoad i n => locking g id t i /\ exists it, tset (txn t) !! i = Some it /\ has_write it = true
  | LockCas i n vv =>
      locking g id t i /\ (exists it, tset (txn t) !! i = Some it /\ has_write it = true) /\
      exists vn vo, vv = word_of vn vo /\ owner_ok vo
  | Check i => checking g id t i
  | CheckVersion i =>
      checking g id t i /\
      exists it, tset (txn t) !! i = Some it /\ has_read it = true /\
        forall n v idx, (it_box it, n, v) ∈ reads g id -> cur g id = Some idx ->
          n < num g (it_box it) \/ good db (take idx (elog g)) (it_box it) v
  | InstallValue ws =>
      link g id t (Committed (th_result t)) (boxes_at t ws) /\
      flags (fun j _ => bool_decide (j ∈ ws)) t /\ writes_at t ws
  | InstallVersion j ws =>
      link g id t (Committed (th_result t)) (boxes_at t (j :: ws)) /\
      flags (fun k _ => bool_decide (k ∈ j :: ws)) t /\ writes_at t (j :: ws) /\
      forall it, tset (txn t) !! j = Some it -> mem (it_box it) = wdata it
  | Stop c i => cur g id = None /\ (i <= length (tset (txn t)))%nat /\ (c = true -> flags (fun _ _ => false) t)
  end.

(** * The whole *)

Definition unfinished (t : thread) : list Z :=
  match th_pc t with InstallValue _ | InstallVersion _ _ | Stop true _ => [th_result t] | _ => [] end.

Definition ledger_entry_ok (g : ghost) (i : nat) (e : entry) : Prop :=
  (e_status e = Pending \/ e_todo e <> [] -> cur g (e_id e) = Some i) /\
  (forall x, x ∈ e_todo e -> own g x = Some (e_id e) /\ e_writes e x <> None /\ e_status e <> Dropped) /\
  (e_status e = Pending -> forall x, e_writes e x <> None -> x ∈ e_todo e) /\
  entry_ok db (take i (elog g)) e.

Record inv (N : nat) (tr : list event) (g : ghost) (s : sys) : Prop := {
  i_words : forall x, words s x = word_of (num g x) (own g x);
  i_own : forall x, owner_ok (own g x);
  i_num : forall x, num g x = cnt (elog g) x /\ num g x <= Z.of_nat N;
  i_held : forall x id, own g x = Some id <-> exists t, threads s !! id = Some t /\ x ∈ held t;
  i_mid : forall x id, mid g x = Some id <-> exists t, threads s !! id = Some t /\ installing t = Some x;
  i_vals : forall x, mid g x = None -> vals s x = inst db (elog g) x;
  i_thr : forall id t, threads s !! id = Some t -> uint 7 id /\ base t /\ phase g (vals s) id t;
  i_none : forall id, threads s !! id = None -> cur g id = None;
  i_ent : forall i e, elog g !! i = Some e -> ledger_entry_ok g i e;
  i_last : forall i j e e' x, elog g !! i = Some e -> x ∈ e_todo e -> (i < j)%nat -> elog g !! j = Some e' ->
    e_status e' <> Dropped -> e_writes e' x = None;
  i_cur : forall id i j e, cur g id = Some i -> (i < j)%nat -> elog g !! j = Some e -> e_id e <> id;
  i_log : erase <$> elog g = log tr;
  i_fin : forall id, omap (finished_of id) tr ++ from_option unfinished [] (threads s !! id)
    = omap (result_of id) (omap committed_of (erase <$> elog g)) }.

(** * What the steps of the others leave to a thread *)

Record evolves (id : Z) (g g' : ghost) (mem mem' : Z -> Z) : Prop := {
  ev_num : forall x, num g x <= num g' x;
  ev_reads : reads g' id = reads g id;
  ev_cur : cur g' id = cur g id;
  ev_read : forall x n w, n <= num g x -> n < num g x \/ mid g x <> None \/ inst db (elog g) x = w ->
    n < num g' x \/ mid g' x <> None \/ inst db (elog g') x = w;
  ev_ent : forall i, cur g id = Some i -> elog g' !! i = elog g !! i;
  ev_good : forall i x w, (i < length (elog g))%nat -> good db (take i (elog g)) x w -> good db (take i (elog g')) x w;
  ev_cnt : forall i x, (i < length (elog g))%nat -> cnt (take i (elog g)) x <= cnt (take i (elog g')) x;
  ev_mem : forall x, mid g x = Some id -> mem' x = mem x }.

Section evolve.
Context (id : Z) (g g' : ghost) (mem mem' : Z -> Z) (t : thread).
Hypothesis EV : evolves id g g' mem mem'.

Lemma open_evolves : open_txn g id t -> open_txn g' id t.
Proof using EV.
  intros (H1 & H2 & H2' & H3). split_and!; [|done|done|].
  - intros i it Hi Hr. destruct (H1 i it Hi Hr) as (n & Hn & Hle). exists n. split; [done|].
    pose proof (ev_num _ _ _ _ _ EV (it_box it)). lia.
  - rewrite (ev_reads _ _ _ _ _ EV). eapply Forall_impl; [exact H3|]. intros [[x n] v] (Hi & Hn & Hv).
    split_and!; [done| |].
    + pose proof (ev_num _ _ _ _ _ EV x). lia.
    + by apply (ev_read _ _ _ _ _ EV).
Qed.

Lemma link_evolves st todo : link g id t st todo -> link g' id t st todo.
Proof using EV.
  intros (i & e & Hc & He & H). exists i, e. rewrite (ev_cur _ _ _ _ _ EV), (ev_reads _ _ _ _ _ EV).
  split; [done|]. split; [|done]. by rewrite (ev_ent _ _ _ _ _ EV).
Qed.

Lemma checking_evolves i : checking g id t i -> checking g' id t i.
Proof using EV.
  intros (H1 & H2 & H3 & H4 & H5 & H6).
  assert (forall idx, cur g id = Some idx -> (idx < length (elog g))%nat) as Hlt.
  { intros idx Hc. destruct H3 as (k & e & Hk & He & _). assert (k = idx) by congruence. subst.
    by eapply lookup_lt_Some. }
  split_and!; [by apply open_evolves|done|by apply link_evolves| | |].
  - by rewrite (ev_reads _ _ _ _ _ EV).
  - intros x n v idx j it. rewrite (ev_reads _ _ _ _ _ EV), (ev_cur _ _ _ _ _ EV). intros Hx Hc Hj Hb Hlti.
    apply (ev_good _ _ _ _ _ EV); [by apply Hlt|]. by eapply H5.
  - intros x n v idx. rewrite (ev_reads _ _ _ _ _ EV), (ev_cur _ _ _ _ _ EV). intros Hx Hc.
    etransitivity; [by eapply H6|]. apply (ev_cnt _ _ _ _ _ EV). by apply Hlt.
Qed.

Lemma phase_evolves :
  (forall x, installing t = Some x -> mid g x = Some id) -> phase g mem id t -> phase g' mem' id t.
Proof using EV.
  intros Hmid. pose proof (ev_cur _ _ _ _ _ EV) as Ec. pose proof (ev_reads _ _ _ _ _ EV) as Er.
  unfold phase, locking. destruct (th_pc t) as [|p|x k|i|i n|i n vv|i|i|ws|j ws|c i] eqn:Hpc; rewrite ?Ec, ?Er.
  - done.
  - intros (H1 & H2 & H3). split_and!; [done|by apply open_evolves|by destruct H3..].
  - intros (H1 & H2 & H3 & H4 & H5). split_and!; [done|by apply open_evolves|done..].
  - intros (H1 & H2 & H3). split_and!; [done|by apply open_evolves|by destruct H3..].
  - intros ((H1 & H2 & H3 & H4) & H5). split_and!; [done|by apply open_evolves|done..].
  - intros ((H1 & H2 & H3 & H4) & H5 & H6). split_and!; [done|by apply open_evolves|done..].
  - apply checking_evolves.
  - intros (H1 & it & Hi & Hr & H2). split; [by apply checking_evolves|]. exists it. split_and!; [done..|].
    intros n v idx Hx Hc. destruct (H2 n v idx Hx Hc) as [Hn|Hg].
    + left. pose proof (ev_num _ _ _ _ _ EV (it_box it)). lia.
    + right. apply (ev_good _ _ _ _ _ EV); [|done]. destruct H1 as (_ & _ & (k & e & Hk & He & _) & _).
      assert (k = idx) by congruence. subst. by eapply lookup_lt_Some.
  - intros (H1 & H2 & H3). split_and!; [by apply link_evolves|done|done].
  - intros (H1 & H2 & H3 & H4). split_and!; [by apply link_evolves|done|done|].
    intros it Hit. rewrite (ev_mem _ _ _ _ _ EV); [by apply H4|]. apply Hmid.
    unfold installing. by rewrite Hpc, Hit.
  - done.
Qed.
End evolve.
End inv.
