(* ===== verification/StoSteps.v ===== *)
(** Every step of [Sto] preserves the invariant of [StoInv]. *)

From stdpp Require Import functions.
From S2P Require Import Prelude Tid Sto StoLog StoInv.

#[local] Set Default Proof Using "Type".

(** * Traces *)

Lemma log_app tr ev : log (tr ++ ev) = foldl log_step (log tr) ev.
Proof. unfold log. by rewrite foldl_app. Qed.

Lemma settle_none id st E :
  (forall i e, E !! i = Some e -> e_status e = Pending -> e_id e <> id) ->
  settle id st (erase <$> E) = erase <$> E.
Proof.
  intros H. unfold settle. rewrite <-list_fmap_compose. apply list_fmap_ext. intros i e Hi.
  unfold erase. cbn. destruct (e_status e) eqn:Hs; try done.
  destruct (Z.eqb_spec (e_id e) id); [|done]. by destruct (H i e).
Qed.

(** The only pending entry of a thread is settled. *)
Lemma settle_insert id st E i e e' :
  E !! i = Some e -> e_id e = id -> e_status e = Pending ->
  (forall j e2, E !! j = Some e2 -> e_status e2 = Pending -> e_id e2 = id -> j = i) ->
  erase e' = (id, e_prog e, st) ->
  settle id st (erase <$> E) = erase <$> <[i := e']> E.
Proof.
  intros Hi He Hp Hu He'. apply list_eq. intros j. unfold settle.
  rewrite !list_lookup_fmap. destruct (decide (i = j)) as [<-|Hne].
  - rewrite list_lookup_insert_eq by (by eapply lookup_lt_Some). rewrite Hi. cbn. rewrite He'.
    unfold erase. rewrite Hp, He, Z.eqb_refl. done.
  - rewrite list_lookup_insert_ne by done. destruct (E !! j) as [e2|] eqn:Hj; [|done]. cbn. f_equal.
    unfold erase. destruct (e_status e2) eqn:Hs; try done.
    destruct (Z.eqb_spec (e_id e2) id); [|done]. destruct Hne. symmetry. by eapply Hu.
Qed.

(** * Bodies and their write sets *)

Lemma overlay_ext l l' d x : (forall y, written l' y = written l y) -> overlay l' d x = overlay l d x.
Proof. intros H. unfold overlay. by rewrite H. Qed.

Lemma tracks_ext p0 rs l l' p :
  (forall y, written l' y = written l y) -> tracks p0 rs l p -> tracks p0 rs l' p.
Proof.
  intros E H d Hd. destruct (H d Hd) as [H1 H2].
  destruct (serial_ext p (overlay l' d) (overlay l d)) as [E1 E2]; [intros; by apply overlay_ext|].
  split; [by rewrite E1|]. intros x. by rewrite E2.
Qed.

Lemma tracks_start p : tracks p [] [] p.
Proof. intros d _. by apply (serial_ext p d (overlay [] d)). Qed.

(** A read of the transaction's own write, and a read of a box. *)
Lemma tracks_read_own p0 rs l x k w :
  written l x = Some w -> tracks p0 rs l (Read x k) -> tracks p0 rs l (k w).
Proof. intros E H d Hd. specialize (H d Hd). cbn in H. unfold overlay in H at 1 3. by rewrite E in H. Qed.

Lemma tracks_read p0 rs l x k n v :
  written l x = None -> tracks p0 rs l (Read x k) -> tracks p0 ((x, n, v) :: rs) l (k v).
Proof.
  intros E H d Hd. assert (d x = v) as Hv by (apply (Hd x n v), list_elem_of_here).
  specialize (H d (fun y m w Hy => Hd y m w (list_elem_of_further _ _ _ Hy))). cbn in H.
  unfold overlay in H at 1 3. rewrite E in H. cbn in H. by rewrite Hv in H.
Qed.

Lemma tracks_write p0 rs l l' x v p :
  (forall y, written l' y = if decide (x = y) then Some v else written l y) ->
  tracks p0 rs l (Write x v p) -> tracks p0 rs l' p.
Proof.
  intros E H d Hd. destruct (H d Hd) as [H1 H2]. cbn in H1, H2.
  destruct (serial_ext p (overlay l' d) (<[x := v]> (overlay l d))) as [E1 E2].
  { intros y. unfold overlay at 1. rewrite E. case_decide; [subst; by rewrite fn_lookup_insert|].
    by rewrite fn_lookup_insert_ne. }
  split; [by rewrite E1|]. intros y. by rewrite E2.
Qed.

(** * Items *)

Lemma find_item_Some l x i : find_item l x = Some i -> exists it, l !! i = Some it /\ it_box it = x.
Proof.
  revert i. induction l as [|a l IH]; intros i; [done|]. cbn. destruct (Z.eqb_spec (it_box a) x).
  - intros [= <-]. eauto.
  - destruct (find_item l x) as [j|]; [|done]. intros [= <-]. by apply IH.
Qed.

Lemma find_item_None l x : find_item l x = None -> x ∉ it_box <$> l.
Proof.
  induction l as [|a l IH]; [set_solver|]. cbn. destruct (Z.eqb_spec (it_box a) x); [done|].
  destruct (find_item l x); [done|]. intros _. rewrite not_elem_of_cons. split; [done|]. by apply IH.
Qed.

(** [item] leaves the set as it is or adds a fresh item. *)
Definition grown (x : Z) (t t' : Transaction) : Prop :=
  t' = t \/ t' = t <| tset := tset t ++ [TransItem_new x] |> /\ x ∉ it_box <$> tset t.

Lemma item_spec x t i t' :
  item x t = (i, t') -> grown x t t' /\ exists it, tset t' !! i = Some it /\ it_box it = x.
Proof.
  unfold item. destruct (find_item (tset t) x) as [j|] eqn:F; intros [= <- <-].
  - split; [by left|]. by apply find_item_Some.
  - split; [right; split; [done|]; by apply find_item_None|]. exists (TransItem_new x). split; [|done]. cbn.
    by rewrite lookup_app_r, Nat.sub_diag.
Qed.

Lemma grown_written x t t' y : grown x t t' -> written (tset t') y = written (tset t) y.
Proof. intros [->|[-> _]]; [done|]. by apply written_snoc. Qed.

Lemma grown_nodup x t t' : grown x t t' -> NoDup (it_box <$> tset t) -> NoDup (it_box <$> tset t').
Proof.
  intros [->|[-> Hx]] H; [done|]. cbn. rewrite fmap_app. apply NoDup_app. split_and!; [done| |].
  - intros y Hy. set_solver.
  - apply NoDup_singleton.
Qed.

Lemma grown_lookup x t t' j it :
  grown x t t' -> tset t' !! j = Some it -> tset t !! j = Some it \/ it = TransItem_new x.
Proof.
  intros [->|[-> _]]; [by left|]. cbn. intros H. apply lookup_app_Some in H as [H|[_ H]]; [by left|].
  right. by apply list_lookup_singleton_Some in H as [_ <-].
Qed.

Lemma grown_lookup_old x t t' j it : grown x t t' -> tset t !! j = Some it -> tset t' !! j = Some it.
Proof. intros [->|[-> _]] H; [done|]. cbn. by apply lookup_app_l_Some. Qed.

Lemma nodup_update (l : list TransItem) i it it' :
  l !! i = Some it -> it_box it' = it_box it -> NoDup (it_box <$> l) -> NoDup (it_box <$> <[i := it']> l).
Proof.
  intros Hi Hb H. rewrite list_fmap_insert, Hb, list_insert_id; [done|]. by rewrite list_lookup_fmap, Hi.
Qed.

Lemma update_lookup (l : list TransItem) i it' j it2 :
  <[i := it']> l !! j = Some it2 -> i <> j /\ l !! j = Some it2 \/ i = j /\ it2 = it'.
Proof.
  destruct (decide (i = j)) as [->|]; [|rewrite list_lookup_insert_ne by done; auto].
  intros H. right. split; [done|]. rewrite list_lookup_insert_eq in H; [congruence|].
  apply lookup_lt_Some in H. by rewrite length_insert in H.
Qed.

Section steps.
Variable spin_bound : Z.
Variable db : Z -> Z.

Implicit Types (g : ghost) (s : sys) (t : thread).

(** * Rebuilding the invariant after a step of thread [id] *)

Record others_ok (id : Z) (g g' : ghost) (mem mem' : Z -> Z) : Prop := {
  oo_own : forall x id', id' <> id -> own g' x = Some id' <-> own g x = Some id';
  oo_mid : forall x id', id' <> id -> mid g' x = Some id' <-> mid g x = Some id';
  oo_ev : forall id', id' <> id -> evolves db id' g g' mem mem' }.

Definition fin_ok (id : Z) (E E' : list entry) (ev : list event) (old : list Z) t' : Prop :=
  (omap (finished_of id) ev ++ unfinished t' = old /\ omap (result_of id) (omap committed_of (erase <$> E'))
     = omap (result_of id) (omap committed_of (erase <$> E)) \/
   old = [] /\ omap (finished_of id) ev = [] /\ omap (result_of id) (omap committed_of (erase <$> E'))
     = omap (result_of id) (omap committed_of (erase <$> E)) ++ unfinished t') /\
  (forall id', id' <> id -> omap (finished_of id') ev = [] /\
     omap (result_of id') (omap committed_of (erase <$> E'))
     = omap (result_of id') (omap committed_of (erase <$> E))).

Lemma inv_rebuild N tr g g' s s' id t' ev :
  inv db N tr g s -> threads s' = <[id := t']> (threads s) ->
  (forall x, words s' x = word_of (num g' x) (own g' x)) -> (forall x, owner_ok (own g' x)) ->
  (forall x, num g' x = cnt (elog g') x /\ num g' x <= Z.of_nat (S N)) ->
  (forall x, own g' x = Some id <-> x ∈ held t') ->
  (forall x, mid g' x = Some id <-> installing t' = Some x) ->
  (forall x, mid g' x = None -> vals s' x = inst db (elog g') x) ->
  others_ok id g g' (vals s) (vals s') ->
  uint 7 id -> base t' -> phase db g' (vals s') id t' ->
  (forall i e, elog g' !! i = Some e -> ledger_entry_ok db g' i e) ->
  (forall i j e e' x, elog g' !! i = Some e -> x ∈ e_todo e -> (i < j)%nat -> elog g' !! j = Some e' ->
    e_status e' <> Dropped -> e_writes e' x = None) ->
  (forall id' i j e, cur g' id' = Some i -> (i < j)%nat -> elog g' !! j = Some e -> e_id e <> id') ->
  erase <$> elog g' = foldl log_step (log tr) ev ->
  fin_ok id (elog g) (elog g') ev (from_option unfinished [] (threads s !! id)) t' ->
  inv db (S N) (tr ++ ev) g' s'.
Proof.
  intros I Ht Hw Hown Hnum Hheld Hmid Hvals O Hid Hb Hp Hent Hlast Hcur Hlog [Hf Hfo].
  constructor; try done.
  - intros x id'. rewrite Ht. destruct (decide (id' = id)) as [->|Hne].
    + rewrite Hheld. split; [intros; exists t'; by rewrite lookup_insert_eq|].
      intros (t & Et & Hx). rewrite lookup_insert_eq in Et. by injection Et as ->.
    + rewrite (oo_own _ _ _ _ _ O), (i_held _ _ _ _ _ I) by done. by setoid_rewrite lookup_insert_ne.
  - intros x id'. rewrite Ht. destruct (decide (id' = id)) as [->|Hne].
    + rewrite Hmid. split; [intros; exists t'; by rewrite lookup_insert_eq|].
      intros (t & Et & Hx). rewrite lookup_insert_eq in Et. by injection Et as ->.
    + rewrite (oo_mid _ _ _ _ _ O), (i_mid _ _ _ _ _ I) by done. by setoid_rewrite lookup_insert_ne.
  - intros id' t. rewrite Ht. destruct (decide (id' = id)) as [->|Hne].
    + rewrite lookup_insert_eq. by intros [= <-].
    + rewrite lookup_insert_ne by done. intros Et. destruct (i_thr _ _ _ _ _ I id' t Et) as (H1 & H2 & H3).
      split_and!; [done..|]. eapply phase_evolves; [by apply (oo_ev _ _ _ _ _ O)| |done].
      intros x Hx. apply (i_mid _ _ _ _ _ I). eauto.
  - intros id'. rewrite Ht. destruct (decide (id' = id)) as [->|Hne]; [by rewrite lookup_insert_eq|].
    rewrite lookup_insert_ne by done. intros Et. rewrite (ev_cur _ _ _ _ _ _ (oo_ev _ _ _ _ _ O id' Hne)).
    by apply (i_none _ _ _ _ _ I).
  - by rewrite log_app.
  - intros id'. rewrite Ht, omap_app. pose proof (i_fin _ _ _ _ _ I id') as F.
    destruct (decide (id' = id)) as [->|Hne].
    + rewrite lookup_insert_eq. cbn [from_option]. destruct Hf as [[Ho Hr]|(Ho & -> & ->)].
      * by rewrite Hr, <-F, <-Ho, app_assoc.
      * rewrite Ho, app_nil_r in F. by rewrite app_nil_r, F.
    + rewrite lookup_insert_ne by done. destruct (Hfo id' Hne) as [-> ->]. by rewrite app_nil_r, F.
Qed.

(** Steps that leave the boxes and the ledger alone. *)
Definition rereads (id : Z) g g' : Prop :=
  num g' = num g /\ own g' = own g /\ mid g' = mid g /\ cur g' = cur g /\ elog g' = elog g /\
  forall id', id' <> id -> reads g' id' = reads g id'.

Lemma rereads_refl id g : rereads id g g.
Proof. done. Qed.

Lemma rereads_set id g rs : rereads id g (g <| reads := <[id := rs]> (reads g) |>).
Proof. split_and!; try done. intros id' Hne. cbn. by rewrite fn_lookup_insert_ne. Qed.

Lemma inv_local N tr g g' s id t' ev :
  inv db N tr g s -> rereads id g g' -> uint 7 id ->
  (forall x, own g x = Some id <-> x ∈ held t') -> installing t' = None -> (forall x, mid g x <> Some id) ->
  base t' -> phase db g' (vals s) id t' ->
  foldl log_step (log tr) ev = log tr -> (forall id', id' <> id -> omap (finished_of id') ev = []) ->
  omap (finished_of id) ev ++ unfinished t' = from_option unfinished [] (threads s !! id) ->
  inv db (S N) (tr ++ ev) g' (s <| threads := <[id := t']> (threads s) |>).
Proof.
  intros I (En & Eo & Em & Ec & Ee & Er) Hid Hheld Hi Hm Hb Hp Hlog Hfo Hf.
  destruct g as [nu ow mi re cu el], g' as [nu' ow' mi' re' cu' el']. cbn in En, Eo, Em, Ec, Ee, Er. subst.
  eapply (inv_rebuild N tr); try done; try apply I.
  - intros x. destruct (i_num _ _ _ _ _ I x). split; [done|]. cbn in *. lia.
  - intros x. split; [intros H; by destruct (Hm x)|by rewrite Hi].
  - constructor; [done..|]. intros id' Hne. constructor; try done. by apply Er.
  - cbn. rewrite Hlog. apply (i_log _ _ _ _ _ I).
  - split; [by left|]. intros id' Hne. split; [by apply Hfo|done].
Qed.

(** * What the invariant says of one thread *)

Lemma inv_own N tr g s id t x :
  inv db N tr g s -> threads s !! id = Some t -> own g x = Some id <-> x ∈ held t.
Proof.
  intros I Ht. rewrite (i_held _ _ _ _ _ I). split; [|eauto]. intros (t' & E & H).
  assert (t' = t) as -> by congruence. done.
Qed.

Lemma inv_mid N tr g s id t x :
  inv db N tr g s -> threads s !! id = Some t -> mid g x = Some id <-> installing t = Some x.
Proof.
  intros I Ht. rewrite (i_mid _ _ _ _ _ I). split; [|eauto]. intros (t' & E & H).
  assert (t' = t) as -> by congruence. done.
Qed.

Lemma inv_mid_none N tr g s id t x :
  inv db N tr g s -> threads s !! id = Some t -> installing t = None -> mid g x <> Some id.
Proof. intros I Ht Hi H. apply (inv_mid _ _ _ _ _ _ _ I Ht) in H. congruence. Qed.

(** Events of a thread without an entry in the ledger settle nothing. *)
Lemma inv_settle_none N tr g s id st :
  inv db N tr g s -> cur g id = None -> settle id st (log tr) = log tr.
Proof.
  intros I Hc. rewrite <-(i_log _ _ _ _ _ I). apply settle_none. intros i e Hi Hp He.
  destruct (i_ent _ _ _ _ _ I i e Hi) as (H & _). rewrite He, Hc in H. by specialize (H (or_introl Hp)).
Qed.

Definition locked_boxes (l : list TransItem) : list Z := it_box <$> filter (fun it => needs_unlock it = true) l.

Lemma elem_locked_boxes l x :
  x ∈ locked_boxes l <-> exists i it, l !! i = Some it /\ it_box it = x /\ needs_unlock it = true.
Proof.
  unfold locked_boxes. rewrite list_elem_of_fmap. split.
  - intros (it & -> & H). apply list_elem_of_filter in H as [H1 H2]. apply list_elem_of_lookup in H2 as [i H2]. eauto.
  - intros (i & it & H & <- & Hn). exists it. split; [done|]. apply list_elem_of_filter. split; [done|].
    by eapply list_elem_of_lookup_2.
Qed.

Lemma locked_none l x :
  (forall i it, l !! i = Some it -> needs_unlock it = false) -> x ∈ locked_boxes l <-> False.
Proof.
  intros H. rewrite elem_locked_boxes. split; [|done]. intros (i & it & Hi & _ & Hn). rewrite (H i it Hi) in Hn. done.
Qed.

(** * Open transactions and their items *)

Lemma open_same g id t t' :
  tset (txn t') = tset (txn t) -> any_writes (txn t') = any_writes (txn t) ->
  any_nonopaque (txn t') = any_nonopaque (txn t) -> open_txn db g id t -> open_txn db g id t'.
Proof. unfold open_txn, read_ok. intros -> -> ->. done. Qed.

Lemma open_reads g g' id t :
  num g' = num g -> Forall (read_ok db g' t) (reads g' id) -> open_txn db g id t -> open_txn db g' id t.
Proof. intros E H (H1 & H2 & H3 & _). split_and!; [by rewrite E|done..]. Qed.

Lemma open_grown g id t t' x :
  grown x (txn t) (txn t') -> open_txn db g id t -> open_txn db g id t'.
Proof.
  intros G (H1 & H2 & H3 & H4). split_and!.
  - intros i it Hi Hr. destruct (grown_lookup _ _ _ _ _ G Hi) as [Ho| ->]; [by eapply H1|done].
  - intros i it Hi Hn. destruct (grown_lookup _ _ _ _ _ G Hi) as [Ho| ->]; [by eapply H2|done].
  - intros i it Hi. destruct (grown_lookup _ _ _ _ _ G Hi) as [Ho| ->]; [|done].
    destruct (H3 i it Ho). destruct G as [-> | [-> _]]; by split.
  - eapply Forall_impl; [exact H4|]. intros [[y n] v] ((i & it & Hi & Hit) & Hn). split; [|done].
    exists i, it. split; [|done]. by eapply grown_lookup_old.
Qed.

(** Item [i] changes; what is known of a read stays. *)
Record better (t t' : Transaction) (i : nat) (it it' : TransItem) : Prop := {
  be_old : tset t !! i = Some it;
  be_set : tset t' = <[i := it']> (tset t);
  be_box : it_box it' = it_box it;
  be_read : has_read it = true -> has_read it' = true /\ rdata it' = rdata it;
  be_aw : any_writes t = true \/ has_write it' = true -> any_writes t' = true;
  be_ao : any_nonopaque t = true \/ has_read it' = true -> any_nonopaque t' = true }.

Lemma open_update g id t t' i it it' :
  better (txn t) (txn t') i it it' ->
  (has_read it' = true -> has_read it = true \/ exists n, rdata it' = word_of n None /\ n <= num g (it_box it)) ->
  (needs_unlock it' = true -> locked_at_commit it' = true) ->
  open_txn db g id t -> open_txn db g id t'.
Proof.
  intros [Hi Hs Hb Hr Ha Ho] Hn Hl (H1 & H2 & H3 & H4).
  assert (forall j it2, tset (txn t') !! j = Some it2 -> i <> j /\ tset (txn t) !! j = Some it2 \/ i = j /\ it2 = it')
    as L by (intros j it2; rewrite Hs; apply update_lookup).
  split_and!.
  - intros j it2 Hj Hr2. destruct (L j it2 Hj) as [[_ Hj']|[_ ->]]; [by eapply H1|]. rewrite Hb.
    destruct (Hn Hr2) as [Hold|]; [|done]. destruct (Hr Hold) as [_ ->]. by eapply H1.
  - intros j it2 Hj Hn2. destruct (L j it2 Hj) as [[_ Hj']|[_ ->]]; [by eapply H2|by apply Hl].
  - intros j it2 Hj. destruct (L j it2 Hj) as [[_ Hj']|[_ ->]].
    + destruct (H3 j it2 Hj'). split; auto.
    + split; auto.
  - eapply Forall_impl; [exact H4|]. intros [[y n] v] ((j & it2 & Hj & Hb2 & Hr2 & Hd2) & Hrest). split; [|done].
    rewrite Hs. destruct (decide (i = j)) as [<-|Hne].
    + assert (it2 = it) as -> by congruence. exists i, it'. rewrite list_lookup_insert_eq by (by eapply lookup_lt_Some).
      destruct (Hr Hr2) as [-> ->]. by rewrite Hb.
    + exists j, it2. by rewrite list_lookup_insert_ne.
Qed.

Lemma better_written (t t' : Transaction) i it it' x :
  better t t' i it it' -> NoDup (it_box <$> tset t) -> has_write it' = has_write it -> wdata it' = wdata it ->
  written (tset t') x = written (tset t) x.
Proof.
  intros B Hd Hw Hv. rewrite (be_set _ _ _ _ _ B), (written_insert _ _ it) by (done || apply B).
  destruct (Z.eqb_spec (it_box it) x) as [<-|]; [|done].
  rewrite (written_item _ i it) by (done || apply B). by rewrite Hw, Hv.
Qed.

Lemma better_base (t t' : Transaction) i it it' :
  better t t' i it it' -> NoDup (it_box <$> tset t) -> NoDup (it_box <$> tset t').
Proof. intros B. rewrite (be_set _ _ _ _ _ B). eapply nodup_update; apply B. Qed.
End steps.
