(* ===== verification/StoBody.v ===== *)
(** The steps of a body of [Sto], from the start of a transaction to its first
    lock, preserve the invariant of [StoInv]; and the steps that write its ledger: a
    transaction is appended, or the entry of the current one advances. *)

From stdpp Require Import functions.
From S2P Require Import Prelude Sto StoLog StoInv StoSteps Tid.

#[local] Set Default Proof Using "Type".

Lemma held_free t x : flags (fun _ _ => false) t -> x ∈ held t <-> False.
Proof.
  intros F. unfold held. fold (locked_boxes match th_pc t with
    | Idle => [] | Stop _ i => take i (tset (txn t)) | _ => tset (txn t) end).
  apply locked_none. intros i it Hi. destruct (th_pc t); try by apply (F i).
  apply lookup_take_Some in Hi as [Hi _]. by apply (F i).
Qed.

Lemma flags_grown t t' x :
  grown x (txn t) (txn t') -> flags (fun _ _ => false) t -> flags (fun _ _ => false) t'.
Proof. intros G F i it Hi. destruct (grown_lookup _ _ _ _ _ G Hi) as [Ho| ->]; [by apply (F i)|done]. Qed.

Lemma flags_update t t' i it it' :
  better (txn t) (txn t') i it it' -> needs_unlock it' = needs_unlock it ->
  flags (fun _ _ => false) t -> flags (fun _ _ => false) t'.
Proof.
  intros B Hn F j it2. rewrite (be_set _ _ _ _ _ B). intros [[_ Hj]|[_ ->]]%update_lookup; [by apply (F j)|].
  rewrite Hn. apply (F i), B.
Qed.

Section body.
Variable db : Z -> Z.

Implicit Types (g : ghost) (s : sys) (t : thread).

Definition quiet (id : Z) (ev : list event) : Prop := ev = [] \/ ev = [Aborted id].

Lemma quiet_log N tr g s id ev :
  inv db N tr g s -> cur g id = None -> quiet id ev -> foldl log_step (log tr) ev = log tr.
Proof. intros I Hc [->| ->]; [done|]. cbn. by eapply inv_settle_none. Qed.

Lemma quiet_fin id id' ev : quiet id ev -> omap (finished_of id') ev = [].
Proof. by intros [->| ->]. Qed.

(** A step that neither locks nor unlocks. *)
Lemma inv_keep N tr g g' s id t t' ev :
  inv db N tr g s -> threads s !! id = Some t -> rereads id g g' -> ev = [] \/ cur g id = None /\ quiet id ev ->
  (forall x, x ∈ held t' <-> x ∈ held t) -> installing t = None -> unfinished t = [] ->
  installing t' = None -> unfinished t' = [] -> base t' -> phase db g' (vals s) id t' ->
  inv db (S N) (tr ++ ev) g' (s <| threads := <[id := t']> (threads s) |>).
Proof.
  intros I Ht R Q Hh Hi Hu Hi' Hu' Hb Hp.
  assert (quiet id ev) as Q' by (destruct Q as [->|[_ ?]]; [by left|done]).
  eapply inv_local; try done.
  - by apply (i_thr _ _ _ _ _ I id t).
  - intros x. by rewrite (inv_own _ _ _ _ _ _ _ _ I Ht), Hh.
  - intros x. by eapply inv_mid_none.
  - destruct Q as [->|[Hc _]]; [done|]. by eapply quiet_log.
  - intros id' _. by apply (quiet_fin id).
  - by rewrite (quiet_fin id), Ht, Hu'.
Qed.

(** A thread that holds no lock, before and after. *)
Lemma inv_free N tr g g' s id t t' ev :
  inv db N tr g s -> threads s !! id = Some t -> rereads id g g' -> cur g id = None ->
  flags (fun _ _ => false) t -> installing t = None -> unfinished t = [] ->
  flags (fun _ _ => false) t' -> installing t' = None -> unfinished t' = [] ->
  base t' -> phase db g' (vals s) id t' -> quiet id ev ->
  inv db (S N) (tr ++ ev) g' (s <| threads := <[id := t']> (threads s) |>).
Proof.
  intros I Ht R Hc F Hi Hu F' Hi' Hu' Hb Hp Q. eapply inv_keep; try done; [by right|].
  intros x. by rewrite !held_free.
Qed.

(** An idle thread, or a new one, gets a body. *)
Lemma inv_run N tr g s id p :
  inv db N tr g s -> uint 7 id -> (forall t, threads s !! id = Some t -> th_pc t = Idle) ->
  inv db (S N) (tr ++ [Began id p]) (g <| reads := <[id := []]> (reads g) |>)
    (s <| threads := <[id := {| txn := start; th_pc := Body p; th_prog := p; th_result := 0 |}]> (threads s) |>).
Proof.
  intros I Hid Hidle.
  assert (forall x, own g x <> Some id) as Hown.
  { intros x (t & Ht & Hx)%(i_held _ _ _ _ _ I). unfold held in Hx. rewrite (Hidle t Ht) in Hx. by apply elem_of_nil in Hx. }
  assert (forall x, mid g x <> Some id) as Hmid.
  { intros x (t & Ht & Hx)%(i_mid _ _ _ _ _ I). unfold installing in Hx. by rewrite (Hidle t Ht) in Hx. }
  assert (cur g id = None) as Hc.
  { destruct (threads s !! id) as [t|] eqn:Ht; [|by apply (i_none _ _ _ _ _ I)].
    destruct (i_thr _ _ _ _ _ I id t Ht) as (_ & _ & Hp). unfold phase in Hp. by rewrite (Hidle t eq_refl) in Hp. }
  eapply inv_local; try done.
  - apply rereads_set.
  - intros x. unfold held. cbn. split; [intros H; by destruct (Hown x)|]. by intros ?%elem_of_nil.
  - split; [by apply NoDup_nil|done].
  - cbn. rewrite fn_lookup_insert. split_and!; [done|..|apply tracks_start]; try done.
    split_and!; try done. cbn. rewrite fn_lookup_insert. constructor.
  - cbn. destruct (threads s !! id) as [t|] eqn:Ht; [|done]. cbn. unfold unfinished. by rewrite (Hidle t eq_refl).
Qed.

(** Giving up before the transaction is in the ledger. *)
Lemma inv_abort_free N tr g s id t t' :
  inv db N tr g s -> threads s !! id = Some t -> cur g id = None ->
  flags (fun _ _ => false) t -> installing t = None -> unfinished t = [] ->
  flags (fun _ _ => false) t' -> base t' ->
  inv db (S N) (tr ++ (abort id t').2) g (s <| threads := <[id := (abort id t').1]> (threads s) |>).
Proof.
  intros I Ht Hc F Hi Hu F' Hb. unfold abort. cbn [fst snd]. eapply inv_free; try done; by right.
Qed.

Section step.
Context (N : nat) (tr : list event) (g : ghost) (s : sys) (id : Z) (t : thread).
Hypothesis I : inv db N tr g s.
Hypothesis Ht : threads s !! id = Some t.

Abbreviation result ev t' := (exists g', inv db (S N) (tr ++ ev) g' (s <| threads := <[id := t']> (threads s) |>)).

(** [it'] differs from [it] in the data of a read or a write only. *)
Definition same_locks (it it' : TransItem) : Prop :=
  needs_unlock it' = needs_unlock it /\ locked_at_commit it' = locked_at_commit it.

Lemma add_write_spec i it v tx :
  tset tx !! i = Some it -> (has_write it = true -> any_writes tx = true) -> (has_read it = true -> any_nonopaque tx = true) ->
  exists it', better tx (add_write i it v tx) i it it' /\ same_locks it it' /\ has_read it' = has_read it /\
    has_write it' = true /\ wdata it' = v /\ commit_tid (add_write i it v tx) = commit_tid tx.
Proof.
  intros Hi Ha Ho. unfold add_write. destruct (has_write it) eqn:Hw; cbn.
  - exists (it <| wdata := v |>). split_and!; try done. constructor; try done; cbn; intuition.
  - exists (it <| has_write := true |> <| wdata := v |>). split_and!; try done.
    constructor; try done; cbn; intuition.
Qed.

Lemma observe_read_spec i it v tx tx' :
  observe_read i it v tx = Some tx' -> tset tx !! i = Some it ->
  (has_write it = true -> any_writes tx = true) -> (has_read it = true -> any_nonopaque tx = true) ->
  exists it', better tx tx' i it it' /\ same_locks it it' /\ has_write it' = has_write it /\ wdata it' = wdata it /\
    has_read it' = true /\ (has_read it = true \/ rdata it' = v) /\ commit_tid tx' = commit_tid tx.
Proof.
  unfold observe_read. intros H Hi Ha Ho. destruct (Tid.is_locked v); [done|].
  destruct (has_read it) eqn:Hr; cbn in H; injection H as <-.
  - exists it. split_and!; auto; try done. constructor; auto; [by rewrite list_insert_id|intuition..].
  - exists (it <| has_read := true |> <| rdata := v |>). split_and!; auto; try done.
    constructor; try done; cbn; intuition. congruence.
Qed.

Lemma inv_write x v p : th_pc t = Body (Write x v p) ->
  result (step_body id (Write x v p) t s).2 (step_body id (Write x v p) t s).1.
Proof using I Ht.
  intros Hpc. exists g. destruct (i_thr _ _ _ _ _ I id t Ht) as (Hid & [Hnd Hct] & Hp).
  unfold phase in Hp. rewrite Hpc in Hp. destruct Hp as (Hc & Ho & Hf & Htr).
  cbn [step_body]. destruct (item x (txn t)) as [i tx] eqn:Hit.
  destruct (item_spec _ _ _ _ Hit) as [G (it & Hi & Hx)]. rewrite Hi. cbn [default fst snd]. unfold Datatypes.id.
  set (t1 := t <| txn := tx |>).
  assert (open_txn db g id t1) as Ho1 by by apply (open_grown _ _ _ t _ x).
  destruct Ho1 as (H1 & H2 & H3 & H4).
  destruct (add_write_spec i it v tx) as (it' & B & L & Er & Ew & Ev & Ec); [done|by apply (H3 i it)..|].
  set (t2 := goto _ _).
  assert (flags (fun _ _ => false) t2) as F.
  { eapply (flags_update t1 t2), (flags_grown t t1); [exact B|apply L|exact G|exact Hf]. }
  assert (NoDup (it_box <$> tset tx)) as Hnd1 by by eapply grown_nodup.
  eapply (inv_free _ _ _ _ _ _ t); try done.
  - unfold installing. by rewrite Hpc.
  - unfold unfinished. by rewrite Hpc.
  - split; [by eapply better_base|]. cbn. rewrite Ec. by destruct G as [->|[-> _]].
  - split_and!; [done| |done|].
    + eapply (open_update _ _ _ t1); [exact B|rewrite Er; by left| |done].
      destruct L as [-> ->]. by apply (H2 i).
    + cbn. eapply tracks_write; [|exact Htr]. intros y. rewrite (be_set _ _ _ _ _ B), (written_insert _ _ it) by (done || apply B).
      rewrite Ew, Ev, Hx, (grown_written _ _ _ _ G). by destruct (Z.eqb_spec x y), (decide (x = y)).
  - by left.
Qed.

Lemma inv_read x k : th_pc t = Body (Read x k) ->
  result (step_body id (Read x k) t s).2 (step_body id (Read x k) t s).1.
Proof using I Ht.
  intros Hpc. exists g. destruct (i_thr _ _ _ _ _ I id t Ht) as (Hid & [Hnd Hct] & Hp).
  unfold phase in Hp. rewrite Hpc in Hp. destruct Hp as (Hc & Ho & Hf & Htr).
  cbn [step_body]. destruct (item x (txn t)) as [i tx] eqn:Hit.
  destruct (item_spec _ _ _ _ Hit) as [G (it & Hi & Hx)]. rewrite Hi. cbn [default fst snd]. unfold Datatypes.id.
  set (t1 := t <| txn := tx |>).
  assert (open_txn db g id t1) as Ho1 by by apply (open_grown _ _ _ t _ x).
  assert (flags (fun _ _ => false) t1) as F1 by by eapply flags_grown.
  assert (base t1) as B1.
  { split; [by eapply grown_nodup|]. by destruct G as [->|[-> _]]. }
  assert (forall p, tracks (th_prog t) (reads g id) (tset (txn t)) p -> tracks (th_prog t) (reads g id) (tset tx) p) as T.
  { intros p. apply tracks_ext. intros y. by apply (grown_written x). }
  assert (installing t = None) as Hin by (unfold installing; by rewrite Hpc).
  assert (unfinished t = []) as Hun by (unfold unfinished; by rewrite Hpc).
  pose proof (written_item (tset tx) i it ltac:(apply B1) Hi) as Hwr. rewrite Hx in Hwr.
  destruct (has_write it) eqn:Hw; [|destruct (observe_read i it (words s x) tx) as [tx'|] eqn:Hob]; cbn [fst snd].
  - eapply (inv_free _ _ _ _ _ _ t); try done; [|by left].
    split_and!; [done..|]. eapply tracks_read_own; [exact Hwr|by apply T].
  - destruct Ho1 as (H1 & H2 & H3 & H4).
    destruct (observe_read_spec _ _ _ _ _ Hob) as (it' & B & L & Ew & Ev & Er & Ed & Ec); [done|by apply (H3 i it)..|].
    eapply (inv_free _ _ _ _ _ _ t); try done; [..|by left].
    + eapply (flags_update t1); [exact B|apply L|exact F1].
    + split; [eapply better_base; [exact B|apply B1]|]. cbn. rewrite Ec. apply B1.
    + split_and!; [done|..].
      * eapply (open_update _ _ _ t1); [exact B| | |done].
        -- intros _. destruct Ed as [|Ed]; [by left|]. right. exists (num g x). rewrite Hx. split; [|lia].
           rewrite Ed. unfold observe_read in Hob. rewrite (i_words _ _ _ _ _ I) in Hob |- *.
           rewrite is_locked_word in Hob by apply I. destruct (own g x); [done|done].
        -- destruct L as [-> ->]. by apply (H2 i).
      * eapply (flags_update t1); [exact B|apply L|exact F1].
      * cbn. eapply tracks_ext; [|by apply T]. intros y. eapply better_written; [exact B|apply B1|done..].
      * exists i, it'. cbn. rewrite (be_set _ _ _ _ _ B), list_lookup_insert_eq by (by eapply lookup_lt_Some).
        rewrite (be_box _ _ _ _ _ B), Ew. done.
  - by apply (inv_abort_free _ _ _ _ _ t).
Qed.

Lemma inv_read_value x k : th_pc t = ReadValue x k -> result [] (goto (Body (k (vals s x))) t).
Proof using I Ht.
  intros Hpc. destruct (i_thr _ _ _ _ _ I id t Ht) as (Hid & Hb & Hp).
  unfold phase in Hp. rewrite Hpc in Hp. destruct Hp as (Hc & Ho & Hf & Htr & i & it & Hi & Hx & Hr & Hw).
  pose proof (proj1 Ho i it Hi Hr) as (n & Hn & Hle). rewrite Hx in Hle.
  set (g' := g <| reads := <[id := (x, n, vals s x) :: reads g id]> (reads g) |>). exists g'.
  assert (reads g' id = (x, n, vals s x) :: reads g id) as Er by (cbn; by rewrite fn_lookup_insert).
  eapply (inv_free _ _ _ _ _ _ t); try done; [apply rereads_set|..|by left].
  - unfold installing. by rewrite Hpc.
  - unfold unfinished. by rewrite Hpc.
  - split_and!; [done| |done|].
    + apply (open_reads db g); [done| |by apply (open_same db g id t)]. rewrite Er. constructor; [|apply Ho].
      split_and!; [by exists i, it|done|]. cbn. right. destruct (mid g x) eqn:Em; [by left|right].
      symmetry. by apply (i_vals _ _ _ _ _ I).
    + cbn -[g']. rewrite Er. apply tracks_read; [|done]. rewrite <-Hx, (written_item _ i) by (done || apply Hb). by rewrite Hw.
Qed.
End step.
End body.

#[local] Set Default Proof Using "Type".

(** * An entry advances *)

(** It commits, is dropped, or installs some of its writes. *)
Record advances (e e' : entry) : Prop := {
  ad_id : e_id e' = e_id e;
  ad_writes : e_writes e' = e_writes e;
  ad_todo : forall x, x ∈ e_todo e' -> x ∈ e_todo e;
  ad_drop : e_status e' <> Dropped -> e_status e <> Dropped;
  ad_contrib : forall x, contrib e' x = contrib e x \/
    contrib e x = None /\ contrib e' x <> None /\ e_status e <> Dropped /\ e_writes e x <> None }.

Lemma advances_one e e' x : advances e e' -> one (contrib e x) <= one (contrib e' x).
Proof. intros A. destruct (ad_contrib _ _ A x) as [->|(-> & _)]; [done|]. by destruct (contrib e' x). Qed.

Lemma good_advance db P i e e' x w :
  P !! i = Some e -> advances e e' -> good db P x w -> good db (<[i := e']> P) x w.
Proof.
  intros Hi A [HP <-]. rewrite Forall_lookup in HP. pose proof (HP i e Hi) as He.
  destruct (ad_contrib _ _ A x) as [Hc|(Hc & _ & Hd & Hw)].
  - split; [|by apply (inst_insert_same _ _ _ e)]. apply Forall_insert; [by apply Forall_lookup|].
    rewrite Hc, (ad_writes _ _ A). intros Hd. by apply He, (ad_drop _ _ A).
  - destruct (He Hd Hw) as [y Hy]. congruence.
Qed.

Lemma good_advance_take db E i k e e' x w :
  E !! k = Some e -> advances e e' -> good db (take i E) x w -> good db (take i (<[k := e']> E)) x w.
Proof.
  intros Hk A H. rewrite take_insert. case_decide; [|done]. eapply good_advance; [|done..].
  by rewrite lookup_take_lt.
Qed.

Lemma cnt_advance_take E i k e e' x :
  E !! k = Some e -> advances e e' -> cnt (take i E) x <= cnt (take i (<[k := e']> E)) x.
Proof.
  intros Hk A. rewrite take_insert. case_decide; [|done]. rewrite (cnt_insert _ _ e) by by rewrite lookup_take_lt.
  pose proof (advances_one e e' x A). lia.
Qed.

Section ledger.
Variable db : Z -> Z.

Implicit Types (g : ghost) (s : sys) (t : thread).

Lemma cur_entry N tr g s id i :
  inv db N tr g s -> cur g id = Some i -> exists e, elog g !! i = Some e /\ e_id e = id.
Proof.
  intros I Hc. destruct (threads s !! id) as [t|] eqn:Ht; [|by rewrite (i_none _ _ _ _ _ I) in Hc].
  destruct (i_thr _ _ _ _ _ I id t Ht) as (_ & _ & Hp).
  assert (forall st todo, link g id t st todo -> exists e, elog g !! i = Some e /\ e_id e = id) as L.
  { intros st todo (k & e & Hk & He & Hid & _). assert (k = i) as -> by congruence. eauto. }
  unfold phase, locking, checking in Hp. destruct (th_pc t); try (by destruct_and?; congruence); destruct_and?; by eapply L.
Qed.

Lemma cur_inj N tr g s id id' i : inv db N tr g s -> cur g id = Some i -> cur g id' = Some i -> id = id'.
Proof.
  intros I H1 H2. destruct (cur_entry _ _ _ _ _ _ I H1) as (e1 & E1 & <-), (cur_entry _ _ _ _ _ _ I H2) as (e2 & E2 & <-).
  congruence.
Qed.

(** The older entries of a thread are finished. *)
Lemma not_cur_done N tr g s j e :
  inv db N tr g s -> elog g !! j = Some e -> cur g (e_id e) <> Some j -> e_status e <> Pending /\ e_todo e = [].
Proof.
  intros I Hj Hc. destruct (i_ent _ _ _ _ _ I j e Hj) as (H & _). split; [auto|].
  destruct (e_todo e) eqn:E; [done|]. destruct Hc. apply H. by right.
Qed.

(** What [inv_rebuild] asks of the ledger. *)
Record kept (id : Z) g g' (mem mem' : Z -> Z) : Prop := {
  k_others : others_ok db id g g' mem mem';
  k_ent : forall i e, elog g' !! i = Some e -> ledger_entry_ok db g' i e;
  k_last : forall i j e e' x, elog g' !! i = Some e -> x ∈ e_todo e -> (i < j)%nat -> elog g' !! j = Some e' ->
    e_status e' <> Dropped -> e_writes e' x = None;
  k_cur : forall id' i j e, cur g' id' = Some i -> (i < j)%nat -> elog g' !! j = Some e -> e_id e <> id' }.

(** The boxes change only as the owner may change them. *)
Record boxes_ok (id : Z) g g' (mem mem' : Z -> Z) : Prop := {
  bo_own : forall x id', id' <> id -> own g' x = Some id' <-> own g x = Some id';
  bo_mid : forall x id', id' <> id -> mid g' x = Some id' <-> mid g x = Some id';
  bo_mem : forall x id', id' <> id -> mid g x = Some id' -> mem' x = mem x }.

(** The current entry advances. *)
Lemma kept_insert N tr g g' s mem' id i e e' :
  inv db N tr g s -> cur g id = Some i -> elog g !! i = Some e -> e_id e = id -> advances e e' ->
  elog g' = <[i := e']> (elog g) -> reads g' = reads g ->
  (forall id', id' <> id -> cur g' id' = cur g id') -> (cur g' id = cur g id \/ cur g' id = None) ->
  (forall x, num g' x = cnt (elog g') x) ->
  (forall x, contrib e' x = contrib e x -> mid g x <> None -> mid g' x <> None) ->
  boxes_ok id g g' (vals s) mem' ->
  ledger_entry_ok db g' i e' -> kept id g g' (vals s) mem'.
Proof.
  intros I Hc Hi He A HE HR Hcur Hcid Hnum Hmid B Hent.
  assert (forall j e2, elog g' !! j = Some e2 -> i <> j /\ elog g !! j = Some e2 \/ i = j /\ e2 = e') as L.
  { intros j e2. rewrite HE. intros [(-> & -> & _)|[? ?]]%list_lookup_insert_Some; auto. }
  constructor.
  - constructor; [apply B..|]. intros id' Hne. constructor.
    + intros x. rewrite Hnum, (proj1 (i_num _ _ _ _ _ I x)), HE, (cnt_insert _ _ e) by done.
      pose proof (advances_one _ _ x A). lia.
    + by rewrite HR.
    + by apply Hcur.
    + intros x n w Hn H. destruct (ad_contrib _ _ A x) as [Ex|(Ex & Ex' & _)].
      * rewrite HE, (inst_insert_same _ _ _ e) by done. rewrite Hnum, HE, (cnt_insert _ _ e), Ex by done.
        rewrite <-(proj1 (i_num _ _ _ _ _ I x)). destruct H as [?|[?|?]]; [left; lia| |by auto]. right; left. by apply Hmid.
      * left. rewrite Hnum, HE, (cnt_insert _ _ e), Ex, <-(proj1 (i_num _ _ _ _ _ I x)) by done.
        destruct (contrib e' x); [cbn; lia|done].
    + intros j Hj. rewrite HE, list_lookup_insert_ne; [done|]. intros ->. apply Hne. by eapply cur_inj.
    + intros j x w _. rewrite HE. by eapply good_advance_take.
    + intros j x _. rewrite HE. by eapply cnt_advance_take.
    + intros x. by apply (bo_mem _ _ _ _ _ B).
  - intros j e2 Hj. destruct (L j e2 Hj) as [[Hij Hj']|[<- ->]]; [|done].
    destruct (i_ent _ _ _ _ _ I j e2 Hj') as (H1 & H2 & H3 & H4). split_and!.
    + intros H. specialize (H1 H). rewrite Hcur; [done|]. intros E2. rewrite E2 in H1. congruence.
    + intros x Hx. destruct (H2 x Hx) as (Ho & Hw). split; [|done]. apply (bo_own _ _ _ _ _ B); [|done].
      intros E2. assert (cur g (e_id e2) = Some j) as Hcj by (apply H1; right; by intros E3; rewrite E3 in Hx; apply elem_of_nil in Hx).
      rewrite E2 in Hcj. congruence.
    + done.
    + intros r Hr. destruct (H4 r Hr) as [Hs Hg]. split; [done|]. intros x n v Hx. rewrite HE.
      eapply good_advance_take; [done..|]. by eapply Hg.
  - intros j k e1 e2 x Hj Hx Hjk Hk Hd.
    assert (exists e1', elog g !! j = Some e1' /\ x ∈ e_todo e1') as (e1' & Hj' & Hx').
    { destruct (L j e1 Hj) as [[_ ?]|[<- ->]]; [by exists e1|]. exists e. split; [done|]. by apply (ad_todo _ _ A). }
    destruct (L k e2 Hk) as [[_ Hk']|[<- ->]].
    + by apply (i_last _ _ _ _ _ I j k e1' e2).
    + rewrite (ad_writes _ _ A). apply (i_last _ _ _ _ _ I j i e1' e); try done. by apply (ad_drop _ _ A).
  - intros id' j k e2 Hj Hjk Hk.
    assert (cur g id' = Some j) as Hj'.
    { destruct (decide (id' = id)) as [->|]; [destruct Hcid; congruence|]. by rewrite <-Hcur. }
    destruct (L k e2 Hk) as [[_ Hk']|[<- ->]]; [by eapply (i_cur _ _ _ _ _ I)|].
    rewrite (ad_id _ _ A). by eapply (i_cur _ _ _ _ _ I).
Qed.

(** A transaction enters the ledger. *)
Lemma kept_snoc N tr g g' s id e :
  inv db N tr g s -> cur g id = None -> e_id e = id -> (forall x, contrib e x = None) ->
  elog g' = elog g ++ [e] -> reads g' = reads g -> num g' = num g -> own g' = own g -> mid g' = mid g ->
  (forall id', id' <> id -> cur g' id' = cur g id') -> (cur g' id = None \/ cur g' id = Some (length (elog g))) ->
  (forall i e1 x, elog g !! i = Some e1 -> x ∈ e_todo e1 -> e_writes e x = None) ->
  ledger_entry_ok db g' (length (elog g)) e -> kept id g g' (vals s) (vals s).
Proof.
  intros I Hc He Hn HE HR Enum Eown Emid Hcur Hcid Hlast Hent.
  assert (forall j e2, elog g' !! j = Some e2 -> elog g !! j = Some e2 \/ j = length (elog g) /\ e2 = e) as L.
  { intros j e2. rewrite HE. intros [?|[Hl [Hj <-]%list_lookup_singleton_Some]]%lookup_app_Some; [by left|right].
    split; [lia|done]. }
  assert (forall j e2, elog g !! j = Some e2 -> take j (elog g') = take j (elog g)) as T.
  { intros j e2 Hj. rewrite HE. apply take_app_le. apply lookup_lt_Some in Hj. lia. }
  constructor.
  - constructor; [by rewrite Eown|by rewrite Emid|]. intros id' Hne.
    constructor; rewrite ?Enum, ?HR, ?Emid, ?HE; try done; try by apply Hcur.
    + intros x n w. by rewrite inst_snoc.
    + intros j Hj. destruct (cur_entry _ _ _ _ _ _ I Hj) as (e1 & H1 & _). rewrite lookup_app_l; [done|].
      by eapply lookup_lt_Some.
    + intros j x w Hj. by rewrite take_app_le by lia.
    + intros j x Hj. by rewrite take_app_le by lia.
  - intros j e2 Hj. destruct (L j e2 Hj) as [Hj'|[-> ->]]; [|done].
    destruct (i_ent _ _ _ _ _ I j e2 Hj') as (H1 & H2 & H3 & H4). split_and!; [|by rewrite Eown|done|].
    + intros H. specialize (H1 H). rewrite Hcur; [done|]. congruence.
    + intros r Hr. rewrite (T j e2 Hj'). by apply H4.
  - intros j k e1 e2 x Hj Hx Hjk Hk Hd. destruct (L j e1 Hj) as [Hj'|[-> ->]].
    + destruct (L k e2 Hk) as [Hk'|[-> ->]]; [by apply (i_last _ _ _ _ _ I j k e1 e2)|by eapply Hlast].
    + apply lookup_lt_Some in Hk. rewrite HE, length_app in Hk. cbn in Hk. lia.
  - intros id' j k e2 Hj Hjk Hk. destruct (decide (id' = id)) as [->|Hne].
    + destruct Hcid as [?|Hl]; [congruence|]. assert (j = length (elog g)) as -> by congruence.
      apply lookup_lt_Some in Hk. rewrite HE, length_app in Hk. cbn in Hk. lia.
    + rewrite Hcur in Hj by done. destruct (L k e2 Hk) as [Hk'|[_ ->]]; [by eapply (i_cur _ _ _ _ _ I)|congruence].
Qed.

(** The ledger stays; the boxes change hands, or the current transaction is over. *)
Lemma kept_same N tr g g' s mem' id :
  inv db N tr g s -> elog g' = elog g -> reads g' = reads g -> num g' = num g ->
  (forall id', id' <> id -> cur g' id' = cur g id') -> (cur g' id = cur g id \/ cur g' id = None) ->
  (forall x, mid g x <> None -> mid g' x <> None) ->
  boxes_ok id g g' (vals s) mem' ->
  (forall j e x, elog g !! j = Some e -> e_id e = id -> x ∈ e_todo e -> own g' x = Some id) ->
  (cur g' id = cur g id \/ forall j e, elog g !! j = Some e -> e_id e = id -> e_status e <> Pending /\ e_todo e = []) ->
  kept id g g' (vals s) mem'.
Proof.
  intros I HE HR Enum Hcur Hcid Hmid B Hown Hdone.
  constructor.
  - constructor; [apply B..|]. intros id' Hne.
    constructor; rewrite ?Enum, ?HR, ?HE; try done; try by apply Hcur.
    + intros x n w Hn [?|[?|?]]; auto.
    + intros x. by apply (bo_mem _ _ _ _ _ B).
  - rewrite HE. intros j e Hj. destruct (i_ent _ _ _ _ _ I j e Hj) as (H1 & H2 & H3 & H4). unfold ledger_entry_ok.
    rewrite HE. split_and!; [..|done|done].
    + destruct (decide (e_id e = id)) as [E|]; [|by rewrite Hcur]. rewrite E in H1 |- *.
      destruct Hdone as [->|Hd]; [done|]. destruct (Hd j e Hj E) as [? ?]. intros [?|?]; done.
    + intros x Hx. destruct (H2 x Hx) as [Ho Hw]. split; [|done]. destruct (decide (e_id e = id)) as [E|].
      * rewrite E. by eapply Hown.
      * by apply (bo_own _ _ _ _ _ B).
  - rewrite HE. apply I.
  - rewrite HE. intros id' j k e Hj. apply (i_cur _ _ _ _ _ I). destruct (decide (id' = id)) as [->|].
    + destruct Hcid; congruence.
    + by rewrite <-Hcur.
Qed.
End ledger.
