(* ===== verification/StoCommit.v ===== *)
(** The steps of [try_commit] and [stop] of [Sto] preserve the invariant of
    [StoInv]. *)

From stdpp Require Import functions.
From S2P Require Import Prelude Tid Sto StoLog StoInv StoSteps StoBody.

#[local] Set Default Proof Using "Type".

Lemma settle_app id st L1 L2 : settle id st (L1 ++ L2) = settle id st L1 ++ settle id st L2.
Proof. apply fmap_app. Qed.

Lemma settle_one id st p : settle id st [(id, p, Pending)] = [(id, p, st)].
Proof. unfold settle. cbn. by rewrite Z.eqb_refl. Qed.

(** The write set of a transaction and its boxes. *)
Lemma writeset_from_elem k l j :
  j ∈ writeset_from k l <-> (k <= j)%nat /\ exists it, l !! (j - k)%nat = Some it /\ has_write it = true.
Proof.
  revert k. induction l as [|a l IH]; intros k; cbn.
  { split; [by intros ?%elem_of_nil|]. intros (_ & it & H & _). by rewrite lookup_nil in H. }
  assert (j ∈ writeset_from (S k) l <-> (S k <= j)%nat /\ exists it, l !! (j - S k)%nat = Some it /\ has_write it = true)
    as IH' by apply IH.
  destruct (decide (j = k)) as [->|Hne].
  - rewrite Nat.sub_diag. cbn. destruct (has_write a) eqn:Ha.
    + split; [|intros _; apply list_elem_of_here]. split; [lia|eauto].
    + rewrite IH'. split; [lia|]. intros (_ & it & [= ->] & H). congruence.
  - transitivity (j ∈ writeset_from (S k) l).
    { destruct (has_write a); [|done]. rewrite elem_of_cons. tauto. }
    rewrite IH'. split.
    + intros (Hle & it & H & Hw). split; [lia|]. exists it. by replace (j - k)%nat with (S (j - S k)) by lia.
    + intros (Hle & it & H & Hw). split; [lia|]. exists it. by replace (j - k)%nat with (S (j - S k)) in H by lia.
Qed.

Lemma writeset_elem t j : j ∈ writeset t <-> exists it, tset t !! j = Some it /\ has_write it = true.
Proof.
  unfold writeset. rewrite writeset_from_elem, Nat.sub_0_r. split; [by intros [_ ?]|]. intros H. split; [lia|done].
Qed.

Lemma writeset_from_NoDup k l : NoDup (writeset_from k l).
Proof.
  revert k. induction l as [|a l IH]; intros k; cbn; [by apply NoDup_nil|].
  destruct (has_write a); [|done]. apply NoDup_cons. split; [|done]. rewrite writeset_from_elem. lia.
Qed.

Lemma boxes_at_elem t ws x :
  x ∈ boxes_at t ws <-> exists j it, j ∈ ws /\ tset (txn t) !! j = Some it /\ it_box it = x.
Proof.
  unfold boxes_at. rewrite list_elem_of_omap. split.
  - intros (j & Hj & E). destruct (tset (txn t) !! j) as [it|] eqn:Hi; [|done]. cbn in E. injection E as <-. eauto.
  - intros (j & it & Hj & Hi & <-). exists j. split; [done|]. by rewrite Hi.
Qed.

Lemma written_boxes t : NoDup (it_box <$> tset (txn t)) ->
  forall x, written (tset (txn t)) x <> None <-> x ∈ boxes_at t (writeset (txn t)).
Proof.
  intros Hd x. rewrite boxes_at_elem. split.
  - destruct (written _ x) eqn:E; [|done]. intros _. destruct (written_elem _ _ _ E) as (j & it & Hj & Hx & Hw & _).
    exists j, it. split_and!; [|done..]. apply writeset_elem. eauto.
  - intros (j & it & (it2 & Hj2 & Hw)%writeset_elem & Hj & <-). rewrite (written_item _ j it) by done.
    assert (it2 = it) as -> by congruence. by rewrite Hw.
Qed.

(** A thread between the start of its transaction and [stop]. *)
Definition running (t : thread) : Prop := match th_pc t with Idle | Stop _ _ => False | _ => True end.

Lemma held_running t x : running t ->
  x ∈ held t <-> exists i it, tset (txn t) !! i = Some it /\ it_box it = x /\ needs_unlock it = true.
Proof. intros R. rewrite <-elem_locked_boxes. unfold held, running in *. by destruct (th_pc t). Qed.

Lemma held_same t t' x : tset (txn t') = tset (txn t) -> running t -> running t' -> x ∈ held t' <-> x ∈ held t.
Proof. intros E R R'. rewrite !held_running by done. by rewrite E. Qed.

Lemma held_stop t t' c x :
  tset (txn t') = tset (txn t) -> running t -> th_pc t' = Stop c (length (tset (txn t))) -> x ∈ held t' <-> x ∈ held t.
Proof.
  intros E R E'. rewrite (held_running t), <-elem_locked_boxes by done. unfold held, locked_boxes. rewrite E', E, take_ge by lia. done.
Qed.

Lemma held_update t t' i it it' x :
  running t -> running t' -> NoDup (it_box <$> tset (txn t)) -> tset (txn t) !! i = Some it ->
  tset (txn t') = <[i := it']> (tset (txn t)) -> it_box it' = it_box it ->
  x ∈ held t' <-> if decide (x = it_box it) then needs_unlock it' = true else x ∈ held t.
Proof.
  intros R R' Hd Hi E Hb. rewrite (held_running t'), E by done.
  assert (forall j it2, tset (txn t) !! j = Some it2 -> it_box it2 = it_box it -> j = i) as U.
  { intros j it2 Hj Hb2. eapply (NoDup_lookup (it_box <$> tset (txn t)) _ _ (it_box it)); [done|..];
      rewrite list_lookup_fmap; [rewrite Hj; cbn; by f_equal|by rewrite Hi]. }
  case_decide as Hx; split.
  - intros (j & it2 & [[Hij Hj]|[-> ->]]%update_lookup & Hb2 & Hn); [|done]. destruct Hij. symmetry. eapply U; [done|congruence].
  - intros Hn. exists i, it'. rewrite list_lookup_insert_eq by (by eapply lookup_lt_Some). split_and!; [done|congruence|done].
  - intros (j & it2 & [[Hij Hj]|[-> ->]]%update_lookup & Hb2 & Hn); [|congruence]. apply held_running; eauto.
  - intros (j & it2 & Hj & Hb2 & Hn)%held_running; [|done]. exists j, it2. rewrite list_lookup_insert_ne; [done|]. intros ->. congruence.
Qed.

Section commit.
Variable db : Z -> Z.

Implicit Types (g : ghost) (s : sys) (t : thread).

Lemma inv_kept N tr g g' s s' id t' ev :
  inv db N tr g s -> threads s' = <[id := t']> (threads s) ->
  (forall x, words s' x = word_of (num g' x) (own g' x)) -> (forall x, owner_ok (own g' x)) ->
  (forall x, num g' x = cnt (elog g') x /\ num g' x <= Z.of_nat (S N)) ->
  (forall x, own g' x = Some id <-> x ∈ held t') ->
  (forall x, mid g' x = Some id <-> installing t' = Some x) ->
  (forall x, mid g' x = None -> vals s' x = inst db (elog g') x) ->
  kept db id g g' (vals s) (vals s') ->
  uint 7 id -> base t' -> phase db g' (vals s') id t' ->
  erase <$> elog g' = foldl log_step (log tr) ev ->
  fin_ok id (elog g) (elog g') ev (from_option unfinished [] (threads s !! id)) t' ->
  inv db (S N) (tr ++ ev) g' s'.
Proof. intros. eapply inv_rebuild; try done; eapply k_others || eapply k_ent || eapply k_last || eapply k_cur; done. Qed.

Section step.
Context (N : nat) (tr : list event) (g : ghost) (s : sys) (id : Z) (t : thread).
Hypothesis I : inv db N tr g s.
Hypothesis Ht : threads s !! id = Some t.

Abbreviation result ev t' := (exists g', inv db (S N) (tr ++ ev) g' (s <| threads := <[id := t']> (threads s) |>)).

(** A transaction without reads and writes commits at once. *)
Lemma inv_done_empty r : th_pc t = Body (Done r) ->
  any_writes (txn t) = false -> any_nonopaque (txn t) = false ->
  result [Serialized id (th_prog t); Decided id r]
         (goto (Stop true (length (tset (txn t)))) (t <| th_result := r |>)).
Proof using I Ht.
  intros Hpc Ha Ho. destruct (i_thr _ _ _ _ _ I id t Ht) as (Hid & Hb & Hp).
  unfold phase in Hp. rewrite Hpc in Hp. destruct Hp as (Hc & (H1 & H2 & H3 & H4) & Hf & Htr).
  assert (reads g id = []) as Hr.
  { destruct (reads g id) as [|[[x n] v] l]; [done|]. apply Forall_cons in H4 as [((i & it & Hi & _ & Hr & _) & _) _].
    destruct (H3 i it Hi) as [_ H]. rewrite (H Hr) in Ho. done. }
  assert (forall x, written (tset (txn t)) x = None) as Hw.
  { intros x. destruct (written (tset (txn t)) x) as [v|] eqn:E; [|done].
    destruct (written_elem _ _ _ E) as (i & it & Hi & _ & Hw & _). destruct (H3 i it Hi) as [H _].
    rewrite (H Hw) in Ha. done. }
  set (e := {| e_id := id; e_prog := th_prog t; e_reads := []; e_writes := fun _ => None; e_todo := [];
               e_status := Committed r |}).
  exists (g <| elog := elog g ++ [e] |>).
  assert (forall x, contrib e x = None) as He by (intros x; unfold contrib; cbn; by case_decide).
  eapply inv_kept; try done; try apply I; cbn.
  - intros x. rewrite cnt_snoc by done. destruct (i_num _ _ _ _ _ I x). split; [done|lia].
  - intros x. rewrite (inv_own _ _ _ _ _ _ _ _ I Ht), !held_free; [done|exact Hf..].
  - intros x. rewrite (inv_mid _ _ _ _ _ _ _ _ I Ht). unfold installing. by rewrite Hpc.
  - intros x. rewrite inst_snoc by done. apply I.
  - apply (kept_snoc db N tr _ _ _ id e); try done; [by left|].
    split_and!; try done.
    + by intros [?|?].
    + intros x. by intros ?%elem_of_nil.
    + intros r' [= <-]. split; [|intros x n v; by intros ?%elem_of_nil]. intros d _.
      destruct (Htr d) as [E1 E2]; [rewrite Hr; intros x n v; by intros ?%elem_of_nil|]. split; [exact E1|].
      intros x. cbn [e_prog e_writes e]. rewrite E2. cbn. unfold overlay. by rewrite Hw.
  - rewrite fmap_app, (i_log _ _ _ _ _ I), settle_app, settle_one. f_equal. symmetry. by eapply inv_settle_none.
  - rewrite Ht. cbn. split.
    + right. split_and!; [unfold unfinished; by rewrite Hpc|done|]. rewrite order_snoc, omap_app. cbn. unfold result_of at 2. cbn. by rewrite Z.eqb_refl.
    + intros id' Hne. split; [done|]. rewrite order_snoc, omap_app. cbn. unfold result_of at 2. cbn.
      destruct (Z.eqb_spec id id'); [congruence|]. by rewrite app_nil_r.
Qed.
(** Otherwise the locking starts. *)
Lemma inv_done r : th_pc t = Body (Done r) ->
  result [] (goto (Phase1 0) (t <| th_result := r |> <| txn := (txn t) <| tstate := s_committing |> |>)).
Proof using I Ht.
  intros Hpc. exists g. destruct (i_thr _ _ _ _ _ I id t Ht) as (Hid & Hb & Hp).
  unfold phase in Hp. rewrite Hpc in Hp. destruct Hp as (Hc & Ho & Hf & Htr).
  assert (running t) as R by (unfold running; by rewrite Hpc).
  eapply (inv_keep _ _ _ _ _ _ _ t); try done; [by left|..].
  - intros x. by apply held_same.
  - unfold installing. by rewrite Hpc.
  - unfold unfinished. by rewrite Hpc.
  - split_and!; [done|by apply (open_same _ _ _ t)| |exact Htr].
    intros i it Hi. rewrite (Hf i it Hi), bool_decide_eq_false_2 by lia. by rewrite andb_false_r.
Qed.

(** With all locks taken, the boxes of the write set are owned, and none of them is
    left to a transaction in the ledger. *)
Lemma writes_owned x : running t -> flags (fun _ it => has_write it) t ->
  x ∈ boxes_at t (writeset (txn t)) -> own g x = Some id.
Proof using I Ht.
  intros R Hf (j & it & (it2 & Hj2 & Hw)%writeset_elem & Hj & <-)%boxes_at_elem.
  rewrite (inv_own _ _ _ _ _ _ _ _ I Ht), held_running by done.
  exists j, it. rewrite (Hf j it Hj). assert (it2 = it) as -> by congruence. done.
Qed.

Lemma owned_not_todo x j e : cur g id = None -> own g x = Some id -> elog g !! j = Some e -> x ∈ e_todo e -> False.
Proof using I.
  intros Hc Ho Hj Hx. destruct (i_ent _ _ _ _ _ I j e Hj) as (Hcj & Hto & _). destruct (Hto x Hx) as [Hox _].
  assert (e_id e = id) as E by congruence. rewrite E, Hc in Hcj.
  enough (None = Some j) by done. apply Hcj. right. intros E2. rewrite E2 in Hx. by apply elem_of_nil in Hx.
Qed.

(** The transaction holds all its locks: it takes its place in the ledger. *)
Lemma inv_serialize i : th_pc t = Phase1 i -> tset (txn t) !! i = None ->
  result [Serialized id (th_prog t)] (goto (Check 0) t).
Proof using I Ht.
  intros Hpc Hi. destruct (i_thr _ _ _ _ _ I id t Ht) as (Hid & Hb & Hp).
  unfold phase in Hp. rewrite Hpc in Hp. destruct Hp as (Hc & Ho & Hf & Htr).
  assert (running t) as R by (unfold running; by rewrite Hpc).
  apply lookup_ge_None in Hi.
  assert (flags (fun _ it => has_write it) t) as Hf'.
  { intros j it Hj. rewrite (Hf j it Hj), bool_decide_eq_true_2; [by rewrite andb_true_r|].
    apply lookup_lt_Some in Hj. lia. }
  pose proof (written_boxes t (proj1 Hb)) as Hwb.
  assert (forall x, x ∈ boxes_at t (writeset (txn t)) -> own g x = Some id) as Hown by (intros x; by apply writes_owned).
  set (e := {| e_id := id; e_prog := th_prog t; e_reads := reads g id; e_writes := written (tset (txn t));
               e_todo := boxes_at t (writeset (txn t)); e_status := Pending |}).
  set (g' := g <| elog := elog g ++ [e] |> <| cur := <[id := Some (length (elog g))]> (cur g) |>). exists g'.
  assert (forall x, contrib e x = None) as He by done.
  assert (cur g' id = Some (length (elog g))) as Hcur by (cbn; by rewrite fn_lookup_insert).
  assert (elog g' !! length (elog g) = Some e) as Hel by (cbn; by rewrite lookup_app_r, Nat.sub_diag).
  eapply inv_kept; try done; try apply I.
  - intros x. cbn. rewrite cnt_snoc by done. destruct (i_num _ _ _ _ _ I x). split; [done|lia].
  - intros x. cbn. rewrite (inv_own _ _ _ _ _ _ _ _ I Ht). symmetry. by apply held_same.
  - intros x. cbn. rewrite (inv_mid _ _ _ _ _ _ _ _ I Ht). unfold installing. by rewrite Hpc.
  - intros x. cbn. rewrite inst_snoc by done. apply I.
  - apply (kept_snoc db N tr g g' s id e); try done.
    + intros id' Hne. cbn. by rewrite fn_lookup_insert_ne.
    + by right.
    + intros j e1 x Hj Hx. destruct (e_writes e x) eqn:E; [exfalso|done].
      eapply (owned_not_todo x); [done| |done..]. apply Hown, Hwb. unfold e in E. cbn in E. by rewrite E.
    + split_and!; try done.
      * intros x Hx. cbn. split_and!; [by apply Hown|by apply Hwb|done].
      * intros _ x. apply Hwb.
  - change (checking db g' id (goto (Check 0) t) 0). split_and!.
    + apply (open_reads _ g); [done| |by apply (open_same _ _ _ t)]. cbn. destruct Ho as (_ & _ & _ & Hrd).
      eapply Forall_impl; [exact Hrd|]. intros [[x n] v]. cbn. rewrite inst_snoc by done. done.
    + done.
    + by exists (length (elog g)), e.
    + exact Htr.
    + intros x n v idx j it _ _ _ _ Hlt. lia.
    + intros x n v idx Hx. rewrite Hcur. intros [= <-]. cbn. rewrite take_app_length.
      rewrite <-(proj1 (i_num _ _ _ _ _ I x)). destruct Ho as (_ & _ & _ & Hrd). rewrite Forall_forall in Hrd.
      by destruct (Hrd _ Hx) as (_ & ? & _).
  - cbn. by rewrite fmap_app, (i_log _ _ _ _ _ I).
  - rewrite Ht. split.
    + left. split; [cbn; unfold unfinished; by rewrite Hpc|]. cbn. by rewrite order_snoc, app_nil_r.
    + intros id' _. split; [done|]. cbn. by rewrite order_snoc, app_nil_r.
Qed.
(** Giving up before the transaction is in the ledger. *)
Lemma inv_abort_open : running t -> installing t = None -> unfinished t = [] -> cur g id = None ->
  result (abort id t).2 (abort id t).1.
Proof using I Ht.
  intros R Hin Hun Hc. exists g. unfold abort. cbn [fst snd].
  eapply (inv_keep _ _ _ _ _ _ _ t); try done.
  - right. split; [done|by right].
  - intros x. by eapply held_stop.
  - apply (i_thr _ _ _ _ _ I id t Ht).
Qed.

(** The first loop, up to a lock. *)
Lemma inv_phase1 i : th_pc t = Phase1 i -> result (step_phase1 id i t).2 (step_phase1 id i t).1.
Proof using I Ht.
  intros Hpc. unfold step_phase1. destruct (tset (txn t) !! i) as [it|] eqn:Hi; [|by eapply inv_serialize].
  exists g. destruct (i_thr _ _ _ _ _ I id t Ht) as (Hid & Hb & Hp).
  unfold phase in Hp. rewrite Hpc in Hp. destruct Hp as (Hc & Ho & Hf & Htr).
  assert (running t) as R by (unfold running; by rewrite Hpc).
  assert (installing t = None) as Hin by (unfold installing; by rewrite Hpc).
  assert (unfinished t = []) as Hun by (unfold unfinished; by rewrite Hpc).
  rewrite (Hf i it Hi), bool_decide_eq_false_2, andb_false_r by lia.
  destruct (has_write it) eqn:Hw; cbn [negb fst snd]; eapply (inv_keep _ _ _ _ _ _ _ t); try done; try by left.
  - intros x. by apply held_same.
  - split; [|by exists it]. split_and!; [done|by apply (open_same _ _ _ t)|exact Hf|exact Htr].
  - intros x. by apply held_same.
  - split_and!; [done|by apply (open_same _ _ _ t)| |exact Htr]. intros j it2 Hj. rewrite (Hf j it2 Hj).
    destruct (decide (j = i)) as [->|].
    + assert (it2 = it) as -> by (cbn in Hj; congruence). by rewrite Hw.
    + f_equal. apply bool_decide_ext. lia.
Qed.

(** The load of [try_lock]. *)
Lemma inv_lock_load i n it : th_pc t = LockLoad i n -> tset (txn t) !! i = Some it ->
  result [] (goto (LockCas i n (words s (it_box it))) t).
Proof using I Ht.
  intros Hpc Hi. exists g. destruct (i_thr _ _ _ _ _ I id t Ht) as (Hid & Hb & Hp).
  unfold phase in Hp. rewrite Hpc in Hp. destruct Hp as (Hl & Hw).
  eapply (inv_keep _ _ _ _ _ _ _ t); try done; [by left|..].
  - intros x. apply held_same; try done. unfold running. by rewrite Hpc.
  - unfold installing. by rewrite Hpc.
  - unfold unfinished. by rewrite Hpc.
  - split_and!; [exact Hl|exact Hw|]. exists (num g (it_box it)), (own g (it_box it)).
    split; apply I.
Qed.

(** The compare-and-exchange of [try_lock] fails. *)
Lemma inv_lock_fail i n vv : th_pc t = LockCas i n vv -> result [] (goto (LockLoad i (n + 1)) t).
Proof using I Ht.
  intros Hpc. exists g. destruct (i_thr _ _ _ _ _ I id t Ht) as (Hid & Hb & Hp).
  unfold phase in Hp. rewrite Hpc in Hp. destruct Hp as (Hl & Hw & _).
  eapply (inv_keep _ _ _ _ _ _ _ t); try done; [by left|..].
  - intros x. apply held_same; try done. unfold running. by rewrite Hpc.
  - unfold installing. by rewrite Hpc.
  - unfold unfinished. by rewrite Hpc.
Qed.

(** It takes the lock. *)
Lemma inv_lock_success i n vv it (it' := it <| needs_unlock := true |> <| locked_at_commit := true |>) :
  th_pc t = LockCas i n vv -> tset (txn t) !! i = Some it -> own g (it_box it) = None ->
  exists g', inv db (S N) (tr ++ []) g'
    (s <| words := <[it_box it := word_of (num g (it_box it)) (Some id)]> (words s) |>
       <| threads := <[id := goto (Phase1 (S i)) (t <| txn := set_item i it' (txn t) |>)]> (threads s) |>).
Proof using I Ht.
  intros Hpc Hi Hfree. destruct (i_thr _ _ _ _ _ I id t Ht) as (Hid & Hb & Hp).
  unfold phase in Hp. rewrite Hpc in Hp. destruct Hp as ((Hc & Ho & Hf & Htr) & (it2 & Hi2 & Hw) & _).
  assert (it2 = it) as -> by congruence. clear Hi2. set (x0 := it_box it) in *.
  assert (running t) as R by (unfold running; by rewrite Hpc).
  set (t' := goto _ _). set (g' := g <| own := <[x0 := Some id]> (own g) |>). exists g'.
  assert (better (txn t) (txn t') i it it') as B.
  { destruct Ho as (_ & _ & H3 & _). destruct (H3 i it Hi). constructor; try done; cbn; intuition. }
  assert (forall x, own g' x = if decide (x = x0) then Some id else own g x) as Eo.
  { intros x. cbn. case_decide; [subst; by rewrite fn_lookup_insert|by rewrite fn_lookup_insert_ne]. }
  eapply inv_kept; try done.
  - intros x. rewrite Eo. cbn. case_decide; [subst; by rewrite fn_lookup_insert|]. rewrite fn_lookup_insert_ne by done. apply I.
  - intros x. rewrite Eo. case_decide; [done|apply I].
  - intros x. destruct (i_num _ _ _ _ _ I x). split; [done|]. cbn. lia.
  - intros x. rewrite Eo, (held_update t t' i it it') by (done || apply Hb). fold x0.
    case_decide; [done|]. by apply (inv_own _ _ _ _ _ _ _ _ I Ht).
  - intros x. cbn. rewrite (inv_mid _ _ _ _ _ _ _ _ I Ht). unfold installing. by rewrite Hpc.
  - apply I.
  - apply (kept_same db N tr g g' s); try done; [by left|..|by left].
    + constructor; try done. intros x id' Hne. rewrite Eo. case_decide; [|done]. subst. split; congruence.
    + intros j e x Hj He Hx. destruct (i_ent _ _ _ _ _ I j e Hj) as (_ & H2 & _). destruct (H2 x Hx) as [Hox _].
      rewrite Eo. case_decide; congruence.
  - split; [eapply better_base; [exact B|apply Hb]|apply Hb].
  - change (locking db g' id t' (S i)). split_and!; [done|..].
    + eapply (open_reads _ g); [done| |].
      * assert (open_txn db g id t') as Ho'; [|apply Ho'].
        eapply open_update; [exact B|by left|done|done].
      * eapply open_update; [exact B|by left|done|done].
    + intros j it2 [[Hij Hj]|[-> ->]]%update_lookup.
      * rewrite (Hf j it2 Hj). f_equal. apply bool_decide_ext. lia.
      * cbn. rewrite Hw, bool_decide_eq_true_2 by lia. done.
    + eapply tracks_ext; [|exact Htr]. intros y. eapply (better_written (txn t)); [exact B|apply Hb|done..].
  - cbn. apply (i_log _ _ _ _ _ I).
  - rewrite Ht. split; [left|done]. split; [|done]. cbn. unfold unfinished. by rewrite Hpc.
Qed.
End step.
End commit.
