(* ===== verification/StoCheck.v ===== *)
(** The checks of [try_commit] of [Sto] and their outcome preserve the invariant
    of [StoInv]: the transaction commits, or it is dropped from the ledger. *)

From stdpp Require Import functions.
From S2P Require Import Prelude Tid Sto StoLog StoInv StoSteps StoBody StoCommit.

#[local] Set Default Proof Using "Type".

(** * Results of a ledger *)

Definition results (id : Z) (E : list entry) : list Z := omap (result_of id) (omap committed_of (erase <$> E)).

Lemma results_app id E1 E2 : results id (E1 ++ E2) = results id E1 ++ results id E2.
Proof. unfold results. by rewrite fmap_app, !omap_app. Qed.

Lemma results_cons id e E : results id (e :: E) = results id [e] ++ results id E.
Proof. apply (results_app id [e]). Qed.

Lemma results_insert id E i e e' :
  E !! i = Some e -> results id [e'] = results id [e] -> results id (<[i := e']> E) = results id E.
Proof.
  intros Hi H. rewrite (insert_split _ _ _ _ Hi). rewrite (split_at _ _ _ Hi) at 3.
  rewrite !results_app, (results_cons _ e (drop _ _)), (results_cons _ e' (drop _ _)). by rewrite H.
Qed.

Lemma results_none id E : Forall (fun e => e_id e <> id) E -> results id E = [].
Proof.
  induction 1 as [|e E He _ IH]; [done|]. rewrite results_cons, IH, app_nil_r. unfold results. cbn.
  unfold erase. destruct (e_status e); cbn; try done. unfold result_of. cbn. by destruct (Z.eqb_spec (e_id e) id).
Qed.

(** The last transaction of a thread commits. *)
Lemma results_commit id E i e e' r :
  E !! i = Some e -> (forall j e2, (i < j)%nat -> E !! j = Some e2 -> e_id e2 <> id) ->
  results id [e] = [] -> results id [e'] = [r] -> results id (<[i := e']> E) = results id E ++ [r].
Proof.
  intros Hi Hl H H'. rewrite (insert_split _ _ _ _ Hi). rewrite (split_at _ _ _ Hi) at 3.
  rewrite !results_app, (results_cons _ e (drop _ _)), (results_cons _ e' (drop _ _)), H, H'.
  rewrite (results_none id (drop (S i) E)), !app_nil_r; [done|]. apply Forall_lookup. intros j e2.
  rewrite lookup_drop. apply Hl. lia.
Qed.

Lemma result_one id e :
  results id [e] = match e_status e with Committed r => if e_id e =? id then [r] else [] | _ => [] end.
Proof.
  unfold results. cbn. unfold erase. destruct (e_status e); cbn; try done. unfold result_of. cbn.
  by destruct (e_id e =? id).
Qed.

Section check.
Variable db : Z -> Z.

Implicit Types (g : ghost) (s : sys) (t : thread).

(** The item behind a recorded read. *)
Lemma read_item g id t x n v j it :
  open_txn db g id t -> base t -> (x, n, v) ∈ reads g id -> tset (txn t) !! j = Some it -> it_box it = x ->
  has_read it = true /\ rdata it = word_of n None.
Proof.
  intros (_ & _ & _ & H) [Hd _] Hx Hj Hb. rewrite Forall_forall in H.
  destruct (H _ Hx) as ((k & it2 & Hk & Hb2 & Hr & Hv) & _).
  assert (k = j) as ->; [|by assert (it2 = it) as -> by congruence].
  eapply (NoDup_lookup (it_box <$> tset (txn t)) _ _ x); [done|..]; rewrite list_lookup_fmap.
  - rewrite Hk. cbn. by f_equal.
  - rewrite Hj. cbn. by f_equal.
Qed.

(** Only the thread that has locked a box stores into it. *)
Lemma mid_own N tr g s x id : inv db N tr g s -> mid g x = Some id -> own g x = Some id.
Proof.
  intros I Hm. apply (i_mid _ _ _ _ _ I) in Hm as (t & Ht & Hi). destruct (i_thr _ _ _ _ _ I id t Ht) as (_ & _ & Hp).
  rewrite (inv_own _ _ _ _ _ _ _ _ I Ht). unfold installing in Hi. unfold phase in Hp.
  destruct (th_pc t) eqn:Hpc; try done. destruct Hp as (_ & Hf & _).
  destruct (tset (txn t) !! j) as [it|] eqn:Hj; [|done]. injection Hi as <-.
  apply held_running; [unfold running; by rewrite Hpc|]. exists j, it. split_and!; [done..|].
  rewrite (Hf j it Hj). apply bool_decide_eq_true_2. apply list_elem_of_here.
Qed.

(** A box that is free, or locked by the transaction itself, holds what the
    transactions before it in the ledger left there. *)
Lemma check_settled N tr g s id t i it n v idx :
  inv db N tr g s -> threads s !! id = Some t -> installing t = None -> checking db g id t i ->
  own g (it_box it) = None \/ own g (it_box it) = Some id ->
  (it_box it, n, v) ∈ reads g id -> cur g id = Some idx ->
  n < num g (it_box it) \/ good db (take idx (elog g)) (it_box it) v.
Proof.
  intros I Ht Hin (Ho & Hf & Hl & Htr & Hck & Hbe) Hown Hx Hc. set (x := it_box it) in *.
  destruct Ho as (_ & _ & _ & Hrd). rewrite Forall_forall in Hrd. destruct (Hrd _ Hx) as (_ & Hn & Hv).
  destruct Hv as [?|Hv]; [by left|]. destruct (decide (n < num g x)) as [?|Hnn]; [by left|right].
  destruct Hv as [Hm|Hv].
  { exfalso. destruct (mid g x) as [id'|] eqn:E; [|done]. pose proof (mid_own _ _ _ _ _ _ I E) as Eo.
    destruct Hown as [?|Eo']; [congruence|]. assert (id' = id) as -> by congruence.
    apply (inv_mid _ _ _ _ _ _ _ _ I Ht) in E. congruence. }
  split.
  - apply Forall_lookup. intros k e [Hk Hlt]%lookup_take_Some Hd Hw.
    destruct (i_ent _ _ _ _ _ I k e Hk) as (H1 & H2 & H3 & _).
    assert (x ∉ e_todo e) as Hnt.
    { intros Hxt. destruct (H2 x Hxt) as [Ex _]. assert (e_id e = id) as Ei by (destruct Hown; congruence).
      rewrite Ei, Hc in H1. enough (Some idx = Some k) by (simplify_eq; lia). apply H1. right.
      intros E. rewrite E in Hxt. by apply elem_of_nil in Hxt. }
    unfold contrib. destruct (e_status e) eqn:Es; try done.
    + by destruct (Hnt (H3 eq_refl x Hw)).
    + rewrite decide_False by done. by destruct (e_writes e x).
  - rewrite inst_prefix; [done|]. rewrite <-(proj1 (i_num _ _ _ _ _ I x)).
    pose proof (Hbe x n v idx Hx Hc). lia.
Qed.
Section step.
Context (N : nat) (tr : list event) (g : ghost) (s : sys) (id : Z) (t : thread).
Hypothesis I : inv db N tr g s.
Hypothesis Ht : threads s !! id = Some t.

Abbreviation result ev t' := (exists g', inv db (S N) (tr ++ ev) g' (s <| threads := <[id := t']> (threads s) |>)).

Lemma pending_unique i : cur g id = Some i ->
  forall j e, elog g !! j = Some e -> e_status e = Pending -> e_id e = id -> j = i.
Proof using I.
  intros Hc j e Hj Hp He. destruct (i_ent _ _ _ _ _ I j e Hj) as (H & _). rewrite He, Hc in H.
  specialize (H (or_introl Hp)). congruence.
Qed.

(** The settling of the current transaction; what it wrote stays invisible. *)
Lemma inv_settle i idx e e' st t' c ev :
  checking db g id t i -> running t -> installing t = None -> unfinished t = [] ->
  cur g id = Some idx -> elog g !! idx = Some e -> e_status e = Pending ->
  e' = e <| e_status := st |> <| e_todo := e_todo e' |> -> (forall x, contrib e' x = None) ->
  (forall x, x ∈ e_todo e' -> x ∈ e_todo e) -> st <> Pending -> c = None \/ c = Some idx ->
  foldl log_step (log tr) ev = settle id st (log tr) -> (forall id', omap (finished_of id') ev = []) ->
  unfinished t' = match st with Committed r => [r] | _ => [] end ->
  installing t' = None -> (forall x, x ∈ held t' <-> x ∈ held t) -> base t' ->
  let g' := g <| elog := <[idx := e']> (elog g) |> <| cur := <[id := c]> (cur g) |> in
  ledger_entry_ok db g' idx e' -> phase db g' (vals s) id t' ->
  inv db (S N) (tr ++ ev) g' (s <| threads := <[id := t']> (threads s) |>).
Proof using I Ht.
  intros Hch R Hin Hun Hc He Hp Ee Hcon Htodo Hst Hcc Hlog Hfin Hun' Hin' Hh Hb g' Hent Hph.
  destruct Hch as (_ & _ & (k & e1 & Hk & He1 & Hid1 & _) & _).
  assert (k = idx) as -> by congruence. assert (e1 = e) as -> by congruence.
  assert (e_status e' = st) as Es by by rewrite Ee.
  assert (e_id e' = id) as Ei by by rewrite Ee.
  assert (forall x, contrib e x = None) as Hce by (intros x; unfold contrib; by rewrite Hp).
  assert (forall id', id' <> id -> results id' [e'] = results id' [e]) as Hres.
  { intros id' Hne. rewrite !result_one, Ei, Hid1, Hp, Es. destruct (Z.eqb_spec id id'); [congruence|]. by destruct st. }
  eapply inv_kept; try done; try apply I.
  - intros x. cbn. rewrite (cnt_insert _ _ e), Hce, Hcon by done. destruct (i_num _ _ _ _ _ I x). split; lia.
  - intros x. cbn. by rewrite (inv_own _ _ _ _ _ _ _ _ I Ht), Hh.
  - intros x. cbn. by rewrite (inv_mid _ _ _ _ _ _ _ _ I Ht), Hin, Hin'.
  - intros x. cbn. rewrite (inst_insert_same _ _ _ e) by (done || by rewrite Hcon, Hce). apply I.
  - eapply (kept_insert db N tr g g' s _ id idx e e'); try done.
    + constructor; [congruence|by rewrite Ee|done|intros _; by rewrite Hp|]. intros x. left. by rewrite Hcon, Hce.
    + intros id' Hne. cbn. by rewrite fn_lookup_insert_ne.
    + cbn. rewrite fn_lookup_insert. destruct Hcc as [->| ->]; [by right|by left].
    + intros x. cbn. rewrite (cnt_insert _ _ e), Hce, Hcon by done. destruct (i_num _ _ _ _ _ I x). lia.
  - by apply (i_thr _ _ _ _ _ I id t).
  - cbn. rewrite Hlog, <-(i_log _ _ _ _ _ I). symmetry. eapply settle_insert; try done.
    + by apply pending_unique.
    + unfold erase. rewrite Ei, Es. f_equal. by rewrite Ee.
  - rewrite Ht. cbn [from_option]. unfold fin_ok. fold (results id (elog g)) (results id (elog g')). split.
    + rewrite Hfin, Hun, Hun'. destruct st as [|r|]; [done| |].
      * right. split_and!; [done..|]. apply (results_commit _ _ _ e); try done.
        -- intros j e2 Hj He2. by eapply (i_cur _ _ _ _ _ I).
        -- by rewrite result_one, Hp.
        -- by rewrite result_one, Es, Ei, Z.eqb_refl.
      * left. split; [done|]. apply (results_insert _ _ _ e); [done|]. by rewrite !result_one, Hp, Es.
    + intros id' Hne. split; [apply Hfin|]. apply (results_insert id' _ _ e); [done|]. by apply Hres.
Qed.

(** A check fails. *)
Lemma inv_drop i : checking db g id t i -> running t -> installing t = None -> unfinished t = [] ->
  result (abort id t).2 (abort id t).1.
Proof using I Ht.
  intros Hch R Hin Hun. pose proof Hch as (_ & _ & (idx & e & Hc & He & Hid & _ & _ & _ & _ & Hp) & _).
  set (e' := e <| e_status := Dropped |> <| e_todo := [] |>).
  eexists. unfold abort. cbn [fst snd]. eapply (inv_settle i idx e e' Dropped _ None); try done; try apply I.
  - intros x. by intros ?%elem_of_nil.
  - by left.
  - intros x. by eapply held_stop.
  - by apply (i_thr _ _ _ _ _ I id t).
  - split_and!; try done; [by intros [?|?]|]. intros x. by intros ?%elem_of_nil.
  - cbn. rewrite fn_lookup_insert. done.
Qed.

(** All checks pass. *)
Lemma inv_decide i : checking db g id t i -> running t -> installing t = None -> unfinished t = [] ->
  tset (txn t) !! i = None ->
  result [Decided id (th_result t)] (goto (InstallValue (writeset (txn t))) t).
Proof using I Ht.
  intros Hch R Hin Hun Hi.
  pose proof Hch as (Ho & Hf & (idx & e & Hc & He & Hid & Hpr & Hrd & Hw & Htd & Hp) & Htr & Hck & Hbe).
  destruct (i_ent _ _ _ _ _ I idx e He) as (H1 & H2 & H3 & _).
  set (e' := e <| e_status := Committed (th_result t) |>).
  assert (cur (g <| elog := <[idx := e']> (elog g) |> <| cur := <[id := Some idx]> (cur g) |>) id = Some idx) as Hc'
    by (cbn; by rewrite fn_lookup_insert).
  eexists. eapply (inv_settle i idx e e' (Committed (th_result t)) _ (Some idx)); try done; try apply I.
  - intros x. unfold contrib. cbn. case_decide as Hx; [done|]. destruct (e_writes e x) eqn:E; [|done].
    destruct Hx. apply H3; [done|]. by rewrite E.
  - by right.
  - intros x. by apply held_same.
  - by apply (i_thr _ _ _ _ _ I id t).
  - split_and!; try done.
    + intros _. change (e_id e') with (e_id e). by rewrite Hid.
    + intros x Hx. destruct (H2 x Hx) as (? & ? & _). done.
    + intros r [= <-]. split.
      * intros d Hd. change (e_prog e') with (e_prog e). change (e_writes e') with (e_writes e).
        change (e_reads e') with (e_reads e) in Hd. rewrite Hrd in Hd. rewrite Hpr.
        destruct (Htr d Hd) as [E1 E2]. split; [done|]. intros x. rewrite E2. cbn. unfold overlay. by rewrite Hw.
      * intros x n v. change (e_reads e') with (e_reads e). rewrite Hrd. intros Hx. cbn. rewrite take_insert_ge by lia.
        destruct Ho as (_ & _ & _ & Hok). rewrite Forall_forall in Hok. destruct (Hok _ Hx) as ((j & it & Hj & Hb & _) & _).
        apply (Hck x n v idx j it); try done. apply lookup_ge_None in Hi. apply lookup_lt_Some in Hj. lia.
  - split_and!.
    + exists idx, e'. split; [done|]. split; [|done]. cbn. apply list_lookup_insert_eq. by eapply lookup_lt_Some.
    + intros j it Hj. rewrite (Hf j it Hj). cbn in Hj. destruct (has_write it) eqn:E; symmetry.
      * apply bool_decide_eq_true_2, writeset_elem. eauto.
      * apply bool_decide_eq_false_2. intros (it2 & Hj2 & E2)%writeset_elem. congruence.
    + split; [apply writeset_from_NoDup|]. intros j Hj. by apply writeset_elem in Hj.
Qed.

Lemma inv_check i : th_pc t = Check i -> result (step_check id i t s).2 (step_check id i t s).1.
Proof using I Ht.
  intros Hpc. destruct (i_thr _ _ _ _ _ I id t Ht) as (Hid & Hb & Hch).
  unfold phase in Hch. rewrite Hpc in Hch.
  assert (running t) as R by (unfold running; by rewrite Hpc).
  assert (installing t = None) as Hin by (unfold installing; by rewrite Hpc).
  assert (unfinished t = []) as Hun by (unfold unfinished; by rewrite Hpc).
  unfold step_check. destruct (tset (txn t) !! i) as [it|] eqn:Hi; [|by eapply inv_decide].
  pose proof Hch as (Ho & Hf & Hl & Htr & Hck & Hbe).
  assert (locked_at_commit it || negb (needs_unlock it) = true) as ->.
  { destruct (needs_unlock it) eqn:E; [|by rewrite orb_true_r]. destruct Ho as (_ & H2 & _). by rewrite (H2 i it Hi E). }
  rewrite andb_true_r. destruct (has_read it) eqn:Hr.
  - destruct (TNonopaqueVersion.cp_check_locked _ _) eqn:Hlk; cbn [fst snd]; [|by eapply inv_drop].
    exists g. eapply (inv_keep _ _ _ _ _ _ _ t); try done; [by left|intros x; by apply held_same|].
    split; [exact Hch|]. exists it. split_and!; [done..|]. intros n v idx Hx Hc.
    eapply check_settled; try done. unfold TNonopaqueVersion.cp_check_locked in Hlk.
    rewrite (i_words _ _ _ _ _ I), is_locked_word in Hlk by apply I.
    destruct (own g (it_box it)) as [id'|] eqn:Eo; [right|by left]. cbn in Hlk.
    destruct (has_write it) eqn:Hw; [|done]. rewrite <-Eo, (inv_own _ _ _ _ _ _ _ _ I Ht), held_running by done.
    exists i, it. by rewrite (Hf i it Hi).
  - cbn [fst snd]. exists g. eapply (inv_keep _ _ _ _ _ _ _ t); try done; [by left|intros x; by apply held_same|].
    split_and!; [exact Ho|exact Hf|exact Hl|exact Htr| |exact Hbe].
    intros x n v idx j it2 Hx Hc Hj Hb2 Hlt. destruct (decide (j = i)) as [->|]; [|eapply Hck; try done; lia].
    assert (it2 = it) as -> by (cbn in Hj; congruence). destruct (read_item g id t x n v i it); try done. congruence.
Qed.

Lemma inv_check_version i : th_pc t = CheckVersion i ->
  forall t' ev, step_check_version id i t s = Some (t', ev) -> result ev t'.
Proof using I Ht.
  intros Hpc t' ev Hst. destruct (i_thr _ _ _ _ _ I id t Ht) as (Hid & Hb & Hp).
  unfold phase in Hp. rewrite Hpc in Hp. destruct Hp as (Hch & it & Hi & Hr & Hgood).
  assert (running t) as R by (unfold running; by rewrite Hpc).
  assert (installing t = None) as Hin by (unfold installing; by rewrite Hpc).
  assert (unfinished t = []) as Hun by (unfold unfinished; by rewrite Hpc).
  unfold step_check_version in Hst. rewrite Hi in Hst. cbn [mbind option_bind] in Hst.
  destruct (TNonopaqueVersion.cp_check_version _ _) eqn:Hcv.
  - injection Hst as <- <-. exists g. eapply (inv_keep _ _ _ _ _ _ _ t); try done; [by left|intros x; by apply held_same|].
    pose proof Hch as (Ho & Hf & Hl & Htr & Hck & Hbe).
    split_and!; [exact Ho|exact Hf|exact Hl|exact Htr| |exact Hbe].
    intros x n v idx j it2 Hx Hc Hj Hb2 Hlt. destruct (decide (j = i)) as [->|]; [|eapply Hck; try done; lia].
    assert (it2 = it) as -> by (cbn in Hj; congruence). destruct (read_item g id t x n v i it) as [_ Hrd]; try done.
    unfold TNonopaqueVersion.cp_check_version in Hcv. rewrite (i_words _ _ _ _ _ I), Hrd, check_version_word in Hcv
      by (done || apply I). apply Z.eqb_eq in Hcv. subst x. destruct (Hgood n v idx Hx Hc); [lia|done].
  - destruct (inv_drop i) as [g' H]; [done..|]. exists g'. unfold abort in *. by injection Hst as <- <-.
Qed.
End step.
End check.
