(* ===== verification/StoInstall.v ===== *)
(** The installing of a write set and [stop] of [Sto] preserve the invariant of
    [StoInv]. *)

From stdpp Require Import functions.
From S2P Require Import Prelude Tid Sto StoLog StoInv StoSteps StoBody StoCommit StoCheck.

#[local] Set Default Proof Using "Type".

Lemma fn_insert_spec {B} (f : Z -> B) x v y : <[x := v]> f y = if decide (y = x) then v else f y.
Proof. case_decide; [subst; apply fn_lookup_insert|by rewrite fn_lookup_insert_ne]. Qed.

(** A box has one item. *)
Lemma box_index l i j (it it2 : TransItem) :
  NoDup (it_box <$> l) -> l !! i = Some it -> l !! j = Some it2 -> it_box it2 = it_box it -> j = i.
Proof.
  intros Hd Hi Hj Hb. eapply (NoDup_lookup (it_box <$> l) _ _ (it_box it)); [done|..];
    rewrite list_lookup_fmap; [rewrite Hj; cbn; by f_equal|by rewrite Hi].
Qed.

(** The lock behind the last item of [stop]. *)
Lemma held_take t t' c c' i it x :
  NoDup (it_box <$> tset (txn t)) -> th_pc t = Stop c (S i) -> th_pc t' = Stop c' i -> tset (txn t') = tset (txn t) ->
  tset (txn t) !! i = Some it ->
  x ∈ held t' <-> if decide (x = it_box it) then False else x ∈ held t.
Proof.
  intros Hd Hpc Hpc' E Hi. unfold held. rewrite Hpc, Hpc', E. fold (locked_boxes (take i (tset (txn t)))).
  fold (locked_boxes (take (S i) (tset (txn t)))). rewrite !elem_locked_boxes. split.
  - intros (j & it2 & [Hj Hlt]%lookup_take_Some & Hb & Hn). case_decide as Hx.
    + assert (j = i) by (eapply box_index; [done|exact Hi|exact Hj|congruence]). lia.
    + apply elem_locked_boxes. exists j, it2. rewrite lookup_take_lt by lia. done.
  - case_decide as Hx; [done|]. intros (j & it2 & [Hj Hlt]%lookup_take_Some & Hb & Hn)%elem_locked_boxes.
    exists j, it2. rewrite lookup_take_lt; [done|]. destruct (decide (j = i)) as [->|]; [|lia]. congruence.
Qed.

Section install.
Variable db : Z -> Z.

Implicit Types (g : ghost) (s : sys) (t : thread).

Section step.
Context (N : nat) (tr : list event) (g : ghost) (s : sys) (id : Z) (t : thread).
Hypothesis I : inv db N tr g s.
Hypothesis Ht : threads s !! id = Some t.

(** Everything is installed: the transaction is over. *)
Lemma inv_install_end : th_pc t = InstallValue [] ->
  exists g', inv db (S N) (tr ++ []) g'
    (s <| threads := <[id := goto (Stop true (length (tset (txn t)))) t]> (threads s) |>).
Proof using I Ht.
  intros Hpc. destruct (i_thr _ _ _ _ _ I id t Ht) as (Hid & Hb & Hp).
  unfold phase in Hp. rewrite Hpc in Hp. destruct Hp as ((idx & e & Hc & He & Hei & _ & _ & _ & Htd & Hst) & Hf & _).
  assert (running t) as R by (unfold running; by rewrite Hpc).
  set (g' := g <| cur := <[id := None]> (cur g) |>). exists g'.
  assert (forall j e, elog g !! j = Some e -> e_id e = id -> e_status e <> Pending /\ e_todo e = []) as Hdone.
  { intros j e2 Hj He2. destruct (decide (j = idx)) as [->|Hne].
    - assert (e2 = e) as -> by congruence. by rewrite Hst, Htd.
    - eapply not_cur_done; [done..|]. rewrite He2. congruence. }
  eapply inv_kept; try done.
  - apply I.
  - apply I.
  - intros x. destruct (i_num _ _ _ _ _ I x). cbn. split; [done|lia].
  - intros x. cbn. rewrite (inv_own _ _ _ _ _ _ _ _ I Ht). symmetry. by eapply held_stop.
  - intros x. cbn. rewrite (inv_mid _ _ _ _ _ _ _ _ I Ht). unfold installing. by rewrite Hpc.
  - apply I.
  - apply (kept_same db N tr g g' s); try done.
    + intros id' Hne. cbn. by rewrite fn_lookup_insert_ne.
    + right. cbn. by rewrite fn_lookup_insert.
    + intros j e2 x Hj He2 Hx. destruct (Hdone j e2 Hj He2) as [_ E]. rewrite E in Hx. by apply elem_of_nil in Hx.
    + by right.
  - split_and!; [cbn; by rewrite fn_lookup_insert|done|]. intros _ j it Hj. rewrite (Hf j it Hj).
    apply bool_decide_eq_false_2. by intros ?%elem_of_nil.
  - apply (i_log _ _ _ _ _ I).
  - rewrite Ht. split; [left|done]. split; [|done]. cbn. unfold unfinished. by rewrite Hpc.
Qed.

(** The store of a value. *)
Lemma inv_install_value j ws it : th_pc t = InstallValue (j :: ws) -> tset (txn t) !! j = Some it ->
  exists g', inv db (S N) (tr ++ []) g'
    (s <| vals := <[it_box it := wdata it]> (vals s) |>
       <| threads := <[id := goto (InstallVersion j ws) t]> (threads s) |>).
Proof using I Ht.
  intros Hpc Hj. destruct (i_thr _ _ _ _ _ I id t Ht) as (Hid & Hb & Hp).
  unfold phase in Hp. rewrite Hpc in Hp. destruct Hp as (Hl & Hf & Hw). set (x0 := it_box it).
  assert (running t) as R by (unfold running; by rewrite Hpc).
  assert (own g x0 = Some id) as Hown.
  { rewrite (inv_own _ _ _ _ _ _ _ _ I Ht), held_running by done. exists j, it. split_and!; [done..|].
    rewrite (Hf j it Hj). apply bool_decide_eq_true_2, list_elem_of_here. }
  assert (forall x id', mid g x = Some id' -> id' = id -> False) as Hnm.
  { intros x id' Hm ->. apply (inv_mid _ _ _ _ _ _ _ _ I Ht) in Hm. unfold installing in Hm. by rewrite Hpc in Hm. }
  set (g' := g <| mid := <[x0 := Some id]> (mid g) |>). exists g'.
  assert (forall x, mid g' x = if decide (x = x0) then Some id else mid g x) as Em by (intros; apply fn_insert_spec).
  eapply inv_kept; try done.
  - apply I.
  - apply I.
  - intros x. destruct (i_num _ _ _ _ _ I x). cbn. split; [done|lia].
  - intros x. cbn. rewrite (inv_own _ _ _ _ _ _ _ _ I Ht). symmetry. by apply held_same.
  - intros x. rewrite Em. unfold installing. cbn. rewrite Hj. cbn. case_decide; [by subst|].
    split; [intros Hm; by destruct (Hnm x id)|unfold x0 in *; congruence].
  - intros x. rewrite Em. case_decide; [done|]. cbn. rewrite fn_insert_spec, decide_False by done. apply I.
  - apply (kept_same db N tr g g' s); try done; [by left|..|by left].
    + intros x. rewrite Em. by case_decide.
    + constructor; [done|..].
      * intros x id' Hne. rewrite Em. case_decide; [|done]. subst x. split; [congruence|].
        intros Hm. pose proof (mid_own _ _ _ _ _ _ _ I Hm). congruence.
      * intros x id' Hne Hm. cbn. rewrite fn_insert_spec. case_decide; [|done]. subst x.
        pose proof (mid_own _ _ _ _ _ _ _ I Hm). congruence.
    + intros k e x Hk He Hx. destruct (i_ent _ _ _ _ _ I k e Hk) as (_ & H2 & _). destruct (H2 x Hx) as [Hox _].
      cbn. congruence.
  - split_and!; [exact Hl|exact Hf|exact Hw|]. cbn. intros it2 Hj2. assert (it2 = it) as -> by congruence.
    apply fn_lookup_insert.
  - apply (i_log _ _ _ _ _ I).
  - rewrite Ht. split; [left|done]. split; [|done]. cbn. unfold unfinished. by rewrite Hpc.
Qed.
(** What is left to install after item [j]. *)
Lemma boxes_rest j ws it x : NoDup (it_box <$> tset (txn t)) -> writes_at t (j :: ws) -> tset (txn t) !! j = Some it ->
  x ∈ boxes_at t ws <-> x ∈ boxes_at t (j :: ws) /\ x <> it_box it.
Proof.
  intros Hd [Hnd _] Hj. rewrite NoDup_cons in Hnd. destruct Hnd as [Hnj _].
  rewrite !boxes_at_elem. split.
  - intros (k & it2 & Hk & Hk2 & <-). split; [exists k, it2; split_and!; [by right|done..]|].
    intros E. destruct Hnj. by rewrite <-(box_index _ _ _ _ _ Hd Hj Hk2 E).
  - intros [(k & it2 & [->|Hk]%elem_of_cons & Hk2 & <-) Hne]; [|eauto].
    assert (it2 = it) as -> by congruence. done.
Qed.

(** The entry of the transaction once box [x0] is installed. *)
Lemma install_advances e todo' x0 r v :
  e_status e = Committed r -> x0 ∈ e_todo e -> e_writes e x0 = Some v ->
  (forall x, x ∈ todo' <-> x ∈ e_todo e /\ x <> x0) ->
  let e' := e <| e_todo := todo' |> in
  advances e e' /\ (forall x, contrib e' x = if decide (x = x0) then Some v else contrib e x) /\ contrib e x0 = None.
Proof.
  intros Hs Hx0 Hv Ht' e'.
  assert (forall x, contrib e' x = if decide (x = x0) then Some v else contrib e x) as Hc.
  { intros x. unfold contrib. cbn. rewrite Hs. case_decide as Hx.
    - apply Ht' in Hx as [Hx ?]. by rewrite decide_False, decide_True.
    - case_decide as Hx2; [by subst|]. rewrite decide_False; [done|]. intros ?. by destruct Hx; apply Ht'. }
  assert (contrib e x0 = None) as Hn by (unfold contrib; by rewrite Hs, decide_True).
  split; [|done]. constructor; try done.
  - intros x Hx. by apply Ht' in Hx as [? _].
  - intros x. rewrite Hc. case_decide; [right|by left]. subst. split_and!; [done..|by rewrite Hs|by rewrite Hv].
Qed.

(** Nothing after the entry has reached a box that is still to be installed. *)
Lemma todo_silent idx e x : elog g !! idx = Some e -> x ∈ e_todo e -> silent x (drop (S idx) (elog g)).
Proof using I.
  intros He Hx. apply Forall_lookup. intros k e2. rewrite lookup_drop. intros Hk. destruct (contrib e2 x) eqn:E; [|done].
  apply contrib_committed in E as (r & Er & Ew).
  rewrite (i_last _ _ _ _ _ I idx (S idx + k) e e2 x) in Ew; try done; [lia|by rewrite Er].
Qed.

(** The thread after the store of a version: the rest is still to be installed. *)
Lemma install_phase g' j ws it idx e mem :
  NoDup (it_box <$> tset (txn t)) -> tset (txn t) !! j = Some it ->
  flags (fun k _ => bool_decide (k ∈ j :: ws)) t -> writes_at t (j :: ws) ->
  cur g' id = Some idx -> elog g' !! idx = Some (e <| e_todo := boxes_at t ws |>) -> e_id e = id -> e_prog e = th_prog t ->
  e_reads e = reads g' id -> (forall x, e_writes e x = written (tset (txn t)) x) -> e_status e = Committed (th_result t) ->
  phase db g' mem id (goto (InstallValue ws) (t <| txn := set_item j (it <| needs_unlock := false |>) (txn t) |>)).
Proof using Ht.
  intros Hd Hj Hf [Hnd Hwa] Hc He Hei Hpr Hrd Hw Hst. rewrite NoDup_cons in Hnd. split_and!.
  - eexists idx, _. split_and!; try done.
    + intros x. cbn. rewrite Hw, (written_insert _ _ it) by done.
      destruct (Z.eqb_spec (it_box it) x) as [<-|]; [|done]. by rewrite (written_item _ j it) by done.
    + cbn. unfold boxes_at. apply list_omap_ext, Forall_Forall2_diag, Forall_true. intros k. cbn.
      destruct (decide (j = k)) as [<-|]; [|by rewrite list_lookup_insert_ne].
      rewrite list_lookup_insert_eq by (by eapply lookup_lt_Some). by rewrite Hj.
  - intros k it2 [[Hjk Hk]|[<- ->]]%update_lookup.
    + rewrite (Hf k it2 Hk). apply bool_decide_ext. rewrite elem_of_cons. naive_solver.
    + cbn. symmetry. apply bool_decide_eq_false_2, Hnd.
  - split; [apply Hnd|]. intros k Hk. destruct (Hwa k) as (it2 & Hk2 & Hw2); [by right|].
    exists it2. split; [|done]. cbn. rewrite list_lookup_insert_ne; [done|]. intros ->. by destruct Hnd.
Qed.

(** The store of a version, which also releases the lock. *)
Lemma inv_install_version j ws it : th_pc t = InstallVersion j ws -> tset (txn t) !! j = Some it ->
  exists g', inv db (S N) (tr ++ []) g'
    (s <| words := <[it_box it := word_of (num g (it_box it) + 1) None]> (words s) |>
       <| threads := <[id := goto (InstallValue ws) (t <| txn := set_item j (it <| needs_unlock := false |>) (txn t) |>)]>
            (threads s) |>).
Proof using I Ht.
  intros Hpc Hj. destruct (i_thr _ _ _ _ _ I id t Ht) as (Hid & Hb & Hp).
  unfold phase in Hp. rewrite Hpc in Hp. destruct Hp as (Hl & Hf & Hwa & Hmem).
  destruct Hl as (idx & e & Hc & He & Hei & Hpr & Hrd & Hw & Htd & Hst). pose proof (Hmem it Hj) as Hm0.
  set (x0 := it_box it) in *. set (it' := it <| needs_unlock := false |>). set (t' := goto _ _).
  assert (running t) as R by (unfold running; by rewrite Hpc).
  assert (x0 ∈ boxes_at t (j :: ws)) as Hx0 by (apply boxes_at_elem; exists j, it; split_and!; [by left|done..]).
  assert (e_writes e x0 = Some (wdata it)) as Hv0.
  { rewrite Hw. unfold x0. rewrite (written_item _ j it) by (done || apply Hb). destruct Hwa as [_ H].
    destruct (H j) as (it2 & Hj2 & Hw2); [by left|]. assert (it2 = it) as -> by congruence. by rewrite Hw2. }
  destruct (install_advances e (boxes_at t ws) x0 (th_result t) (wdata it)) as (A & Hcn & Hc0); [done|by rewrite Htd|done|..].
  { intros x. rewrite Htd. by apply boxes_rest; [apply Hb|..]. }
  set (e' := e <| e_todo := boxes_at t ws |>) in *.
  assert (mid g x0 = Some id) as Hmid0.
  { apply (inv_mid _ _ _ _ _ _ _ _ I Ht). unfold installing. by rewrite Hpc, Hj. }
  pose proof (mid_own _ _ _ _ _ _ _ I Hmid0) as Hown0.
  set (g' := g <| num := <[x0 := num g x0 + 1]> (num g) |> <| own := <[x0 := None]> (own g) |>
               <| mid := <[x0 := None]> (mid g) |> <| elog := <[idx := e']> (elog g) |>). exists g'.
  assert (forall x, num g' x = if decide (x = x0) then num g x0 + 1 else num g x) as En by (intros; apply fn_insert_spec).
  assert (forall x, own g' x = if decide (x = x0) then None else own g x) as Eo by (intros; apply fn_insert_spec).
  assert (forall x, mid g' x = if decide (x = x0) then None else mid g x) as Em by (intros; apply fn_insert_spec).
  assert (forall x, num g' x = cnt (elog g') x) as Ecnt.
  { intros x. rewrite En. cbn. rewrite (cnt_insert _ _ e), Hcn by done. rewrite <-(proj1 (i_num _ _ _ _ _ I x)).
    case_decide; [subst; rewrite Hc0; cbn; lia|lia]. }
  pose proof (todo_silent idx e x0 He ltac:(by rewrite Htd)) as Hsil.
  eapply inv_kept; try done.
  - intros x. rewrite En, Eo. cbn. rewrite fn_insert_spec. case_decide; [by subst|apply I].
  - intros x. rewrite Eo. case_decide; [done|apply I].
  - intros x. split; [done|]. rewrite En. destruct (i_num _ _ _ _ _ I x), (i_num _ _ _ _ _ I x0). case_decide; lia.
  - intros x. rewrite Eo, (held_update t t' j it it') by (done || apply Hb). fold x0.
    case_decide; [done|]. by apply (inv_own _ _ _ _ _ _ _ _ I Ht).
  - intros x. rewrite Em. case_decide; [done|]. rewrite (inv_mid _ _ _ _ _ _ _ _ I Ht).
    unfold installing. rewrite Hpc, Hj. cbn. split; [|done]. unfold x0 in *. congruence.
  - intros x. rewrite Em. cbn. case_decide as Hx.
    + intros _. subst x. rewrite (inst_insert_last _ _ _ e e' x0 (wdata it)); try done. rewrite Hcn. by rewrite decide_True.
    + rewrite (inst_insert_same _ _ _ e e' x); [apply I|done|]. by rewrite Hcn, decide_False.
  - eapply (kept_insert db N tr g g' s _ id idx e e'); try done; [by left|..].
    + intros x. rewrite Hcn, Em. case_decide; [|done]. subst. by rewrite Hc0.
    + constructor; try done; intros x id' Hne; [rewrite Eo|rewrite Em]; (case_decide; [|done]); subst; split; congruence.
    + destruct (i_ent _ _ _ _ _ I idx e He) as (H1 & H2 & H3 & H4). split_and!.
      * intros _. cbn. by rewrite Hei.
      * intros x Hx. destruct (H2 x) as (Ho & ?); [by apply (ad_todo _ _ A)|]. rewrite Eo, decide_False; [done|].
        by apply (boxes_rest j ws it x) in Hx as [_ ?]; [|apply Hb|..].
      * cbn. by rewrite Hst.
      * cbn. by rewrite take_insert_ge by lia.
  - split; [|apply Hb]. by eapply nodup_update; [..|apply Hb].
  - eapply (install_phase g' j ws it idx e); try done; [apply Hb|]. cbn. apply list_lookup_insert_eq. by eapply lookup_lt_Some.
  - cbn. rewrite list_fmap_insert, list_insert_id; [apply (i_log _ _ _ _ _ I)|]. by rewrite list_lookup_fmap, He.
  - rewrite Ht. cbn [from_option]. unfold fin_ok. fold (results id (elog g)) (results id (elog g')). split.
    + left. split; [cbn; unfold unfinished; by rewrite Hpc|]. apply (results_insert _ _ _ e); [done|]. by rewrite !result_one.
    + intros id' _. split; [done|]. apply (results_insert id' _ _ e); [done|]. by rewrite !result_one.
Qed.

(** [stop] passes an item. *)
Lemma inv_stop_item c i it : th_pc t = Stop c (S i) -> tset (txn t) !! i = Some it ->
  exists g', inv db (S N) (tr ++ []) g'
    ((if needs_unlock it
      then s <| words := <[it_box it := Tid.unlock (words s (it_box it))]> (words s) |> else s)
       <| threads := <[id := goto (Stop c i) t]> (threads s) |>).
Proof using I Ht.
  intros Hpc Hi. destruct (i_thr _ _ _ _ _ I id t Ht) as (Hid & Hb & Hp).
  unfold phase in Hp. rewrite Hpc in Hp. destruct Hp as (Hc & Hlen & Hf). set (t' := goto _ _). set (x0 := it_box it).
  assert (x0 ∈ held t <-> needs_unlock it = true) as Hx0.
  { unfold held. rewrite Hpc. fold (locked_boxes (take (S i) (tset (txn t)))). rewrite elem_locked_boxes. split.
    - intros (j & it2 & [Hj _]%lookup_take_Some & Hb2 & Hn).
      assert (j = i) as -> by (eapply box_index; [apply Hb|exact Hi|exact Hj|done]). congruence.
    - intros Hn. exists i, it. rewrite lookup_take_lt by lia. done. }
  assert (forall x, x ∈ held t' <-> if decide (x = x0) then False else x ∈ held t) as Hh
    by (intros x; eapply held_take; [apply Hb|done..]).
  assert (unfinished t' = unfinished t) as Hun by (unfold unfinished; cbn; by rewrite Hpc).
  destruct (needs_unlock it) eqn:Hn.
  - assert (own g x0 = Some id) as Hown by (apply (inv_own _ _ _ _ _ _ _ _ I Ht); by apply Hx0).
    set (g' := g <| own := <[x0 := None]> (own g) |>). exists g'.
    assert (forall x, own g' x = if decide (x = x0) then None else own g x) as Eo by (intros; apply fn_insert_spec).
    eapply inv_kept; try done.
    + intros x. rewrite Eo. cbn. rewrite fn_insert_spec. case_decide; [|apply I]. subst.
      rewrite (i_words _ _ _ _ _ I). apply unlocked_word, I.
    + intros x. rewrite Eo. case_decide; [done|apply I].
    + intros x. destruct (i_num _ _ _ _ _ I x). cbn. split; [done|lia].
    + intros x. rewrite Eo, Hh. case_decide; [done|]. by apply (inv_own _ _ _ _ _ _ _ _ I Ht).
    + intros x. cbn. rewrite (inv_mid _ _ _ _ _ _ _ _ I Ht). unfold installing. by rewrite Hpc.
    + apply I.
    + apply (kept_same db N tr g g' s); try done; [by left|..|by left].
      * constructor; try done. intros x id' Hne. rewrite Eo. case_decide; [|done]. subst. split; congruence.
      * intros k e x Hk He Hx. destruct (not_cur_done _ _ _ _ _ _ _ I Hk) as [_ E]; [by rewrite He, Hc|].
        rewrite E in Hx. by apply elem_of_nil in Hx.
    + split_and!; [done|cbn; lia|done].
    + apply (i_log _ _ _ _ _ I).
    + rewrite Ht. split; [by left|done].
  - exists g. eapply inv_local; try done.
    + intros x. rewrite Hh, (inv_own _ _ _ _ _ _ _ _ I Ht). case_decide; [subst|done]. by rewrite Hx0.
    + intros x. eapply inv_mid_none; [done..|]. unfold installing. by rewrite Hpc.
    + split_and!; [done|cbn; lia|done].
    + by rewrite Ht.
Qed.

(** The transaction is over, and the thread is free for the next. *)
Lemma inv_stop_end c : th_pc t = Stop c 0 ->
  exists g', inv db (S N) (tr ++ if c then [Finished id (th_result t)] else []) g'
    (s <| threads := <[id := goto Idle (t <| txn := (txn t) <| tstate := if c then s_committed else s_aborted |> |>)]>
            (threads s) |>).
Proof using I Ht.
  intros Hpc. exists g. destruct (i_thr _ _ _ _ _ I id t Ht) as (Hid & Hb & Hp).
  unfold phase in Hp. rewrite Hpc in Hp. destruct Hp as (Hc & _ & Hf).
  eapply inv_local; try done.
  - intros x. rewrite (inv_own _ _ _ _ _ _ _ _ I Ht). unfold held. by rewrite Hpc.
  - intros x. eapply inv_mid_none; [done..|]. unfold installing. by rewrite Hpc.
  - by destruct c.
  - intros id' Hne. destruct c; [|done]. cbn. by destruct (Z.eqb_spec id id'); [congruence|].
  - rewrite Ht. cbn. unfold unfinished. rewrite Hpc. destruct c; [|done]. cbn. by rewrite Z.eqb_refl.
Qed.
End step.
End install.
