(* ===== verification/StoProps.v ===== *)
(** The commit protocol of [Sto] is serializable, and it leaves no lock behind. *)

From stdpp Require Import functions.
From S2P Require Import Prelude Tid Sto StoLog StoInv StoSteps StoBody StoCommit StoCheck StoInstall.

#[local] Set Default Proof Using "Type".

(** * The bodies that commit were begun *)

Lemma settle_progs id i st L : omap (prog_of id) (settle i st L) = omap (prog_of id) L.
Proof.
  unfold settle. induction L as [|[[j p] st'] L IH]; [done|]. cbn. rewrite IH. by destruct st'.
Qed.

Lemma log_progs id tr : omap (prog_of id) (log tr) = omap (serialized_of id) tr.
Proof.
  induction tr as [|ev tr IH] using rev_ind; [done|]. rewrite log_app, omap_app, <-IH. cbn.
  destruct ev as [i p|i p|i r|i|i r]; cbn; rewrite ?settle_progs, ?app_nil_r; try done.
  rewrite omap_app. cbn. unfold prog_of at 2. cbn. by destruct (i =? id).
Qed.

Lemma order_progs id tr : omap (prog_of id) (serial_order tr) `sublist_of` omap (serialized_of id) tr.
Proof.
  rewrite <-log_progs. unfold serial_order. induction (log tr) as [|[[i p] st] L IH]; [done|]. cbn.
  assert (forall A (a : A), prog_of id (i, p, a) = if i =? id then Some p else None) as E by done.
  destruct st as [|r|]; cbn; rewrite !E; destruct (i =? id); auto using sublist_skip, sublist_cons.
Qed.

(** The body of a transaction that is not yet in the order. *)
Definition unordered (t : thread) : list prog :=
  match th_pc t with
  | Body _ | ReadValue _ _ | Phase1 _ | LockLoad _ _ | LockCas _ _ _ => [th_prog t]
  | _ => []
  end.

Definition begun (tr : list event) (s : sys) : Prop :=
  forall id, omap (serialized_of id) tr ++ from_option unordered [] (threads s !! id) `sublist_of` omap (began_of id) tr.

(** What a step of a thread says of its own body, and of no other. *)
Definition body_kept (id : Z) (t t' : thread) (ev : list event) : Prop :=
  omap (serialized_of id) ev ++ unordered t' `sublist_of` unordered t /\
  forall id', omap (began_of id') ev = [] /\ (id' <> id -> omap (serialized_of id') ev = []).

Section props.
Variable spin_bound : Z.
Variable db : Z -> Z.

Implicit Types (g : ghost) (s : sys) (t : thread).

Lemma inv_init : inv db 0 [] {| num := fun _ => 0; own := fun _ => None; mid := fun _ => None; reads := fun _ => [];
    cur := fun _ => None; elog := [] |} (init db).
Proof.
  constructor; try done; cbn; intros.
  - split; [done|]. by intros (t & Ht & _).
  - split; [done|]. by intros (t & Ht & _).
Qed.

(** Ends the cases of [thread_body]: the events name no other thread, and the body
    is carried over, ordered, or given up. *)
Ltac body_case Hpc :=
  split; [done|]; unfold body_kept, unordered; rewrite Hpc; cbn; rewrite ?Z.eqb_refl; cbn;
  split; [try done; try apply sublist_nil_l|];
  intros id'; split; [done|]; intros Hne; try done;
  match goal with |- context [?a =? ?b] => destruct (Z.eqb_spec a b); [congruence|done] end.

Lemma thread_body id t s t' s' ev :
  step_thread spin_bound id t s = Some (t', s', ev) -> threads s' = threads s /\ body_kept id t t' ev.
Proof.
  intros H. unfold step_thread in H. destruct (th_pc t) as [|p|x k|i|i n|i n vv|i|i|ws|j ws|c i] eqn:Hpc; [done|..].
  - destruct p as [r|x k|x v p]; cbn in H.
    + repeat case_match; simplify_eq; body_case Hpc.
    + unfold abort in H. destruct (item x (txn t)). repeat case_match; simplify_eq; body_case Hpc.
    + destruct (item x (txn t)). simplify_eq. body_case Hpc.
  - simplify_eq. body_case Hpc.
  - unfold step_phase1 in H. repeat case_match; simplify_eq; body_case Hpc.
  - apply bind_Some in H as (it & Hi & H). simplify_eq. body_case Hpc.
  - unfold step_lock, abort in H. apply bind_Some in H as (it & Hi & H). cbv zeta in H.
    destruct (Tid.try_lock_cas _ _ id) as [[] w]; [|destruct (has_read it || _)]; simplify_eq; body_case Hpc.
  - unfold step_check, abort in H. repeat case_match; simplify_eq; body_case Hpc.
  - unfold step_check_version, abort in H. apply bind_Some in H as ([t1 ev1] & E & H). apply bind_Some in E as (it & Hi & E).
    repeat case_match; simplify_eq; body_case Hpc.
  - apply bind_Some in H as ([t1 s1] & E & H). destruct ws; cbn in E; [|apply bind_Some in E as (it & Hi & E)];
      simplify_eq; body_case Hpc.
  - apply bind_Some in H as ([t1 s1] & E & H). apply bind_Some in E as (it & Hi & E). cbv zeta in E. simplify_eq. body_case Hpc.
  - destruct i as [|i]; cbn in H; [|apply bind_Some in H as (it & Hi & H)].
    + destruct c; simplify_eq; body_case Hpc.
    + cbv zeta in H. destruct (needs_unlock it); simplify_eq; body_case Hpc.
Qed.

Lemma begun_init : begun [] (init db).
Proof. intros id. cbn. by rewrite lookup_empty. Qed.

Lemma begun_step a s s' ev tr :
  begun tr s -> step spin_bound a s = Some (s', ev) -> begun (tr ++ ev) s'.
Proof.
  intros B H id'. rewrite !omap_app. specialize (B id'). destruct a as [id p|id]; cbn in H.
  - assert (omap (serialized_of id') tr `sublist_of` omap (began_of id') tr) as B'.
    { etransitivity; [|exact B]. by apply sublist_inserts_r. }
    assert (ev = [Began id p] /\ threads s' = <[id := {| txn := start; th_pc := Body p; th_prog := p; th_result := 0 |}]> (threads s))
      as [-> ->] by (repeat case_match; by simplify_eq).
    cbn. rewrite app_nil_r. destruct (Z.eqb_spec id id') as [->|Hne].
    + rewrite lookup_insert_eq. cbn. by apply sublist_app.
    + rewrite lookup_insert_ne, app_nil_r by done. done.
  - apply bind_Some in H as (t & Ht & H). apply bind_Some in H as ([[t' s1] ev1] & E & [= <- <-]).
    apply thread_body in E as (-> & H1 & H2). cbn. destruct (H2 id') as [-> H3]. rewrite app_nil_r.
    destruct (decide (id' = id)) as [->|Hne].
    + rewrite lookup_insert_eq. cbn. rewrite Ht in B. cbn in B. etransitivity; [|exact B].
      rewrite <-app_assoc. by apply sublist_app.
    + rewrite lookup_insert_ne by done. by rewrite (H3 Hne), app_nil_r.
Qed.

Lemma begun_run sched tr s s' tr' :
  begun tr s -> run spin_bound sched s = Some (s', tr') -> begun (tr ++ tr') s'.
Proof.
  revert tr s tr'. induction sched as [|a sched IH]; intros tr s tr' B H; cbn in H.
  - injection H as <- <-. by rewrite app_nil_r.
  - apply bind_Some in H as ([s1 ev] & E & H). apply bind_Some in H as ([s2 tr2] & E2 & [= <- <-]).
    rewrite app_assoc. eapply IH; [|done]. by eapply begun_step.
Qed.

(** Every step of a thread. *)
Lemma inv_thread N tr g s id t t' s' ev :
  inv db N tr g s -> Z.of_nat N + 1 < 2 ^ 52 -> threads s !! id = Some t ->
  step_thread spin_bound id t s = Some (t', s', ev) ->
  exists g', inv db (S N) (tr ++ ev) g' (s' <| threads := <[id := t']> (threads s') |>).
Proof.
  intros I HN Ht H. unfold step_thread in H. destruct (th_pc t) as [|p|x k|i|i n|i n vv|i|i|ws|j ws|c i] eqn:Hpc; [done|..].
  - destruct p as [r|x k|x v p].
    + cbn [step_body] in H. match type of H with context [if ?b then _ else _] => destruct b eqn:E end;
        injection H as <- <- <-; [|by eapply inv_done].
      apply andb_prop in E as [E1%negb_true_iff E2%negb_true_iff]. by eapply inv_done_empty.
    + destruct (inv_read db N tr g s id t I Ht x k Hpc) as [g' H']. destruct (step_body id _ t s).
      injection H as <- <- <-. by exists g'.
    + destruct (inv_write db N tr g s id t I Ht x v p Hpc) as [g' H']. destruct (step_body id _ t s).
      injection H as <- <- <-. by exists g'.
  - injection H as <- <- <-. by eapply inv_read_value.
  - destruct (inv_phase1 db N tr g s id t I Ht i Hpc) as [g' H']. destruct (step_phase1 id i t).
    injection H as <- <- <-. by exists g'.
  - apply bind_Some in H as (it & Hi & [= <- <- <-]). by eapply inv_lock_load.
  - apply bind_Some in H as (it & Hi & H). destruct (i_thr _ _ _ _ _ I id t Ht) as (Hid & _ & Hp).
    unfold phase in Hp. rewrite Hpc in Hp. destruct Hp as ((Hc & _) & _ & vn & vo & -> & Hvo).
    cbv zeta in H. rewrite (i_words _ _ _ _ _ I) in H.
    destruct (try_lock_cas_spec vn vo (num g (it_box it)) (own g (it_box it)) id) as [[E Eo]|E]; [done|apply I|done|..];
      rewrite E in H; cbn in H.
    + injection H as <- <- <-. by eapply (inv_lock_success db N tr g s id t).
    + destruct (has_read it || _); injection H as <- <- <-; [|by eapply (inv_lock_fail db N tr g s id t)].
      eapply (inv_abort_open db N tr g s id t); try done; [unfold running|unfold installing|unfold unfinished]; by rewrite Hpc.
  - destruct (inv_check db N tr g s id t I Ht i Hpc) as [g' H']. destruct (step_check id i t s).
    injection H as <- <- <-. by exists g'.
  - apply bind_Some in H as ([t1 ev1] & E & [= <- <- <-]). by eapply inv_check_version.
  - apply bind_Some in H as ([t1 s1] & E & [= <- <- <-]). destruct ws as [|j ws]; cbn in E.
    + injection E as <- <-. by eapply (inv_install_end db N tr g s id t).
    + apply bind_Some in E as (it & Hi & [= <- <-]). by eapply (inv_install_value db N tr g s id t).
  - apply bind_Some in H as ([t1 s1] & E & [= <- <- <-]). apply bind_Some in E as (it & Hi & [= <- <-]).
    destruct (i_thr _ _ _ _ _ I id t Ht) as (_ & [_ ->] & _). destruct (i_num _ _ _ _ _ I (it_box it)) as [E1 E2].
    pose proof (cnt_nonneg (elog g) (it_box it)).
    rewrite (i_words _ _ _ _ _ I), next_version_word by (apply I || lia). by eapply (inv_install_version db N tr g s id t).
  - destruct i as [|i]; cbn in H.
    + injection H as <- <- <-. by apply (inv_stop_end db N tr g s id t).
    + apply bind_Some in H as (it & Hi & H).
      destruct (inv_stop_item db N tr g s id t I Ht c i it Hpc Hi) as [g' H']. exists g'.
      by destruct (needs_unlock it); injection H as <- <- <-.
Qed.

Definition ids_ok (a : action) : Prop := match a with Run id _ => uint 7 id | Step _ => True end.

Lemma inv_step N tr g s a s' ev :
  inv db N tr g s -> Z.of_nat N + 1 < 2 ^ 52 -> ids_ok a -> step spin_bound a s = Some (s', ev) ->
  exists g', inv db (S N) (tr ++ ev) g' s'.
Proof.
  intros I HN Ha H. destruct a as [id p|id]; cbn in H.
  - enough (forall t, threads s !! id = Some t -> th_pc t = Idle) as Hidle.
    { eexists. assert (s' = s <| threads := <[id := {| txn := start; th_pc := Body p; th_prog := p; th_result := 0 |}]> (threads s) |>
        /\ ev = [Began id p]) as [-> ->]; [|by apply inv_run].
      destruct (threads s !! id) as [[tx pc0 pr r]|] eqn:Et; [|by injection H as <- <-].
      specialize (Hidle _ eq_refl). cbn in Hidle. subst. by injection H as <- <-. }
    intros t Et. rewrite Et in H. destruct t as [tx [] pr r]; done.
  - apply bind_Some in H as (t & Ht & H). apply bind_Some in H as ([[t' s1] ev1] & E & [= <- <-]).
    by eapply inv_thread.
Qed.

Lemma inv_run_all sched N tr g s s' tr' :
  inv db N tr g s -> Z.of_nat (N + length sched) < 2 ^ 52 -> Forall ids_ok sched ->
  run spin_bound sched s = Some (s', tr') -> exists g', inv db (N + length sched) (tr ++ tr') g' s'.
Proof.
  revert N tr g s tr'. induction sched as [|a sched IH]; intros N tr g s tr' I HN Hok H; cbn in H.
  - injection H as <- <-. exists g. by rewrite app_nil_r, Nat.add_0_r.
  - apply bind_Some in H as ([s1 ev] & E & H). apply bind_Some in H as ([s2 tr2] & E2 & [= <- <-]).
    apply Forall_cons in Hok as [Ha Hok]. cbn in HN |- *.
    destruct (inv_step N tr g s a s1 ev) as [g1 I1]; [done|lia|done..|].
    destruct (IH (S N) (tr ++ ev) g1 s1 tr2) as [g2 I2]; [done|cbn; lia|done..|]. exists g2.
    by rewrite app_assoc, Nat.add_succ_r.
Qed.

(** All transactions of a run, from the start. *)
Lemma inv_reachable sched s tr :
  run spin_bound sched (init db) = Some (s, tr) -> Forall ids_ok sched -> Z.of_nat (length sched) < 2 ^ 52 ->
  exists g, inv db (length sched) tr g s.
Proof. intros H Hok HN. by eapply (inv_run_all sched 0 [] _ _ _ _ inv_init). Qed.
Definition quiescent (s : sys) : Prop := forall id t, threads s !! id = Some t -> th_pc t = Idle.

(** Between transactions nothing is owned, and nothing is left to do. *)
Lemma quiescent_done N tr g s : inv db N tr g s -> quiescent s ->
  (forall x, own g x = None) /\ (forall x, mid g x = None) /\
  Forall (fun e => e_status e <> Pending /\ e_todo e = []) (elog g) /\
  forall id, from_option unfinished [] (threads s !! id) = [].
Proof.
  intros I Q. split_and!.
  - intros x. destruct (own g x) as [id|] eqn:E; [|done]. apply (i_held _ _ _ _ _ I) in E as (t & Ht & Hx).
    unfold held in Hx. rewrite (Q id t Ht) in Hx. by apply elem_of_nil in Hx.
  - intros x. destruct (mid g x) as [id|] eqn:E; [|done]. apply (i_mid _ _ _ _ _ I) in E as (t & Ht & Hx).
    unfold installing in Hx. by rewrite (Q id t Ht) in Hx.
  - apply Forall_lookup. intros j e Hj. eapply not_cur_done; [done..|].
    destruct (threads s !! e_id e) as [t|] eqn:Ht; [|by rewrite (i_none _ _ _ _ _ I)].
    destruct (i_thr _ _ _ _ _ I _ t Ht) as (_ & _ & Hp). unfold phase in Hp. rewrite (Q _ t Ht) in Hp. by rewrite Hp.
  - intros id. destruct (threads s !! id) as [t|] eqn:Ht; [|done]. cbn. unfold unfinished. by rewrite (Q id t Ht).
Qed.
End props.

(** C2: every run of the threads, however their loads, stores and exchanges of
    shared memory interleave, is serializable: the committed transactions return
    what they return when their bodies run alone, one after the other, in the
    order in which they took their last lock; the results each thread reports are
    those of its transactions in that order, and its bodies there are among those
    it was given, in that order; and when no transaction is running the boxes hold
    what that serial run leaves, and every report has been made.  Thread ids fit
    their 7 bits, and the run is too short for a version number to wrap. *)
Theorem serializable spin_bound db sched s tr :
  run spin_bound sched (init db) = Some (s, tr) ->
  Forall ids_ok sched -> Z.of_nat (length sched) < 2 ^ 52 ->
  (forall l1 id p r l2, serial_order tr = l1 ++ (id, p, r) :: l2 -> (serial p (replay db l1)).1 = r) /\
  (forall id, omap (finished_of id) tr `prefix_of` omap (result_of id) (serial_order tr)) /\
  (forall id, omap (prog_of id) (serial_order tr) `sublist_of` omap (began_of id) tr) /\
  (quiescent s ->
    (forall x, vals s x = replay db (serial_order tr) x) /\
    forall id, omap (finished_of id) tr = omap (result_of id) (serial_order tr)).
Proof.
  intros H Hok HN. destruct (inv_reachable spin_bound db sched s tr H Hok HN) as [g I].
  destruct (ledger_serial db (elog g)) as [Hfin Hser].
  { intros i e Hi. by apply (i_ent _ _ _ _ _ I). }
  pose proof (i_fin _ _ _ _ _ I) as F. unfold serial_order. rewrite <-(i_log _ _ _ _ _ I). split_and!.
  - exact Hser.
  - intros id. exists (from_option unfinished [] (threads s !! id)). by rewrite F.
  - intros id. rewrite (i_log _ _ _ _ _ I). etransitivity; [apply order_progs|].
    pose proof (begun_run spin_bound sched [] _ _ _ (begun_init db) H id) as B. cbn in B.
    etransitivity; [|exact B]. by apply sublist_inserts_r.
  - intros Q. destruct (quiescent_done db _ _ _ _ I Q) as (_ & Hm & Hd & Hu). split.
    + intros x. by rewrite (i_vals _ _ _ _ _ I), Hfin, inst_final.
    + intros id. by rewrite <-F, Hu, app_nil_r.
Qed.

(** C32: a lock is never left behind: a version word is locked exactly when a thread
    inside a transaction has the box marked in its set, at most one thread has, the
    word names that thread; and when no transaction is running every box is
    unlocked. *)
Theorem locks_are_held spin_bound db sched s tr :
  run spin_bound sched (init db) = Some (s, tr) ->
  Forall ids_ok sched -> Z.of_nat (length sched) < 2 ^ 52 ->
  (forall x id t, threads s !! id = Some t -> x ∈ held t -> Tid.is_locked_here (words s x) id = true) /\
  (forall x id id' t t', threads s !! id = Some t -> threads s !! id' = Some t' -> x ∈ held t -> x ∈ held t' -> id = id') /\
  (forall x, Tid.is_locked (words s x) = true -> exists id t, threads s !! id = Some t /\ x ∈ held t) /\
  (quiescent s -> forall x, Tid.is_locked (words s x) = false).
Proof.
  intros H Hok HN. destruct (inv_reachable spin_bound db sched s tr H Hok HN) as [g I].
  assert (forall x, Tid.is_locked (words s x) = bool_decide (is_Some (own g x))) as L.
  { intros x. rewrite (i_words _ _ _ _ _ I). apply is_locked_word, I. }
  split_and!.
  - intros x id t Ht Hx. apply (inv_own _ _ _ _ _ _ _ _ I Ht) in Hx.
    rewrite (i_words _ _ _ _ _ I), Hx. apply locked_here_word. by apply (i_thr _ _ _ _ _ I id t).
  - intros x id id' t t' Ht Ht' Hx Hx'. apply (inv_own _ _ _ _ _ _ _ _ I Ht) in Hx. apply (inv_own _ _ _ _ _ _ _ _ I Ht') in Hx'.
    congruence.
  - intros x. rewrite L, bool_decide_eq_true. intros [id Hx]. exists id. by apply (i_held _ _ _ _ _ I).
  - intros Q x. destruct (quiescent_done db _ _ _ _ I Q) as (Ho & _). by rewrite L, Ho.
Qed.

(** * Two threads increment a box *)

Definition demo_db (_ : Z) : Z := 10.
Definition demo_incr : prog := Read 1 (fun v => Write 1 (v + 1) (Done v)).

(** Thread 1 reads; thread 2 runs and commits; thread 1 fails its check and runs
    again. *)
Definition demo_sched : list action :=
  [Run 1 demo_incr; Run 2 demo_incr] ++ replicate 3 (Step 1) ++ replicate 16 (Step 2) ++ replicate 9 (Step 1)
  ++ [Run 1 demo_incr] ++ replicate 16 (Step 1).
Definition demo_end : sys * list event := default (init demo_db, []) (run 3 demo_sched (init demo_db)).

Example demo_trace :
  demo_end.2 = [Began 1 demo_incr; Began 2 demo_incr; Serialized 2 demo_incr; Decided 2 10; Finished 2 10;
                Serialized 1 demo_incr; Aborted 1; Began 1 demo_incr; Serialized 1 demo_incr; Decided 1 11; Finished 1 11].
Proof. vm_compute. reflexivity. Qed.

#[local] Instance idle_decision (t : thread) : Decision (th_pc t = Idle).
Proof. destruct (th_pc t); (by left) || (by right). Defined.

Lemma demo_quiescent : quiescent demo_end.1.
Proof.
  assert (map_Forall (fun _ t => th_pc t = Idle) (threads demo_end.1)) as H; [|intros id t Ht; by apply (H id t)].
  apply (bool_decide_eq_true_1 _). vm_compute. reflexivity.
Qed.

Lemma demo_ids : Forall ids_ok demo_sched.
Proof. unfold demo_sched. cbn. repeat (constructor; [done|]). constructor. Qed.

Lemma serializable_witness :
  serial_order demo_end.2 = [(2, demo_incr, 10); (1, demo_incr, 11)] /\
  vals demo_end.1 1 = replay demo_db (serial_order demo_end.2) 1 /\ replay demo_db (serial_order demo_end.2) 1 = 12.
Proof.
  split; [vm_compute; reflexivity|]. split; [|vm_compute; reflexivity].
  apply (serializable 3 demo_db demo_sched demo_end.1 demo_end.2);
    [vm_compute; reflexivity|exact demo_ids|vm_compute; reflexivity|exact demo_quiescent].
Defined.

(** In the middle of the run, after the first lock of thread 2. *)
Definition demo_mid : sys * list event := default (init demo_db, []) (run 3 (take 12 demo_sched) (init demo_db)).

Lemma locks_are_held_witness :
  Tid.is_locked (words demo_mid.1 1) = true /\ Tid.is_locked (words demo_mid.1 2) = false /\
  exists id t, threads demo_mid.1 !! id = Some t /\ 1 ∈ held t.
Proof.
  split; [vm_compute; reflexivity|]. split; [vm_compute; reflexivity|].
  apply (locks_are_held 3 demo_db (take 12 demo_sched) demo_mid.1 demo_mid.2);
    [vm_compute; reflexivity|apply Forall_take, demo_ids|vm_compute; reflexivity|vm_compute; reflexivity].
Defined.
