(* ===== verification/StoProgress.v ===== *)
(** [try_commit] of [Sto] is wait-free: a committing thread is never stuck, and the
    number of its own steps is bounded whatever the other threads do. *)

From stdpp Require Import functions.
From S2P Require Import Prelude Tid Sto StoLog StoInv StoSteps StoCommit StoProps.

#[local] Set Default Proof Using "Type".

(** A thread inside [try_commit] and [stop]. *)
Definition committing (t : thread) : Prop :=
  match th_pc t with Idle | Body _ | ReadValue _ _ => False | _ => True end.

Lemma writeset_from_length i l : (length (writeset_from i l) <= length l)%nat.
Proof.
  revert i. induction l as [|it l IH]; intros i; cbn; [done|]. specialize (IH (S i)).
  destruct (has_write it); cbn; lia.
Qed.

Section progress.
Variable spin_bound : Z.
Hypothesis spin_pos : 0 <= spin_bound.

Implicit Types (t : thread) (s : sys).

(** The exchanges tried for one lock at most. *)
Definition spins : Z := Z.shiftl 1 spin_bound.

Lemma spins_pos : 1 <= spins.
Proof using spin_pos. unfold spins. rewrite Z.shiftl_1_l. pose proof (Z.pow_pos_nonneg 2 spin_bound). lia. Qed.

(** A bound of the steps a thread has left. *)
Definition rank t : Z :=
  let len := Z.of_nat (length (tset (txn t))) in
  let left i := Z.of_nat (length (tset (txn t)) - i) in
  match th_pc t with
  | Idle | Body _ | ReadValue _ _ => 0
  | Stop _ i => Z.of_nat i + 1
  | InstallValue ws => len + 2 + 2 * Z.of_nat (length ws)
  | InstallVersion _ ws => len + 3 + 2 * Z.of_nat (length ws)
  | Check i => 3 * len + 3 + 2 * left i
  | CheckVersion i => 3 * len + 2 + 2 * left i
  | Phase1 i => 5 * len + 4 + left i * (2 * spins + 1)
  | LockLoad i n => 5 * len + 4 + left (S i) * (2 * spins + 1) + 2 * (spins - n)
  | LockCas i n _ => 5 * len + 3 + left (S i) * (2 * spins + 1) + 2 * (spins - n)
  end.

(** The failures at one lock are counted below the bound. *)
Definition spinning t : Prop :=
  match th_pc t with LockLoad _ n | LockCas _ n _ => 0 <= n < spins | _ => True end.

Lemma left_S (l : list TransItem) i it :
  l !! i = Some it -> Z.of_nat (length l - i) = Z.of_nat (length l - S i) + 1.
Proof. intros H. apply lookup_lt_Some in H. lia. Qed.

Lemma rank_nonneg t : spinning t -> 0 <= rank t.
Proof using spin_pos.
  pose proof spins_pos. unfold spinning, rank. destruct (th_pc t); cbn; intros; try lia;
    match goal with |- context [?a * (2 * spins + 1)] => pose proof (Z.mul_nonneg_nonneg a (2 * spins + 1)) end; lia.
Qed.

Ltac rank_case Hpc :=
  unfold committing, spinning, rank; rewrite Hpc; cbn; rewrite ?length_insert;
  split_and!; first [lia | auto].

Lemma rank_step id t s t' s' ev :
  committing t -> spinning t -> step_thread spin_bound id t s = Some (t', s', ev) ->
  (committing t' \/ th_pc t' = Idle) /\ spinning t' /\ rank t' < rank t.
Proof using spin_pos.
  intros C Sp H. pose proof spins_pos as HS. unfold step_thread in H. unfold committing in C. unfold spinning in Sp.
  destruct (th_pc t) as [|p|x k|i|i n|i n vv|i|i|ws|j ws|c i] eqn:Hpc; try done; clear C.
  - unfold step_phase1 in H. destruct (tset (txn t) !! i) as [it|] eqn:Hi; [pose proof (left_S _ _ _ Hi) as HL|].
    + repeat case_match; simplify_eq; rank_case Hpc.
    + simplify_eq. apply lookup_ge_None in Hi. rank_case Hpc.
  - apply bind_Some in H as (it & Hi & H). simplify_eq. rank_case Hpc.
  - unfold step_lock, abort in H. apply bind_Some in H as (it & Hi & H). cbv zeta in H.
    destruct (Tid.try_lock_cas _ _ id) as [[] w]; [simplify_eq; rank_case Hpc|].
    destruct (has_read it || _) eqn:E; simplify_eq; [rank_case Hpc|].
    apply orb_false_elim in E as [_ E%Z.eqb_neq]. fold spins in E. rank_case Hpc.
  - unfold step_check, abort in H. destruct (tset (txn t) !! i) as [it|] eqn:Hi; [pose proof (left_S _ _ _ Hi) as HL|].
    + repeat case_match; simplify_eq; rank_case Hpc.
    + simplify_eq. pose proof (writeset_from_length 0 (tset (txn t))) as Hw. fold (writeset (txn t)) in Hw. rank_case Hpc.
  - unfold step_check_version, abort in H. apply bind_Some in H as ([t1 ev1] & E & H). apply bind_Some in E as (it & Hi & E).
    pose proof (left_S _ _ _ Hi) as HL. repeat case_match; simplify_eq; rank_case Hpc.
  - apply bind_Some in H as ([t1 s1] & E & H). destruct ws; cbn in E; [|apply bind_Some in E as (it & Hi & E)];
      simplify_eq; rank_case Hpc.
  - apply bind_Some in H as ([t1 s1] & E & H). apply bind_Some in E as (it & Hi & E). cbv zeta in E. simplify_eq. rank_case Hpc.
  - destruct i as [|i]; cbn in H; [|apply bind_Some in H as (it & Hi & H)]; cbv zeta in H; simplify_eq; rank_case Hpc.
Qed.

(** A step of another thread does not touch this one. *)
Lemma step_other a s s' ev id :
  step spin_bound a s = Some (s', ev) -> match a with Run i _ | Step i => i <> id end -> threads s' !! id = threads s !! id.
Proof.
  intros H Hne. destruct a as [i p|i]; cbn in H.
  - repeat case_match; simplify_eq; cbn; by rewrite lookup_insert_ne.
  - apply bind_Some in H as (t & Ht & H). apply bind_Some in H as ([[t' s1] ev1] & E & [= <- <-]).
    apply thread_body in E as (-> & _). cbn. by rewrite lookup_insert_ne.
Qed.

Definition own_step (id : Z) (a : action) : bool := match a with Step i => i =? id | Run _ _ => false end.
Definition own_steps (id : Z) (sched : list action) : Z := Z.of_nat (length (filter (fun a => own_step id a = true) sched)).
Definition no_new_body (id : Z) (a : action) : Prop := match a with Run i _ => i <> id | Step _ => True end.

Lemma rank_run id sched s s' tr t :
  run spin_bound sched s = Some (s', tr) -> Forall (no_new_body id) sched ->
  threads s !! id = Some t -> committing t \/ th_pc t = Idle -> spinning t ->
  own_steps id sched <= rank t /\ exists t', threads s' !! id = Some t' /\ (committing t' \/ th_pc t' = Idle).
Proof using spin_pos.
  revert s tr t. induction sched as [|a sched IH]; intros s tr t H Hn Ht C Sp; cbn in H.
  { injection H as <- <-. split; [by apply rank_nonneg|eauto]. }
  apply bind_Some in H as ([s1 ev] & E & H). apply bind_Some in H as ([s2 tr2] & E2 & [= <- <-]).
  apply Forall_cons in Hn as [Ha Hn]. unfold own_steps. rewrite filter_cons. destruct (own_step id a) eqn:Ho.
  - rewrite decide_True by done. destruct a as [i p|i]; [done|]. apply Z.eqb_eq in Ho. subst i. cbn in E.
    rewrite Ht in E. cbn in E. apply bind_Some in E as ([[t1 s0] ev1] & E & [= <- <-]).
    destruct C as [C|C]; [|unfold step_thread in E; by rewrite C in E].
    destruct (rank_step _ _ _ _ _ _ C Sp E) as (C1 & Sp1 & Hr).
    destruct (IH _ _ t1 E2 Hn) as [IH1 IH2]; [cbn; by rewrite lookup_insert_eq|done..|].
    split; [|done]. unfold own_steps in IH1. cbn [length]. lia.
  - rewrite decide_False by done. eapply IH; try done. erewrite step_other; [done|exact E|].
    destruct a; [done|]. by apply Z.eqb_neq.
Qed.

(** A thread in a transaction can always make its next step. *)
Lemma step_enabled db N tr g s id t :
  inv db N tr g s -> threads s !! id = Some t -> th_pc t <> Idle -> is_Some (step spin_bound (Step id) s).
Proof.
  intros I Ht Hne. destruct (i_thr _ _ _ _ _ I id t Ht) as (_ & _ & Hp). cbn. rewrite Ht. cbn.
  enough (is_Some (step_thread spin_bound id t s)) as [[[t' s'] ev] ->] by by eexists.
  unfold step_thread. unfold phase in Hp. destruct (th_pc t) as [|p|x k|i|i n|i n vv|i|i|ws|j ws|c i]; try done.
  - destruct (step_body id p t s). by eexists.
  - destruct (step_phase1 id i t). by eexists.
  - destruct Hp as (_ & it & -> & _). cbn. by eexists.
  - destruct Hp as (_ & (it & Hi & _) & _). unfold step_lock, abort. rewrite Hi. cbn.
    destruct (Tid.try_lock_cas _ _ id) as [[] w]; [by eexists|]. destruct (has_read it || _); by eexists.
  - destruct (step_check id i t s). by eexists.
  - destruct Hp as (_ & it & Hi & _). unfold step_check_version. rewrite Hi. cbn.
    destruct (TNonopaqueVersion.cp_check_version _ _); cbn; by eexists.
  - destruct ws as [|j ws]; cbn; [by eexists|]. destruct Hp as (_ & _ & _ & H). destruct (H j) as (it & -> & _); [by left|]. cbn. by eexists.
  - destruct Hp as (_ & _ & (_ & H) & _). destruct (H j) as (it & Hi & _); [by left|]. unfold step_install_version.
    rewrite Hi. cbn. by eexists.
  - destruct i as [|i]; cbn; [by eexists|]. destruct Hp as (_ & Hl & _).
    destruct (lookup_lt_is_Some_2 (tset (txn t)) i) as [it ->]; [lia|]. cbn. by eexists.
Qed.
End progress.

(** C30: [try_commit] is wait-free.  Take any reachable state in which a thread has
    just entered [try_commit] with [len] items, and any continuation in which it is
    not given a new body: the thread makes at most
    [5 len + 4 + len (2 * 2^spin + 1)] further steps, however the others interfere;
    it is then idle or still committing, and while it is committing its next step is
    enabled. *)
Theorem commit_wait_free spin_bound db sched s tr id t sched' s' tr' :
  0 <= spin_bound ->
  run spin_bound sched (init db) = Some (s, tr) -> threads s !! id = Some t -> th_pc t = Phase1 0 ->
  run spin_bound sched' s = Some (s', tr') -> Forall (no_new_body id) sched' ->
  Forall ids_ok (sched ++ sched') -> Z.of_nat (length (sched ++ sched')) < 2 ^ 52 ->
  let len := Z.of_nat (length (tset (txn t))) in
  own_steps id sched' <= 5 * len + 4 + len * (2 * 2 ^ spin_bound + 1) /\
  exists t', threads s' !! id = Some t' /\
    (th_pc t' = Idle \/ committing t' /\ is_Some (step spin_bound (Step id) s')).
Proof.
  intros Hsb H Ht Hpc H' Hn Hok HN len.
  apply Forall_app in Hok as [Hok Hok']. rewrite length_app in HN.
  destruct (inv_reachable spin_bound db sched s tr H Hok) as [g I]; [lia|].
  destruct (inv_run_all spin_bound db sched' _ _ _ _ _ _ I HN Hok' H') as [g' I'].
  destruct (rank_run spin_bound Hsb id sched' s s' tr' t) as [Hr (t' & Ht' & C)]; try done.
  - left. unfold committing. by rewrite Hpc.
  - unfold spinning. by rewrite Hpc.
  - split.
    + unfold rank in Hr. rewrite Hpc, Nat.sub_0_r in Hr. unfold spins in Hr. by rewrite Z.shiftl_1_l in Hr.
    + exists t'. split; [done|]. destruct C as [C|C]; [right|by left]. split; [done|].
      eapply step_enabled; [exact I'|done|]. unfold committing in C. by destruct (th_pc t').
Qed.

(** Thread 2 of the demonstration enters [try_commit] at step 9, and thread 1
    runs beside it. *)
Lemma commit_wait_free_witness : exists t : thread,
  threads (default (init demo_db, []) (run 3 (take 9 demo_sched) (init demo_db))).1 !! 2 = Some t /\
  own_steps 2 (drop 9 (take 30 demo_sched)) <= 26.
Proof.
  set (mid := default (init demo_db, []) (run 3 (take 9 demo_sched) (init demo_db))).
  set (fin := default (init demo_db, []) (run 3 (drop 9 (take 30 demo_sched)) mid.1)).
  assert (exists t, threads mid.1 !! 2 = Some t /\ th_pc t = Phase1 0 /\ length (tset (txn t)) = 1%nat) as (t & Ht & Hpc & Hl).
  { eexists. vm_compute. split; [reflexivity|]. split; reflexivity. }
  exists t. split; [exact Ht|].
  destruct (commit_wait_free 3 demo_db (take 9 demo_sched) mid.1 mid.2 2 t (drop 9 (take 30 demo_sched)) fin.1 fin.2)
    as [H _]; [done|vm_compute; reflexivity|exact Ht|exact Hpc|vm_compute; reflexivity| | |vm_compute; reflexivity|].
  - vm_compute. repeat (constructor; [done|]). constructor.
  - apply Forall_app. split; [apply Forall_take|apply Forall_drop, Forall_take]; apply demo_ids.
  - rewrite Hl in H. exact H.
Defined.
