(* ===== verification/Client.v ===== *)
(** The client side of the wire: [Clients/NetTx/NicTxn/nictxn_as_client.cpp]
    with the parts of [nictxn_rpc.cpp], [rdma_rpc/rpc/rpc_util.cpp],
    [rdma_rpc/rpc/include/rpc_struct.h] and [tx_rpc.cpp] it uses.

    A client thread owns [SLOT_NUM] transactions.  Transaction [i] sends its
    request from data slot [i] of the connection to the server's data slot [i]
    and the 68 bytes of metadata to the card, in one chain of two RDMA writes;
    it then polls the [rpc_id] word of its own reply slot [i].

    libibverbs is a parameter, as in [Reply]; here a post is a chain of
    requests. *)

From S2P Require Import Prelude Memory Config RpcCommon RpcConnect Reply.

(** * Build flags of the clients (script/*.sh) *)

Class ClientConfig := {
  SPNIC2 : bool;       (* no metadata to the card *)
  SPNICXX : bool;
  YCSBHOT : bool;
  ZIPFTPCC : bool;
  TWOPHASE : bool;     (* new orders only *)
  YCSBWRITE : Z;
  NEWORDERP : Z;
  RPCSIZE : Z;
  scale_factor : Z;    (* CROSSNNNN *)
}.

Definition BatchPollSend : Z := 32.
Definition BatchSignalSend : Z := 32.
Definition COL_WIDTH : Z := 384.

(** [RPCTYPE::JUST_COMMIT] *)
Definition JUST_COMMIT : Z := 67.

(** * State *)

(** [switch_tx] and [nictxn_tx]: the members the client loops use.  [my_ctx],
    [ycsb_ctx], [args], [feature] and [write_bits_addr] are the addresses of the
    buffers and array members that a request is gathered from. *)
Record switch_tx := {
  tx_id : Z; tx_magic : Z; is_busy : bool; is_retry : bool; retry_count : Z;
  single_node_id : Z; single_rpc_id : Z; now_phase : Z; tpcc_latency_type : Z;
  ycsb_count : Z; nic : Z; warehouse_id : Z; ctx_offset : Z; w_offset : Z;
  x_rand : Z; y_rand : Z; z_rand : Z; w_rand : Z;
  my_ctx : Z; ycsb_ctx : Z; args : Z; feature : Z; write_bits_addr : Z }.

#[export] Instance eta_switch_tx : Eta switch_tx := fun t => {|
  tx_id := tx_id t; tx_magic := tx_magic t; is_busy := is_busy t; is_retry := is_retry t;
  retry_count := retry_count t; single_node_id := single_node_id t; single_rpc_id := single_rpc_id t;
  now_phase := now_phase t; tpcc_latency_type := tpcc_latency_type t; ycsb_count := ycsb_count t;
  nic := nic t; warehouse_id := warehouse_id t; ctx_offset := ctx_offset t; w_offset := w_offset t;
  x_rand := x_rand t; y_rand := y_rand t; z_rand := z_rand t; w_rand := w_rand t;
  my_ctx := my_ctx t; ycsb_ctx := ycsb_ctx t; args := args t; feature := feature t;
  write_bits_addr := write_bits_addr t |}.

(** [nictxn_rpc] of a client thread with the memory it works on. *)
Record client := {
  cl_mem : memory; connect : gmap Z Connect; cl_signalNum : Z;
  rpcnum : gmap Z Z; idMapAddr : gmap (Z * Z) IdMapAddr; rpccount : Z;
  cl_node_id : Z; cl_thread_id : Z; message_Lkey : Z;
  my_tx : gmap Z switch_tx; test_count_client : Z; ok_count : Z;
  no_delivery_flag : gmap Z Z; strife_cqe : gmap Z Z;
  draws : Z                              (* random numbers drawn so far *) }.

#[export] Instance eta_client : Eta client := fun c => {|
  cl_mem := cl_mem c; connect := connect c; cl_signalNum := cl_signalNum c; rpcnum := rpcnum c;
  idMapAddr := idMapAddr c; rpccount := rpccount c; cl_node_id := cl_node_id c;
  cl_thread_id := cl_thread_id c; message_Lkey := message_Lkey c; my_tx := my_tx c;
  test_count_client := test_count_client c; ok_count := ok_count c;
  no_delivery_flag := no_delivery_flag c; strife_cqe := strife_cqe c; draws := draws c |}.

Definition set_tx (i : Z) (t : switch_tx) (c : client) : client := c <| my_tx := <[i := t]> (my_tx c) |>.
Definition set_peer (n : Z) (x : Connect) (c : client) : client := c <| connect := <[n := x]> (connect c) |>.

(** The array [req] that a request is gathered from, and [req[i]]. *)
Abbreviation reqs := (gmap Z reqPair).
Definition req_at (req : reqs) (i : Z) : reqPair := default {| rq_addr := 0; rq_size := 0 |} (req !! i).

(** * switch_tx *)

(** [if ((++magic) == 0) ++magic;] on a byte. *)
Definition next_magic (m : Z) : Z := let m := u8 (m + 1) in if m =? 0 then 1 else m.

Definition start (t : switch_tx) : switch_tx :=
  t <| is_busy := true |> <| tx_magic := next_magic (tx_magic t) |> <| ctx_offset := 0 |> <| w_offset := 0 |>.

Definition tx_ok (t : switch_tx) : switch_tx :=
  t <| retry_count := 0 |> <| is_busy := false |> <| tx_magic := next_magic (tx_magic t) |>
    <| is_retry := false |>.

Definition tx_fail (t : switch_tx) : switch_tx :=
  t <| is_busy := false |> <| tx_magic := next_magic (tx_magic t) |> <| is_retry := true |>.

Definition xorshift128 (t : switch_tx) : Z * switch_tx :=
  let s := Z.lxor (x_rand t) (u32 (Z.shiftl (x_rand t) 11)) in
  let w := Z.lxor (Z.lxor (Z.lxor (w_rand t) (Z.shiftr (w_rand t) 19)) s) (Z.shiftr s 8) in
  (w, t <| x_rand := y_rand t |> <| y_rand := z_rand t |> <| z_rand := w_rand t |> <| w_rand := w |>).

Section client.
Context {C : Config} {CC : ClientConfig} {W : Type}.

(** [ibv_post_send(qp, wr)] of a chain and its return value; [ibv_poll_cq]. *)
Context (ibv_post_send : Z -> list send_wr -> W -> Z * W)
        (ibv_poll_cq : bool -> Z -> W -> Z * list Z * W).

(** * Connections *)

(** The client branch of [nictxn_new_connect]; [mm] is the message pool. *)
Definition client_peer (n : NodeInfo) (mm remote_id : Z) (junk : Connect) : Connect :=
  (Connect_new junk)
    <| localBase := u64 (mm + u32 (message_size n * remote_id)) |>
    <| reply_addr := u64 (mm + u32 (message_size n * ni_server_num n)
                             + u32 (remote_id * message_size_rpc_reply n)) |>
    <| data_addr := u64 (mm + u32 ((message_size n + message_size_rpc_reply n) * ni_server_num n)
                            + u32 (remote_id * double_write_data_size n)) |>
    <| signal_num := 0 |>.

(** What the client publishes: only its reply buffer can be written. *)
Definition client_meta (x : Connect) (reply_rkey : Z) (m : ExchangeMeta) : ExchangeMeta :=
  m <| em_reply_rkey := reply_rkey |> <| em_reply_rAddr := reply_addr x |>
    <| em_rkey := 0 |> <| em_rAddr := 0 |> <| em_data_rkey := 0 |> <| em_data_rAddr := 0 |>.

Definition get_strife_reply_addr (x : Connect) (rid : Z) : Z :=
  u64 (reply_addr x + REPLY_LEN * SLOT_NUM + u32 (rid * 8)).

(** The clients' copy of [serialization] takes the head from [data_addr]. *)
Definition serialization (m : memory) (x : Connect) (id feature_addr : Z) : memory * Z * Z :=
  let addr := u64 (localBase x + id * SLOT_LEN) in
  let data_addr_i := u64 (data_addr x + id * DATA_LEN) in
  (serialize_slot m addr data_addr_i feature_addr, 4 + 64, addr).

(** * Completions *)

Definition client_complete (c : client) (id : Z) : option client :=
  let '(n, k) := if MAX_SERVER <=? id then (id - MAX_SERVER, 1) else (id, BatchPollSend) in
  x ← connect c !! n;
  Some (set_peer n (x <| sendnum := u64 (sendnum x - k) |> <| signal_num := u64 (signal_num x - 1) |>) c).

Fixpoint client_poll_loop (fuel : nat) (node : Z) (pollflag sync_op : bool) (poll_num : Z) (wc : list Z)
    (c : client) (w : W) : option (client * W * bool) :=
  match fuel with
  | O => None
  | S fuel' =>
      c ← foldl (fun c id => c ← c; client_complete c id) (Some c) wc;
      let c := c <| cl_signalNum := u64 (cl_signalNum c - poll_num) |> in
      x ← connect c !! node;
      if (sendnum x <? BatchPollSend) && pollflag then Some (c, w, true)
      else if (signal_num x =? 0) && sync_op then Some (c, w, true)
      else if (cl_signalNum c <? BatchSignalSend) && negb sync_op && negb pollflag then Some (c, w, true)
      else
        '(tmp, wc, w) ← pollWithCQN ibv_poll_cq fuel' false 1 w;
        if tmp =? -1 then Some (c, w, false)
        else client_poll_loop fuel' node pollflag sync_op 1 wc c w
  end.

(** [signalNum + 1 / 2] is [signalNum]. *)
Definition client_poll_signal (fuel : nat) (pollflag sync_op : bool) (node : Z) (c : client) (w : W)
    : option (client * W * bool) :=
  if pollflag || sync_op || (2 * BatchSignalSend <=? cl_signalNum c) then
    let poll_num := Z.min BatchSignalSend (u64 (cl_signalNum c + 1 / 2)) in
    '(tmp, wc, w) ← pollWithCQN ibv_poll_cq fuel false poll_num w;
    if tmp =? -1 then Some (c, w, false)
    else client_poll_loop fuel node pollflag sync_op poll_num wc c w
  else Some (c, w, true).

(** * Writes *)

Definition rdma_wr (source sz lkey wr_id dest rkey : Z) (signaled : bool) : send_wr :=
  (fillSgeWr source sz lkey) <| sw_wr_id := wr_id |> <| sw_remote_addr := dest |>
    <| sw_rkey := rkey |> <| sw_signaled := signaled |>.

(** Counts [n] new requests, [k] of them signalled. *)
Definition count_sends (n k node : Z) (x : Connect) (c : client) : Connect * client :=
  let x := x <| sendnum := u64 (sendnum x + n) |> <| signal_num := u64 (signal_num x + k) |> in
  (x, (set_peer node x c) <| cl_signalNum := u64 (cl_signalNum c + k) |>).

Definition rdmaWrite_client (fuel : nat) (node source sz dest rkey : Z) (c : client) (w : W)
    : option (client * W * bool) :=
  x ← connect c !! node;
  let wr := rdma_wr source sz (message_Lkey c) (u64 (node + MAX_SERVER)) dest rkey true in
  let '(x, c) := count_sends 1 1 node x c in
  let pollflag := 2 * BatchPollSend - 2 <=? sendnum x in
  let '(ret, w) := ibv_post_send (qp x) [wr] w in
  if negb (ret =? 0) then Some (c, w, false)
  else '(c, w, _) ← client_poll_signal fuel pollflag false node c w; Some (c, w, true).

Definition double_rdma_write (fuel : nat) (node source_d size_d source_m size_m : Z) (c : client) (w : W)
    : option (client * W * bool) :=
  x ← connect c !! node;
  let signaled := u64 (sendnum x + 2) =? BatchPollSend in
  let wr0 := rdma_wr source_d size_d (message_Lkey c) node (get_remote_data_addr x source_d)
               (remote_data_key x) false in
  let wr1 := rdma_wr source_m size_m (message_Lkey c) node (getRemoteAddr x source_m)
               (remoteRkey x) signaled in
  let '(x, c) := count_sends 2 (Z.b2z signaled) node x c in
  let pollflag := 2 * BatchPollSend - 2 <=? sendnum x in
  let '(ret, w) := ibv_post_send (qp x) [wr0; wr1] w in
  if negb (ret =? 0) then Some (c, w, false)
  else '(c, w, _) ← client_poll_signal fuel pollflag false node c w; Some (c, w, true).

(** * A request *)

(** The counter after the test that skips the id found in the slot. *)
Definition skip_same_id (num old : Z) : Z :=
  if (num mod IDMAPADDRSIZE =? old) || (num mod IDMAPADDRSIZE + NOTHING_DEBUG =? old)
  then (num + 1) mod IDMAPADDRSIZE else num.

(** The table of sizes: the memory and [location]. *)
Definition put_sizes (sendAddr n : Z) (req : reqs) (m : memory) (location : Z) : memory * Z :=
  for_range 0 n (fun i '(m, loc) =>
    (st 4 m (sendAddr + loc) (rq_size (req_at req i)), u32 (loc + sizeof_SIZETYPE))) (m, location).

Definition put_blocks (sendAddr n : Z) (req : reqs) (m : memory) (location : Z) : memory * Z :=
  for_range 0 n (fun i '(m, loc) =>
    let r := req_at req i in
    (if negb (rq_size r =? 0) then memcpy m (sendAddr + loc) (rq_addr r) (rq_size r) else m,
     u32 (loc + rq_size r))) (m, location).

(** The head's fields that are set before the blocks; [write_num] and
    [fpga_padding] keep what the slot holds. *)
Definition put_head (a : Z) (id : rpc_id_t) (req : reqs) (req_num txn_type tx hint : Z) (m : memory) : memory :=
  let m := st 2 m (a + 8) txn_type in
  let m := store_rpc_id m a id in
  let m := st 1 m (a + 13) tx in
  let m := st 1 m (a + 10) req_num in
  let m := if YCSBplusT then st 1 m (a + 11) (YCSBSIZE - rq_size (req_at req 3) / COL_WIDTH) else m in
  st 4 m (a + 24) hint.

(** The tail word toggles between 111 and 222. *)
Definition put_magic (a location : Z) (m : memory) : memory :=
  let tail_magic := a + location in
  let m := st 4 m tail_magic (if ld 4 m tail_magic =? 111 then 222 else 111) in
  let m := st 4 m (a + 16) location in
  st 4 m (a + 20) (ld 4 m tail_magic).

(** Everything [push_new_call_write] writes in the data slot; the memory and
    [location]. *)
Definition put_request (a : Z) (id : rpc_id_t) (req : reqs) (req_num txn_type tx hint : Z) (m : memory)
    : memory * Z :=
  let m := put_head a id req req_num txn_type tx hint m in
  let '(m, location) := put_sizes a req_num req m sizeof_ReqHead in
  let '(m, location) := put_blocks a req_num req m location in
  (put_magic a location m, location).

(** [None]: the [exit(-1)] on a full id table, a missing connection or
    transaction, or no fuel. *)
Definition push_new_call_write (fuel : nat) (node rpc_type : Z) (req : reqs) (req_num txn_type tx hint
    feature_addr : Z) (c : client) (w : W) : option (client * W * rpc_id_t) :=
  let slot := (node, (rpcnum c).[node] mod IDMAPADDRSIZE) in
  let old := default {| im_addr := 0; im_type := TEMPLATE_CALL; im_ctx := 0 |} (idMapAddr c !! slot) in
  if negb (im_addr old =? 0) then None
  else
    let c := c <| idMapAddr := <[slot := {| im_addr := 0; im_type := NO_REPLY; im_ctx := 0 |}]> (idMapAddr c) |> in
    x ← connect c !! node;
    let sendAddr := get_send_data_addr x tx in
    let num := skip_same_id (rpcnum c).[node] (rpc_id (rpcId (load_ReqHead (cl_mem c) sendAddr))) in
    let id := {| rpc_type := u8 rpc_type; my_nodeid := u8 (cl_node_id c); server_nodeid := u8 node;
                 thread_id := u8 (cl_thread_id c); rpc_id := num mod IDMAPADDRSIZE |} in
    t ← my_tx c !! tx;
    let c := (set_tx tx (t <| single_rpc_id := rpc_id id |>) c)
               <| rpcnum := <[node := (num + 1) mod IDMAPADDRSIZE]> (rpcnum c) |>
               <| rpccount := u64 (rpccount c + 1) |> in
    let '(m, location) := put_request sendAddr id req req_num txn_type tx hint (cl_mem c) in
    let '(m, metadata_size, metadata_addr) := serialization m x tx feature_addr in
    let c := c <| cl_mem := m |> in
    '(c, w, _) ← (if SPNIC2
      then rdmaWrite_client fuel node sendAddr (location + 4) (get_remote_data_addr x sendAddr)
             (remote_data_key x) c w
      else double_rdma_write fuel node sendAddr (location + 4) metadata_addr metadata_size c w);
    Some (c, w, id).

(** * Completion of a transaction *)

(** [throughput_c] without its timers and reports. *)
Definition throughput_c (i : Z) (c : client) : option client :=
  t ← my_tx c !! i;
  Some (set_tx i (tx_ok t) (c <| ok_count := u64 (ok_count c + 1) |>)).

Definition delivery_reply_ok (rid : Z) (c : client) : bool :=
  negb ((no_delivery_flag c).[rid mod IDMAPADDRSIZE] =? 0).

Definition update_reply_flag (rid server : Z) (c : client) : option (bool * client) :=
  x ← connect c !! server;
  let reply := ld 8 (cl_mem c) (get_strife_reply_addr x rid) in
  if reply =? u64 ((strife_cqe c).[rid] + 11)
  then Some (true, c <| strife_cqe := <[rid := u64 ((strife_cqe c).[rid] + 11)]> (strife_cqe c) |>)
  else Some (false, c).

End client.
