(* ===== verification/ClientProps.v ===== *)
(** The client's requests: what [push_new_call_write] puts in the slot is what
    the server's scheduler and workers read after the RDMA write. *)

From S2P Require Import Prelude Memory Config RpcCommon RpcConnect Msg Central Reply Client.

#[local] Set Default Proof Using "Type*".

(** * The layout of a request *)

Definition req_size (req : reqs) (i : Z) : Z := rq_size (req_at req i).

(** Offset of block [i] of a request with [n] blocks. *)
Definition block_off (req : reqs) (n i : Z) : Z :=
  28 + 4 * n + sumZ (req_size req) (seqZ 0 i).

(** The blocks have 32-bit sizes, and the whole fits in 32 bits. *)
Definition req_ok (req : reqs) (n : Z) : Prop :=
  0 <= n < 256 /\ (forall i, 0 <= i < n -> uint 32 (req_size req i)) /\ block_off req n n + 4 < 2 ^ 32.

(** No block is gathered from the [len] bytes at [a]. *)
Definition req_outside (req : reqs) (n a len : Z) : Prop :=
  forall i, 0 <= i < n -> let r := req_at req i in
  rq_addr r + rq_size r <= a \/ a + len <= rq_addr r.

Section layout.
Context (req : reqs) (n : Z) (OK : req_ok req n).

Lemma block_off_0 : block_off req n 0 = 28 + 4 * n.
Proof. unfold block_off. rewrite seqZ_nil by lia. cbn. lia. Qed.

Lemma block_off_S i : 0 <= i -> block_off req n (i + 1) = block_off req n i + req_size req i.
Proof. intros. unfold block_off. rewrite sumZ_seqZ_snoc by done. lia. Qed.

Lemma block_off_mono i j : 0 <= i <= j -> j <= n -> block_off req n i <= block_off req n j.
Proof.
  destruct OK as (_ & HS & _). intros [Hi Hij]. pattern j. apply (Zlt_lower_bound_ind _ i); [|done].
  intros x IH Hx Hxn. destruct (decide (x = i)) as [->|]; [done|].
  specialize (IH (x - 1) ltac:(lia) ltac:(lia)). replace x with (x - 1 + 1) by lia.
  rewrite block_off_S by lia. specialize (HS (x - 1) ltac:(lia)). unfold uint in HS. lia.
Qed.

Lemma block_off_bounds i : 0 <= i <= n -> 28 + 4 * n <= block_off req n i <= block_off req n n.
Proof.
  intros Hi. pose proof (block_off_mono 0 i ltac:(lia) ltac:(lia)) as H. rewrite block_off_0 in H.
  pose proof (block_off_mono i n ltac:(lia) ltac:(lia)). lia.
Qed.

(** ** The two loops *)

Lemma put_sizes_spec a m :
  let '(m', loc) := put_sizes a n req m sizeof_ReqHead in
  loc = 28 + 4 * n /\
  (forall i, 0 <= i < n -> ld 4 m' (a + 28 + 4 * i) = req_size req i) /\
  (forall x, x < a + 28 \/ a + 28 + 4 * n <= x -> byte m' x = byte m x).
Proof.
  destruct OK as (Hn & HS & _). unfold put_sizes, sizeof_ReqHead, sizeof_SIZETYPE.
  apply (for_range_ind (fun k (r : memory * Z) => let '(m', loc) := r in loc = 28 + 4 * k /\
    (forall i, 0 <= i < k -> ld 4 m' (a + 28 + 4 * i) = req_size req i) /\
    (forall x, x < a + 28 \/ a + 28 + 4 * k <= x -> byte m' x = byte m x))); [lia| |].
  - split_and!; [lia|lia|done].
  - intros k [m' loc] Hk (-> & H1 & H2). split_and!.
    + rewrite wrap_small by range. lia.
    + intros i Hi. destruct (decide (i = k)) as [->|].
      * replace (a + (28 + 4 * k)) with (a + 28 + 4 * k) by lia. rewrite ld32_st32.
        apply wrap_small. apply HS. lia.
      * rewrite ld_st_ne by lia. apply H1. lia.
    + intros x Hx. rewrite byte_st by lia. apply H2. lia.
Qed.

Lemma put_blocks_spec a m :
  req_outside req n a (block_off req n n) ->
  let '(m', loc) := put_blocks a n req m (28 + 4 * n) in
  loc = block_off req n n /\
  (forall i k, 0 <= i < n -> 0 <= k < req_size req i ->
     byte m' (a + block_off req n i + k) = byte m (rq_addr (req_at req i) + k)) /\
  (forall x, x < a + 28 + 4 * n \/ a + block_off req n n <= x -> byte m' x = byte m x).
Proof.
  pose proof OK as (Hn & HS & HT). intros HO. unfold put_blocks. rewrite <-block_off_0.
  pose proof (for_range_ind (fun j (r : memory * Z) => let '(m', loc) := r in loc = block_off req n j /\
    (forall i k, 0 <= i < j -> 0 <= k < req_size req i ->
       byte m' (a + block_off req n i + k) = byte m (rq_addr (req_at req i) + k)) /\
    (forall x, x < a + 28 + 4 * n \/ a + block_off req n j <= x -> byte m' x = byte m x)) 0 n) as I.
  apply I; clear I; [lia|split_and!; [done|lia|done]|].
  intros j [m' loc] Hj (-> & H1 & H2). pose proof (block_off_bounds j ltac:(lia)) as B1.
  pose proof (block_off_bounds (j + 1) ltac:(lia)) as B2. rewrite block_off_S in B2 |- * by lia.
  pose proof (HS j Hj) as Hs. unfold uint in Hs. unfold req_size in B2, Hs |- *. set (r := req_at req j) in *.
  assert (E : forall x, byte (if negb (rq_size r =? 0) then memcpy m' (a + block_off req n j) (rq_addr r)
      (rq_size r) else m') x = if (a + block_off req n j <=? x) && (x <? a + block_off req n j + rq_size r)
      then byte m' (rq_addr r + (x - (a + block_off req n j))) else byte m' x).
  { intros x. destruct (Z.eqb_spec (rq_size r) 0) as [->|]; cbn [negb]; [|apply byte_copy; lia].
    destruct (Z.leb_spec (a + block_off req n j) x), (Z.ltb_spec x (a + block_off req n j + 0)); (done || lia). }
  split_and!.
  - apply wrap_small. range.
  - intros i k Hi Hk. rewrite E. destruct (decide (i = j)) as [->|].
    + unfold req_size in Hk. fold r in Hk. destruct (Z.leb_spec (a + block_off req n j) (a + block_off req n j + k)),
        (Z.ltb_spec (a + block_off req n j + k) (a + block_off req n j + rq_size r)); try lia.
      cbn [andb]. fold r. replace (a + block_off req n j + k - (a + block_off req n j)) with k by lia.
      apply H2. specialize (HO j Hj). fold r in HO. cbv zeta in HO. lia.
    + pose proof (block_off_mono (i + 1) j ltac:(lia) ltac:(lia)) as B3. rewrite block_off_S in B3 by lia.
      unfold req_size in B3. destruct (Z.leb_spec (a + block_off req n j) (a + block_off req n i + k)); [lia|].
      cbn [andb]. apply H1; [lia|done].
  - intros x Hx. rewrite E. destruct (Z.leb_spec (a + block_off req n j) x),
      (Z.ltb_spec x (a + block_off req n j + rq_size r)); cbn [andb]; try lia; apply H2; lia.
Qed.
End layout.

(** * The slot after [put_request] *)

Definition toggled (v : Z) : Z := if v =? 111 then 222 else 111.

Section request.
Context {C : Config} (a : Z) (id : rpc_id_t) (req : reqs) (n txn_type tx hint : Z) (m : memory).
Context (OK : req_ok req n) (HO : req_outside req n a (block_off req n n)) (HI : rpc_id_ok id).

(** The head a request has; two bytes keep what the slot held. *)
Definition sent_head : ReqHead := {|
  rpcId := id; read_name := u16 txn_type; req_num := n;
  read_num := if YCSBplusT then u8 (YCSBSIZE - req_size req 3 / COL_WIDTH) else byte m (a + 11);
  write_num := byte m (a + 12); TXID := u8 tx; fpga_padding := ld 2 m (a + 14);
  size := block_off req n n; magic := toggled (ld 4 m (a + block_off req n n));
  partition_hint := u32 hint |}.

Lemma put_head_out x :
  x < a \/ a + 28 <= x -> byte (put_head a id req n txn_type tx hint m) x = byte m x.
Proof.
  intros Hx. unfold put_head. destruct YCSBplusT; rewrite !byte_st by lia;
    rewrite byte_store_rpc_id by lia; by rewrite byte_st by lia.
Qed.

(** The head when the size and the magic number [g] have been stored over it. *)
Lemma put_head_load m' sz g :
  (forall x, a <= x < a + 28 -> byte m' x = byte (put_head a id req n txn_type tx hint m) x) ->
  load_ReqHead (st 4 (st 4 m' (a + 16) sz) (a + 20) g) a = {|
    rpcId := id; read_name := u16 txn_type; req_num := n;
    read_num := if YCSBplusT then u8 (YCSBSIZE - req_size req 3 / COL_WIDTH) else byte m (a + 11);
    write_num := byte m (a + 12); TXID := u8 tx; fpga_padding := ld 2 m (a + 14);
    size := u32 sz; magic := u32 g; partition_hint := u32 hint |}.
Proof.
  intros HM. destruct OK as (Hn & _). set (m2 := st 4 (st 4 m' (a + 16) sz) (a + 20) g).
  set (h := put_head a id req n txn_type tx hint m) in *.
  assert (O : forall x, a <= x < a + 28 -> x < a + 16 \/ a + 24 <= x -> byte m2 x = byte h x).
  { intros x Hx Hx'. unfold m2. rewrite !byte_st by lia. by apply HM. }
  assert (R : load_rpc_id m2 a = id).
  { rewrite (load_rpc_id_ext m2 (store_rpc_id (st 2 m (a + 8) txn_type) a id)).
    - by apply load_store_rpc_id.
    - intros x Hx. rewrite O by lia. unfold h, put_head. destruct YCSBplusT; by rewrite !byte_st by lia. }
  unfold load_ReqHead. rewrite R.
  assert (L : forall k y, a <= y -> y + Z.of_nat k <= a + 16 \/ a + 24 <= y -> y + Z.of_nat k <= a + 28 ->
    ld k m2 y = ld k h y) by (intros k y ? ? ?; apply ld_ext; intros x Hx; apply O; lia).
  rewrite !(O (a + 10)), !(O (a + 11)), !(O (a + 12)), !(O (a + 13)) by lia.
  rewrite !(L 2%nat), (L 4%nat (a + 24)) by lia.
  assert (ld 4 m2 (a + 16) = u32 sz) as -> by (unfold m2; mem_simpl; done).
  assert (ld 4 m2 (a + 20) = u32 g) as -> by (unfold m2; mem_simpl; done).
  assert (P : forall k y, y + Z.of_nat k <= a \/ a + 8 <= y ->
    ld k (store_rpc_id (st 2 m (a + 8) txn_type) a id) y = ld k (st 2 m (a + 8) txn_type) y)
    by (intros; apply ld_ext; intros; apply byte_store_rpc_id; lia).
  unfold h, put_head, req_size. destruct YCSBplusT; mem_simpl; rewrite ?byte_store_rpc_id, ?P by lia; mem_simpl;
    rewrite (wrap_small 8 n) by range; done.
Qed.

Lemma put_request_spec :
  let '(m', loc) := put_request a id req n txn_type tx hint m in
  loc = block_off req n n /\ load_ReqHead m' a = sent_head /\ ld 4 m' (a + loc) = magic sent_head /\
  (forall i, 0 <= i < n -> block_size m' a i = req_size req i) /\
  (forall i k, 0 <= i < n -> 0 <= k < req_size req i ->
     byte m' (a + block_off req n i + k) = byte m (rq_addr (req_at req i) + k)) /\
  (forall x, x < a \/ a + loc + 4 <= x -> byte m' x = byte m x).
Proof.
  pose proof OK as (Hn & HS & HT). unfold put_request.
  pose proof put_head_out as H0. pose proof put_head_load as HL.
  set (m0 := put_head a id req n txn_type tx hint m) in *.
  pose proof (put_sizes_spec req n OK a m0) as H1. destruct (put_sizes a n req m0 sizeof_ReqHead) as [m1 l1].
  destruct H1 as (-> & S1 & O1). pose proof (put_blocks_spec req n OK a m1 HO) as H2.
  destruct (put_blocks a n req m1 (28 + 4 * n)) as [m2 loc]. destruct H2 as (-> & S2 & O2).
  pose proof (block_off_bounds req n OK n ltac:(lia)) as HB. set (T := block_off req n n) in *.
  assert (E0 : forall x, a + T <= x -> byte m2 x = byte m x)
    by (intros x Hx; rewrite O2, O1, H0 by lia; done).
  assert (ET : ld 4 m2 (a + T) = ld 4 m (a + T)) by (apply ld_ext; intros; apply E0; lia).
  unfold put_magic. rewrite ET. fold (toggled (ld 4 m (a + T))). set (g := toggled (ld 4 m (a + T))).
  set (m3 := st 4 m2 (a + T) g).
  assert (Hg : uint 32 g) by (unfold g, toggled, uint; destruct (_ =? _); lia).
  assert (G : ld 4 (st 4 m3 (a + 16) T) (a + T) = g)
    by (unfold m3; mem_simpl; by apply wrap_small).
  rewrite G. set (m4 := st 4 (st 4 m3 (a + 16) T) (a + 20) g).
  assert (E4 : forall x, a + 28 <= x -> x < a + T -> byte m4 x = byte m2 x)
    by (intros x ? ?; unfold m4, m3; by rewrite !byte_st by lia).
  split_and!; [done| | | | |].
  - unfold m4. rewrite HL.
    + unfold sent_head. fold T g. rewrite (wrap_small 32 T), (wrap_small 32 g) by range. done.
    + intros x Hx. unfold m3. rewrite byte_st, O2, O1 by lia. done.
  - unfold m4. rewrite ld_st_ne by lia. exact G.
  - intros i Hi. unfold block_size. rewrite <-S1 by done. apply ld_ext. intros x Hx.
    rewrite E4 by lia. apply O2. lia.
  - intros i k Hi Hk. pose proof (block_off_bounds req n OK i ltac:(lia)).
    pose proof (block_off_bounds req n OK (i + 1) ltac:(lia)) as B. rewrite block_off_S in B by (done || lia).
    fold T in B. rewrite E4, S2 by lia.
    specialize (HO i Hi). cbv zeta in HO. unfold req_size in *. fold T in HO. rewrite O1, H0 by lia. done.
  - intros x Hx. unfold m4, m3. rewrite !byte_st by lia.
    destruct Hx; [rewrite O2, O1, H0 by lia; done|apply E0; lia].
Qed.
End request.
