(* ===== verification/ClientSend.v ===== *)
(** The client's send queue: the accounting of [double_rdma_write] (one signalled
    request in sixteen pairs) and of [rdmaWrite_client] (every request
    signalled) keeps the queue pair below its depth, and every poll ends. *)

From S2P Require Import Prelude Memory Config RpcCommon RpcConnect Reply ReplyProps Client.

#[local] Set Default Proof Using "Type*".

(** ** Chains *)

(** [ibv_post_send] of a chain takes its requests in order and stops at the
    first one that fails. *)
Fixpoint post_chain {W} `{!Verbs W} (q : Z) (l : list send_wr) (w : W) : Z * W :=
  match l with
  | [] => (0, w)
  | x :: l => let '(ret, w) := ibv_post_send q x w in
              if negb (ret =? 0) then (ret, w) else post_chain q l w
  end.

Definition signals (l : list send_wr) : list Z := sw_wr_id <$> filter (fun x => sw_signaled x) l.

Section send.
Context {C : Config} {W : Type} `{!Verbs W, !VerbsLaws W}.

Lemma post_chain_spec q l (w : W) :
  qp_dual q = false ->
  (post_chain q l w).1 = 0 /\
  pending false (post_chain q l w).2 = pending false w ++ signals l /\
  posted (post_chain q l w).2 = posted w ++ (pair q <$> l).
Proof.
  intros Hq. revert w. induction l as [|x l IH]; intros w; cbn [post_chain].
  { cbn. by rewrite !app_nil_r. }
  pose proof (post_ok q x w) as E1. pose proof (post_pending false q x w) as E2.
  pose proof (post_posted q x w) as E3. destruct (ibv_post_send q x w) as [ret w1]. cbn [fst snd] in *.
  subst ret. cbn [negb Z.eqb]. destruct (IH w1) as (H1 & H2 & H3). split; [done|].
  rewrite H2, H3, E2, E3. unfold signals. rewrite Hq, bool_decide_eq_true_2 by done. cbn [andb fmap list_fmap].
  destruct (sw_signaled x) eqn:Ex.
  - rewrite filter_cons_True by by rewrite Ex. cbn [fmap list_fmap]. by rewrite <-!(assoc_L (++)).
  - rewrite filter_cons_False by (rewrite Ex; tauto). by rewrite <-!(assoc_L (++)).
Qed.

(** ** The invariant *)

(** [sendnum] counts the requests of connection [node] since the last polled
    completion; in the builds that write to the card a completion is due once
    [BatchPollSend] of them were posted, in the others one is due for each. *)
Definition due (spnic2 : bool) (node n : Z) : list Z :=
  if spnic2 then replicate (Z.to_nat n) (node + MAX_SERVER)
  else if BatchPollSend <=? n then [node] else [].

Record send_acct (spnic2 : bool) (node lim : Z) (x : Connect) (c : client) (w : W) : Prop := {
  sa_conn : connect c !! node = Some x;
  sa_node : 0 <= node < MAX_SERVER;
  sa_qp : qp_dual (qp x) = false;
  sa_num : 0 <= sendnum x <= lim;
  sa_even : spnic2 = false -> sendnum x mod 2 = 0;
  sa_pending : pending false w ≡ₚ due spnic2 node (sendnum x);
  sa_signal : signal_num x = Z.of_nat (length (pending false w));
  sa_context : cl_signalNum c = Z.of_nat (length (pending false w)) }.

(** [c'] is [c] up to the counters of connection [node]. *)
Definition same_client (node : Z) (c c' : client) : Prop :=
  exists x n k s, connect c !! node = Some x /\
    c' = (set_peer node (x <| sendnum := n |> <| signal_num := k |>) c) <| cl_signalNum := s |>.

Lemma complete_many node id k p (m : nat) x c :
  connect c !! node = Some x -> (if MAX_SERVER <=? id then (id - MAX_SERVER, 1) else (id, BatchPollSend)) = (node, k) ->
  0 <= k -> k * Z.of_nat m <= sendnum x < 2 ^ 63 -> Z.of_nat m <= signal_num x < 2 ^ 63 -> p = Z.of_nat m ->
  foldl (fun c id => c ← c; client_complete c id) (Some c) (replicate m id)
  = Some (set_peer node (x <| sendnum := sendnum x - k * p |> <| signal_num := signal_num x - p |>) c).
Proof.
  intros Hx Hid Hk. revert p x c Hx. induction m as [|m IH]; intros p x c Hx H1 H2 ->; cbn [replicate foldl].
  { f_equal. rewrite Z.mul_0_r, !Z.sub_0_r. destruct x, c. unfold set_peer. cbn in *. f_equal.
    by rewrite insert_id. }
  cbn [mbind option_bind]. unfold client_complete at 2. rewrite Hid, Hx. cbn [mbind option_bind].
  rewrite !wrap_small by (unfold uint; nia).
  rewrite (IH (Z.of_nat m) (x <| sendnum := sendnum x - k |> <| signal_num := signal_num x - 1 |>)).
  - f_equal. unfold set_peer. cbn. rewrite insert_insert_eq. do 2 f_equal. f_equal; nia.
  - apply lookup_insert_eq.
  - cbn. nia.
  - cbn. lia.
  - done.
Qed.

(** Polling [n] of [p] completions that are all due for the same [wr_id]. *)
Lemma poll_same id (p n : nat) (w : W) :
  pending false w ≡ₚ replicate p id -> (0 < n <= p)%nat ->
  exists k w', (forall fuel, (k <= fuel)%nat ->
      pollWithCQN ibv_poll_cq fuel false (Z.of_nat n) w = Some (0, replicate n id, w')) /\
    pending false w' ≡ₚ replicate (p - n) id /\ posted w' = posted w.
Proof.
  intros HP Hn. pose proof (Permutation_length HP) as HL. rewrite length_replicate in HL.
  destruct (poll_entries_all false (Z.of_nat n) w []) as (k & ids & w' & E & Ln & P1 & _ & P3); [lia|cbn; lia|].
  cbn [app] in E, Ln. rewrite HP in P1. apply replicate_Permutation in P1.
  assert (ids = replicate n id /\ pending false w' = replicate (p - n) id) as [-> E2].
  { replace p with (n + (p - n))%nat in P1 by lia. rewrite replicate_add in P1.
    apply app_inj_1 in P1; [naive_solver|]. rewrite length_replicate. lia. }
  exists k, w'. split_and!; [|by rewrite E2|done]. intros fuel Hf. unfold pollWithCQN.
  destruct (Z.eqb_spec (Z.of_nat n) 0); [lia|]. by apply E.
Qed.

Definition poll_id (spnic2 : bool) (node : Z) : Z := if spnic2 then node + MAX_SERVER else node.

(** The parameters of the poll of a full queue: [p] completions are due, [n] are
    polled, each gives back [k] requests. *)
Lemma due_full spnic2 node :
  0 <= node < MAX_SERVER ->
  exists (p n : nat) k, due spnic2 node 62 = replicate p (poll_id spnic2 node) /\
    due spnic2 node 30 = replicate (p - n) (poll_id spnic2 node) /\
    Z.of_nat n = Z.min BatchSignalSend (Z.of_nat p) /\ (0 < n <= p)%nat /\ (p <= 62)%nat /\
    0 <= k /\ k * Z.of_nat n = 32 /\
    (if MAX_SERVER <=? poll_id spnic2 node then (poll_id spnic2 node - MAX_SERVER, 1)
     else (poll_id spnic2 node, BatchPollSend)) = (node, k).
Proof.
  intros Hnode. unfold due, poll_id, MAX_SERVER, KEY2NODE_MOD, MAX_CLIENT in *. destruct spnic2.
  - exists 62%nat, 32%nat, 1. split_and!; try done; try lia.
    destruct (Z.leb_spec (1 + 2) (node + (1 + 2))); [f_equal; lia|lia].
  - exists 1%nat, 1%nat, 32. split_and!; try done; try lia.
    destruct (Z.leb_spec (1 + 2) node); [lia|done].
Qed.

Lemma poll_full spnic2 node x c (w : W) :
  send_acct spnic2 node 62 x c w -> sendnum x = 62 ->
  exists k x' c' w', (forall fuel, (k <= fuel)%nat ->
      client_poll_signal ibv_poll_cq fuel true false node c w = Some (c', w', true)) /\
    send_acct spnic2 node 61 x' c' w' /\ same_client node c c' /\ posted w' = posted w.
Proof.
  intros H Hx. destruct (due_full spnic2 node (sa_node _ _ _ _ _ _ H)) as (p & n & k & D1 & D2 & Hn & Hnp & Hp & Hk & Hkn & Hid).
  pose proof (sa_pending _ _ _ _ _ _ H) as HP. rewrite Hx, D1 in HP.
  pose proof (Permutation_length HP) as HL. rewrite length_replicate in HL.
  destruct (poll_same _ p n w HP Hnp) as (f & w' & E & HP' & Hw).
  pose proof (complete_many node (poll_id spnic2 node) k (Z.of_nat n) n x c (sa_conn _ _ _ _ _ _ H) Hid Hk) as HC.
  rewrite (sa_signal _ _ _ _ _ _ H), HL, Hx, Hkn in HC.
  specialize (HC ltac:(lia) ltac:(lia) eq_refl).
  set (x' := x <| sendnum := 62 - 32 |> <| signal_num := Z.of_nat p - Z.of_nat n |>) in *.
  exists (S f), x', ((set_peer node x' c) <| cl_signalNum := Z.of_nat p - Z.of_nat n |>), w'.
  pose proof (Permutation_length HP') as HL'. rewrite length_replicate in HL'.
  split_and!; [| | |done].
  - intros fuel Hf. unfold client_poll_signal. cbn [orb]. change (1 / 2) with 0.
    rewrite Z.add_0_r, (sa_context _ _ _ _ _ _ H), HL, (wrap_small 64 (Z.of_nat p)) by (unfold uint; lia).
    rewrite <-Hn, E by lia. cbn [mbind option_bind]. change (0 =? -1) with false. cbn iota.
    destruct fuel as [|fuel]; [lia|]. cbn [client_poll_loop]. rewrite HC. cbn [mbind option_bind].
    change (cl_signalNum (set_peer node x' c)) with (cl_signalNum c).
    rewrite (sa_context _ _ _ _ _ _ H), HL, wrap_small by (unfold uint; lia).
    change (connect _ !! node) with (<[node := x']> (connect c) !! node). rewrite lookup_insert_eq.
    cbn [mbind option_bind]. done.
  - split; [apply lookup_insert_eq|apply H..| | | | |]; try done.
    + by rewrite HP', <-D2.
    + change (signal_num x') with (Z.of_nat p - Z.of_nat n). lia.
    + change (Z.of_nat p - Z.of_nat n = Z.of_nat (length (pending false w'))). lia.
  - exists x, (62 - 32), (Z.of_nat p - Z.of_nat n), (Z.of_nat p - Z.of_nat n).
    split; [apply H|done].
Qed.

(** ** One post *)

(** A post of [n] requests of which the completions [sig] become due. *)
Lemma post_acct' spnic2 node x c (w : W) n l :
  send_acct spnic2 node 61 x c w -> 0 <= n <= 2 -> sendnum x + n <= 62 ->
  (spnic2 = false -> n mod 2 = 0) ->
  due spnic2 node (sendnum x + n) = due spnic2 node (sendnum x) ++ signals l ->
  let '(x', c') := count_sends n (Z.of_nat (length (signals l))) node x c in
  send_acct spnic2 node 62 x' c' (post_chain (qp x') l w).2 /\ sendnum x' = sendnum x + n /\ qp x' = qp x /\
  same_client node c c'.
Proof.
  intros H Hn Hlim Hev HD. destruct H as [Hc Hnode Hq Hnum Heven HP HS HX]. unfold count_sends.
  assert (length (signals l) <= 62)%nat as Hl.
  { apply (f_equal length) in HD. rewrite length_app in HD. unfold due in HD. destruct spnic2.
    - rewrite !length_replicate in HD. lia.
    - destruct (_ <=? _) in HD; cbn in HD; lia. }
  assert (length (pending false w) <= 62)%nat as Hp.
  { rewrite HP. unfold due. destruct spnic2; [rewrite length_replicate; lia|]. destruct (_ <=? _); cbn; lia. }
  cbn. rewrite !wrap_small by (unfold uint; lia).
  destruct (post_chain_spec (qp x) l w Hq) as (_ & PP & _).
  split_and!; try done.
  - split; cbn; rewrite ?PP, ?length_app; try done; try lia.
    + apply lookup_insert_eq.
    + intros E. rewrite Zplus_mod, Heven, Hev by done. done.
    + by rewrite HD, HP.
  - exists x, (sendnum x + n), (signal_num x + Z.of_nat (length (signals l))),
      (cl_signalNum c + Z.of_nat (length (signals l))). split; [done|]. by destruct x.
Qed.

Lemma pending_few' spnic2 node x c (w : W) :
  send_acct spnic2 node 62 x c w -> (length (pending false w) <= 62)%nat.
Proof.
  intros H. rewrite (sa_pending _ _ _ _ _ _ H). pose proof (sa_num _ _ _ _ _ _ H). unfold due.
  destruct spnic2; [rewrite length_replicate; lia|]. destruct (_ <=? _); cbn; lia.
Qed.

Lemma same_client_trans node c1 c2 c3 :
  same_client node c1 c2 -> same_client node c2 c3 -> same_client node c1 c3.
Proof.
  intros (x & n & k & s & Hx & ->) (x' & n' & k' & s' & Hx' & ->).
  change (<[node := x <| sendnum := n |> <| signal_num := k |>]> (connect c1) !! node = Some x') in Hx'.
  rewrite lookup_insert_eq in Hx'. injection Hx' as <-. exists x, n', k', s'. split; [done|].
  unfold set_peer. cbn. by rewrite insert_insert_eq.
Qed.

(** What follows the post: the poll when the queue is full. *)
Lemma after_post spnic2 node x c (w : W) :
  send_acct spnic2 node 62 x c w ->
  exists k x' c' w', (forall fuel, (k <= fuel)%nat ->
      client_poll_signal ibv_poll_cq fuel (62 <=? sendnum x) false node c w = Some (c', w', true)) /\
    send_acct spnic2 node 61 x' c' w' /\ same_client node c c' /\ posted w' = posted w.
Proof.
  intros H. pose proof (pending_few' _ _ _ _ _ H) as Hfew. pose proof (sa_num _ _ _ _ _ _ H) as Hnum.
  destruct (Z.leb_spec 62 (sendnum x)) as [E|E]; [apply poll_full with x; [done|lia]|].
  exists 0%nat, x, c, w. split_and!; [|destruct H; split; (done || lia)| |done].
  - intros fuel _. unfold client_poll_signal. cbn [orb]. rewrite (sa_context _ _ _ _ _ _ H).
    destruct (Z.leb_spec (2 * BatchSignalSend) (Z.of_nat (length (pending false w))));
      [unfold BatchSignalSend in *; lia|done].
  - exists x, (sendnum x), (signal_num x), (cl_signalNum c). split; [apply H|].
    pose proof (sa_conn _ _ _ _ _ _ H) as Hx. destruct x, c. unfold set_peer. cbn in *. by rewrite insert_id.
Qed.

Definition data_wr (x : Connect) (node source sz lkey : Z) : send_wr :=
  rdma_wr source sz lkey node (get_remote_data_addr x source) (remote_data_key x) false.
Definition meta_wr (x : Connect) (node source sz lkey : Z) (signaled : bool) : send_wr :=
  rdma_wr source sz lkey node (getRemoteAddr x source) (remoteRkey x) signaled.

Lemma double_write_spec node sd zd sm zm x c (w : W) :
  send_acct false node 61 x c w ->
  exists k b x' c' w', (forall fuel, (k <= fuel)%nat ->
      double_rdma_write post_chain ibv_poll_cq fuel node sd zd sm zm c w = Some (c', w', true)) /\
    send_acct false node 61 x' c' w' /\ same_client node c c' /\
    posted w' = posted w ++ [(qp x, data_wr x node sd zd (message_Lkey c));
                             (qp x, meta_wr x node sm zm (message_Lkey c) b)].
Proof.
  intros H. pose proof (sa_num _ _ _ _ _ _ H) as Hn. pose proof (sa_even _ _ _ _ _ _ H eq_refl) as He.
  assert (sendnum x <= 60) as Hn'.
  { destruct (decide (sendnum x = 61)) as [E|]; [rewrite E in He; discriminate He|lia]. }
  set (b := u64 (sendnum x + 2) =? BatchPollSend).
  assert (Hb : b = (sendnum x + 2 =? 32)) by (unfold b; rewrite wrap_small by (unfold uint; lia); done).
  set (l := [data_wr x node sd zd (message_Lkey c); meta_wr x node sm zm (message_Lkey c) b]).
  assert (Hl : signals l = if b then [node] else []) by (unfold l; by destruct b).
  pose proof (post_acct' false node x c w 2 l H ltac:(lia) ltac:(lia) ltac:(done)) as HA.
  assert (Z.of_nat (length (signals l)) = Z.b2z b) as El by (rewrite Hl; by destruct b). rewrite El in HA.
  destruct (count_sends 2 (Z.b2z b) node x c) as [x1 c1] eqn:EC.
  destruct HA as (HA & Hs & Hq & HS).
  { rewrite Hl, Hb. unfold due, BatchPollSend. destruct (Z.eqb_spec (sendnum x + 2) 32),
      (Z.leb_spec 32 (sendnum x + 2)), (Z.leb_spec 32 (sendnum x)); try lia; try done.
    assert (sendnum x = 31) as E31 by lia. rewrite E31 in He. discriminate He. }
  destruct (post_chain_spec (qp x1) l w (sa_qp _ _ _ _ _ _ HA)) as (P1 & _ & P3).
  destruct (after_post _ _ _ _ _ HA) as (k & x' & c' & w' & E & HA' & HS' & HW).
  exists k, b, x', c', w'. split_and!; [|done|by eapply same_client_trans|].
  - intros fuel Hf. unfold double_rdma_write. rewrite (sa_conn _ _ _ _ _ _ H). cbn [mbind option_bind].
    fold b. rewrite EC. fold (data_wr x node sd zd (message_Lkey c)).
    fold (meta_wr x node sm zm (message_Lkey c) b). fold l.
    destruct (post_chain (qp x1) l w) as [ret w1]. cbn [fst snd] in *. subst ret. cbn [negb Z.eqb].
    change (2 * BatchPollSend - 2) with 62. by rewrite E.
  - by rewrite HW, P3, Hq.
Qed.

Lemma single_write_spec node source sz dest rkey x c (w : W) :
  send_acct true node 61 x c w ->
  exists k x' c' w', (forall fuel, (k <= fuel)%nat ->
      rdmaWrite_client post_chain ibv_poll_cq fuel node source sz dest rkey c w = Some (c', w', true)) /\
    send_acct true node 61 x' c' w' /\ same_client node c c' /\
    posted w' = posted w ++ [(qp x, rdma_wr source sz (message_Lkey c) (node + MAX_SERVER) dest rkey true)].
Proof.
  intros H. pose proof (sa_num _ _ _ _ _ _ H) as Hn. pose proof (sa_node _ _ _ _ _ _ H) as Hnode.
  set (l := [rdma_wr source sz (message_Lkey c) (node + MAX_SERVER) dest rkey true]).
  pose proof (post_acct' true node x c w 1 l H ltac:(lia) ltac:(lia) ltac:(done)) as HA.
  change (Z.of_nat (length (signals l))) with 1 in HA.
  destruct (count_sends 1 1 node x c) as [x1 c1] eqn:EC. destruct HA as (HA & Hs & Hq & HS).
  { unfold due. replace (Z.to_nat (sendnum x + 1)) with (Z.to_nat (sendnum x) + 1)%nat by lia.
    rewrite replicate_add. reflexivity. }
  destruct (post_chain_spec (qp x1) l w (sa_qp _ _ _ _ _ _ HA)) as (P1 & _ & P3).
  destruct (after_post _ _ _ _ _ HA) as (k & x' & c' & w' & E & HA' & HS' & HW).
  exists k, x', c', w'. split_and!; [|done|by eapply same_client_trans|by rewrite HW, P3, Hq].
  intros fuel Hf. unfold rdmaWrite_client. rewrite (sa_conn _ _ _ _ _ _ H). cbn [mbind option_bind].
  rewrite (wrap_small 64 (node + MAX_SERVER))
    by (unfold MAX_SERVER, KEY2NODE_MOD, MAX_CLIENT, uint in *; lia).
  rewrite EC. fold l. destruct (post_chain (qp x1) l w) as [ret w1]. cbn [fst snd] in *. subst ret.
  cbn [negb Z.eqb]. change (2 * BatchPollSend - 2) with 62. by rewrite E.
Qed.
End send.
