(* ===== verification/ClientTransfer.v ===== *)
(** From the client's buffers to the server's: [push_new_call_write], the RDMA
    writes it posts, and what the scheduler, the workers and the card read; the
    metadata write and the card's next look at the slot. *)

From S2P Require Import Prelude Config Memory Fpga FpgaProps RpcCommon Msg RpcConnect Central Reply ReplyProps.
From S2P Require Import Client ClientProps ClientSend.

#[local] Set Default Proof Using "Type*".

(** The effect of an RDMA write on the memory of the other machine. *)
Definition rdma_deliver (src : memory) (x : send_wr) (dst : memory) : memory :=
  copy src dst (sw_remote_addr x) (sge_addr (sw_sge x)) (sge_length (sw_sge x)).

(** The new id differs from the one of the slot's previous request. *)
Lemma skip_same_id_ne {C : Config} num old :
  0 <= num < IDMAPADDRSIZE ->
  0 <= skip_same_id num old < IDMAPADDRSIZE /\ skip_same_id num old mod IDMAPADDRSIZE <> old.
Proof.
  unfold skip_same_id, IDMAPADDRSIZE, NOTHING_DEBUG. intros Hn. rewrite (Z.mod_small num) by lia.
  pose proof (Z.mod_pos_bound (num + 1) 1000 ltac:(lia)).
  assert (num = 999 /\ (num + 1) mod 1000 = 0 \/ (num + 1) mod 1000 = num + 1) as HM.
  { destruct (decide (num = 999)) as [->|]; [by left|right; apply Z.mod_small; lia]. }
  destruct (Z.eqb_spec num old), (Z.eqb_spec (num + 100) old); cbn [orb]; rewrite ?Z.mod_mod by lia;
    rewrite ?(Z.mod_small num) by lia; lia.
Qed.

(** ** Loads of a copied block *)

Lemma ld_shift k m m' a b :
  (forall j, 0 <= j < Z.of_nat k -> byte m (a + j) = byte m' (b + j)) -> ld k m a = ld k m' b.
Proof.
  revert a b. induction k as [|k IH]; intros a b H; [done|]. cbn [ld].
  pose proof (H 0 ltac:(lia)) as H0. rewrite !Z.add_0_r in H0. rewrite H0. f_equal. f_equal.
  apply IH. intros j Hj. replace (a + 1 + j) with (a + (j + 1)) by lia.
  replace (b + 1 + j) with (b + (j + 1)) by lia. apply H. lia.
Qed.

Lemma load_ReqHead_shift m m' a b :
  (forall j, 0 <= j < 28 -> byte m (a + j) = byte m' (b + j)) -> load_ReqHead m a = load_ReqHead m' b.
Proof.
  intros H.
  assert (L : forall k o, 0 <= o -> o + Z.of_nat k <= 28 -> ld k m (a + o) = ld k m' (b + o)).
  { intros k o Ho Hk. apply ld_shift. intros j Hj. rewrite <-!Z.add_assoc. apply H. lia. }
  unfold load_ReqHead, load_rpc_id, rpc_type_addr, my_nodeid_addr, thread_id_addr, rpc_id_addr.
  pose proof (H 0 ltac:(lia)) as H0. rewrite !Z.add_0_r in H0. rewrite H0, !H by lia.
  by rewrite !(L 2%nat), !(L 4%nat) by lia.
Qed.

Section push.
Context {C : Config} {CC : ClientConfig} {W : Type} `{!Verbs W, !VerbsLaws W}.

Local Abbreviation push := (push_new_call_write post_chain ibv_poll_cq).

(** Data slot and metadata slot of transaction [tx]. *)
Definition data_slot (x : Connect) (tx : Z) : Z := get_send_data_addr x tx.
Definition meta_slot (x : Connect) (tx : Z) : Z := u64 (localBase x + tx * SLOT_LEN).

(** The request fits its slot, and its sources, the features and the metadata
    slot lie elsewhere. *)
Record push_ready (x : Connect) (tx : Z) (req : reqs) (n fa : Z) : Prop := {
  pr_ok : req_ok req n;
  pr_fits : block_off req n n + 4 <= DATA_LEN;
  pr_pos : 0 <= data_slot x tx /\ data_slot x tx + DATA_LEN < 2 ^ 63;
  pr_req : req_outside req n (data_slot x tx) DATA_LEN;
  pr_meta : data_slot x tx + DATA_LEN <= meta_slot x tx \/ meta_slot x tx + 68 <= data_slot x tx;
  pr_fa : fa + 64 <= data_slot x tx \/ data_slot x tx + DATA_LEN <= fa }.

(** The state a client thread is in between two pushes. *)
Record client_ok (node : Z) (x : Connect) (c : client) (w : W) : Prop := {
  co_acct : send_acct SPNIC2 node 61 x c w;
  co_num : 0 <= (rpcnum c).[node] < IDMAPADDRSIZE;
  co_ids : forall k r, idMapAddr c !! k = Some r -> im_addr r = 0;
  co_me : uint 8 (cl_node_id c) /\ uint 8 (cl_thread_id c) }.

Lemma ready_outside x tx req n fa :
  push_ready x tx req n fa -> req_outside req n (data_slot x tx) (block_off req n n).
Proof.
  intros HR i Hi. pose proof (pr_req _ _ _ _ _ HR i Hi) as K. pose proof (pr_fits _ _ _ _ _ HR).
  cbv zeta in *. lia.
Qed.

(** What is sent by a push: the data write, and the metadata write in the
    builds with the card. *)
Definition sent (x : Connect) (node tx len lkey : Z) (b : bool) : list send_wr :=
  if SPNIC2 then [rdma_wr (data_slot x tx) len lkey (node + MAX_SERVER)
                    (get_remote_data_addr x (data_slot x tx)) (remote_data_key x) true]
  else [data_wr x node (data_slot x tx) len lkey; meta_wr x node (meta_slot x tx) (4 + 64) lkey b].

(** The id that the push gives to the request. *)
Definition new_id (node ty tx : Z) (x : Connect) (c : client) : rpc_id_t := {|
  rpc_type := u8 ty; my_nodeid := u8 (cl_node_id c); server_nodeid := u8 node;
  thread_id := u8 (cl_thread_id c);
  rpc_id := skip_same_id (rpcnum c).[node]
              (rpc_id (rpcId (load_ReqHead (cl_mem c) (data_slot x tx)))) mod IDMAPADDRSIZE |}.

Lemma new_id_ok node ty tx x c : rpc_id_ok (new_id node ty tx x c).
Proof.
  unfold rpc_id_ok, new_id. cbn. split_and!; try (apply wrap_range; lia).
  match goal with |- uint 32 (?a mod _) => pose proof (Z.mod_pos_bound a IDMAPADDRSIZE eq_refl) end.
  unfold uint, IDMAPADDRSIZE in *. lia.
Qed.

(** The write of a push, whatever the build. *)
Lemma send_spec node x tx len c (w : W) :
  send_acct SPNIC2 node 61 x c w ->
  exists k b x' c' w', (forall fuel, (k <= fuel)%nat ->
      (if SPNIC2 then rdmaWrite_client post_chain ibv_poll_cq fuel node (data_slot x tx) len
                        (get_remote_data_addr x (data_slot x tx)) (remote_data_key x) c w
       else double_rdma_write post_chain ibv_poll_cq fuel node (data_slot x tx) len (meta_slot x tx) (4 + 64) c w)
      = Some (c', w', true)) /\
    send_acct SPNIC2 node 61 x' c' w' /\ same_client node c c' /\
    posted w' = posted w ++ (pair (qp x) <$> sent x node tx len (message_Lkey c) b).
Proof.
  intros H. unfold sent. destruct SPNIC2.
  - destruct (single_write_spec node (data_slot x tx) len (get_remote_data_addr x (data_slot x tx))
      (remote_data_key x) x c w H) as (k & x' & c' & w' & E). by exists k, false, x', c', w'.
  - destruct (double_write_spec node (data_slot x tx) len (meta_slot x tx) (4 + 64) x c w H)
      as (k & b & x' & c' & w' & E). by exists k, b, x', c', w'.
Qed.

(** The push ends, posts one data write (and the metadata), and leaves the
    request in the data slot and the metadata in the metadata slot. *)
Lemma push_spec node ty req n kind tx hint fa x t c (w : W) :
  client_ok node x c w -> push_ready x tx req n fa -> my_tx c !! tx = Some t ->
  let id := new_id node ty tx x c in
  let D := data_slot x tx in
  let '(m1, T) := put_request D id req n kind tx hint (cl_mem c) in
  exists k b x' c' w', (forall fuel, (k <= fuel)%nat ->
      push fuel node ty req n kind tx hint fa c w = Some (c', w', id)) /\
    client_ok node x' c' w' /\ same_conn x x' /\
    cl_mem c' = serialize_slot m1 (meta_slot x tx) D fa /\
    my_tx c' = <[tx := t <| single_rpc_id := rpc_id id |>]> (my_tx c) /\
    (connect c' = <[node := x']> (connect c) /\ cl_node_id c' = cl_node_id c /\
     cl_thread_id c' = cl_thread_id c /\ no_delivery_flag c' = no_delivery_flag c /\
     strife_cqe c' = strife_cqe c /\ ok_count c' = ok_count c /\ draws c' = draws c /\
     test_count_client c' = test_count_client c) /\
    posted w' = posted w ++ (pair (qp x) <$> sent x node tx (T + 4) (message_Lkey c) b).
Proof.
  intros HC HR Ht id D. set (num := skip_same_id (rpcnum c).[node]
    (rpc_id (rpcId (load_ReqHead (cl_mem c) D)))).
  destruct (put_request D id req n kind tx hint (cl_mem c)) as [m1 T] eqn:EP.
  destruct HC as [HA Hnum Hids Hme]. pose proof (sa_conn _ _ _ _ _ _ HA) as Hx.
  set (slot := (node, (rpcnum c).[node] mod IDMAPADDRSIZE)).
  set (c1 := ((set_tx tx (t <| single_rpc_id := rpc_id id |>)
    (c <| idMapAddr := <[slot := {| im_addr := 0; im_type := NO_REPLY; im_ctx := 0 |}]> (idMapAddr c) |>))
    <| rpcnum := <[node := (num + 1) mod IDMAPADDRSIZE]> (rpcnum c) |>
    <| rpccount := u64 (rpccount c + 1) |>) <| cl_mem := serialize_slot m1 (meta_slot x tx) D fa |>).
  assert (send_acct SPNIC2 node 61 x c1 w) as HA1 by (destruct HA; split; done).
  destruct (send_spec node x tx (T + 4) c1 w HA1) as (k & b & x' & c' & w' & E & HA' & HS & HP).
  assert (HS' := HS). destruct HS' as (x0 & n0 & k0 & s0 & Hx0 & Ec'). change (connect c !! node = Some x0) in Hx0.
  rewrite Hx in Hx0. injection Hx0 as <-.
  assert (x' = x <| sendnum := n0 |> <| signal_num := k0 |>) as Ex'.
  { pose proof (sa_conn _ _ _ _ _ _ HA') as K. rewrite Ec' in K.
    change (<[node := x <| sendnum := n0 |> <| signal_num := k0 |>]> (connect c1) !! node = Some x') in K.
    rewrite lookup_insert_eq in K. by injection K. }
  exists k, b, x', c', w'. split_and!.
  - intros fuel Hf. unfold push_new_call_write. cbv zeta. fold slot.
    assert (im_addr (default {| im_addr := 0; im_type := TEMPLATE_CALL; im_ctx := 0 |} (idMapAddr c !! slot)) = 0) as ->.
    { destruct (idMapAddr c !! slot) eqn:K; [by eapply Hids|done]. }
    cbn [negb Z.eqb]. change (connect _ !! node) with (connect c !! node). rewrite Hx. cbn [mbind option_bind].
    change (my_tx _ !! tx) with (my_tx c !! tx). rewrite Ht. cbn [mbind option_bind].
    match goal with |- context [put_request ?a ?i ?r ?n' ?k' ?t' ?h ?m] =>
      change (put_request a i r n' k' t' h m) with (put_request D id req n kind tx hint (cl_mem c)) end.
    rewrite EP. unfold serialization. specialize (E fuel Hf).
    match goal with |- context [if SPNIC2 then ?p else ?q] =>
      assert ((if SPNIC2 then p else q) = Some (c', w', true)) as -> by exact E end.
    done.
  - split; [done| |by rewrite Ec'; cbn; intros kk r [[_ <-]|[_ K]]%lookup_insert_Some; [done|by eapply Hids]|by rewrite Ec'].
    rewrite Ec'. cbn. rewrite rd_insert_eq. apply Z.mod_pos_bound. done.
  - rewrite Ex'. by exists n0, k0.
  - by rewrite Ec'.
  - by rewrite Ec'.
  - by rewrite Ec', Ex'.
  - by rewrite Ec'.
  - by rewrite Ec'.
  - by rewrite Ec'.
  - by rewrite Ec'.
  - by rewrite Ec'.
  - by rewrite Ec'.
  - by rewrite Ec'.
  - exact HP.
Qed.

(** ** The data write *)

(** The server's data slot of the same transaction. *)
Lemma remote_data_slot x s tx :
  data_addr s = remote_data_addr x -> get_remote_data_addr x (data_slot x tx) = get_rev_addr s tx.
Proof.
  intros E. unfold get_remote_data_addr, data_slot, get_send_data_addr, get_rev_addr. rewrite E.
  replace (u64 (data_addr x + tx * DATA_LEN) - data_addr x + remote_data_addr x)
    with (u64 (data_addr x + tx * DATA_LEN) + (remote_data_addr x - data_addr x)) by lia.
  rewrite wrap_add_l by lia. f_equal. lia.
Qed.

(** The bytes of the data slot after the push and after the delivery. *)
Lemma data_delivered x node tx req n fa m1 T lkey b s ms dw rest :
  push_ready x tx req n fa -> T = block_off req n n -> data_addr s = remote_data_addr x ->
  sent x node tx (T + 4) lkey b = dw :: rest ->
  let a := get_rev_addr s tx in
  let ms' := rdma_deliver (serialize_slot m1 (meta_slot x tx) (data_slot x tx) fa) dw ms in
  (forall j, 0 <= j < T + 4 -> byte ms' (a + j) = byte m1 (data_slot x tx + j)) /\
  (forall y, y < a \/ a + T + 4 <= y -> byte ms' y = byte ms y) /\ sw_rkey dw = remote_data_key x.
Proof.
  intros [OK Hf Hp _ Hm _] -> Hs Hd a ms'. pose proof OK as (Hn & HS & HT). set (T := block_off req n n) in *.
  assert (28 <= T) as HT0.
  { pose proof (block_off_bounds req n OK n ltac:(lia)). unfold T. lia. }
  assert (sw_remote_addr dw = a /\ sge_addr (sw_sge dw) = data_slot x tx /\ sge_length (sw_sge dw) = T + 4 /\
    sw_rkey dw = remote_data_key x) as (E1 & E2 & E3 & E4).
  { assert (u32 (T + 4) = T + 4) as EU by (apply wrap_small; unfold uint; lia).
    unfold sent in Hd. destruct SPNIC2; injection Hd as <- _; cbn; rewrite ?EU, ?(remote_data_slot x s tx Hs); done. }
  unfold ms', rdma_deliver. rewrite E1, E2, E3. split_and!; [| |done].
  - intros j Hj. rewrite byte_copy by lia.
    destruct (Z.leb_spec a (a + j)), (Z.ltb_spec (a + j) (a + (T + 4))); try lia. cbn [andb].
    replace (a + j - a) with j by lia.
    destruct (serialize_slot_spec m1 (meta_slot x tx) (data_slot x tx) fa) as (_ & _ & _ & O);
      [unfold sizeof_ReqHead; lia|]. apply O. lia.
  - intros y Hy. rewrite byte_copy by lia.
    destruct (Z.leb_spec a y), (Z.ltb_spec y (a + (T + 4))); (done || lia).
Qed.

(** The metadata slot after the push: the features, the complemented toggle and
    the hint. *)
Lemma push_meta node ty req n kind tx hint fa x c :
  push_ready x tx req n fa ->
  let id := new_id node ty tx x c in
  let D := data_slot x tx in
  let A := meta_slot x tx in
  let '(m1, T) := put_request D id req n kind tx hint (cl_mem c) in
  let m' := serialize_slot m1 A D fa in
  (fa <> 0 -> forall j, 0 <= j < 64 -> byte m' (A + j) = byte (cl_mem c) (fa + j)) /\
  ld 2 m' (A + 66) = 0xFFFF - ld 2 (cl_mem c) (A + 66) /\ ld 2 m' (A + 64) = u16 hint.
Proof.
  intros HR id D A. pose proof (pr_ok _ _ _ _ _ HR) as OK. pose proof OK as (Hn & _).
  pose proof (put_request_spec D id req n kind tx hint (cl_mem c) OK (ready_outside _ _ _ _ _ HR)
    (new_id_ok _ _ _ _ _)) as HQ.
  pose proof (block_off_bounds req n OK n ltac:(lia)) as HB. pose proof (pr_fits _ _ _ _ _ HR) as Hf.
  pose proof (pr_meta _ _ _ _ _ HR) as Hm. pose proof (pr_fa _ _ _ _ _ HR) as Ha. fold D A in Hm, Ha.
  destruct (put_request D id req n kind tx hint (cl_mem c)) as [m1 T]. destruct HQ as (-> & Q1 & _ & _ & _ & QO).
  cbv zeta. destruct (serialize_slot_spec m1 A D fa) as (S1 & S2 & S3 & _); [unfold sizeof_ReqHead; lia|].
  split_and!.
  - intros Hfa j Hj. rewrite S1 by done. destruct (Z.eqb_spec fa 0); [done|]. apply QO. lia.
  - rewrite S2. f_equal. apply ld_ext. intros y Hy. apply QO. lia.
  - rewrite S3, Q1. cbn [sent_head partition_hint]. unfold wrap. rewrite Z.mod_mod_divide by (by exists 65536). done.
Qed.

(** A request with the head [h] and its blocks at [D] of [m1], seen at [a] of the
    server's memory: the scheduler takes it, and a worker finds its blocks. *)
Section arrived.
Context (D a : Z) (req : reqs) (n : Z) (m m1 ms1 : memory) (OK : req_ok req n).
Local Abbreviation T := (block_off req n n).
Context (HB : forall j, 0 <= j < T + 4 -> byte ms1 (a + j) = byte m1 (D + j)).

Lemma arrived_head : load_ReqHead ms1 a = load_ReqHead m1 D.
Proof.
  pose proof (block_off_bounds req n OK n ltac:(destruct OK; lia)) as HT. destruct OK as (Hn & _).
  apply load_ReqHead_shift. intros j Hj. apply HB. lia.
Qed.

Lemma arrived_taken :
  T mod 4 = 0 -> size (load_ReqHead m1 D) = T -> ld 4 m1 (D + T) = magic (load_ReqHead m1 D) ->
  take_request a ms1 = Some (st 4 ms1 (a + T) 0, T).
Proof.
  intros H4 Hs Hm. pose proof (block_off_bounds req n OK n ltac:(destruct OK; lia)) as HT.
  destruct OK as (Hn & _). unfold take_request, head_word.
  change (ld 4 ms1 (a + 4 * 4)) with (size (load_ReqHead ms1 a)).
  change (ld 4 ms1 (a + 4 * 5)) with (magic (load_ReqHead ms1 a)). rewrite arrived_head, Hs.
  destruct (Z.eqb_spec T 0); [lia|]. assert (4 * (T / 4) = T) as -> by (pose proof (Z.div_mod T 4); lia).
  assert (ld 4 ms1 (a + T) = ld 4 m1 (D + T)) as ->.
  { apply ld_shift. intros j Hj. rewrite <-!Z.add_assoc. apply HB. lia. }
  by rewrite Hm, Z.eqb_refl.
Qed.

Lemma arrived_blocks x0 :
  0 <= a -> a + T < 2 ^ 63 -> NULLRPC = false -> req_num (load_ReqHead m1 D) = n ->
  (forall i, 0 <= i < n -> block_size m1 D i = req_size req i) ->
  (forall i j, 0 <= i < n -> 0 <= j < req_size req i ->
     byte m1 (D + block_off req n i + j) = byte m (rq_addr (req_at req i) + j)) ->
  let ms2 := st 4 ms1 (a + T) 0 in
  forall i, 0 <= i < n -> let r := block (deserialization ms2 a x0) i in
    rq_addr r = a + block_off req n i /\ rq_size r = req_size req i /\
    forall j, 0 <= j < req_size req i -> byte ms2 (rq_addr r + j) = byte m (rq_addr (req_at req i) + j).
Proof.
  intros Ha1 Ha2 HN Hnum Q3 Q4 ms2 i Hi. pose proof OK as (Hn & _).
  pose proof (block_off_bounds req n OK n ltac:(lia)) as HT.
  assert (B2 : forall j, 0 <= j < T -> byte ms2 (a + j) = byte m1 (D + j)).
  { intros j Hj. unfold ms2. rewrite byte_st by lia. apply HB. lia. }
  assert (SB : forall i, 0 <= i < n -> block_size ms2 a i = req_size req i).
  { intros l Hl. rewrite <-Q3 by done. unfold block_size. apply ld_shift. intros j Hj.
    rewrite <-!(Z.add_assoc a), <-!(Z.add_assoc D). apply B2. lia. }
  assert (SO : forall i, 0 <= i <= n -> block_start ms2 a n i = a + block_off req n i).
  { intros l Hl. unfold block_start, block_off. rewrite (sumZ_ext (block_size ms2 a) (req_size req)); [lia|].
    intros j Hj%elem_of_seqZ. apply SB. lia. }
  assert (EN : req_num (load_ReqHead ms2 a) = n).
  { rewrite (load_ReqHead_shift ms2 m1 a D) by (intros j Hj; apply B2; lia). done. }
  pose proof (read_blocks_spec ms2 a n (reqP x0) Ha1 ltac:(lia)) as RB. cbv zeta in RB.
  rewrite SO in RB by lia. specialize (RB Ha2 i Hi). rewrite SO, SB in RB by lia.
  assert (block (deserialization ms2 a x0) i
    = {| rq_addr := a + block_off req n i; rq_size := req_size req i |}) as ->.
  { unfold block. rewrite (deserialization_reqP _ _ _ HN), EN. by rewrite RB. }
  cbn [rq_addr rq_size]. split; [done|]. split; [done|]. intros j Hj.
  pose proof (block_off_bounds req n OK i ltac:(lia)). pose proof (block_off_bounds req n OK (i + 1) ltac:(lia)) as B.
  rewrite block_off_S in B by (done || lia).
  rewrite <-Z.add_assoc, B2 by lia. rewrite Z.add_assoc. by apply Q4.
Qed.
End arrived.

(** The push and the delivery of its data write. *)
Lemma push_arrives node ty req n kind tx hint fa x t c (w : W) (s : Connect) (ms : memory) (x0 : msg_t) :
  client_ok node x c w -> push_ready x tx req n fa -> my_tx c !! tx = Some t ->
  data_addr s = remote_data_addr x -> 0 <= get_rev_addr s tx -> get_rev_addr s tx + DATA_LEN < 2 ^ 63 ->
  block_off req n n mod 4 = 0 -> NULLRPC = false ->
  let old := rpc_id (rpcId (load_ReqHead (cl_mem c) (data_slot x tx))) in
  let a := get_rev_addr s tx in
  let T := block_off req n n in
  exists k c' w' id dw rest,
    (forall fuel, (k <= fuel)%nat -> push fuel node ty req n kind tx hint fa c w = Some (c', w', id)) /\
    (exists x', client_ok node x' c' w') /\
    posted w' = posted w ++ (qp x, dw) :: rest /\ sw_rkey dw = remote_data_key x /\
    rpc_id id <> old /\ single_rpc_id <$> my_tx c' !! tx = Some (rpc_id id) /\
    let ms1 := rdma_deliver (cl_mem c') dw ms in
    let ms2 := st 4 ms1 (a + T) 0 in
    let h := load_ReqHead ms1 a in
    rpcId h = id /\ read_name h = u16 kind /\ req_num h = n /\ TXID h = u8 tx /\ partition_hint h = u32 hint /\
    take_request a ms1 = Some (ms2, T) /\
    (forall i, 0 <= i < n -> let r := block (deserialization ms2 a x0) i in
       rq_addr r = a + block_off req n i /\ rq_size r = req_size req i /\
       forall j, 0 <= j < req_size req i ->
         byte ms2 (rq_addr r + j) = byte (cl_mem c) (rq_addr (req_at req i) + j)) /\
    (forall y, y < a \/ a + DATA_LEN <= y -> byte ms2 y = byte ms y).
Proof.
  intros HC HR Ht Hs Ha1 Ha2 H4 HN old a T.
  pose proof (push_spec node ty req n kind tx hint fa x t c w HC HR Ht) as HP. cbv zeta in HP.
  set (id := new_id node ty tx x c) in *. set (D := data_slot x tx) in *.
  pose proof (pr_ok _ _ _ _ _ HR) as OK. pose proof OK as (Hn & HS & HT).
  pose proof (ready_outside _ _ _ _ _ HR) as HO. fold D in HO.
  pose proof (put_request_spec D id req n kind tx hint (cl_mem c) OK HO (new_id_ok _ _ _ _ _)) as HQ.
  destruct (put_request D id req n kind tx hint (cl_mem c)) as [m1 T'].
  destruct HQ as (-> & Q1 & Q2 & Q3 & Q4 & _). fold T in HP, Q2 |- *.
  destruct HP as (k & b & x' & c' & w' & E & HC' & _ & Em & Et & _ & EW).
  destruct (sent x node tx (T + 4) (message_Lkey c) b) as [|dw rest] eqn:Ed;
    [unfold sent in Ed; by destruct SPNIC2|].
  destruct (data_delivered x node tx req n fa m1 T (message_Lkey c) b s ms dw rest HR eq_refl Hs Ed) as (B1 & B2 & B3).
  exists k, c', w', id, dw, (pair (qp x) <$> rest). rewrite Em. fold a D in B1, B2 |- *.
  set (ms1 := rdma_deliver (serialize_slot m1 (meta_slot x tx) D fa) dw ms) in *.
  pose proof (pr_fits _ _ _ _ _ HR) as Hf. fold T in Hf.
  pose proof (arrived_head D a req n m1 ms1 OK B1) as Eh. rewrite Q1 in Eh.
  split_and!; [done|by exists x'|by rewrite EW, fmap_cons|done| | |cbv zeta; rewrite Eh; split_and!]; try done.
  - apply skip_same_id_ne. apply HC.
  - by rewrite Et, lookup_insert_eq.
  - apply (arrived_taken D a req n m1 ms1 OK B1); [done|by rewrite Q1|by rewrite Q1].
  - apply (arrived_blocks D a req n (cl_mem c) m1 ms1 OK B1); try done; [fold T; lia|by rewrite Q1].
  - intros y Hy. pose proof (block_off_bounds req n OK n ltac:(lia)) as HB. fold T in HB.
    rewrite byte_st by lia. apply B2. lia.
Qed.

(** a request arrives as it was gathered.  From any state between two calls,
    [push_new_call_write] ends after finitely many polls; the data write it posts,
    once carried out on the server's memory, puts into the server's data slot of
    the same transaction a head with the new id, the slot number and the core
    hint; the scheduler's [take_request] finds the request complete with its full
    size; the blocks a worker then deserialises are consecutive and have the sizes and
    the bytes of the client's buffers; nothing outside the server's slot is touched; the id
    differs from that of the slot's previous request, and is the one the
    transaction waits for. *)
Theorem request_reaches_server node ty req n kind tx hint fa x t c (w : W) (s : Connect) (ms : memory) (x0 : msg_t) :
  client_ok node x c w -> push_ready x tx req n fa -> my_tx c !! tx = Some t ->
  data_addr s = remote_data_addr x -> 0 <= get_rev_addr s tx -> get_rev_addr s tx + DATA_LEN < 2 ^ 63 ->
  block_off req n n mod 4 = 0 -> NULLRPC = false ->
  let old := rpc_id (rpcId (load_ReqHead (cl_mem c) (data_slot x tx))) in
  let a := get_rev_addr s tx in
  let T := block_off req n n in
  exists k c' w' id dw rest,
    (forall fuel, (k <= fuel)%nat -> push fuel node ty req n kind tx hint fa c w = Some (c', w', id)) /\
    (exists x', client_ok node x' c' w') /\
    posted w' = posted w ++ (qp x, dw) :: rest /\ sw_rkey dw = remote_data_key x /\
    rpc_id id <> old /\ single_rpc_id <$> my_tx c' !! tx = Some (rpc_id id) /\
    let ms1 := rdma_deliver (cl_mem c') dw ms in
    let ms2 := st 4 ms1 (a + T) 0 in
    let h := load_ReqHead ms1 a in
    rpcId h = id /\ read_name h = u16 kind /\ req_num h = n /\ TXID h = u8 tx /\ partition_hint h = u32 hint /\
    take_request a ms1 = Some (ms2, T) /\
    (forall i, 0 <= i < n -> let r := block (deserialization ms2 a x0) i in
       rq_addr r = a + block_off req n i /\ rq_size r = req_size req i /\
       forall j, 0 <= j < req_size req i ->
         byte ms2 (rq_addr r + j) = byte (cl_mem c) (rq_addr (req_at req i) + j)) /\
    (forall y, y < a \/ a + DATA_LEN <= y -> byte ms2 y = byte ms y).
Proof. exact (push_arrives node ty req n kind tx hint fa x t c w s ms x0). Qed.
End push.

(** * A client *)

(** The flags of the TPC-C client scripts. *)
Definition tpcc_client : ClientConfig := {|
  SPNIC2 := false; SPNICXX := false; YCSBHOT := false; ZIPFTPCC := false; TWOPHASE := false; YCSBWRITE := 0; NEWORDERP := 100;
  RPCSIZE := 0; scale_factor := 2 |}.

(** Thread 3 of client node 1 after the handshake with the server of
    [demo_rpc]: its pool starts at [0x40000000], transaction 2 has its buffers at
    [0x50000000]. *)
Definition demo_client_peer : Connect :=
  (client_peer (demo_node tpcc_alnico 1 CLIENT_ONLY) 0x40000000 0 Connect_zero)
    <| qp := 5 |> <| remoteAddr := 0x10000000 |> <| remote_data_addr := 0x30000000 |> <| remote_data_key := 7 |>
    <| remoteRkey := 8 |>.

Definition demo_tx : switch_tx := {|
  tx_id := 2; tx_magic := 1; is_busy := false; is_retry := false; retry_count := 0; single_node_id := 0;
  single_rpc_id := 0; now_phase := 0; tpcc_latency_type := 0; ycsb_count := 0; nic := 4; warehouse_id := 1;
  ctx_offset := 0; w_offset := 0; x_rand := 123456789; y_rand := 362436069; z_rand := 521288629; w_rand := 88675123;
  my_ctx := 0x50000000; ycsb_ctx := 0x51000000; args := 0x52000000; feature := 0x53000000;
  write_bits_addr := 0x54000000 |}.

Definition demo_client : client := {|
  cl_mem := ∅; connect := {[0 := demo_client_peer]}; cl_signalNum := 0; rpcnum := {[0 := 41]}; idMapAddr := ∅;
  rpccount := 0; cl_node_id := 1; cl_thread_id := 3; message_Lkey := 6; my_tx := {[2 := demo_tx]};
  test_count_client := 0; ok_count := 0; no_delivery_flag := ∅; strife_cqe := ∅; draws := 0 |}.

(** The server's side of the connection. *)
Definition demo_server_peer : Connect := Connect_zero <| data_addr := 0x30000000 |>.

Lemma demo_client_ok :
  client_ok (CC := tpcc_client) 0 demo_client_peer demo_client sim_start.
Proof.
  split; [split| | |].
  all: try (intros; vm_compute; split; congruence). all: try (vm_compute; reflexivity).
  - intros k r Hk. change (idMapAddr demo_client) with (@empty (gmap (Z * Z) IdMapAddr) _) in Hk. by rewrite lookup_empty in Hk.
  - split; vm_compute; split; congruence.
Qed.

(** A request of two blocks, 8 and 64 bytes. *)
Definition demo_reqs : reqs :=
  {[0 := {| rq_addr := 0x50000000; rq_size := 8 |}; 1 := {| rq_addr := 0x53000000; rq_size := 64 |}]}.

Lemma demo_push_ready :
  push_ready (C := tpcc_alnico) demo_client_peer 2 demo_reqs 2 0x53000000.
Proof.
  assert (HI : forall i, 0 <= i < 2 -> i = 0 \/ i = 1) by lia.
  split.
  - split; [lia|]. split; [|vm_compute; reflexivity]. intros i [-> | ->]%HI; vm_compute; split; congruence.
  - vm_compute. congruence.
  - vm_compute. split; congruence.
  - intros i [-> | ->]%HI; right; vm_compute; congruence.
  - right. vm_compute. congruence.
  - right. vm_compute. congruence.
Qed.

Lemma request_reaches_server_witness :
  let push := push_new_call_write (C := tpcc_alnico) (CC := tpcc_client) (W := sim) post_chain ibv_poll_cq in
  let ms := st 4 ∅ (0x30000000 + 2048 * 2 + 108) 999 in
  exists k c' w' id dw rest,
    (forall fuel, (k <= fuel)%nat ->
       push fuel 0 JUST_COMMIT demo_reqs 2 1 2 4 0x53000000 demo_client sim_start = Some (c', w', id)) /\
    sim_log w' = (5, dw) :: rest /\ rpc_id id <> 0 /\
    take_request (0x30000000 + 2048 * 2) (rdma_deliver (cl_mem c') dw ms)
    = Some (st 4 (rdma_deliver (cl_mem c') dw ms) (0x30000000 + 2048 * 2 + 108) 0, 108).
Proof.
  intros push ms.
  destruct (request_reaches_server (C := tpcc_alnico) (CC := tpcc_client) (W := sim) 0 JUST_COMMIT demo_reqs 2 1 2 4
    0x53000000 demo_client_peer demo_tx demo_client sim_start demo_server_peer ms demo_msg)
    as (k & c' & w' & id & dw & rest & E & _ & Ew & _ & Hid & _ & _ & _ & _ & _ & _ & HT & _);
    [exact demo_client_ok|exact demo_push_ready|reflexivity|reflexivity|vm_compute; congruence
    |vm_compute; reflexivity|vm_compute; reflexivity|reflexivity|].
  exists k, c', w', id, dw, rest. split; [exact E|]. split; [exact Ew|]. split; [exact Hid|exact HT].
Defined.

#[local] Set Default Proof Using "Type*".

(** ** Words of the card *)

(** The halves of a word as the card takes them. *)
Lemma word_low m a : Z.land (ld 4 m a) 0xFFFF = ld 2 m a.
Proof.
  rewrite ld32_halves. change 0xFFFF with (Z.ones 16). rewrite Z.land_ones by lia.
  pose proof (ld_range 2 m a). change (2 ^ 16) with 65536. rewrite Z.mul_comm, Z.mod_add by lia.
  apply Z.mod_small. lia.
Qed.

Lemma word_high m a : head_rrb (ld 4 m a) = ld 2 m (a + 2).
Proof.
  unfold head_rrb. rewrite ld32_halves, Z.shiftr_div_pow2 by lia.
  pose proof (ld_range 2 m a). pose proof (ld_range 2 m (a + 2)). change (2 ^ 16) with 65536.
  rewrite Z.mul_comm, Z.div_add, Z.div_small by lia. change 0xFFFF with (Z.ones 16).
  rewrite Z.land_ones by lia. apply Z.mod_small. lia.
Qed.

(** The features of a slot whose 64 bytes start at [d]. *)
Lemma load_feature_bytes (words : gmap Z Z) off m d :
  (forall c, 0 <= c < 16 -> words.[off + c] = ld 4 m (d + 4 * c)) ->
  forall f, 0 <= f < 512 ->
  Z.testbit (Hls.load_feature off 0 words) f = Z.testbit (byte m (d + f / 8)) (f mod 8).
Proof.
  intros HW f Hf. destruct (load_feature_bits off words 16 ltac:(lia)) as [_ HB].
  pose proof (Z.div_mod f 32 ltac:(lia)) as E32. pose proof (Z.mod_pos_bound f 32 ltac:(lia)).
  pose proof (Z.div_mod (f mod 32) 8 ltac:(lia)) as E8. pose proof (Z.mod_pos_bound (f mod 32) 8 ltac:(lia)).
  pose proof (HB (f / 32) (f mod 32) ltac:(lia) ltac:(lia)) as E. rewrite <-E32 in E.
  unfold Hls.load_feature, Hls.VECTOR_SIZE.
  rewrite E, HW by lia. rewrite E8 at 1. rewrite (testbit_ld 4) by lia.
  pose proof (Z.div_mod f 8 ltac:(lia)). pose proof (Z.mod_pos_bound f 8 ltac:(lia)).
  assert (f / 8 = 4 * (f / 32) + f mod 32 / 8) as -> by lia. f_equal; [f_equal; lia|lia].
Qed.

Section card.
Context {C : Config} {CC : ClientConfig} {W : Type} `{!Verbs W, !VerbsLaws W}.

Local Abbreviation push := (push_new_call_write post_chain ibv_poll_cq).

(** C28: the card schedules what the client described.  In the builds with the
    card, the second write that [push_new_call_write] posts puts the metadata at
    the place of the card's memory that corresponds to the client's metadata slot;
    if the card remembers the toggle half-word the client last sent, its next
    look at the slot reports exactly one request, with the client's core hint and
    with a feature vector whose bit [f] is bit [f mod 8] of byte [f / 8] of the
    client's feature buffer, and afterwards the card and the client agree again
    on the toggle. *)
Theorem request_reaches_card node ty req n kind tx hint fa x t c (w : W) :
  SPNIC2 = false -> client_ok node x c w -> push_ready x tx req n fa -> my_tx c !! tx = Some t -> fa <> 0 ->
  let A := meta_slot x tx in
  exists k c' w' id dw mw,
    (forall fuel, (k <= fuel)%nat -> push fuel node ty req n kind tx hint fa c w = Some (c', w', id)) /\
    posted w' = posted w ++ [(qp x, dw); (qp x, mw)] /\ sw_rkey mw = remoteRkey x /\
    forall (s : Hls.fpga) (mc : memory) (base : Z),
    let off := (Hls.slot_offset0 s).[Hls.ii s] in
    let mc' := rdma_deliver (cl_mem c') mw mc in
    base + 4 * off = getRemoteAddr x A + 64 ->
    (forall j, off - 16 <= j <= off -> (Hls.m0 s).[j] = ld 4 mc' (base + 4 * j)) ->
    (Hls.RRB0 s).[Hls.ii s] = ld 2 (cl_mem c) (A + 66) ->
    let s' := Hls.check_message_dataflow_nodma0 s in
    exists msg, Hls.check_msg_out0 s' = Hls.check_msg_out0 s ++ [msg] /\
      Hls.cm_i msg = Hls.ii s /\ Hls.cm_core_id msg = u16 hint /\
      (forall f, 0 <= f < 512 -> Z.testbit (Hls.cm_new_features msg) f
         = Z.testbit (byte (cl_mem c) (fa + f / 8)) (f mod 8)) /\
      (Hls.RRB0 s').[Hls.ii s] = ld 2 (cl_mem c') (A + 66).
Proof.
  intros HSP HC HR Ht Hfa A. pose proof (push_spec node ty req n kind tx hint fa x t c w HC HR Ht) as HP.
  cbv zeta in HP. set (id := new_id node ty tx x c) in *. set (D := data_slot x tx) in *.
  pose proof (push_meta node ty req n kind tx hint fa x c HR) as HM. cbv zeta in HM. fold id D A in HM.
  destruct (put_request D id req n kind tx hint (cl_mem c)) as [m1 T].
  destruct HP as (k & b & x' & c' & w' & E & _ & _ & Em & _ & _ & EW). fold A in Em. rewrite <-Em in HM.
  destruct HM as (M1 & M2 & M3).
  unfold sent in EW. rewrite HSP in EW. fold D A in EW.
  exists k, c', w', id, (data_wr x node D (T + 4) (message_Lkey c)), (meta_wr x node A (4 + 64) (message_Lkey c) b).
  split_and!; [done|done|done|]. intros s mc base off mc' Hbase HW HR0 s'.
  assert (BC : forall j, 0 <= j < 68 -> byte mc' (getRemoteAddr x A + j) = byte (cl_mem c') (A + j)).
  { intros j Hj. change mc' with (copy (cl_mem c') mc (getRemoteAddr x A) A 68). rewrite byte_copy by done.
    set (d := getRemoteAddr x A).
    destruct (Z.leb_spec d (d + j)), (Z.ltb_spec (d + j) (d + 68)); try lia. cbn [andb]. f_equal. lia. }
  assert (HL : ld 2 mc' (getRemoteAddr x A + 64) = u16 hint).
  { rewrite <-M3. apply ld_shift. intros j Hj. rewrite <-!Z.add_assoc. apply BC. lia. }
  assert (HH : ld 2 mc' (getRemoteAddr x A + 66) = ld 2 (cl_mem c') (A + 66)).
  { apply ld_shift. intros j Hj. rewrite <-!Z.add_assoc. apply BC. lia. }
  assert (HR1 : uint 16 (Hls.RRB0 s).[Hls.ii s]) by (rewrite HR0; apply (ld_range 2)).
  pose proof (check0_eq s HR1) as EQ. cbv zeta in EQ. fold off s' in EQ.
  rewrite HW, Hbase, word_high in EQ by lia.
  replace (getRemoteAddr x A + 64 + 2) with (getRemoteAddr x A + 66) in EQ by lia.
  rewrite HH, HR0, M2 in EQ.
  destruct (Z.eqb_spec (65535 - ld 2 (cl_mem c) (A + 66) + ld 2 (cl_mem c) (A + 66)) 65535); [|lia].
  exists (slot_msg0 s (Hls.ii s)). rewrite EQ, M2. split_and!; [done|done| | |].
  - cbn. fold off. by rewrite HW, Hbase, word_low by lia.
  - intros f Hf. cbn [slot_msg0 Hls.cm_new_features]. fold off.
    rewrite (load_feature_bytes _ _ mc' (getRemoteAddr x A)) by (done || (intros c0 Hc0; rewrite HW by lia; f_equal; lia)).
    f_equal. pose proof (Z.div_lt_upper_bound f 8 64). pose proof (Z.div_pos f 8).
    rewrite BC, M1 by lia. done.
  - cbn. by rewrite rd_insert_eq.
Qed.
End card.

#[local] Existing Instance Hls.eta_fpga.

(** The card at the look at slot 2, its memory being [mc]. *)
Definition demo_card (mc : memory) : Hls.fpga :=
  Hls.fpga_reset <| Hls.ii := 2 |> <| Hls.slot_offset0 := {[2 := 2048 * 2 / 4 + 16]} |>
    <| Hls.m0 := for_range 1024 1041 (fun j m => <[j := ld 4 mc (0x10000000 + 4 * j)]> m) ∅ |>.

Lemma demo_card_words mc j :
  1024 <= j <= 1040 -> (Hls.m0 (demo_card mc)).[j] = ld 4 mc (0x10000000 + 4 * j).
Proof.
  intros Hj. change (Hls.m0 (demo_card mc))
    with (for_range 1024 1041 (fun j m => <[j := ld 4 mc (0x10000000 + 4 * j)]> m) (∅ : gmap Z Z)).
  assert (K : forall j, 1024 <= j < 1041 ->
    (for_range 1024 1041 (fun j m => <[j := ld 4 mc (0x10000000 + 4 * j)]> m) (∅ : gmap Z Z)).[j]
    = ld 4 mc (0x10000000 + 4 * j)); [|apply K; lia].
  apply (for_range_ind (fun k (m : gmap Z Z) => forall j, 1024 <= j < k -> m.[j] = ld 4 mc (0x10000000 + 4 * j)));
    [lia|lia|]. intros k m Hk IH i Hi. destruct (decide (i = k)) as [->|].
  - apply rd_insert_eq.
  - rewrite rd_insert_ne by congruence. apply IH. lia.
Qed.

Lemma request_reaches_card_witness :
  let push := push_new_call_write (C := tpcc_alnico) (CC := tpcc_client) (W := sim) post_chain ibv_poll_cq in
  exists k c' w' id mw msg,
    (forall fuel, (k <= fuel)%nat ->
       push fuel 0 JUST_COMMIT demo_reqs 2 1 2 4 0x53000000 demo_client sim_start = Some (c', w', id)) /\
    let s := demo_card (rdma_deliver (cl_mem c') mw ∅) in
    Hls.check_msg_out0 (Hls.check_message_dataflow_nodma0 s) = [msg] /\ Hls.cm_core_id msg = 4.
Proof.
  intros push.
  destruct (request_reaches_card (C := tpcc_alnico) (CC := tpcc_client) (W := sim) 0 JUST_COMMIT demo_reqs 2 1 2 4
    0x53000000 demo_client_peer demo_tx demo_client sim_start)
    as (k & c' & w' & id & dw & mw & E & _ & _ & H);
    [reflexivity|exact demo_client_ok|exact demo_push_ready|reflexivity|congruence|].
  destruct (H (demo_card (rdma_deliver (cl_mem c') mw ∅)) ∅ 0x10000000) as (msg & E1 & _ & E2 & _);
    [vm_compute; reflexivity|exact (demo_card_words _)|vm_compute; reflexivity|].
  exists k, c', w', id, mw, msg. split; [exact E|]. split; [exact E1|exact E2].
Defined.
