(* ===== verification/ClientArrive.v ===== *)
(** A request slot while the data write is under way: the client's toggled tail
    word against the scheduler's look at a request that has arrived in part. *)

From S2P Require Import Prelude Memory Config RpcCommon Central Client ClientProps ClientTransfer.

#[local] Set Default Proof Using "Type*".

#[local] Arguments ld : simpl never.
#[local] Arguments st : simpl never.




(** The bytes of the slot at [a] are the same. *)
Definition same_slot {C : Config} (a : Z) (m m' : memory) : Prop :=
  forall y, a <= y < a + DATA_LEN -> byte m' y = byte m y.

(** The words of a request of size [T]: its blocks and the tail. *)
Definition write_words (T : Z) : gset Z := list_to_set (seqZ 0 (T / 4 + 1)).

Lemma elem_of_write_words T j : j ∈ write_words T <-> 0 <= j <= T / 4.
Proof. unfold write_words. rewrite elem_of_list_to_set, elem_of_seqZ. lia. Qed.

(** The order in which the adapter places the words of one RDMA write:
    [placed T A J] when the words [J] may be placed next, [A] being there.  The
    protocol is written for adapters that place a write in order: [size] and
    [magic] of the head (one aligned eight-byte word) are there with the first
    words, and the tail is not there before all the others. *)
Class InOrderPlacement (placed : Z -> gset Z -> gset Z -> Prop) := {
  head_first : forall T A J, placed T A J -> 4 ∈ A ∪ J /\ 5 ∈ A ∪ J;
  tail_last : forall T A J, placed T A J -> T / 4 ∈ J -> A ∪ J = write_words T }.

Section link.
Context {C : Config} (D a : Z).
Context (placed : Z -> gset Z -> gset Z -> Prop) {IP : InOrderPlacement placed}.




(** ** The invariant *)











(** ** The steps *)




Lemma same_slot_refl b m : same_slot b m m.
Proof. done. Qed.






End link.

(** An adapter that places words in increasing order, the head at once. *)
Definition upwards (T : Z) (A J : gset Z) : Prop :=
  exists r r', A = list_to_set (seqZ 0 r) /\ J = list_to_set (seqZ r (r' - r)) /\ 0 <= r <= r' /\ 7 <= r' <= T / 4 + 1.

#[local] Instance upwards_in_order : InOrderPlacement upwards.
Proof.
  split; intros T A J (r & r' & -> & -> & Hr & Hr').
  - rewrite !elem_of_union, !elem_of_list_to_set, !elem_of_seqZ. lia.
  - rewrite elem_of_list_to_set, elem_of_seqZ. intros HT. apply set_eq. intros j.
    rewrite elem_of_write_words, elem_of_union, !elem_of_list_to_set, !elem_of_seqZ. lia.
Qed.



