(* ===== verification/Procedure.v ===== *)
(** The clients' transactions: [Clients/NetTx/NicTxn/tpcc_procedure.cpp], the
    macros of [transaction/include/Transaction.h] and the key functions of
    [storage/include/tpcc_common.h].

    A procedure draws the parameters of a transaction, gathers keys, arguments
    and features in buffers of the transaction, and hands them to
    [push_new_call_write].  The random generators are parameters: [rnd k lo hi]
    is the [k]-th number drawn by a client thread, from the range [lo .. hi], and
    [zipf k] its [k]-th sample of the distribution [dd].  ([RandomNumber] scales a
    [double] of [fast_random], with two roundings; what the procedures need of it
    is the range that its [CheckBetweenInclusive] asserts, and that no value is
    drawn for ever, without which their loops do not end.) *)

From S2P Require Import Prelude Memory Config Feature RpcCommon Reply Client.

Class Rng := {
  rnd : Z -> Z -> Z -> Z;
  zipf : Z -> Z;
  hot_record : Z -> Z -> Z   (* hot.txt *) }.

(** * Keys *)

Definition NumItems : Z := 100000.
Definition NumCustomersPerDistrict : Z := 3000.
Definition NumDistrictsPerWarehouse : Z := 10.
Definition MAX_ITEM : Z := 15.

Definition WARE : Z := 0.
Definition DIST : Z := 1.
Definition CUST : Z := 2.
Definition ITEM : Z := 7.
Definition STOC : Z := 8.

Definition makeDistrictKey (w_id d_id : Z) : Z := u32 (d_id + w_id * NumDistrictsPerWarehouse).
Definition makeCustomerKey (w_id d_id c_id : Z) : Z :=
  Z.lor (Z.shiftl (u32 (w_id * NumDistrictsPerWarehouse + d_id)) 32) c_id.
Definition makeStockKey (w_id s_id : Z) : Z := u32 (s_id + w_id * 100000).

(** [tpcc_txn_type_t] *)
Definition ty_new_order : Z := 34.
Definition ty_pay : Z := 35.
Definition ty_del : Z := 36.
Definition ty_order : Z := 37.
Definition ty_stock : Z := 38.

(** [create_workgen_array_tpcc]: 50, 40, 2, 4 and 4 percent, or new orders only. *)
Definition workgen_arr_tpcc {CC : ClientConfig} (i : Z) : Z :=
  if TWOPHASE then ty_new_order
  else if i <? 50 then ty_new_order else if i <? 90 then ty_pay else if i <? 92 then ty_del
  else if i <? 96 then ty_order else ty_stock.

(** * The request under construction *)

(** The members from [main_read_count] on are the addresses of arrays in
    [my_ctx]. *)
Record build := {
  b_mem : memory; b_tx : switch_tx; b_draws : Z; args_count : Z;
  main_read_count : Z; main_read : Z; local_stocks : Z; local_item_ids : Z; local_supplies : Z;
  ycsb_key_arrays : Z; ycsb_col_arrays : Z }.

#[export] Instance eta_build : Eta build := fun b => {|
  b_mem := b_mem b; b_tx := b_tx b; b_draws := b_draws b; args_count := args_count b;
  main_read_count := main_read_count b; main_read := main_read b; local_stocks := local_stocks b;
  local_item_ids := local_item_ids b; local_supplies := local_supplies b;
  ycsb_key_arrays := ycsb_key_arrays b; ycsb_col_arrays := ycsb_col_arrays b |}.

(** [NEW_CTX_ARRAY]: the address of the array. *)
Definition new_ctx_array (sz len : Z) (b : build) : Z * build :=
  let t := b_tx b in
  (my_ctx t + ctx_offset t, b <| b_tx := t <| ctx_offset := ctx_offset t + len * sz |> |>).

(** [memset(feature, 0, sizeof(feature))] *)
Definition clear_feature (b : build) : build :=
  b <| b_mem := for_range 0 128 (fun k m => <[feature (b_tx b) + k := 0]> m) (b_mem b) |>.

(** [feature[f / 8] |= 1U << (f % 8)] *)
Definition set_feature (f : Z) (b : build) : build :=
  let a := feature (b_tx b) + f / 8 in
  b <| b_mem := st 1 (b_mem b) a (Z.lor (byte (b_mem b) a) (Z.shiftl 1 (f mod 8))) |>.

(** [ADD_TO_WRITEF]; [None]: the hash of a key of an unknown table. *)
Definition add_to_writef (my_id my_key : Z) (b : build) : option build :=
  let n := ld 4 (b_mem b) (main_read_count b) in
  let a := main_read b + 16 * n in
  let m := st 8 (st 8 (b_mem b) a my_id) (a + 8) my_key in
  f ← hash_k2f tpcc_partition (my_id, my_key);
  Some (set_feature (u16 f) (b <| b_mem := st 4 m (main_read_count b) (n + 1) |>)).

(** [ADD_TO_ARGS] *)
Definition add_to_args (v : Z) (b : build) : build :=
  b <| b_mem := st 4 (b_mem b) (args (b_tx b) + 4 * args_count b) v |> <| args_count := args_count b + 1 |>.

Definition add_all_args (l : list Z) (b : build) : build := foldl (fun b v => add_to_args v b) b l.

(** The four blocks of the TPC-C requests. *)
Definition tpcc_req (b : build) : reqs :=
  <[0 := {| rq_addr := main_read_count b; rq_size := 4 |}]>
  (<[1 := {| rq_addr := main_read b; rq_size := u32 (16 * ld 4 (b_mem b) (main_read_count b)) |}]>
  (<[2 := {| rq_addr := args (b_tx b); rq_size := u32 (8 * args_count b) |}]>
  (<[3 := {| rq_addr := feature (b_tx b); rq_size := 64 |}]> ∅))).

(** A request ready to be pushed: the blocks, their number and the type. *)
Record call := { call_req : reqs; call_num : Z; call_type : Z }.

Section procedures.
Context {C : Config} {CC : ClientConfig} {R : Rng}.

(** * Random numbers *)

Definition RandomNumber (lo hi : Z) (b : build) : Z * build :=
  (rnd (b_draws b) lo hi, b <| b_draws := b_draws b + 1 |>).

Definition sample (b : build) : Z * build := (u32 (zipf (b_draws b)), b <| b_draws := b_draws b + 1 |>).

Definition rand32 (b : build) : Z * build :=
  let '(r, t) := xorshift128 (b_tx b) in (r, b <| b_tx := t |>).

Definition NonUniformRandom (A Cc lo hi : Z) (b : build) : Z * build :=
  let '(x, b) := RandomNumber 0 A b in
  let '(y, b) := RandomNumber lo hi b in
  ((Z.lor x y + Cc) mod (hi - lo + 1) + lo, b).

(** [g_uniform_item_dist] is 0. *)
Definition GetItemId (b : build) : Z * build := NonUniformRandom 8191 7911 1 NumItems b.
Definition GetCustomerId (b : build) : Z * build := NonUniformRandom 1023 259 1 NumCustomersPerDistrict b.
Definition NumDistrictsPerWarehouse_ : Z := MAX_THREAD / 2.

Definition GetStartWarehouse (p : Z) : Z := p * scale_factor + 1.
Definition GetEndWarehouse (p : Z) : Z := (p + 1) * scale_factor.

Definition PickWarehouseId (b : build) : Z * build :=
  let lo := GetStartWarehouse 0 in let hi := GetEndWarehouse 0 in
  if hi - lo + 1 =? 1 then (lo, b) else RandomNumber lo hi b.

(** A warehouse from [gen], or from the Zipf distribution in the builds that
    have it. *)
Definition pick_w (gen : build -> Z * build) (b : build) : Z * build :=
  let '(w, b) := gen b in if ZIPFTPCC then sample b else (w, b).

Definition set_nic (v : Z) (b : build) : build := b <| b_tx := (b_tx b) <| nic := v |> |>.

Definition random_nic (b : build) : build :=
  let '(r, b) := RandomNumber 1 MAX_THREAD b in set_nic ((r - 1) mod MAX_THREAD) b.

(** The static partitions of the builds without the card. *)
Definition static_nic (w d : Z) (b : build) : build :=
  let b := if SPNIC2 then set_nic (((if w mod 3 =? 1 then 1 else 0) * 10 + (d - 1)) mod MAX_THREAD) b else b in
  if SPNICXX then set_nic ((w - 1) mod MAX_THREAD) b else b.

(** What the short procedures begin with; [len] keys are reserved. *)
Definition begin_short (len : Z) (b : build) : build :=
  let b := (random_nic (clear_feature b)) <| args_count := 0 |> in
  let '(a, b) := new_ctx_array 4 1 b in
  let b := b <| main_read_count := a |> <| b_mem := st 4 (b_mem b) a 0 |> in
  let '(a, b) := new_ctx_array 16 len b in
  b <| main_read := a |>.

Definition tpcc_call (ty : Z) (b : build) : call := {| call_req := tpcc_req b; call_num := 4; call_type := ty |}.

(** * TPC-C *)

Definition pick_warehouse_mod (b : build) : Z * build :=
  let '(r, b) := rand32 b in (r mod scale_factor + 1, b).

(** [do ... while (q_c_w_id == q_w_id)] *)
Fixpoint other_warehouse (fuel : nat) (q_w_id : Z) (b : build) : option (Z * build) :=
  match fuel with
  | O => None
  | S fuel => let '(w, b) := PickWarehouseId b in
              if w =? q_w_id then other_warehouse fuel q_w_id b else Some (w, b)
  end.

(** Home district, or one of another warehouse. *)
Definition customer_home (fuel : nat) (is_home : bool) (w d : Z) (b : build) : option (Z * Z * build) :=
  if is_home then Some (w, d, b)
  else '(cw, b) ← other_warehouse fuel w b;
       let '(cd, b) := RandomNumber 1 NumDistrictsPerWarehouse_ b in Some (cw, cd, b).

(** [by_name] is always false. *)
Definition payment_procedure (fuel : nat) (b : build) : option (build * call) :=
  let b := begin_short 6 b in
  let '(w, b) := pick_w pick_warehouse_mod b in
  let '(d, b) := RandomNumber 1 NumDistrictsPerWarehouse_ b in
  let b := static_nic w d (b <| b_tx := (b_tx b) <| warehouse_id := w |> |>) in
  let '(x, b) := RandomNumber 1 100 b in
  let '(_, b) := RandomNumber 1 100 b in
  let is_home := (scale_factor =? 1) || (x <=? 85) in
  '(cw, cd, b) ← customer_home fuel is_home w d b;
  b ← add_to_writef DIST (makeDistrictKey w d) b;
  let '(cid, b) := GetCustomerId b in
  let b := add_all_args [w; d; cw; cd; Z.b2z is_home; 0; cid] b in
  Some (b, tpcc_call 1 b).

Definition order_status (b : build) : option (build * call) :=
  let b := begin_short 6 b in
  let '(w, b) := pick_w PickWarehouseId b in
  let '(d, b) := RandomNumber 1 NumDistrictsPerWarehouse_ b in
  let '(x, b) := RandomNumber 1 100 b in
  let by_name := x <=? 60 in
  let '(cid, b) := if by_name then (0, b) else GetCustomerId b in
  b ← add_to_writef DIST (makeDistrictKey w d) b;
  let b := add_all_args [w; d; Z.b2z by_name; cid] b in
  Some (static_nic w d b, tpcc_call 2 b).

Definition stock_level (b : build) : option (build * call) :=
  let b := begin_short 6 b in
  let '(w, b) := pick_w PickWarehouseId b in
  let '(d, b) := RandomNumber 1 NumDistrictsPerWarehouse_ b in
  let b := static_nic w d b in
  b ← add_to_writef DIST (makeDistrictKey w d) b;
  let b := add_all_args [w; d] b in
  Some (b, tpcc_call 3 b).

(** The key is that of the member [warehouse_id], not of the warehouse drawn. *)
Definition delivery (b : build) : option (build * call) :=
  let b := begin_short 1 b in
  let '(w, b) := pick_w PickWarehouseId b in
  b ← add_to_writef WARE (warehouse_id (b_tx b)) b;
  let b := add_to_args w b in
  Some (b, tpcc_call 4 b).

(** ** New order *)

(** The arrays of [my_ctx], up to the last ones, which are not used. *)
Definition order_arrays (b : build) : build :=
  let '(a, b) := new_ctx_array 4 1 b in
  let b := b <| main_read_count := a |> in
  let '(a, b) := new_ctx_array 16 (MAX_ITEM * 2 + 10) b in
  let b := b <| main_read := a |> in
  let '(_, b) := new_ctx_array 8 MAX_ITEM b in   (* remote_stocks *)
  let '(_, b) := new_ctx_array 4 MAX_ITEM b in   (* remote_item_ids *)
  let '(_, b) := new_ctx_array 4 MAX_ITEM b in   (* remote_reply *)
  let '(a, b) := new_ctx_array 4 MAX_ITEM b in
  let b := b <| local_stocks := a |> in
  let '(a, b) := new_ctx_array 4 MAX_ITEM b in
  let b := b <| local_item_ids := a |> in
  let '(a, b) := new_ctx_array 4 MAX_ITEM b in
  b <| local_supplies := a |>.

Definition store_word (a v : Z) (b : build) : build := b <| b_mem := st 4 (b_mem b) a v |>.

(** One item: the local arrays, the arguments and the two keys. *)
Definition order_item (i w item s_key : Z) (b : build) : option build :=
  let b := store_word (local_supplies b + 4 * i) w b in
  let b := store_word (local_item_ids b + 4 * i) item b in
  let b := store_word (local_stocks b + 4 * i) s_key b in
  let b := add_all_args [item; w] b in
  let '(q, b) := RandomNumber 1 10 b in
  let b := add_to_args q b in
  b ← add_to_writef ITEM item b;
  add_to_writef STOC s_key b.

(** The loop over the items: a stock drawn twice is drawn again.  There is one
    server ([KEY2NODE_MOD = 1]), so every stock is local. *)
Fixpoint order_items (fuel : nat) (i n w : Z) (stock_set : list Z) (b : build) : option build :=
  if i <? n then
    match fuel with
    | O => None
    | S fuel =>
        let '(item, b) := GetItemId b in
        let s_key := makeStockKey w item in
        if bool_decide (s_key ∈ stock_set) then order_items fuel i n w stock_set b
        else b ← order_item i w item s_key b; order_items fuel (i + 1) n w (s_key :: stock_set) b
    end
  else Some b.

Definition new_order_procedure (fuel : nat) (b : build) : option (build * call) :=
  let b := (clear_feature b) <| args_count := 0 |> in
  let '(_, b) := PickWarehouseId b in
  let '(w, b) := pick_w pick_warehouse_mod b in
  let '(d, b) := RandomNumber 1 NumDistrictsPerWarehouse_ b in
  let '(cid, b) := GetCustomerId b in
  let b := b <| b_tx := (b_tx b) <| warehouse_id := w |> |> in
  let b := order_arrays b in
  let b := store_word (main_read_count b) 0 b in
  let '(n, b) := RandomNumber 5 MAX_ITEM b in
  b ← add_to_writef CUST (makeCustomerKey w d cid) b;
  b ← add_to_writef WARE w b;
  b ← add_to_writef DIST (makeDistrictKey w d) b;
  let b := add_all_args [w; d; cid; n] b in
  b ← order_items fuel 0 n w [] b;
  let '(r, b) := rand32 b in
  let b := static_nic w d (set_nic (r mod MAX_THREAD) b) in
  Some (b, tpcc_call 0 b).

(** * YCSB *)

Definition ycsb_arrays (b : build) : build :=
  let b := b <| args_count := 0 |> <| b_mem := st 8 (b_mem b) (write_bits_addr (b_tx b)) 0 |>
             <| b_tx := (b_tx b) <| ctx_offset := 0 |> |> in
  let '(a, b) := new_ctx_array 4 YCSBSIZE b in
  let b := b <| ycsb_key_arrays := a |> in
  let '(a, b) := new_ctx_array 2 YCSBSIZE b in
  b <| ycsb_col_arrays := a |>.

(** [ADD_TO_YCSB_READ] and [ADD_TO_YCSB_WRITEF] *)
Definition add_ycsb_read (i col key : Z) (b : build) : build :=
  b <| b_mem := st 4 (st 2 (b_mem b) (ycsb_col_arrays b + 2 * i) col) (ycsb_key_arrays b + 4 * i) key |>.

Definition add_ycsb_writef (i col key : Z) (b : build) : build :=
  set_feature (u16 (hash_k2f_ycsb col key)) (add_ycsb_read i col key b).

(** [ADD_TO_YCSB_WRITE_BIT] *)
Definition add_write_bit (i : Z) (b : build) : build :=
  let a := write_bits_addr (b_tx b) in
  b <| b_mem := st 8 (b_mem b) a (Z.lor (ld 8 (b_mem b) a) (Z.shiftl 1 i)) |>.

(** The keys of the dynamic workload are shifted. *)
Definition shift_key (dyn : bool) (key : Z) : Z := if dyn then u32 (key + 20012) else key.

(** A key that the request does not have yet ([outx] is 0, so the uniform
    draws are never reached). *)
Fixpoint fresh_key (fuel : nat) (dyn : bool) (ycsb_set : list Z) (key : Z) (b : build) : option (Z * build) :=
  if bool_decide (key ∈ ycsb_set) || (dyn && (key mod 25 =? 0)) then
    match fuel with
    | O => None
    | S fuel => let '(key, b) := sample b in fresh_key fuel dyn ycsb_set (shift_key dyn key) b
    end
  else Some (key, b).

(** Draws whether item [i] is written. *)
Definition ycsb_write (i : Z) (b : build) : bool * build :=
  let '(r, b) := RandomNumber 1 100 b in
  if r <? YCSBWRITE then (true, add_write_bit i b) else (false, b).

Definition ycsb_item (fuel : nat) (x : Z) (dyn : bool) (i : Z) (st : list Z * Z * build)
    : option (list Z * Z * build) :=
  let '(ycsb_set, num, b) := st in
  let '(key, b) := sample b in
  '(key, b) ← fresh_key fuel dyn ycsb_set (shift_key dyn key) b;
  let '(is_write, b) := ycsb_write i b in
  let '(r, b) := RandomNumber 1 100 b in
  let b := if NEWORDERP <? r then add_ycsb_read i x key b else add_ycsb_writef i x key b in
  Some (key :: ycsb_set, num + Z.b2z is_write, b).

Definition ycsb_call (num : Z) (b : build) : call := {|
  call_req :=
    <[0 := {| rq_addr := write_bits_addr (b_tx b); rq_size := 8 |}]>
    (<[1 := {| rq_addr := ycsb_key_arrays b; rq_size := 4 * YCSBSIZE |}]>
    (<[2 := {| rq_addr := ycsb_col_arrays b; rq_size := 2 * YCSBSIZE |}]>
    (<[3 := {| rq_addr := ycsb_ctx (b_tx b); rq_size := u32 (u16 num * COL_WIDTH) |}]> ∅)));
  call_num := 4; call_type := 0 |}.

Definition YCSB_partitional (fuel : nat) (b : build) : option (build * call) :=
  let '(r, b) := RandomNumber 1 20 b in
  let x := r - 1 in
  let b := ycsb_arrays (random_nic (clear_feature b)) in
  let dyn := 49069 <? ycsb_count (b_tx b) in
  '(_, num, b) ← for_opt 0 YCSBSIZE (ycsb_item fuel x dyn) ([], 0, b);
  let b := if SPNIC2 then set_nic x b else b in
  Some (b, ycsb_call num b).

(** The [i]-th item of [HOT] ([col] is drawn and not used). *)
Definition hot_item (fuel : nat) (hot_col base part_size : Z) (i : Z) (st : list Z * Z * build)
    : option (list Z * Z * build) :=
  let '(ycsb_set, num, b) := st in
  let '(key, b) := sample b in
  let '(_, b) := rand32 b in
  '(key, b) ← fresh_key fuel false ycsb_set (key mod part_size) b;
  let '(r, b) := RandomNumber 1 100 b in
  let b := add_ycsb_read i hot_col (u32 (key + base)) b in
  Some (if r <? YCSBWRITE then (key :: ycsb_set, num + 1, add_write_bit i b) else (key :: ycsb_set, num, b)).

Definition HOT (fuel : nat) (b : build) : option (build * call) :=
  let b := b <| b_tx := (b_tx b) <| ycsb_count := u64 (ycsb_count (b_tx b) + 1) |> |> in
  let '(_, b) := RandomNumber 1 20 b in
  let b := ycsb_arrays (random_nic (clear_feature b)) in
  let '(r, b) := RandomNumber 1 20 b in
  let hot_p := r - 1 in
  let hot_pair := hot_record (now_phase (b_tx b) mod 8) hot_p in
  let hot_col := hot_pair / 5 in
  let hot_key := hot_pair mod 5 in
  let b := add_ycsb_writef 0 hot_col hot_key (add_write_bit 0 b) in
  let part_size := YCSB_TABLE_SIZE / YCSBCOL / 5 - 1 in
  let base := u32 (hot_key * part_size + 5) in
  '(_, num, b) ← for_opt 1 YCSBSIZE (hot_item fuel hot_col base part_size) ([hot_key], 1, b);
  let b := if SPNIC2 then set_nic hot_col b else b in
  let b := if SPNICXX then set_nic hot_p b else b in
  Some (b, ycsb_call num b).

Definition null_rpc (b : build) : build * call :=
  let b := ycsb_arrays (random_nic (clear_feature b)) in
  (b, {| call_req := <[0 := {| rq_addr := ycsb_ctx (b_tx b); rq_size := RPCSIZE |}]> ∅;
         call_num := 1; call_type := 0 |}).

(** * The choice of a transaction *)

Definition set_latency_type (v : Z) (b : build) : build :=
  b <| b_tx := (b_tx b) <| tpcc_latency_type := v |> |>.

Definition tpcc_procedure (fuel : nat) (b : build) : option (build * call) :=
  if NULLRPC then Some (null_rpc (set_latency_type ty_new_order b))
  else if YCSBHOT then HOT fuel (set_latency_type ty_new_order b)
  else if YCSBplusT then YCSB_partitional fuel (set_latency_type ty_new_order b)
  else
    let '(r, b) := rand32 b in
    let x := workgen_arr_tpcc (r mod 100) in
    let b := set_latency_type x b in
    if x =? ty_new_order then new_order_procedure fuel b
    else if x =? ty_pay then payment_procedure fuel b
    else if x =? ty_del then delivery b
    else if x =? ty_order then order_status b
    else if x =? ty_stock then stock_level b
    else new_order_procedure fuel (set_latency_type ty_new_order b).

End procedures.
