(* ===== verification/ClientLoop.v ===== *)
(** The loop of a client thread: [generate_tx], [run_tpcc_client] (the loop of
    every build) and [run_client] of [NicTxn/nictxn_as_client.cpp]. *)

From S2P Require Import Prelude Memory Config RpcCommon Reply Client Procedure.

Section loop.
Context {C : Config} {CC : ClientConfig} {R : Rng} {W : Type}.
Context (ibv_post_send : Z -> list send_wr -> W -> Z * W)
        (ibv_poll_cq : bool -> Z -> W -> Z * list Z * W).

(** A transaction starts to build its request. *)
Definition start_build (t : switch_tx) (c : client) : build := {|
  b_mem := cl_mem c; b_tx := start t; b_draws := draws c; args_count := 0;
  main_read_count := 0; main_read := 0; local_stocks := 0; local_item_ids := 0; local_supplies := 0;
  ycsb_key_arrays := 0; ycsb_col_arrays := 0 |}.

(** [generate_tx]: [start], and the procedure that [sys_execution] runs up to its
    call of [push_new_call_write]. *)
Definition generate_tx (fuel : nat) (i : Z) (c : client) (w : W) : option (client * W) :=
  t ← my_tx c !! i;
  '(b, cl) ← tpcc_procedure fuel (start_build t c);
  let c := (set_tx i (b_tx b) c) <| cl_mem := b_mem b |> <| draws := b_draws b |> in
  '(c, w, _) ← push_new_call_write ibv_post_send ibv_poll_cq fuel 0 JUST_COMMIT (call_req cl) (call_num cl)
                 (call_type cl) (tx_id (b_tx b)) (nic (b_tx b)) (feature (b_tx b)) c w;
  Some (c, w).

(** The reply word of slot [i] holds the answer that transaction [t] waits
    for. *)
Definition answered (x : Connect) (i : Z) (t : switch_tx) (m : memory) : bool :=
  ld 4 m (rpc_id_addr (get_my_reply_addr x i)) =? u32 (single_rpc_id t + NOTHING_DEBUG).

(** The body of the [for] of [run_tpcc_client]; the boolean is the [break].  The
    latencies are not modelled. *)
Definition tpcc_client_slot (fuel : nat) (i : Z) (c : client) (w : W) : option (client * W * bool) :=
  t ← my_tx c !! i;
  if negb (is_busy t) then
    if negb (delivery_reply_ok (u32 (rpcnum c).[0]) c && delivery_reply_ok (u32 ((rpcnum c).[0] + 1)) c)
    then Some (c, w, true)
    else
      _ ← connect c !! single_node_id t;
      '(c, w) ← generate_tx fuel i (c <| test_count_client := u64 (test_count_client c + 1) |>) w;
      t ← my_tx c !! i;
      Some (if tpcc_latency_type t =? ty_del
            then c <| no_delivery_flag := <[single_rpc_id t := 0]> (no_delivery_flag c) |> else c, w, false)
  else
    x ← connect c !! single_node_id t;
    if answered x i t (cl_mem c) then
      let t := t <| now_phase := byte (cl_mem c) (my_nodeid_addr (get_my_reply_addr x i)) |> in
      c ← throughput_c i (set_tx i t c);
      Some (c, w, false)
    else Some (c, w, false).

Fixpoint tpcc_client_slots (fuel : nat) (l : list Z) (c : client) (w : W) : option (client * W) :=
  match l with
  | [] => Some (c, w)
  | i :: l => '(c, w, stop) ← tpcc_client_slot fuel i c w;
              if stop : bool then Some (c, w) else tpcc_client_slots fuel l c w
  end.

(** The look at one delivery's answer at the end of a round. *)
Definition poll_delivery (d_i : Z) (c : client) : option client :=
  if (no_delivery_flag c).[d_i] =? 0 then
    '(ok, c) ← update_reply_flag d_i 0 c;
    Some (if ok : bool then c <| no_delivery_flag := <[d_i := 1]> (no_delivery_flag c) |> else c)
  else Some c.

Definition tpcc_client_round (fuel : nat) (d_i : Z) (c : client) (w : W) : option (Z * client * W) :=
  '(c, w) ← tpcc_client_slots fuel (seqZ 0 SLOT_NUM) c w;
  c ← poll_delivery d_i c;
  Some ((d_i + 1) mod IDMAPADDRSIZE, c, w).

(** What [run_tpcc_client] does before its loop. *)
Definition tpcc_client_init (c : client) : client :=
  c <| strife_cqe := ∅ |>
    <| no_delivery_flag := for_range 0 IDMAPADDRSIZE (fun i m => <[i := 1]> m) (no_delivery_flag c) |>.

(** The body of the [for] of [run_client]. *)
Definition client_slot (fuel : nat) (i : Z) (c : client) (w : W) : option (client * W) :=
  t ← my_tx c !! i;
  x ← connect c !! single_node_id t;
  if negb (is_busy t) then
    generate_tx fuel i (c <| test_count_client := u64 (test_count_client c + 1) |>) w
  else if answered x i t (cl_mem c) then c ← throughput_c i c; Some (c, w)
  else Some (c, w).

End loop.
