(* ===== verification/ProcedureProps.v ===== *)
(** The requests that the TPC-C procedures build: the keys, the arguments and the
    features that reach the server are those of the transaction drawn. *)

From S2P Require Import Prelude Memory Config Feature RpcCommon Reply Client Procedure.

#[local] Set Default Proof Using "Type*".

#[local] Arguments ld : simpl never.
#[local] Arguments st : simpl never.

(** ** Buffers *)

Definition CTXBUFFER : Z := 2048.
Definition ARGS_LEN : Z := 400.
Definition FEATURE_LEN : Z := 128.

(** The [n] bytes at [a] and the [n'] bytes at [a'] are disjoint. *)
Definition apart (a n a' n' : Z) : Prop := a + n <= a' \/ a' + n' <= a.

(** The buffers of a transaction do not overlap. *)
Record tx_layout (t : switch_tx) : Prop := {
  tl_ctx_args : apart (my_ctx t) CTXBUFFER (args t) ARGS_LEN;
  tl_ctx_feature : apart (my_ctx t) CTXBUFFER (feature t) FEATURE_LEN;
  tl_args_feature : apart (args t) ARGS_LEN (feature t) FEATURE_LEN }.

(** [x] is in none of them. *)
Definition not_in_tx (t : switch_tx) (x : Z) : Prop :=
  apart (my_ctx t) CTXBUFFER x 1 /\ apart (args t) ARGS_LEN x 1 /\ apart (feature t) FEATURE_LEN x 1.

(** [t'] has the buffers of [t], and its warehouse fits. *)
Definition same_buffers (t t' : switch_tx) : Prop :=
  tx_id t' = tx_id t /\ my_ctx t' = my_ctx t /\ args t' = args t /\ feature t' = feature t /\
  single_node_id t' = single_node_id t /\ is_busy t' = is_busy t /\
  (uint 32 (warehouse_id t) -> uint 32 (warehouse_id t')).

Lemma tx_layout_same t t' : tx_layout t -> same_buffers t t' -> tx_layout t'.
Proof. intros [L1 L2 L3] (_ & E1 & E2 & E3 & _). split; by rewrite ?E1, ?E2, ?E3. Qed.

(** ** The request under construction *)

(** From the memory [m0] the transaction has gathered the keys [ks] and the
    arguments [vs]. *)
Record built (m0 : memory) (b : build) (ks : list (Z * Z)) (vs : list Z) : Prop := {
  bu_layout : tx_layout (b_tx b);
  bu_ctx : main_read_count b = my_ctx (b_tx b) /\ main_read b = my_ctx (b_tx b) + 4;
  bu_len : (length ks <= 40 /\ length vs <= 100)%nat;
  bu_count : ld 4 (b_mem b) (main_read_count b) = Z.of_nat (length ks);
  bu_keys : forall (i : nat) k, ks !! i = Some k ->
    ld 8 (b_mem b) (main_read b + 16 * Z.of_nat i) = u64 k.1 /\
    ld 8 (b_mem b) (main_read b + 16 * Z.of_nat i + 8) = u64 k.2;
  bu_nargs : args_count b = Z.of_nat (length vs);
  bu_args : forall (i : nat) v, vs !! i = Some v -> ld 4 (b_mem b) (args (b_tx b) + 4 * Z.of_nat i) = u32 v;
  bu_features : forall f, 0 <= f < 512 ->
    Z.testbit (byte (b_mem b) (feature (b_tx b) + f / 8)) (f mod 8) = true <->
    exists k, k ∈ ks /\ hash_k2f tpcc_partition k = Some f;
  bu_frame : forall x, not_in_tx (b_tx b) x -> byte (b_mem b) x = byte m0 x }.

Section built.
Context (m0 : memory).

(** Only the memory, the buffers and the array addresses matter. *)
Lemma built_same b b' ks vs :
  built m0 b ks vs -> b_mem b' = b_mem b -> same_buffers (b_tx b) (b_tx b') ->
  args_count b' = args_count b -> main_read_count b' = main_read_count b -> main_read b' = main_read b ->
  built m0 b' ks vs.
Proof.
  intros [[L1 L2 L3] H2 H3 H4 H5 H6 H7 H8 H9] Em (_ & E1 & E2 & E3 & _) E4 E5 E6.
  split; unfold not_in_tx; rewrite ?Em, ?E1, ?E2, ?E3, ?E4, ?E5, ?E6; try done.
  split; by rewrite ?E1, ?E2, ?E3.
Qed.

Lemma add_to_args_built b ks vs v :
  built m0 b ks vs -> (length vs < 100)%nat -> built m0 (add_to_args v b) ks (vs ++ [v]).
Proof.
  intros H Hl. pose proof H as [[L1 L2 L3] [H2 H2'] H3 H4 H5 H6 H7 H8 H9].
  unfold apart, CTXBUFFER, ARGS_LEN, FEATURE_LEN in *. unfold add_to_args. rewrite H6.
  set (a := args (b_tx b)) in *. split; cbn [b_tx main_read_count main_read args_count b_mem set_field]; cbn.
  - split; done.
  - done.
  - rewrite length_app. cbn. lia.
  - fold a. rewrite ld_st_ne by lia. done.
  - intros i k Hk. fold a. assert (i < 40)%nat by (apply lookup_lt_Some in Hk; lia).
    rewrite !ld_st_ne by lia. by apply H5.
  - rewrite length_app. cbn. lia.
  - intros i v' Hv. fold a. apply lookup_app_Some in Hv as [Hv|[Hi Hv]].
    + pose proof (lookup_lt_Some _ _ _ Hv). rewrite ld_st_ne by lia. by apply H7.
    + apply list_lookup_singleton_Some in Hv as [Hv <-]. replace i with (length vs) by lia. apply ld32_st32.
  - intros f Hf. fold a. pose proof (Z.div_lt_upper_bound f 8 64). pose proof (Z.div_pos f 8).
    rewrite byte_st by lia. by apply H8.
  - intros x Hx. fold a. unfold not_in_tx, apart, ARGS_LEN in Hx. fold a in Hx.
    rewrite byte_st by lia. by apply H9.
Qed.

Lemma add_all_args_built b ks vs l :
  built m0 b ks vs -> (length vs + length l <= 100)%nat -> built m0 (add_all_args l b) ks (vs ++ l).
Proof.
  unfold add_all_args. revert b vs. induction l as [|v l IH]; intros b vs H Hl; cbn [foldl].
  { by rewrite app_nil_r. }
  cbn [length] in Hl. replace (vs ++ v :: l) with ((vs ++ [v]) ++ l) by by rewrite <-(assoc_L (++)).
  apply IH; [apply add_to_args_built; [done|lia]|rewrite length_app; cbn; lia].
Qed.

Lemma byte_st1 m a v x : byte (st 1 m a v) x = if decide (a = x) then u8 v else byte m x.
Proof. exact (byte_insert m a (u8 v) x (wrap_range 8 v ltac:(lia))). Qed.

(** A bit of the feature array after [set_feature]. *)
Lemma set_feature_bit f b g :
  0 <= f < 512 -> 0 <= g < 512 ->
  Z.testbit (byte (b_mem (set_feature f b)) (feature (b_tx b) + g / 8)) (g mod 8)
  = Z.testbit (byte (b_mem b) (feature (b_tx b) + g / 8)) (g mod 8) || (f =? g).
Proof.
  intros Hf Hg. unfold set_feature. cbn [b_mem set_field]. cbn.
  pose proof (Z.div_mod f 8 ltac:(lia)). pose proof (Z.div_mod g 8 ltac:(lia)).
  pose proof (Z.mod_pos_bound f 8 ltac:(lia)). pose proof (Z.mod_pos_bound g 8 ltac:(lia)).
  rewrite byte_st1. case_decide as E.
  - rewrite testbit_wrap, Z.lor_spec by lia. destruct (Z.ltb_spec (g mod 8) 8); [|lia].
    cbn [andb]. replace (f / 8) with (g / 8) by lia. f_equal. rewrite Z.shiftl_spec by lia.
    destruct (Z.eqb_spec f g) as [->|]; [by rewrite Z.sub_diag|].
    destruct (decide (f mod 8 < g mod 8)); [|rewrite Z.testbit_neg_r by lia; done].
    change 1 with (2 ^ 0). rewrite Z.pow2_bits_false by lia. done.
  - destruct (Z.eqb_spec f g) as [->|]; [lia|]. by rewrite orb_false_r.
Qed.

Lemma add_to_writef_built b ks vs id key :
  built m0 b ks vs -> (length ks < 40)%nat -> 0 <= id < 12 -> 0 <= key ->
  exists b', add_to_writef id key b = Some b' /\ built m0 b' (ks ++ [(id, key)]) vs /\
    b_tx b' = b_tx b /\ b_draws b' = b_draws b /\ local_supplies b' = local_supplies b /\
    local_item_ids b' = local_item_ids b /\ local_stocks b' = local_stocks b.
Proof.
  intros H Hl Hid Hkey. pose proof H as [[L1 L2 L3] [H2 H2'] H3 H4 H5 H6 H7 H8 H9].
  unfold apart, CTXBUFFER, ARGS_LEN, FEATURE_LEN in *.
  destruct (table_bounds _ Hid) as (T1 & T2 & T3). pose proof (Z.mod_pos_bound key _ T2).
  set (f := (offset tpcc_partition).[id] + key mod (fsize tpcc_partition).[id]).
  assert (Ef : hash_k2f tpcc_partition (id, key) = Some f).
  { unfold hash_k2f. cbn [fst snd]. destruct (Z.eqb_spec (fsize tpcc_partition).[id] 0); [lia|done]. }
  assert (Hf : 0 <= f < 512) by (unfold f; lia).
  unfold add_to_writef. rewrite Ef. cbn [mbind option_bind]. rewrite (wrap_small 16 f) by (unfold uint; lia).
  rewrite H4. set (n := Z.of_nat (length ks)). set (a := main_read b + 16 * n).
  set (m1 := st 8 (st 8 (b_mem b) a id) (a + 8) key). set (m2 := st 4 m1 (main_read_count b) (n + 1)).
  set (b1 := b <| b_mem := m2 |>). eexists. split; [reflexivity|]. split; [|done].
  change (b_tx b) with (b_tx b1) in *. set (t := b_tx b1) in *.
  assert (O1 : forall x, apart (my_ctx t) 2048 x 1 -> byte m2 x = byte (b_mem b) x).
  { intros x Hx. unfold apart in Hx. unfold m2, m1, a. rewrite !byte_st by lia. done. }
  assert (OF : forall x, apart (feature t) 128 x 1 -> byte (b_mem (set_feature f b1)) x = byte m2 x).
  { intros x Hx. unfold apart in Hx.
    change (b_mem (set_feature f b1)) with (st 1 m2 (feature t + f / 8)
      (Z.lor (byte m2 (feature t + f / 8)) (Z.shiftl 1 (f mod 8)))).
    rewrite byte_st1, decide_False; [done|]. pose proof (Z.div_lt_upper_bound f 8 64). pose proof (Z.div_pos f 8). lia. }
  assert (OL : forall k x, x + Z.of_nat k <= feature t \/ feature t + 128 <= x ->
    ld k (b_mem (set_feature f b1)) x = ld k m2 x).
  { intros k x Hx. apply ld_ext. intros y Hy. apply OF. unfold apart. lia. }
  split.
  - by split.
  - done.
  - rewrite length_app. cbn. lia.
  - change (main_read_count (set_feature f b1)) with (main_read_count b). rewrite OL by lia.
    unfold m2. rewrite ld32_st32, length_app. cbn. rewrite wrap_small by (unfold uint; lia). lia.
  - change (main_read (set_feature f b1)) with (main_read b). intros i k Hk.
    assert (i < 40)%nat by (apply lookup_lt_Some in Hk; rewrite length_app in Hk; cbn in Hk; lia).
    rewrite !OL by lia. unfold m2. rewrite !(ld_st_ne 8 4) by lia. unfold m1, a.
    apply lookup_app_Some in Hk as [Hk|[Hi Hk]].
    + pose proof (lookup_lt_Some _ _ _ Hk). rewrite !ld_st_ne by lia. by apply H5.
    + apply list_lookup_singleton_Some in Hk as [Hk <-]. replace (Z.of_nat i) with n by lia.
      cbn [fst snd]. by rewrite ld_st_ne, !ld64_st64 by lia.
  - done.
  - change (args (b_tx (set_feature f b1))) with (args t). intros i v Hv.
    pose proof (lookup_lt_Some _ _ _ Hv). rewrite OL by lia. rewrite <-(H7 i v Hv).
    apply ld_ext. intros y Hy. apply O1. unfold apart. lia.
  - intros g Hg. change (b_tx (set_feature f b1)) with (b_tx b1). rewrite set_feature_bit by done.
    change (b_mem b1) with m2. fold t. pose proof (Z.div_lt_upper_bound g 8 64). pose proof (Z.div_pos g 8).
    rewrite O1 by (unfold apart; lia). rewrite orb_true_iff, H8, Z.eqb_eq by done. split.
    + intros [(k & Hk & E)| <-]; [exists k; split; [by apply elem_of_app; left|done]|].
      exists (id, key). split; [apply elem_of_app; right; by left|done].
    + intros (k & [Hk|Hk]%elem_of_app & E); [left; by exists k|right].
      apply list_elem_of_singleton in Hk as ->. congruence.
  - intros x (X1 & X2 & X3). change (b_tx (set_feature f b1)) with t in *.
    unfold CTXBUFFER, FEATURE_LEN in *. rewrite OF, O1 by done. by apply H9.
Qed.

(** ** Steps that leave the request alone *)

Definition idle (b b' : build) : Prop :=
  b_mem b' = b_mem b /\ same_buffers (b_tx b) (b_tx b') /\ args_count b' = args_count b /\
  main_read_count b' = main_read_count b /\ main_read b' = main_read b /\
  local_stocks b' = local_stocks b /\ local_item_ids b' = local_item_ids b /\
  local_supplies b' = local_supplies b /\ ctx_offset (b_tx b') = ctx_offset (b_tx b).

Lemma same_buffers_refl t : same_buffers t t.
Proof. done. Qed.

Lemma same_buffers_trans t1 t2 t3 : same_buffers t1 t2 -> same_buffers t2 t3 -> same_buffers t1 t3.
Proof. unfold same_buffers. intros. intuition congruence. Qed.

Lemma idle_refl b : idle b b.
Proof. done. Qed.

Lemma idle_trans b1 b2 b3 : idle b1 b2 -> idle b2 b3 -> idle b1 b3.
Proof. unfold idle, same_buffers. intros. intuition congruence. Qed.

Lemma built_idle b b' ks vs : built m0 b ks vs -> idle b b' -> built m0 b' ks vs.
Proof. intros H (E1 & E2 & E3 & E4 & E5 & _). by eapply built_same. Qed.

(** Clearing the features and an empty key array start a request. *)
Lemma clear_feature_mem b x :
  byte (b_mem (clear_feature b)) x
  = if (feature (b_tx b) <=? x) && (x <? feature (b_tx b) + 128) then 0 else byte (b_mem b) x.
Proof.
  unfold clear_feature. cbn [b_mem set_field]. cbn [setter]. set (a := feature (b_tx b)).
  change (byte (for_range 0 128 (fun k m => <[a + k := 0]> m) (b_mem b)) x
    = if (a <=? x) && (x <? a + 128) then 0 else byte (b_mem b) x).
  apply (for_range_ind (fun k m => byte m x = if (a <=? x) && (x <? a + k) then 0 else byte (b_mem b) x)); [lia| |].
  - destruct (Z.leb_spec a x), (Z.ltb_spec x (a + 0)); (done || lia).
  - intros k m Hk IH. rewrite byte_insert by (unfold uint; lia). rewrite IH. case_decide as E.
    + destruct (Z.leb_spec a x), (Z.ltb_spec x (a + (k + 1))); (done || lia).
    + destruct (Z.leb_spec a x), (Z.ltb_spec x (a + k)), (Z.ltb_spec x (a + (k + 1))); (done || lia).
Qed.

Lemma built_empty b m1 :
  tx_layout (b_tx b) -> main_read_count b = my_ctx (b_tx b) -> main_read b = my_ctx (b_tx b) + 4 ->
  args_count b = 0 ->
  (forall x, byte m1 x = if (feature (b_tx b) <=? x) && (x <? feature (b_tx b) + 128) then 0 else byte m0 x) ->
  b_mem b = st 4 m1 (main_read_count b) 0 -> built m0 b [] [].
Proof.
  intros [L1 L2 L3] E1 E2 E3 HM Em. unfold apart, CTXBUFFER, ARGS_LEN, FEATURE_LEN in *.
  split; try done; cbn.
  - lia.
  - by rewrite Em, ld32_st32.
  - intros f Hf. pose proof (Z.div_lt_upper_bound f 8 64). pose proof (Z.div_pos f 8).
    rewrite Em, byte_st, HM by lia.
    destruct (Z.leb_spec (feature (b_tx b)) (feature (b_tx b) + f / 8)),
      (Z.ltb_spec (feature (b_tx b) + f / 8) (feature (b_tx b) + 128)); try lia. cbn [andb].
    rewrite Z.bits_0. split; [done|]. by intros (k & ?%not_elem_of_nil & _).
  - intros x (X1 & _ & X3). unfold apart, CTXBUFFER, FEATURE_LEN in *. rewrite Em, byte_st, HM by lia.
    destruct (Z.leb_spec (feature (b_tx b)) x), (Z.ltb_spec x (feature (b_tx b) + 128)); (done || lia).
Qed.

(** A store into the arrays behind the keys. *)
Lemma store_word_built b ks vs a v :
  built m0 b ks vs -> main_read b + 16 * 40 <= a -> a + 4 <= my_ctx (b_tx b) + CTXBUFFER ->
  built m0 (store_word a v b) ks vs.
Proof.
  intros H Ha1 Ha2. pose proof H as [[L1 L2 L3] [H2 H2'] H3 H4 H5 H6 H7 H8 H9].
  unfold apart, CTXBUFFER, ARGS_LEN, FEATURE_LEN in *.
  split; unfold store_word; cbn [b_tx main_read_count main_read args_count b_mem set_field]; cbn; try done.
  - rewrite ld_st_ne by lia. done.
  - intros i k Hk. assert (i < 40)%nat by (apply lookup_lt_Some in Hk; lia).
    rewrite !ld_st_ne by lia. by apply H5.
  - intros i v' Hv. pose proof (lookup_lt_Some _ _ _ Hv). rewrite ld_st_ne by lia. by apply H7.
  - intros f Hf. pose proof (Z.div_lt_upper_bound f 8 64). pose proof (Z.div_pos f 8).
    rewrite byte_st by lia. by apply H8.
  - intros x Hx. unfold not_in_tx, apart, CTXBUFFER in Hx. rewrite byte_st by lia. by apply H9.
Qed.
End built.

(** ** Progress of a request *)

Section going.
Context {b0 : build}.

(** From a request with the same buffers, the next step. *)
Definition going (b : build) (ks : list (Z * Z)) (vs : list Z) : Prop :=
  built (b_mem b0) b ks vs /\ same_buffers (b_tx b0) (b_tx b).

Lemma going_idle b b' ks vs : going b ks vs -> idle b b' -> going b' ks vs.
Proof.
  intros [H1 H2] H. split; [by eapply built_idle|]. destruct H as (_ & H & _). by eapply same_buffers_trans.
Qed.

Lemma going_key b ks vs id key :
  going b ks vs -> (length ks < 40)%nat -> 0 <= id < 12 -> 0 <= key ->
  exists b', add_to_writef id key b = Some b' /\ going b' (ks ++ [(id, key)]) vs /\ b_tx b' = b_tx b /\
    b_draws b' = b_draws b /\ local_supplies b' = local_supplies b /\
    local_item_ids b' = local_item_ids b /\ local_stocks b' = local_stocks b.
Proof.
  intros [H1 H2] Hl Hid Hk. destruct (add_to_writef_built (b_mem b0) b ks vs id key H1 Hl Hid Hk) as (b' & E & H & ET & HD).
  exists b'. split; [done|]. split; [|done]. split; [done|]. by rewrite ET.
Qed.

Lemma going_args b ks vs l :
  going b ks vs -> (length vs + length l <= 100)%nat -> going (add_all_args l b) ks (vs ++ l).
Proof.
  intros [H1 H2] Hl. split; [by apply add_all_args_built|].
  assert (b_tx (add_all_args l b) = b_tx b) as ->; [|done]. clear. unfold add_all_args.
  revert b. induction l as [|v l IH]; intros b; cbn [foldl]; [done|]. by rewrite IH.
Qed.

End going.
Arguments going : clear implicits.

(** ** Random numbers *)

(** The item that [GetItemId] makes of the [k]-th and the following number. *)
Definition item_at {R : Rng} (k : Z) : Z :=
  (Z.lor (rnd k 0 8191) (rnd (k + 1) 1 NumItems) + 7911) mod NumItems + 1.

(** The generators stay in their ranges (asserted by [CheckBetweenInclusive])
    and do not avoid a value for ever. *)
Class RngOk {CC : ClientConfig} (R : Rng) : Prop := {
  rnd_range : forall k lo hi, lo <= hi -> lo <= rnd k lo hi <= hi;
  zipf_range : ZIPFTPCC = true -> forall k, 1 <= zipf k <= scale_factor;
  scale_ok : 0 < scale_factor <= 1000;
  fresh_item : forall k (l : list Z), (length l <= 15)%nat -> exists j : nat, item_at (k + 2 * Z.of_nat j) ∉ l;
  fresh_warehouse : forall k w, 1 < scale_factor -> exists j : nat, rnd (k + Z.of_nat j) 1 scale_factor <> w }.

Section procedures.
Context {C : Config} {CO : ConfigOk C} {CC : ClientConfig} {R : Rng} {RO : RngOk R}.

Lemma idle_RandomNumber lo hi b v b' : RandomNumber lo hi b = (v, b') -> idle b b' /\ b_draws b' = b_draws b + 1.
Proof. intros [= <- <-]. done. Qed.

Lemma RandomNumber_range lo hi b v b' : RandomNumber lo hi b = (v, b') -> lo <= hi -> lo <= v <= hi.
Proof. intros [= <- _] H. by apply rnd_range. Qed.

Lemma idle_rand32 b v b' : rand32 b = (v, b') -> idle b b'.
Proof. unfold rand32. destruct (xorshift128 (b_tx b)) as [r t] eqn:E. intros [= <- <-]. injection E as _ <-. done. Qed.

Lemma idle_set_nic v b : idle b (set_nic v b).
Proof. done. Qed.

Lemma idle_static_nic w d b : idle b (static_nic w d b).
Proof. unfold static_nic. destruct SPNIC2, SPNICXX; done. Qed.

Lemma idle_warehouse w b :
  1 <= w <= scale_factor -> idle b (b <| b_tx := (b_tx b) <| warehouse_id := w |> |>).
Proof. intros H. pose proof scale_ok. unfold idle, same_buffers, uint. split_and!; (done || cbn; lia). Qed.

Lemma idle_random_nic b : idle b (random_nic b).
Proof. done. Qed.

Lemma NonUniformRandom_spec A c lo hi b v b' :
  NonUniformRandom A c lo hi b = (v, b') -> lo <= hi ->
  idle b b' /\ lo <= v <= hi /\ b_draws b' = b_draws b + 2.
Proof.
  unfold NonUniformRandom, RandomNumber. cbn. intros [= <- <-] H. split; [done|].
  pose proof (Z.mod_pos_bound (Z.lor (rnd (b_draws b) 0 A) (rnd (b_draws b + 1) lo hi) + c) (hi - lo + 1)).
  split; [lia|]. cbn. lia.
Qed.

Lemma GetCustomerId_spec b v b' :
  GetCustomerId b = (v, b') -> idle b b' /\ 1 <= v <= 3000.
Proof.
  intros H. destruct (NonUniformRandom_spec _ _ _ _ _ _ _ H) as (H1 & H2 & _); [done|].
  by split.
Qed.

Lemma GetItemId_eq b : exists b', GetItemId b = (item_at (b_draws b), b') /\ idle b b' /\ b_draws b' = b_draws b + 2.
Proof.
  eexists. split; [reflexivity|]. cbn. split; [done|lia].
Qed.

Lemma item_at_range k : 1 <= item_at k <= 100000.
Proof.
  unfold item_at, NumItems. pose proof (Z.mod_pos_bound (Z.lor (rnd k 0 8191) (rnd (k + 1) 1 100000) + 7911) 100000). lia.
Qed.

Lemma pick_w_spec gen b v b' :
  (forall b v b', gen b = (v, b') -> idle b b' /\ 1 <= v <= scale_factor) ->
  pick_w gen b = (v, b') -> idle b b' /\ 1 <= v <= scale_factor.
Proof.
  intros HG. unfold pick_w. destruct (gen b) as [w b1] eqn:E. destruct (HG _ _ _ E) as [H1 H2].
  destruct ZIPFTPCC eqn:EZ; [|by intros [= <- <-]].
  intros E2. assert (v = u32 (zipf (b_draws b1)) /\ idle b1 b') as [-> H3] by (by injection E2 as <- <-).
  pose proof (zipf_range EZ (b_draws b1)). pose proof scale_ok.
  rewrite wrap_small by (unfold uint; lia). split; [|done]. by eapply idle_trans.
Qed.

Lemma pick_warehouse_mod_spec b v b' : pick_warehouse_mod b = (v, b') -> idle b b' /\ 1 <= v <= scale_factor.
Proof.
  unfold pick_warehouse_mod. destruct (rand32 b) as [r b1] eqn:E. intros [= <- <-].
  split; [by eapply idle_rand32|]. pose proof scale_ok. pose proof (Z.mod_pos_bound r scale_factor). lia.
Qed.

Lemma PickWarehouseId_spec b v b' : PickWarehouseId b = (v, b') -> idle b b' /\ 1 <= v <= scale_factor.
Proof.
  pose proof scale_ok. unfold PickWarehouseId.
  assert (GetStartWarehouse 0 = 1 /\ GetEndWarehouse 0 = scale_factor) as [-> ->]
    by (unfold GetStartWarehouse, GetEndWarehouse; lia).
  destruct (Z.eqb_spec (scale_factor - 1 + 1) 1).
  - intros E. apply pair_eq in E as [<- <-]. split; [done|lia].
  - intros E. split; [by eapply idle_RandomNumber|]. eapply RandomNumber_range; [done|lia].
Qed.

Lemma districts_pos : ConfigOk C -> 2 <= MAX_THREAD -> 1 <= NumDistrictsPerWarehouse_ <= 11.
Proof.
  intros [H _ _ _ _] H2. unfold NumDistrictsPerWarehouse_.
  pose proof (Z.div_le_mono 2 MAX_THREAD 2). pose proof (Z.div_le_mono MAX_THREAD 22 2).
  change (2 / 2) with 1 in *. change (22 / 2) with 11 in *. lia.
Qed.

(** ** The short procedures *)

Section short.
Context (b0 : build) (L0 : tx_layout (b_tx b0)) (O0 : ctx_offset (b_tx b0) = 0) (MT : 2 <= MAX_THREAD).
Local Abbreviation m0 := (b_mem b0).

Lemma begin_short_built len :
  built m0 (begin_short len b0) [] [] /\ same_buffers (b_tx b0) (b_tx (begin_short len b0)) /\
  warehouse_id (b_tx (begin_short len b0)) = warehouse_id (b_tx b0).
Proof.
  split; [|done].
  apply (built_empty _ _ (b_mem (clear_feature b0))); try done.
  - by apply (tx_layout_same (b_tx b0)).
  - cbn. lia.
  - cbn. lia.
  - intros x. exact (clear_feature_mem b0 x).
Qed.

Lemma district_key_pos w d : 0 <= makeDistrictKey w d.
Proof. apply wrap_range. lia. Qed.

(** [stock_level]: the district's key, warehouse and district. *)
Lemma stock_level_spec : exists b w d, stock_level b0 = Some (b, tpcc_call 3 b) /\
  going b0 b [(DIST, makeDistrictKey w d)] [w; d] /\ 1 <= w <= scale_factor /\ 1 <= d <= NumDistrictsPerWarehouse_.
Proof.
  pose proof (districts_pos CO MT) as HD. unfold stock_level.
  destruct (begin_short_built 6) as (H1 & H2 & _). assert (going b0 (begin_short 6 b0) [] []) as G by done.
  destruct (pick_w PickWarehouseId (begin_short 6 b0)) as [w b1] eqn:E1.
  destruct (pick_w_spec _ _ _ _ PickWarehouseId_spec E1) as [I1 W]. apply (going_idle _ _ _ _ G) in I1 as G1.
  destruct (RandomNumber 1 NumDistrictsPerWarehouse_ b1) as [d b2] eqn:E2.
  pose proof (RandomNumber_range _ _ _ _ _ E2 ltac:(lia)) as D.
  apply idle_RandomNumber in E2 as [I2 _]. apply (going_idle _ _ _ _ G1) in I2 as G2.
  pose proof (going_idle _ _ _ _ G2 (idle_static_nic w d b2)) as G3.
  destruct (going_key _ _ _ DIST (makeDistrictKey w d) G3) as (b4 & E4 & G4 & _);
    [cbn; lia|unfold DIST; lia|apply district_key_pos|]. rewrite E4. cbn [mbind option_bind app] in *.
  exists (add_all_args [w; d] b4), w, d. split_and!; try done; try lia.
  apply (going_args _ _ [] [w; d] G4). cbn. lia.
Qed.

Lemma order_status_spec : exists b b' w d by_name cid, order_status b0 = Some (b', tpcc_call 2 b) /\
  idle b b' /\ going b0 b [(DIST, makeDistrictKey w d)] [w; d; Z.b2z by_name; cid] /\
  1 <= w <= scale_factor /\ 1 <= d <= NumDistrictsPerWarehouse_ /\
  (if by_name : bool then cid = 0 else 1 <= cid <= 3000).
Proof.
  pose proof (districts_pos CO MT) as HD. unfold order_status.
  destruct (begin_short_built 6) as (H1 & H2 & _). assert (going b0 (begin_short 6 b0) [] []) as G by done.
  destruct (pick_w PickWarehouseId (begin_short 6 b0)) as [w b1] eqn:E1.
  destruct (pick_w_spec _ _ _ _ PickWarehouseId_spec E1) as [I1 W]. apply (going_idle _ _ _ _ G) in I1 as G1.
  destruct (RandomNumber 1 NumDistrictsPerWarehouse_ b1) as [d b2] eqn:E2.
  pose proof (RandomNumber_range _ _ _ _ _ E2 ltac:(lia)) as D.
  apply idle_RandomNumber in E2 as [I2 _]. apply (going_idle _ _ _ _ G1) in I2 as G2.
  destruct (RandomNumber 1 100 b2) as [x b3] eqn:E3. apply idle_RandomNumber in E3 as [I3 _].
  apply (going_idle _ _ _ _ G2) in I3 as G3.
  assert (exists cid b4, (if x <=? 60 then (0, b3) else GetCustomerId b3) = (cid, b4) /\ going b0 b4 [] [] /\
    (if x <=? 60 then cid = 0 else 1 <= cid <= 3000)) as (cid & b4 & E4 & G4 & HC).
  { destruct (x <=? 60); [by exists 0, b3|]. destruct (GetCustomerId b3) as [cid b4] eqn:E4.
    apply GetCustomerId_spec in E4 as [I4 ?]. exists cid, b4. split; [done|]. split; [|done]. by eapply going_idle. }
  rewrite E4. destruct (going_key _ _ _ DIST (makeDistrictKey w d) G4) as (b5 & E5 & G5 & _);
    [cbn; lia|unfold DIST; lia|apply district_key_pos|]. rewrite E5. cbn [mbind option_bind app] in *.
  set (b := add_all_args [w; d; Z.b2z (x <=? 60); cid] b5).
  exists b, (static_nic w d b), w, d, (x <=? 60), cid. split_and!; try done; try lia.
  - apply idle_static_nic.
  - apply (going_args _ _ [] [w; d; Z.b2z (x <=? 60); cid] G5). cbn. lia.
Qed.

(** [delivery]: the argument is the warehouse drawn, the key that of the member
    [warehouse_id]. *)
Lemma delivery_spec : 0 <= warehouse_id (b_tx b0) -> exists b w, delivery b0 = Some (b, tpcc_call 4 b) /\
  going b0 b [(WARE, warehouse_id (b_tx b0))] [w] /\ 1 <= w <= scale_factor.
Proof.
  intros HW. unfold delivery. destruct (begin_short_built 1) as (H1 & H2 & H3).
  assert (going b0 (begin_short 1 b0) [] []) as G by done.
  destruct (pick_w PickWarehouseId (begin_short 1 b0)) as [w b1] eqn:E1.
  destruct (pick_w_spec _ _ _ _ PickWarehouseId_spec E1) as [I1 W]. apply (going_idle _ _ _ _ G) in I1 as G1.
  assert (warehouse_id (b_tx b1) = warehouse_id (b_tx b0)) as EW.
  { rewrite <-H3. unfold pick_w, PickWarehouseId, RandomNumber, sample in E1.
    destruct (_ =? 1), ZIPFTPCC; by injection E1 as _ <-. }
  rewrite EW. destruct (going_key _ _ _ WARE (warehouse_id (b_tx b0)) G1) as (b4 & E4 & G4 & _);
    [cbn; lia|unfold WARE; lia|done|]. rewrite E4. cbn [mbind option_bind app] in *.
  exists (add_to_args w b4), w. split_and!; try done; try lia.
  apply (going_args _ _ [] [w] G4). cbn. lia.
Qed.

(** The loop of [payment] that looks for another warehouse. *)
Lemma other_warehouse_spec w b :
  1 < scale_factor -> exists k cw b', (forall fuel, (k <= fuel)%nat -> other_warehouse fuel w b = Some (cw, b')) /\
    idle b b' /\ 1 <= cw <= scale_factor /\ cw <> w.
Proof.
  intros HS. destruct (fresh_warehouse (b_draws b) w HS) as [j Hj].
  assert (HP : forall b, PickWarehouseId b = RandomNumber 1 scale_factor b).
  { intros b'. unfold PickWarehouseId, GetStartWarehouse, GetEndWarehouse. cbv zeta.
    destruct (Z.eqb_spec ((0 + 1) * scale_factor - (0 * scale_factor + 1) + 1) 1); [lia|f_equal; lia]. }
  revert b Hj. induction j as [|j IH]; intros b Hj.
  - exists 1%nat, (rnd (b_draws b) 1 scale_factor), (b <| b_draws := b_draws b + 1 |>).
    rewrite Z.add_0_r in Hj. split_and!; [|done|by apply rnd_range; lia..|done].
    intros fuel Hf. destruct fuel as [|fuel]; [lia|]. cbn [other_warehouse]. rewrite HP. cbn.
    destruct (Z.eqb_spec (rnd (b_draws b) 1 scale_factor) w); [done|]. done.
  - destruct (decide (rnd (b_draws b) 1 scale_factor = w)) as [E|E].
    + destruct (IH (b <| b_draws := b_draws b + 1 |>)) as (k & cw & b' & HF & HI & HC).
      { cbn. replace (b_draws b + 1 + Z.of_nat j) with (b_draws b + Z.of_nat (S j)) by lia. done. }
      exists (S k), cw, b'. split_and!; [|by apply (idle_trans _ (b <| b_draws := b_draws b + 1 |>))|apply HC..].
      intros fuel Hf. destruct fuel as [|fuel]; [lia|]. cbn [other_warehouse]. rewrite HP. cbn [RandomNumber].
      rewrite E, Z.eqb_refl. apply HF. lia.
    + exists 1%nat, (rnd (b_draws b) 1 scale_factor), (b <| b_draws := b_draws b + 1 |>).
      split_and!; [|done|by apply rnd_range; lia..|done].
      intros fuel Hf. destruct fuel as [|fuel]; [lia|]. cbn [other_warehouse]. rewrite HP. cbn.
      destruct (Z.eqb_spec (rnd (b_draws b) 1 scale_factor) w); done.
Qed.

Lemma customer_home_spec is_home w d b :
  (is_home = false -> 1 < scale_factor) -> 1 <= w <= scale_factor -> 1 <= d <= NumDistrictsPerWarehouse_ ->
  exists k cw cd b', (forall fuel, (k <= fuel)%nat -> customer_home fuel is_home w d b = Some (cw, cd, b')) /\
    idle b b' /\ 1 <= cw <= scale_factor /\ 1 <= cd <= NumDistrictsPerWarehouse_ /\
    (if is_home : bool then cw = w /\ cd = d else cw <> w).
Proof.
  intros HS HW HD. destruct is_home.
  { exists 0%nat, w, d, b. split_and!; try done; lia. }
  destruct (other_warehouse_spec w b (HS eq_refl)) as (k & cw & b1 & HF & HI & HC & HN).
  destruct (RandomNumber 1 NumDistrictsPerWarehouse_ b1) as [cd b2] eqn:E2.
  pose proof (RandomNumber_range _ _ _ _ _ E2 ltac:(lia)) as D. pose proof (idle_RandomNumber _ _ _ _ _ E2) as [I2 _].
  exists k, cw, cd, b2. split_and!; try done; try lia; [|by eapply idle_trans].
  intros fuel Hf. unfold customer_home. rewrite HF by done. cbn [mbind option_bind]. by rewrite E2.
Qed.

Lemma payment_spec : exists k b w d cw cd home cid,
  (forall fuel, (k <= fuel)%nat -> payment_procedure fuel b0 = Some (b, tpcc_call 1 b)) /\
  going b0 b [(DIST, makeDistrictKey w d)] [w; d; cw; cd; Z.b2z home; 0; cid] /\
  1 <= w <= scale_factor /\ 1 <= d <= NumDistrictsPerWarehouse_ /\ 1 <= cw <= scale_factor /\
  1 <= cd <= NumDistrictsPerWarehouse_ /\ 1 <= cid <= 3000 /\
  (if home : bool then cw = w /\ cd = d else cw <> w).
Proof.
  pose proof (districts_pos CO MT) as HD. unfold payment_procedure.
  destruct (begin_short_built 6) as (H1 & H2 & _). assert (going b0 (begin_short 6 b0) [] []) as G by done.
  destruct (pick_w pick_warehouse_mod (begin_short 6 b0)) as [w b1] eqn:E1.
  destruct (pick_w_spec _ _ _ _ pick_warehouse_mod_spec E1) as [I1 W]. apply (going_idle _ _ _ _ G) in I1 as G1.
  destruct (RandomNumber 1 NumDistrictsPerWarehouse_ b1) as [d b2] eqn:E2.
  pose proof (RandomNumber_range _ _ _ _ _ E2 ltac:(lia)) as D.
  apply idle_RandomNumber in E2 as [I2 _]. apply (going_idle _ _ _ _ G1) in I2 as G2.
  set (b3 := static_nic w d (b2 <| b_tx := (b_tx b2) <| warehouse_id := w |> |>)).
  assert (idle b2 b3) as I3.
  { eapply idle_trans; [by apply idle_warehouse|apply idle_static_nic]. }
  apply (going_idle _ _ _ _ G2) in I3 as G3.
  destruct (RandomNumber 1 100 b3) as [x b4] eqn:E4. apply idle_RandomNumber in E4 as [I4 _].
  apply (going_idle _ _ _ _ G3) in I4 as G4.
  destruct (RandomNumber 1 100 b4) as [y b5] eqn:E5. apply idle_RandomNumber in E5 as [I5 _].
  apply (going_idle _ _ _ _ G4) in I5 as G5.
  set (home := (scale_factor =? 1) || (x <=? 85)).
  destruct (customer_home_spec home w d b5) as (k & cw & cd & b6 & HF & I6 & CW & CD & HH); [|done|done|].
  { unfold home. destruct (Z.eqb_spec scale_factor 1); [done|]. pose proof scale_ok. lia. }
  apply (going_idle _ _ _ _ G5) in I6 as G6.
  destruct (going_key _ _ _ DIST (makeDistrictKey w d) G6) as (b7 & E7 & G7 & _);
    [cbn; lia|unfold DIST; lia|apply district_key_pos|]. cbn [app] in G7.
  destruct (GetCustomerId b7) as [cid b8] eqn:E8. apply GetCustomerId_spec in E8 as K8. destruct K8 as [I8 HC].
  apply (going_idle _ _ _ _ G7) in I8 as G8.
  exists k, (add_all_args [w; d; cw; cd; Z.b2z home; 0; cid] b8), w, d, cw, cd, home, cid.
  split_and!; try done; try lia.
  - intros fuel Hf. fold home. rewrite HF by done. cbn [mbind option_bind]. rewrite E7. cbn [mbind option_bind].
    by rewrite E8.
  - apply (going_args _ _ [] [w; d; cw; cd; Z.b2z home; 0; cid] G8). cbn. lia.
Qed.
End short.
End procedures.
