(* ===== verification/OrderProps.v ===== *)
(** The new-order request: distinct items, and for each of them its arguments,
    its item key and its stock key. *)

From S2P Require Import Prelude Memory Config Feature RpcCommon Reply Client Procedure ProcedureProps.

#[local] Set Default Proof Using "Type*".
#[local] Arguments ld : simpl never.
#[local] Arguments st : simpl never.

(** The keys and arguments of the items [its] (item and quantity) supplied by
    warehouse [w]. *)
Definition item_keys (w : Z) (its : list (Z * Z)) : list (Z * Z) :=
  its ≫= fun it => [(ITEM, it.1); (STOC, makeStockKey w it.1)].
Definition item_args (w : Z) (its : list (Z * Z)) : list Z := its ≫= fun it => [it.1; w; it.2].

Definition order_keys (w d cid : Z) (its : list (Z * Z)) : list (Z * Z) :=
  [(CUST, makeCustomerKey w d cid); (WARE, w); (DIST, makeDistrictKey w d)] ++ item_keys w its.
Definition order_args (w d cid : Z) (its : list (Z * Z)) : list Z :=
  [w; d; cid; Z.of_nat (length its)] ++ item_args w its.

Lemma length_item_keys w its : length (item_keys w its) = (2 * length its)%nat.
Proof. induction its as [|x its IH]; [done|]. cbn. unfold item_keys in IH. lia. Qed.

Lemma length_item_args w its : length (item_args w its) = (3 * length its)%nat.
Proof. induction its as [|x its IH]; [done|]. cbn. unfold item_args in IH. lia. Qed.

Lemma item_keys_snoc w its x :
  item_keys w (its ++ [x]) = item_keys w its ++ [(ITEM, x.1); (STOC, makeStockKey w x.1)].
Proof. unfold item_keys. by rewrite bind_app. Qed.

Lemma item_args_snoc w its x : item_args w (its ++ [x]) = item_args w its ++ [x.1; w; x.2].
Proof. unfold item_args. by rewrite bind_app. Qed.

(** Different items of a warehouse have different stock keys. *)
Lemma makeStockKey_inj w i j :
  1 <= w <= 1000 -> 1 <= i <= 100000 -> 1 <= j <= 100000 -> makeStockKey w i = makeStockKey w j -> i = j.
Proof. intros Hw Hi Hj. unfold makeStockKey. rewrite !wrap_small by (unfold uint; lia). lia. Qed.

Section order.
Context {C : Config} {CO : ConfigOk C} {CC : ClientConfig} {R : Rng} {RO : RngOk R}.
Context (b0 : build) (L0 : tx_layout (b_tx b0)) (O0 : ctx_offset (b_tx b0) = 0) (MT : 2 <= MAX_THREAD).

(** The three local arrays lie behind the keys. *)
Definition order_ctx (b : build) : Prop :=
  local_stocks b = my_ctx (b_tx b0) + 884 /\ local_item_ids b = my_ctx (b_tx b0) + 944 /\
  local_supplies b = my_ctx (b_tx b0) + 1004.

Lemma order_ctx_idle b b' : order_ctx b -> idle b b' -> order_ctx b'.
Proof.
  intros (E1 & E2 & E3) (_ & _ & _ & _ & _ & F1 & F2 & F3 & _). unfold order_ctx.
  rewrite F1, F2, F3. done.
Qed.

Lemma going_word b ks vs a v :
  going b0 b ks vs -> my_ctx (b_tx b0) + 644 <= a -> a + 4 <= my_ctx (b_tx b0) + 2048 ->
  going b0 (store_word a v b) ks vs.
Proof.
  intros [H1 H2] Ha1 Ha2. split; [|done]. pose proof (bu_ctx _ _ _ _ H1) as [_ E].
  destruct H2 as (_ & E2 & _). apply store_word_built; [done|rewrite E, E2; lia|rewrite E2; unfold CTXBUFFER; lia].
Qed.

Lemma order_item_spec i w item b ks vs :
  going b0 b ks vs -> order_ctx b -> 0 <= i < 15 -> 0 <= w -> 0 <= item ->
  (length ks + 2 <= 40 /\ length vs + 3 <= 100)%nat ->
  exists q b', order_item i w item (makeStockKey w item) b = Some b' /\ order_ctx b' /\
    going b0 b' (ks ++ [(ITEM, item); (STOC, makeStockKey w item)]) (vs ++ [item; w; q]) /\ 1 <= q <= 10.
Proof.
  intros G HO Hi Hw Hit [Hl1 Hl2]. pose proof HO as (E1 & E2 & E3). unfold order_item.
  apply (going_word _ _ _ (local_supplies b + 4 * i) w) in G; [|lia..].
  set (b1 := store_word (local_supplies b + 4 * i) w b) in *.
  apply (going_word _ _ _ (local_item_ids b1 + 4 * i) item) in G; [|cbn; lia..].
  set (b2 := store_word (local_item_ids b1 + 4 * i) item b1) in *.
  apply (going_word _ _ _ (local_stocks b2 + 4 * i) (makeStockKey w item)) in G; [|cbn; lia..].
  set (b3 := store_word (local_stocks b2 + 4 * i) (makeStockKey w item) b2) in *.
  apply (going_args _ _ _ [item; w]) in G; [|cbn; lia]. set (b4 := add_all_args [item; w] b3) in *.
  assert (order_ctx b4) as HO4 by done. clearbody b4.
  destruct (RandomNumber 1 10 b4) as [q b5] eqn:E5. pose proof (RandomNumber_range _ _ _ _ _ E5 ltac:(lia)) as HQ.
  apply idle_RandomNumber in E5 as [I5 _]. apply (going_idle _ _ _ _ G) in I5 as G5.
  pose proof (order_ctx_idle _ _ HO4 I5) as HO5.
  apply (going_args _ _ _ [q]) in G5; [|rewrite length_app; cbn; lia].
  change (add_all_args [q] b5) with (add_to_args q b5) in G5. set (b6 := add_to_args q b5) in *.
  assert (order_ctx b6) as HO6 by done. clearbody b6.
  destruct (going_key _ _ _ ITEM item G5) as (b7 & E7 & G7 & T7 & _ & A7 & B7 & C7); [lia|unfold ITEM; lia|done|].
  destruct (going_key _ _ _ STOC (makeStockKey w item) G7) as (b8 & E8 & G8 & T8 & _ & A8 & B8 & C8);
    [rewrite length_app; cbn; lia|unfold STOC; lia|apply wrap_range; lia|].
  exists q, b8. rewrite E7. cbn [mbind option_bind]. split_and!; try done; try lia.
  - unfold order_ctx in *. rewrite A8, B8, C8, A7, B7, C7. done.
  - by rewrite <-!(assoc_L (++)) in G8.
Qed.

(** What the loop has to achieve from [its] on. *)
Definition order_done (n : nat) (w : Z) (ks : list (Z * Z)) (vs : list Z) (its : list (Z * Z)) (b : build) : Prop :=
  exists k b' its', (forall fuel, (k <= fuel)%nat ->
      order_items fuel (Z.of_nat (length its)) (Z.of_nat n) w (rev (makeStockKey w <$> its.*1)) b = Some b') /\
    going b0 b' (ks ++ item_keys w (its ++ its')) (vs ++ item_args w (its ++ its')) /\
    length (its ++ its') = n /\ NoDup (its ++ its').*1 /\
    Forall (fun x => 1 <= x <= 100000) (its ++ its').*1 /\ Forall (fun it => 1 <= it.2 <= 10) its'.

Lemma stock_in_set w (its : list (Z * Z)) item :
  1 <= w <= 1000 -> Forall (fun x => 1 <= x <= 100000) its.*1 -> 1 <= item <= 100000 ->
  makeStockKey w item ∈ rev (makeStockKey w <$> its.*1) <-> item ∈ its.*1.
Proof.
  intros Hw HR Hi. rewrite list_elem_of_In, <-in_rev, <-list_elem_of_In, list_elem_of_fmap. split.
  - intros (x & E & Hx). rewrite Forall_forall in HR.
    by rewrite (makeStockKey_inj w item x Hw Hi (HR x Hx) E).
  - intros H. by exists item.
Qed.

(** An item drawn again costs one turn. *)
Lemma order_again n w ks vs (its : list (Z * Z)) b b1 :
  GetItemId b = (item_at (b_draws b), b1) -> (length its < n)%nat -> 1 <= w <= 1000 ->
  Forall (fun x => 1 <= x <= 100000) its.*1 -> item_at (b_draws b) ∈ its.*1 ->
  order_done n w ks vs its b1 -> order_done n w ks vs its b.
Proof.
  intros E Hl Hw HR Hin (k & b' & its' & HF & H). exists (S k), b', its'. split; [|done].
  intros fuel Hf. destruct fuel as [|fuel]; [lia|]. cbn [order_items].
  destruct (Z.ltb_spec (Z.of_nat (length its)) (Z.of_nat n)); [|lia]. rewrite E.
  rewrite bool_decide_eq_true_2 by (apply stock_in_set; [done|done|apply item_at_range|done]). apply HF. lia.
Qed.

(** A fresh item is added. *)
Lemma order_fresh n w ks vs (its : list (Z * Z)) b b1 q b2 :
  GetItemId b = (item_at (b_draws b), b1) -> (length its < n)%nat -> 1 <= w <= 1000 ->
  Forall (fun x => 1 <= x <= 100000) its.*1 -> item_at (b_draws b) ∉ its.*1 -> 1 <= q <= 10 ->
  order_item (Z.of_nat (length its)) w (item_at (b_draws b)) (makeStockKey w (item_at (b_draws b))) b1 = Some b2 ->
  order_done n w ks vs (its ++ [(item_at (b_draws b), q)]) b2 -> order_done n w ks vs its b.
Proof.
  intros E Hl Hw HR Hin Hq E2 (k & b' & its' & HF & H). set (it := (item_at (b_draws b), q)) in *.
  exists (S k), b', (it :: its'). replace (its ++ it :: its') with ((its ++ [it]) ++ its') by by rewrite <-(assoc_L (++)).
  split; [|destruct H as (? & ? & ? & ? & ?); split_and!; try done; by apply Forall_cons].
  intros fuel Hf. destruct fuel as [|fuel]; [lia|]. cbn [order_items].
  destruct (Z.ltb_spec (Z.of_nat (length its)) (Z.of_nat n)); [|lia]. rewrite E.
  rewrite bool_decide_eq_false_2 by (rewrite stock_in_set; [done|done|done|apply item_at_range]).
  rewrite E2. cbn [mbind option_bind]. specialize (HF fuel ltac:(lia)).
  rewrite length_app, fmap_app, fmap_app, rev_app_distr in HF. cbn [fmap list_fmap rev app length it fst] in HF.
  replace (Z.of_nat (length its) + 1) with (Z.of_nat (length its + 1)) by lia. exact HF.
Qed.

(** The loop ends: of the items that may still be drawn some are fresh. *)
Lemma order_items_spec (n : nat) w its b ks vs :
  going b0 b (ks ++ item_keys w its) (vs ++ item_args w its) -> order_ctx b -> 1 <= w <= 1000 ->
  (n <= 15)%nat -> (length its <= n)%nat -> (length ks + 2 * n <= 40 /\ length vs + 3 * n <= 100)%nat ->
  Forall (fun x => 1 <= x <= 100000) its.*1 -> NoDup its.*1 -> order_done n w ks vs its b.
Proof.
  intros G HO Hw Hn Hl Hcap HR HND. remember (n - length its)%nat as r eqn:Er.
  revert its b G HO Hl HR HND Er. induction r as [|r IHr]; intros its b G HO Hl HR HND Er.
  { exists 0%nat, b, []. rewrite !app_nil_r. split_and!; try done; [|lia].
    intros fuel _. destruct fuel; cbn [order_items];
      destruct (Z.ltb_spec (Z.of_nat (length its)) (Z.of_nat n)); (lia || done). }
  assert (HF : forall b, going b0 b (ks ++ item_keys w its) (vs ++ item_args w its) -> order_ctx b ->
    item_at (b_draws b) ∉ its.*1 -> order_done n w ks vs its b).
  { clear b G HO. intros b G HO Hout. pose proof (item_at_range (b_draws b)) as HI.
    destruct (GetItemId_eq b) as (b1 & E1 & I1 & _).
    destruct (order_item_spec (Z.of_nat (length its)) w (item_at (b_draws b)) b1 _ _
      (going_idle _ _ _ _ G I1) (order_ctx_idle _ _ HO I1)) as (q & b2 & E2 & HO2 & G2 & HQ);
      [lia|lia|lia|rewrite !length_app, length_item_keys, length_item_args; lia|].
    apply (order_fresh n w ks vs its b b1 q b2); try done; [lia|].
    apply IHr; try done.
    - by rewrite item_keys_snoc, item_args_snoc, !(assoc_L (++)).
    - rewrite length_app. cbn. lia.
    - rewrite fmap_app. apply Forall_app. split; [done|]. by apply Forall_singleton.
    - rewrite fmap_app. apply NoDup_app. split_and!; [done| |apply NoDup_singleton].
      intros x Hx ->%list_elem_of_singleton. done.
    - rewrite length_app. cbn. lia. }
  destruct (fresh_item (b_draws b) its.*1) as [j Hj]; [rewrite length_fmap; lia|].
  revert b G HO Hj. induction j as [|j IHj]; intros b G HO Hj.
  { apply HF; [done..|]. by rewrite Z.mul_0_r, Z.add_0_r in Hj. }
  destruct (decide (item_at (b_draws b) ∈ its.*1)) as [Hin|Hout]; [|by apply HF].
  destruct (GetItemId_eq b) as (b1 & E1 & I1 & D1). apply (order_again n w ks vs its b b1); try done; [lia|].
  apply IHj; [by eapply going_idle|by eapply order_ctx_idle|].
  replace (b_draws b1 + 2 * Z.of_nat j) with (b_draws b + 2 * Z.of_nat (S j)) by lia. done.
Qed.

Lemma mem_store_word a v b : b_mem (store_word a v b) = st 4 (b_mem b) a v.
Proof. done. Qed.

Lemma count_store_word a v b : main_read_count (store_word a v b) = main_read_count b.
Proof. done. Qed.

Lemma mem_args_count n b : b_mem (b <| args_count := n |>) = b_mem b.
Proof. done. Qed.

Lemma mem_order_arrays b : b_mem (order_arrays b) = b_mem b.
Proof. done. Qed.

(** The arrays of an order over a request whose features were cleared. *)
Lemma order_arrays_going b :
  idle ((clear_feature b0) <| args_count := 0 |>) b ->
  let b' := store_word (main_read_count (order_arrays b)) 0 (order_arrays b) in
  going b0 b' [] [] /\ order_ctx b'.
Proof.
  intros (E1 & E2 & E3 & _ & _ & _ & _ & _ & E4) b'. rewrite mem_args_count in E1.
  change (ctx_offset (b_tx b) = ctx_offset (b_tx b0)) in E4. rewrite O0 in E4.
  change (same_buffers (b_tx b0) (b_tx b)) in E2.
  assert (same_buffers (b_tx b0) (b_tx b')) as ES by done.
  destruct E2 as (_ & EC & EA & EF & _).
  assert (order_ctx b') as HO by (unfold order_ctx, MAX_ITEM; cbn; unfold MAX_ITEM; rewrite E4, EC; split_and!; lia).
  split; [|done]. split; [|done].
  apply (built_empty _ _ (b_mem (clear_feature b0))).
  - by apply (tx_layout_same (b_tx b0)).
  - cbn. rewrite E4. lia.
  - cbn. rewrite E4. lia.
  - exact E3.
  - intros x. change (feature (b_tx b')) with (feature (b_tx b)). rewrite EF. exact (clear_feature_mem b0 x).
  - unfold b'. rewrite mem_store_word, mem_order_arrays, count_store_word, E1. reflexivity.
Qed.

Lemma new_order_spec : exists k b w d cid its,
  (forall fuel, (k <= fuel)%nat -> new_order_procedure fuel b0 = Some (b, tpcc_call 0 b)) /\
  going b0 b (order_keys w d cid its) (order_args w d cid its) /\
  1 <= w <= scale_factor /\ 1 <= d <= NumDistrictsPerWarehouse_ /\ 1 <= cid <= 3000 /\
  (5 <= length its <= 15)%nat /\ NoDup its.*1 /\ Forall (fun x => 1 <= x <= 100000) its.*1 /\
  Forall (fun it => 1 <= it.2 <= 10) its.
Proof.
  pose proof (districts_pos CO MT) as HD. pose proof scale_ok as HS. unfold new_order_procedure.
  set (bc := (clear_feature b0) <| args_count := 0 |>).
  destruct (PickWarehouseId bc) as [u b1] eqn:E1. apply PickWarehouseId_spec in E1 as [I1 _].
  destruct (pick_w pick_warehouse_mod b1) as [w b2] eqn:E2.
  destruct (pick_w_spec _ _ _ _ pick_warehouse_mod_spec E2) as [I2 W]. pose proof (idle_trans _ _ _ I1 I2) as I2'.
  destruct (RandomNumber 1 NumDistrictsPerWarehouse_ b2) as [d b3] eqn:E3.
  pose proof (RandomNumber_range _ _ _ _ _ E3 ltac:(lia)) as D.
  apply idle_RandomNumber in E3 as [I3 _]. pose proof (idle_trans _ _ _ I2' I3) as I3'.
  destruct (GetCustomerId b3) as [cid b4] eqn:E4. apply GetCustomerId_spec in E4 as [I4 HC].
  pose proof (idle_trans _ _ _ I3' I4) as I4'.
  set (b5 := b4 <| b_tx := (b_tx b4) <| warehouse_id := w |> |>).
  assert (idle bc b5) as I5 by (eapply idle_trans; [exact I4'|by apply idle_warehouse]).
  destruct (order_arrays_going b5 I5) as [G6 O6].
  set (b6 := store_word (main_read_count (order_arrays b5)) 0 (order_arrays b5)) in *. clearbody b6.
  destruct (RandomNumber 5 MAX_ITEM b6) as [n b7] eqn:E7.
  pose proof (RandomNumber_range _ _ _ _ _ E7 ltac:(unfold MAX_ITEM; lia)) as HN. unfold MAX_ITEM in HN.
  apply idle_RandomNumber in E7 as [I7 _]. apply (going_idle _ _ _ _ G6) in I7 as G7.
  apply (order_ctx_idle _ _ O6) in I7 as O7.
  destruct (going_key _ _ _ CUST (makeCustomerKey w d cid) G7) as (b8 & E8 & G8 & _ & _ & A8 & B8 & C8);
    [cbn; lia|unfold CUST; lia|apply Z.lor_nonneg; split; [|lia];
      apply Z.shiftl_nonneg; apply wrap_range; lia|].
  destruct (going_key _ _ _ WARE w G8) as (b9 & E9 & G9 & _ & _ & A9 & B9 & C9); [cbn; lia|unfold WARE; lia|lia|].
  destruct (going_key _ _ _ DIST (makeDistrictKey w d) G9) as (b10 & E10 & G10 & _ & _ & A10 & B10 & C10);
    [cbn; lia|unfold DIST; lia|apply district_key_pos|]. cbn [app] in G10.
  apply (going_args _ _ _ [w; d; cid; n]) in G10; [|cbn; lia]. cbn [app] in G10.
  assert (order_ctx (add_all_args [w; d; cid; n] b10)) as O10.
  { unfold order_ctx in *. cbn. rewrite A10, B10, C10, A9, B9, C9, A8, B8, C8. done. }
  remember (add_all_args [w; d; cid; n] b10) as b11 eqn:E11.
  destruct (order_items_spec (Z.to_nat n) w [] b11
    [(CUST, makeCustomerKey w d cid); (WARE, w); (DIST, makeDistrictKey w d)] [w; d; cid; n])
    as (k & b12 & its & HF & G12 & HL & HND & HR & HQ); try done; try lia; try (cbn; lia).
  { apply NoDup_nil_2. }
  cbn [length fmap list_fmap rev app] in HF, HL, HND, HR. change (Z.of_nat 0) with 0 in HF.
  rewrite Z2Nat.id in HF by lia. change ([] ++ its) with its in G12.
  destruct (rand32 b12) as [r b13] eqn:E13. apply idle_rand32 in E13 as I13.
  set (b := static_nic w d (set_nic (r mod MAX_THREAD) b13)).
  assert (idle b12 b) as I14.
  { eapply idle_trans; [exact I13|]. eapply idle_trans; [apply idle_set_nic|apply idle_static_nic]. }
  exists k, b, w, d, cid, its. split_and!; try done; try lia.
  - intros fuel Hf. cbv zeta. rewrite E8. cbn [mbind option_bind]. rewrite E9. cbn [mbind option_bind].
    rewrite E10. cbn [mbind option_bind]. rewrite <-E11, HF by done. cbn [mbind option_bind]. by rewrite E13.
  - unfold order_keys, order_args. rewrite HL, Z2Nat.id by lia. by eapply going_idle.
Qed.
End order.
