(* ===== verification/TpccProps.v ===== *)
(** A TPC-C transaction from the client's draw to the worker's accessors: the
    request that arrives has the keys, the arguments and the features of the
    transaction that was drawn. *)

From S2P Require Import Prelude Memory Config Feature RpcCommon RpcConnect Msg Central Reply ReplyProps.
From S2P Require Import Client ClientProps ClientSend ClientTransfer.
From S2P Require Import Procedure ClientLoop ProcedureProps OrderProps.

#[local] Set Default Proof Using "Type*".
#[local] Arguments ld : simpl never.
#[local] Arguments st : simpl never.

(** ** The five transactions *)

(** Keys and arguments of a transaction of type [ty]; [cur] is the warehouse
    of the client's last new order or payment. *)
Inductive tpcc_request {C : Config} {CC : ClientConfig} (cur : Z) : Z -> list (Z * Z) -> list Z -> Prop :=
  | req_new_order w d cid its :
      1 <= w <= scale_factor -> 1 <= d <= NumDistrictsPerWarehouse_ -> 1 <= cid <= 3000 ->
      (5 <= length its <= 15)%nat -> NoDup its.*1 -> Forall (fun x => 1 <= x <= 100000) its.*1 ->
      Forall (fun it => 1 <= it.2 <= 10) its ->
      tpcc_request cur 0 (order_keys w d cid its) (order_args w d cid its)
  | req_payment w d cw cd (home : bool) cid :
      1 <= w <= scale_factor -> 1 <= d <= NumDistrictsPerWarehouse_ -> 1 <= cw <= scale_factor ->
      1 <= cd <= NumDistrictsPerWarehouse_ -> 1 <= cid <= 3000 ->
      (if home then cw = w /\ cd = d else cw <> w) ->
      tpcc_request cur 1 [(DIST, makeDistrictKey w d)] [w; d; cw; cd; Z.b2z home; 0; cid]
  | req_order_status w d (by_name : bool) cid :
      1 <= w <= scale_factor -> 1 <= d <= NumDistrictsPerWarehouse_ ->
      (if by_name then cid = 0 else 1 <= cid <= 3000) ->
      tpcc_request cur 2 [(DIST, makeDistrictKey w d)] [w; d; Z.b2z by_name; cid]
  | req_stock_level w d :
      1 <= w <= scale_factor -> 1 <= d <= NumDistrictsPerWarehouse_ ->
      tpcc_request cur 3 [(DIST, makeDistrictKey w d)] [w; d]
  | req_delivery w : 1 <= w <= scale_factor -> tpcc_request cur 4 [(WARE, cur)] [w].

Lemma length_order_keys w d cid its : length (order_keys w d cid its) = (3 + 2 * length its)%nat.
Proof. unfold order_keys. rewrite length_app, length_item_keys. done. Qed.

Lemma length_order_args w d cid its : length (order_args w d cid its) = (4 + 3 * length its)%nat.
Proof. unfold order_args. rewrite length_app, length_item_args. done. Qed.

Section tpcc.
Context {C : Config} {CO : ConfigOk C} {CC : ClientConfig} {R : Rng} {RO : RngOk R}.

Lemma tpcc_request_len cur ty ks vs :
  tpcc_request cur ty ks vs -> (1 <= length ks <= 40 /\ length vs <= 50)%nat /\ 0 <= ty <= 4.
Proof.
  intros []; rewrite ?length_order_keys, ?length_order_args; cbn [length]; lia.
Qed.

(** Machine-width values: nothing is cut when the request is stored. *)

Lemma makeCustomerKey_range w d cid : uint 32 cid -> uint 64 (makeCustomerKey w d cid).
Proof.
  intros Hc. unfold makeCustomerKey. set (u := u32 (w * NumDistrictsPerWarehouse + d)).
  assert (Hu : uint 32 u) by (apply wrap_range; lia). unfold uint in *.
  assert (Z.land cid (Z.shiftl u 32) = 0) as E.
  { apply Z.bits_inj'. intros n Hn. rewrite Z.land_spec, Z.bits_0, Z.shiftl_spec by done.
    destruct (decide (n < 32)); [rewrite (Z.testbit_neg_r _ (n - 32)) by lia; apply andb_false_r|].
    by rewrite (testbit_small 32 cid) by (done || lia). }
  rewrite Z.lor_comm, <-Z.lxor_lor, <-Z.add_nocarry_lxor by done. rewrite Z.shiftl_mul_pow2 by lia. lia.
Qed.

Lemma makeDistrictKey_range w d : uint 64 (makeDistrictKey w d).
Proof.
  pose proof (wrap_range 32 (d + w * NumDistrictsPerWarehouse) ltac:(lia)) as K.
  unfold makeDistrictKey, uint in *. lia.
Qed.

Lemma makeStockKey_range w i : uint 64 (makeStockKey w i).
Proof.
  pose proof (wrap_range 32 (i + w * 100000) ltac:(lia)) as K. unfold makeStockKey, uint in *. lia.
Qed.

Local Ltac each :=
  repeat (apply Forall_cons; split); try apply Forall_nil_2; cbn [fst snd]; split_and?;
  try apply makeDistrictKey_range; try apply makeStockKey_range; try (unfold uint, CUST, WARE, DIST, ITEM, STOC; lia).

Lemma items_range w (its : list (Z * Z)) :
  0 <= w <= 1000 -> Forall (fun x => 1 <= x <= 100000) its.*1 -> Forall (fun it => 1 <= it.2 <= 10) its ->
  Forall (fun k => uint 64 k.1 /\ uint 64 k.2) (item_keys w its) /\ Forall (uint 32) (item_args w its).
Proof.
  intros Hw HI HQ. rewrite Forall_fmap in HI. induction its as [|it its IH]; [by split; apply Forall_nil_2|].
  apply Forall_cons in HI as [Hit HI]. apply Forall_cons in HQ as [Hq HQ]. cbn in Hit.
  destruct (IH HI HQ) as [IH1 IH2]. split.
  - change (item_keys w (it :: its)) with ([(ITEM, it.1); (STOC, makeStockKey w it.1)] ++ item_keys w its).
    apply Forall_app. split; [each|done].
  - change (item_args w (it :: its)) with ([it.1; w; it.2] ++ item_args w its).
    apply Forall_app. split; [each|done].
Qed.

Lemma tpcc_request_range cur ty ks vs :
  2 <= MAX_THREAD -> uint 32 cur -> tpcc_request cur ty ks vs ->
  Forall (fun k => uint 64 k.1 /\ uint 64 k.2) ks /\ Forall (uint 32) vs.
Proof.
  intros MT Hcur H. pose proof (districts_pos CO MT) as HD. pose proof scale_ok as HS.
  assert (KB : forall b : bool, uint 32 (Z.b2z b)) by (intros []; unfold uint; cbn; lia).
  unfold uint in Hcur.
  destruct H as [w d cid its HW HDD HC HL HN HI HQ| | | |].
  - destruct (items_range w its ltac:(lia) HI HQ) as [I1 I2]. unfold order_keys, order_args.
    split; (apply Forall_app; split; [each|done]). apply makeCustomerKey_range. unfold uint. lia.
  - split; each; apply KB.
  - split; each; [apply KB|]. destruct by_name; unfold uint; lia.
  - split; each.
  - split; each.
Qed.

(** ** The procedure *)

(** The call that hands over the request under construction. *)
Definition is_call (b : build) (ty : Z) (cl : call) : Prop :=
  call_num cl = 4 /\ call_type cl = ty /\ call_req cl = tpcc_req b.

Lemma is_call_idle b b' ty cl : is_call b ty cl -> idle b b' -> is_call b' ty cl.
Proof.
  intros (H1 & H2 & H3) (E1 & (_ & _ & E2 & E3 & _) & E4 & E5 & E6 & _). split_and!; [done..|].
  rewrite H3. unfold tpcc_req. by rewrite E1, E2, E3, E4, E5, E6.
Qed.

Lemma going_start b0 b1 b ks vs : idle b0 b1 -> going b1 b ks vs -> going b0 b ks vs.
Proof.
  intros (E1 & E2 & _) [H1 H2]. rewrite E1 in H1. split; [done|]. by eapply same_buffers_trans.
Qed.

(** The type of the request that a client draws next ([TxnType] of the server),
    from the state of its own generator. *)
Definition request_type (x : Z) : Z :=
  if x =? ty_new_order then 0 else if x =? ty_pay then 1 else if x =? ty_order then 2 else if x =? ty_stock then 3 else 4.
Definition drawn_type (t : switch_tx) : Z := request_type (workgen_arr_tpcc ((xorshift128 t).1 mod 100)).

Lemma tpcc_procedure_spec b0 :
  NULLRPC = false -> YCSBHOT = false -> YCSBplusT = false -> 2 <= MAX_THREAD ->
  tx_layout (b_tx b0) -> ctx_offset (b_tx b0) = 0 -> 0 <= warehouse_id (b_tx b0) ->
  exists k b cl ks vs, (forall fuel, (k <= fuel)%nat -> tpcc_procedure fuel b0 = Some (b, cl)) /\
    going b0 b ks vs /\ is_call b (drawn_type (b_tx b0)) cl /\
    tpcc_request (warehouse_id (b_tx b0)) (drawn_type (b_tx b0)) ks vs.
Proof.
  intros HN HH HY MT HL HO HW. unfold tpcc_procedure. rewrite HN, HH, HY.
  destruct (rand32 b0) as [r b1] eqn:E1. set (x := workgen_arr_tpcc (r mod 100)).
  set (b2 := set_latency_type x b1).
  assert (drawn_type (b_tx b0) = request_type x) as ->.
  { unfold drawn_type, rand32 in *. destruct (xorshift128 (b_tx b0)) as [r' t]. by injection E1 as -> _. }
  assert (warehouse_id (b_tx b2) = warehouse_id (b_tx b0)) as EW.
  { unfold rand32 in E1. destruct (xorshift128 (b_tx b0)) as [r' t] eqn:EX. injection EX as _ <-.
    by injection E1 as _ <-. }
  apply idle_rand32 in E1. assert (idle b0 b2) as I2 by (eapply idle_trans; [exact E1|done]).
  assert (tx_layout (b_tx b2)) as L2 by (eapply tx_layout_same; [exact HL|apply I2]).
  assert (ctx_offset (b_tx b2) = 0) as O2 by (destruct I2 as (_ & _ & _ & _ & _ & _ & _ & _ & E); congruence).
  clearbody b2. assert (x = 34 \/ x = 35 \/ x = 36 \/ x = 37 \/ x = 38) as Hx.
  { unfold x, workgen_arr_tpcc. destruct TWOPHASE; [by left|]. repeat (destruct (_ <? _)); unfold ty_new_order, ty_pay, ty_del, ty_order, ty_stock; lia. }
  cbv zeta. fold x. destruct Hx as [-> | [-> | [-> | [-> | ->]]]]; cbn [Z.eqb ty_new_order ty_pay ty_del ty_order ty_stock Pos.eqb].
  - destruct (new_order_spec b2 L2 O2 MT) as (k & b & w & d & cid & its & HF & G & H).
    exists k, b, (tpcc_call 0 b), (order_keys w d cid its), (order_args w d cid its).
    split_and!; [done|by eapply going_start|done..|apply req_new_order; apply H].
  - destruct (payment_spec b2 L2 O2 MT) as (k & b & w & d & cw & cd & home & cid & HF & G & H).
    exists k, b, (tpcc_call 1 b). do 2 eexists.
    split_and!; [done|by eapply going_start|done..|apply req_payment; apply H].
  - destruct (delivery_spec b2 L2 O2 MT ltac:(lia)) as (b & w & HF & G & H). rewrite EW in G.
    exists 0%nat, b, (tpcc_call 4 b). do 2 eexists.
    split_and!; [done|by eapply going_start|done..|by apply req_delivery].
  - destruct (order_status_spec b2 L2 O2 MT) as (b & b' & w & d & by_name & cid & HF & I & G & H).
    exists 0%nat, b', (tpcc_call 2 b). do 2 eexists.
    split_and!; [done|eapply going_start; [exact I2|]; by eapply going_idle|by apply (is_call_idle b)|apply req_order_status; apply H].
  - destruct (stock_level_spec b2 L2 O2 MT) as (b & w & d & HF & G & H).
    exists 0%nat, b, (tpcc_call 3 b). do 2 eexists.
    split_and!; [done|by eapply going_start|done..|apply req_stock_level; apply H].
Qed.

(** ** The layout of the call *)

(** The slots of the connection lie apart from the buffers of the transaction
    that uses them, and from each other. *)
Record slot_apart (x : Connect) (t : switch_tx) : Prop := {
  sp_pos : 0 <= data_slot x (tx_id t) /\ data_slot x (tx_id t) + DATA_LEN < 2 ^ 63;
  sp_ctx : apart (my_ctx t) CTXBUFFER (data_slot x (tx_id t)) DATA_LEN;
  sp_args : apart (args t) ARGS_LEN (data_slot x (tx_id t)) DATA_LEN;
  sp_feature : apart (feature t) FEATURE_LEN (data_slot x (tx_id t)) DATA_LEN;
  sp_meta : apart (data_slot x (tx_id t)) DATA_LEN (meta_slot x (tx_id t)) 68 }.

Section call.
Context (m0 : memory) (b : build) (ks : list (Z * Z)) (vs : list Z) (HB : built m0 b ks vs)
  (HL : (length ks <= 40 /\ length vs <= 50)%nat).

Lemma tpcc_req_at :
  req_at (tpcc_req b) 0 = {| rq_addr := my_ctx (b_tx b); rq_size := 4 |} /\
  req_at (tpcc_req b) 1 = {| rq_addr := my_ctx (b_tx b) + 4; rq_size := 16 * Z.of_nat (length ks) |} /\
  req_at (tpcc_req b) 2 = {| rq_addr := args (b_tx b); rq_size := 8 * Z.of_nat (length vs) |} /\
  req_at (tpcc_req b) 3 = {| rq_addr := feature (b_tx b); rq_size := 64 |}.
Proof.
  destruct (bu_ctx _ _ _ _ HB) as [E1 E2]. pose proof (bu_count _ _ _ _ HB) as E3. pose proof (bu_nargs _ _ _ _ HB) as E4.
  unfold req_at, tpcc_req. rewrite E3, E4, E1, E2.
  rewrite (wrap_small 32 (16 * _)), (wrap_small 32 (8 * _)) by (unfold uint; lia).
  split_and!; by simplify_map_eq.
Qed.

Lemma tpcc_block_off :
  block_off (tpcc_req b) 4 0 = 44 /\ block_off (tpcc_req b) 4 1 = 48 /\
  block_off (tpcc_req b) 4 2 = 48 + 16 * Z.of_nat (length ks) /\
  block_off (tpcc_req b) 4 3 = 48 + 16 * Z.of_nat (length ks) + 8 * Z.of_nat (length vs) /\
  block_off (tpcc_req b) 4 4 = 112 + 16 * Z.of_nat (length ks) + 8 * Z.of_nat (length vs).
Proof.
  destruct tpcc_req_at as (E0 & E1 & E2 & E3). unfold block_off, req_size. cbn [seqZ Z.to_nat Pos.to_nat].
  change (seqZ 0 0) with (@nil Z). change (seqZ 0 1) with [0]. change (seqZ 0 2) with [0; 1].
  change (seqZ 0 3) with [0; 1; 2]. change (seqZ 0 4) with [0; 1; 2; 3]. cbn [sumZ foldr].
  rewrite E0, E1, E2, E3. cbn [rq_size]. split_and!; lia.
Qed.

Lemma tpcc_call_ready x :
  slot_apart x (b_tx b) -> push_ready x (tx_id (b_tx b)) (tpcc_req b) 4 (feature (b_tx b)).
Proof.
  intros [[P1 P2] A1 A2 A3 A4]. destruct tpcc_req_at as (E0 & E1 & E2 & E3).
  destruct tpcc_block_off as (_ & _ & _ & _ & EB).
  assert (2048 <= DATA_LEN) as HD by (unfold DATA_LEN; destruct YCSBplusT; lia).
  assert (HI : forall i, 0 <= i < 4 -> i = 0 \/ i = 1 \/ i = 2 \/ i = 3) by lia.
  unfold apart, CTXBUFFER, ARGS_LEN, FEATURE_LEN in *. split; try done; try lia.
  - split; [lia|]. split; [|lia]. intros i [-> | [-> | [-> | ->]]]%HI; unfold req_size;
      rewrite ?E0, ?E1, ?E2, ?E3; cbn [rq_size]; unfold uint; lia.
  - intros i [-> | [-> | [-> | ->]]]%HI; rewrite ?E0, ?E1, ?E2, ?E3; cbn [rq_addr rq_size]; lia.
Qed.

(** What a worker reads in the request that arrived. *)
Section decode.
Context (ms2 : memory) (a : Z) (x0 : msg_t) (HN : NULLRPC = false).
Local Abbreviation msg := (deserialization ms2 a x0).
Context (HA : forall i, 0 <= i < 4 -> let r := block msg i in
  rq_addr r = a + block_off (tpcc_req b) 4 i /\ rq_size r = req_size (tpcc_req b) i /\
  forall j, 0 <= j < req_size (tpcc_req b) i ->
    byte ms2 (rq_addr r + j) = byte (b_mem b) (rq_addr (req_at (tpcc_req b) i) + j)).

Lemma deserialization_arrays :
  Msg.main_read_count msg = s32 (ld 4 ms2 (rq_addr (block msg 0))) /\
  keys_array msg = rq_addr (block msg 1) /\ args_array msg = rq_addr (block msg 2).
Proof.
  assert (HE : forall i, block msg i = default no_block ((read_blocks ms2 a (req_num (load_ReqHead ms2 a)) (reqP x0)).1 !! i)).
  { intros i. unfold block. by rewrite (deserialization_reqP _ _ _ HN). }
  rewrite !HE. unfold deserialization. rewrite HN. done.
Qed.

(** A load inside block [i]. *)
Lemma ld_block i k o :
  0 <= i < 4 -> 0 <= o -> o + Z.of_nat k <= req_size (tpcc_req b) i ->
  ld k ms2 (rq_addr (block msg i) + o) = ld k (b_mem b) (rq_addr (req_at (tpcc_req b) i) + o).
Proof.
  intros Hi Ho Hk. destruct (HA i Hi) as (_ & _ & H). apply ld_shift. intros j Hj.
  rewrite <-!Z.add_assoc. apply H. lia.
Qed.

Lemma tpcc_decoded :
  Forall (fun k => uint 64 k.1 /\ uint 64 k.2) ks -> Forall (uint 32) vs ->
  let T := block_off (tpcc_req b) 4 4 in
  Msg.main_read_count msg = Z.of_nat (length ks) /\
  (forall (j : nat) k, ks !! j = Some k -> key_at ms2 msg (Z.of_nat j) = k) /\
  (forall (j : nat) v, vs !! j = Some v -> arg_at ms2 msg (Z.of_nat j) = v) /\
  (forall f, 0 <= f < 512 -> Z.testbit (byte ms2 (a + T - 64 + f / 8)) (f mod 8) = true <->
     exists k, k ∈ ks /\ hash_k2f tpcc_partition k = Some f).
Proof.
  intros FK FV T. destruct tpcc_req_at as (E0 & E1 & E2 & E3). destruct tpcc_block_off as (_ & _ & _ & B3 & B4).
  destruct deserialization_arrays as (D0 & D1 & D2). destruct (bu_ctx _ _ _ _ HB) as [C1 C2].
  unfold req_size in *. split_and!.
  - pose proof (ld_block 0 4 0 ltac:(lia) ltac:(lia)) as K. unfold req_size in K. rewrite E0 in K.
    cbn [rq_addr rq_size] in K. rewrite !Z.add_0_r, <-C1, (bu_count _ _ _ _ HB) in K. rewrite D0, K by lia.
    unfold s32. rewrite Z.mod_small by lia. lia.
  - intros j k Hj. pose proof (lookup_lt_Some _ _ _ Hj) as Hl.
    destruct (bu_keys _ _ _ _ HB j k Hj) as [K1 K2]. rewrite Forall_lookup in FK. destruct (FK j k Hj) as [U1 U2].
    unfold key_at. rewrite D1. pose proof (ld_block 1 8) as K. unfold req_size in K. rewrite E1 in K.
    cbn [rq_addr rq_size] in K. rewrite <-Z.add_assoc, !K, Z.add_assoc by lia.
    rewrite C2 in K1, K2. rewrite K1, K2, !wrap_small by done. by destruct k.
  - intros j v Hj. pose proof (lookup_lt_Some _ _ _ Hj) as Hl.
    pose proof (bu_args _ _ _ _ HB j v Hj) as K1. rewrite Forall_lookup in FV.
    unfold arg_at. rewrite D2. pose proof (ld_block 2 4) as K. unfold req_size in K. rewrite E2 in K.
    cbn [rq_addr rq_size] in K. rewrite K, K1 by lia. apply wrap_small. by eapply FV.
  - intros f Hf. pose proof (Z.div_lt_upper_bound f 8 64). pose proof (Z.div_pos f 8).
    rewrite <-(bu_features _ _ _ _ HB f Hf). destruct (HA 3 ltac:(lia)) as (R1 & _ & R3).
    unfold req_size in R3. rewrite E3 in R3. cbn [rq_addr rq_size] in R3.
    replace (a + T - 64 + f / 8) with (rq_addr (block msg 3) + f / 8) by (unfold T; lia).
    by rewrite R3 by lia.
Qed.
End decode.
End call.

(** ** The whole way *)

Context {W : Type} `{!Verbs W, !VerbsLaws W}.

(** What [generate_tx] hands to [push_new_call_write]. *)
Lemma generate_calls i x t c (w : W) :
  NULLRPC = false -> YCSBHOT = false -> YCSBplusT = false -> 2 <= MAX_THREAD ->
  client_ok 0 x c w -> my_tx c !! i = Some t -> tx_id t = i -> tx_layout t -> slot_apart x t ->
  uint 32 (warehouse_id t) ->
  exists k b ks vs,
    let c1 := (set_tx i (b_tx b) c) <| cl_mem := b_mem b |> <| draws := b_draws b |> in
    (forall fuel, (k <= fuel)%nat -> generate_tx post_chain ibv_poll_cq fuel i c w =
       ('(c', w', _) ← push_new_call_write post_chain ibv_poll_cq fuel 0 JUST_COMMIT (tpcc_req b) 4 (drawn_type t) i
          (nic (b_tx b)) (feature (b_tx b)) c1 w; Some (c', w'))) /\
    going (start_build t c) b ks vs /\ tpcc_request (warehouse_id t) (drawn_type t) ks vs /\
    client_ok 0 x c1 w /\ push_ready x i (tpcc_req b) 4 (feature (b_tx b)).
Proof.
  intros HN HH HY MT HC Ht Hi HL HS HW. set (b0 := start_build t c).
  destruct (tpcc_procedure_spec b0 HN HH HY MT) as (k & b & cl & ks & vs & HF & HG & (Hc1 & Hc2 & Hc3) & HR);
    [by destruct HL; split|done|unfold uint in HW; cbn; lia|].
  change (warehouse_id (b_tx b0)) with (warehouse_id t) in HR.
  change (drawn_type (b_tx b0)) with (drawn_type t) in HR, Hc2.
  destruct (tpcc_request_len _ _ _ _ HR) as [HLen Hty].
  assert (HLen' : (length ks <= 40 /\ length vs <= 50)%nat) by lia.
  pose proof HG as [HB (G1 & G2 & G3 & G4 & _)]. change (tx_id (b_tx b0)) with (tx_id t) in G1.
  assert (slot_apart x (b_tx b)) as HS1 by (destruct HS; split; by rewrite ?G1, ?G2, ?G3, ?G4).
  pose proof (tpcc_call_ready _ b ks vs HB HLen' x HS1) as HP. rewrite G1, Hi in HP.
  exists k, b, ks, vs. split_and!; [|done|done| |done].
  - intros fuel Hf. unfold generate_tx. rewrite Ht. cbn [mbind option_bind]. fold b0. rewrite HF by lia.
    cbn [mbind option_bind]. by rewrite Hc1, Hc2, Hc3, G1, Hi.
  - destruct HC as [[] ? ? ?]. by split.
Qed.

Lemma tpcc_request_arrives (i : Z) (x : Connect) (t : switch_tx) (c : client) (w : W)
    (s : Connect) (ms : memory) (x0 : msg_t) :
  NULLRPC = false -> YCSBHOT = false -> YCSBplusT = false -> 2 <= MAX_THREAD ->
  client_ok 0 x c w -> my_tx c !! i = Some t -> tx_id t = i -> tx_layout t -> slot_apart x t ->
  uint 32 (warehouse_id t) ->
  data_addr s = remote_data_addr x -> 0 <= get_rev_addr s i -> get_rev_addr s i + DATA_LEN < 2 ^ 63 ->
  exists k c' w' dw rest ks vs,
    (forall fuel, (k <= fuel)%nat -> generate_tx post_chain ibv_poll_cq fuel i c w = Some (c', w')) /\
    posted w' = posted w ++ (qp x, dw) :: rest /\
    tpcc_request (warehouse_id t) (drawn_type t) ks vs /\
    let a := get_rev_addr s i in
    let ms1 := rdma_deliver (cl_mem c') dw ms in
    exists ms2 T, take_request a ms1 = Some (ms2, T) /\
      let msg := deserialization ms2 a x0 in
      m_type msg = drawn_type t /\ Msg.main_read_count msg = Z.of_nat (length ks) /\
      (forall (j : nat) k, ks !! j = Some k -> key_at ms2 msg (Z.of_nat j) = k) /\
      (forall (j : nat) v, vs !! j = Some v -> arg_at ms2 msg (Z.of_nat j) = v) /\
      (forall f, 0 <= f < 512 -> Z.testbit (byte ms2 (a + T - 64 + f / 8)) (f mod 8) = true <->
         exists k, k ∈ ks /\ hash_k2f tpcc_partition k = Some f).
Proof.
  intros HN HH HY MT HC Ht Hi HL HS HW Hs Ha1 Ha2.
  destruct (generate_calls i x t c w HN HH HY MT HC Ht Hi HL HS HW)
    as (k1 & b & ks & vs & HF & [HB HG] & HR & HC1 & HP). cbv zeta in HF, HC1.
  set (c1 := (set_tx i (b_tx b) c) <| cl_mem := b_mem b |> <| draws := b_draws b |>) in *.
  destruct (tpcc_request_len _ _ _ _ HR) as [HLen Hty]. destruct (tpcc_request_range _ _ _ _ MT HW HR) as [FK FV].
  assert (HLen' : (length ks <= 40 /\ length vs <= 50)%nat) by lia.
  assert (my_tx c1 !! i = Some (b_tx b)) as Ht1 by apply lookup_insert_eq.
  destruct (push_arrives 0 JUST_COMMIT (tpcc_req b) 4 (drawn_type t) i (nic (b_tx b)) (feature (b_tx b)) x (b_tx b) c1 w s ms x0
    HC1 HP Ht1 Hs Ha1 Ha2) as (k2 & c' & w' & id & dw & rest & HF2 & _ & EW & _ & _ & _ & Hd); [|done|].
  { destruct (tpcc_block_off _ b ks vs HB HLen') as (_ & _ & _ & _ & ->).
    replace (112 + 16 * Z.of_nat (length ks) + 8 * Z.of_nat (length vs))
      with ((28 + 4 * Z.of_nat (length ks) + 2 * Z.of_nat (length vs)) * 4) by lia. apply Z.mod_mul. lia. }
  cbv zeta in Hd. destruct Hd as (_ & Hk & _ & _ & _ & HT & HBl & _).
  exists (Nat.max k1 k2), c', w', dw, rest, ks, vs. split_and!; [|exact EW|exact HR|].
  - intros fuel Hf. rewrite HF by lia. by rewrite HF2 by lia.
  - cbv zeta. set (a := get_rev_addr s i) in *. set (ms1 := rdma_deliver (cl_mem c') dw ms) in *.
    eexists _, _. split; [exact HT|]. set (ms2 := st 4 ms1 (a + block_off (tpcc_req b) 4 4) 0) in *.
    split; [|exact (tpcc_decoded _ b ks vs HB HLen' ms2 a x0 HN HBl FK FV)].
    destruct (tpcc_block_off _ b ks vs HB HLen') as (_ & _ & _ & _ & ET).
    assert (m_type (deserialization ms2 a x0) = read_name (load_ReqHead ms2 a)) as ->
      by (unfold deserialization; by rewrite HN).
    rewrite (load_ReqHead_shift ms2 ms1 a a) by (intros j Hj; unfold ms2; apply byte_st; lia).
    rewrite Hk. apply wrap_small. unfold uint. lia.
Qed.

(** C25: a TPC-C request means on the server what the client drew.  A client
    thread between two calls that generates a transaction finishes the call; what
    it sends is the transaction of the type drawn with parameters in their ranges, a
    new order's items being distinct; when the data write has been carried out
    on the server, the scheduler takes the request, the worker's message has the
    type, and the worker's accessors return exactly the keys and arguments drawn;
    and the 512 feature bits that the scheduler finds before the end of the
    request are those of the keys, no others.  (The key of a delivery is that of
    the warehouse of the client's previous order or payment.) *)
Theorem tpcc_request_decoded (i : Z) (x : Connect) (t : switch_tx) (c : client) (w : W)
    (s : Connect) (ms : memory) (x0 : msg_t) :
  NULLRPC = false -> YCSBHOT = false -> YCSBplusT = false -> 2 <= MAX_THREAD ->
  client_ok 0 x c w -> my_tx c !! i = Some t -> tx_id t = i -> tx_layout t -> slot_apart x t ->
  uint 32 (warehouse_id t) ->
  data_addr s = remote_data_addr x -> 0 <= get_rev_addr s i -> get_rev_addr s i + DATA_LEN < 2 ^ 63 ->
  exists k c' w' dw rest ks vs,
    (forall fuel, (k <= fuel)%nat -> generate_tx post_chain ibv_poll_cq fuel i c w = Some (c', w')) /\
    posted w' = posted w ++ (qp x, dw) :: rest /\
    tpcc_request (warehouse_id t) (drawn_type t) ks vs /\
    let a := get_rev_addr s i in
    let ms1 := rdma_deliver (cl_mem c') dw ms in
    exists ms2 T, take_request a ms1 = Some (ms2, T) /\
      let msg := deserialization ms2 a x0 in
      m_type msg = drawn_type t /\ Msg.main_read_count msg = Z.of_nat (length ks) /\
      (forall (j : nat) k, ks !! j = Some k -> key_at ms2 msg (Z.of_nat j) = k) /\
      (forall (j : nat) v, vs !! j = Some v -> arg_at ms2 msg (Z.of_nat j) = v) /\
      (forall f, 0 <= f < 512 -> Z.testbit (byte ms2 (a + T - 64 + f / 8)) (f mod 8) = true <->
         exists k, k ∈ ks /\ hash_k2f tpcc_partition k = Some f).
Proof. exact (tpcc_request_arrives i x t c w s ms x0). Qed.
End tpcc.

(** * Generators that count *)

Definition counting : Rng := {|
  rnd := fun k lo hi => if lo =? 0 then 0 else lo + k mod (hi - lo + 1);
  zipf := fun _ => 1; hot_record := fun _ _ => 0 |}.

Lemma counting_item k : item_at (R := counting) k = (k + 1 + 7912) mod 100000 + 1.
Proof.
  unfold item_at. cbn [rnd counting]. change (0 =? 0) with true. change (1 =? 0) with false. cbn iota.
  change (NumItems - 1 + 1) with 100000. change NumItems with 100000. rewrite Z.lor_0_l.
  replace (1 + (k + 1) mod 100000 + 7911) with ((k + 1) mod 100000 + 7912) by lia.
  by rewrite Zplus_mod_idemp_l.
Qed.

(** Sixteen items in a row are distinct. *)
Lemma counting_fresh k (l : list Z) :
  (length l <= 15)%nat -> exists j : nat, item_at (R := counting) (k + 2 * Z.of_nat j) ∉ l.
Proof.
  intros Hl. destruct (decide (Exists (fun j => item_at (R := counting) (k + 2 * Z.of_nat j) ∉ l) (seq 0 16))) as [HE|HE].
  - apply Exists_exists in HE as (j & _ & Hj). by exists j.
  - exfalso. rewrite <-Forall_Exists_neg, Forall_forall in HE.
    set (xs := (fun j => item_at (R := counting) (k + 2 * Z.of_nat j)) <$> seq 0 16).
    assert (NoDup xs) as ND.
    { apply NoDup_fmap_2_strong; [|apply NoDup_seq]. intros i j Hi%elem_of_seq Hj%elem_of_seq E.
      rewrite !counting_item in E. pose proof (Z.div_mod (k + 2 * Z.of_nat i + 1 + 7912) 100000 ltac:(lia)).
      pose proof (Z.div_mod (k + 2 * Z.of_nat j + 1 + 7912) 100000 ltac:(lia)). lia. }
    assert (xs ⊆+ l) as HS%submseteq_length.
    { apply NoDup_submseteq; [done|]. intros y (j & -> & Hj)%list_elem_of_fmap. specialize (HE j Hj). cbv beta in HE.
      by destruct (decide (item_at (R := counting) (k + 2 * Z.of_nat j) ∈ l)). }
    unfold xs in HS. rewrite length_fmap, length_seq in HS. lia.
Qed.

Lemma counting_ok : RngOk (CC := tpcc_client) counting.
Proof.
  split; cbn -[Z.modulo].
  - intros k lo hi H. destruct (Z.eqb_spec lo 0); [lia|]. pose proof (Z.mod_pos_bound k (hi - lo + 1)). lia.
  - done.
  - lia.
  - exact counting_fresh.
  - intros k w _. pose proof (Z.mod_pos_bound k 2 ltac:(lia)). pose proof (Z.div_mod k 2 ltac:(lia)).
    pose proof (Z.mod_pos_bound (k + 1) 2 ltac:(lia)). pose proof (Z.div_mod (k + 1) 2 ltac:(lia)).
    change (2 - 1 + 1) with 2.
    destruct (decide (1 + k mod 2 = w)); [exists 1%nat|exists 0%nat; rewrite Z.add_0_r; done]. change (Z.of_nat 1) with 1. lia.
Qed.

Lemma tpcc_request_decoded_witness :
  let gen := generate_tx (C := tpcc_alnico) (CC := tpcc_client) (R := counting) (W := sim) post_chain ibv_poll_cq in
  let a := 0x30000000 + 2048 * 2 in
  exists k c' w' dw rest ks vs,
    (forall fuel, (k <= fuel)%nat -> gen fuel 2 demo_client sim_start = Some (c', w')) /\
    sim_log w' = (5, dw) :: rest /\
    tpcc_request (C := tpcc_alnico) (CC := tpcc_client) 1 1 ks vs /\
    is_Some (take_request a (rdma_deliver (cl_mem c') dw ∅)).
Proof.
  intros gen a.
  destruct (tpcc_request_decoded (C := tpcc_alnico) (CC := tpcc_client) (R := counting) (RO := counting_ok) (W := sim)
    2 demo_client_peer demo_tx demo_client sim_start demo_server_peer ∅ demo_msg)
    as (k & c' & w' & dw & rest & ks & vs & E & Ew & HR & ms2 & T & HT & _);
    [reflexivity|reflexivity|reflexivity|cbn; lia|exact demo_client_ok|reflexivity|reflexivity
    |split; vm_compute; left; congruence|split; vm_compute; (split; congruence) || (right; congruence)
    |vm_compute; split; congruence|reflexivity|vm_compute; congruence|vm_compute; reflexivity|].
  exists k, c', w', dw, rest, ks, vs. split; [exact E|]. split; [exact Ew|]. split; [exact HR|].
  exists (ms2, T). exact HT.
Defined.
