(* ===== verification/ClientRun.v ===== *)
(** The loop of a client thread with the server's answers: [run_tpcc_client] of
    [NicTxn/nictxn_as_client.cpp] visits its slots and looks for the second
    answers of its deliveries while the server writes the reply words. *)

From S2P Require Import Prelude Memory Config RpcCommon Reply ReplyProps.
From S2P Require Import Client ClientProps ClientSend ClientTransfer.
From S2P Require Import Procedure ClientLoop ProcedureProps OrderProps TpccProps.

#[local] Set Default Proof Using "Type*".
#[local] Arguments ld : simpl never.
#[local] Arguments st : simpl never.

Section words.
Context {C : Config}.

(** ** The words the loop looks at *)

Definition reply_word (x : Connect) (m : memory) (i : Z) : Z := ld 4 m (rpc_id_addr (get_my_reply_addr x i)).
Definition head_id (x : Connect) (m : memory) (i : Z) : Z := rpc_id (rpcId (load_ReqHead m (data_slot x i))).
Definition delivery_word (x : Connect) (m : memory) (r : Z) : Z := ld 8 m (get_strife_reply_addr x r).

(** The [len] bytes at [a] are not written while transaction [t] of slot [i]
    builds and sends its request. *)
Definition away (x : Connect) (i : Z) (t : switch_tx) (a len : Z) : Prop :=
  apart (my_ctx t) CTXBUFFER a len /\ apart (args t) ARGS_LEN a len /\ apart (feature t) FEATURE_LEN a len /\
  apart (data_slot x i) DATA_LEN a len /\ apart (meta_slot x i) 68 a len.

(** The transaction of slot [i] and its place among the others. *)
Record tx_ready (x : Connect) (i : Z) (t : switch_tx) : Prop := {
  tr_id : tx_id t = i;
  tr_node : single_node_id t = 0;
  tr_layout : tx_layout t;
  tr_apart : slot_apart x t;
  tr_ware : uint 32 (warehouse_id t);
  tr_reply : forall j, 0 <= j < SLOT_NUM -> away x i t (rpc_id_addr (get_my_reply_addr x j)) 4;
  tr_head : forall j, 0 <= j < SLOT_NUM -> j <> i -> away x i t (data_slot x j) 28;
  tr_delivery : forall r, 0 <= r < IDMAPADDRSIZE -> away x i t (get_strife_reply_addr x r) 8 }.

Lemma tx_ready_conn x x' i t : same_conn x x' -> tx_ready x i t -> tx_ready x' i t.
Proof. intros (n & k & ->) [H1 H2 H3 [] H5 H6 H7 H8]. by split. Qed.

Lemma tx_ready_same x i t t' : same_buffers (start t) t' -> tx_ready x i t -> tx_ready x i t'.
Proof.
  intros (E1 & E2 & E3 & E4 & E5 & _ & E6) [H1 H2 H3 [P1 P2 P3 P4 P5] H5 H6 H7 H8]. cbn in *.
  split; unfold away in *; rewrite ?E1, ?E2, ?E3, ?E4, ?E5; try done; [| |by apply E6].
  - destruct H3. split; by rewrite ?E2, ?E3, ?E4.
  - split; by rewrite ?E1, ?E2, ?E3, ?E4.
Qed.

Lemma same_conn_words x x' : same_conn x x' ->
  reply_word x' = reply_word x /\ head_id x' = head_id x /\ delivery_word x' = delivery_word x.
Proof. by intros (n & k & ->). Qed.
(** The id is the counter or its successor, and not that of the last request. *)
Lemma skip_same_id_near num old :
  0 <= num < IDMAPADDRSIZE -> let id := skip_same_id num old mod IDMAPADDRSIZE in
  0 <= id < IDMAPADDRSIZE /\ id <> old /\ (id = num mod IDMAPADDRSIZE \/ id = (num + 1) mod IDMAPADDRSIZE).
Proof using C.
  intros Hn id. destruct (skip_same_id_ne num old Hn) as [_ H]. split; [by apply Z.mod_pos_bound|]. split; [exact H|].
  unfold id, skip_same_id. destruct (_ || _); [right|by left]. by rewrite Z.mod_mod.
Qed.

End words.

(** ** Events and what they say of a slot and of an id *)

Inductive client_event :=
  | Send (i id : Z) (del : bool)   (* a request leaves slot [i] *)
  | Reply (i : Z)                  (* the server writes the reply word of slot [i] *)
  | Finish (i : Z)                 (* the client counts the transaction of slot [i] *)
  | Deliver (r : Z)                (* the server writes the second answer of delivery [r] *)
  | Delivered (r : Z).             (* the client sees it *)

Inductive slot_state := Idle | Waiting (id : Z) | Answered (id : Z).
Inductive delivery_state := Closed | Open | Done.

(** A slot sends, is answered, finishes, and so on; any other order is [None]. *)
Definition slot_next (i : Z) (s : slot_state) (e : client_event) : option slot_state :=
  match e, s with
  | Send j id _, _ => if decide (j = i) then match s with Idle => Some (Waiting id) | _ => None end else Some s
  | Reply j, _ => if decide (j = i) then match s with Waiting id => Some (Answered id) | _ => None end else Some s
  | Finish j, _ => if decide (j = i) then match s with Answered _ => Some Idle | _ => None end else Some s
  | _, _ => Some s
  end.

(** No request may use the id of a delivery whose second answer the client has
    not seen. *)
Definition delivery_next (r : Z) (d : delivery_state) (e : client_event) : option delivery_state :=
  match e with
  | Send _ id del => if decide (id = r) then match d with Closed => Some (if del : bool then Open else Closed) | _ => None end
                     else Some d
  | Deliver r' => if decide (r' = r) then match d with Open => Some Done | _ => None end else Some d
  | Delivered r' => if decide (r' = r) then match d with Done => Some Closed | _ => None end else Some d
  | _ => Some d
  end.

Definition history {S} (next : S -> client_event -> option S) (s0 : S) (tr : list client_event) : option S :=
  foldl (fun s e => s ← s; next s e) (Some s0) tr.
Definition slot_history (i : Z) : list client_event -> option slot_state := history (slot_next i) Idle.
Definition delivery_history (r : Z) : list client_event -> option delivery_state := history (delivery_next r) Closed.

Lemma history_snoc {S} next (s0 : S) tr e :
  history next s0 (tr ++ [e]) = (s ← history next s0 tr; next s e).
Proof. unfold history. by rewrite foldl_app. Qed.

(** What a visit of slot [i] and a look at delivery [r] have done. *)
Definition visit_event (i : Z) (c c' : client) : list client_event :=
  match my_tx c !! i, my_tx c' !! i with
  | Some t, Some t' =>
      if negb (is_busy t) && is_busy t' then [Send i (single_rpc_id t') (tpcc_latency_type t' =? ty_del)]
      else if is_busy t && negb (is_busy t') then [Finish i] else []
  | _, _ => []
  end.

Definition poll_event (r : Z) (c c' : client) : list client_event :=
  if ((no_delivery_flag c).[r] =? 0) && negb ((no_delivery_flag c').[r] =? 0) then [Delivered r] else [].

Section run.
Context {C : Config} {CO : ConfigOk C} {CC : ClientConfig} {R : Rng} {RO : RngOk R}.
Context {W : Type} `{!Verbs W, !VerbsLaws W}.
Context (HN : NULLRPC = false) (HH : YCSBHOT = false) (HY : YCSBplusT = false) (MT : 2 <= MAX_THREAD).

(** ** A new request *)

Lemma generate_spec i x t c (w : W) :
  client_ok 0 x c w -> my_tx c !! i = Some t -> tx_ready x i t ->
  exists k x' c' w' t', let id := single_rpc_id t' in
    (forall fuel, (k <= fuel)%nat -> generate_tx post_chain ibv_poll_cq fuel i c w = Some (c', w')) /\
    client_ok 0 x' c' w' /\ same_conn x x' /\ my_tx c' = <[i := t']> (my_tx c) /\ same_buffers (start t) t' /\
    0 <= id < IDMAPADDRSIZE /\ id <> head_id x (cl_mem c) i /\
    (id = (rpcnum c).[0] mod IDMAPADDRSIZE \/ id = ((rpcnum c).[0] + 1) mod IDMAPADDRSIZE) /\
    head_id x (cl_mem c') i = id /\
    (forall a len y, away x i t a len -> a <= y < a + len -> byte (cl_mem c') y = byte (cl_mem c) y) /\
    no_delivery_flag c' = no_delivery_flag c /\ strife_cqe c' = strife_cqe c.
Proof.
  intros HC Ht [R1 R2 R3 R4 R5 _ _ _].
  destruct (generate_calls i x t c w HN HH HY MT HC Ht R1 R3 R4 R5)
    as (k1 & b & ks & vs & HF & [HB HG] & _ & HC1 & HP). cbv zeta in HF, HC1.
  set (ty := drawn_type t) in *. set (c1 := (set_tx i (b_tx b) c) <| cl_mem := b_mem b |> <| draws := b_draws b |>) in *.
  assert (my_tx c1 !! i = Some (b_tx b)) as Ht1 by apply lookup_insert_eq.
  pose proof (push_spec 0 JUST_COMMIT (tpcc_req b) 4 ty i (nic (b_tx b)) (feature (b_tx b)) x (b_tx b) c1 w HC1 HP Ht1)
    as HPu. cbv zeta in HPu. set (id := new_id 0 JUST_COMMIT i x c1) in *. set (D := data_slot x i) in *.
  pose proof (put_request_spec D id (tpcc_req b) 4 ty i (nic (b_tx b)) (cl_mem c1) (pr_ok _ _ _ _ _ HP)
    (ready_outside _ _ _ _ _ HP) (new_id_ok _ _ _ _ _)) as HQ.
  destruct (put_request D id (tpcc_req b) 4 ty i (nic (b_tx b)) (cl_mem c1)) as [m1 T].
  destruct HPu as (k2 & s & x' & c' & w' & HF2 & HC' & HSC & Em & Et & (_ & _ & _ & EF & EQ & _) & _).
  destruct HQ as (ET & Q1 & _ & _ & _ & QO). pose proof (pr_fits _ _ _ _ _ HP) as Hfit. rewrite <-ET in Hfit.
  assert (0 <= T) as HT0.
  { rewrite ET. pose proof (block_off_bounds _ _ (pr_ok _ _ _ _ _ HP) 4 ltac:(lia)). lia. }
  assert (4 <= DATA_LEN /\ 28 <= DATA_LEN) as [HD HD28] by (unfold DATA_LEN; destruct YCSBplusT; lia).
  pose proof (pr_meta _ _ _ _ _ HP) as Hm. fold D in Hm.
  destruct (serialize_slot_spec m1 (meta_slot x i) D (feature (b_tx b))) as (_ & _ & _ & SO);
    [unfold sizeof_ReqHead; lia|]. rewrite <-Em in SO.
  assert (BF : forall y, not_in_tx t y -> byte (cl_mem c1) y = byte (cl_mem c) y).
  { intros y Hy. apply (bu_frame _ _ _ _ HB). destruct HG as (_ & G2 & G3 & G4 & _). unfold not_in_tx in *.
    by rewrite G2, G3, G4. }
  assert (HD0 : head_id x (cl_mem c1) i = head_id x (cl_mem c) i).
  { unfold head_id. f_equal. f_equal. apply load_ReqHead_shift. intros y Hy. apply BF.
    destruct R4 as [_ A1 A2 A3 _]. rewrite R1 in *. unfold not_in_tx, apart in *. fold D in A1, A2, A3. fold D. lia. }
  exists (Nat.max k1 k2), x', c', w', ((b_tx b) <| single_rpc_id := rpc_id id |>).
  pose proof (skip_same_id_near (rpcnum c).[0] (head_id x (cl_mem c1) i) (co_num _ _ _ _ HC)) as (I1 & I2 & I3).
  change (skip_same_id (rpcnum c).[0] (head_id x (cl_mem c1) i) mod IDMAPADDRSIZE) with (rpc_id id) in I1, I2, I3.
  rewrite HD0 in I2. cbn [single_rpc_id].
  split_and!; try done; try apply I1.
  - intros fuel Hf. rewrite HF by lia. by rewrite HF2 by lia.
  - rewrite Et. apply insert_insert_eq.
  - unfold head_id. rewrite (load_ReqHead_shift (cl_mem c') m1 (data_slot x i) D), Q1; [done|].
    intros y Hy. apply SO. fold D. lia.
  - intros a len y (A1 & A2 & A3 & A4 & A5) Hy. unfold apart in *. fold D in A4.
    rewrite SO by lia. rewrite QO by lia. apply BF. unfold not_in_tx, apart. lia.
Qed.

(** ** Runs *)

(** A visit of slot [i], with as many polls as it takes. *)
Definition visits (i : Z) (c : client) (w : W) (c' : client) (w' : W) : Prop :=
  exists k stop, forall fuel, (k <= fuel)%nat ->
    tpcc_client_slot post_chain ibv_poll_cq fuel i c w = Some (c', w', stop).

(** The memory changes, except the words of the loop outside [i] and [r]. *)
Definition server_writes (x : Connect) (m m' : memory) (only_i only_r : option Z) : Prop :=
  (forall j, 0 <= j < SLOT_NUM -> head_id x m' j = head_id x m j) /\
  (forall j, 0 <= j < SLOT_NUM -> only_i <> Some j -> reply_word x m' j = reply_word x m j) /\
  (forall r, 0 <= r < IDMAPADDRSIZE -> only_r <> Some r -> delivery_word x m' r = delivery_word x m r).

(** The thread visits slots and looks at deliveries in any order; the server
    answers a request that waits, once, with its id plus [NOTHING_DEBUG], and
    adds 11 to the word of an open delivery, once; other memory changes freely. *)
Inductive client_run (x : Connect) (c0 : client) (w0 : W) : list client_event -> client -> W -> Prop :=
  | run_start : client_run x c0 w0 [] c0 w0
  | run_visit tr c w i c' w' :
      client_run x c0 w0 tr c w -> 0 <= i < SLOT_NUM -> visits i c w c' w' ->
      client_run x c0 w0 (tr ++ visit_event i c c') c' w'
  | run_poll tr c w r c' :
      client_run x c0 w0 tr c w -> 0 <= r < IDMAPADDRSIZE -> poll_delivery r c = Some c' ->
      client_run x c0 w0 (tr ++ poll_event r c c') c' w
  | run_reply tr c w i id m :
      client_run x c0 w0 tr c w -> 0 <= i < SLOT_NUM -> slot_history i tr = Some (Waiting id) ->
      server_writes x (cl_mem c) m (Some i) None -> reply_word x m i = u32 (id + NOTHING_DEBUG) ->
      client_run x c0 w0 (tr ++ [Reply i]) (c <| cl_mem := m |>) w
  | run_deliver tr c w r m :
      client_run x c0 w0 tr c w -> 0 <= r < IDMAPADDRSIZE -> delivery_history r tr = Some Open ->
      server_writes x (cl_mem c) m None (Some r) -> delivery_word x m r = u64 (delivery_word x (cl_mem c) r + 11) ->
      client_run x c0 w0 (tr ++ [Deliver r]) (c <| cl_mem := m |>) w
  | run_memory tr c w m :
      client_run x c0 w0 tr c w -> server_writes x (cl_mem c) m None None ->
      client_run x c0 w0 tr (c <| cl_mem := m |>) w.

(** ** The invariant *)

Definition slot_inv (x : Connect) (c : client) (i : Z) (t : switch_tx) (s : slot_state) : Prop :=
  let h := head_id x (cl_mem c) i in
  let rw := reply_word x (cl_mem c) i in
  match s with
  | Idle => is_busy t = false /\ forall id, 0 <= id < IDMAPADDRSIZE -> id <> h -> rw <> id + NOTHING_DEBUG
  | Waiting id => is_busy t = true /\ single_rpc_id t = id /\ h = id /\ 0 <= id < IDMAPADDRSIZE /\
                  rw <> id + NOTHING_DEBUG
  | Answered id => is_busy t = true /\ single_rpc_id t = id /\ h = id /\ 0 <= id < IDMAPADDRSIZE /\
                   rw = id + NOTHING_DEBUG
  end.

Definition delivery_inv (x : Connect) (c : client) (r : Z) (d : delivery_state) : Prop :=
  let dw := delivery_word x (cl_mem c) r in
  match d with
  | Closed => (no_delivery_flag c).[r] <> 0 /\ dw = (strife_cqe c).[r]
  | Open => (no_delivery_flag c).[r] = 0 /\ dw = (strife_cqe c).[r]
  | Done => (no_delivery_flag c).[r] = 0 /\ dw = u64 ((strife_cqe c).[r] + 11)
  end.

Record run_inv (x0 : Connect) (tr : list client_event) (c : client) (w : W) : Prop := {
  ri_conn : exists x, same_conn x0 x /\ client_ok 0 x c w;
  ri_txs : forall i, 0 <= i < SLOT_NUM -> exists t s, my_tx c !! i = Some t /\ tx_ready x0 i t /\
    slot_history i tr = Some s /\ slot_inv x0 c i t s;
  ri_dels : forall r, 0 <= r < IDMAPADDRSIZE -> exists d, delivery_history r tr = Some d /\ delivery_inv x0 c r d }.

Lemma run_inv_start x c (w : W) :
  client_ok 0 x c w ->
  (forall i, 0 <= i < SLOT_NUM -> exists t, my_tx c !! i = Some t /\ tx_ready x i t /\ is_busy t = false /\
     reply_word x (cl_mem c) i = 0) ->
  (forall r, 0 <= r < IDMAPADDRSIZE -> delivery_word x (cl_mem c) r = 0) ->
  run_inv x [] (tpcc_client_init c) w.
Proof.
  intros HC HT HD. split.
  - exists x. split; [apply same_conn_refl|]. destruct HC as [[] ? ? ?]. by split.
  - intros i Hi. destruct (HT i Hi) as (t & E1 & E2 & E3 & E4). exists t, Idle.
    do 3 (split; [done|]). split; [done|].
    intros id Hid _. change (reply_word x (cl_mem c) i <> id + NOTHING_DEBUG). rewrite E4. unfold NOTHING_DEBUG. lia.
  - intros r Hr. exists Closed. split; [done|]. unfold delivery_inv. cbn [tpcc_client_init].
    change (strife_cqe (tpcc_client_init c)) with (∅ : gmap Z Z). split; [|by rewrite HD].
    change (no_delivery_flag (tpcc_client_init c))
      with (for_range 0 IDMAPADDRSIZE (fun i m => <[i := 1]> m) (no_delivery_flag c)).
    assert (K : forall r, 0 <= r < IDMAPADDRSIZE ->
      (for_range 0 IDMAPADDRSIZE (fun i m => <[i := 1]> m) (no_delivery_flag c)).[r] = 1); [|rewrite K; done].
    apply (for_range_ind (fun k (m : gmap Z Z) => forall r, 0 <= r < k -> m.[r] = 1)); [done|lia|].
    intros k m Hk IH j Hj. destruct (decide (j = k)) as [->|]; [apply rd_insert_eq|].
    rewrite rd_insert_ne by congruence. apply IH. lia.
Qed.

Lemma slot_inv_same x c c' i t s :
  head_id x (cl_mem c') i = head_id x (cl_mem c) i -> reply_word x (cl_mem c') i = reply_word x (cl_mem c) i ->
  slot_inv x c i t s -> slot_inv x c' i t s.
Proof. unfold slot_inv. by intros -> ->. Qed.

Lemma delivery_inv_same x c c' r d :
  delivery_word x (cl_mem c') r = delivery_word x (cl_mem c) r ->
  (no_delivery_flag c').[r] = (no_delivery_flag c).[r] -> (strife_cqe c').[r] = (strife_cqe c).[r] ->
  delivery_inv x c r d -> delivery_inv x c' r d.
Proof. unfold delivery_inv. by intros -> -> ->. Qed.

(** A step whose event does not concern the slot or the delivery. *)
Lemma slot_history_snoc i tr e s s' :
  slot_history i tr = Some s -> slot_next i s e = Some s' -> slot_history i (tr ++ [e]) = Some s'.
Proof. unfold slot_history. intros H E. by rewrite history_snoc, H. Qed.

Lemma delivery_history_snoc r tr e d d' :
  delivery_history r tr = Some d -> delivery_next r d e = Some d' -> delivery_history r (tr ++ [e]) = Some d'.
Proof. unfold delivery_history. intros H E. by rewrite history_snoc, H. Qed.

Lemma answered_spec x i t m :
  0 <= single_rpc_id t < IDMAPADDRSIZE ->
  answered x i t m = true <-> reply_word x m i = single_rpc_id t + NOTHING_DEBUG.
Proof.
  intros H. unfold answered, reply_word, IDMAPADDRSIZE, NOTHING_DEBUG in *.
  rewrite wrap_small by (unfold uint; lia). apply Z.eqb_eq.
Qed.

(** ** The visits *)

Lemma visit_idle_event i c t (w : W) : my_tx c !! i = Some t -> visit_event i c c = [].
Proof. intros H. unfold visit_event. rewrite H. by destruct (is_busy t). Qed.

(** The guard: the id of the new request is not that of an open delivery. *)
Lemma delivery_guard c id :
  0 <= (rpcnum c).[0] < IDMAPADDRSIZE ->
  delivery_reply_ok (u32 (rpcnum c).[0]) c && delivery_reply_ok (u32 ((rpcnum c).[0] + 1)) c = true ->
  id = (rpcnum c).[0] mod IDMAPADDRSIZE \/ id = ((rpcnum c).[0] + 1) mod IDMAPADDRSIZE ->
  (no_delivery_flag c).[id] <> 0.
Proof.
  intros Hn HG Hid. unfold delivery_reply_ok, IDMAPADDRSIZE in *.
  rewrite !wrap_small in HG by (unfold uint; lia). rewrite andb_true_iff, !negb_true_iff, !Z.eqb_neq in HG.
  destruct Hid as [-> | ->]; apply HG.
Qed.

Definition after_send (t : switch_tx) (c : client) : client :=
  if tpcc_latency_type t =? ty_del
  then c <| no_delivery_flag := <[single_rpc_id t := 0]> (no_delivery_flag c) |> else c.

Lemma after_send_spec t c :
  let c' := after_send t c in let id := single_rpc_id t in
  my_tx c' = my_tx c /\ cl_mem c' = cl_mem c /\ strife_cqe c' = strife_cqe c /\
  (no_delivery_flag c').[id] = (if tpcc_latency_type t =? ty_del then 0 else (no_delivery_flag c).[id]) /\
  (forall r, r <> id -> (no_delivery_flag c').[r] = (no_delivery_flag c).[r]) /\
  (forall x (w : W), client_ok 0 x c w -> client_ok 0 x c' w).
Proof.
  unfold after_send. destruct (tpcc_latency_type t =? ty_del); [|done].
  split_and!; [done..| | |]; cbn; [apply rd_insert_eq|intros r Hr; apply rd_insert_ne; congruence|].
  intros x w [[] ? ? ?]. by split.
Qed.

Lemma words_kept x i t m m' :
  tx_ready x i t -> (forall a len y, away x i t a len -> a <= y < a + len -> byte m' y = byte m y) ->
  (forall j, 0 <= j < SLOT_NUM -> reply_word x m' j = reply_word x m j) /\
  (forall j, 0 <= j < SLOT_NUM -> j <> i -> head_id x m' j = head_id x m j) /\
  (forall r, 0 <= r < IDMAPADDRSIZE -> delivery_word x m' r = delivery_word x m r).
Proof.
  intros HR HA. split_and!.
  - intros j Hj. apply ld_ext. intros y Hy. eapply HA; [by apply (tr_reply _ _ _ HR)|lia].
  - intros j Hj Hne. unfold head_id. f_equal. f_equal. apply load_ReqHead_shift. intros y Hy.
    eapply HA; [by apply (tr_head _ _ _ HR)|lia].
  - intros r Hr. apply ld_ext. intros y Hy. eapply HA; [by apply (tr_delivery _ _ _ HR)|lia].
Qed.

(** A free slot sends. *)
Lemma visit_sends x0 tr i t c (w : W) :
  run_inv x0 tr c w -> 0 <= i < SLOT_NUM -> my_tx c !! i = Some t -> is_busy t = false ->
  delivery_reply_ok (u32 (rpcnum c).[0]) c && delivery_reply_ok (u32 ((rpcnum c).[0] + 1)) c = true ->
  exists c' w', visits i c w c' w' /\ run_inv x0 (tr ++ visit_event i c c') c' w'.
Proof.
  intros HI Hi Ht Hb HG. destruct HI as [(x & HS & HC) HT HD].
  destruct (HT i Hi) as (t0 & s & Ht0 & HR & HH0 & HV). rewrite Ht in Ht0. injection Ht0 as <-.
  assert (s = Idle) as -> by (destruct s; [done|by destruct HV as [? _]; congruence..]). destruct HV as [_ HV].
  destruct (same_conn_words x0 x HS) as (W1 & W2 & W3).
  set (c1 := c <| test_count_client := u64 (test_count_client c + 1) |>).
  assert (client_ok 0 x c1 w) as HC1 by (destruct HC as [[] ? ? ?]; by split).
  destruct (generate_spec i x t c1 w HC1 Ht (tx_ready_conn _ _ _ _ HS HR))
    as (k & x' & c' & w' & t' & E & HC' & HS' & Et & SB & I1 & I2 & I3 & I4 & FR & EF & EQ).
  set (id := single_rpc_id t') in *. rewrite W2 in I2, I4.
  destruct (words_kept x0 i t (cl_mem c) (cl_mem c') HR) as (HRW & HHD & HDW).
  { intros a len y HA. apply FR. destruct HS as (n1 & k1 & ->). exact HA. }
  assert (Hbt : is_busy t' = true) by (destruct SB as (_ & _ & _ & _ & _ & E' & _); exact E').
  assert (Hti : my_tx c' !! i = Some t') by (rewrite Et; apply lookup_insert_eq).
  pose proof (after_send_spec t' c') as (F1 & F2 & F3 & F4 & F5 & F6). fold id in F4, F5.
  set (c2 := after_send t' c') in *. rewrite EF in F4, F5. change (no_delivery_flag c1) with (no_delivery_flag c) in F4, F5.
  assert (visit_event i c c2 = [Send i id (tpcc_latency_type t' =? ty_del)]) as EV.
  { unfold visit_event. by rewrite Ht, F1, Hti, Hb, Hbt. }
  exists c2, w'. rewrite EV. split.
  - exists k, false. intros fuel Hf. unfold tpcc_client_slot. rewrite Ht. cbn [mbind option_bind].
    rewrite Hb. cbn [negb]. rewrite HG. cbn [negb]. rewrite (tr_node _ _ _ HR), (sa_conn _ _ _ _ _ _ (co_acct _ _ _ _ HC)).
    cbn [mbind option_bind]. fold c1. rewrite E by done. cbn [mbind option_bind]. rewrite Hti. done.
  - split.
    + exists x'. split; [by eapply same_conn_trans|by apply F6].
    + intros j Hj. destruct (decide (j = i)) as [->|Hne].
      * exists t', (Waiting id). rewrite F1. split; [done|]. split; [by eapply tx_ready_same|].
        split; [eapply slot_history_snoc; [done|]; cbn; by rewrite decide_True|].
        unfold slot_inv. rewrite F2, I4, HRW by done. split_and!; try done; try apply I1. by apply HV.
      * destruct (HT j Hj) as (tj & sj & Htj & HRj & HHj & HVj). exists tj, sj.
        rewrite F1, Et, lookup_insert_ne by congruence. split; [done|]. split; [done|].
        split; [eapply slot_history_snoc; [done|]; cbn; by rewrite decide_False by congruence|].
        eapply slot_inv_same; [..|exact HVj]; rewrite F2; [by apply HHD|by apply HRW].
    + intros r Hr. destruct (HD r Hr) as (d & HHr & HVr). destruct (decide (r = id)) as [->|Hne].
      * pose proof (delivery_guard c id (co_num _ _ _ _ HC) HG I3) as HF.
        assert (d = Closed) as -> by (destruct d; [done|destruct HVr as [HV0 _]; congruence..]).
        exists (if tpcc_latency_type t' =? ty_del then Open else Closed).
        split; [eapply delivery_history_snoc; [done|]; cbn; by rewrite decide_True|].
        unfold delivery_inv in *. rewrite F2, F3, F4, EQ, HDW by done. destruct HVr. by destruct (tpcc_latency_type t' =? ty_del).
      * exists d. split; [eapply delivery_history_snoc; [done|]; cbn; by rewrite decide_False by congruence|].
        eapply delivery_inv_same; [..|exact HVr]; [rewrite F2; by apply HDW|by apply F5|by rewrite F3, EQ].
Qed.

(** A slot that has been answered finishes. *)
Lemma visit_finishes x0 tr i id c (w : W) :
  run_inv x0 tr c w -> 0 <= i < SLOT_NUM -> slot_history i tr = Some (Answered id) ->
  exists c' w', visits i c w c' w' /\ visit_event i c c' = [Finish i] /\ run_inv x0 (tr ++ [Finish i]) c' w'.
Proof.
  intros HI Hi HA. destruct HI as [(x & HS & HC) HT HD].
  destruct (HT i Hi) as (t & s & Ht & HR & HH0 & HV). rewrite HA in HH0. injection HH0 as <-.
  destruct HV as (Hb & Hid & Hh & Hr & HW). destruct (same_conn_words x0 x HS) as (W1 & _ & _).
  set (t1 := t <| now_phase := byte (cl_mem c) (my_nodeid_addr (get_my_reply_addr x i)) |>).
  set (c' := set_tx i (tx_ok t1) ((set_tx i t1 c) <| ok_count := u64 (ok_count c + 1) |>)).
  assert (Hti : my_tx c' !! i = Some (tx_ok t1)) by apply lookup_insert_eq.
  exists c', w. split_and!.
  - exists 0%nat, false. intros fuel _. unfold tpcc_client_slot. rewrite Ht. cbn [mbind option_bind].
    rewrite Hb. cbn [negb]. rewrite (tr_node _ _ _ HR), (sa_conn _ _ _ _ _ _ (co_acct _ _ _ _ HC)).
    cbn [mbind option_bind]. rewrite (proj2 (answered_spec x i t (cl_mem c) ltac:(lia))) by (rewrite W1, HW; lia).
    fold t1. unfold throughput_c. rewrite (lookup_insert_eq (my_tx c) i t1 : my_tx (set_tx i t1 c) !! i = Some t1). done.
  - unfold visit_event. rewrite Ht, Hti, Hb. done.
  - split.
    + exists x. split; [done|]. destruct HC as [[] ? ? ?]. by split.
    + intros j Hj. destruct (decide (j = i)) as [->|Hne].
      * exists (tx_ok t1), Idle. split; [done|]. split; [destruct HR as [? ? [] [] ? ? ? ?]; by split|].
        split; [eapply slot_history_snoc; [done|]; cbn; by rewrite decide_True|].
        split; [done|]. intros id' _ Hne. change (reply_word x0 (cl_mem c) i <> id' + NOTHING_DEBUG).
        change (id' <> head_id x0 (cl_mem c) i) in Hne. lia.
      * destruct (HT j Hj) as (tj & sj & Htj & HRj & HHj & HVj). exists tj, sj.
        split; [cbn; by rewrite !lookup_insert_ne by congruence|]. split; [done|].
        split; [eapply slot_history_snoc; [done|]; cbn; by rewrite decide_False by congruence|].
        eapply slot_inv_same; [..|exact HVj]; done.
    + intros r Hr'. destruct (HD r Hr') as (d & HHr & HVr). exists d.
      split; [by eapply delivery_history_snoc|]. eapply delivery_inv_same; [..|exact HVr]; done.
Qed.

(** Every visit ends. *)
Lemma visit_inv x0 tr i c (w : W) :
  run_inv x0 tr c w -> 0 <= i < SLOT_NUM ->
  exists c' w', visits i c w c' w' /\ run_inv x0 (tr ++ visit_event i c c') c' w'.
Proof.
  intros HI Hi. pose proof HI as [(x & HS & HC) HT HD].
  destruct (HT i Hi) as (t & s & Ht & HR & HH0 & HV). destruct (same_conn_words x0 x HS) as (W1 & _ & _).
  assert (Hnop : run_inv x0 (tr ++ visit_event i c c) c w) by by rewrite (visit_idle_event i c t w Ht), app_nil_r.
  destruct s as [|id|id].
  - destruct HV as [Hb _].
    destruct (delivery_reply_ok (u32 (rpcnum c).[0]) c && delivery_reply_ok (u32 ((rpcnum c).[0] + 1)) c) eqn:HG.
    { by apply (visit_sends x0 tr i t). }
    exists c, w. split; [|done]. exists 0%nat, true. intros fuel _. unfold tpcc_client_slot. rewrite Ht.
    cbn [mbind option_bind]. by rewrite Hb, HG.
  - destruct HV as (Hb & Hid & _ & Hr & HW). exists c, w. split; [|done]. exists 0%nat, false. intros fuel _.
    unfold tpcc_client_slot. rewrite Ht. cbn [mbind option_bind]. rewrite Hb. cbn [negb].
    rewrite (tr_node _ _ _ HR), (sa_conn _ _ _ _ _ _ (co_acct _ _ _ _ HC)). cbn [mbind option_bind].
    destruct (answered x i t (cl_mem c)) eqn:EA; [|done]. exfalso. apply HW.
    rewrite <-Hid, <-W1. apply answered_spec; [lia|done].
  - destruct (visit_finishes x0 tr i id c w HI Hi HH0) as (c' & w' & H1 & H2 & H3). exists c', w'. by rewrite H2.
Qed.

Lemma visits_det i c (w : W) c1 w1 c2 w2 : visits i c w c1 w1 -> visits i c w c2 w2 -> c1 = c2 /\ w1 = w2.
Proof.
  intros (k1 & s1 & H1) (k2 & s2 & H2). specialize (H1 (Nat.max k1 k2) ltac:(lia)).
  rewrite H2 in H1 by lia. by injection H1 as -> -> _.
Qed.

(** ** The look at a delivery *)

Lemma add11_ne v : 0 <= v < 2 ^ 64 -> v <> u64 (v + 11).
Proof. intros Hv. unfold wrap. pose proof (Z.div_mod (v + 11) (2 ^ 64) ltac:(lia)). lia. Qed.

Lemma poll_inv x0 tr r c (w : W) :
  run_inv x0 tr c w -> 0 <= r < IDMAPADDRSIZE ->
  exists c', poll_delivery r c = Some c' /\ run_inv x0 (tr ++ poll_event r c c') c' w /\
    (delivery_history r tr = Some Done -> poll_event r c c' = [Delivered r]).
Proof.
  intros HI Hr. pose proof HI as [(x & HS & HC) HT HD]. destruct (HD r Hr) as (d & HHr & HVr).
  destruct (same_conn_words x0 x HS) as (_ & _ & W3).
  assert (Hnop : run_inv x0 (tr ++ poll_event r c c) c w).
  { unfold poll_event. destruct (_ =? 0); by rewrite app_nil_r. }
  assert (HX : connect c !! 0 = Some x) by apply (sa_conn _ _ _ _ _ _ (co_acct _ _ _ _ HC)).
  pose proof (ld_range 8 (cl_mem c) (get_strife_reply_addr x0 r)) as HL. fold (delivery_word x0 (cl_mem c) r) in HL.
  unfold poll_delivery. destruct d.
  - destruct HVr as [HF _]. destruct (Z.eqb_spec (no_delivery_flag c).[r] 0); [done|]. exists c. split_and!; try done. congruence.
  - destruct HVr as [HF HW]. rewrite HF. cbn [Z.eqb]. unfold update_reply_flag. rewrite HX. cbn [mbind option_bind].
    fold (delivery_word x (cl_mem c) r). rewrite W3, <-HW. rewrite (proj2 (Z.eqb_neq _ _) (add11_ne _ HL)).
    cbn [mbind option_bind]. exists c. split_and!; try done. congruence.
  - destruct HVr as [HF HW]. rewrite HF. cbn [Z.eqb]. unfold update_reply_flag. rewrite HX. cbn [mbind option_bind].
    fold (delivery_word x (cl_mem c) r). rewrite W3, HW, Z.eqb_refl. cbn [mbind option_bind]. eexists. split; [reflexivity|].
    match goal with |- run_inv _ _ ?z _ /\ _ => set (c' := z) end.
    assert (poll_event r c c' = [Delivered r]) as ->.
    { unfold poll_event, c'. cbn. by rewrite HF, rd_insert_eq. }
    split; [|done]. split.
    + exists x. split; [done|]. destruct HC as [[] ? ? ?]. by split.
    + intros j Hj. destruct (HT j Hj) as (tj & sj & Htj & HRj & HHj & HVj). exists tj, sj.
      split; [done|]. split; [done|]. split; [by eapply slot_history_snoc|]. eapply slot_inv_same; [..|exact HVj]; done.
    + intros q Hq. destruct (decide (q = r)) as [->|Hne].
      * exists Closed. split; [eapply delivery_history_snoc; [done|]; cbn; by rewrite decide_True|].
        unfold delivery_inv, c'. cbn. by rewrite !rd_insert_eq.
      * destruct (HD q Hq) as (d & HHq & HVq). exists d.
        split; [eapply delivery_history_snoc; [done|]; cbn; by rewrite decide_False by congruence|].
        eapply delivery_inv_same; [..|exact HVq]; [done|by apply rd_insert_ne; congruence..].
Qed.

(** ** The server *)

Lemma reply_inv x0 tr i id c (w : W) m :
  run_inv x0 tr c w -> 0 <= i < SLOT_NUM -> slot_history i tr = Some (Waiting id) ->
  server_writes x0 (cl_mem c) m (Some i) None -> reply_word x0 m i = u32 (id + NOTHING_DEBUG) ->
  run_inv x0 (tr ++ [Reply i]) (c <| cl_mem := m |>) w.
Proof.
  intros [(x & HS & HC) HT HD] Hi HW (S1 & S2 & S3) HR. split.
  - exists x. split; [done|]. destruct HC as [[] ? ? ?]. by split.
  - intros j Hj. destruct (HT j Hj) as (t & s & Ht & HR0 & HH0 & HV). destruct (decide (j = i)) as [->|Hne].
    + rewrite HW in HH0. injection HH0 as <-. exists t, (Answered id). split; [done|]. split; [done|].
      split; [eapply slot_history_snoc; [done|]; cbn; by rewrite decide_True|].
      destruct HV as (V1 & V2 & V3 & V4 & _). split_and!; try done; try apply V4.
      * by rewrite <-V3, <-S1.
      * cbn [set_field]. change (reply_word x0 m i = id + NOTHING_DEBUG). rewrite HR. apply wrap_small.
        unfold uint, IDMAPADDRSIZE, NOTHING_DEBUG in *. lia.
    + exists t, s. split; [done|]. split; [done|].
      split; [eapply slot_history_snoc; [done|]; cbn; by rewrite decide_False by congruence|].
      eapply slot_inv_same; [..|exact HV]; [by apply S1|apply S2; congruence].
  - intros r Hr. destruct (HD r Hr) as (d & HHr & HVr). exists d. split; [by eapply delivery_history_snoc|].
    eapply delivery_inv_same; [..|exact HVr]; [by apply S3|done..].
Qed.

Lemma deliver_inv x0 tr r c (w : W) m :
  run_inv x0 tr c w -> 0 <= r < IDMAPADDRSIZE -> delivery_history r tr = Some Open ->
  server_writes x0 (cl_mem c) m None (Some r) -> delivery_word x0 m r = u64 (delivery_word x0 (cl_mem c) r + 11) ->
  run_inv x0 (tr ++ [Deliver r]) (c <| cl_mem := m |>) w.
Proof.
  intros [(x & HS & HC) HT HD] Hr HO (S1 & S2 & S3) HW. split.
  - exists x. split; [done|]. destruct HC as [[] ? ? ?]. by split.
  - intros j Hj. destruct (HT j Hj) as (t & s & Ht & HR0 & HH0 & HV). exists t, s. split; [done|]. split; [done|].
    split; [by eapply slot_history_snoc|]. eapply slot_inv_same; [..|exact HV]; [by apply S1|by apply S2].
  - intros q Hq. destruct (HD q Hq) as (d & HHq & HVq). destruct (decide (q = r)) as [->|Hne].
    + rewrite HO in HHq. injection HHq as <-. exists Done.
      split; [eapply delivery_history_snoc; [done|]; cbn; by rewrite decide_True|].
      destruct HVq as [V1 V2]. split; [done|]. etrans; [exact HW|]. by rewrite V2.
    + exists d. split; [eapply delivery_history_snoc; [done|]; cbn; by rewrite decide_False by congruence|].
      eapply delivery_inv_same; [..|exact HVq]; [apply S3; congruence|done..].
Qed.

Lemma memory_inv x0 tr c (w : W) m :
  run_inv x0 tr c w -> server_writes x0 (cl_mem c) m None None -> run_inv x0 tr (c <| cl_mem := m |>) w.
Proof.
  intros [(x & HS & HC) HT HD] (S1 & S2 & S3). split.
  - exists x. split; [done|]. destruct HC as [[] ? ? ?]. by split.
  - intros j Hj. destruct (HT j Hj) as (t & s & Ht & HR0 & HH0 & HV). exists t, s. do 3 (split; [done|]).
    eapply slot_inv_same; [..|exact HV]; [by apply S1|by apply S2].
  - intros r Hr. destruct (HD r Hr) as (d & HHr & HVr). exists d. split; [done|].
    eapply delivery_inv_same; [..|exact HVr]; [by apply S3|done..].
Qed.

Lemma client_run_inv x0 c0 (w0 : W) tr c w : run_inv x0 [] c0 w0 -> client_run x0 c0 w0 tr c w -> run_inv x0 tr c w.
Proof.
  intros H0. induction 1 as [|tr c w i c' w' _ IH Hi HV|tr c w r c' _ IH Hr HP| | | ]; [done|..].
  - destruct (visit_inv x0 tr i c w IH Hi) as (c1 & w1 & HV1 & HI1).
    by destruct (visits_det _ _ _ _ _ _ _ HV HV1) as [-> ->].
  - destruct (poll_inv x0 tr r c w IH Hr) as (c1 & HP1 & HI1 & _). rewrite HP in HP1. by injection HP1 as ->.
  - by eapply reply_inv.
  - by eapply deliver_inv.
  - by eapply memory_inv.
Qed.

(** C26: a client thread finishes exactly the transactions that were answered.
    From idle slots and cleared reply words, however the thread's visits of its slots and looks
    at its deliveries interleave with the server's answers: every slot goes round
    sending, being answered and finishing, so no transaction is finished by the answer to an
    earlier one, and it is busy in between; no request gets the id of a delivery whose second
    answer the client has not seen, and every second answer is seen once; a visit always ends,
    and it finishes the transaction when the answer is there, as does a look at a delivery; the
    send queue has at most 61 requests not known to be finished. *)
Theorem client_matches_replies (x : Connect) (c : client) (w : W) (tr : list client_event) (c' : client) (w' : W) :
  client_ok 0 x c w ->
  (forall i, 0 <= i < SLOT_NUM -> exists t, my_tx c !! i = Some t /\ tx_ready x i t /\ is_busy t = false /\
     reply_word x (cl_mem c) i = 0) ->
  (forall r, 0 <= r < IDMAPADDRSIZE -> delivery_word x (cl_mem c) r = 0) ->
  client_run x (tpcc_client_init c) w tr c' w' ->
  (forall i, 0 <= i < SLOT_NUM -> exists t s, my_tx c' !! i = Some t /\ slot_history i tr = Some s /\
     (is_busy t = true <-> s <> Idle) /\
     exists c'' w'', visits i c' w' c'' w'' /\ (forall id, s = Answered id -> visit_event i c' c'' = [Finish i])) /\
  (forall r, 0 <= r < IDMAPADDRSIZE -> exists d c'', delivery_history r tr = Some d /\
     poll_delivery r c' = Some c'' /\ (d = Done -> poll_event r c' c'' = [Delivered r])) /\
  exists x', connect c' !! 0 = Some x' /\ 0 <= sendnum x' <= 61.
Proof.
  intros HC HT HD HR. pose proof (client_run_inv x _ w tr c' w' (run_inv_start x c w HC HT HD) HR) as HI.
  pose proof HI as [(x' & _ & HC') HT' HD']. split_and!.
  - intros i Hi. destruct (HT' i Hi) as (t & s & Ht & _ & HS & HV). exists t, s. split; [done|]. split; [done|]. split.
    + destruct s; [by destruct HV as [-> _]|by destruct HV as [-> _]..].
    + destruct s as [|id|id];
        [destruct (visit_inv x tr i c' w' HI Hi) as (c'' & w'' & V & _); by exists c'', w''..|].
      destruct (visit_finishes x tr i id c' w' HI Hi HS) as (c'' & w'' & V & E & _). by exists c'', w''.
  - intros r Hr. destruct (HD' r Hr) as (d & Hd & _). destruct (poll_inv x tr r c' w' HI Hr) as (c'' & E & _ & E2).
    exists d, c''. split_and!; [done|done|]. intros ->. by apply E2.
  - exists x'. split; apply (co_acct _ _ _ _ HC').
Qed.
End run.

(** * A run *)

(** The client of [demo_client] with its four transactions. *)
Definition demo_slot (i : Z) : switch_tx :=
  demo_tx <| tx_id := i |> <| my_ctx := 0x50000000 + i * 0x10000000 |> <| args := 0x52000000 + i * 0x10000000 |>
    <| feature := 0x53000000 + i * 0x10000000 |>.

Definition demo_thread : client :=
  demo_client <| my_tx := {[0 := demo_slot 0; 1 := demo_slot 1; 2 := demo_slot 2; 3 := demo_slot 3]} |>.

Lemma demo_addresses i :
  0 <= i < 4 ->
  data_slot (C := tpcc_alnico) demo_client_peer i = 0x40000000 + 24576 + 2048 * i /\
  meta_slot demo_client_peer i = 0x40000000 + 2048 * i /\
  get_my_reply_addr (C := tpcc_alnico) demo_client_peer i = 0x40000000 + 8192 + 2048 * i.
Proof.
  intros Hi. assert (i = 0 \/ i = 1 \/ i = 2 \/ i = 3) as [-> | [-> | [-> | ->]]] by lia; vm_compute; done.
Qed.

Lemma demo_delivery_addr r :
  0 <= r < 1000 -> get_strife_reply_addr (C := tpcc_alnico) demo_client_peer r = 0x40000000 + 16384 + 8 * r.
Proof.
  intros Hr. unfold get_strife_reply_addr. rewrite (wrap_small 32) by (unfold uint; lia).
  change (reply_addr demo_client_peer + REPLY_LEN (C := tpcc_alnico) * SLOT_NUM (C := tpcc_alnico)) with (0x40000000 + 16384).
  rewrite wrap_small by (unfold uint; lia). lia.
Qed.

Lemma demo_slot_ready i : 0 <= i < 4 -> tx_ready (C := tpcc_alnico) demo_client_peer i (demo_slot i).
Proof.
  intros Hi. destruct (demo_addresses i Hi) as (E1 & E2 & _).
  assert (A : forall a len, 0x40000000 <= a -> 0 <= len -> a + len <= 0x50000000 ->
    apart (data_slot (C := tpcc_alnico) demo_client_peer i) 2048 a len -> apart (meta_slot demo_client_peer i) 68 a len ->
    away (C := tpcc_alnico) demo_client_peer i (demo_slot i) a len).
  { intros a len H1 H2 H3 H4 H5. unfold away, apart. cbn [my_ctx args feature demo_slot set_field].
    split_and!; try (right; cbn; lia); [exact H4|exact H5]. }
  split; [done|done| | |vm_compute; split; congruence| | |]; unfold apart in *.
  - split; left; cbn; unfold CTXBUFFER, ARGS_LEN; lia.
  - change (tx_id (demo_slot i)) with i. split; unfold apart, DATA_LEN; cbn [YCSBplusT tpcc_alnico];
      change (tx_id (demo_slot i)) with i; rewrite ?E1, ?E2; cbn; lia.
  - intros j Hj. change (0 <= j < 4) in Hj. destruct (demo_addresses j Hj) as (_ & _ & E). unfold rpc_id_addr. apply A; rewrite ?E, ?E1, ?E2; lia.
  - intros j Hj Hne. change (0 <= j < 4) in Hj. destruct (demo_addresses j Hj) as (E & _). apply A; rewrite ?E, ?E1, ?E2; lia.
  - intros r Hr. apply A; rewrite ?demo_delivery_addr, ?E1, ?E2 by done; unfold IDMAPADDRSIZE in Hr; lia.
Qed.

(** Slot 2 sends its first request. *)
Lemma client_matches_replies_witness :
  let visits := visits (C := tpcc_alnico) (CC := tpcc_client) (R := counting) (W := sim) in
  let c0 := tpcc_client_init demo_thread in
  exists c1 w1 t1, visits 2 c0 sim_start c1 w1 /\ my_tx c1 !! 2 = Some t1 /\ is_busy t1 = true /\
    visit_event 2 c0 c1 = [Send 2 41 false] /\ exists c2 w2, visits 2 c1 w1 c2 w2.
Proof.
  intros visits c0.
  assert (HT : forall i, 0 <= i < 4 -> exists t, my_tx demo_thread !! i = Some t /\
    tx_ready (C := tpcc_alnico) demo_client_peer i t /\ is_busy t = false /\
    reply_word (C := tpcc_alnico) demo_client_peer (cl_mem demo_thread) i = 0).
  { intros i Hi. exists (demo_slot i). split_and!; [|by apply demo_slot_ready|done|];
      assert (i = 0 \/ i = 1 \/ i = 2 \/ i = 3) as [-> | [-> | [-> | ->]]] by lia; vm_compute; reflexivity. }
  assert (HD : forall r, 0 <= r < 1000 -> delivery_word (C := tpcc_alnico) demo_client_peer (cl_mem demo_thread) r = 0).
  { intros r Hr. vm_compute. reflexivity. }
  assert (HC : client_ok (CC := tpcc_client) 0 demo_client_peer demo_thread sim_start)
    by (destruct demo_client_ok as [[] ? ? ?]; by split).
  pose proof (fun tr c w => client_matches_replies (C := tpcc_alnico) (CC := tpcc_client) (R := counting) (RO := counting_ok)
    (W := sim) eq_refl eq_refl eq_refl ltac:(cbn; lia) demo_client_peer demo_thread sim_start tr c w HC HT HD) as H.
  destruct (H [] _ _ (run_start _ _ _)) as (H1 & _ & _).
  destruct (H1 2 ltac:(by vm_compute)) as (t & s & _ & _ & _ & c1 & w1 & HV & _).
  assert (EV : visit_event 2 c0 c1 = [Send 2 41 false]).
  { destruct HV as (k & stop & HV). specialize (HV (100 + k)%nat ltac:(lia)).
    assert (K : match tpcc_client_slot (C := tpcc_alnico) (CC := tpcc_client) (R := counting) (W := sim) post_chain ibv_poll_cq
      (100 + k) 2 (tpcc_client_init demo_thread) sim_start with
      | Some (c, _, _) => visit_event 2 c0 c | None => [] end = [Send 2 41 false]) by (vm_compute; reflexivity).
    rewrite HV in K. exact K. }
  pose proof (run_visit (C := tpcc_alnico) (CC := tpcc_client) (R := counting) (W := sim) demo_client_peer
    (tpcc_client_init demo_thread) sim_start [] (tpcc_client_init demo_thread) sim_start 2 c1 w1
    (run_start demo_client_peer (tpcc_client_init demo_thread) sim_start) ltac:(by vm_compute) HV) as HR.
  destruct (H ([] ++ visit_event 2 (tpcc_client_init demo_thread) c1) c1 w1 HR) as (H2 & _ & _). destruct (H2 2 ltac:(by vm_compute)) as (t1 & s1 & Ht1 & Hs1 & Hb & c2 & w2 & HV2 & _).
  exists c1, w1, t1. split; [exact HV|]. split; [exact Ht1|]. split; [|split; [exact EV|by exists c2, w2]].
  apply Hb. change (slot_history 2 (visit_event 2 c0 c1) = Some s1) in Hs1. rewrite EV in Hs1. intros ->. discriminate Hs1.
Defined.
