(* ===== verification/Scratch.v ===== *)
(** [TransScratch] of [sto-core/TransScratch.hh]: the memory in which a transaction
    builds its new rows ([Sto::tx_alloc]).

    A zone is known by a number that is never used again, and a block by its zone
    and its offset there.  Memory is not initialised; a failed [assert] is
    [None]. *)

From S2P Require Import Prelude.

Definition initial_zone_capacity : Z := 4096.
Definition max_scratch_restart_capacity : Z := 2097152.

(** [zones] is the list from [zone_head] to [zone_tail], each with its number and
    its [length]; [fresh_zone] is the number of the next one. *)
Record TransScratch := {
  tail_next_avail : Z; tail_capacity : Z; total_capacity : Z; zones : list (Z * Z); fresh_zone : Z }.
#[export] Instance eta_scratch : Eta TransScratch := fun s => {|
  tail_next_avail := tail_next_avail s; tail_capacity := tail_capacity s; total_capacity := total_capacity s;
  zones := zones s; fresh_zone := fresh_zone s |}.

Definition scratch_new : TransScratch := {|
  tail_next_avail := 0; tail_capacity := 0; total_capacity := 0; zones := []; fresh_zone := 0 |}.

Definition new_zone (capacity : Z) (s : TransScratch) : TransScratch :=
  s <| zones := zones s ++ [(fresh_zone s, capacity)] |> <| fresh_zone := fresh_zone s + 1 |>.

Definition zone_tail (s : TransScratch) : option Z := fst <$> last (zones s).

(** How the code can end: a failed [assert] or a null [zone_tail], or an exception
    of [new] when the address space is used up. *)
Inductive failure := assert_failed | bad_alloc.
Definition result (A : Type) : Type := (failure + A)%type.
#[local] Instance result_ret : MRet result := fun A a => inr a.
#[local] Instance result_bind : MBind result := fun A B k m => match m with inl f => inl f | inr a => k a end.

Definition assert (b : bool) : result unit := if b then inr tt else inl assert_failed.
Definition address_space : Z := 2 ^ 47.
Definition sizeof_zone_hdr : Z := 16.
(** [new char[n]] fails at the latest when the address space is used up; a failure
    before that is the same value, and also leaves the scratch as it was. *)
Definition new_char (n : Z) : result unit := if n <=? address_space then inr tt else inl bad_alloc.
Definition in_tail (s : TransScratch) : result Z := match zone_tail s with Some z => inr z | None => inl assert_failed end.

(** A block of [size] bytes: its zone and its offset. *)
Definition allocate (size : Z) (s : TransScratch) : result (Z * Z * TransScratch) :=
  let new_next_avail := u64 (tail_next_avail s + size) in
  if tail_capacity s <=? new_next_avail then
    let new_capacity := if 0 <? tail_capacity s then u64 (tail_capacity s * 2) else initial_zone_capacity in
    _ ← assert (size <? new_capacity);
    _ ← new_char (sizeof_zone_hdr + new_capacity);
    let grown := (new_zone new_capacity s) <| tail_capacity := new_capacity |>
                   <| total_capacity := u64 (total_capacity s + new_capacity) |> in
    if tail_capacity s <? new_next_avail then mret (fresh_zone s, 0, grown <| tail_next_avail := size |>)
    else z ← in_tail s; mret (z, tail_next_avail s, grown <| tail_next_avail := 0 |>)
  else z ← in_tail s; mret (z, tail_next_avail s, s <| tail_next_avail := new_next_avail |>).

(** The sum of the lengths ([capacity_check]). *)
Definition capacity_check (zs : list (Z * Z)) : Z := foldr (fun z n => u64 (z.2 + n)) 0 zs.

Definition clear (s : TransScratch) : result TransScratch :=
  match zones s with
  | [] | [_] => _ ← assert (total_capacity s =? tail_capacity s); mret (s <| tail_next_avail := 0 |>)
  | _ =>
      _ ← assert (capacity_check (zones s) =? total_capacity s);
      let total := if max_scratch_restart_capacity <? total_capacity s then max_scratch_restart_capacity else total_capacity s in
      _ ← new_char (sizeof_zone_hdr + total);
      mret ((new_zone total (s <| zones := [] |>))
              <| total_capacity := total |> <| tail_next_avail := 0 |> <| tail_capacity := total |>)
  end.

(** * Blocks *)

Record block := { b_zone : Z; b_off : Z; b_size : Z }.

Inductive scratch_op := Alloc (size : Z) | Clear.

(** The blocks that were allocated since the last [clear]. *)
Definition scratch_step (op : scratch_op) (x : TransScratch * list block) : result (TransScratch * list block) :=
  let '(s, l) := x in
  match op with
  | Alloc size => '(z, off, s) ← allocate size s; mret (s, {| b_zone := z; b_off := off; b_size := size |} :: l)
  | Clear => s ← clear s; mret (s, [])
  end.

Fixpoint scratch_run (l : list scratch_op) (x : TransScratch * list block) : result (TransScratch * list block) :=
  match l with [] => mret x | op :: l => x ← scratch_step op x; scratch_run l x end.

Definition apart (a b : block) : Prop :=
  b_zone a <> b_zone b \/ b_off a + b_size a <= b_off b \/ b_off b + b_size b <= b_off a.

(** The block lies in a zone that is live. *)
Definition in_zone (zs : list (Z * Z)) (b : block) : Prop :=
  exists len, (b_zone b, len) ∈ zs /\ 0 <= b_off b /\ b_off b + b_size b <= len.

(** * The invariant *)

Record scratch_inv (s : TransScratch) (l : list block) : Prop := {
  sc_caps : 0 <= tail_capacity s <= address_space /\ tail_capacity s <= total_capacity s <= 2 * tail_capacity s;
  sc_avail : 0 <= tail_next_avail s /\ (tail_next_avail s < tail_capacity s \/ tail_next_avail s = 0 /\ tail_capacity s = 0);
  sc_first : zones s <> [] -> initial_zone_capacity <= tail_capacity s;
  sc_tail : match last (zones s) with Some (_, len) => len = tail_capacity s | None => tail_capacity s = 0 end;
  sc_total : capacity_check (zones s) = total_capacity s;
  sc_one : (length (zones s) <= 1)%nat -> total_capacity s = tail_capacity s;
  sc_fresh : forall z len, (z, len) ∈ zones s -> z < fresh_zone s;
  sc_in : forall b, b ∈ l -> in_zone (zones s) b;
  sc_used : forall b, b ∈ l -> zone_tail s = Some (b_zone b) -> b_off b + b_size b <= tail_next_avail s;
  sc_apart : forall i j a b, l !! i = Some a -> l !! j = Some b -> i <> j -> apart a b }.

Lemma apart_sym a b : apart a b -> apart b a.
Proof. unfold apart. intros [?|[?|?]]; [left; congruence|by right; right|by right; left]. Qed.

Lemma apart_cons b l :
  (forall a, a ∈ l -> apart b a) -> (forall i j a b, l !! i = Some a -> l !! j = Some b -> i <> j -> apart a b) ->
  forall i j x y, (b :: l) !! i = Some x -> (b :: l) !! j = Some y -> i <> j -> apart x y.
Proof.
  intros Hb Hl [|i] [|j] x y Hx Hy Hne; [done|..]; cbn in Hx, Hy.
  - injection Hx as <-. apply Hb. by eapply list_elem_of_lookup_2.
  - injection Hy as <-. apply apart_sym, Hb. by eapply list_elem_of_lookup_2.
  - eapply Hl; [exact Hx|exact Hy|congruence].
Qed.

Lemma capacity_check_snoc zs z : capacity_check (zs ++ [z]) = u64 (capacity_check zs + z.2).
Proof.
  induction zs as [|y zs IH]; [cbn; f_equal; lia|]. cbn [app capacity_check foldr]. fold (capacity_check (zs ++ [z])) (capacity_check zs).
  rewrite IH. unfold wrap. rewrite Z.add_mod_idemp_l, Z.add_mod_idemp_r by done. f_equal. lia.
Qed.

Lemma in_zone_app zs zs' b : in_zone zs b -> in_zone (zs ++ zs') b.
Proof. intros (len & Hin & H). exists len. split; [|done]. apply elem_of_app. by left. Qed.

Lemma scratch_new_inv : scratch_inv scratch_new [].
Proof. constructor; cbn; try done; unfold address_space; try lia; intros *; by intros ?%not_elem_of_nil. Qed.

Section steps.
Context (s : TransScratch) (l : list block) (HI : scratch_inv s l) (size : Z) (Hs : 0 < size < initial_zone_capacity).

(** The tail zone, when there is one. *)
Lemma tail_zone : 0 < tail_capacity s -> exists z, last (zones s) = Some (z, tail_capacity s) /\ in_tail s = inr z.
Proof using HI.
  clear Hs. intros Hc. pose proof (sc_tail _ _ HI) as Ht. unfold in_tail, zone_tail.
  destruct (last (zones s)) as [[z len]|]; [subst len; by exists z|lia].
Qed.

Lemma tail_large : 0 < tail_capacity s -> initial_zone_capacity <= tail_capacity s.
Proof using HI. clear Hs. intros Hc. apply (sc_first _ _ HI). pose proof (sc_tail _ _ HI) as Ht. intros E. rewrite E in Ht. cbn in Ht. lia. Qed.

(** A block at the end of the used part of the tail zone. *)
Lemma tail_block z : last (zones s) = Some (z, tail_capacity s) -> tail_next_avail s + size <= tail_capacity s ->
  let b := {| b_zone := z; b_off := tail_next_avail s; b_size := size |} in
  in_zone (zones s) b /\ forall a, a ∈ l -> apart b a.
Proof using HI Hs.
  intros Hz Hle. split.
  - exists (tail_capacity s). cbn. split; [by apply last_Some_elem_of|]. pose proof (sc_avail _ _ HI). lia.
  - intros a Ha. unfold apart. cbn. destruct (decide (z = b_zone a)) as [->|]; [|by left]. right; right.
    apply (sc_used _ _ HI _ Ha). unfold zone_tail. by rewrite Hz.
Qed.

(** The blocks are in zones that are older than a new one. *)
Lemma old_zone b : b ∈ l -> b_zone b <> fresh_zone s.
Proof using HI. clear Hs. intros (len & Hin & _)%(sc_in _ _ HI) E. apply (sc_fresh _ _ HI) in Hin. lia. Qed.

Lemma grown_inv cap avail l' :
  (forall b, b ∈ l' -> in_zone (zones s ++ [(fresh_zone s, cap)]) b) ->
  (forall b, b ∈ l' -> b_zone b = fresh_zone s -> b_off b + b_size b <= avail) ->
  (forall i j a b, l' !! i = Some a -> l' !! j = Some b -> i <> j -> apart a b) ->
  cap = (if 0 <? tail_capacity s then tail_capacity s * 2 else initial_zone_capacity) -> cap <= address_space -> 0 <= avail < cap ->
  scratch_inv ((new_zone cap s) <| tail_capacity := cap |> <| total_capacity := u64 (total_capacity s + cap) |>
                 <| tail_next_avail := avail |>) l'.
Proof using HI.
  clear Hs. intros H1 H2 H3 Hcap Hmax Hav. pose proof (sc_caps _ _ HI) as [C1 C2]. pose proof tail_large as C3. pose proof (sc_one _ _ HI) as C4.
  assert (initial_zone_capacity <= cap /\ total_capacity s <= cap) as [Hmin Htot].
  { destruct (Z.ltb_spec 0 (tail_capacity s)); [specialize (C3 ltac:(lia))|]; lia. }
  assert (u64 (total_capacity s + cap) = total_capacity s + cap) as Eu.
  { apply wrap_small. unfold uint, address_space in *. lia. }
  constructor; cbn; rewrite ?Eu; try done; try lia.
  - by rewrite last_snoc.
  - rewrite capacity_check_snoc, (sc_total _ _ HI). cbn. exact Eu.
  - rewrite length_app. cbn. intros Hl. assert (length (zones s) = 0)%nat as H0 by lia.
    pose proof (sc_tail _ _ HI) as Ht. destruct (zones s); [|done]. cbn in Ht. lia.
  - intros z len [Hin|[= -> ->]%list_elem_of_singleton]%elem_of_app; [apply (sc_fresh _ _ HI) in Hin|]; lia.
  - intros b Hb. unfold zone_tail. cbn. rewrite last_snoc. cbn. intros [= E]. by apply H2.
Qed.

Lemma allocate_inv :
  match allocate size s with
  | inr (z, off, s') => scratch_inv s' ({| b_zone := z; b_off := off; b_size := size |} :: l)
  | inl f => f = bad_alloc
  end.
Proof using HI Hs.
  pose proof (sc_caps _ _ HI) as [C1 C2]. pose proof (sc_avail _ _ HI) as C3. pose proof tail_large as C4.
  assert (u64 (tail_next_avail s + size) = tail_next_avail s + size) as Eu
    by (apply wrap_small; unfold uint, address_space, initial_zone_capacity in *; lia).
  assert (u64 (tail_capacity s * 2) = tail_capacity s * 2) as Ec by (apply wrap_small; unfold uint, address_space in *; lia).
  unfold allocate. rewrite Eu, Ec. destruct (Z.leb_spec (tail_capacity s) (tail_next_avail s + size)) as [Hle|Hlt].
  - remember (if 0 <? tail_capacity s then tail_capacity s * 2 else initial_zone_capacity) as cap eqn:Ecap.
    assert (size < cap) as Hcap.
    { rewrite Ecap. destruct (Z.ltb_spec 0 (tail_capacity s)); [specialize (C4 ltac:(lia))|]; lia. }
    unfold assert. rewrite (proj2 (Z.ltb_lt _ _) Hcap). cbn [mbind result_bind].
    unfold new_char, sizeof_zone_hdr. destruct (Z.leb_spec (16 + cap) address_space) as [Hmax'|]; [|done]. cbn [mbind result_bind].
    assert (cap <= address_space) as Hmax by lia.
    destruct (Z.ltb_spec (tail_capacity s) (tail_next_avail s + size)) as [Hover|Heq].
    + cbn. apply grown_inv; try done; [| | |lia].
      * intros b [->|Hb]%elem_of_cons; [|by apply in_zone_app, (sc_in _ _ HI)]. exists cap. cbn. split; [|lia].
        apply elem_of_app. right. by left.
      * intros b [->|Hb]%elem_of_cons; cbn; [lia|]. intros E. by destruct (old_zone b Hb).
      * apply apart_cons; [|apply (sc_apart _ _ HI)]. intros a Ha. left. cbn. apply not_eq_sym, (old_zone _ Ha).
    + destruct (tail_zone ltac:(lia)) as (z & Hz & ->). cbn.
      destruct (tail_block z Hz ltac:(lia)) as [B1 B2]. apply grown_inv; try done; [| | |lia].
      * intros b [->|Hb]%elem_of_cons; apply in_zone_app; [done|by apply (sc_in _ _ HI)].
      * intros b [->|Hb]%elem_of_cons E; [|by destruct (old_zone b Hb)]. cbn in E.
        apply last_Some_elem_of, (sc_fresh _ _ HI) in Hz. lia.
      * apply apart_cons; [done|apply (sc_apart _ _ HI)].
  - destruct (tail_zone ltac:(lia)) as (z & Hz & ->). cbn. destruct (tail_block z Hz ltac:(lia)) as [B1 B2].
    constructor; cbn; [split; [exact C1|exact C2]|lia|apply (sc_first _ _ HI)|apply (sc_tail _ _ HI)|apply (sc_total _ _ HI)|apply (sc_one _ _ HI)|apply (sc_fresh _ _ HI)|..].
    + intros b [->|Hb]%elem_of_cons; [done|by apply (sc_in _ _ HI)].
    + intros b [->|Hb]%elem_of_cons Ht; [done|]. pose proof (sc_used _ _ HI b Hb Ht). lia.
    + apply apart_cons; [done|apply (sc_apart _ _ HI)].
Qed.

Lemma clear_inv : match clear s with inr s' => scratch_inv s' [] | inl f => f = bad_alloc end.
Proof using HI.
  clear Hs. pose proof (sc_caps _ _ HI) as [C1 C2]. pose proof (sc_first _ _ HI) as C3. pose proof (sc_one _ _ HI) as C4.
  pose proof (sc_avail _ _ HI) as C5. pose proof (sc_total _ _ HI) as C6.
  assert ((length (zones s) <= 1)%nat -> scratch_inv (s <| tail_next_avail := 0 |>) []) as Hone.
  { intros E. constructor; cbn; try apply HI; try done; [lia|..]; intros *; by intros ?%not_elem_of_nil. }
  unfold clear. destruct (zones s) as [|z1 [|z2 zs]] eqn:Ez.
  - rewrite (C4 ltac:(cbn; lia)), Z.eqb_refl. apply Hone. cbn. lia.
  - rewrite (C4 ltac:(cbn; lia)), Z.eqb_refl. apply Hone. cbn. lia.
  - rewrite C6, Z.eqb_refl. cbn [mbind result_bind assert]. specialize (C3 ltac:(done)). clear Hone.
    set (total := if _ <? _ then _ else _).
    assert (initial_zone_capacity <= total <= max_scratch_restart_capacity \/ initial_zone_capacity <= total <= total_capacity s) as Ht.
    { unfold total, initial_zone_capacity, max_scratch_restart_capacity in *. destruct (Z.ltb_spec 2097152 (total_capacity s)); lia. }
    clearbody total. unfold new_char, sizeof_zone_hdr. destruct (Z.leb_spec (16 + total) address_space) as [Hmax|]; [|done]. cbn.
    assert (u64 (total + 0) = total) as Eu.
    { rewrite Z.add_0_r. apply wrap_small. unfold uint, address_space, initial_zone_capacity in *. lia. }
    unfold initial_zone_capacity in *.
    constructor; cbn; unfold initial_zone_capacity; try done; try lia; intros *; [intros [= -> ->]%list_elem_of_singleton; lia|by intros ?%not_elem_of_nil..].
Qed.
End steps.

Definition sizes_ok (l : list scratch_op) : Prop :=
  Forall (fun op => match op with Alloc size => 0 < size < initial_zone_capacity | Clear => True end) l.

Lemma scratch_run_inv l s bs :
  scratch_inv s bs -> sizes_ok l ->
  match scratch_run l (s, bs) with inr (s', bs') => scratch_inv s' bs' | inl f => f = bad_alloc end.
Proof.
  intros HI HF. revert s bs HI. induction HF as [|op l Hop HF IH]; intros s bs HI; [exact HI|].
  cbn [scratch_run scratch_step]. destruct op as [size|].
  - pose proof (allocate_inv s bs HI size Hop) as Ha. destruct (allocate size s) as [f|[[z off] s']]; cbn; [exact Ha|by apply IH].
  - pose proof (clear_inv s bs HI) as Hc. destruct (clear s) as [f|s']; cbn; [exact Hc|by apply IH].
Qed.

(** C40: the rows that a transaction builds in its scratch memory never overlap.
    Whatever rows of less than 4096 bytes are allocated and whenever the memory is
    cleared, no assertion fails and [zone_tail] is never used when it is null
    (the only way to stop is an exception of [new] when the address space is used
    up), every block allocated since the last [clear] lies in a zone that is not
    freed, and two such blocks have no byte in common. *)
Theorem scratch_blocks_apart (l : list scratch_op) :
  sizes_ok l ->
  match scratch_run l (scratch_new, []) with
  | inr (s, bs) => (forall b, b ∈ bs -> in_zone (zones s) b) /\
      forall i j a b, bs !! i = Some a -> bs !! j = Some b -> i <> j -> apart a b
  | inl f => f = bad_alloc
  end.
Proof.
  intros HF. pose proof (scratch_run_inv l _ _ scratch_new_inv HF) as H.
  destruct (scratch_run l _) as [f|[s bs]]; [exact H|]. split; [apply (sc_in _ _ H)|apply (sc_apart _ _ H)].
Qed.

(** Two rows of 2048 bytes fill the first zone to the last byte; the third one is
    in a new zone. *)
Lemma scratch_blocks_apart_witness :
  let run := scratch_run [Alloc 4000; Clear; Alloc 2048; Alloc 2048; Alloc 100] (scratch_new, []) in
  exists s bs, run = inr (s, bs) /\ length bs = 3%nat /\ zones s = [(0, 4096); (1, 8192)] /\
    (forall b, b ∈ bs -> in_zone (zones s) b).
Proof.
  intros run. pose proof (scratch_blocks_apart [Alloc 4000; Clear; Alloc 2048; Alloc 2048; Alloc 100]) as H.
  assert (sizes_ok [Alloc 4000; Clear; Alloc 2048; Alloc 2048; Alloc 100]) as HF
    by (repeat constructor; unfold initial_zone_capacity; lia).
  specialize (H HF). fold run in H. vm_compute in run. subst run. do 2 eexists. split; [reflexivity|]. split; [reflexivity|].
  split; [reflexivity|]. exact (proj1 H).
Defined.
