(* ===== verification/TpccData.v ===== *)
(** The data of the server's TPC-C ([benchmark/TPCC_structs.hh],
    [TPCC_commutators.hh], the strings of [DB_structs.hh] and the class
    [tpcc_db] of [TPCC_bench.hh]).

    A key is the tuple of its fields in host order; its bytes, which the indexes
    compare, are those of the big-endian fields ([key_str]).  A table per
    warehouse is the part of one map that has the warehouse in its key: every
    access names the table of its key's warehouse, except that of a history
    row, whose table is an extra component. *)

From stdpp Require Import functions.
From S2P Require Import Prelude Feature.

Definition NUM_DISTRICTS_PER_WAREHOUSE : Z := 10.
Definition NUM_CUSTOMERS_PER_DISTRICT : Z := 3000.
Definition NUM_ITEMS : Z := 100000.

(** * Bytes and strings *)

Fixpoint le_bytes (n : nat) (z : Z) : list Z :=
  match n with O => [] | S n => z mod 256 :: le_bytes n (z / 256) end.

(** The bytes of [bswap(z)] in memory. *)
Definition be_bytes (n : nat) (z : Z) : list Z := reverse (le_bytes n z).

(** [memcmp(a, b, len) <= 0] for strings of one length. *)
Fixpoint str_leb (a b : list Z) : bool :=
  match a, b with
  | [], _ => true
  | _ :: _, [] => false
  | x :: a, y :: b => (x <? y) || ((x =? y) && str_leb a b)
  end.

(** A [var_string<ML>] is its characters before the padding of NULs, a
    [fix_string<FL>] is all of its [FL] characters. *)
Definition var_string (ML : nat) (s : list Z) : list Z := take ML s.
Definition fix_string (FL : nat) (s : list Z) : list Z := take FL s ++ replicate (FL - length s) 32.

(** [place]: false where the string would not fit. *)
Definition place (str : list Z) (pos : nat) (s : list Z) : bool * list Z :=
  if (length s <? pos + length str)%nat then (false, s)
  else (true, take pos s ++ str ++ drop (pos + length str) s).

Definition insert_left (buf s : list Z) : list Z := buf ++ take (length s - length buf) s.

(** * Keys *)

Abbreviation warehouse_key := Z (only parsing).
Abbreviation district_key := (Z * Z)%type (only parsing).
Abbreviation customer_key := (Z * Z * Z)%type (only parsing).
Abbreviation customer_idx_key := (Z * Z * list Z)%type (only parsing).
Abbreviation history_key := (Z * Z * Z * Z)%type (only parsing).
Abbreviation order_key := (Z * Z * Z)%type (only parsing).
Abbreviation order_cidx_key := (Z * Z * Z * Z)%type (only parsing).
Abbreviation orderline_key := (Z * Z * Z * Z)%type (only parsing).
Abbreviation item_key := Z (only parsing).
Abbreviation stock_key := (Z * Z)%type (only parsing).

(** The last name, padded with NULs to the 16 bytes of [c_last]. *)
Definition idx_key (w d : Z) (last : list Z) : customer_idx_key := (w, d, last ++ replicate (16 - length last) 0).

(** [operator lcdf::Str()] of the keys of the ordered indexes; [order_cidx_key]
    has four fields as [orderline_key]. *)
Class KeyStr (K : Type) := key_str : K -> list Z.
#[export] Instance order_key_str : KeyStr order_key :=
  fun '(w, d, o) => be_bytes 8 w ++ be_bytes 8 d ++ be_bytes 8 o.
#[export] Instance orderline_key_str : KeyStr orderline_key :=
  fun '(w, d, o, n) => be_bytes 8 w ++ be_bytes 8 d ++ be_bytes 8 o ++ be_bytes 8 n.

(** The keys the features of the scheduler are made of. *)
Definition WARE : Z := 0.
Definition DIST : Z := 1.
Definition CUST : Z := 2.
Definition ORDE : Z := 5.
Definition ORLI : Z := 6.
Definition ITEM : Z := 7.
Definition STOC : Z := 8.

Definition makeDistrictKey (w d : Z) : Z := u32 (d + w * NUM_DISTRICTS_PER_WAREHOUSE).
Definition makeCustomerKey (w d c : Z) : Z :=
  Z.lor (Z.shiftl (u32 (w * NUM_DISTRICTS_PER_WAREHOUSE + d)) 32) (u32 c).
Definition makeOrderKey (w d o : Z) : Z :=
  Z.lor (Z.shiftl (u32 (w * NUM_DISTRICTS_PER_WAREHOUSE + d)) 32) (u32 o).
Definition makeOrderLineKey (w d o number : Z) : Z :=
  let oid := u64 (u32 (w * NUM_DISTRICTS_PER_WAREHOUSE + d) * 10000000 + u32 o) in
  u64 (oid * 15 + u32 number).
Definition makeStockKey (w s : Z) : Z := u32 (s + w * 100000).

Definition wh_nic_key (k : warehouse_key) : tx_key_t := (WARE, k).
Definition dt_nic_key (k : district_key) : tx_key_t := (DIST, makeDistrictKey (u32 k.1) (u32 k.2)).
Definition ci_nic_key (k : customer_idx_key) : tx_key_t := (CUST, makeDistrictKey (u32 k.1.1) (u32 k.1.2)).
Definition cu_nic_key (k : customer_key) : tx_key_t := (CUST, makeCustomerKey (u32 k.1.1) (u32 k.1.2) k.2).
Definition od_nic_key (k : order_key) : tx_key_t := (ORDE, makeOrderKey (u32 k.1.1) (u32 k.1.2) k.2).
Definition ol_nic_key (k : orderline_key) : tx_key_t :=
  (ORLI, makeOrderLineKey (u32 k.1.1.1) (u32 k.1.1.2) k.1.2 k.2).
Definition it_nic_key (k : item_key) : tx_key_t := (ITEM, k).
Definition st_nic_key (k : stock_key) : tx_key_t := (STOC, makeStockKey (u32 k.1) (u32 k.2)).

(** * Rows *)

Record warehouse_value := {
  w_name : list Z; w_street_1 : list Z; w_street_2 : list Z; w_city : list Z; w_state : list Z; w_zip : list Z;
  w_tax : Z; w_ytd : Z }.
#[export] Instance eta_warehouse : Eta warehouse_value := fun v => {|
  w_name := w_name v; w_street_1 := w_street_1 v; w_street_2 := w_street_2 v; w_city := w_city v;
  w_state := w_state v; w_zip := w_zip v; w_tax := w_tax v; w_ytd := w_ytd v |}.

Record district_value := {
  d_name : list Z; d_street_1 : list Z; d_street_2 : list Z; d_city : list Z; d_state : list Z; d_zip : list Z;
  d_tax : Z; d_ytd : Z; d_next_o_id : Z }.
#[export] Instance eta_district : Eta district_value := fun v => {|
  d_name := d_name v; d_street_1 := d_street_1 v; d_street_2 := d_street_2 v; d_city := d_city v;
  d_state := d_state v; d_zip := d_zip v; d_tax := d_tax v; d_ytd := d_ytd v; d_next_o_id := d_next_o_id v |}.

Record customer_value := {
  c_first : list Z; c_middle : list Z; c_last : list Z; c_street_1 : list Z; c_street_2 : list Z;
  c_city : list Z; c_state : list Z; c_zip : list Z; c_phone : list Z; c_since : Z; c_credit : list Z;
  c_credit_lim : Z; c_discount : Z; c_balance : Z; c_ytd_payment : Z; c_payment_cnt : Z; c_delivery_cnt : Z;
  c_data : list Z }.
#[export] Instance eta_customer : Eta customer_value := fun v => {|
  c_first := c_first v; c_middle := c_middle v; c_last := c_last v; c_street_1 := c_street_1 v;
  c_street_2 := c_street_2 v; c_city := c_city v; c_state := c_state v; c_zip := c_zip v; c_phone := c_phone v;
  c_since := c_since v; c_credit := c_credit v; c_credit_lim := c_credit_lim v; c_discount := c_discount v;
  c_balance := c_balance v; c_ytd_payment := c_ytd_payment v; c_payment_cnt := c_payment_cnt v;
  c_delivery_cnt := c_delivery_cnt v; c_data := c_data v |}.

(** [c_ids] *)
Abbreviation customer_idx_value := (list Z) (only parsing).

Record history_value := {
  h_c_id : Z; h_c_d_id : Z; h_c_w_id : Z; h_d_id : Z; h_w_id : Z; h_date : Z; h_amount : Z; h_data : list Z }.

Record order_value := { o_c_id : Z; o_entry_d : Z; o_ol_cnt : Z; o_all_local : Z; o_carrier_id : Z }.
#[export] Instance eta_order : Eta order_value := fun v => {|
  o_c_id := o_c_id v; o_entry_d := o_entry_d v; o_ol_cnt := o_ol_cnt v; o_all_local := o_all_local v;
  o_carrier_id := o_carrier_id v |}.

Record orderline_value := {
  ol_i_id : Z; ol_supply_w_id : Z; ol_quantity : Z; ol_amount : Z; ol_dist_info : list Z; ol_delivery_d : Z }.
#[export] Instance eta_orderline : Eta orderline_value := fun v => {|
  ol_i_id := ol_i_id v; ol_supply_w_id := ol_supply_w_id v; ol_quantity := ol_quantity v;
  ol_amount := ol_amount v; ol_dist_info := ol_dist_info v; ol_delivery_d := ol_delivery_d v |}.

Record item_value := { i_im_id : Z; i_price : Z; i_name : list Z; i_data : list Z }.

Record stock_value := {
  s_dists : list (list Z); s_data : list Z; s_quantity : Z; s_ytd : Z; s_order_cnt : Z; s_remote_cnt : Z }.
#[export] Instance eta_stock : Eta stock_value := fun v => {|
  s_dists := s_dists v; s_data := s_data v; s_quantity := s_quantity v; s_ytd := s_ytd v;
  s_order_cnt := s_order_cnt v; s_remote_cnt := s_remote_cnt v |}.

(** [c_data_info::buf()] *)
Definition c_data_info (cid cdid cwid did wid h_amount : Z) : list Z :=
  le_bytes 8 cid ++ le_bytes 8 cdid ++ le_bytes 8 cwid ++ le_bytes 8 did ++ le_bytes 8 wid ++ le_bytes 8 h_amount.

(** * Commutators *)

Definition operate_warehouse (delta_ytd : Z) (w : warehouse_value) : warehouse_value :=
  w <| w_ytd := u64 (w_ytd w + u64 delta_ytd) |>.

Definition operate_district (delta_ytd : Z) (d : district_value) : district_value :=
  d <| d_ytd := s64 (d_ytd d + delta_ytd) |>.

Inductive customer_op :=
  | Payment (delta_balance delta_ytd_payment : Z) (delta_data : option (list Z))
  | Delivery (delta_balance : Z).

Definition operate_customer (op : customer_op) (c : customer_value) : customer_value :=
  match op with
  | Payment db dy info =>
      let c := c <| c_balance := s64 (c_balance c + db) |> <| c_payment_cnt := u16 (c_payment_cnt c + 1) |>
                 <| c_ytd_payment := s64 (c_ytd_payment c + dy) |> in
      match info with Some buf => c <| c_data := insert_left buf (c_data c) |> | None => c end
  | Delivery db =>
      c <| c_balance := s64 (c_balance c + db) |> <| c_delivery_cnt := u16 (c_delivery_cnt c + 1) |>
  end.

Definition operate_order (write_carrier_id : Z) (o : order_value) : order_value :=
  o <| o_carrier_id := write_carrier_id |>.

Definition operate_orderline (write_delivery_d : Z) (l : orderline_value) : orderline_value :=
  l <| ol_delivery_d := write_delivery_d |>.

(** [update_qty] is an [int32_t]. *)
Definition operate_stock (update_qty : Z) (is_remote : bool) (s : stock_value) : stock_value :=
  let s := s <| s_quantity := if update_qty <=? s_quantity s - 10 then s32 (s_quantity s - update_qty)
                              else s32 (s_quantity s + (91 - update_qty)) |>
             <| s_ytd := u32 (s_ytd s + update_qty) |> <| s_order_cnt := u32 (s_order_cnt s + 1) |> in
  if is_remote then s <| s_remote_cnt := u32 (s_remote_cnt s + 1) |> else s.

(** * The order ids and the delivery counters *)

Definition max_whs : Z := 64.
Definition max_dts : Z := 16.

(** [oid_gens] *)
Abbreviation oid_generator := (gmap (Z * Z) Z) (only parsing).

Definition oid_generator_init : oid_generator :=
  for_range 0 max_whs (fun i g => for_range 0 max_dts (fun j g => <[(i, j) := 3001]> g) g) ∅.

Definition oid_get (w d : Z) (g : oid_generator) : Z := g.[(w mod max_whs, d mod max_dts)].

Definition oid_next (w d : Z) (g : oid_generator) : Z * oid_generator :=
  (oid_get w d g, <[(w mod max_whs, d mod max_dts) := u64 (oid_get w d g + 1)]> g).

(** [num_enqueued] *)
Abbreviation delivery_counters := (gmap Z Z) (only parsing).
Definition dq_enqueue (w : Z) (q : delivery_counters) : delivery_counters := <[w - 1 := u64 (q.[w - 1] + 1)]> q.
Definition dq_read (w : Z) (q : delivery_counters) : Z := q.[w - 1].
Definition dq_dequeue (w n : Z) (q : delivery_counters) : delivery_counters := <[w - 1 := u64 (q.[w - 1] - n)]> q.

(** * The database *)

Record tables := {
  whs : gmap warehouse_key warehouse_value;
  dts : gmap district_key district_value;
  cus : gmap customer_key customer_value;
  ods : gmap order_key order_value;
  ols : gmap orderline_key orderline_value;
  sts : gmap stock_key stock_value;
  cni : gmap customer_idx_key customer_idx_value;
  oci : gmap order_cidx_key unit;
  nos : gmap order_key unit;
  its : gmap item_key item_value;
  hts : gmap (Z * history_key) history_value }.
#[export] Instance eta_tables : Eta tables := fun t => {|
  whs := whs t; dts := dts t; cus := cus t; ods := ods t; ols := ols t; sts := sts t; cni := cni t; oci := oci t;
  nos := nos t; its := its t; hts := hts t |}.

Definition no_tables : tables := {|
  whs := ∅; dts := ∅; cus := ∅; ods := ∅; ols := ∅; sts := ∅; cni := ∅; oci := ∅; nos := ∅; its := ∅; hts := ∅ |}.

(** The counters are not transactional: [key_gen] is [key_gen_] of the history
    tables. *)
Record generators := { oid_gen_ : oid_generator; key_gen : gmap Z Z }.
#[export] Instance eta_generators : Eta generators := fun g => {| oid_gen_ := oid_gen_ g; key_gen := key_gen g |}.

Record tpcc_db := { tbl : tables; gens : generators; dlvy_queue_ : delivery_counters }.
#[export] Instance eta_tpcc_db : Eta tpcc_db := fun d => {|
  tbl := tbl d; gens := gens d; dlvy_queue_ := dlvy_queue_ d |}.

Definition tpcc_db_init : tpcc_db := {|
  tbl := no_tables; gens := {| oid_gen_ := oid_generator_init; key_gen := ∅ |}; dlvy_queue_ := ∅ |}.
