(* ===== verification/TpccGen.v ===== *)
(** [tpcc_input_generator] of [benchmark/TPCC_bench.hh] and the strings the
    loader draws.  The standard library's generators are parameters: a draw is
    given by the seed, the number of draws before it and its range. *)

From stdpp Require Import functions.
From Stdlib Require Import Ascii String.
From S2P Require Import Prelude TpccData.
Open Scope Z_scope.

(** [std::uniform_int_distribution] and [std::shuffle] over an [std::mt19937]. *)
Class Mt19937 := {
  uniform : Z -> Z -> Z -> Z -> Z;
  shuffle : Z -> Z -> list Z -> list Z }.

Class Mt19937Ok (R : Mt19937) : Prop := {
  uniform_range : forall seed k lo hi, lo <= hi -> lo <= uniform seed k lo hi <= hi;
  shuffle_perm : forall seed k l, Permutation (shuffle seed k l) l }.

Record input_generator := { ig_seed : Z; ig_draws : Z; num_whs_ : Z }.
#[export] Instance eta_ig : Eta input_generator := fun g => {|
  ig_seed := ig_seed g; ig_draws := ig_draws g; num_whs_ := num_whs_ g |}.

Definition chars (s : string) : list Z := map (fun c => Z.of_N (N_of_ascii c)) (list_ascii_of_string s).

Definition last_names : list (list Z) :=
  map chars ["BAR"; "OUGHT"; "ABLE"; "PRI"; "PRES"; "ESE"; "ANTI"; "CALLY"; "ATION"; "EING"]%string.

(** Outside of [0, 999] the array is left. *)
Definition to_last_name (gen_n : Z) : option (list Z) :=
  a ← last_names !! Z.to_nat (gen_n / 100);
  let r := gen_n mod 100 in
  b ← last_names !! Z.to_nat (r / 10);
  c ← last_names !! Z.to_nat (r mod 10);
  if (0 <=? gen_n) && (gen_n <=? 999) then Some (a ++ b ++ c) else None.

Section generator.
Context {R : Mt19937}.

Definition random (x y : Z) (g : input_generator) : Z * input_generator :=
  (uniform (ig_seed g) (ig_draws g) x y, g <| ig_draws := ig_draws g + 1 |>).

(** The order of the two draws is not specified: left to right. *)
Definition nurand (a c x y : Z) (g : input_generator) : Z * input_generator :=
  let '(r, g) := random 0 a g in
  let '(s, g) := random x y g in
  let r1 := u64 (Z.lor r s + c) in
  (r1 mod (y - x + 1) + x, g).

Definition gen_customer_id (g : input_generator) : Z * input_generator := nurand 1023 259 1 NUM_CUSTOMERS_PER_DISTRICT g.
Definition gen_customer_last_name_num (run : bool) (g : input_generator) : Z * input_generator :=
  nurand 255 (if run then 223 else 157) 0 999 g.
Definition gen_item_id (g : input_generator) : Z * input_generator := nurand 8191 7911 1 NUM_ITEMS g.
Definition gen_date (g : input_generator) : Z * input_generator := random 1505244122 1599938522 g.

Definition gen_customer_last_name_run (g : input_generator) : option (list Z) * input_generator :=
  let '(n, g) := gen_customer_last_name_num true g in (to_last_name n, g).

(** ** Strings *)

Definition draw_chars (conv : Z -> Z) (hi len : Z) (g : input_generator) : list Z * input_generator :=
  for_range 0 len (fun _ '(str, g) => let '(n, g) := random 0 hi g in (str ++ [conv n], g)) ([], g).

Definition random_a_string (x y : Z) (g : input_generator) : list Z * input_generator :=
  let '(len, g) := random x y g in
  draw_chars (fun n => if n <? 26 then 97 + n else if n <? 52 then 65 + (n - 26) else 48 + (n - 52)) 61 len g.

Definition random_n_string (x y : Z) (g : input_generator) : list Z * input_generator :=
  let '(len, g) := random x y g in draw_chars (fun n => 48 + n) 9 len g.

Definition random_state_name (g : input_generator) : list Z * input_generator :=
  draw_chars (fun n => 65 + n) 25 2 g.

(** Four digits with leading zeros, then "11111". *)
Definition random_zip_code (g : input_generator) : list Z * input_generator :=
  let '(n, g) := random 0 9999 g in
  ([48 + n / 1000; 48 + n / 100 mod 10; 48 + n / 10 mod 10; 48 + n mod 10] ++ chars "11111", g).

Definition random_shuffle (v : list Z) (g : input_generator) : list Z * input_generator :=
  (shuffle (ig_seed g) (ig_draws g) v, g <| ig_draws := ig_draws g + 1 |>).

(** ** Workload mix ([tpcc_runner::next_transaction]) *)

Inductive txn_type := new_order | payment | order_status | delivery | stock_level.

Definition next_transaction (mix : Z) (g : input_generator) : txn_type * input_generator :=
  let '(x, g) := random 1 100 g in
  (if mix =? 0 then
     if x <=? 45 then new_order else if x <=? 88 then payment else if x <=? 92 then order_status
     else if x <=? 96 then delivery else stock_level
   else if mix =? 1 then new_order
   else if x <=? 51 then new_order else payment, g).

Definition next_transaction2 (g : input_generator) : txn_type * input_generator :=
  let '(x, g) := random 1 100 g in (if x <=? 51 then new_order else payment, g).

End generator.
