(* ===== verification/TpccIndex.v ===== *)
(** Transactions over the indexes ([benchmark/DB_oindex.hh], [DB_uindex.hh]) and
    the retry loop [RWTXN ... TEND(true)] ([sto-core/Transaction.hh]).

    An attempt reads the committed tables and buffers its writes: the benchmarks
    are built with [RdMyWr = false], so a read does not see them.  Which reads,
    insertions and commits fail because of other transactions is an input, the
    list [conflicts] (the default is that nothing is in the way); a failure ends
    the attempt at the next [CHK] and the loop starts it again.  That a
    committed attempt sees one committed state and takes effect there is what
    STO guarantees ([StoProps]). *)

From stdpp Require Import functions sorting.
From S2P Require Import Prelude Feature TpccData.

(** * Attempts *)

(** [snap] is the committed state, [pend] the one with the buffered writes
    installed; [aborts] are the keys given to [abort_key], [locals] the variables
    declared outside of the loop that an attempt changes. *)
Record txs (L : Type) := Txs {
  snap : tables; pend : tables; tgens : generators; aborts : list tx_key_t; locals : L; conflicts : list bool }.
Arguments Txs {L} snap pend tgens aborts locals conflicts.
Arguments snap {L} t.
Arguments pend {L} t.
Arguments tgens {L} t.
Arguments aborts {L} t.
Arguments locals {L} t.
Arguments conflicts {L} t.
#[export] Instance eta_txs (L : Type) : Eta (txs L) := fun s => {|
  snap := snap s; pend := pend s; tgens := tgens s; aborts := aborts s; locals := locals s;
  conflicts := conflicts s |}.

Inductive outcome (L A : Type) := Done (a : A) (s : txs L) | Aborted (s : txs L) | Undefined.
Arguments Done {L A} a s.
Arguments Aborted {L A} s.
Arguments Undefined {L A}.

Definition txn (L A : Type) : Type := txs L -> outcome L A.

#[export] Instance txn_ret {L} : MRet (txn L) := fun A a s => Done a s.
#[export] Instance txn_bind {L} : MBind (txn L) := fun A B k m s =>
  match m s with Done a s => k a s | Aborted s => Aborted s | Undefined => Undefined end.

Section operations.
Context {L : Type}.

Definition CHK (ok : bool) : txn L unit := fun s => if ok then Done tt s else Aborted s.

Definition RECORED_ABORT (ok : bool) (key : tx_key_t) : txn L unit := fun s =>
  Done tt (if ok then s else s <| aborts := aborts s ++ [key] |>).

(** [assert(result)] and the use of the row. *)
Definition assert_row {V} (result : option V) : txn L V := fun s =>
  match result with Some v => Done v s | None => Undefined end.

Definition assert (b : bool) : txn L unit := fun s => if b then Done tt s else Undefined.

Definition get_state : txn L (txs L) := fun s => Done s s.
Definition get_locals : txn L L := fun s => Done (locals s) s.
Definition set_locals (l : L) : txn L unit := fun s => Done tt (s <| locals := l |>).

(** Whether the next operation that can meet another transaction succeeds. *)
Definition granted : txn L bool := fun s =>
  Done (default true (head (conflicts s))) (s <| conflicts := tail (conflicts s) |>).

Definition oid_generator_next (w d : Z) : txn L Z := fun s =>
  let '(o, g) := oid_next w d (oid_gen_ (tgens s)) in Done o (s <| tgens := (tgens s) <| oid_gen_ := g |> |>).

(** [tbl_histories(w).gen_key()] *)
Definition gen_key (w : Z) : txn L Z := fun s =>
  let k := (key_gen (tgens s)).[w] in
  Done k (s <| tgens := (tgens s) <| key_gen := <[w := u64 (k + 1)]> (key_gen (tgens s)) |> |>).

Section index.
Context {K V : Type} `{Countable K}.
Variable ix : tables -> gmap K V.
Context {ST : Setter ix}.

Definition write (f : gmap K V -> gmap K V) : txn L unit := fun s =>
  Done tt (s <| pend := set_field ix f (pend s) |>).

Definition select_split_row (k : K) : txn L (bool * option V) :=
  ok ← granted;
  s ← get_state;
  mret (ok, if ok : bool then ix (snap s) !! k else None).

Definition update_row (k : K) (new_row : V) : txn L unit := write (insert k new_row).

(** A commutator is applied to the row when the transaction is installed, with
    the row locked.  [snap] is the database at the point where the transaction
    commits, so that is the row of [snap], whether or not the transaction has read
    its columns; of two commutators for the same row the later one stays. *)
Definition update_row_comm (k : K) (operate : V -> V) : txn L unit :=
  s ← get_state;
  v ← assert_row (ix (snap s) !! k);
  update_row k (operate v).

(** The index has the committed rows and those the transaction inserted. *)
Definition in_index (s : txs L) (k : K) : bool :=
  bool_decide (is_Some (ix (snap s) !! k) \/ is_Some (ix (pend s) !! k)).

(** It fails if the row is one another transaction is inserting, or if the leaf
    is in the read set with another version: [contended] says whether either
    can happen. *)
Definition insert_row (contended : bool) (k : K) (v : V) : txn L (bool * bool) :=
  ok ← (if contended then granted else mret true);
  s ← get_state;
  if negb ok then mret (false, false)
  else if in_index s k then mret (true, true)
  else _ ← write (insert k v); mret (true, false).

Definition delete_row (k : K) : txn L (bool * bool) :=
  ok ← granted;
  s ← get_state;
  if negb ok then mret (false, false)
  else if in_index s k then _ ← write (delete k); mret (true, true)
  else mret (true, false).

Context `{KeyStr K}.

Definition key_leb (a b : K) : bool := str_leb (key_str a) (key_str b).

(** The rows in the order of their keys: from [begin] (included) up to [end]
    (excluded), or down to it. *)
Definition rows_between (Reverse : bool) (begin end_ : K) (m : gmap K V) : list (K * V) :=
  if Reverse
  then merge_sort (fun a b => key_leb b.1 a.1)
         (filter (fun kv => key_leb kv.1 begin && negb (key_leb kv.1 end_)) (map_to_list m))
  else merge_sort (fun a b => key_leb a.1 b.1)
         (filter (fun kv => key_leb begin kv.1 && negb (key_leb end_ kv.1)) (map_to_list m)).

(** The rows the callback was called with ([limit < 0]: no limit); a scan that
    fails may have called it or not. *)
Definition range_scan (Reverse : bool) (begin end_ : K) (limit : Z) : txn L (bool * list (K * V)) :=
  ok ← granted;
  called ← (if ok : bool then mret true else granted);
  s ← get_state;
  let rows := rows_between Reverse begin end_ (ix (snap s)) in
  let rows := if limit <? 0 then rows else take (Z.to_nat limit) rows in
  mret (ok, if called : bool then rows else []).

End index.

(** [for (i = b; i < e; ++i)] *)
Fixpoint for_txn {S} (body : Z -> S -> txn L S) (l : list Z) (x : S) : txn L S :=
  match l with
  | [] => mret x
  | i :: l => x ← body i x; for_txn body l x
  end.

End operations.

(** * The loop *)

(** What the attempts share: the database, the keys reported, the variables and
    the number of attempts. *)
Record run (L : Type) := Run { r_db : tpcc_db; r_aborts : list tx_key_t; r_locals : L; starts : Z }.
Arguments Run {L} r_db r_aborts r_locals starts.
Arguments r_db {L} r.
Arguments r_aborts {L} r.
Arguments r_locals {L} r.
Arguments starts {L} r.

Section loop.
Context {L A : Type}.
Variable body : txn L A.

Definition begin_txn (confl : list bool) (r : run L) : txs L :=
  Txs (tbl (r_db r)) (tbl (r_db r)) (gens (r_db r)) (r_aborts r) (r_locals r) confl.

(** The tables become [t]; the counters keep what the attempt did to them. *)
Definition end_txn (t : tables) (s : txs L) (r : run L) : run L :=
  Run {| tbl := t; gens := tgens s; dlvy_queue_ := dlvy_queue_ (r_db r) |} (aborts s) (locals s) (starts r + 1).

(** One attempt: the body, then [try_commit].  The first component is the
    result if it committed. *)
Definition attempt (confl : list bool) (r : run L) : option (option A * run L) :=
  match body (begin_txn confl r) with
  | Done a s => if default true (head (conflicts s)) then Some (Some a, end_txn (pend s) s r)
                else Some (None, end_txn (snap s) s r)
  | Aborted s => Some (None, end_txn (snap s) s r)
  | Undefined => None
  end.

(** The attempts whose conflicts are given, until one commits. *)
Fixpoint RWTXN (confls : list (list bool)) (r : run L) : option (option A * run L) :=
  match confls with
  | [] => Some (None, r)
  | confl :: confls =>
      '(res, r) ← attempt confl r;
      match res with Some a => Some (Some a, r) | None => RWTXN confls r end
  end.

End loop.
