(* ===== verification/TpccTxn.v ===== *)
(** The five transactions of the server's TPC-C ([benchmark/TPCC_txns.hh]), for
    requests of clients (the build without [QUICKCHECK]).

    Each transaction has an input, which is read from the message and drawn
    before the loop, and a body, which is one attempt.  Columns that are only
    copied to unused outputs are not in the results; the double
    [out_total_amount] is one of them. *)

From stdpp Require Import functions sorting.
From S2P Require Import Prelude Memory Feature Msg TpccData TpccGen TpccIndex.

Definition uint64_max : Z := 2 ^ 64 - 1.

(** The middle one of the customers with a name, of at most 100. *)
Definition middle_customer (c_ids : customer_idx_value) : option Z :=
  let rows := take 100 c_ids in rows !! (length rows / 2)%nat.

(** * New order *)

Record neworder_input := {
  no_w_id : Z; no_d_id : Z; no_c_id : Z;
  no_items : list (Z * Z * Z);   (* ol_i_ids, ol_supply_w_ids, ol_quantities *)
  no_entry_d : Z }.

Section neworder.
Variable Commute : bool.
Variable q : neworder_input.

Definition num_items : Z := Z.of_nat (length (no_items q)).
Definition all_local : bool := forallb (fun '(_, wid, _) => no_w_id q =? wid) (no_items q).

(** The new row of a stock; the columns are updated in a copy of the row. *)
Definition stock_in_place (qty : Z) (remote : bool) (s : stock_value) : stock_value :=
  let s := s <| s_quantity := if s32 qty <=? s_quantity s - 10 then s32 (s_quantity s - qty)
                              else s32 (s_quantity s + (91 - s32 qty)) |>
             <| s_ytd := u32 (s_ytd s + qty) |> <| s_order_cnt := u32 (s_order_cnt s + 1) |> in
  if remote then s <| s_remote_cnt := u32 (s_remote_cnt s + 1) |> else s.

(** [int32_t ol_amount = qty * i_price / 100.0]; the quotient of two numbers
    below [2^46] by 100 is rounded to the same integer as the exact one. *)
Definition order_amount (qty price : Z) : Z := u64 (qty * price) / 100.

Definition neworder_line (oid i : Z) : txn unit unit :=
  '(iid, wid, qty) ← assert_row (no_items q !! Z.to_nat i);
  '(abort, result) ← select_split_row its iid;
  RECORED_ABORT abort (it_nic_key iid);;
  CHK abort;;
  iv ← assert_row result;
  CHK (negb (i_im_id iv =? 0));;
  '(abort, result) ← select_split_row sts (wid, iid);
  RECORED_ABORT abort (st_nic_key (wid, iid));;
  CHK abort;;
  sv ← assert_row result;
  s_dist ← assert_row (s_dists sv !! Z.to_nat (no_d_id q - 1));
  let remote := negb (wid =? no_w_id q) in
  (if Commute then update_row_comm sts (wid, iid) (operate_stock (s32 qty) remote)
   else update_row sts (wid, iid) (stock_in_place qty remote sv));;
  let olk := (no_w_id q, no_d_id q, oid, i + 1) in
  '(abort, result) ← insert_row ols true olk {|
    ol_i_id := iid; ol_supply_w_id := wid; ol_delivery_d := 0; ol_quantity := u32 qty;
    ol_amount := order_amount qty (i_price iv); ol_dist_info := s_dist |};
  RECORED_ABORT abort (ol_nic_key olk);;
  CHK abort;;
  assert (negb result).

(** The order, its row in [neworders] and in the index of the customer. *)
Definition neworder_insert (oid : Z) : txn unit unit :=
  let ok := (no_w_id q, no_d_id q, oid) in
  '(abort, result) ← insert_row ods true ok {|
    o_c_id := no_c_id q; o_carrier_id := 0; o_all_local := Z.b2z all_local; o_entry_d := no_entry_d q;
    o_ol_cnt := u32 num_items |};
  CHK abort;; assert (negb result);;
  '(abort, result) ← insert_row nos true ok tt;
  CHK abort;; assert (negb result);;
  '(abort, result) ← insert_row oci true (no_w_id q, no_d_id q, no_c_id q, oid) tt;
  CHK abort;; assert (negb result).

Definition txn_neworder : txn unit Z :=
  '(abort, result) ← select_split_row whs (no_w_id q);
  RECORED_ABORT abort (wh_nic_key (no_w_id q));;
  CHK abort;;
  wv ← assert_row result;
  let dk := (no_w_id q, no_d_id q) in
  '(abort, result) ← select_split_row dts dk;
  RECORED_ABORT abort (dt_nic_key dk);;
  RECORED_ABORT false (dt_nic_key dk);;
  CHK abort;;
  dv ← assert_row result;
  dt_next_oid ← oid_generator_next (no_w_id q) (no_d_id q);
  update_row dts dk (dv <| d_next_o_id := dt_next_oid |>);;
  let ck := (no_w_id q, no_d_id q, no_c_id q) in
  '(abort, result) ← select_split_row cus ck;
  RECORED_ABORT abort (cu_nic_key ck);;
  CHK abort;;
  cv ← assert_row result;
  neworder_insert dt_next_oid;;
  for_txn (fun i _ => neworder_line dt_next_oid i) (seqZ 0 num_items) tt;;
  mret dt_next_oid.

End neworder.

(** * Payment *)

Record payment_input := {
  pay_w_id : Z; pay_d_id : Z; pay_c_w_id : Z; pay_c_d_id : Z;
  pay_by_name : bool; pay_last : list Z; pay_c_id : Z;   (* by name, or by number *)
  pay_amount : Z; pay_date : Z }.

Definition BC : list Z := [66; 67].

Section payment.
Variable Commute : bool.
Variable q : payment_input.

Definition payment_in_place (c : Z) (v : customer_value) : customer_value :=
  let n := v <| c_balance := s64 (c_balance v - pay_amount q) |> <| c_payment_cnt := u16 (c_payment_cnt v + 1) |>
             <| c_ytd_payment := s64 (c_ytd_payment v + pay_amount q) |> in
  if decide (c_credit v = BC)
  then n <| c_data := insert_left (c_data_info c (pay_c_d_id q) (pay_c_w_id q) (pay_d_id q) (pay_w_id q)
                                    (pay_amount q)) (c_data n) |>
  else n.

Definition payment_warehouse : txn unit warehouse_value :=
  '(success, result) ← select_split_row whs (pay_w_id q);
  CHK success;;
  wv ← assert_row result;
  (if Commute then update_row_comm whs (pay_w_id q) (operate_warehouse (pay_amount q))
   else update_row whs (pay_w_id q) (wv <| w_ytd := u64 (w_ytd wv + pay_amount q) |>));;
  mret wv.

Definition payment_district : txn unit district_value :=
  let dk := (pay_w_id q, pay_d_id q) in
  '(success, result) ← select_split_row dts dk;
  RECORED_ABORT false (dt_nic_key dk);;
  CHK success;;
  dv ← assert_row result;
  (if Commute then update_row_comm dts dk (operate_district (pay_amount q))
   else update_row dts dk (dv <| d_ytd := s64 (d_ytd dv + pay_amount q) |>));;
  mret dv.

(** The customer's number. *)
Definition payment_customer_id : txn unit Z :=
  if pay_by_name q then
    '(success, result) ← select_split_row cni (idx_key (pay_c_w_id q) (pay_c_d_id q) (pay_last q));
    CHK success;;
    c_ids ← assert_row result;
    assert_row (middle_customer c_ids)
  else assert (negb (pay_c_id q =? 0));; mret (pay_c_id q).

Definition payment_customer (c : Z) : txn unit unit :=
  let ck := (pay_c_w_id q, pay_c_d_id q, c) in
  '(success, result) ← select_split_row cus ck;
  CHK success;;
  cv ← assert_row result;
  if Commute then
    update_row_comm cus ck (operate_customer (Payment (- pay_amount q) (pay_amount q)
      (if decide (c_credit cv = BC)
       then Some (c_data_info c (pay_c_d_id q) (pay_c_w_id q) (pay_d_id q) (pay_w_id q) (pay_amount q))
       else None)))
  else update_row cus ck (payment_in_place c cv).

(** The leaf of the history row is not in the read set, and its key is new. *)
Definition payment_history (c : Z) (wv : warehouse_value) (dv : district_value) : txn unit unit :=
  k ← gen_key (pay_c_w_id q);
  let hk := (u32 (pay_w_id q), u32 (pay_d_id q), c, k) in
  '(success, result) ← insert_row hts false (pay_c_w_id q, hk) {|
    h_c_id := c; h_c_d_id := pay_c_d_id q; h_c_w_id := pay_c_w_id q; h_d_id := pay_d_id q; h_w_id := pay_w_id q;
    h_date := pay_date q; h_amount := pay_amount q;
    h_data := var_string 24 (w_name wv ++ [32; 32; 32; 32] ++ d_name dv) |};
  assert success;;
  assert (negb result).

Definition txn_payment : txn unit Z :=
  wv ← payment_warehouse;
  dv ← payment_district;
  c ← payment_customer_id;
  payment_customer c;;
  payment_history c wv dv;;
  mret c.

End payment.

(** * Order status *)

Record orderstatus_input := { os_w_id : Z; os_d_id : Z; os_by_name : bool; os_last : list Z; os_c_id : Z }.

Record orderstatus_output := {
  os_customer : customer_value; cus_o_id : Z; os_order : option order_value; os_lines : list orderline_value }.

Section orderstatus.
Variable q : orderstatus_input.

Definition orderstatus_customer_id : txn unit Z :=
  if os_by_name q then
    let ck := idx_key (os_w_id q) (os_d_id q) (os_last q) in
    '(success, result) ← select_split_row cni ck;
    RECORED_ABORT success (ci_nic_key ck);;
    CHK success;;
    c_ids ← assert_row result;
    assert_row (middle_customer c_ids)
  else assert (negb (os_c_id q =? 0));; mret (os_c_id q).

Definition txn_orderstatus : txn unit orderstatus_output :=
  c ← orderstatus_customer_id;
  let ck := (os_w_id q, os_d_id q, c) in
  '(success, result) ← select_split_row cus ck;
  CHK success;;
  RECORED_ABORT success (cu_nic_key ck);;
  cv ← assert_row result;
  '(scan_success, found) ← range_scan oci true (os_w_id q, os_d_id q, c, uint64_max) (os_w_id q, os_d_id q, c, 0) 1;
  CHK scan_success;;
  let o := default 0 (snd <$> (fst <$> last found)) in
  if 0 <? o then
    '(success, result) ← select_split_row ods (os_w_id q, os_d_id q, o);
    CHK success;;
    ov ← assert_row result;
    '(scan_success, lines) ← range_scan ols false (os_w_id q, os_d_id q, o, 0) (os_w_id q, os_d_id q, o, uint64_max) (-1);
    CHK scan_success;;
    mret {| os_customer := cv; cus_o_id := o; os_order := Some ov; os_lines := snd <$> lines |}
  else mret {| os_customer := cv; cus_o_id := o; os_order := None; os_lines := [] |}.

End orderstatus.

(** * Delivery *)

Section delivery.
Variable Commute : bool.
Variables (w carrier_id delivery_date : Z).

(** One order line: the amount is added to the sum, an [int32_t]. *)
Definition delivery_line (d oid ol_num sum : Z) : txn Z Z :=
  let olk := (w, d, oid, ol_num) in
  '(success, result) ← select_split_row ols olk;
  CHK success;;
  olv ← assert_row result;
  (if Commute then update_row_comm ols olk (operate_orderline delivery_date)
   else update_row ols olk (olv <| ol_delivery_d := delivery_date |>));;
  mret (s32 (sum + ol_amount olv)).

Definition delivery_customer (d c sum : Z) : txn Z unit :=
  let ck := (w, d, c) in
  '(success, result) ← select_split_row cus ck;
  CHK success;;
  cv ← assert_row result;
  if Commute then update_row_comm cus ck (operate_customer (Delivery sum))
  else update_row cus ck (cv <| c_balance := s64 (c_balance cv + sum) |>
                             <| c_delivery_cnt := u16 (c_delivery_cnt cv + 1) |>).

(** Order [oid] of the district, whose row is [ov]. *)
Definition deliver_order (d oid : Z) (ov : order_value) : txn Z unit :=
  let ok := (w, d, oid) in
  '(success, result) ← delete_row nos ok;
  CHK success;;
  CHK result;;
  (if Commute then update_row_comm ods ok (operate_order carrier_id)
   else update_row ods ok (ov <| o_carrier_id := carrier_id |>));;
  assert (negb (o_c_id ov =? 0));;
  sum ← for_txn (delivery_line d oid) (seqZ 1 (o_ol_cnt ov)) 0;
  delivery_customer d (o_c_id ov) sum.

(** What follows the scan: [continue] if there is no such order. *)
Definition delivery_found (d order_id : Z) : txn Z Z :=
  if order_id =? 0 then mret order_id
  else
    '(success, result) ← select_split_row ods (w, d, order_id);
    CHK success;;
    match result with
    | None => mret order_id
    | Some ov => deliver_order d order_id ov;; mret order_id
    end.

(** One district.  [order_id] keeps its value when the scan finds nothing. *)
Definition delivery_district (last_delivered d : Z) : txn Z Z :=
  '(scan_success, found) ← range_scan nos false (w, d, last_delivered) (w, d, uint64_max) 1;
  (match last found with Some (k, _) => set_locals (k.2) | None => mret tt end);;
  CHK scan_success;;
  order_id ← get_locals;
  delivery_found d order_id.

(** [delivered_order_ids] of the districts 1 to 10. *)
Definition txn_delivery (last_delivered : list Z) : txn Z (list Z) :=
  for_txn (fun d delivered =>
    ld ← assert_row (last_delivered !! Z.to_nat (d - 1));
    o ← delivery_district ld d;
    mret (delivered ++ [o])) (seqZ 1 10) [].

End delivery.

(** * Stock level *)

Section stocklevel.
Variables (w d threshold : Z).

(** [out_count] is one of the variables outside of the loop. *)
Definition stocklevel_item (iid : Z) : txn Z unit :=
  '(success, result) ← select_split_row sts (w, iid);
  CHK success;;
  sv ← assert_row result;
  if s_quantity sv <? threshold then c ← get_locals; set_locals (s32 (c + 1)) else mret tt.

Definition txn_stocklevel : txn Z unit :=
  '(success, result) ← select_split_row dts (w, d);
  RECORED_ABORT success (dt_nic_key (w, d));;
  CHK success;;
  dv ← assert_row result;
  let d_next_oid := d_next_o_id dv in
  let oid_lower := if 20 <? d_next_oid then d_next_oid - 20 else 0 in
  '(scan_success, lines) ← range_scan ols false (w, d, d_next_oid, 0) (w, d, oid_lower, 0) (-1);
  CHK scan_success;;
  let ol_iids := merge_sort Z.le (remove_dups ((fun l => ol_i_id l.2) <$> lines)) in
  for_txn (fun iid _ => stocklevel_item iid) ol_iids tt.

End stocklevel.

(** * From the message to the transaction *)

Section inputs.
Context {R : Mt19937}.
Variables (m : memory) (x : msg_t).

(** The arrays have 15 elements. *)
Definition neworder_args (ig : input_generator) : option (neworder_input * input_generator) :=
  let n := get_s_num m x in
  let '(date, ig) := gen_date ig in
  if negb (get_c_id m x =? 0) && (n <=? 15) then
    let '(items, ig) := for_range 0 n (fun i '(l, ig) =>
      let '(qty, ig) := random 1 10 ig in (l ++ [(get_i_id m x i, get_s_w m x n i, qty)], ig)) ([], ig) in
    Some ({| no_w_id := get_w_id m x; no_d_id := get_d_id m x; no_c_id := get_c_id m x; no_items := items;
             no_entry_d := date |}, ig)
  else None.

Definition payment_args (ig : input_generator) : option (payment_input * input_generator) :=
  let w := get_w_id_pay m x in let d := get_d_id_pay m x in
  let '(cw, cd) := if get_is_home_pay m x then (w, d) else (get_c_w_id_pay m x, get_c_d_id_pay m x) in
  let by_name := get_by_name_pay m x in
  last ← (if by_name : bool then to_last_name (get_c_id_pay m x) else Some []);
  let c := if by_name then 0 else get_c_id_pay m x in
  let '(amount, ig) := random 100 500000 ig in
  let '(date, ig) := gen_date ig in
  Some ({| pay_w_id := w; pay_d_id := d; pay_c_w_id := cw; pay_c_d_id := cd; pay_by_name := by_name;
           pay_last := last; pay_c_id := c; pay_amount := amount; pay_date := date |}, ig).

Definition orderstatus_args (ig : input_generator) : option (orderstatus_input * input_generator) :=
  let by_name := get_by_name_order m x in
  let '(last, ig) := if by_name then gen_customer_last_name_run ig else (Some [], ig) in
  last ← last;
  Some ({| os_w_id := get_w_id_order m x; os_d_id := get_d_id_order m x; os_by_name := by_name; os_last := last;
           os_c_id := if by_name then 0 else get_c_id_order m x |}, ig).

End inputs.

(** * The transactions *)

Section transactions.
Context {R : Mt19937}.
Variables (Commute : bool) (m : memory) (x : msg_t) (db : tpcc_db) (confls : list (list bool)).

Definition run_txn_neworder (ig : input_generator) : option (input_generator * (option Z * run unit)) :=
  '(q, ig) ← neworder_args m x ig;
  res ← RWTXN (txn_neworder Commute q) confls (Run db [] tt 0);
  Some (ig, res).

Definition run_txn_payment (ig : input_generator) : option (input_generator * (option Z * run unit)) :=
  '(q, ig) ← payment_args m x ig;
  res ← RWTXN (txn_payment Commute q) confls (Run db [] tt 0);
  Some (ig, res).

Definition run_txn_orderstatus (ig : input_generator)
    : option (input_generator * (option orderstatus_output * run unit)) :=
  '(q, ig) ← orderstatus_args m x ig;
  res ← RWTXN (txn_orderstatus q) confls (Run db [] tt 0);
  Some (ig, res).

(** [garbage] is what the uninitialised [order_id] holds. *)
Definition run_txn_delivery (garbage w : Z) (last_delivered : list Z) (ig : input_generator)
    : option (input_generator * (option (list Z) * run Z)) :=
  let '(carrier_id, ig) := random 1 10 ig in
  let '(delivery_date, ig) := gen_date ig in
  res ← RWTXN (txn_delivery Commute w carrier_id delivery_date last_delivered) confls (Run db [] garbage 0);
  Some (ig, res).

Definition run_txn_stocklevel (ig : input_generator) : option (input_generator * (option unit * run Z)) :=
  let '(threshold, ig) := random 10 20 ig in
  res ← RWTXN (txn_stocklevel (get_w_id_stock m x) (get_d_id_stock m x) threshold) confls (Run db [] 0 0);
  Some (ig, res).

End transactions.
