(* ===== verification/TpccRunner.v ===== *)
(** The TPC-C workers ([tpcc_access] of [benchmark/TPCC_bench.hh]): the turn of a
    worker that serves requests, the pass of a worker that executes the queued
    deliveries, and which worker owns which warehouse.

    The conflicts that the attempts of a transaction meet are given; when they
    are used up before an attempt commits the worker is still in the loop
    ([Retrying]). *)

From stdpp Require Import functions.
From S2P Require Import Prelude Memory Config Ring Feature ModelUpdate Perf RpcCommon Msg RpcConnect Central Worker Runner.
From S2P Require Import TpccData TpccGen TpccIndex TpccTxn.

(** * The workers of a benchmark *)

(** [w_own] of runner [i] in [run_benchmark]: without a CPU scheduler, or with
    the variants 1 and 2, the two runners past [MAX_THREAD] are owners; with the
    others the first runners are, one per warehouse. *)
Definition calc_own_w_id {C : Config} (reserved : bool) (num_runners num_whs i : Z) : Z :=
  if reserved then if i <? MAX_THREAD then 0 else i - MAX_THREAD + 1
  else if (i <? num_runners) && (i <? num_whs) then i + 1 else 0.

(** The warehouses the owner's loop of [tpcc_runner_thread] visits. *)
Definition owned_warehouses (own num_whs : Z) : list Z :=
  (fun k => own + 2 * k) <$> seqZ 0 ((num_whs - own) / 2 + 1).

(** * State *)

Record tpcc_runner := { runner_id : Z; ig : input_generator; rmsg : worker_msg_t }.
#[export] Instance eta_runner : Eta tpcc_runner := fun r => {| runner_id := runner_id r; ig := ig r; rmsg := rmsg r |}.

(** What the workers share; the flags are [tpcc_reply_delivery]. *)
Record tpcc_server := {
  sv_host : host; sv_db : tpcc_db; tpcc_delivery : tpcc_delivery_t; reply_flags : gmap (Z * Z) Z }.
#[export] Instance eta_server : Eta tpcc_server := fun s => {|
  sv_host := sv_host s; sv_db := sv_db s; tpcc_delivery := tpcc_delivery s; reply_flags := reply_flags s |}.

Section turns.
Context {C : Config} {R : Mt19937}.
Variable Commute : bool.

(** ** After the loop *)

Fixpoint abort_keys (keys : list tx_key_t) (w : worker_msg_t) (h : host) : option (worker_msg_t * host) :=
  match keys with
  | [] => Some (w, h)
  | k :: keys => '(w, h) ← worker_abort_key tpcc_partition k w h; abort_keys keys w h
  end.

(** [TPCC_RETRY_COUNT]: once per attempt but the first. *)
Definition count_retries (id attempts : Z) (h : host) : option host :=
  for_opt 1 attempts (fun _ h => p ← retry_count (performance h) id; Some (h <| performance := p |>)) h.

(** What a run leaves; the boolean says whether it committed. *)
Definition finish_txn {A L} (x : input_generator * (option A * run L)) (rn : tpcc_runner) (sv : tpcc_server)
    : option (tpcc_runner * tpcc_server * bool) :=
  let '(g, (res, r)) := x in
  '(w, h) ← abort_keys (r_aborts r) (rmsg rn) (sv_host sv);
  h ← count_retries (runner_id rn) (starts r) h;
  Some (rn <| ig := g |> <| rmsg := w |>, sv <| sv_host := h |> <| sv_db := r_db r |>, bool_decide (is_Some res)).

(** ** Requests *)

Definition txn_of_type (type : Z) : txn_type :=
  if type =? 0 then new_order
  else if type =? 1 then payment
  else if type =? 2 then order_status
  else if type =? 3 then stock_level
  else if type =? 4 then delivery
  else new_order.

(** A delivery is queued for the owner of its warehouse. *)
Definition enqueue_delivery (sv : tpcc_server) (x : msg_t) : option tpcc_server :=
  let m := mem (sv_host sv) in
  let w := get_w_id_del m x in
  let db := (sv_db sv) <| dlvy_queue_ := dq_enqueue w (dlvy_queue_ (sv_db sv)) |> in
  d ← push_new_delivery (w - 1) (ld 8 m (get_rpc_id x)) (tpcc_delivery sv);
  Some (sv <| sv_db := db |> <| tpcc_delivery := d |>).

(** The [switch]; the last boolean is [delivery_flag]. *)
Definition tpcc_execute (confls : list (list bool)) (rn : tpcc_runner) (sv : tpcc_server)
    : option (tpcc_runner * tpcc_server * bool * bool) :=
  let x := now_msg (rmsg rn) in
  let m := mem (sv_host sv) in
  let serve {A L} (res : option (input_generator * (option A * run L))) :=
    res ← res; '(rn, sv, done) ← finish_txn res rn sv; Some (rn, sv, done, false) in
  match txn_of_type (m_type x) with
  | new_order => serve (run_txn_neworder Commute m x (sv_db sv) confls (ig rn))
  | payment => serve (run_txn_payment Commute m x (sv_db sv) confls (ig rn))
  | order_status => serve (run_txn_orderstatus m x (sv_db sv) confls (ig rn))
  | stock_level => serve (run_txn_stocklevel m x (sv_db sv) confls (ig rn))
  | delivery => sv ← enqueue_delivery sv x; Some (rn, sv, true, true)
  end.

Inductive turn_end := Idle | Retrying | Answered.

(** One iteration of [tpcc_runner_thread] of a worker that owns no warehouse. *)
Definition tpcc_turn (confls : list (list bool)) (rn : tpcc_runner) (sv : tpcc_server)
    : option (tpcc_runner * tpcc_server * turn_end) :=
  '(w, h, found) ← next_txn_check (rmsg rn) (sv_host sv);
  let rn := rn <| rmsg := w |> in
  let sv := sv <| sv_host := h |> in
  if negb found then Some (rn, sv, Idle)
  else
    '(rn, sv, done, delivery_flag) ← tpcc_execute confls rn sv;
    if negb done then Some (rn, sv, Retrying)
    else
      '(w, h) ← reply_now delivery_flag (rmsg rn) (sv_host sv);
      Some (rn <| rmsg := w |>, sv <| sv_host := h |>, Answered).

(** ** Deliveries *)

(** The owner's generator, its [last_delivered_multi] and the shared state; the
    counter is [real_run], the boolean says that it still is in a transaction. *)
Record owner := { ow_id : Z; ow_ig : input_generator; last_delivered_multi : gmap Z (list Z); ow_server : tpcc_server;
                  real_run : Z; ow_retrying : bool }.
#[export] Instance eta_owner : Eta owner := fun o => {|
  ow_id := ow_id o; ow_ig := ow_ig o; last_delivered_multi := last_delivered_multi o; ow_server := ow_server o;
  real_run := real_run o; ow_retrying := ow_retrying o |}.

(** [confls] and [garbage] of the [i]-th transaction for warehouse [w]. *)
Variables (confls_at : Z -> Z -> list (list bool)) (garbage_at : Z -> Z -> Z).

Definition deliver_next (w i : Z) (o : owner) : option owner :=
  let sv := ow_server o in
  ready ← delivery_check (w - 1) (tpcc_delivery sv);
  if negb ready then Some o
  else
    last ← last_delivered_multi o !! ((w - 1) / 2);
    '(g, (res, r)) ← run_txn_delivery Commute (sv_db sv) (confls_at w i) (garbage_at w i) w last (ow_ig o);
    h ← count_retries (ow_id o) (starts r) (sv_host sv);
    let sv := sv <| sv_host := h |> <| sv_db := r_db r |> in
    match res with
    | None => Some (o <| ow_ig := g |> <| ow_server := sv |> <| ow_retrying := true |>)
    | Some ids =>
        '(d, flags, h) ← reply_now_delivery (w - 1) (ow_id o) (tpcc_delivery sv) (reply_flags sv) (sv_host sv);
        Some (o <| ow_ig := g |> <| last_delivered_multi := <[(w - 1) / 2 := ids]> (last_delivered_multi o) |>
                <| ow_server := sv <| sv_host := h |> <| tpcc_delivery := d |> <| reply_flags := flags |> |>
                <| real_run := real_run o + 1 |>)
    end.

Definition unless_retrying (f : owner -> option owner) (o : owner) : option owner :=
  if ow_retrying o then Some o else f o.

(** One warehouse of the owner's loop. *)
Definition deliver_queued (w : Z) (o : owner) : option owner :=
  let num_to_run := dq_read w (dlvy_queue_ (sv_db (ow_server o))) in
  if 0 <? num_to_run then
    o ← for_opt 0 num_to_run (fun i => unless_retrying (deliver_next w i)) (o <| real_run := 0 |>);
    unless_retrying (fun o =>
      let sv := ow_server o in
      Some (o <| ow_server := sv <| sv_db := (sv_db sv)
        <| dlvy_queue_ := dq_dequeue w (real_run o) (dlvy_queue_ (sv_db sv)) |> |> |>)) o
  else Some o.

Fixpoint for_owned (ws : list Z) (o : owner) : option owner :=
  match ws with
  | [] => Some o
  | w :: ws => o ← unless_retrying (deliver_queued w) o; for_owned ws o
  end.

(** One iteration of [tpcc_runner_thread] of an owner. *)
Definition delivery_pass (own num_whs : Z) (o : owner) : option owner := for_owned (owned_warehouses own num_whs) o.

(** ** Workers that also deliver *)

(** In the builds without the card a worker serves requests and, when it owns a
    warehouse ([p_own] is not 0), that warehouse's deliveries. *)
Record partition_runner := { p_runner : tpcc_runner; p_own : Z; last_delivered : list Z }.
#[export] Instance eta_partition : Eta partition_runner := fun p => {|
  p_runner := p_runner p; p_own := p_own p; last_delivered := last_delivered p |}.

(** The owner that worker [p] is for its warehouse. *)
Definition as_owner (p : partition_runner) (sv : tpcc_server) : owner := {|
  ow_id := runner_id (p_runner p); ow_ig := ig (p_runner p);
  last_delivered_multi := {[(p_own p - 1) / 2 := last_delivered p]}; ow_server := sv; real_run := 0; ow_retrying := false |}.

(** The boolean says that it still is in a transaction. *)
Definition deliver_own (p : partition_runner) (sv : tpcc_server) : option (partition_runner * tpcc_server * bool) :=
  if p_own p =? 0 then Some (p, sv, false)
  else
    o ← deliver_queued (p_own p) (as_owner p sv);
    last ← last_delivered_multi o !! ((p_own p - 1) / 2);
    Some (p <| p_runner := (p_runner p) <| ig := ow_ig o |> |> <| last_delivered := last |>, ow_server o, ow_retrying o).

(** One iteration of [static_hack] after the poll of its slots. *)
Definition static_serve (confls : list (list bool)) (p : partition_runner) (sv : tpcc_server)
    : option (partition_runner * tpcc_server * turn_end) :=
  '(w, h, found) ← next_txn_check_strife (rmsg (p_runner p)) (sv_host sv);
  let rn := (p_runner p) <| rmsg := w |> in
  let sv := sv <| sv_host := h |> in
  if negb found then
    '(p, sv, retrying) ← deliver_own (p <| p_runner := rn |>) sv;
    Some (p, sv, if (retrying : bool) then Retrying else Idle)
  else
    '(rn, sv, done, delivery_flag) ← tpcc_execute confls rn sv;
    if negb done then Some (p <| p_runner := rn |>, sv, Retrying)
    else
      '(w, h) ← reply_now_partition delivery_flag (rmsg rn) (sv_host sv);
      Some (p <| p_runner := rn <| rmsg := w |> |>, sv <| sv_host := h |>, Answered).

Definition tpcc_static_turn (rand : Z -> Z) (cpubased2 : bool) (confls : list (list bool)) (p : partition_runner) (sv : tpcc_server)
    : option (partition_runner * tpcc_server * turn_end) :=
  let id := runner_id (p_runner p) in
  let '(slot_base, slot_end) := strife_slots (MAX_THREAD + 2) id in
  h ← (if cpubased2 then Some (sv_host sv) else run_strife_once rand slot_base slot_end id (sv_host sv));
  static_serve confls p (sv <| sv_host := h |>).

(** The three reads of [now_phase] and the accesses to the worker's cell of
    [strife_phase] in one iteration of [strife_hack]; the boolean says whether
    the worker goes on to the requests of its batch. *)
Definition strife_tests (phase1 phase2 phase3 cell : Z) (w : worker_msg_t) (h : host) : option (worker_msg_t * Z * bool) :=
  let cell := if (phase1 =? 1) && (cell =? 0) then 1 else cell in
  '(w, cell) ← (if (cell =? 1) && (phase2 =? 2) then w ← store_count w h; Some (w, 2) else Some (w, cell));
  Some (w, cell, (phase3 =? 0) && (cell =? 2)).

(** What [strife_hack] does with the next request of the batch. *)
Definition strife_serve (confls : list (list bool)) (rn : tpcc_runner) (sv : tpcc_server)
    : option (tpcc_runner * tpcc_server * turn_end) :=
  '(w, h, found) ← next_txn_check_strife (rmsg rn) (sv_host sv);
  let rn := rn <| rmsg := w |> in
  let sv := sv <| sv_host := h |> in
  if negb found then Some (rn, sv, Idle)
  else
    '(rn, sv, done, is_delivery) ← tpcc_execute confls rn sv;
    if negb done then Some (rn, sv, Retrying)
    else
      let w := (rmsg rn) <| batch_req_num := s32 (batch_req_num (rmsg rn) - 1) |> in
      '(w, h) ← (if negb is_delivery then reply_now_strife w (sv_host sv) else next_now_strife w (sv_host sv));
      Some (rn <| rmsg := w |>, sv <| sv_host := h |>, Answered).

(** One iteration of [strife_hack]; [cell] is the worker's [strife_phase]. *)
Definition tpcc_strife_turn (rand : Z -> Z) (fuel : nat) (phase1 phase2 phase3 : Z) (confls : list (list bool))
    (p : partition_runner) (cell : Z) (sv : tpcc_server) : option (partition_runner * Z * tpcc_server * turn_end) :=
  let rn := p_runner p in
  let '(slot_base, slot_end) := strife_slots (MAX_THREAD + 2) (runner_id rn) in
  h ← run_strife_once rand slot_base slot_end (runner_id rn) (sv_host sv);
  '(w, h) ← count_strife fuel (rmsg rn) h;
  '(w, cell, go) ← strife_tests phase1 phase2 phase3 cell w h;
  let p := p <| p_runner := rn <| rmsg := w |> |> in
  let sv := sv <| sv_host := h |> in
  if negb go then Some (p, cell, sv, Idle)
  else
    '(p, sv, retrying) ← deliver_own p sv;
    if (retrying : bool) then Some (p, cell, sv, Retrying)
    else if batch_req_num (rmsg (p_runner p)) =? 0 then Some (p, 0, sv, Idle)
    else
      '(rn, sv, e) ← strife_serve confls (p_runner p) sv;
      Some (p <| p_runner := rn |>, cell, sv, e).

End turns.
