(* ===== verification/TpccLoad.v ===== *)
(** [tpcc_prepopulator] of [benchmark/TPCC_bench.hh]: the initial database.

    The worker of warehouse 1 also fills the items and the warehouses, before
    the barrier that the others wait for.  After it each worker touches the
    tables of its own warehouse only, with its own generator, so the workers are
    run one after the other. *)

From stdpp Require Import functions.
From Stdlib Require Import String.
From S2P Require Import Prelude TpccData TpccGen.
Open Scope Z_scope.

Abbreviation loader := (tables * input_generator)%type (only parsing).

Section load.
Context {R : Mt19937}.

(** What the members of a [history_value] that are not set hold. *)
Variable garbage : Z.

(** One string in ten has "ORIGINAL" somewhere. *)
Definition place_original (data : list Z) (g : input_generator) : list Z * input_generator :=
  let '(x, g) := random 1 100 g in
  if x <=? 10 then
    let '(pos, g) := random 0 (Z.of_nat (length data) - 8) g in
    ((place (chars "ORIGINAL") (Z.to_nat pos) data).2, g)
  else (data, g).

Definition fill_item (iid : Z) (s : loader) : loader :=
  let '(t, g) := s in
  let '(im_id, g) := random 1 10000 g in
  let '(price, g) := random 100 10000 g in
  let '(name, g) := random_a_string 14 24 g in
  let '(data, g) := random_a_string 26 50 g in
  let '(data, g) := place_original (var_string 50 data) g in
  (t <| its := <[iid := {| i_im_id := im_id; i_price := price; i_name := var_string 24 name; i_data := data |}]> (its t) |>, g).

Definition fill_items (iid_begin iid_xend : Z) (s : loader) : loader := for_range iid_begin iid_xend fill_item s.

(** The address of a warehouse, a district or a customer. *)
Definition draw_address (g : input_generator) : list Z * list Z * list Z * input_generator :=
  let '(street_1, g) := random_a_string 10 20 g in
  let '(street_2, g) := random_a_string 10 20 g in
  let '(city, g) := random_a_string 10 20 g in
  (var_string 20 street_1, var_string 20 street_2, var_string 20 city, g).

Definition fill_warehouse (wid : Z) (s : loader) : loader :=
  let '(t, g) := s in
  let '(name, g) := random_a_string 6 10 g in
  let '(street_1, street_2, city, g) := draw_address g in
  let '(state, g) := random_state_name g in
  let '(zip, g) := random_zip_code g in
  let '(tax, g) := random 0 2000 g in
  (t <| whs := <[wid := {| w_name := var_string 10 name; w_street_1 := street_1; w_street_2 := street_2; w_city := city;
                           w_state := fix_string 2 state; w_zip := fix_string 9 zip; w_tax := tax; w_ytd := 30000000 |}]>
               (whs t) |>, g).

(** [num_warehouses()] is [n] in every generator. *)
Definition fill_warehouses (n : Z) (s : loader) : loader := for_range 1 (1 + n) fill_warehouse s.

(** [s_dists] *)
Definition draw_dists (g : input_generator) : list (list Z) * input_generator :=
  for_range 0 NUM_DISTRICTS_PER_WAREHOUSE (fun _ '(l, g) =>
    let '(str, g) := random_a_string 24 24 g in (l ++ [fix_string 24 str], g)) ([], g).

Definition fill_stock (wid iid : Z) (s : loader) : loader :=
  let '(t, g) := s in
  let '(quantity, g) := random 10 100 g in
  let '(dists, g) := draw_dists g in
  let '(data, g) := random_a_string 26 50 g in
  let '(data, g) := place_original (var_string 50 data) g in
  (t <| sts := <[(wid, iid) := {| s_quantity := quantity; s_dists := dists; s_ytd := 0; s_order_cnt := 0;
                                  s_remote_cnt := 0; s_data := data |}]> (sts t) |>, g).

Definition fill_district (wid did : Z) (s : loader) : loader :=
  let '(t, g) := s in
  let '(name, g) := random_a_string 6 10 g in
  let '(street_1, street_2, city, g) := draw_address g in
  let '(state, g) := random_state_name g in
  let '(zip, g) := random_zip_code g in
  let '(tax, g) := random 0 2000 g in
  (t <| dts := <[(wid, did) := {| d_name := var_string 10 name; d_street_1 := street_1; d_street_2 := street_2;
                                  d_city := city; d_state := fix_string 2 state; d_zip := fix_string 9 zip; d_tax := tax;
                                  d_ytd := 3000000; d_next_o_id := 3001 |}]> (dts t) |>, g).

Definition expand_warehouse (wid : Z) (s : loader) : loader :=
  let s := for_range 1 (1 + NUM_ITEMS) (fill_stock wid) s in
  for_range 1 (1 + NUM_DISTRICTS_PER_WAREHOUSE) (fill_district wid) s.

(** [cids_map] *)
Abbreviation names := (gmap customer_idx_key (list Z)) (only parsing).

Definition fill_customer (wid did cid : Z) (s : loader * names) : loader * names :=
  let '((t, g), cids) := s in
  let '(num, g) := if cid <=? 1000 then (cid - 1, g) else gen_customer_last_name_num false g in
  let last := var_string 16 (default [] (to_last_name num)) in
  let '(first, g) := random_a_string 8 16 g in
  let '(street_1, street_2, city, g) := draw_address g in
  let '(zip, g) := random_zip_code g in
  let '(phone, g) := random_n_string 16 16 g in
  let '(since, g) := gen_date g in
  let '(x, g) := random 1 100 g in
  let '(discount, g) := random 0 5000 g in
  let '(data, g) := random_a_string 300 500 g in
  let cv := {|
    c_last := last; c_middle := fix_string 2 (chars "OE"); c_first := var_string 16 first; c_street_1 := street_1;
    c_street_2 := street_2; c_city := city; c_state := fix_string 2 []; c_zip := fix_string 9 zip;
    c_phone := fix_string 16 phone; c_since := since;
    c_credit := fix_string 2 (chars (if x <=? 10 then "BC" else "GC")); c_credit_lim := 5000000; c_discount := discount;
    c_balance := -1000; c_ytd_payment := 1000; c_payment_cnt := 1; c_delivery_cnt := 0; c_data := fix_string 500 data |} in
  let k := idx_key wid did last in
  ((t <| cus := <[(wid, did, cid) := cv]> (cus t) |>, g), <[k := cid :: default [] (cids !! k)]> cids).

Definition expand_districts (wid : Z) (s : loader) : loader :=
  let '((t, g), cids) :=
    for_range 1 (1 + NUM_DISTRICTS_PER_WAREHOUSE) (fun did =>
      for_range 1 (1 + NUM_CUSTOMERS_PER_DISTRICT) (fill_customer wid did)) (s, ∅) in
  (t <| cni := cids ∪ cni t |>, g).

(** The state of [expand_customers] has the counter of the history table. *)
Definition fill_history (wid did cid : Z) (s : loader * Z) : loader * Z :=
  let '((t, g), key_gen) := s in
  let '(date, g) := gen_date g in
  let '(data, g) := random_a_string 12 24 g in
  let hk := (u32 wid, u32 did, cid, key_gen) in
  ((t <| hts := <[(wid, hk) := {| h_c_id := cid; h_c_d_id := did; h_c_w_id := wid; h_d_id := garbage; h_w_id := garbage;
                                  h_date := date; h_amount := 1000; h_data := var_string 24 data |}]> (hts t) |>, g),
   u64 (key_gen + 1)).

Definition fill_line (wid did oid entry_date on : Z) (s : loader) : loader :=
  let '(t, g) := s in
  let '(i_id, g) := random 1 100000 g in
  let '(amount, g) := if oid <? 2101 then (0, g) else random 1 999999 g in
  let '(info, g) := random_a_string 24 24 g in
  (t <| ols := <[(wid, did, oid, on) := {|
     ol_i_id := i_id; ol_supply_w_id := wid; ol_delivery_d := if oid <? 2101 then entry_date else 0; ol_quantity := 5;
     ol_amount := amount; ol_dist_info := fix_string 24 info |}]> (ols t) |>, g).

Definition fill_order (wid did : Z) (cid_perm : list Z) (oid : Z) (s : loader) : loader :=
  let '(t, g) := s in
  let '(ol_count, g) := random 5 15 g in
  let '(entry_date, g) := gen_date g in
  let '(carrier, g) := if oid <? 2101 then random 1 10 g else (0, g) in
  let c := default 0 (cid_perm !! Z.to_nat (oid - 1)) in
  let t := t <| ods := <[(wid, did, oid) := {| o_c_id := c; o_carrier_id := carrier; o_entry_d := entry_date;
                                              o_ol_cnt := ol_count; o_all_local := 1 |}]> (ods t) |>
             <| oci := <[(wid, did, c, oid) := tt]> (oci t) |> in
  let '(t, g) := for_range 1 (1 + ol_count) (fill_line wid did oid entry_date) (t, g) in
  (if 2101 <=? oid then t <| nos := <[(wid, did, oid) := tt]> (nos t) |> else t, g).

Definition fill_orders (wid did : Z) (s : loader) : loader :=
  let '(t, g) := s in
  let '(cid_perm, g) := random_shuffle (seqZ 1 NUM_CUSTOMERS_PER_DISTRICT) g in
  for_range 1 (1 + NUM_CUSTOMERS_PER_DISTRICT) (fill_order wid did cid_perm) (t, g).

Definition expand_customers (wid : Z) (s : loader * Z) : loader * Z :=
  let '(s, k) := for_range 1 (1 + NUM_DISTRICTS_PER_WAREHOUSE) (fun did =>
    for_range 1 (1 + NUM_CUSTOMERS_PER_DISTRICT) (fill_history wid did)) s in
  (for_range 1 (1 + NUM_DISTRICTS_PER_WAREHOUSE) (fill_orders wid) s, k).

(** [tpcc_prepopulator::run] of worker [worker_id] of [n]. *)
Definition prepopulator_run (n worker_id : Z) (db : tpcc_db) : tpcc_db :=
  let g := {| ig_seed := worker_id; ig_draws := 0; num_whs_ := n |} in
  let s := if worker_id =? 1 then fill_warehouses n (fill_items 1 100001 (tbl db, g)) else (tbl db, g) in
  let s := expand_districts worker_id (expand_warehouse worker_id s) in
  let '((t, _), k) := expand_customers worker_id (s, (key_gen (gens db)).[worker_id]) in
  db <| tbl := t |> <| gens := (gens db) <| key_gen := <[worker_id := k]> (key_gen (gens db)) |> |>.

Definition prepopulate_db (n : Z) : tpcc_db := for_range 1 (1 + n) (prepopulator_run n) tpcc_db_init.

End load.
