(* ===== verification/TpccKeys.v ===== *)
(** The order of the keys of the ordered indexes, and what a scan visits.

    The indexes compare the bytes of the keys; the fields are stored in
    big-endian order ([bswap]) so that this is the order of the fields. *)

From stdpp Require Import functions sorting.
From S2P Require Import Prelude TpccData TpccIndex.

(** * Bytes *)

Lemma le_bytes_length n z : length (le_bytes n z) = n.
Proof. revert z. induction n as [|n IH]; intros z; [done|]. cbn. by rewrite IH. Qed.

Lemma be_bytes_S n z : be_bytes (S n) z = be_bytes n (z / 256) ++ [z mod 256].
Proof. unfold be_bytes. by rewrite <-reverse_cons. Qed.

(** Comparing the bytes compares the numbers, then what follows. *)
Lemma str_leb_be_bytes n x y a b :
  0 <= x < 256 ^ Z.of_nat n -> 0 <= y < 256 ^ Z.of_nat n ->
  str_leb (be_bytes n x ++ a) (be_bytes n y ++ b) = (x <? y) || ((x =? y) && str_leb a b).
Proof.
  revert x y a b. induction n as [|n IH]; intros x y a b Hx Hy.
  - change (256 ^ Z.of_nat 0) with 1 in *. replace x with 0 by lia. by replace y with 0 by lia.
  - rewrite Nat2Z.inj_succ, Z.pow_succ_r in Hx, Hy by lia. rewrite !be_bytes_S, <-!app_assoc. cbn [app].
    rewrite IH by (split; [apply Z.div_pos; lia|apply Z.div_lt_upper_bound; lia]). cbn [str_leb].
    pose proof (Z.div_mod x 256). pose proof (Z.div_mod y 256).
    pose proof (Z.mod_pos_bound x 256). pose proof (Z.mod_pos_bound y 256).
    destruct (Z.ltb_spec (x / 256) (y / 256)), (Z.ltb_spec x y), (Z.eqb_spec (x / 256) (y / 256)), (Z.eqb_spec x y),
      (Z.ltb_spec (x mod 256) (y mod 256)), (Z.eqb_spec (x mod 256) (y mod 256)); cbn; done || lia.
Qed.

Lemma str_leb_refl a : str_leb a a = true.
Proof. induction a as [|x a IH]; [done|]. cbn. by rewrite Z.eqb_refl, IH, orb_true_r. Qed.

Lemma str_leb_total a b : str_leb a b = true \/ str_leb b a = true.
Proof.
  revert b. induction a as [|x a IH]; intros [|y b]; [by left|by left|by right|]. cbn.
  destruct (Z.ltb_spec x y), (Z.ltb_spec y x), (Z.eqb_spec x y), (Z.eqb_spec y x); cbn; try lia; auto.
Qed.

Lemma str_leb_trans a b c : str_leb a b = true -> str_leb b c = true -> str_leb a c = true.
Proof.
  revert b c. induction a as [|x a IH]; intros [|y b] [|z c]; try done. cbn. intros H1 H2.
  apply orb_true_iff in H1, H2. rewrite andb_true_iff, Z.ltb_lt, Z.eqb_eq in H1, H2.
  apply orb_true_iff. rewrite andb_true_iff, Z.ltb_lt, Z.eqb_eq.
  destruct H1 as [H1|[-> H1]], H2 as [H2|[-> H2]]; [left; lia|by left|by left|]. right. eauto.
Qed.

(** * Keys *)

Definition u64_key (l : list Z) : Prop := Forall (fun z => 0 <= z < 2 ^ 64) l.

(** The order of the fields, the first one first. *)
Fixpoint lex_leb (a b : list Z) : bool :=
  match a, b with
  | x :: a, y :: b => (x <? y) || ((x =? y) && lex_leb a b)
  | _, _ => true
  end.

Definition fields3 (k : order_key) : list Z := [k.1.1; k.1.2; k.2].
Definition fields4 (k : orderline_key) : list Z := [k.1.1.1; k.1.1.2; k.1.2; k.2].

Lemma str_leb_fields a b :
  length a = length b -> u64_key a -> u64_key b ->
  str_leb (mjoin (be_bytes 8 <$> a)) (mjoin (be_bytes 8 <$> b)) = lex_leb a b.
Proof.
  revert b. induction a as [|x a IH]; intros [|y b] Hl Ha Hb; try done. apply Forall_cons in Ha as [Hx Ha], Hb as [Hy Hb].
  cbn [fmap list_fmap mjoin list_join lex_leb]. rewrite str_leb_be_bytes by exact Hx || exact Hy.
  rewrite <-IH; [done|by injection Hl|done|done].
Qed.

Lemma key_leb_order (a b : order_key) :
  u64_key (fields3 a) -> u64_key (fields3 b) -> key_leb a b = lex_leb (fields3 a) (fields3 b).
Proof.
  intros Ha Hb. rewrite <-!str_leb_fields by done. destruct a as [[? ?] ?], b as [[? ?] ?].
  unfold key_leb, key_str, order_key_str, fields3. cbn [fst snd fmap list_fmap mjoin list_join]. by rewrite !app_nil_r.
Qed.

Lemma key_leb_line (a b : orderline_key) :
  u64_key (fields4 a) -> u64_key (fields4 b) -> key_leb a b = lex_leb (fields4 a) (fields4 b).
Proof.
  intros Ha Hb. rewrite <-!str_leb_fields by done. destruct a as [[[? ?] ?] ?], b as [[[? ?] ?] ?].
  unfold key_leb, key_str, orderline_key_str, fields4. cbn [fst snd fmap list_fmap mjoin list_join]. by rewrite !app_nil_r.
Qed.

(** the byte strings the indexes compare are in the order of the keys'
    fields, warehouse first: [memcmp] on the big-endian keys of orders and order
    lines is the lexicographic order of their unsigned 64-bit fields. *)
Theorem key_bytes_ordered (a b : order_key) (a' b' : orderline_key) :
  u64_key (fields3 a) -> u64_key (fields3 b) -> u64_key (fields4 a') -> u64_key (fields4 b') ->
  key_leb a b = lex_leb (fields3 a) (fields3 b) /\ key_leb a' b' = lex_leb (fields4 a') (fields4 b').
Proof. intros. by split; [apply key_leb_order|apply key_leb_line]. Qed.

Lemma key_bytes_ordered_witness :
  key_leb (1, 2, 255) (1, 2, 256) = true /\ key_leb (1, 2, 3000, 9) (1, 2, 255, 10) = false.
Proof.
  assert (u64_key [1; 2; 255] /\ u64_key [1; 2; 256] /\ u64_key [1; 2; 3000; 9] /\ u64_key [1; 2; 255; 10]) as (H1 & H2 & H3 & H4)
    by (repeat split; unfold u64_key; repeat constructor; lia).
  destruct (key_bytes_ordered (1, 2, 255) (1, 2, 256) (1, 2, 3000, 9) (1, 2, 255, 10) H1 H2 H3 H4) as [-> ->].
  by vm_compute.
Defined.

(** * Scans *)

Section scan.
Context {K V : Type} `{Countable K, KeyStr K}.
Implicit Types (m : gmap K V) (b e k : K).

Definition row_le (x y : K * V) : Prop := key_leb x.1 y.1.
Definition row_ge (x y : K * V) : Prop := key_leb y.1 x.1.

#[export] Instance row_le_total : Total row_le.
Proof. intros x y. unfold row_le. destruct (str_leb_total (key_str x.1) (key_str y.1)); [left|right]; by apply Is_true_true. Qed.
#[export] Instance row_ge_total : Total row_ge.
Proof. intros x y. destruct (row_le_total x y); [by right|by left]. Qed.
#[export] Instance row_le_trans : Transitive row_le.
Proof. intros x y z H1%Is_true_true H2%Is_true_true. apply Is_true_true. by eapply str_leb_trans. Qed.
#[export] Instance row_ge_trans : Transitive row_ge.
Proof. intros x y z H1 H2. by apply (row_le_trans z y x). Qed.

(** The keys a scan visits. *)
Definition in_scan (rev : bool) b e k : Prop :=
  if rev then key_leb k b = true /\ key_leb k e = false else key_leb b k = true /\ key_leb e k = false.

Lemma rows_between_elem rev b e m k v :
  (k, v) ∈ rows_between rev b e m <-> m !! k = Some v /\ in_scan rev b e k.
Proof.
  unfold rows_between, in_scan. destruct rev; rewrite merge_sort_Permutation, list_elem_of_filter, elem_of_map_to_list;
    cbn [fst]; rewrite Is_true_true, andb_true_iff, negb_true_iff; tauto.
Qed.

Lemma rows_between_sorted b e m : StronglySorted row_le (rows_between false b e m).
Proof. exact (StronglySorted_merge_sort row_le _). Qed.

Lemma rows_between_rsorted b e m : StronglySorted row_ge (rows_between true b e m).
Proof. exact (StronglySorted_merge_sort row_ge _). Qed.

(** A scan for one row finds the first one of its range, if there is one. *)
Lemma scan_first rev b e m :
  match last (take 1 (rows_between rev b e m)) with
  | Some (k, v) => m !! k = Some v /\ in_scan rev b e k /\
      forall k', is_Some (m !! k') -> in_scan rev b e k' ->
        (if rev then key_leb k' k else key_leb k k') = true
  | None => forall k', is_Some (m !! k') -> ~ in_scan rev b e k'
  end.
Proof.
  pose proof (rows_between_elem rev b e m) as HE.
  destruct (rows_between rev b e m) as [|[k v] rows] eqn:Er; cbn.
  - intros k' [v' Hk'] Hs. specialize (HE k' v'). rewrite elem_of_nil in HE. tauto.
  - destruct (proj1 (HE k v)) as [H1 H2]; [by left|]. split; [done|]. split; [done|]. intros k' [v' Hk'] Hs.
    assert ((k', v') ∈ (k, v) :: rows) as Hin by (by apply HE). apply elem_of_cons in Hin as [[= -> ->]|Hin].
    { destruct rev; apply str_leb_refl. }
    destruct rev; [pose proof (rows_between_rsorted b e m) as Hst|pose proof (rows_between_sorted b e m) as Hst];
      rewrite Er in Hst; apply StronglySorted_cons in Hst as [Hst _]; rewrite Forall_forall in Hst;
      by apply Is_true_true, (Hst (k', v')).
Qed.
End scan.

(** The scans of the transactions: one district's new orders, one customer's
    orders from the last one, one order's lines. *)
Ltac solve_scan :=
  intros; unfold in_scan; rewrite !key_leb_order || rewrite !key_leb_line;
  [cbn [lex_leb fields3 fields4 fst snd]| unfold u64_key; repeat constructor; cbn; lia ..];
  rewrite ?orb_true_iff, ?orb_false_iff, ?andb_true_iff, ?andb_false_iff, ?Z.ltb_lt, ?Z.ltb_ge, ?Z.eqb_eq, ?Z.eqb_neq;
  repeat (rewrite ?orb_true_iff, ?orb_false_iff, ?andb_true_iff, ?andb_false_iff, ?Z.ltb_lt, ?Z.ltb_ge, ?Z.eqb_eq, ?Z.eqb_neq);
  lia.

Definition word (z : Z) : Prop := 0 <= z < 2 ^ 64.

Lemma in_scan_district w d lo hi w' d' o :
  word w -> word d -> word lo -> word hi -> word w' -> word d' -> word o ->
  in_scan false (w, d, lo) (w, d, hi) (w', d', o) <-> w' = w /\ d' = d /\ lo <= o < hi.
Proof. unfold word. solve_scan. Qed.

Lemma in_scan_lines w d o lo hi w' d' o' k :
  word w -> word d -> word o -> word lo -> word hi -> word w' -> word d' -> word o' -> word k ->
  in_scan false (w, d, o, lo) (w, d, o, hi) (w', d', o', k) <-> w' = w /\ d' = d /\ o' = o /\ lo <= k < hi.
Proof. unfold word. solve_scan. Qed.

Lemma in_scan_customer w d c lo hi w' d' c' o :
  word w -> word d -> word c -> word lo -> word hi -> word w' -> word d' -> word c' -> word o ->
  in_scan true (w, d, c, hi) (w, d, c, lo) (w', d', c', o) <-> w' = w /\ d' = d /\ c' = c /\ lo < o <= hi.
Proof. unfold word. solve_scan. Qed.

(** A scan whose end is not after its beginning visits nothing. *)
Lemma rows_between_empty {K V} `{Countable K, KeyStr K} (b e : K) (m : gmap K V) :
  key_leb e b = true -> rows_between false b e m = [].
Proof.
  intros Hle. destruct (rows_between false b e m) as [|[k v] rows] eqn:Er; [done|].
  destruct (proj1 (rows_between_elem false b e m k v)) as [_ [H1 H2]]; [rewrite Er; by left|].
  unfold key_leb in *. by rewrite (str_leb_trans _ _ _ Hle H1) in H2.
Qed.
