(* ===== verification/TpccInv.v ===== *)
(** The invariants of the TPC-C database: the types and ranges of its rows
    ([well_formed]) and the consistency conditions between its tables
    ([consistent]). *)

From stdpp Require Import functions.
From S2P Require Import Prelude TpccData TpccGen TpccIndex TpccTxn.

(** * Sums over a table *)

Definition sum_map {K V} `{Countable K} (f : K -> V -> Z) (m : gmap K V) : Z :=
  sumZ (fun kv => f kv.1 kv.2) (map_to_list m).

Section sums.
Context {K V : Type} `{Countable K}.
Implicit Types (f g : K -> V -> Z) (m : gmap K V).

Lemma sumZ_perm {A} (f : A -> Z) l l' : Permutation l l' -> sumZ f l = sumZ f l'.
Proof. induction 1; rewrite ?sumZ_cons; lia. Qed.

Lemma sum_map_empty f : sum_map f ∅ = 0.
Proof. unfold sum_map. by rewrite map_to_list_empty. Qed.

Lemma sum_map_insert f m k v : m !! k = None -> sum_map f (<[k := v]> m) = f k v + sum_map f m.
Proof. intros Hk. unfold sum_map. by rewrite (sumZ_perm _ _ _ (map_to_list_insert m k v Hk)), sumZ_cons. Qed.

Lemma sum_map_update f m k v v' :
  m !! k = Some v -> sum_map f (<[k := v']> m) = sum_map f m - f k v + f k v'.
Proof.
  intros Hk. rewrite <-(insert_delete_eq m k v'), sum_map_insert by apply lookup_delete_eq.
  rewrite <-(insert_delete_id m k v Hk) at 2. rewrite sum_map_insert by apply lookup_delete_eq. lia.
Qed.

Lemma sum_map_ext f g m :
  (forall k v, m !! k = Some v -> f k v = g k v) -> sum_map f m = sum_map g m.
Proof. intros E. apply sumZ_ext. intros [k v] Hk%elem_of_map_to_list. by apply E. Qed.

Lemma sum_map_zero f m : (forall k v, m !! k = Some v -> f k v = 0) -> sum_map f m = 0.
Proof.
  intros E. rewrite (sum_map_ext f (fun _ _ => 0)) by done. unfold sum_map.
  induction (map_to_list m); rewrite ?sumZ_cons; lia || done.
Qed.

(** The keys outside of [ks] add nothing. *)
Lemma sum_map_keys f m ks :
  NoDup ks -> (forall k v, m !! k = Some v -> k ∉ ks -> f k v = 0) ->
  sum_map f m = sumZ (fun k => default 0 (f k <$> m !! k)) ks.
Proof.
  intros Hnd. revert m. induction Hnd as [|k ks Hk Hnd IH]; intros m Hf.
  - apply sum_map_zero. intros k v Hv. apply (Hf k v Hv). apply not_elem_of_nil.
  - rewrite sumZ_cons. destruct (m !! k) as [v|] eqn:Hv.
    + rewrite <-(insert_delete_id m k v Hv) at 1. rewrite sum_map_insert by apply lookup_delete_eq. cbn. f_equal.
      rewrite IH.
      * apply sumZ_ext. intros k' Hk'. by rewrite lookup_delete_ne by (intros ->; done).
      * intros k' v' [Hne Hv']%lookup_delete_Some Hk'. apply Hf; [done|]. rewrite not_elem_of_cons. by split.
    + cbn. apply IH. intros k' v' Hv' Hk'. apply Hf; [done|]. rewrite not_elem_of_cons. split; [congruence|done].
Qed.
End sums.

Lemma alter_insert_of {K V} `{Countable K} (f : V -> V) (m : gmap K V) k v :
  m !! k = Some v -> alter f k m = <[k := f v]> m.
Proof.
  intros Hk. apply map_eq. intros k'. destruct (decide (k = k')) as [<-|Hne].
  - by rewrite lookup_alter_eq, lookup_insert_eq, Hk.
  - by rewrite lookup_alter_ne, lookup_insert_ne.
Qed.

(** * Integers *)

Lemma wrap_s64 z : wrap 64 (s64 z) = wrap 64 z.
Proof. unfold wrap, s64. rewrite Zminus_mod_idemp_l. f_equal. lia. Qed.

Lemma wrap64_add a b c d : wrap 64 a = wrap 64 c -> wrap 64 b = wrap 64 d -> wrap 64 (a + b) = wrap 64 (c + d).
Proof. intros H1 H2. rewrite <-(wrap_add_l 64 a), <-(wrap_add_r 64), H1, H2, wrap_add_r, wrap_add_l by lia. done. Qed.

Lemma wrap64_shift a b d : wrap 64 a = wrap 64 b -> wrap 64 (a + d) = wrap 64 (b + d).
Proof. intros. by apply wrap64_add. Qed.

(** * Types and ranges *)

Section invariants.
Variables (n : Z) (t : tables).

Definition district_ok (w d : Z) : Prop := 1 <= w <= n /\ 1 <= d <= NUM_DISTRICTS_PER_WAREHOUSE.

(** A database of [n] warehouses. *)
Record well_formed : Prop := {
  wf_n : 0 <= n <= max_whs;
  wf_next : forall k dv, dts t !! k = Some dv -> 0 <= d_next_o_id dv < 2 ^ 64;
  wf_whs : forall w, is_Some (whs t !! w) <-> 1 <= w <= n;
  wf_dts : forall w d, is_Some (dts t !! (w, d)) <-> district_ok w d;
  wf_cus : forall w d c, is_Some (cus t !! (w, d, c)) <->
    district_ok w d /\ 1 <= c <= NUM_CUSTOMERS_PER_DISTRICT;
  wf_its : forall i, is_Some (its t !! i) <-> 1 <= i <= NUM_ITEMS;
  wf_item : forall i iv, its t !! i = Some iv -> 1 <= i_im_id iv <= 10000 /\ 100 <= i_price iv <= 10000;
  wf_sts : forall w i, is_Some (sts t !! (w, i)) <-> 1 <= w <= n /\ 1 <= i <= NUM_ITEMS;
  wf_stock : forall k sv, sts t !! k = Some sv -> length (s_dists sv) = 10%nat /\ 10 <= s_quantity sv <= 100;
  wf_order : forall w d o ov, ods t !! (w, d, o) = Some ov ->
    district_ok w d /\ 1 <= o < uint64_max /\ 1 <= o_c_id ov <= NUM_CUSTOMERS_PER_DISTRICT /\
    1 <= o_ol_cnt ov <= 15 /\ 0 <= o_carrier_id ov <= 10;
  wf_line : forall k l, ols t !! k = Some l -> 0 <= ol_amount l <= 999999;
  wf_cni : forall w d num last, district_ok w d -> to_last_name num = Some last ->
    exists c_ids, cni t !! idx_key w d last = Some c_ids /\ c_ids <> [] /\
      forall c, c ∈ c_ids <-> exists cv, cus t !! (w, d, c) = Some cv /\ c_last cv = last }.

(** * Consistency *)

(** What an order has brought its customer's balance: the amounts of its lines,
    once it is delivered. *)
Definition order_total (w d o : Z) (ov : order_value) : Z :=
  sumZ (fun k => default 0 (ol_amount <$> ols t !! (w, d, o, k))) (seqZ 1 (o_ol_cnt ov)).

Definition delivered_total (w d c : Z) : Z :=
  sum_map (fun '(w', d', o) ov =>
    if decide (w' = w /\ d' = d /\ o_c_id ov = c /\ o_carrier_id ov <> 0) then order_total w d o ov else 0) (ods t).

(** The revenue of a warehouse, from its districts. *)
Definition districts_ytd (w : Z) : Z := sum_map (fun k dv => if k.1 =? w then d_ytd dv else 0) (dts t).

(** What the history says a customer has paid. *)
Definition paid_total (w d c : Z) : Z :=
  sum_map (fun _ hv => if decide (h_c_w_id hv = w /\ h_c_d_id hv = d /\ h_c_id hv = c) then h_amount hv else 0) (hts t).

Record consistent : Prop := {
  cs_ytd : forall w wv, whs t !! w = Some wv -> wrap 64 (w_ytd wv) = wrap 64 (districts_ytd w);
  cs_lines : forall w d o ov, ods t !! (w, d, o) = Some ov ->
    forall k, is_Some (ols t !! (w, d, o, k)) <-> 1 <= k <= o_ol_cnt ov;
  cs_line_order : forall w d o k, is_Some (ols t !! (w, d, o, k)) -> is_Some (ods t !! (w, d, o));
  cs_new : forall w d o, is_Some (nos t !! (w, d, o)) <->
    exists ov, ods t !! (w, d, o) = Some ov /\ o_carrier_id ov = 0;
  cs_index : forall w d c o, is_Some (oci t !! (w, d, c, o)) <->
    exists ov, ods t !! (w, d, o) = Some ov /\ o_c_id ov = c;
  cs_date : forall w d o k ov l, ods t !! (w, d, o) = Some ov -> ols t !! (w, d, o, k) = Some l ->
    (ol_delivery_d l = 0 <-> o_carrier_id ov = 0);
  cs_balance : forall w d c cv, cus t !! (w, d, c) = Some cv ->
    wrap 64 (c_balance cv + c_ytd_payment cv) = wrap 64 (delivered_total w d c);
  cs_history : forall w d c cv, cus t !! (w, d, c) = Some cv ->
    wrap 64 (c_ytd_payment cv) = wrap 64 (paid_total w d c) }.

End invariants.

(** The rows of an order that is in the tables. *)
Lemma consistent_line t w d o ov k :
  consistent t -> ods t !! (w, d, o) = Some ov -> 1 <= k <= o_ol_cnt ov -> exists l, ols t !! (w, d, o, k) = Some l.
Proof. intros HC Ho Hk. by apply (cs_lines _ HC _ _ _ _ Ho). Qed.

(** An order that is not in the orders is in no table. *)
Lemma consistent_fresh t w d o :
  consistent t -> ods t !! (w, d, o) = None ->
  nos t !! (w, d, o) = None /\ (forall c, oci t !! (w, d, c, o) = None) /\ forall k, ols t !! (w, d, o, k) = None.
Proof.
  intros HC Ho. split_and!; [|intros c|intros k]; apply eq_None_not_Some; intros H.
  - apply (cs_new _ HC) in H as (? & ? & _). congruence.
  - apply (cs_index _ HC) in H as (? & ? & _). congruence.
  - apply (cs_line_order _ HC) in H as [? ?]. congruence.
Qed.

(** The total of an order depends on its own lines only. *)
Lemma order_total_ext t t' w d o ov :
  (forall k, 1 <= k <= o_ol_cnt ov -> ol_amount <$> ols t' !! (w, d, o, k) = ol_amount <$> ols t !! (w, d, o, k)) ->
  order_total t' w d o ov = order_total t w d o ov.
Proof. intros H. apply sumZ_ext. intros k Hk%elem_of_seqZ. by rewrite H by lia. Qed.

(** Changing neither the orders nor the amounts leaves the totals. *)
Lemma delivered_total_ext t t' w d c :
  ods t' = ods t ->
  (forall k, ol_amount <$> ols t' !! k = ol_amount <$> ols t !! k) ->
  delivered_total t' w d c = delivered_total t w d c.
Proof.
  intros Ho Hl. unfold delivered_total. rewrite Ho. apply sum_map_ext. intros [[w' d'] o] ov _.
  case_decide; [|done]. by apply order_total_ext.
Qed.

Lemma delivered_total_insert t t' w d c w' d' o ov :
  ods t !! (w', d', o) = None -> ods t' = <[(w', d', o) := ov]> (ods t) -> o_carrier_id ov = 0 ->
  (forall k, k.1 <> (w', d', o) -> ol_amount <$> ols t' !! k = ol_amount <$> ols t !! k) ->
  delivered_total t' w d c = delivered_total t w d c.
Proof.
  intros Hf Ho Hc Hl. unfold delivered_total. rewrite Ho, sum_map_insert by done.
  rewrite decide_False by naive_solver. rewrite Z.add_0_l. apply sum_map_ext. intros [[w1 d1] o1] ov1 H1.
  case_decide as Hd; [|done]. apply order_total_ext. intros k _. apply Hl. cbn.
  destruct Hd as (-> & -> & _). intros [= -> -> ->]. by rewrite Hf in H1.
Qed.

(** Marking an order as delivered adds its total to its customer's. *)
Lemma delivered_total_mark t t' w d o ov x w' d' c :
  ods t !! (w, d, o) = Some ov -> o_carrier_id ov = 0 -> x <> 0 ->
  ods t' = <[(w, d, o) := ov <| o_carrier_id := x |>]> (ods t) ->
  (forall k, ol_amount <$> ols t' !! k = ol_amount <$> ols t !! k) ->
  delivered_total t' w' d' c = delivered_total t w' d' c +
    if decide (w' = w /\ d' = d /\ c = o_c_id ov) then order_total t w d o ov else 0.
Proof.
  intros Ho Hc Hx Ho' Hl. unfold delivered_total. rewrite Ho', (sum_map_update _ _ _ _ _ Ho).
  rewrite (sum_map_ext _ (fun '(w0, d0, o0) ov0 => if decide (w0 = w' /\ d0 = d' /\ o_c_id ov0 = c /\ o_carrier_id ov0 <> 0)
    then order_total t w' d' o0 ov0 else 0) (ods t)).
  2:{ intros [[w0 d0] o0] ov0 _. case_decide; [|done]. by apply order_total_ext. }
  rewrite (decide_False (P := w = w' /\ _ /\ _ /\ o_carrier_id ov <> 0)) by naive_solver.
  destruct (decide (w' = w /\ d' = d /\ c = o_c_id ov)) as [(-> & -> & ->)|Hne].
  - rewrite decide_True by done. rewrite Z.sub_0_r. f_equal.
    transitivity (order_total t' w d o ov); [done|by apply order_total_ext].
  - rewrite decide_False; [lia|]. cbn. naive_solver.
Qed.

(** * Customers by number or by name *)

Definition chosen_customer (t : tables) (by_name : bool) (w d : Z) (last : list Z) (c : Z) : option Z :=
  if by_name then cni t !! idx_key w d last ≫= middle_customer else if c =? 0 then None else Some c.

Definition customer_valid (by_name : bool) (last : list Z) (c : Z) : Prop :=
  if by_name then exists num, to_last_name num = Some last else 1 <= c <= NUM_CUSTOMERS_PER_DISTRICT.

Lemma middle_customer_some l : l <> [] -> exists c, middle_customer l = Some c /\ c ∈ l.
Proof.
  intros Hl. unfold middle_customer. set (rows := take 100 l).
  assert (length rows <> 0%nat) as Hr by (unfold rows; rewrite length_take; destruct l; cbn; [done|lia]).
  destruct (lookup_lt_is_Some_2 rows (length rows / 2)) as [c Hc]; [apply Nat.div_lt; lia|].
  exists c. split; [done|]. apply list_elem_of_lookup_2 in Hc. by apply elem_of_take in Hc as (i & Hi%list_elem_of_lookup_2 & _).
Qed.

(** By name, the customer that is chosen has the name. *)
Lemma chosen_customer_ok n t by_name w d last c :
  well_formed n t -> district_ok n w d -> customer_valid by_name last c -> exists c' cv,
    chosen_customer t by_name w d last c = Some c' /\ cus t !! (w, d, c') = Some cv /\
    (by_name = true -> c_last cv = last).
Proof.
  intros HW Hh Hc. unfold chosen_customer. destruct by_name.
  - destruct Hc as [num Hn]. destruct (wf_cni _ _ HW _ _ _ _ Hh Hn) as (l & Hl & Hne & Hin).
    destruct (middle_customer_some l Hne) as (c' & Hm & Hc). apply Hin in Hc as (cv & Hcv & Hlast).
    exists c', cv. rewrite Hl. cbn. by rewrite Hm.
  - destruct (proj2 (wf_cus _ _ HW _ _ c) (conj Hh Hc)) as [cv Hcv]. exists c, cv. cbn in Hc.
    rewrite (proj2 (Z.eqb_neq _ _)) by lia. done.
Qed.
