(* ===== verification/TpccLogic.v ===== *)
(** A program logic for the attempts of [TpccIndex].

    [wpc calm t m c Q E]: over the committed tables [t], from the core state [c]
    and whatever conflicts there are, [m] has no undefined behaviour, ends with a
    result and a core state in [Q] or aborts in one in [E], and leaves [t] as it
    is.  The core state is what an attempt's effect consists of: its buffered
    writes, the counters and the variables.  With [calm = true] it is about the
    attempts that meet no conflict. *)

From stdpp Require Import functions.
From S2P Require Import Prelude Feature TpccData TpccIndex.

Record core (L : Type) := Core { c_pend : tables; c_gens : generators; c_loc : L }.
Arguments Core {L} c_pend c_gens c_loc.
Arguments c_pend {L} c.
Arguments c_gens {L} c.
Arguments c_loc {L} c.

Definition core_of {L} (s : txs L) : core L := Core (pend s) (tgens s) (locals s).

(** The tables with index [ix] changed by [f]. *)
Definition alter_tbl {K V} `{Countable K} (ix : tables -> gmap K V) {ST : Setter ix}
    (f : gmap K V -> gmap K V) (t : tables) : tables := set_field ix f t.
Arguments alter_tbl {K V _ _} ix {ST} f t /.

Section logic.
Context {L : Type} (calm : bool) (t : tables).
Implicit Types (c : core L) (E : core L -> Prop).

Definition wpc {A} (m : txn L A) c (Q : A -> core L -> Prop) E : Prop :=
  forall ab confl, (calm = true -> confl = []) ->
    match m (Txs t (c_pend c) (c_gens c) ab (c_loc c) confl) with
    | Done a s => snap s = t /\ (calm = true -> conflicts s = []) /\ Q a (core_of s)
    | Aborted s => snap s = t /\ E (core_of s)
    | Undefined => False
    end.

Lemma wpc_ret {A} (a : A) c (Q : A -> core L -> Prop) E : Q a c -> wpc (mret a) c Q E.
Proof. intros HQ ab confl Hc. by destruct c. Qed.

Lemma wpc_bind {A B} (m : txn L A) (k : A -> txn L B) c (Q : B -> core L -> Prop) E :
  wpc m c (fun a c' => wpc (k a) c' Q E) E -> wpc (m ≫= k) c Q E.
Proof.
  intros Hm ab confl Hc. specialize (Hm ab confl Hc). unfold mbind, txn_bind.
  destruct (m _) as [a s|s|]; [|done|done]. destruct Hm as (Hs & Hc' & Hk).
  destruct s as [sn p g ab' l confl']. cbn in Hs. subst sn. exact (Hk ab' confl' Hc').
Qed.

Lemma wpc_mono {A} (m : txn L A) c (Q Q' : A -> core L -> Prop) E E' :
  wpc m c Q E -> (forall a c', Q a c' -> Q' a c') -> (forall c', E c' -> E' c') -> wpc m c Q' E'.
Proof.
  intros Hm HQ HE ab confl Hc. specialize (Hm ab confl Hc). destruct (m _) as [a s|s|]; [| |done].
  - destruct Hm as (? & ? & Hm); eauto.
  - destruct Hm as [? Hm]; eauto.
Qed.

Lemma wpc_granted c (Q : bool -> core L -> Prop) E : (forall b, (calm = true -> b = true) -> Q b c) -> wpc granted c Q E.
Proof.
  intros HQ ab confl Hc. destruct c. split; [done|]. split; [intros H; by rewrite (Hc H)|]. apply HQ.
  intros H. by rewrite (Hc H).
Qed.

Lemma wpc_CHK b c (Q : unit -> core L -> Prop) E : (b = true -> Q tt c) -> (b = false -> E c) -> wpc (CHK b) c Q E.
Proof. intros HQ HE ab confl Hc. destruct c, b; cbn; eauto. Qed.

Lemma wpc_RECORED_ABORT b k c (Q : unit -> core L -> Prop) E : Q tt c -> wpc (RECORED_ABORT b k) c Q E.
Proof. intros HQ ab confl Hc. destruct c, b; cbn; eauto. Qed.

Lemma wpc_assert_row {V} (r : option V) v c (Q : V -> core L -> Prop) E :
  r = Some v -> Q v c -> wpc (assert_row r) c Q E.
Proof. intros -> HQ ab confl Hc. by destruct c. Qed.

Lemma wpc_assert b c (Q : unit -> core L -> Prop) E : b = true -> Q tt c -> wpc (assert b) c Q E.
Proof. intros -> HQ ab confl Hc. by destruct c. Qed.

Lemma wpc_get_locals c (Q : L -> core L -> Prop) E : Q (c_loc c) c -> wpc get_locals c Q E.
Proof. intros HQ ab confl Hc. by destruct c. Qed.

Lemma wpc_set_locals l c (Q : unit -> core L -> Prop) E :
  Q tt (Core (c_pend c) (c_gens c) l) -> wpc (set_locals l) c Q E.
Proof. by intros HQ ab confl Hc. Qed.

Lemma wpc_oid_next w d c (Q : Z -> core L -> Prop) E :
  let '(o, g) := oid_next w d (oid_gen_ (c_gens c)) in
  Q o (Core (c_pend c) ((c_gens c) <| oid_gen_ := g |>) (c_loc c)) -> wpc (oid_generator_next w d) c Q E.
Proof. cbn. by intros HQ ab confl Hc. Qed.

Lemma wpc_gen_key w c (Q : Z -> core L -> Prop) E :
  let k := (key_gen (c_gens c)).[w] in
  Q k (Core (c_pend c) ((c_gens c) <| key_gen := <[w := u64 (k + 1)]> (key_gen (c_gens c)) |>) (c_loc c)) ->
  wpc (gen_key w) c Q E.
Proof. cbn. by intros HQ ab confl Hc. Qed.

(** A loop with an invariant. *)
Lemma wpc_for {S} (I : Z -> S -> core L -> Prop) (body : Z -> S -> txn L S) b n x c
    (Q : S -> core L -> Prop) E :
  0 <= n -> I b x c ->
  (forall i y c', b <= i < b + n -> I i y c' -> wpc (body i y) c' (fun z c'' => I (i + 1) z c'') E) ->
  (forall y c', I (b + n) y c' -> Q y c') ->
  wpc (for_txn body (seqZ b n) x) c Q E.
Proof.
  intros Hn. revert b x c. pattern n. apply natlike_ind; [| |exact Hn]; clear n Hn.
  - intros b x c HI _ HQ. apply wpc_ret. apply HQ. by rewrite Z.add_0_r.
  - intros n Hn IH b x c HI Hb HQ. rewrite seqZ_cons by lia. cbn [for_txn]. apply wpc_bind.
    eapply wpc_mono; [apply Hb; [lia|exact HI]| |done]. intros y c' HI'.
    replace (Z.pred (Z.succ n)) with n by lia. apply (IH (Z.succ b)).
    + exact HI'.
    + intros i z c'' Hi. apply Hb. lia.
    + intros z c'' HI''. apply HQ. by replace (b + Z.succ n) with (Z.succ b + n) by lia.
Qed.

Section index.
Context {K V : Type} `{Countable K}.
Variable ix : tables -> gmap K V.
Context {ST : Setter ix}.

Lemma wpc_select k c (Q : bool * option V -> core L -> Prop) E :
  Q (true, ix t !! k) c -> (calm = false -> Q (false, None) c) -> wpc (select_split_row ix k) c Q E.
Proof.
  intros H1 H2. unfold select_split_row. apply wpc_bind, wpc_granted. intros b Hb ab confl Hc.
  destruct c. split; [done|]. split; [done|]. cbn. destruct b; [done|]. apply H2. destruct calm; [|done]. by specialize (Hb eq_refl).
Qed.

Lemma wpc_write f c (Q : unit -> core L -> Prop) E :
  Q tt (Core (alter_tbl ix f (c_pend c)) (c_gens c) (c_loc c)) -> wpc (write ix f) c Q E.
Proof. by intros HQ ab confl Hc. Qed.

Lemma wpc_update_row k v c (Q : unit -> core L -> Prop) E :
  Q tt (Core (alter_tbl ix (insert k v) (c_pend c)) (c_gens c) (c_loc c)) -> wpc (update_row ix k v) c Q E.
Proof. apply wpc_write. Qed.

Lemma wpc_update_comm k f v c (Q : unit -> core L -> Prop) E :
  ix t !! k = Some v ->
  Q tt (Core (alter_tbl ix (insert k (f v)) (c_pend c)) (c_gens c) (c_loc c)) ->
  wpc (update_row_comm ix k f) c Q E.
Proof.
  intros Hv HQ. unfold update_row_comm. apply wpc_bind. intros ab confl Hc. split; [done|].
  split; [done|]. cbn [core_of snap]. apply wpc_bind. eapply wpc_assert_row; [exact Hv|]. apply wpc_update_row. by destruct c.
Qed.

(** A commutator and a row changed in place have the same effect if they agree
    on the row that is read. *)
Lemma wpc_update_either (Commute : bool) k f v v' c (Q : unit -> core L -> Prop) E :
  ix t !! k = Some v -> f v = v' ->
  Q tt (Core (alter_tbl ix (insert k v') (c_pend c)) (c_gens c) (c_loc c)) ->
  wpc (if Commute then update_row_comm ix k f else update_row ix k v') c Q E.
Proof. intros Hv <- HQ. destruct Commute; [by eapply wpc_update_comm|by apply wpc_update_row]. Qed.

Lemma wpc_state {A} (k : txs L -> txn L A) c (Q : A -> core L -> Prop) E :
  (forall s, snap s = t -> core_of s = c -> wpc (k s) c Q E) -> wpc (s ← get_state; k s) c Q E.
Proof. intros Hk. apply wpc_bind. intros ab confl Hc. destruct c. do 2 (split; [done|]). by apply Hk. Qed.

Lemma calm_false (ok : bool) : (calm = true -> ok = true) -> ok = false -> calm = false.
Proof. intros Hok ->. destruct calm; [|done]. by specialize (Hok eq_refl). Qed.

Lemma wpc_insert_fresh b k v c (Q : bool * bool -> core L -> Prop) E :
  ix t !! k = None -> ix (c_pend c) !! k = None ->
  Q (true, false) (Core (alter_tbl ix (insert k v) (c_pend c)) (c_gens c) (c_loc c)) ->
  (b = true -> calm = false -> Q (false, false) c) ->
  wpc (insert_row ix b k v) c Q E.
Proof.
  intros H1 H2 HQ HF. unfold insert_row. apply wpc_bind.
  assert (forall ok : bool, (ok = false -> b = true /\ calm = false) ->
    wpc (s ← get_state; if negb ok then mret (false, false)
         else if in_index ix s k then mret (true, true) else _ ← write ix (insert k v); mret (true, false)) c Q E) as G.
  { intros ok Hok. apply wpc_state. intros s Hs Hc. destruct ok; cbn [negb].
    - unfold in_index. rewrite bool_decide_eq_false_2.
      + apply wpc_bind, wpc_write, wpc_ret. done.
      + change (pend s) with (c_pend (core_of s)). rewrite Hs, Hc, H1, H2. by intros [[? ?]|[? ?]].
    - apply wpc_ret, HF; by apply Hok. }
  destruct b; [apply wpc_granted; intros ok Hok; apply G; eauto using calm_false|apply wpc_ret; by apply G].
Qed.

Lemma wpc_delete k c (Q : bool * bool -> core L -> Prop) E :
  (is_Some (ix t !! k) -> Q (true, true) (Core (alter_tbl ix (delete k) (c_pend c)) (c_gens c) (c_loc c))) ->
  (ix t !! k = None -> ix (c_pend c) !! k = None -> Q (true, false) c) ->
  (ix t !! k = None -> is_Some (ix (c_pend c) !! k) ->
   Q (true, true) (Core (alter_tbl ix (delete k) (c_pend c)) (c_gens c) (c_loc c))) ->
  (calm = false -> Q (false, false) c) ->
  wpc (delete_row ix k) c Q E.
Proof.
  intros H1 H2 H3 H4. unfold delete_row. apply wpc_bind, wpc_granted. intros ok Hok. apply wpc_state.
  intros s Hs Hc. destruct ok; cbn [negb]; [|apply wpc_ret, H4; by eapply calm_false].
  unfold in_index. change (pend s) with (c_pend (core_of s)). rewrite Hs, Hc.
  destruct (ix t !! k) eqn:E1; [rewrite bool_decide_eq_true_2 by eauto; apply wpc_bind, wpc_write, wpc_ret; by apply H1|].
  destruct (ix (c_pend c) !! k) eqn:E2;
    [rewrite bool_decide_eq_true_2 by eauto; apply wpc_bind, wpc_write, wpc_ret; by apply H3|].
  rewrite bool_decide_eq_false_2 by (intros [[? ?]|[? ?]]; done). apply wpc_ret. by apply H2.
Qed.

Lemma wpc_range_scan `{KeyStr K} rev b e limit c (Q : bool * list (K * V) -> core L -> Prop) E :
  let rows := rows_between rev b e (ix t) in
  let rows := if limit <? 0 then rows else take (Z.to_nat limit) rows in
  Q (true, rows) c -> (calm = false -> Q (false, rows) c) -> (calm = false -> Q (false, []) c) ->
  wpc (range_scan ix rev b e limit) c Q E.
Proof.
  cbn zeta. intros H1 H2 H3. unfold range_scan. apply wpc_bind, wpc_granted. intros ok Hok. apply wpc_bind.
  assert (forall called : bool, (ok = true -> called = true) -> wpc (s ← get_state;
    let rows := rows_between rev b e (ix (snap s)) in
    let rows := if limit <? 0 then rows else take (Z.to_nat limit) rows in
    mret (ok, if called : bool then rows else [])) c Q E) as G.
  { intros called Hc. apply wpc_state. intros s Hs _. rewrite Hs. apply wpc_ret.
    destruct ok; [rewrite Hc by done; exact H1|]. assert (calm = false) as Hf by (by eapply calm_false).
    destruct called; [by apply H2|by apply H3]. }
  destruct ok; [apply wpc_ret; by apply (G true)|apply wpc_granted; intros called _; by apply G].
Qed.

End index.
End logic.

(** An attempt whose body satisfies a [wpc] commits a state in [Q] or leaves
    the tables. *)
Lemma wpc_attempt {L A} (body : txn L A) t g (l : L) Q E confl (r : run L) :
  wpc false t body (Core t g l) Q E -> tbl (r_db r) = t -> gens (r_db r) = g -> r_locals r = l ->
  exists res r', attempt body confl r = Some (res, r') /\ dlvy_queue_ (r_db r') = dlvy_queue_ (r_db r) /\
    starts r' = starts r + 1 /\
    match res with
    | Some a => Q a (Core (tbl (r_db r')) (gens (r_db r')) (r_locals r'))
    | None => tbl (r_db r') = t /\ exists p, E (Core p (gens (r_db r')) (r_locals r')) \/
                exists a, Q a (Core p (gens (r_db r')) (r_locals r'))
    end.
Proof.
  intros Hw Ht Hg Hl. subst t g l. unfold attempt. specialize (Hw (r_aborts r) confl ltac:(done)). unfold begin_txn. cbn in Hw.
  destruct (body _) as [a s|s|]; [| |done].
  - destruct Hw as (Hs & _ & HQ). destruct (default true (head (conflicts s))); do 2 eexists; (repeat split); [exact HQ|exact Hs|].
    exists (pend s). right. by exists a.
  - destruct Hw as [Hs HE]. do 2 eexists. repeat split; [exact Hs|]. exists (pend s). by left.
Qed.

(** Without conflicts it commits. *)
Lemma wpc_attempt_calm {L A} (body : txn L A) t g (l : L) Q (r : run L) :
  wpc true t body (Core t g l) Q (fun _ => False) -> tbl (r_db r) = t -> gens (r_db r) = g -> r_locals r = l ->
  exists a r', attempt body [] r = Some (Some a, r') /\ Q a (Core (tbl (r_db r')) (gens (r_db r')) (r_locals r')).
Proof.
  intros Hw Ht Hg Hl. subst t g l. unfold attempt. specialize (Hw (r_aborts r) [] ltac:(done)). unfold begin_txn. cbn in Hw.
  destruct (body _) as [a s|s|]; [|by destruct Hw|done]. destruct Hw as (Hs & Hc & HQ). rewrite (Hc eq_refl).
  do 2 eexists. by split.
Qed.

Lemma wpc_calm_commits {L A} (body : txn L A) Q (X : core L -> Prop) (r : run L) :
  wpc true (tbl (r_db r)) body (Core (tbl (r_db r)) (gens (r_db r)) (r_locals r)) Q (fun c => true = false /\ X c) ->
  exists a r', attempt body [] r = Some (Some a, r').
Proof.
  intros Hw. destruct (wpc_attempt_calm body (tbl (r_db r)) (gens (r_db r)) (r_locals r) Q r) as (a & r' & H & _); [|done..|by exists a, r'].
  eapply wpc_mono; [exact Hw|done|]. by intros c [? _].
Qed.

(** The loop, by an invariant [P] of what the attempts share when there are [k]
    attempts to come: it has no undefined behaviour, and if attempts that meet no
    conflict commit it ends with the first of them. *)
Lemma RWTXN_safe {L A} (body : txn L A) (P : nat -> run L -> Prop) (Q : A -> run L -> Prop) confls r :
  (forall k confl r, P (S k) r -> exists res r', attempt body confl r = Some (res, r') /\
     match res with Some a => Q a r' | None => P k r' end) ->
  P (length confls) r -> exists res r', RWTXN body confls r = Some (res, r') /\
    ((forall k r, P (S k) r -> exists a r', attempt body [] r = Some (Some a, r')) -> [] ∈ confls -> res <> None) /\
    match res with Some a => Q a r' | None => P O r' end.
Proof.
  intros Ha. revert r. induction confls as [|confl confls IH]; intros r HP.
  - exists None, r. split; [done|]. split; [by intros _ ?%elem_of_nil|done].
  - destruct (Ha _ confl r HP) as ([a|] & r' & H1 & H2); cbn [RWTXN]; rewrite H1; cbn [mbind option_bind]; [by exists (Some a), r'|].
    destruct (IH r' H2) as (res & r'' & H3 & H4 & H5). exists res, r''. split; [done|]. split; [|done].
    intros Hc [<-|Hin]%elem_of_cons; [|by apply H4]. destruct (Hc _ r HP) as (a & ? & Hc'). congruence.
Qed.

Lemma RWTXN_ind {L A} (body : txn L A) (P : nat -> run L -> Prop) (Q : A -> run L -> Prop) confls r :
  (forall k confl r, P (S k) r -> exists res r', attempt body confl r = Some (res, r') /\
     match res with Some a => Q a r' | None => P k r' end) ->
  (forall k r, P (S k) r -> exists a r', attempt body [] r = Some (Some a, r')) ->
  P (length confls) r -> exists res r', RWTXN body confls r = Some (res, r') /\ ([] ∈ confls -> res <> None) /\
    match res with Some a => Q a r' | None => P O r' end.
Proof.
  intros Ha Hc HP. destruct (RWTXN_safe body P Q confls r Ha HP) as (res & r' & H1 & H2 & H3). by eauto 6.
Qed.

(** A transaction that writes nothing. *)
Lemma read_only_loop {L A} (body : txn L A) (db : tpcc_db) (l : L) (R : A -> Prop) confls ab k :
  (forall calm, wpc calm (tbl db) body (Core (tbl db) (gens db) l)
     (fun a c => c = Core (tbl db) (gens db) l /\ R a)
     (fun c => calm = false /\ c_gens c = gens db /\ c_loc c = l)) ->
  exists res r, RWTXN body confls (Run db ab l k) = Some (res, r) /\
    tbl (r_db r) = tbl db /\ gens (r_db r) = gens db /\ r_locals r = l /\
    ([] ∈ confls -> res <> None) /\ forall a, res = Some a -> R a.
Proof.
  intros Hw. set (P := fun r : run L => tbl (r_db r) = tbl db /\ gens (r_db r) = gens db /\ r_locals r = l).
  destruct (RWTXN_ind body (fun _ => P) (fun a r => P r /\ R a) confls (Run db ab l k)) as (res & r & H1 & H2 & H3); [| |done|].
  - intros _ confl r (Ht & Hg & Hl).
    destruct (wpc_attempt _ _ _ _ _ _ confl r (Hw false) Ht Hg Hl) as (res & r' & H1 & _ & _ & H2).
    exists res, r'. split; [done|]. destruct res as [a|]; [by destruct H2 as [[= ? ? ?] ?]|].
    destruct H2 as (H2 & p & [(_ & ? & ?)|(a & [= ? ? ?] & _)]); by split_and!.
  - intros _ r (Ht & Hg & Hl). eapply wpc_calm_commits. rewrite Ht, Hg, Hl. apply (Hw true).
  - exists res, r. split; [done|]. destruct res as [a|].
    + destruct H3 as [(? & ? & ?) ?]. split_and!; try done. by intros ? [= <-].
    + destruct H3 as (? & ? & ?). by split_and!.
Qed.

(** * Automation

    [txn_step] runs one operation: it splits an operation into what follows a
    success and what follows a conflict. *)
Ltac txn_step :=
  match goal with
  | |- wpc _ _ (mbind _ _) _ _ _ => apply wpc_bind
  | |- wpc _ _ (mret _) _ _ _ => apply wpc_ret
  | |- wpc _ _ (CHK true) _ _ _ => apply wpc_CHK; [intros _|discriminate]
  | |- wpc _ _ (CHK false) _ _ _ => apply wpc_CHK; [discriminate|intros _]
  | |- wpc _ _ (CHK _) _ _ _ => apply wpc_CHK; [intros ?|intros ?]
  | |- wpc _ _ (RECORED_ABORT _ _) _ _ _ => apply wpc_RECORED_ABORT
  | |- wpc _ _ (assert (negb false)) _ _ _ => apply wpc_assert; [reflexivity|]
  | |- wpc _ _ (assert true) _ _ _ => apply wpc_assert; [reflexivity|]
  | |- wpc _ _ get_locals _ _ _ => apply wpc_get_locals
  | |- wpc _ _ (set_locals _) _ _ _ => apply wpc_set_locals
  | |- wpc _ _ (select_split_row _ _) _ _ _ => apply wpc_select; [|intros ?]
  | |- wpc _ _ (update_row _ _ _) _ _ _ => apply wpc_update_row
  | |- wpc _ _ (oid_generator_next _ _) _ _ _ => apply wpc_oid_next
  | |- wpc _ _ (gen_key _) _ _ _ => apply wpc_gen_key
  | |- wpc _ _ (assert_row (Some _)) _ _ _ => eapply wpc_assert_row; [reflexivity|]
  | H : ?r = Some _ |- wpc _ _ (assert_row ?r) _ _ _ => eapply wpc_assert_row; [exact H|]
  end; cbv beta iota.

(** A scan: what follows its success, and the two ways it fails. *)
Ltac txn_scan := apply wpc_range_scan; [|intros ?|intros ?]; cbv beta iota.
