(* ===== verification/TpccNewOrder.v ===== *)
(** What a new order does: an attempt of [txn_neworder] that commits has exactly
    the effect [neworder_tables], whatever conflicts the attempt met before. *)

From stdpp Require Import functions.
From S2P Require Import Prelude Feature TpccData TpccGen TpccIndex TpccTxn TpccInv TpccLogic.

(** * The effect *)

Section effect.
Variables (q : neworder_input) (t : tables) (o : Z).

Definition order_row : order_value := {|
  o_c_id := no_c_id q; o_carrier_id := 0; o_all_local := Z.b2z (all_local q); o_entry_d := no_entry_d q;
  o_ol_cnt := u32 (num_items q) |}.

Definition order_line (iid wid qty : Z) (iv : item_value) (s_dist : list Z) : orderline_value := {|
  ol_i_id := iid; ol_supply_w_id := wid; ol_delivery_d := 0; ol_quantity := u32 qty;
  ol_amount := order_amount qty (i_price iv); ol_dist_info := s_dist |}.

Definition line_row (i : Z) : option orderline_value :=
  '(iid, wid, qty) ← no_items q !! Z.to_nat i;
  iv ← its t !! iid;
  sv ← sts t !! (wid, iid);
  s_dist ← s_dists sv !! Z.to_nat (no_d_id q - 1);
  Some (order_line iid wid qty iv s_dist).

(** The order lines and the stocks after [n] lines; a stock is computed from
    the committed row, so of several lines that name it the last one counts. *)
Definition neworder_ols (n : Z) : gmap orderline_key orderline_value :=
  for_range 0 n (fun i m =>
    match line_row i with Some l => <[(no_w_id q, no_d_id q, o, i + 1) := l]> m | None => m end) (ols t).

Definition stock_step (i : Z) (m : gmap stock_key stock_value) : gmap stock_key stock_value :=
  match no_items q !! Z.to_nat i with
  | Some (iid, wid, qty) =>
      match sts t !! (wid, iid) with
      | Some sv => <[(wid, iid) := stock_in_place qty (negb (wid =? no_w_id q)) sv]> m
      | None => m
      end
  | None => m
  end.

Definition neworder_sts (n : Z) : gmap stock_key stock_value := for_range 0 n stock_step (sts t).

Definition neworder_head : tables :=
  let w := no_w_id q in let d := no_d_id q in
  let t := alter_tbl dts (alter (fun dv => dv <| d_next_o_id := o |>) (w, d)) t in
  let t := alter_tbl ods (insert (w, d, o) order_row) t in
  let t := alter_tbl nos (insert (w, d, o) tt) t in
  alter_tbl oci (insert (w, d, no_c_id q, o) tt) t.

Definition neworder_upto (n : Z) : tables :=
  neworder_head <| ols := neworder_ols n |> <| sts := neworder_sts n |>.

Definition neworder_tables : tables := neworder_upto (num_items q).

(** The rows the transaction reads are there. *)
Record neworder_ready : Prop := {
  nr_wh : is_Some (whs t !! no_w_id q);
  nr_dt : is_Some (dts t !! (no_w_id q, no_d_id q));
  nr_cu : is_Some (cus t !! (no_w_id q, no_d_id q, no_c_id q));
  nr_line : forall i iid wid qty, no_items q !! i = Some (iid, wid, qty) ->
    0 <= qty < 2 ^ 31 /\ exists iv sv s_dist, its t !! iid = Some iv /\ i_im_id iv <> 0 /\
      sts t !! (wid, iid) = Some sv /\ s_dists sv !! Z.to_nat (no_d_id q - 1) = Some s_dist }.

(** No row has the order's number. *)
Record fresh_order : Prop := {
  fo_ods : ods t !! (no_w_id q, no_d_id q, o) = None;
  fo_nos : nos t !! (no_w_id q, no_d_id q, o) = None;
  fo_oci : forall c, oci t !! (no_w_id q, no_d_id q, c, o) = None;
  fo_ols : forall n, ols t !! (no_w_id q, no_d_id q, o, n) = None }.

End effect.

(** * Lemmas on the effect *)

Lemma stock_comm_in_place qty remote s :
  0 <= qty < 2 ^ 31 -> operate_stock (s32 qty) remote s = stock_in_place qty remote s.
Proof.
  intros Hq. assert (s32 qty = qty) as Hs by (unfold s32; rewrite Z.mod_small; lia).
  unfold operate_stock, stock_in_place. by rewrite Hs.
Qed.

Lemma line_row_ready q t i :
  neworder_ready q t -> 0 <= i < num_items q -> exists iid wid qty iv sv s_dist,
    no_items q !! Z.to_nat i = Some (iid, wid, qty) /\ 0 <= qty < 2 ^ 31 /\
    its t !! iid = Some iv /\ i_im_id iv <> 0 /\ sts t !! (wid, iid) = Some sv /\
    s_dists sv !! Z.to_nat (no_d_id q - 1) = Some s_dist /\
    line_row q t i = Some (order_line iid wid qty iv s_dist).
Proof.
  intros [_ _ _ HL] Hi. unfold num_items in Hi.
  destruct (lookup_lt_is_Some_2 (no_items q) (Z.to_nat i)) as [[[iid wid] qty] Hit]; [lia|].
  destruct (HL _ _ _ _ Hit) as (Hq & iv & sv & s_dist & H1 & H2 & H3 & H4).
  exists iid, wid, qty, iv, sv, s_dist. repeat (split; [done|]).
  unfold line_row. rewrite Hit. cbn. rewrite H1. cbn. rewrite H3. cbn. by rewrite H4.
Qed.

Lemma line_row_range q t i l : line_row q t i = Some l -> 0 <= i -> i < num_items q.
Proof.
  unfold line_row, num_items. intros (x & Hx%lookup_lt_Some & _)%bind_Some Hi. lia.
Qed.

Lemma neworder_ols_snoc q t o n : 0 <= n ->
  neworder_ols q t o (n + 1) =
  match line_row q t n with
  | Some l => <[(no_w_id q, no_d_id q, o, n + 1) := l]> (neworder_ols q t o n)
  | None => neworder_ols q t o n
  end.
Proof. intros Hn. unfold neworder_ols. by rewrite for_range_snoc by lia. Qed.

Lemma neworder_sts_snoc q t n : 0 <= n -> neworder_sts q t (n + 1) = stock_step q t n (neworder_sts q t n).
Proof. intros Hn. unfold neworder_sts. by rewrite for_range_snoc by lia. Qed.

(** The rows of order lines: the new ones are numbered from 1. *)
Lemma neworder_ols_lookup q t o n k :
  0 <= n ->
  neworder_ols q t o n !! k =
  if decide (k.1 = (no_w_id q, no_d_id q, o) /\ 1 <= k.2 <= n)
  then match line_row q t (k.2 - 1) with Some l => Some l | None => ols t !! k end
  else ols t !! k.
Proof.
  revert n. apply natlike_ind.
  - rewrite decide_False by lia. done.
  - intros n Hn IH. rewrite <-Z.add_1_r, neworder_ols_snoc by done.
    destruct k as [[[w d] o'] j]. cbn [fst snd] in *.
    destruct (decide ((w, d, o') = (no_w_id q, no_d_id q, o) /\ j = n + 1)) as [[[= -> -> ->] ->]|Hne].
    + rewrite (decide_True (P := _ /\ 1 <= n + 1 <= n + 1)) by (split; [done|lia]). replace (n + 1 - 1) with n by lia.
      destruct (line_row q t n) eqn:E; [by rewrite lookup_insert_eq|]. rewrite IH, decide_False by lia. done.
    + transitivity (neworder_ols q t o n !! (w, d, o', j)).
      { destruct (line_row q t n); [|done]. rewrite lookup_insert_ne; [done|]. intros [= <- <- <- <-]. by apply Hne. }
      rewrite IH. destruct (decide _) as [[H1 H2]|H1]; [rewrite decide_True by (split; [done|lia])|]; [done|].
      rewrite decide_False; [done|]. intros [H2 H3]. apply H1. split; [done|].
      destruct (decide (j = n + 1)); [|lia]. by destruct Hne.
Qed.

(** A stock that no line names is as before; one that is named by exactly one
    line has that line's quantity taken. *)
Lemma neworder_sts_other q t n k :
  0 <= n -> (forall i iid wid qty, no_items q !! i = Some (iid, wid, qty) -> k <> (wid, iid)) ->
  neworder_sts q t n !! k = sts t !! k.
Proof.
  intros Hn Hk. revert n Hn. apply natlike_ind; [done|]. intros n Hn IH.
  rewrite <-Z.add_1_r, neworder_sts_snoc by done. unfold stock_step.
  destruct (no_items q !! Z.to_nat n) as [[[iid wid] qty]|] eqn:E; [|done].
  destruct (sts t !! (wid, iid)); [|done]. rewrite lookup_insert_ne; [done|]. intros <-. by eapply Hk.
Qed.

Definition line_stock (line : Z * Z * Z) : stock_key := (line.1.2, line.1.1).

Lemma neworder_sts_line q t n j iid wid qty sv :
  NoDup (line_stock <$> no_items q) -> no_items q !! j = Some (iid, wid, qty) -> Z.of_nat j < n ->
  sts t !! (wid, iid) = Some sv ->
  neworder_sts q t n !! (wid, iid) = Some (stock_in_place qty (negb (wid =? no_w_id q)) sv).
Proof.
  intros Hnd Hj Hn Hsv. assert (0 <= n) as Hn0 by lia. revert n Hn0 Hn. refine (natlike_ind _ _ _); [lia|].
  intros n Hn IH Hj'. rewrite <-Z.add_1_r, neworder_sts_snoc by done. unfold stock_step.
  destruct (decide (Z.of_nat j = n)) as [<-|Hne].
  - rewrite Nat2Z.id, Hj, Hsv. by rewrite lookup_insert_eq.
  - assert (neworder_sts q t n !! (wid, iid) = Some (stock_in_place qty (negb (wid =? no_w_id q)) sv)) as IH'
      by (apply IH; lia).
    destruct (no_items q !! Z.to_nat n) as [[[iid' wid'] qty']|] eqn:E; [|done].
    destruct (sts t !! (wid', iid')); [|done]. rewrite lookup_insert_ne; [done|]. intros [= -> ->].
    apply Hne. assert (j = Z.to_nat n); [|lia].
    apply (NoDup_lookup _ j (Z.to_nat n) (wid, iid) Hnd); by rewrite list_lookup_fmap, ?Hj, ?E.
Qed.

(** Every row of the stock table after the order comes from the row before. *)
Lemma neworder_sts_inv q t n k sv :
  0 <= n -> neworder_sts q t n !! k = Some sv -> exists sv0, sts t !! k = Some sv0 /\
    (sv = sv0 \/ exists i iid wid qty, no_items q !! i = Some (iid, wid, qty) /\ k = (wid, iid) /\
                                       sv = stock_in_place qty (negb (wid =? no_w_id q)) sv0).
Proof.
  intros Hn. revert n Hn sv. refine (natlike_ind _ _ _); [eauto|]. intros n Hn IH sv.
  rewrite <-Z.add_1_r, neworder_sts_snoc by done. unfold stock_step.
  destruct (no_items q !! Z.to_nat n) as [[[iid wid] qty]|] eqn:E; [|apply IH].
  destruct (sts t !! (wid, iid)) as [s0|] eqn:Es; [|apply IH]. rewrite lookup_insert_Some.
  intros [[<- <-]|[_ H]]; [|by apply IH]. exists s0. split; [done|]. right. by eauto 10.
Qed.

Lemma neworder_sts_dom q t n k : 0 <= n -> is_Some (neworder_sts q t n !! k) <-> is_Some (sts t !! k).
Proof.
  intros Hn. split.
  - intros [sv Hsv]. destruct (neworder_sts_inv _ _ _ _ _ Hn Hsv) as (? & ? & _). by eexists.
  - intros Hk. revert n Hn. apply natlike_ind; [done|]. intros n Hn IH.
    rewrite <-Z.add_1_r, neworder_sts_snoc by done. unfold stock_step.
    destruct (no_items q !! _) as [[[iid wid] qty]|]; [|done]. destruct (sts t !! (wid, iid)); [|done].
    rewrite lookup_insert_is_Some. destruct (decide ((wid, iid) = k)); eauto.
Qed.

(** * Attempts *)

Definition claim_oid (w d : Z) (g : generators) : generators :=
  g <| oid_gen_ := (oid_next w d (oid_gen_ g)).2 |>.

Section attempt.
#[local] Set Default Proof Using "Type*".
Context (calm Commute : bool) (q : neworder_input) (t : tables) (o : Z).
Context (Hready : neworder_ready q t) (Hfresh : fresh_order q t o).

Lemma neworder_line_wpc i g (E : core unit -> Prop) :
  0 <= i < num_items q -> (calm = false -> forall p, E (Core p g tt)) ->
  wpc calm t (neworder_line Commute q o i) (Core (neworder_upto q t o i) g tt)
    (fun _ c => c = Core (neworder_upto q t o (i + 1)) g tt) E.
Proof.
  intros Hi HE.
  destruct (line_row_ready q t i Hready Hi) as (iid & wid & qty & iv & sv & s_dist & Hit & Hq & Hiv & Him & Hsv & Hd & Hl).
  unfold neworder_line. repeat txn_step; try (by apply HE); [|by rewrite (proj2 (Z.eqb_neq _ _) Him) in *].
  apply (wpc_update_either _ _ _ _ _ _ sv); [done|by apply stock_comm_in_place|].
  txn_step. apply wpc_insert_fresh.
  - apply Hfresh.
  - cbn. rewrite neworder_ols_lookup by lia. rewrite decide_False by (cbn; lia). apply Hfresh.
  - repeat txn_step. f_equal. unfold neworder_upto, neworder_head. cbn.
    rewrite neworder_ols_snoc, neworder_sts_snoc, Hl by lia. unfold stock_step. by rewrite Hit, Hsv.
  - intros _ ?. repeat txn_step. by apply HE.
Qed.

Lemma neworder_insert_wpc g dv (E : core unit -> Prop) :
  (calm = false -> forall p, E (Core p g tt)) ->
  wpc calm t (neworder_insert q o) (Core (alter_tbl dts (insert (no_w_id q, no_d_id q) (dv <| d_next_o_id := o |>)) t) g tt)
    (fun _ c => dts t !! (no_w_id q, no_d_id q) = Some dv -> c = Core (neworder_upto q t o 0) g tt) E.
Proof.
  intros HE. destruct Hfresh as [F1 F2 F3 F4]. unfold neworder_insert.
  txn_step. do 3 (apply wpc_insert_fresh;
    [solve [assumption|apply F3]|solve [assumption|apply F3]|repeat txn_step|intros _ ?; repeat txn_step; by apply HE]).
  intros Hdv. f_equal. unfold neworder_upto, neworder_head. cbn. f_equal.
  by rewrite (alter_insert_of _ _ _ _ Hdv).
Qed.

Lemma neworder_wpc g :
  oid_get (no_w_id q) (no_d_id q) (oid_gen_ g) = o -> 0 <= num_items q ->
  let g' := claim_oid (no_w_id q) (no_d_id q) g in
  wpc calm t (txn_neworder Commute q) (Core t g tt)
    (fun o' c => o' = o /\ c = Core (neworder_tables q t o) g' tt)
    (fun c => calm = false /\ (c_gens c = g \/ c_gens c = g')).
Proof.
  intros Ho Hn g'. destruct (nr_wh _ _ Hready) as [wv Hwv], (nr_dt _ _ Hready) as [dv Hdv], (nr_cu _ _ Hready) as [cv Hcv].
  assert (calm = false -> forall p, (fun c : core unit => calm = false /\ (c_gens c = g \/ c_gens c = g')) (Core p g' tt))
    as HE by (intros; split; [done|by right]).
  unfold txn_neworder. repeat txn_step; try (split; [done|by left]); [|split; [done|by right]]. cbn [c_pend c_gens c_loc].
  change (set_field oid_gen_ _ g) with g'. rewrite Ho.
  eapply wpc_mono; [apply (neworder_insert_wpc g' dv _ HE)| |done]. cbv beta. intros [] c Hc. rewrite (Hc Hdv).
  txn_step. apply (wpc_for _ _ (fun i _ c => c = Core (neworder_upto q t o i) g' tt)); [done|done| |].
  - intros i [] c' Hi ->. by apply neworder_line_wpc.
  - intros [] c' ->. by apply wpc_ret.
Qed.
End attempt.

(** * Invariants *)

(** What a request of a client asks for. *)
Record neworder_valid (n : Z) (q : neworder_input) : Prop := {
  nv_district : district_ok n (no_w_id q) (no_d_id q);
  nv_customer : 1 <= no_c_id q <= NUM_CUSTOMERS_PER_DISTRICT;
  nv_items : 1 <= num_items q <= 15;
  nv_line : forall iid wid qty, (iid, wid, qty) ∈ no_items q ->
    1 <= iid <= NUM_ITEMS /\ 1 <= wid <= n /\ 1 <= qty <= 10 }.

Lemma neworder_valid_ready n q t : well_formed n t -> neworder_valid n q -> neworder_ready q t.
Proof.
  intros HW HV. pose proof (nv_district _ _ HV) as HD. split.
  - apply (wf_whs _ _ HW). apply HD.
  - by apply (wf_dts _ _ HW).
  - apply (wf_cus _ _ HW). split; [done|apply HV].
  - intros i iid wid qty Hi%list_elem_of_lookup_2. destruct (nv_line _ _ HV _ _ _ Hi) as (H1 & H2 & H3).
    split; [lia|]. destruct (proj2 (wf_its _ _ HW iid) H1) as [iv Hiv].
    destruct (proj2 (wf_sts _ _ HW wid iid)) as [sv Hsv]; [done|].
    pose proof (wf_item _ _ HW _ _ Hiv) as [Him _]. pose proof (wf_stock _ _ HW _ _ Hsv) as [Hlen _].
    destruct (lookup_lt_is_Some_2 (s_dists sv) (Z.to_nat (no_d_id q - 1))) as [s_dist Hd].
    { rewrite Hlen. destruct HD as [_ HD]. unfold NUM_DISTRICTS_PER_WAREHOUSE in HD. lia. }
    exists iv, sv, s_dist. repeat (split; [done || lia|]). done.
Qed.

Lemma stock_in_place_ok qty remote s :
  1 <= qty <= 10 -> 10 <= s_quantity s <= 100 ->
  10 <= s_quantity (stock_in_place qty remote s) <= 100 /\ s_dists (stock_in_place qty remote s) = s_dists s.
Proof.
  intros Hq Hs. assert (forall z, 0 <= z <= 200 -> s32 z = z) as S by (intros z Hz; unfold s32; rewrite Z.mod_small; lia).
  split; [|by destruct remote].
  assert (s_quantity (stock_in_place qty remote s) =
    if s32 qty <=? s_quantity s - 10 then s32 (s_quantity s - qty) else s32 (s_quantity s + (91 - s32 qty))) as ->
    by (by destruct remote).
  rewrite (S qty) by lia. destruct (Z.leb_spec qty (s_quantity s - 10)); rewrite S; lia.
Qed.

Section preserve.
#[local] Set Default Proof Using "Type*".
Context (n : Z) (q : neworder_input) (t : tables) (o : Z).
Context (HV : neworder_valid n q) (HW : well_formed n t).

Lemma line_row_amount i l : line_row q t i = Some l -> 0 <= ol_amount l <= 999999 /\ ol_delivery_d l = 0.
Proof.
  unfold line_row. intros ([[iid wid] qty] & Hi%list_elem_of_lookup_2 & H)%bind_Some.
  apply bind_Some in H as (iv & Hiv & H). apply bind_Some in H as (sv & _ & H). apply bind_Some in H as (sd & _ & [= <-]).
  destruct (nv_line _ _ HV _ _ _ Hi) as (_ & _ & Hq). destruct (wf_item _ _ HW _ _ Hiv) as [_ Hp].
  split; [|done]. cbn. unfold order_amount. rewrite wrap_small by (unfold uint; nia).
  split; [apply Z.div_pos; nia|]. apply Z.div_le_upper_bound; nia.
Qed.

(** Every line of the new order has its row. *)
Lemma line_row_some i : 0 <= i < num_items q -> is_Some (line_row q t i).
Proof.
  intros Hi. destruct (line_row_ready q t i) as (? & ? & ? & ? & ? & ? & _ & _ & _ & _ & _ & _ & H);
    [by apply (neworder_valid_ready n)|done|by eexists].
Qed.

Lemma neworder_ol_cnt : o_ol_cnt (order_row q) = num_items q.
Proof. pose proof (nv_items _ _ HV). cbn. apply wrap_small. unfold uint. lia. Qed.

Lemma neworder_line_lookup k :
  ols (neworder_tables q t o) !! k =
  if decide (k.1 = (no_w_id q, no_d_id q, o) /\ 1 <= k.2 <= num_items q) then line_row q t (k.2 - 1) else ols t !! k.
Proof.
  pose proof (nv_items _ _ HV). change (ols (neworder_tables q t o)) with (neworder_ols q t o (num_items q)).
  rewrite neworder_ols_lookup by lia. case_decide as Hd; [|done].
  destruct (line_row_some (k.2 - 1)) as [l Hl]; [lia|]. by rewrite Hl.
Qed.

Lemma neworder_well_formed : 1 <= o < uint64_max -> well_formed n (neworder_tables q t o).
Proof.
  intros Ho. pose proof (nv_items _ _ HV) as Hn. destruct HW as [W0 W0' W1 W2 W3 W4 W5 W6 W7 W8 W9 W10].
  constructor; try assumption.
  - intros k dv. cbn. rewrite lookup_alter_Some. intros [(<- & dv0 & _ & ->)|[_ H]]; [|by eapply W0']. cbn.
    unfold uint64_max in Ho. lia.
  - intros w d. cbn. rewrite lookup_alter_is_Some. apply W2.
  - intros w i. change (sts _) with (neworder_sts q t (num_items q)). rewrite neworder_sts_dom by lia. apply W6.
  - intros k sv. change (sts _) with (neworder_sts q t (num_items q)).
    intros (sv0 & H0 & H)%neworder_sts_inv; [|lia]. destruct (W7 _ _ H0) as [L0 Q0].
    destruct H as [->|(i & iid & wid & qty & Hi%list_elem_of_lookup_2 & -> & ->)]; [done|].
    destruct (nv_line _ _ HV _ _ _ Hi) as (_ & _ & Hq).
    destruct (stock_in_place_ok qty (negb (wid =? no_w_id q)) sv0 Hq Q0) as [H1 H2]. by rewrite H2.
  - intros w d o' ov. change (ods _) with (<[(no_w_id q, no_d_id q, o) := order_row q]> (ods t)).
    rewrite lookup_insert_Some. intros [[[= <- <- <-] <-]|[_ H]]; [|by apply W8].
    rewrite neworder_ol_cnt. cbn. pose proof (nv_district _ _ HV). pose proof (nv_customer _ _ HV).
    split; [done|]. lia.
  - intros k l. rewrite neworder_line_lookup. case_decide; [|apply W9]. intros Hl. by apply line_row_amount in Hl as [? _].
Qed.

Context (HC : consistent t) (Hf : ods t !! (no_w_id q, no_d_id q, o) = None).

Lemma neworder_fresh : fresh_order q t o.
Proof. destruct (consistent_fresh _ _ _ _ HC Hf) as (? & ? & ?). by split. Qed.

Lemma neworder_line_key k : k.1 <> (no_w_id q, no_d_id q, o) -> ols (neworder_tables q t o) !! k = ols t !! k.
Proof. intros Hk. rewrite neworder_line_lookup, decide_False; [done|]. by intros [? _]. Qed.

Lemma neworder_consistent : consistent (neworder_tables q t o).
Proof.
  pose proof neworder_ol_cnt as Hcnt. pose proof neworder_fresh as [_ F2 F3 F4]. destruct HC as [C1 C2 C3 C4 C5 C6 C7 C8].
  set (ok := (no_w_id q, no_d_id q, o)) in *.
  assert (ods (neworder_tables q t o) = <[ok := order_row q]> (ods t)) as Eo by done.
  constructor.
  - intros w wv Hw. rewrite (C1 _ _ Hw). f_equal. unfold districts_ytd. cbn.
    destruct (proj2 (wf_dts _ _ HW _ _) (nv_district _ _ HV)) as [dv Hdv].
    rewrite (alter_insert_of _ _ _ _ Hdv), (sum_map_update _ _ _ _ _ Hdv). cbn. lia.
  - intros w d o' ov. rewrite Eo, lookup_insert_Some. intros [[[= <- <- <-] <-]|[Hne H]] k.
    + rewrite neworder_line_lookup, Hcnt. case_decide as Hd; cbn in Hd.
      * split; [lia|]. intros _. apply line_row_some. cbn. lia.
      * rewrite F4. split; [by intros []|]. intros ?. by destruct Hd.
    + rewrite neworder_line_key by (intros [= -> -> ->]; by destruct Hne). by apply C2.
  - intros w d o' k. rewrite Eo, neworder_line_lookup. case_decide as Hd; cbn in Hd.
    + intros _. destruct Hd as [-> _]. by rewrite lookup_insert_eq.
    + intros H%C3. by apply lookup_insert_is_Some'; right.
  - intros w d o'. rewrite Eo. change (nos _) with (<[ok := tt]> (nos t)).
    destruct (decide (ok = (w, d, o'))) as [<-|Hne]; [rewrite !lookup_insert_eq|rewrite !lookup_insert_ne by done].
    + split; [|by eexists]. intros _. by exists (order_row q).
    + apply C4.
  - intros w d c o'. rewrite Eo. change (oci _) with (<[(no_w_id q, no_d_id q, no_c_id q, o) := tt]> (oci t)).
    rewrite lookup_insert_is_Some'. destruct (decide (ok = (w, d, o'))) as [E|Hne].
    + injection E as <- <- <-. rewrite lookup_insert_eq, F3. split.
      * intros [[= <-]|[]]; [|done]. by exists (order_row q).
      * intros (? & [= <-] & <-). by left.
    + rewrite lookup_insert_ne, C5 by done. split; [|by right]. intros [[= <- <- <- <-]|H]; [by destruct Hne|done].
  - intros w d o' k ov l. rewrite Eo, neworder_line_lookup, lookup_insert_Some.
    intros [[[= <- <- <-] <-]|[Hne H]].
    + case_decide; [|by rewrite F4]. intros Hl. by apply line_row_amount in Hl as [_ ->].
    + rewrite decide_False by (cbn; intros [E _]; by destruct Hne). by apply C6.
  - intros w d c cv Hcv. rewrite (C7 _ _ _ _ Hcv). f_equal. symmetry.
    apply (delivered_total_insert _ _ _ _ _ _ _ _ _ Hf Eo); [done|]. intros k Hk. by rewrite neworder_line_key.
  - exact C8.
Qed.
End preserve.
