(* ===== verification/TpccCommute.v ===== *)
(** The two builds of the transactions: with commutators, which are applied to a
    row when the transaction is installed, and with rows that are changed in
    place and written back; and the order in which commutators are installed. *)

From stdpp Require Import functions.
From S2P Require Import Prelude Feature TpccData TpccIndex TpccTxn TpccNewOrder.

(** * Transactions that do the same *)

Definition txn_eq {L A} : relation (txn L A) := pointwise_relation (txs L) eq.

#[export] Instance txn_eq_equivalence {L A} : Equivalence (@txn_eq L A).
Proof. unfold txn_eq. apply _. Qed.

#[export] Instance bind_proper {L A B} :
  Proper (pointwise_relation A txn_eq ==> txn_eq ==> txn_eq) (@mbind (txn L) _ A B).
Proof. intros k k' Hk m m' Hm s. unfold mbind, txn_bind. rewrite (Hm s). destruct (m' s) as [a s'|s'|]; [apply Hk|done..]. Qed.

#[export] Instance for_txn_proper {L S} :
  Proper (pointwise_relation Z (pointwise_relation S txn_eq) ==> eq ==> eq ==> txn_eq) (@for_txn L S).
Proof.
  intros f f' Hf l _ <- x _ <-. revert x. induction l as [|i l IH]; intros x; [done|]. cbn [for_txn].
  apply bind_proper; [intros y; apply IH|apply Hf].
Qed.

Lemma RWTXN_eq {L A} (m m' : txn L A) confls r : txn_eq m m' -> RWTXN m confls r = RWTXN m' confls r.
Proof.
  intros Hm. revert r. induction confls as [|confl confls IH]; intros r; [done|]. cbn [RWTXN].
  assert (attempt m confl r = attempt m' confl r) as -> by (unfold attempt; by rewrite (Hm _)).
  destruct (attempt m' confl r) as [[[a|] r']|]; [done|apply IH|done].
Qed.

(** What follows a read may use that the row is the committed one. *)
Lemma select_eq {L A K V} `{Countable K} (ix : tables -> gmap K V) (k : K) (f g : bool * option V -> txn L A) :
  (forall s, f (true, ix (snap s) !! k) s = g (true, ix (snap s) !! k) s) -> txn_eq (f (false, None)) (g (false, None)) ->
  txn_eq (select_split_row ix k ≫= f) (select_split_row ix k ≫= g).
Proof.
  intros Ht Hf s. set (b := default true (head (conflicts s))). set (s' := s <| conflicts := tail (conflicts s) |>).
  assert (select_split_row ix k s = Done (b, if b then ix (snap s') !! k else None) s') as E by done.
  unfold mbind, txn_bind. rewrite E. destruct b; [apply Ht|apply Hf].
Qed.

Lemma assert_row_eq {L A V} (r : option V) (f g : V -> txn L A) :
  (forall v, r = Some v -> txn_eq (f v) (g v)) -> txn_eq (assert_row r ≫= f) (assert_row r ≫= g).
Proof. intros Hf s. unfold mbind, txn_bind, assert_row. destruct r as [v|]; [by apply Hf|done]. Qed.

(** The commutator of the row that was read is the row changed in place. *)
Lemma comm_eq_last {L K V} `{Countable K} (ix : tables -> gmap K V) {ST : Setter ix} k (operate : V -> V) v v' (s : txs L) :
  ix (snap s) !! k = Some v -> operate v = v' -> update_row_comm ix k operate s = update_row ix k v' s.
Proof. intros Hv <-. unfold update_row_comm, mbind, txn_bind, get_state, assert_row. cbn. by rewrite Hv. Qed.

Lemma comm_eq {L A K V} `{Countable K} (ix : tables -> gmap K V) {ST : Setter ix} k (operate : V -> V) v v' (s : txs L)
    (f : unit -> txn L A) :
  ix (snap s) !! k = Some v -> operate v = v' ->
  (update_row_comm ix k operate ≫= f) s = (update_row ix k v' ≫= f) s.
Proof. intros Hv Ho. unfold mbind, txn_bind. by rewrite (comm_eq_last ix k operate v v'). Qed.

(** Steps of one state. *)
Lemma run_RECORED_ABORT {L A} k (f : unit -> txn L A) s : (RECORED_ABORT true k ≫= f) s = f tt s.
Proof. done. Qed.

Lemma run_RECORED_fail {L A} k (f : unit -> txn L A) s :
  (RECORED_ABORT false k ≫= f) s = f tt (s <| aborts := aborts s ++ [k] |>).
Proof. done. Qed.

Lemma run_CHK {L A} (f : unit -> txn L A) s : (CHK true ≫= f) s = f tt s.
Proof. done. Qed.

Lemma run_assert_row {L A V} (v : V) (f : V -> txn L A) s : (assert_row (Some v) ≫= f) s = f v s.
Proof. done. Qed.

Lemma run_bind {L A B} (m m' : txn L A) (f : A -> txn L B) s : m s = m' s -> (m ≫= f) s = (m' ≫= f) s.
Proof. unfold mbind, txn_bind. by intros ->. Qed.

Lemma run_same {L A B} (m : txn L A) (f g : A -> txn L B) s : (forall a, txn_eq (f a) (g a)) -> (m ≫= f) s = (m ≫= g) s.
Proof. intros Hf. by apply bind_proper. Qed.

Lemma delete_row_snap {L K V} `{Countable K} (ix : tables -> gmap K V) {ST : Setter ix} k (s s' : txs L) a :
  delete_row ix k s = Done a s' -> snap s' = snap s.
Proof.
  unfold delete_row, mbind, txn_bind, granted, get_state. cbn. destruct (default true (head (conflicts s))); cbn.
  - destruct (in_index _ _ _); cbn; by intros [= _ <-].
  - by intros [= _ <-].
Qed.

(** Goes down to where the builds differ, and from the read of a row to its
    update. *)
Ltac same := repeat match goal with
  | |- txn_eq ?m ?m => reflexivity
  | |- txn_eq (CHK false ≫= _) _ => intros ?; exact eq_refl
  | |- txn_eq (match ?x with (_, _) => _ end) _ => destruct x
  | |- txn_eq (mbind _ _) (mbind _ _) => apply bind_proper; [intros ?|]
  end.
Ltac to_update v :=
  apply select_eq; [intros ?|cbv beta iota; solve [same]]; cbv beta iota; rewrite ?run_RECORED_ABORT, ?run_RECORED_fail, ?run_CHK;
  match goal with |- context [assert_row ?r] => destruct r as [v|] eqn:?; [|done] end; rewrite !run_assert_row.

Lemma neworder_line_same q o i :
  Forall (fun it => 0 <= it.2 < 2 ^ 31) (no_items q) -> txn_eq (neworder_line true q o i) (neworder_line false q o i).
Proof.
  intros Hq. unfold neworder_line. apply assert_row_eq. intros [[iid wid] qty] Hi.
  rewrite Forall_forall in Hq. specialize (Hq _ (list_elem_of_lookup_2 _ _ _ Hi)). cbn [snd] in Hq.
  apply bind_proper; [intros [ab res]|reflexivity]. do 4 (apply bind_proper; [intros ?|reflexivity]).
  to_update sv. destruct (s_dists sv !! Z.to_nat (no_d_id q - 1)) as [s_dist|]; [|done]. rewrite !run_assert_row.
  eapply comm_eq; [done|]. by apply stock_comm_in_place.
Qed.

Lemma txn_neworder_same q :
  Forall (fun it => 0 <= it.2 < 2 ^ 31) (no_items q) -> txn_eq (txn_neworder true q) (txn_neworder false q).
Proof.
  intros Hq. unfold txn_neworder. same. apply for_txn_proper; [|done..]. intros i []. by apply neworder_line_same.
Qed.

Lemma payment_warehouse_same q : txn_eq (payment_warehouse true q) (payment_warehouse false q).
Proof. unfold payment_warehouse. to_update wv. eapply comm_eq; [done|]. unfold operate_warehouse. by rewrite wrap_add_r. Qed.

Lemma payment_district_same q : txn_eq (payment_district true q) (payment_district false q).
Proof. unfold payment_district. to_update dv. by eapply comm_eq. Qed.

Lemma payment_customer_same q c : txn_eq (payment_customer true q c) (payment_customer false q c).
Proof.
  unfold payment_customer. to_update cv. eapply comm_eq_last; [done|]. unfold payment_in_place. cbn.
  by destruct (decide (c_credit cv = BC)).
Qed.

Lemma txn_payment_same q : txn_eq (txn_payment true q) (txn_payment false q).
Proof.
  unfold txn_payment. same; [apply payment_customer_same|apply payment_district_same|apply payment_warehouse_same].
Qed.

Section delivery.
Variables (w carrier_id delivery_date : Z).

Lemma delivery_line_same d o k sum :
  txn_eq (delivery_line true w delivery_date d o k sum) (delivery_line false w delivery_date d o k sum).
Proof. unfold delivery_line. to_update olv. by eapply comm_eq. Qed.

Lemma delivery_customer_same d c sum : txn_eq (delivery_customer true w d c sum) (delivery_customer false w d c sum).
Proof. unfold delivery_customer. to_update cv. by eapply comm_eq_last. Qed.

(** The order was read, in the same attempt, before it is deleted from the new
    orders. *)
Lemma deliver_order_same d o ov s :
  ods (snap s) !! (w, d, o) = Some ov ->
  deliver_order true w carrier_id delivery_date d o ov s = deliver_order false w carrier_id delivery_date d o ov s.
Proof.
  intros Hov. unfold deliver_order. unfold mbind at 1 7, txn_bind at 1 7.
  destruct (delete_row nos (w, d, o) s) as [[ok found] s'|s'|] eqn:E; [|done..].
  apply delete_row_snap in E. destruct ok; [|done]. rewrite !run_CHK. destruct found; [|done]. rewrite !run_CHK.
  rewrite <-E in Hov. etransitivity; [by eapply (comm_eq ods)|]. apply run_same. intros [].
  apply bind_proper; [intros []|reflexivity]. apply bind_proper; [intros sum; apply delivery_customer_same|].
  apply for_txn_proper; [|done..]. intros k sum. apply delivery_line_same.
Qed.

Lemma delivery_found_same d o :
  txn_eq (delivery_found true w carrier_id delivery_date d o) (delivery_found false w carrier_id delivery_date d o).
Proof.
  unfold delivery_found. destruct (o =? 0); [reflexivity|]. apply select_eq; [intros s|intros s; done].
  cbv beta iota. rewrite !run_CHK. destruct (ods (snap s) !! (w, d, o)) as [ov|] eqn:E; [|done].
  apply run_bind. by apply deliver_order_same.
Qed.

Lemma txn_delivery_same last_delivered :
  txn_eq (txn_delivery true w carrier_id delivery_date last_delivered)
         (txn_delivery false w carrier_id delivery_date last_delivered).
Proof.
  unfold txn_delivery. apply for_txn_proper; [|done..]. intros d ids. unfold delivery_district. same.
  apply delivery_found_same.
Qed.
End delivery.

(** The bodies of the two builds compute the same.  With commutators or
    with rows changed in place, if the accesses meet the same conflicts the loops
    of new orders (with 31-bit quantities), payments and deliveries return the
    same result, make the same changes to the tables and the counters, report
    the same keys and take the same number of attempts. *)
Theorem commute_equivalent (q : neworder_input) (p : payment_input) (w carrier_id delivery_date : Z) (last_delivered : list Z)
    (confls : list (list bool)) (r : run unit) (r' : run Z) :
  Forall (fun it => 0 <= it.2 < 2 ^ 31) (no_items q) ->
  RWTXN (txn_neworder true q) confls r = RWTXN (txn_neworder false q) confls r /\
  RWTXN (txn_payment true p) confls r = RWTXN (txn_payment false p) confls r /\
  RWTXN (txn_delivery true w carrier_id delivery_date last_delivered) confls r' =
  RWTXN (txn_delivery false w carrier_id delivery_date last_delivered) confls r'.
Proof.
  intros Hq. split_and!; apply RWTXN_eq; [by apply txn_neworder_same|apply txn_payment_same|apply txn_delivery_same].
Qed.

(** * The order of installation *)

(** Commutators of transactions that do not read the row are installed in some
    order, each on the row that the ones before it left. *)
Definition installed {Op V} (operate : Op -> V -> V) (ops : list Op) (v : V) : V := foldl (fun v op => operate op v) v ops.

Section order.
Context {Op V : Type} (operate : Op -> V -> V) (I : V -> Prop) (ok : Op -> Prop) (R : relation Op) `{!Symmetric R}.
Hypothesis operate_inv : forall op v, ok op -> I v -> I (operate op v).
Hypothesis operate_swap : forall op1 op2 v, ok op1 -> ok op2 -> R op1 op2 -> I v ->
  operate op1 (operate op2 v) = operate op2 (operate op1 v).

Lemma pairs_perm ops ops' : ops ≡ₚ ops' -> ForallOrdPairs R ops -> ForallOrdPairs R ops'.
Proof using Symmetric0.
  induction 1 as [|x l l' HP IH|x y l|l1 l2 l3 _ IH1 _ IH2]; intros H; [done| | |by apply IH2, IH1].
  - inversion H as [|? ? H1 H2]; subst. constructor; [|by apply IH]. by rewrite <-HP.
  - inversion H as [|? ? H1 H2]; subst. inversion H2 as [|? ? H3 H4]; subst. apply Forall_cons in H1 as [H1 H1'].
    constructor; [|by constructor]. constructor; [by symmetry|done].
Qed.

Lemma installed_perm ops ops' v :
  ops ≡ₚ ops' -> Forall ok ops -> ForallOrdPairs R ops -> I v -> installed operate ops v = installed operate ops' v.
Proof using operate_inv operate_swap Symmetric0.
  intros HP. revert v. induction HP as [|x l l' HP IH|x y l|l1 l2 l3 HP1 IH1 HP2 IH2]; intros v Hok H HI; [done| | |].
  - apply Forall_cons in Hok as [Hx Hok]. inversion H; subst. cbn. apply IH; [done|done|by apply operate_inv].
  - apply Forall_cons in Hok as [Hy Hok]. apply Forall_cons in Hok as [Hx Hok].
    inversion H as [|? ? H1 H2]; subst. apply Forall_cons in H1 as [H1 _]. cbn. by rewrite operate_swap.
  - rewrite IH1 by done. apply IH2; [by rewrite <-HP1|by eapply pairs_perm|done].
Qed.
End order.

(** When all of them commute. *)
Lemma installed_perm_all {Op V} (operate : Op -> V -> V) (I : V -> Prop) (ok : Op -> Prop) ops ops' v :
  (forall op v, ok op -> I v -> I (operate op v)) ->
  (forall op1 op2 v, ok op1 -> ok op2 -> I v -> operate op1 (operate op2 v) = operate op2 (operate op1 v)) ->
  ops ≡ₚ ops' -> Forall ok ops -> I v -> installed operate ops v = installed operate ops' v.
Proof.
  intros H1 H2 HP Hok HI. assert (Symmetric (fun _ _ : Op => True)) by done.
  apply (installed_perm operate I ok (fun _ _ => True)); try done; [by intros; apply H2|].
  clear HP Hok. induction ops; constructor; [by apply Forall_true|done].
Qed.

Lemma installed_inv {Op V} (operate : Op -> V -> V) (I : V -> Prop) (ok : Op -> Prop) ops v :
  (forall op v, ok op -> I v -> I (operate op v)) -> Forall ok ops -> I v -> I (installed operate ops v).
Proof. intros H1 Hok. revert v. induction Hok; intros v HI; cbn; [done|]. by apply IHHok, H1. Qed.

Lemma u64_swap x a b : u64 (u64 (x + a) + b) = u64 (u64 (x + b) + a).
Proof. unfold wrap. rewrite !Zplus_mod_idemp_l. f_equal. lia. Qed.
Lemma u32_swap x a b : u32 (u32 (x + a) + b) = u32 (u32 (x + b) + a).
Proof. unfold wrap. rewrite !Zplus_mod_idemp_l. f_equal. lia. Qed.

Lemma s64_swap x a b : s64 (s64 (x + a) + b) = s64 (s64 (x + b) + a).
Proof.
  unfold s64. f_equal.
  replace ((x + a + 2 ^ 63) mod 2 ^ 64 - 2 ^ 63 + b + 2 ^ 63) with ((x + a + 2 ^ 63) mod 2 ^ 64 + b) by lia.
  replace ((x + b + 2 ^ 63) mod 2 ^ 64 - 2 ^ 63 + a + 2 ^ 63) with ((x + b + 2 ^ 63) mod 2 ^ 64 + a) by lia.
  rewrite !Zplus_mod_idemp_l. f_equal. lia.
Qed.

(** The payment of a customer with bad credit writes [c_data]. *)
Definition has_data (op : customer_op) : Prop := match op with Payment _ _ (Some _) => True | _ => False end.

Lemma operate_customer_swap op1 op2 c : ~ (has_data op1 /\ has_data op2) ->
  operate_customer op1 (operate_customer op2 c) = operate_customer op2 (operate_customer op1 c).
Proof.
  intros H. destruct op1 as [b1 y1 [i1|]|b1], op2 as [b2 y2 [i2|]|b2]; cbn in H; try tauto; destruct c; cbn;
    unfold operate_customer; cbn; f_equal; try apply s64_swap.
Qed.

(** A quantity stays among the 91 values from 10 to 100: it is the one that is
    congruent to the stock less what was ordered. *)
Definition stock_after (q s : Z) : Z := if q <=? s - 10 then s - q else s + (91 - q).

Lemma stock_after_range q s : 0 <= q <= 91 -> 10 <= s <= 100 -> 10 <= stock_after q s <= 100.
Proof. unfold stock_after. destruct (Z.leb_spec q (s - 10)); lia. Qed.

Lemma stock_after_swap q1 q2 s : 0 <= q1 <= 91 -> 0 <= q2 <= 91 -> 10 <= s <= 100 ->
  stock_after q1 (stock_after q2 s) = stock_after q2 (stock_after q1 s).
Proof.
  intros H1 H2 Hs. unfold stock_after. destruct (Z.leb_spec q1 (s - 10)), (Z.leb_spec q2 (s - 10));
    repeat match goal with |- context [?a <=? ?b] => destruct (Z.leb_spec a b) end; lia.
Qed.

Lemma s32_in_range z : - 2 ^ 31 <= z < 2 ^ 31 -> s32 z = z.
Proof. intros H. unfold s32. rewrite Z.mod_small; lia. Qed.

Lemma operate_stock_eq q r s : 0 <= q <= 91 -> 10 <= s_quantity s <= 100 ->
  operate_stock q r s = {| s_dists := s_dists s; s_data := s_data s; s_quantity := stock_after q (s_quantity s);
    s_ytd := u32 (s_ytd s + q); s_order_cnt := u32 (s_order_cnt s + 1);
    s_remote_cnt := if r then u32 (s_remote_cnt s + 1) else s_remote_cnt s |}.
Proof.
  intros Hq Hs. destruct s. unfold operate_stock, stock_after in *. cbn in *. rewrite !s32_in_range by lia. by destruct r.
Qed.

Lemma operate_stock_swap q1 r1 q2 r2 s : 0 <= q1 <= 91 -> 0 <= q2 <= 91 -> 10 <= s_quantity s <= 100 ->
  operate_stock q1 r1 (operate_stock q2 r2 s) = operate_stock q2 r2 (operate_stock q1 r1 s).
Proof.
  intros H1 H2 Hs. rewrite (operate_stock_eq q2 r2 s), (operate_stock_eq q1 r1 s) by done.
  rewrite !operate_stock_eq by (done || by apply stock_after_range). cbn.
  by rewrite stock_after_swap, (u32_swap (s_ytd s)) by done; destruct r1, r2.
Qed.

(** C14: the commutators of a set of transactions may be installed in any order.
    Whatever the order, the row of a warehouse, of a district and of a stock item
    (with a quantity between 10 and 100, as in every reachable state, and orders of
    at most 91) ends up the same, and so does the row of a customer whose
    deliveries and payments include at most one with the data of a bad credit.  Two
    payments of a customer with bad credit do not commute: the rows differ unless
    their data are equal. *)
Theorem commutators_commute :
  (forall ops ops' w, ops ≡ₚ ops' -> installed operate_warehouse ops w = installed operate_warehouse ops' w) /\
  (forall ops ops' d, ops ≡ₚ ops' -> installed operate_district ops d = installed operate_district ops' d) /\
  (forall ops ops' s, ops ≡ₚ ops' -> Forall (fun op => 0 <= op.1 <= 91) ops -> 10 <= s_quantity s <= 100 ->
     installed (uncurry operate_stock) ops s = installed (uncurry operate_stock) ops' s /\
     10 <= s_quantity (installed (uncurry operate_stock) ops s) <= 100) /\
  (forall ops ops' c, ops ≡ₚ ops' -> ForallOrdPairs (fun op1 op2 => ~ (has_data op1 /\ has_data op2)) ops ->
     installed operate_customer ops c = installed operate_customer ops' c) /\
  (forall b1 y1 i1 b2 y2 i2 c, length i1 = 48%nat -> length i2 = 48%nat -> length (c_data c) = 500%nat ->
     operate_customer (Payment b1 y1 (Some i1)) (operate_customer (Payment b2 y2 (Some i2)) c) =
     operate_customer (Payment b2 y2 (Some i2)) (operate_customer (Payment b1 y1 (Some i1)) c) <-> i1 = i2).
Proof.
  split_and!.
  - intros ops ops' w HP. apply (installed_perm_all _ (fun _ => True) (fun _ => True)); try done; [|by apply Forall_true].
    intros a b [] _ _ _. unfold operate_warehouse. cbn. f_equal. apply u64_swap.
  - intros ops ops' d HP. apply (installed_perm_all _ (fun _ => True) (fun _ => True)); try done; [|by apply Forall_true].
    intros a b [] _ _ _. unfold operate_district. cbn. f_equal. apply s64_swap.
  - intros ops ops' s HP Hok Hs.
    assert (forall op v, 0 <= op.1 <= 91 -> 10 <= s_quantity v <= 100 -> 10 <= s_quantity (uncurry operate_stock op v) <= 100) as HI.
    { intros [q r] v Hq Hv. cbn. rewrite operate_stock_eq by done. by apply stock_after_range. }
    split; [|exact (installed_inv _ (fun v => 10 <= s_quantity v <= 100) _ _ _ HI Hok Hs)].
    apply (installed_perm_all _ (fun v => 10 <= s_quantity v <= 100) (fun op => 0 <= op.1 <= 91)); try done.
    intros [q1 r1] [q2 r2] v H1 H2 Hv. by apply operate_stock_swap.
  - intros ops ops' c HP H.
    assert (Symmetric (fun op1 op2 => ~ (has_data op1 /\ has_data op2))) by (intros x y Hxy; tauto).
    apply (installed_perm operate_customer (fun _ => True) (fun _ => True) (fun op1 op2 => ~ (has_data op1 /\ has_data op2)));
      try done; [|by apply Forall_true]. intros op1 op2 v _ _ H12 _. by apply operate_customer_swap.
  - intros b1 y1 i1 b2 y2 i2 c L1 L2 L. split.
    + intros E%(f_equal c_data). cbn in E. unfold insert_left in E.
      apply (f_equal (take 48)) in E. by rewrite !take_app_length' in E.
    + intros ->. destruct c. unfold operate_customer. cbn. f_equal; apply s64_swap.
Qed.

Definition demo_customer : customer_value := {|
  c_first := []; c_middle := []; c_last := []; c_street_1 := []; c_street_2 := []; c_city := []; c_state := []; c_zip := [];
  c_phone := []; c_since := 0; c_credit := []; c_credit_lim := 0; c_discount := 0; c_balance := 100; c_ytd_payment := 0;
  c_payment_cnt := 0; c_delivery_cnt := 0; c_data := replicate 500 0 |}.

(** A stock of 12 that two orders of 5 and 9 take in either order; a payment and a
    delivery of one customer, and two payments with different data. *)
Lemma commutators_commute_witness :
  let s := {| s_dists := []; s_data := []; s_quantity := 12; s_ytd := 0; s_order_cnt := 0; s_remote_cnt := 0 |} in
  installed (uncurry operate_stock) [(5, true); (9, false)] s = installed (uncurry operate_stock) [(9, false); (5, true)] s /\
  s_quantity (installed (uncurry operate_stock) [(5, true); (9, false)] s) = 89 /\
  installed operate_customer [Payment (-7) 7 (Some (replicate 48 1)); Delivery 3] demo_customer =
    installed operate_customer [Delivery 3; Payment (-7) 7 (Some (replicate 48 1))] demo_customer /\
  operate_customer (Payment (-7) 7 (Some (replicate 48 1))) (operate_customer (Payment (-8) 8 (Some (replicate 48 2))) demo_customer) <>
    operate_customer (Payment (-8) 8 (Some (replicate 48 2))) (operate_customer (Payment (-7) 7 (Some (replicate 48 1))) demo_customer).
Proof.
  destruct commutators_commute as (_ & _ & HS & HC & HN). intros s. split_and!.
  - apply HS; [apply perm_swap|repeat constructor; cbn; lia|cbn; lia].
  - reflexivity.
  - apply HC; [apply perm_swap|]. repeat constructor. cbn. tauto.
  - intros E. apply (HN _ _ _ _ _ _ demo_customer) in E; [discriminate E|reflexivity..].
Defined.
