(* ===== verification/TpccPayment.v ===== *)
(** What a payment does: an attempt of [txn_payment] that commits has exactly the
    effect [payment_tables]. *)

From stdpp Require Import functions.
From S2P Require Import Prelude Feature TpccData TpccGen TpccIndex TpccTxn TpccInv TpccLogic.

(** * The effect *)

Section effect.
Variables (q : payment_input) (t : tables).

(** The customer that pays. *)
Definition payment_chosen : option Z :=
  chosen_customer t (pay_by_name q) (pay_c_w_id q) (pay_c_d_id q) (pay_last q) (pay_c_id q).

Definition payment_key (c k : Z) : Z * history_key := (pay_c_w_id q, (u32 (pay_w_id q), u32 (pay_d_id q), c, k)).

Definition history_row (c : Z) (wv : warehouse_value) (dv : district_value) : history_value := {|
  h_c_id := c; h_c_d_id := pay_c_d_id q; h_c_w_id := pay_c_w_id q; h_d_id := pay_d_id q; h_w_id := pay_w_id q;
  h_date := pay_date q; h_amount := pay_amount q;
  h_data := var_string 24 (w_name wv ++ [32; 32; 32; 32] ++ d_name dv) |}.

Definition pay_wh (wv : warehouse_value) : warehouse_value := wv <| w_ytd := u64 (w_ytd wv + pay_amount q) |>.
Definition pay_dt (dv : district_value) : district_value := dv <| d_ytd := s64 (d_ytd dv + pay_amount q) |>.

Definition payment_tables (c k : Z) (wv : warehouse_value) (dv : district_value) (cv : customer_value) : tables :=
  let t := alter_tbl whs (insert (pay_w_id q) (pay_wh wv)) t in
  let t := alter_tbl dts (insert (pay_w_id q, pay_d_id q) (pay_dt dv)) t in
  let t := alter_tbl cus (insert (pay_c_w_id q, pay_c_d_id q, c) (payment_in_place q c cv)) t in
  alter_tbl hts (insert (payment_key c k) (history_row c wv dv)) t.

End effect.

Definition claim_history (w : Z) (g : generators) : generators :=
  g <| key_gen := <[w := u64 ((key_gen g).[w] + 1)]> (key_gen g) |>.

(** * Attempts *)

Section attempt.
#[local] Set Default Proof Using "Type*".
Context (calm Commute : bool) (q : payment_input) (t : tables) (g : generators).
Context (wv : warehouse_value) (dv : district_value) (c : Z) (cv : customer_value).
Context (Hwv : whs t !! pay_w_id q = Some wv) (Hdv : dts t !! (pay_w_id q, pay_d_id q) = Some dv).
Context (Hc : payment_chosen q t = Some c) (Hcv : cus t !! (pay_c_w_id q, pay_c_d_id q, c) = Some cv).

Lemma payment_customer_id_wpc co (Q : Z -> core unit -> Prop) (E : core unit -> Prop) :
  Q c co -> (calm = false -> E co) -> wpc calm t (payment_customer_id q) co Q E.
Proof.
  intros HQ HE. unfold payment_customer_id. unfold payment_chosen, chosen_customer in Hc. destruct (pay_by_name q).
  - apply bind_Some in Hc as (l & Hl & Hm). repeat txn_step; try done. by apply HE.
  - destruct (pay_c_id q =? 0); [done|]. injection Hc as Hc'. repeat txn_step. by rewrite Hc'.
Qed.

Lemma customer_comm_in_place :
  operate_customer (Payment (- pay_amount q) (pay_amount q)
    (if decide (c_credit cv = BC)
     then Some (c_data_info c (pay_c_d_id q) (pay_c_w_id q) (pay_d_id q) (pay_w_id q) (pay_amount q))
     else None)) cv = payment_in_place q c cv.
Proof. unfold payment_in_place. cbn. by destruct (decide (c_credit cv = BC)). Qed.

Lemma payment_wpc k :
  (key_gen g).[pay_c_w_id q] = k -> hts t !! payment_key q c k = None ->
  let g' := claim_history (pay_c_w_id q) g in
  wpc calm t (txn_payment Commute q) (Core t g tt)
    (fun c' co => c' = c /\ co = Core (payment_tables q t c k wv dv cv) g' tt)
    (fun co => calm = false /\ c_gens co = g).
Proof.
  intros Hk Hh g'. unfold txn_payment, payment_warehouse, payment_district. repeat txn_step; try done.
  apply (wpc_update_either _ _ _ _ _ _ wv); [done|unfold operate_warehouse; by rewrite wrap_add_r|].
  repeat txn_step; try done. apply (wpc_update_either _ _ _ _ _ _ dv); [done|done|].
  repeat txn_step. apply payment_customer_id_wpc; [|done]. unfold payment_customer. repeat txn_step; try done.
  apply (wpc_update_either _ _ _ _ _ _ cv); [done|by apply customer_comm_in_place|].
  unfold payment_history. repeat txn_step. cbn [c_pend c_gens c_loc]. rewrite Hk.
  apply wpc_insert_fresh; [done|done| |done]. repeat txn_step. unfold g', claim_history. by rewrite Hk.
Qed.
End attempt.

(** * Invariants *)

Record payment_valid (n : Z) (q : payment_input) : Prop := {
  pv_district : district_ok n (pay_w_id q) (pay_d_id q);
  pv_home : district_ok n (pay_c_w_id q) (pay_c_d_id q);
  pv_customer : customer_valid (pay_by_name q) (pay_last q) (pay_c_id q) }.

(** The rows a payment reads; by name, the customer has the name. *)
Lemma payment_rows n q t :
  well_formed n t -> payment_valid n q -> exists wv dv c cv,
    whs t !! pay_w_id q = Some wv /\ dts t !! (pay_w_id q, pay_d_id q) = Some dv /\
    payment_chosen q t = Some c /\ cus t !! (pay_c_w_id q, pay_c_d_id q, c) = Some cv /\
    (pay_by_name q = true -> c_last cv = pay_last q).
Proof.
  intros HW [Hd Hh Hc].
  destruct (proj2 (wf_whs _ _ HW (pay_w_id q))) as [wv Hwv]; [apply Hd|].
  destruct (proj2 (wf_dts _ _ HW _ _) Hd) as [dv Hdv].
  destruct (chosen_customer_ok _ _ _ _ _ _ _ HW Hh Hc) as (c & cv & H1 & H2 & H3). by exists wv, dv, c, cv.
Qed.

Lemma payment_in_place_fields q c v :
  let v' := payment_in_place q c v in
  c_balance v' = s64 (c_balance v - pay_amount q) /\ c_ytd_payment v' = s64 (c_ytd_payment v + pay_amount q) /\
  c_last v' = c_last v.
Proof. unfold payment_in_place. by case_decide. Qed.

Section preserve.
#[local] Set Default Proof Using "Type*".
Context (n : Z) (q : payment_input) (t : tables) (c k : Z).
Context (wv : warehouse_value) (dv : district_value) (cv : customer_value).
Context (Hwv : whs t !! pay_w_id q = Some wv) (Hdv : dts t !! (pay_w_id q, pay_d_id q) = Some dv).
Context (Hcv : cus t !! (pay_c_w_id q, pay_c_d_id q, c) = Some cv).

Lemma payment_well_formed : well_formed n t -> well_formed n (payment_tables q t c k wv dv cv).
Proof.
  intros [W0 W0' W1 W2 W3 W4 W5 W6 W7 W8 W9 W10]. constructor; try assumption.
  - intros k' dv'. cbn. rewrite lookup_insert_Some. intros [[<- <-]|[_ H]]; [|by eapply W0']. by apply (W0' _ _ Hdv).
  - intros w. cbn. rewrite lookup_insert_is_Some', W1. split; [|by right]. intros [<-|?]; [|done]. apply W1. by eexists.
  - intros w d. cbn. rewrite lookup_insert_is_Some', W2. split; [|by right]. intros [[= <- <-]|?]; [|done].
    apply W2. by eexists.
  - intros w d c'. cbn. rewrite lookup_insert_is_Some', W3. split; [|by right]. intros [[= <- <- <-]|?]; [|done].
    apply W3. by eexists.
  - intros w d num last Hd Hl. destruct (W10 _ _ _ _ Hd Hl) as (l & Hl' & Hne & Hin).
    exists l. split; [done|]. split; [done|]. intros c'. rewrite Hin. cbn.
    destruct (decide ((pay_c_w_id q, pay_c_d_id q, c) = (w, d, c'))) as [<-|Hn].
    + rewrite lookup_insert_eq, Hcv. destruct (payment_in_place_fields q c cv) as (_ & _ & Hlast).
      split; intros (? & [= <-] & H); eexists; (split; [done|congruence]).
    + by rewrite lookup_insert_ne.
Qed.

Lemma payment_consistent :
  hts t !! payment_key q c k = None -> consistent t -> consistent (payment_tables q t c k wv dv cv).
Proof.
  intros Hh [C1 C2 C3 C4 C5 C6 C7 C8]. destruct (payment_in_place_fields q c cv) as (Hb & Hy & _).
  constructor; try assumption.
  - intros w v. cbn. unfold districts_ytd. cbn. rewrite (sum_map_update _ _ _ _ _ Hdv). cbn [fst].
    rewrite lookup_insert_Some. intros [[<- <-]|[Hne Hv]].
    + rewrite Z.eqb_refl. cbn. rewrite wrap_wrap by lia. pose proof (C1 _ _ Hwv) as Hs. unfold districts_ytd in Hs.
      rewrite (wrap64_shift _ _ (pay_amount q) Hs). rewrite (wrap64_add _ (s64 (d_ytd dv + pay_amount q))
        (sum_map (fun k dv => if k.1 =? pay_w_id q then d_ytd dv else 0) (dts t) - d_ytd dv) (d_ytd dv + pay_amount q));
        [f_equal; lia|done|apply wrap_s64].
    + rewrite (proj2 (Z.eqb_neq _ _)) by done. rewrite Z.sub_0_r, Z.add_0_r. by apply C1.
  - intros w d c' v. cbn. rewrite lookup_insert_Some.
    change (delivered_total _ w d c') with (delivered_total t w d c'). intros [[[= <- <- <-] <-]|[_ Hv]]; [|by apply C7].
    rewrite Hb, Hy, <-(C7 _ _ _ _ Hcv).
    rewrite (wrap64_add _ _ (c_balance cv - pay_amount q) (c_ytd_payment cv + pay_amount q)) by apply wrap_s64.
    f_equal. lia.
  - intros w d c' v. cbn. unfold paid_total. cbn. rewrite sum_map_insert by done. cbn. rewrite lookup_insert_Some.
    intros [[[= <- <- <-] <-]|[Hne Hv]].
    + rewrite decide_True, Hy, wrap_s64 by done. rewrite (Z.add_comm (pay_amount q)). apply wrap64_shift.
      by apply C8.
    + rewrite decide_False by (intros (<- & <- & <-); by destruct Hne). by apply C8.
Qed.
End preserve.
