(* ===== verification/TpccDeliver.v ===== *)
(** What a delivery does: for each of the ten districts in turn, the first new
    order that is not before the last one delivered is taken out of the new
    orders, it and its lines are marked, and its amount is added to its
    customer's balance.

    [order_id] is not reset between districts: a district without new orders is
    treated as if the order found in an earlier one had been found in it. *)

From stdpp Require Import functions.
From S2P Require Import Prelude Feature TpccData TpccGen TpccIndex TpccTxn TpccKeys TpccInv TpccLogic.

(** * The effect *)

Section effect.
Variables (w carrier_id delivery_date : Z) (t : tables).

(** The first [n] lines of the order are marked as delivered. *)
Definition line_step (d oid k : Z) (m : gmap orderline_key orderline_value) : gmap orderline_key orderline_value :=
  match ols t !! (w, d, oid, k) with
  | Some l => <[(w, d, oid, k) := l <| ol_delivery_d := delivery_date |>]> m
  | None => m
  end.

Definition delivered_ols (d oid n : Z) (m : gmap orderline_key orderline_value)
    : gmap orderline_key orderline_value := for_range 1 (1 + n) (line_step d oid) m.

Definition line_sum (d oid n : Z) : Z :=
  for_range 1 (1 + n) (fun k s => s32 (s + default 0 (ol_amount <$> ols t !! (w, d, oid, k)))) 0.

Definition delivered_cu (sum : Z) (cv : customer_value) : customer_value :=
  cv <| c_balance := s64 (c_balance cv + sum) |> <| c_delivery_cnt := u16 (c_delivery_cnt cv + 1) |>.

Definition deliver_marks (d oid n : Z) (ov : order_value) (p : tables) : tables :=
  let p := alter_tbl nos (delete (w, d, oid)) p in
  let p := alter_tbl ods (insert (w, d, oid) (ov <| o_carrier_id := carrier_id |>)) p in
  alter_tbl ols (delivered_ols d oid n) p.

Definition deliver_tables (d oid : Z) (ov : order_value) (p : tables) : tables :=
  alter_tbl cus (fun m =>
    match cus t !! (w, d, o_c_id ov) with
    | Some cv => <[(w, d, o_c_id ov) := delivered_cu (line_sum d oid (o_ol_cnt ov)) cv]> m
    | None => m
    end) (deliver_marks d oid (o_ol_cnt ov) ov p).

(** The order the scan of a district finds. *)
Definition first_new (d last_delivered : Z) : option Z :=
  (fun kv => kv.1.2) <$> last (take 1 (rows_between false (w, d, last_delivered) (w, d, uint64_max) (nos t))).

(** Order [oid] of a district; [None] if the attempt aborts. *)
Definition found_effect (d oid : Z) (p : tables) : option (Z * tables) :=
  if oid =? 0 then Some (oid, p)
  else match ods t !! (w, d, oid) with
       | None => Some (oid, p)
       | Some ov => if decide (is_Some (nos t !! (w, d, oid))) then Some (oid, deliver_tables d oid ov p) else None
       end.

(** One district, from the value of [order_id]. *)
Definition district_effect (last_delivered d oid : Z) (p : tables) : option (Z * tables) :=
  found_effect d (default oid (first_new d last_delivered)) p.

Definition effect_step (last_delivered : list Z) (d : Z) (s : list Z * Z * tables) : option (list Z * Z * tables) :=
  let '(ids, oid, p) := s in
  ld ← last_delivered !! Z.to_nat (d - 1);
  '(oid, p) ← district_effect ld d oid p;
  Some (ids ++ [oid], oid, p).

(** The districts below [e], from [order_id = garbage]. *)
Definition delivery_effect (last_delivered : list Z) (garbage e : Z) : option (list Z * Z * tables) :=
  for_opt 1 e (effect_step last_delivered) ([], garbage, t).

(** The rows of a district are those of the committed state. *)
Record untouched (d : Z) (p : tables) : Prop := {
  un_ods : forall o, ods p !! (w, d, o) = ods t !! (w, d, o);
  un_nos : forall o, nos p !! (w, d, o) = nos t !! (w, d, o);
  un_ols : forall o k, ols p !! (w, d, o, k) = ols t !! (w, d, o, k);
  un_cus : forall c, cus p !! (w, d, c) = cus t !! (w, d, c) }.

End effect.

(** * Lemmas on the effect *)

Section effect_lemmas.
Context (w carrier_id delivery_date : Z) (t : tables).

Lemma delivered_ols_snoc d oid n m : 0 <= n ->
  delivered_ols w delivery_date t d oid (n + 1) m =
  line_step w delivery_date t d oid (1 + n) (delivered_ols w delivery_date t d oid n m).
Proof.
  intros Hn. unfold delivered_ols. replace (1 + (n + 1)) with (1 + n + 1) by lia.
  by rewrite for_range_snoc by lia.
Qed.

Lemma delivered_ols_lookup d oid n m k :
  0 <= n ->
  delivered_ols w delivery_date t d oid n m !! k =
  if decide (k.1 = (w, d, oid) /\ 1 <= k.2 <= n)
  then match ols t !! k with Some l => Some (l <| ol_delivery_d := delivery_date |>) | None => m !! k end
  else m !! k.
Proof.
  revert n. apply natlike_ind.
  - rewrite decide_False by lia. done.
  - intros n Hn IH. rewrite <-Z.add_1_r, delivered_ols_snoc by done. unfold line_step.
    destruct k as [[[w' d'] o'] j]. cbn [fst snd] in *.
    destruct (decide ((w', d', o') = (w, d, oid) /\ j = 1 + n)) as [[[= -> -> ->] ->]|Hne].
    + rewrite decide_True by (split; [done|lia]). destruct (ols t !! (w, d, oid, 1 + n)) eqn:E;
        [by rewrite lookup_insert_eq|]. rewrite IH, decide_False by lia. done.
    + transitivity (delivered_ols w delivery_date t d oid n m !! (w', d', o', j)).
      { destruct (ols t !! (w, d, oid, 1 + n)); [|done]. rewrite lookup_insert_ne; [done|].
        intros [= <- <- <- <-]. by apply Hne. }
      rewrite IH. destruct (decide _) as [[H1 H2]|H1]; [by rewrite decide_True by (split; [done|lia])|].
      rewrite decide_False; [done|]. intros [H2 H3]. apply H1. split; [done|].
      destruct (decide (j = 1 + n)); [|lia]. by destruct Hne.
Qed.

Lemma line_sum_snoc d oid n : 0 <= n ->
  line_sum w t d oid (n + 1) =
  s32 (line_sum w t d oid n + default 0 (ol_amount <$> ols t !! (w, d, oid, 1 + n))).
Proof.
  intros Hn. unfold line_sum. replace (1 + (n + 1)) with (1 + n + 1) by lia. by rewrite for_range_snoc by lia.
Qed.

(** Below 2147 lines of at most 999999 the [int32_t] does not overflow. *)
Lemma line_sum_total n d oid :
  0 <= n <= 15 -> (forall k l, ols t !! k = Some l -> 0 <= ol_amount l <= 999999) ->
  line_sum w t d oid n = sumZ (fun k => default 0 (ol_amount <$> ols t !! (w, d, oid, k))) (seqZ 1 n) /\
  0 <= line_sum w t d oid n <= 999999 * n.
Proof.
  intros [Hn Hn'] HA. revert n Hn Hn'. refine (natlike_ind _ _ _).
  { intros _. rewrite seqZ_nil by lia. unfold line_sum. rewrite for_range_nil by lia. cbn. lia. }
  intros n Hn IH Hn'. destruct IH as [IH1 IH2]; [lia|]. rewrite <-Z.add_1_r, line_sum_snoc by done.
  assert (0 <= default 0 (ol_amount <$> ols t !! (w, d, oid, 1 + n)) <= 999999) as Hb.
  { destruct (ols t !! (w, d, oid, 1 + n)) eqn:E; cbn; [by eapply HA|lia]. }
  assert (forall z, 0 <= z < 2 ^ 31 -> s32 z = z) as S by (intros z Hz; unfold s32; rewrite Z.mod_small; lia).
  rewrite S by lia. split; [|lia]. rewrite (seqZ_app 1 n 1), sumZ_app, IH1 by lia. rewrite (seqZ_cons (1 + n)), (seqZ_nil (Z.succ (1 + n))), sumZ_cons by lia. change (sumZ _ []) with 0. lia.
Qed.

Lemma untouched_refl d : untouched w t d t.
Proof. done. Qed.

Lemma untouched_deliver u d d' oid ov p :
  d <> d' -> 0 <= o_ol_cnt ov -> untouched w u d' p ->
  untouched w u d' (deliver_tables w carrier_id delivery_date t d oid ov p).
Proof.
  intros Hd Hn [U1 U2 U3 U4]. constructor; cbn.
  - intros o. by rewrite lookup_insert_ne by (intros [= ]; done).
  - intros o. by rewrite lookup_delete_ne by (intros [= ]; done).
  - intros o k. rewrite delivered_ols_lookup by done. rewrite decide_False by (cbn; intros [[= ] _]; done). apply U3.
  - intros c. destruct (cus t !! (w, d, o_c_id ov)); [rewrite lookup_insert_ne by (intros [= ]; done)|]; apply U4.
Qed.

Lemma district_effect_untouched u n ld d l p o p' d' :
  well_formed n t -> district_effect w carrier_id delivery_date t ld d l p = Some (o, p') -> d <> d' ->
  untouched w u d' p -> untouched w u d' p'.
Proof.
  unfold district_effect, found_effect. intros HW He Hd HU. destruct (_ =? 0) in He; [by injection He as _ <-|].
  destruct (ods t !! _) as [ov|] eqn:Ho; [|by injection He as _ <-]. case_decide; [|done]. injection He as _ <-.
  apply untouched_deliver; [done| |done]. destruct (wf_order _ _ HW _ _ _ _ Ho) as (_ & _ & _ & ? & _). lia.
Qed.

(** Once an attempt aborts there is nothing after it. *)
Lemma delivery_effect_none last_delivered garbage e k :
  1 <= e -> delivery_effect w carrier_id delivery_date t last_delivered garbage e = None -> 0 <= k ->
  delivery_effect w carrier_id delivery_date t last_delivered garbage (e + k) = None.
Proof.
  intros He Hn. revert k. apply natlike_ind; [by rewrite Z.add_0_r|]. intros k Hk IH. unfold delivery_effect in *.
  replace (e + Z.succ k) with (e + k + 1) by lia. rewrite for_opt_snoc by lia. by rewrite IH.
Qed.
End effect_lemmas.

(** * Attempts *)

Section attempt.
#[local] Set Default Proof Using "Type*".
Context (calm Commute : bool) (n w carrier_id delivery_date : Z) (t : tables) (g : generators).
Context (HW : well_formed n t) (HC : consistent t).
Context (stuck : Prop) (E : core Z -> Prop) (HE : forall p l, calm = false \/ stuck -> E (Core p g l)).

Lemma delivery_lines_wpc d oid ov p l :
  ods t !! (w, d, oid) = Some ov ->
  wpc calm t (for_txn (delivery_line Commute w delivery_date d oid) (seqZ 1 (o_ol_cnt ov)) 0)
    (Core (deliver_marks w carrier_id delivery_date t d oid 0 ov p) g l)
    (fun sum c => sum = line_sum w t d oid (o_ol_cnt ov) /\
                  c = Core (deliver_marks w carrier_id delivery_date t d oid (o_ol_cnt ov) ov p) g l) E.
Proof.
  intros Ho. destruct (wf_order _ _ HW _ _ _ _ Ho) as (_ & _ & _ & Hcnt & _).
  apply (wpc_for _ _ (fun i sum c => sum = line_sum w t d oid (i - 1) /\
    c = Core (deliver_marks w carrier_id delivery_date t d oid (i - 1) ov p) g l)).
  - lia.
  - by split; [unfold line_sum; rewrite for_range_nil by lia|].
  - intros i sum c Hi [-> ->]. destruct (consistent_line _ _ _ _ _ i HC Ho) as [olv Hl]; [lia|].
    unfold delivery_line. repeat txn_step; try (by apply HE; left).
    apply (wpc_update_either _ _ _ _ _ _ olv); [done|done|]. repeat txn_step.
    replace (i + 1 - 1) with (i - 1 + 1) by lia. rewrite line_sum_snoc by lia. replace (1 + (i - 1)) with i by lia.
    rewrite Hl. split; [done|]. f_equal. unfold deliver_marks. cbn. f_equal.
    rewrite delivered_ols_snoc by lia. unfold line_step. replace (1 + (i - 1)) with i by lia. by rewrite Hl.
  - intros sum c [-> ->]. by replace (1 + o_ol_cnt ov - 1) with (o_ol_cnt ov) by lia.
Qed.

Lemma deliver_order_wpc d oid ov p l :
  ods t !! (w, d, oid) = Some ov -> untouched w t d p -> (~ is_Some (nos t !! (w, d, oid)) -> stuck) ->
  wpc calm t (deliver_order Commute w carrier_id delivery_date d oid ov) (Core p g l)
    (fun _ c => is_Some (nos t !! (w, d, oid)) /\ c = Core (deliver_tables w carrier_id delivery_date t d oid ov p) g l) E.
Proof.
  intros Ho HU HS. destruct (wf_order _ _ HW _ _ _ _ Ho) as (Hd & _ & Hc & _ & _).
  destruct (proj2 (wf_cus _ _ HW _ _ _) (conj Hd Hc)) as [cv Hcv].
  unfold deliver_order. txn_step. apply wpc_delete; [intros HS'|intros Hn _; repeat txn_step; apply HE; right; apply HS; rewrite Hn; by intros []| |intros; repeat txn_step; by apply HE; left].
  2:{ intros Hn [u Hu]. cbn [c_pend] in Hu. rewrite (un_nos _ _ _ _ HU) in Hu. congruence. }
  repeat txn_step. apply (wpc_update_either _ _ _ _ _ _ ov); [done|done|]. txn_step.
  apply wpc_assert; [rewrite (proj2 (Z.eqb_neq _ _)) by lia; done|]. txn_step.
  eapply wpc_mono; [apply (delivery_lines_wpc d oid ov p l Ho)| |done]. intros sum c [-> ->].
  unfold delivery_customer. repeat txn_step; try (by apply HE; left).
  apply (wpc_update_either _ _ _ _ _ _ cv); [done|done|]. split; [done|].
  unfold deliver_tables. cbn. by rewrite Hcv.
Qed.

Lemma delivery_found_wpc d o p :
  untouched w t d p -> (found_effect w carrier_id delivery_date t d o p = None -> stuck) ->
  wpc calm t (delivery_found Commute w carrier_id delivery_date d o) (Core p g o)
    (fun o' c => exists p', found_effect w carrier_id delivery_date t d o p = Some (o', p') /\ c = Core p' g o') E.
Proof.
  intros HU. unfold delivery_found, found_effect. destruct (o =? 0); [intros _; repeat txn_step; by eexists|]. intros HS.
  repeat txn_step; [|by apply HE; left]. destruct (ods t !! (w, d, o)) as [ov|] eqn:Ho; [|repeat txn_step; by eexists].
  txn_step. eapply wpc_mono; [apply (deliver_order_wpc _ _ _ _ _ Ho HU)| |done].
  - intros Hn. apply HS. by rewrite decide_False.
  - intros [] c [HS' ->]. txn_step. eexists. split; [by rewrite decide_True|done].
Qed.

Lemma delivery_district_wpc ld d p l :
  untouched w t d p -> (district_effect w carrier_id delivery_date t ld d l p = None -> stuck) ->
  wpc calm t (delivery_district Commute w carrier_id delivery_date ld d) (Core p g l)
    (fun o c => exists p', district_effect w carrier_id delivery_date t ld d l p = Some (o, p') /\ c = Core p' g o) E.
Proof.
  intros HU. unfold delivery_district, district_effect, first_new. intros HS. txn_step. txn_scan.
  - change (1 <? 0) with false. change (Z.to_nat 1) with 1%nat. cbv iota.
    destruct (last (take 1 _)) as [[k u]|]; repeat txn_step; by apply delivery_found_wpc.
  - destruct (last _) as [[k u]|]; repeat txn_step; by apply HE; left.
  - cbn [last]. repeat txn_step. by apply HE; left.
Qed.

Lemma delivery_wpc last_delivered garbage :
  length last_delivered = 10%nat ->
  (delivery_effect w carrier_id delivery_date t last_delivered garbage 11 = None -> stuck) ->
  wpc calm t (txn_delivery Commute w carrier_id delivery_date last_delivered) (Core t g garbage)
    (fun ids c => exists oid p, delivery_effect w carrier_id delivery_date t last_delivered garbage 11 = Some (ids, oid, p) /\
                                c = Core p g oid) E.
Proof.
  intros Hlen HS. unfold txn_delivery.
  apply (wpc_for _ _ (fun i ids c => exists oid p,
    delivery_effect w carrier_id delivery_date t last_delivered garbage i = Some (ids, oid, p) /\
    c = Core p g oid /\ forall d, i <= d -> untouched w t d p)).
  - lia.
  - exists garbage, t. by split.
  - intros i ids c Hi (oid & p & He & -> & HU).
    destruct (lookup_lt_is_Some_2 last_delivered (Z.to_nat (i - 1))) as [ld Hld]; [lia|].
    repeat txn_step. eapply wpc_mono; [apply delivery_district_wpc; [apply HU; lia|]| |done].
    { intros Hp. apply HS. replace 11 with (i + 1 + (10 - i)) by lia. apply delivery_effect_none; [lia| |lia].
      unfold delivery_effect in *. rewrite for_opt_snoc by lia. rewrite He. cbn. rewrite Hld. cbn. by rewrite Hp. }
    intros o c (p' & Hp & ->). repeat txn_step. exists o, p'. split_and!; [|done|].
    + unfold delivery_effect in *. rewrite for_opt_snoc by lia. rewrite He. cbn. rewrite Hld. cbn. by rewrite Hp.
    + intros d Hd. eapply district_effect_untouched; [exact HW|exact Hp|lia|apply HU; lia].
  - intros ids c (oid & p & He & -> & _). by exists oid, p.
Qed.
End attempt.

(** * Invariants *)

Section preserve.
#[local] Set Default Proof Using "Type*".
Context (n w carrier_id delivery_date : Z) (t : tables).
Context (Hcar : 1 <= carrier_id <= 10) (Hdate : delivery_date <> 0).

Section one.
Context (d oid : Z) (ov : order_value) (p : tables).
Context (HW : well_formed n p) (HC : consistent p) (HU : untouched w t d p).
Context (Ho : ods t !! (w, d, oid) = Some ov) (Hn : is_Some (nos t !! (w, d, oid))).

Lemma deliver_order_row : ods p !! (w, d, oid) = Some ov /\ o_carrier_id ov = 0.
Proof.
  rewrite (un_ods _ _ _ _ HU). split; [done|]. rewrite <-(un_nos _ _ _ _ HU) in Hn.
  apply (cs_new _ HC) in Hn as (ov' & H1 & H2). rewrite (un_ods _ _ _ _ HU), Ho in H1. by injection H1 as ->.
Qed.

Lemma deliver_order_cnt : 1 <= o_ol_cnt ov <= 15.
Proof. destruct deliver_order_row as [H _]. by destruct (wf_order _ _ HW _ _ _ _ H) as (_ & _ & _ & ? & _). Qed.

Lemma deliver_line k :
  ols (deliver_tables w carrier_id delivery_date t d oid ov p) !! k =
  if decide (k.1 = (w, d, oid) /\ 1 <= k.2 <= o_ol_cnt ov)
  then (fun l => l <| ol_delivery_d := delivery_date |>) <$> ols p !! k else ols p !! k.
Proof.
  pose proof deliver_order_cnt. cbn. rewrite delivered_ols_lookup by lia. case_decide as Hd; [|done].
  destruct k as [k j]. destruct Hd as [Hk _]. cbn in Hk. subst k. rewrite (un_ols _ _ _ _ HU).
  by destruct (ols t !! (w, d, oid, j)).
Qed.

Lemma deliver_amount k :
  ol_amount <$> ols (deliver_tables w carrier_id delivery_date t d oid ov p) !! k = ol_amount <$> ols p !! k.
Proof. rewrite deliver_line. case_decide; [|done]. by destruct (ols p !! k). Qed.

(** The customers: one balance changes, by the order's total. *)
Lemma deliver_customer : exists cv, cus p !! (w, d, o_c_id ov) = Some cv /\
  cus (deliver_tables w carrier_id delivery_date t d oid ov p) =
  <[(w, d, o_c_id ov) := delivered_cu (order_total p w d oid ov) cv]> (cus p).
Proof.
  destruct deliver_order_row as [Hr _]. destruct (wf_order _ _ HW _ _ _ _ Hr) as (Hd & _ & Hc & Hcnt & _).
  destruct (proj2 (wf_cus _ _ HW _ _ _) (conj Hd Hc)) as [cv Hcv]. exists cv. split; [done|]. cbn.
  rewrite <-(un_cus _ _ _ _ HU), Hcv. f_equal. f_equal.
  assert (forall k l, ols p !! k = Some l -> 0 <= ol_amount l <= 999999) as HA by apply HW.
  destruct (line_sum_total w p (o_ol_cnt ov) d oid ltac:(lia) HA) as [Hs _]. unfold order_total. rewrite <-Hs.
  unfold line_sum. apply for_range_ext. intros k s _. by rewrite (un_ols _ _ _ _ HU).
Qed.

Lemma deliver_well_formed : well_formed n (deliver_tables w carrier_id delivery_date t d oid ov p).
Proof.
  destruct deliver_order_row as [Hr _]. destruct deliver_customer as (cv & Hcv & Ec).
  destruct HW as [W0 W0' W1 W2 W3 W4 W5 W6 W7 W8 W9 W10]. constructor; try assumption.
  - intros w' d' c. rewrite Ec, lookup_insert_is_Some', <-W3. split; [|by right]. intros [[= <- <- <-]|?]; [by eexists|done].
  - intros w' d' o' ov'. cbn. rewrite lookup_insert_Some. intros [[[= <- <- <-] <-]|[_ H]]; [|by apply W8].
    pose proof (W8 _ _ _ _ Hr) as (? & ? & ? & ? & _). cbn. repeat (split; [done|]). lia.
  - intros k l Hl. pose proof (deliver_amount k) as Ha. rewrite Hl in Ha. destruct (ols p !! k) as [l'|] eqn:E; [|done].
    injection Ha as Ha. rewrite Ha. by eapply W9.
  - intros w' d' num last Hd Hl. destruct (W10 _ _ _ _ Hd Hl) as (l & Hl' & Hne & Hin).
    exists l. split; [done|]. split; [done|]. intros c'. rewrite Hin, Ec.
    destruct (decide ((w, d, o_c_id ov) = (w', d', c'))) as [<-|Hn']; [|by rewrite lookup_insert_ne].
    rewrite lookup_insert_eq, Hcv. split; intros (? & [= <-] & H); eexists; (split; [done|done]).
Qed.

Lemma deliver_consistent : consistent (deliver_tables w carrier_id delivery_date t d oid ov p).
Proof.
  destruct deliver_order_row as [Hr H0]. destruct deliver_customer as (cv & Hcv & Ec). pose proof deliver_order_cnt as Hcnt.
  pose proof deliver_line as Hline. pose proof deliver_amount as Ham.
  set (p' := deliver_tables _ _ _ _ _ _ _ _) in *.
  assert (ods p' = <[(w, d, oid) := ov <| o_carrier_id := carrier_id |>]> (ods p)) as Eo by done.
  assert (nos p' = delete (w, d, oid) (nos p)) as En by done.
  assert (forall k, is_Some (ols p' !! k) <-> is_Some (ols p !! k)) as El.
  { intros k. rewrite Hline. case_decide; [|done]. by rewrite fmap_is_Some. }
  destruct HC as [C1 C2 C3 C4 C5 C6 C7 C8]. constructor.
  - exact C1.
  - intros w' d' o' ov'. rewrite Eo, lookup_insert_Some. intros [[[= <- <- <-] <-]|[_ H]] k; rewrite El; [|by apply C2].
    by apply (C2 _ _ _ _ Hr).
  - intros w' d' o' k. rewrite El, Eo. intros H%C3. apply lookup_insert_is_Some'. by right.
  - intros w' d' o'. rewrite En, Eo. destruct (decide ((w, d, oid) = (w', d', o'))) as [<-|Hne].
    + rewrite lookup_delete_eq, lookup_insert_eq. split; [by intros []|]. intros (? & [= <-] & H). cbn in H. lia.
    + rewrite lookup_delete_ne, lookup_insert_ne by done. apply C4.
  - intros w' d' c' o'. change (oci p') with (oci p). rewrite C5, Eo.
    destruct (decide ((w, d, oid) = (w', d', o'))) as [<-|Hne]; [|by rewrite lookup_insert_ne].
    rewrite lookup_insert_eq, Hr. split; intros (? & [= <-] & H); by eexists.
  - intros w' d' o' k ov' l. rewrite Eo, Hline, lookup_insert_Some. intros [[[= <- <- <-] <-]|[Hne H]].
    + case_decide as Hk.
      * intros (l' & _ & ->)%fmap_Some. cbn. lia.
      * intros Hl. destruct Hk. split; [done|]. apply (C2 _ _ _ _ Hr). by eexists.
    + rewrite decide_False by (cbn; intros [E _]; by destruct Hne). by apply C6.
  - intros w' d' c' cv'. rewrite (delivered_total_mark p p' w d oid ov carrier_id w' d' c' Hr H0 ltac:(lia) Eo Ham), Ec.
    rewrite lookup_insert_Some. intros [[[= <- <- <-] <-]|[Hne H]].
    + rewrite decide_True by done. cbn. rewrite <-(wrap64_shift _ _ _ (C7 _ _ _ _ Hcv)).
      rewrite (wrap64_add _ _ (c_balance cv + order_total p w d oid ov) (c_ytd_payment cv)) by done || apply wrap_s64.
      f_equal. lia.
    + rewrite decide_False by (intros (-> & -> & ->); by destruct Hne). rewrite Z.add_0_r. by apply C7.
  - intros w' d' c' cv'. rewrite Ec, lookup_insert_Some. change (paid_total p' w' d' c') with (paid_total p w' d' c').
    intros [[[= <- <- <-] <-]|[_ H]]; [apply (C8 _ _ _ _ Hcv)|by apply C8].
Qed.
End one.

(** What an attempt leaves: the orders there are, and the history. *)
Definition same_orders (p : tables) : Prop :=
  (forall k, is_Some (ods p !! k) <-> is_Some (ods t !! k)) /\ hts p = hts t.

Lemma deliver_same_orders d oid ov p :
  ods t !! (w, d, oid) = Some ov -> same_orders p ->
  same_orders (deliver_tables w carrier_id delivery_date t d oid ov p).
Proof.
  intros Ho [H1 H2]. split; [|done]. intros k. cbn. rewrite lookup_insert_is_Some', H1.
  split; [|by right]. intros [<-|?]; [by eexists|done].
Qed.

Lemma delivery_effect_preserves last_delivered garbage e ids oid p :
  well_formed n t -> consistent t -> 1 <= e ->
  delivery_effect w carrier_id delivery_date t last_delivered garbage e = Some (ids, oid, p) ->
  well_formed n p /\ consistent p /\ same_orders p /\ forall d, e <= d -> untouched w t d p.
Proof.
  intros HW HC He. replace e with (1 + (e - 1)) by lia. assert (0 <= e - 1) as He' by lia. revert ids oid p.
  pattern (e - 1). apply natlike_ind; [| |exact He']; clear e He He'.
  - intros ids oid p. unfold delivery_effect. rewrite for_opt_nil by lia. by intros [= <- <- <-].
  - intros k Hk IH ids oid p. unfold delivery_effect. replace (1 + Z.succ k) with (1 + k + 1) by lia.
    rewrite for_opt_snoc by lia. intros ([[ids0 oid0] p0] & He & H)%bind_Some.
    destruct (IH _ _ _ He) as (W & C & S & U). apply bind_Some in H as (ld & _ & H).
    apply bind_Some in H as ([o p1] & Hd & [= _ _ <-]).
    pose proof (fun d' => district_effect_untouched _ _ _ _ t _ _ _ _ _ _ _ d' HW Hd) as HU.
    assert (well_formed n p1 /\ consistent p1 /\ same_orders p1) as (W' & C' & S').
    { unfold district_effect, found_effect in Hd. destruct (_ =? 0) in Hd; [by injection Hd as _ <-|].
      destruct (ods t !! _) as [ov|] eqn:Ho; [|by injection Hd as _ <-]. case_decide as Hn; [|done]. injection Hd as _ <-.
      specialize (U (1 + k) ltac:(lia)).
      split_and!; [by apply deliver_well_formed|by apply (deliver_consistent _ _ _ _ W)|by apply deliver_same_orders]. }
    split_and!; try done. intros d' Hd'. apply HU; [lia|apply U; lia].
Qed.
End preserve.
