(* ===== verification/TpccRead.v ===== *)
(** The transactions that read only: order status finds the customer's last
    order and its lines; stock level finds no lines at all. *)

From stdpp Require Import functions sorting.
From S2P Require Import Prelude Feature TpccData TpccGen TpccIndex TpccTxn TpccKeys TpccInv TpccLogic.

(** * Scans of a consistent database *)

Section scans.
#[local] Set Default Proof Using "Type*".
Context (n : Z) (t : tables) (HW : well_formed n t) (HC : consistent t).

(** The numbers in the keys of an order are unsigned 64-bit integers. *)
Lemma order_words w d o ov : ods t !! (w, d, o) = Some ov -> word w /\ word d /\ word o /\ word (o_c_id ov).
Proof.
  intros Ho. destruct (wf_order _ _ HW _ _ _ _ Ho) as ([Hw Hd] & Hoid & Hc & _). pose proof (wf_n _ _ HW) as Hn.
  unfold word, uint64_max, max_whs, NUM_DISTRICTS_PER_WAREHOUSE, NUM_CUSTOMERS_PER_DISTRICT in *. lia.
Qed.

Lemma district_words w d : district_ok n w d -> word w /\ word d.
Proof using HW.
  intros [Hw Hd]. pose proof (wf_n _ _ HW). unfold word, max_whs, NUM_DISTRICTS_PER_WAREHOUSE in *. lia.
Qed.

(** The last order of a customer. *)
Definition latest_order (w d c o : Z) : Prop :=
  (exists ov, ods t !! (w, d, o) = Some ov /\ o_c_id ov = c) /\
  forall o' ov', ods t !! (w, d, o') = Some ov' -> o_c_id ov' = c -> o' <= o.

Lemma last_order_scan w d c :
  district_ok n w d -> 1 <= c <= NUM_CUSTOMERS_PER_DISTRICT ->
  let o := default 0 (snd <$> (fst <$> last (take 1 (rows_between true (w, d, c, uint64_max) (w, d, c, 0) (oci t))))) in
  (0 < o /\ latest_order w d c o) \/ (o = 0 /\ forall o' ov, ods t !! (w, d, o') = Some ov -> o_c_id ov <> c).
Proof.
  intros Hd Hc. destruct (district_words _ _ Hd) as [Ww Wd]. cbn zeta.
  assert (word c) as Wc by (unfold word, NUM_CUSTOMERS_PER_DISTRICT in *; lia).
  assert (word uint64_max /\ word 0) as [Wm W0] by (unfold word, uint64_max; lia).
  pose proof (scan_first true (w, d, c, uint64_max) (w, d, c, 0) (oci t)) as Hs.
  assert (forall o ov, ods t !! (w, d, o) = Some ov -> o_c_id ov = c -> is_Some (oci t !! (w, d, c, o)) /\
    in_scan true (w, d, c, uint64_max) (w, d, c, 0) (w, d, c, o) /\ word o) as Hin.
  { intros o ov Ho Hoc. destruct (order_words _ _ _ _ Ho) as (_ & _ & Wo & _).
    split; [apply (cs_index _ HC); eauto|]. split; [|done]. apply in_scan_customer; try done.
    destruct (wf_order _ _ HW _ _ _ _ Ho) as (_ & ? & _). lia. }
  destruct (last _) as [[[[[w' d'] c'] o] u]|]; cbn.
  - destruct Hs as (Hu & Hr & Hmax). destruct (proj1 (cs_index _ HC w' d' c' o)) as (ov & Ho & Hoc); [by eexists|].
    destruct (order_words _ _ _ _ Ho) as (W1 & W2 & W3 & W4). rewrite Hoc in W4.
    apply in_scan_customer in Hr as (-> & -> & -> & Hr); try done. left. split; [lia|]. split; [by eauto|].
    intros o' ov' Ho' Hoc'. destruct (Hin _ _ Ho' Hoc') as (H1 & H2 & Wo').
    specialize (Hmax _ H1 H2). rewrite key_leb_line in Hmax by (unfold u64_key, word in *; repeat constructor; cbn; lia).
    cbn [lex_leb fields4 fst snd] in Hmax. rewrite !Z.ltb_irrefl, !Z.eqb_refl in Hmax. cbn in Hmax.
    apply orb_true_iff in Hmax. rewrite Z.ltb_lt, andb_true_iff, Z.eqb_eq in Hmax. lia.
  - right. split; [done|]. intros o' ov' Ho' Hoc'. destruct (Hin _ _ Ho' Hoc') as (H1 & H2 & _). by apply (Hs _ H1).
Qed.

(** The scan of an order's lines gives them in their order. *)
Section lines.
Context (w d o : Z) (ov : order_value) (Ho : ods t !! (w, d, o) = Some ov).

Definition line_rows (b m : Z) : list (orderline_key * orderline_value) :=
  omap (fun k => pair (w, d, o, k) <$> ols t !! (w, d, o, k)) (seqZ b m).

Lemma line_word k : is_Some (ols t !! (w, d, o, k)) -> 1 <= k <= o_ol_cnt ov /\ word k.
Proof.
  intros Hk%(cs_lines _ HC _ _ _ _ Ho). destruct (wf_order _ _ HW _ _ _ _ Ho) as (_ & _ & _ & ? & _).
  unfold word. lia.
Qed.

Lemma line_row_le j1 j2 (l1 l2 : orderline_value) : word j1 -> word j2 -> row_le ((w, d, o, j1), l1) ((w, d, o, j2), l2) <-> j1 <= j2.
Proof.
  intros W1 W2. destruct (order_words _ _ _ _ Ho) as (Ww & Wd & Wo & _). unfold word in *.
  unfold row_le. rewrite Is_true_true. cbn [fst]. rewrite key_leb_line by (unfold u64_key; repeat constructor; cbn; lia).
  cbn [lex_leb fields4 fst snd]. rewrite !Z.ltb_irrefl, !Z.eqb_refl. cbn.
  rewrite orb_true_iff, andb_true_iff, Z.ltb_lt, Z.eqb_eq. lia.
Qed.

Lemma line_scan_elem x :
  x ∈ rows_between false (w, d, o, 0) (w, d, o, uint64_max) (ols t) <->
  exists k l, x = ((w, d, o, k), l) /\ ols t !! (w, d, o, k) = Some l.
Proof.
  destruct (order_words _ _ _ _ Ho) as (Ww & Wd & Wo & _).
  assert (word uint64_max /\ word 0) as [Wm W0] by (unfold word, uint64_max; lia).
  destruct x as [[[[w' d'] o'] k] l]. rewrite rows_between_elem. split.
  - intros [Hl Hin]. destruct (cs_line_order _ HC w' d' o' k) as [ov' Ho']; [by eexists|].
    destruct (order_words _ _ _ _ Ho') as (W1 & W2 & W3 & _).
    assert (word k) as W4.
    { assert (1 <= k <= o_ol_cnt ov') by (apply (cs_lines _ HC _ _ _ _ Ho'); by eexists).
      destruct (wf_order _ _ HW _ _ _ _ Ho') as (_ & _ & _ & ? & _). unfold word. lia. }
    apply in_scan_lines in Hin as (-> & -> & -> & _); try done. by exists k, l.
  - intros (k' & l' & [= -> -> -> -> ->] & Hl). split; [done|]. destruct (line_word k') as [Hk Wk]; [by eexists|].
    apply in_scan_lines; try done. destruct (wf_order _ _ HW _ _ _ _ Ho) as (_ & _ & _ & ? & _). unfold uint64_max. lia.
Qed.

Lemma line_rows_elem x :
  x ∈ line_rows 1 (o_ol_cnt ov) <-> exists k l, x = ((w, d, o, k), l) /\ ols t !! (w, d, o, k) = Some l.
Proof.
  unfold line_rows. rewrite list_elem_of_omap. split.
  - intros (j & _ & (l' & Hl & ->)%fmap_Some). by exists j, l'.
  - intros (j & l' & -> & Hl). exists j. split; [|by rewrite Hl]. apply elem_of_seqZ.
    destruct (line_word j) as [? _]; [by eexists|]. lia.
Qed.

Lemma line_rows_sorted m b : 0 <= m -> 0 <= b -> b + m < 2 ^ 64 -> StronglySorted row_le (line_rows b m).
Proof.
  intros Hm. revert b. pattern m. apply natlike_ind; [| |exact Hm]; clear m Hm; [constructor|]. intros m Hm IH b Hb Hs.
  unfold line_rows. rewrite seqZ_cons by lia. replace (Z.pred (Z.succ m)) with m by lia. cbn [omap list_omap].
  destruct (ols t !! (w, d, o, b)) as [l|]; cbn [fmap option_fmap option_map]; [|apply IH; lia].
  constructor; [apply IH; lia|]. apply Forall_forall.
  intros x (j & Hj%elem_of_seqZ & (l' & _ & ->)%fmap_Some)%list_elem_of_omap. apply line_row_le; unfold word; lia.
Qed.

Lemma line_rows_values m b :
  0 <= m -> snd <$> line_rows b m = omap (fun k => ols t !! (w, d, o, k)) (seqZ b m).
Proof.
  intros _. unfold line_rows. induction (seqZ b m) as [|k l IH]; [done|]. cbn [omap list_omap].
  destruct (ols t !! (w, d, o, k)); cbn [fmap option_fmap option_map]; [|done]. cbn. by f_equal.
Qed.

Lemma line_scan :
  snd <$> rows_between false (w, d, o, 0) (w, d, o, uint64_max) (ols t) =
  omap (fun k => ols t !! (w, d, o, k)) (seqZ 1 (o_ol_cnt ov)).
Proof.
  destruct (wf_order _ _ HW _ _ _ _ Ho) as (_ & _ & _ & Hcnt & _). rewrite <-line_rows_values by lia. f_equal.
  apply (StronglySorted_unique_strong row_le); [| |apply line_rows_sorted; lia|].
  - intros x y Hx%line_scan_elem Hy%line_rows_elem. destruct Hx as (k1 & l1 & -> & H1), Hy as (k2 & l2 & -> & H2).
    destruct (line_word k1) as [_ W1]; [by eexists|]. destruct (line_word k2) as [_ W2]; [by eexists|].
    intros ?%line_row_le ?%line_row_le; [|done..]. assert (k1 = k2) as -> by lia. congruence.
  - apply rows_between_sorted.
  - apply NoDup_Permutation; [| |intros x; by rewrite line_scan_elem, line_rows_elem].
    + unfold rows_between. rewrite merge_sort_Permutation. apply NoDup_filter, NoDup_map_to_list.
    + unfold line_rows. induction (NoDup_seqZ 1 (o_ol_cnt ov)) as [|k ks Hk _ IH]; [constructor|]. cbn [omap list_omap].
      destruct (ols t !! (w, d, o, k)); cbn [fmap option_fmap option_map]; [|done]. constructor; [|done].
      intros (k' & Hk' & (l' & _ & [= <- _])%fmap_Some)%list_elem_of_omap. done.
Qed.
End lines.
End scans.

(** * Order status *)

Record orderstatus_valid (n : Z) (q : orderstatus_input) : Prop := {
  ov_district : district_ok n (os_w_id q) (os_d_id q);
  ov_customer : customer_valid (os_by_name q) (os_last q) (os_c_id q) }.

(** The answer for customer [c]. *)
Definition orderstatus_answer (t : tables) (w d c : Z) (out : orderstatus_output) : Prop :=
  cus t !! (w, d, c) = Some (os_customer out) /\
  match os_order out with
  | Some ov => latest_order t w d c (cus_o_id out) /\ ods t !! (w, d, cus_o_id out) = Some ov /\
      os_lines out = omap (fun k => ols t !! (w, d, cus_o_id out, k)) (seqZ 1 (o_ol_cnt ov)) /\
      length (os_lines out) = Z.to_nat (o_ol_cnt ov)
  | None => cus_o_id out = 0 /\ os_lines out = [] /\ forall o ov, ods t !! (w, d, o) = Some ov -> o_c_id ov <> c
  end.

Section orderstatus.
#[local] Set Default Proof Using "Type*".
Context (calm : bool) (n : Z) (q : orderstatus_input) (t : tables) (g : generators).
Context (HW : well_formed n t) (HC : consistent t) (HV : orderstatus_valid n q).

Lemma orderstatus_customer_id_wpc c co (Q : Z -> core unit -> Prop) (E : core unit -> Prop) :
  chosen_customer t (os_by_name q) (os_w_id q) (os_d_id q) (os_last q) (os_c_id q) = Some c ->
  Q c co -> (calm = false -> E co) -> wpc calm t (orderstatus_customer_id q) co Q E.
Proof.
  intros Hc HQ HE. unfold orderstatus_customer_id. unfold chosen_customer in Hc. destruct (os_by_name q).
  - apply bind_Some in Hc as (l & Hl & Hm). repeat txn_step; try done. by apply HE.
  - destruct (os_c_id q =? 0); [done|]. injection Hc as Hc'. repeat txn_step. by rewrite Hc'.
Qed.

Lemma line_count w d o ov :
  ods t !! (w, d, o) = Some ov ->
  length (omap (fun k => ols t !! (w, d, o, k)) (seqZ 1 (o_ol_cnt ov))) = Z.to_nat (o_ol_cnt ov).
Proof.
  intros Ho. destruct (wf_order _ _ HW _ _ _ _ Ho) as (_ & _ & _ & Hcnt & _).
  transitivity (length (seqZ 1 (o_ol_cnt ov))); [|apply length_seqZ].
  assert (Forall (fun k => is_Some (ols t !! (w, d, o, k))) (seqZ 1 (o_ol_cnt ov))) as HF.
  { apply Forall_seqZ. intros k Hk. apply (cs_lines _ HC _ _ _ _ Ho). lia. }
  induction HF as [|k ks [l Hl] _ IH]; [done|]. cbn [omap list_omap]. rewrite Hl. cbn. by rewrite IH.
Qed.

Lemma orderstatus_wpc :
  wpc calm t (txn_orderstatus q) (Core t g tt)
    (fun out co => co = Core t g tt /\ exists c,
       chosen_customer t (os_by_name q) (os_w_id q) (os_d_id q) (os_last q) (os_c_id q) = Some c /\
       (os_by_name q = true -> c_last (os_customer out) = os_last q) /\
       orderstatus_answer t (os_w_id q) (os_d_id q) c out)
    (fun co => calm = false /\ c_gens co = g /\ c_loc co = tt).
Proof.
  destruct (chosen_customer_ok _ _ _ _ _ _ _ HW (ov_district _ _ HV) (ov_customer _ _ HV)) as (c & cv & Hc & Hcv & Hlast).
  destruct (proj1 (wf_cus _ _ HW (os_w_id q) (os_d_id q) c)) as [_ Hcr]; [by eexists|].
  unfold txn_orderstatus. txn_step. apply (orderstatus_customer_id_wpc c); [done| |done].
  repeat txn_step; try done. txn_scan; [|repeat txn_step; done|repeat txn_step; done].
  change (1 <? 0) with false. change (Z.to_nat 1) with 1%nat. cbv iota. repeat txn_step. cbv zeta.
  pose proof (last_order_scan n t HW HC _ _ c (ov_district _ _ HV) Hcr) as Hs. cbv zeta in Hs.
  set (o := default 0 _) in *. destruct Hs as [[Hpos Hlat]|[Hzero Hnone]].
  - rewrite (proj2 (Z.ltb_lt 0 o) Hpos). pose proof Hlat as [(ov & Ho & Hoc) _].
    repeat txn_step; try done. txn_scan; [|repeat txn_step; done|repeat txn_step; done].
    repeat txn_step. split; [done|]. exists c. split; [done|]. split; [done|]. split; [done|].
    cbn [os_order os_lines cus_o_id]. rewrite (proj2 (Z.ltb_lt (-1) 0)) by lia.
    rewrite (line_scan n t HW HC _ _ _ _ Ho). repeat (split; [done|]). by apply line_count.
  - rewrite Hzero. cbn [Z.ltb Z.compare]. repeat txn_step. split; [done|]. by exists c.
Qed.
End orderstatus.

(** C15: in a consistent database an order-status transaction never changes a
    table, whatever attempts fail, ends as soon as an attempt meets no conflict,
    and answers with the customer asked for (by name: one with that name), the
    customer's latest order and exactly its lines, in their order, or with no
    order if the customer has none. *)
Theorem order_status_latest (n : Z) (db : tpcc_db) (q : orderstatus_input) (confls : list (list bool)) :
  well_formed n (tbl db) -> consistent (tbl db) -> orderstatus_valid n q ->
  exists res r, RWTXN (txn_orderstatus q) confls (Run db [] tt 0) = Some (res, r) /\
    tbl (r_db r) = tbl db /\ gens (r_db r) = gens db /\
    ([] ∈ confls -> res <> None) /\
    forall out, res = Some out -> exists c,
      chosen_customer (tbl db) (os_by_name q) (os_w_id q) (os_d_id q) (os_last q) (os_c_id q) = Some c /\
      (os_by_name q = true -> c_last (os_customer out) = os_last q) /\
      orderstatus_answer (tbl db) (os_w_id q) (os_d_id q) c out.
Proof.
  intros HW HC HV. set (R := fun out => exists c,
      chosen_customer (tbl db) (os_by_name q) (os_w_id q) (os_d_id q) (os_last q) (os_c_id q) = Some c /\
      (os_by_name q = true -> c_last (os_customer out) = os_last q) /\
      orderstatus_answer (tbl db) (os_w_id q) (os_d_id q) c out).
  destruct (read_only_loop (txn_orderstatus q) db tt R confls [] 0) as (res & r & H1 & H2 & H3 & _ & H4 & H5).
  - intros calm. by apply (orderstatus_wpc calm n).
  - by exists res, r.
Qed.

(** * Stock level *)

Lemma stocklevel_wpc calm n t g w d threshold :
  well_formed n t -> district_ok n w d ->
  wpc calm t (txn_stocklevel w d threshold) (Core t g 0) (fun _ c => c = Core t g 0 /\ True)
    (fun c => calm = false /\ c_gens c = g /\ c_loc c = 0).
Proof.
  intros HW Hd. destruct (proj2 (wf_dts _ _ HW _ _) Hd) as [dv Hdv]. pose proof (wf_next _ _ HW _ _ Hdv) as Hnext.
  destruct (district_words n t HW _ _ Hd) as [Ww Wd]. unfold word in *.
  unfold txn_stocklevel. repeat txn_step; try done. cbv zeta. set (lo := if 20 <? d_next_o_id dv then _ else _).
  assert (0 <= lo <= d_next_o_id dv) as Hlo by (unfold lo; destruct (Z.ltb_spec 20 (d_next_o_id dv)); lia).
  assert (rows_between false (w, d, d_next_o_id dv, 0) (w, d, lo, 0) (ols t) = []) as Hr.
  { apply rows_between_empty. rewrite key_leb_line by (unfold u64_key; repeat constructor; cbn; lia).
    cbn [lex_leb fields4 fst snd]. rewrite !Z.ltb_irrefl, !Z.eqb_refl. cbn.
    apply orb_true_iff. rewrite Z.ltb_lt, andb_true_iff, Z.eqb_eq. lia. }
  txn_scan; rewrite ?Hr; [|repeat txn_step; done|repeat txn_step; done].
  repeat txn_step. cbn. by apply wpc_ret.
Qed.

(** C37: the stock-level transaction counts nothing.  It scans the order lines
    from the district's newest order up to the oldest of the last twenty, the
    bounds the wrong way round, so the scan is empty: whatever the stocks are,
    [out_count] is 0 and no stock is read. *)
Theorem stock_level_counts_nothing (n : Z) (db : tpcc_db) (w d threshold : Z) (confls : list (list bool)) :
  well_formed n (tbl db) -> district_ok n w d ->
  exists res r, RWTXN (txn_stocklevel w d threshold) confls (Run db [] 0 0) = Some (res, r) /\
    tbl (r_db r) = tbl db /\ r_locals r = 0 /\ ([] ∈ confls -> res <> None).
Proof.
  intros HW Hd. destruct (read_only_loop (txn_stocklevel w d threshold) db 0 (fun _ => True) confls [] 0)
    as (res & r & H1 & H2 & _ & H4 & H5 & _).
  - intros calm. by apply (stocklevel_wpc calm n).
  - by exists res, r.
Qed.
