(* ===== verification/TpccSys.v ===== *)
(** The TPC-C database under concurrent workers.

    A worker's attempt takes an order id (or the number of a history row) from a
    counter that is not transactional, long before it commits, and may never
    commit; others take and commit numbers in between, in any order.  A state of
    the system is the committed tables, the counters and the numbers that are
    taken by attempts under way; the steps are those of the counters and the
    commits of the transactions. *)

From stdpp Require Import functions.
From S2P Require Import Prelude Feature TpccData TpccGen TpccIndex TpccTxn TpccKeys TpccInv TpccLogic.
From S2P Require Import TpccNewOrder TpccPayment TpccDeliver.

Record tpcc_sys := {
  sy_tbl : tables; sy_gens : generators;
  open_oids : gset (Z * Z * Z);   (* warehouse, district, order id *)
  open_keys : gset (Z * Z) }.     (* warehouse of the history table, number *)
#[export] Instance eta_sys : Eta tpcc_sys := fun s => {|
  sy_tbl := sy_tbl s; sy_gens := sy_gens s; open_oids := open_oids s; open_keys := open_keys s |}.

(** An attempt that commits: it runs over the committed tables, with the
    counters as they were when it took its number. *)
Definition commits {L A} (body : txn L A) (t : tables) (g : generators) (l : L) (a : A) (t' : tables) : Prop :=
  exists ab confl s, body (Txs t t g ab l confl) = Done a s /\ t' = pend s.

Definition oid_of (w d : Z) (g : generators) : Z := oid_get w d (oid_gen_ g).
Definition hkey_of (w : Z) (g : generators) : Z := (key_gen g).[w].

Inductive tpcc_step (n : Z) (s : tpcc_sys) : tpcc_sys -> Prop :=
  | take_oid w d :
      oid_of w d (sy_gens s) < uint64_max ->
      tpcc_step n s (s <| sy_gens := claim_oid w d (sy_gens s) |>
                       <| open_oids := {[(w, d, oid_of w d (sy_gens s))]} ∪ open_oids s |>)
  | drop_oid k : tpcc_step n s (s <| open_oids := open_oids s ∖ {[k]} |>)
  | take_key w :
      hkey_of w (sy_gens s) < uint64_max ->
      tpcc_step n s (s <| sy_gens := claim_history w (sy_gens s) |>
                       <| open_keys := {[(w, hkey_of w (sy_gens s))]} ∪ open_keys s |>)
  | drop_key k : tpcc_step n s (s <| open_keys := open_keys s ∖ {[k]} |>)
  | commit_neworder Commute q g o o' t' :
      neworder_valid n q -> (no_w_id q, no_d_id q, o) ∈ open_oids s -> oid_of (no_w_id q) (no_d_id q) g = o ->
      commits (txn_neworder Commute q) (sy_tbl s) g tt o' t' ->
      tpcc_step n s (s <| sy_tbl := t' |> <| open_oids := open_oids s ∖ {[(no_w_id q, no_d_id q, o)]} |>)
  | commit_payment Commute q g k c t' :
      payment_valid n q -> (pay_c_w_id q, k) ∈ open_keys s -> hkey_of (pay_c_w_id q) g = k ->
      commits (txn_payment Commute q) (sy_tbl s) g tt c t' ->
      tpcc_step n s (s <| sy_tbl := t' |> <| open_keys := open_keys s ∖ {[(pay_c_w_id q, k)]} |>)
  | commit_delivery Commute w carrier_id delivery_date last_delivered garbage g ids t' :
      1 <= w <= n -> 1 <= carrier_id <= 10 -> delivery_date <> 0 -> length last_delivered = 10%nat ->
      commits (txn_delivery Commute w carrier_id delivery_date last_delivered) (sy_tbl s) g garbage ids t' ->
      tpcc_step n s (s <| sy_tbl := t' |>).

(** * The invariant *)

Record sys_inv (n : Z) (s : tpcc_sys) : Prop := {
  si_wf : well_formed n (sy_tbl s);
  si_consistent : consistent (sy_tbl s);
  si_gen : forall w d, 1 <= oid_of w d (sy_gens s) <= uint64_max;
  si_order : forall w d o, is_Some (ods (sy_tbl s) !! (w, d, o)) -> o < oid_of w d (sy_gens s);
  si_open : forall w d o, (w, d, o) ∈ open_oids s ->
    1 <= o < oid_of w d (sy_gens s) /\ ods (sy_tbl s) !! (w, d, o) = None;
  si_key : forall w, 0 <= hkey_of w (sy_gens s) <= uint64_max;
  si_history : forall w hk, is_Some (hts (sy_tbl s) !! (w, hk)) -> hk.2 < hkey_of w (sy_gens s);
  si_open_key : forall w k, (w, k) ∈ open_keys s ->
    k < hkey_of w (sy_gens s) /\ forall hk, hk.2 = k -> hts (sy_tbl s) !! (w, hk) = None }.

Lemma oid_of_claim w d w' d' g :
  oid_of w' d' (claim_oid w d g) =
  if decide ((w mod max_whs, d mod max_dts) = (w' mod max_whs, d' mod max_dts)) then u64 (oid_of w d g + 1) else oid_of w' d' g.
Proof. unfold oid_of, claim_oid, oid_get. cbn. by rewrite rd_insert. Qed.

Lemma hkey_of_claim w w' g :
  hkey_of w' (claim_history w g) = if decide (w = w') then u64 (hkey_of w g + 1) else hkey_of w' g.
Proof. unfold hkey_of, claim_history. cbn. by rewrite rd_insert. Qed.

(** A counter that is below the limit only grows. *)
Lemma oid_of_claim_ge w d w' d' g :
  0 <= oid_of w d g < uint64_max -> oid_of w' d' g <= oid_of w' d' (claim_oid w d g) /\
    (forall w'' d'', oid_of w'' d'' g <= uint64_max -> oid_of w'' d'' (claim_oid w d g) <= uint64_max) /\
    oid_of w d (claim_oid w d g) = oid_of w d g + 1.
Proof.
  intros Hg. assert (u64 (oid_of w d g + 1) = oid_of w d g + 1) as Hu
    by (apply wrap_small; unfold uint, uint64_max in *; lia).
  rewrite oid_of_claim, Hu. split; [|split].
  - case_decide as Hd; [|lia]. assert (oid_of w' d' g = oid_of w d g); [|lia].
    unfold oid_of, oid_get. by rewrite Hd.
  - intros w'' d''. rewrite oid_of_claim, Hu. case_decide; lia.
  - rewrite oid_of_claim, Hu. by rewrite decide_True.
Qed.

Section steps.
#[local] Set Default Proof Using "Type*".
Context (n : Z) (s : tpcc_sys) (HI : sys_inv n s).

Lemma inv_take_oid w d :
  oid_of w d (sy_gens s) < uint64_max ->
  sys_inv n (s <| sy_gens := claim_oid w d (sy_gens s) |>
               <| open_oids := {[(w, d, oid_of w d (sy_gens s))]} ∪ open_oids s |>).
Proof.
  intros Hlt. destruct HI as [I1 I2 I3 I4 I5 I6 I7 I8]. set (g := sy_gens s) in *.
  assert (0 <= oid_of w d g < uint64_max) as Hg by (specialize (I3 w d); lia).
  pose proof (fun w' d' => oid_of_claim_ge w d w' d' g Hg) as Hge. destruct (Hge w d) as (_ & Hmax & Hown).
  constructor; cbn; try assumption.
  - intros w' d'. destruct (Hge w' d') as (H1 & _ & _). specialize (I3 w' d') as H3. specialize (Hmax w' d'). lia.
  - intros w' d' o Ho. destruct (Hge w' d') as (H1 & _ & _). specialize (I4 _ _ _ Ho). lia.
  - intros w' d' o [[= -> -> ->]%elem_of_singleton|Ho]%elem_of_union.
    + split; [specialize (I3 w d); lia|]. apply eq_None_not_Some. intros Ho%I4. lia.
    + destruct (I5 _ _ _ Ho) as [H1 H2]. destruct (Hge w' d') as (H3 & _ & _). split; [lia|done].
Qed.

Lemma inv_take_key w :
  hkey_of w (sy_gens s) < uint64_max ->
  sys_inv n (s <| sy_gens := claim_history w (sy_gens s) |>
               <| open_keys := {[(w, hkey_of w (sy_gens s))]} ∪ open_keys s |>).
Proof.
  intros Hlt. destruct HI as [I1 I2 I3 I4 I5 I6 I7 I8]. set (g := sy_gens s) in *.
  assert (u64 (hkey_of w g + 1) = hkey_of w g + 1) as Hu
    by (apply wrap_small; unfold uint, uint64_max in *; specialize (I6 w); lia).
  assert (forall w', hkey_of w' g <= hkey_of w' (claim_history w g) <= uint64_max) as Hge.
  { intros w'. rewrite hkey_of_claim, Hu. specialize (I6 w'). case_decide; subst; lia. }
  assert (hkey_of w (claim_history w g) = hkey_of w g + 1) as Hown by (rewrite hkey_of_claim, decide_True by done; exact Hu).
  constructor; cbn; try assumption.
  - intros w'. specialize (Hge w'). specialize (I6 w'). lia.
  - intros w' hk Hk%I7. specialize (Hge w'). lia.
  - intros w' k [[= -> ->]%elem_of_singleton|Hk]%elem_of_union.
    + split; [lia|]. intros hk Hk. apply eq_None_not_Some. intros H%I7. lia.
    + destruct (I8 _ _ Hk) as [H1 H2]. specialize (Hge w'). split; [lia|done].
Qed.

Lemma inv_drop_oid k : sys_inv n (s <| open_oids := open_oids s ∖ {[k]} |>).
Proof.
  destruct HI as [I1 I2 I3 I4 I5 I6 I7 I8]. constructor; cbn; try assumption.
  intros w d o [Ho _]%elem_of_difference. by apply I5.
Qed.

Lemma inv_drop_key k : sys_inv n (s <| open_keys := open_keys s ∖ {[k]} |>).
Proof.
  destruct HI as [I1 I2 I3 I4 I5 I6 I7 I8]. constructor; cbn; try assumption.
  intros w h [Ho _]%elem_of_difference. by apply I8.
Qed.

(** A committed body ends as its [wpc] says. *)
Lemma commits_wpc {L A} (body : txn L A) t g (l : L) Q E a t' :
  wpc false t body (Core t g l) Q E -> commits body t g l a t' -> exists c, Q a c /\ c_pend c = t'.
Proof.
  intros Hw (ab & confl & s' & Hb & ->). specialize (Hw ab confl ltac:(done)). cbn in Hw. rewrite Hb in Hw.
  destruct Hw as (_ & _ & HQ). by exists (core_of s').
Qed.

Lemma inv_neworder Commute q g o o' t' :
  neworder_valid n q -> (no_w_id q, no_d_id q, o) ∈ open_oids s -> oid_of (no_w_id q) (no_d_id q) g = o ->
  commits (txn_neworder Commute q) (sy_tbl s) g tt o' t' ->
  sys_inv n (s <| sy_tbl := t' |> <| open_oids := open_oids s ∖ {[(no_w_id q, no_d_id q, o)]} |>).
Proof.
  intros HV Hin Hg Hc. destruct HI as [I1 I2 I3 I4 I5 I6 I7 I8]. destruct (I5 _ _ _ Hin) as [Ho Hf].
  assert (1 <= o < uint64_max) as Ho' by (specialize (I3 (no_w_id q) (no_d_id q)); lia).
  apply (commits_wpc _ _ _ _ _ _ _ _ (neworder_wpc false Commute q _ o
    (neworder_valid_ready n q _ I1 HV) (neworder_fresh n q _ o HV I1 I2 Hf) g Hg ltac:(pose proof (nv_items _ _ HV); lia)))
    in Hc as (c & [_ ->] & <-). cbn [c_pend].
  constructor; cbn; try assumption.
  - by apply neworder_well_formed.
  - by apply (neworder_consistent n).
  - intros w d x. rewrite lookup_insert_is_Some'. intros [[= <- <- <-]|H]; [lia|by apply I4].
  - intros w d x [Hx Hne]%elem_of_difference. destruct (I5 _ _ _ Hx) as [H1 H2]. split; [done|].
    rewrite lookup_insert_ne; [done|]. intros [= <- <- <-]. by apply Hne, elem_of_singleton.
Qed.

Lemma inv_payment Commute q g k c t' :
  payment_valid n q -> (pay_c_w_id q, k) ∈ open_keys s -> hkey_of (pay_c_w_id q) g = k ->
  commits (txn_payment Commute q) (sy_tbl s) g tt c t' ->
  sys_inv n (s <| sy_tbl := t' |> <| open_keys := open_keys s ∖ {[(pay_c_w_id q, k)]} |>).
Proof.
  intros HV Hin Hg Hc. destruct HI as [I1 I2 I3 I4 I5 I6 I7 I8]. destruct (I8 _ _ Hin) as [Hk Hf].
  destruct (payment_rows n q _ I1 HV) as (wv & dv & c' & cv & Hwv & Hdv & Hch & Hcv & _).
  assert (hts (sy_tbl s) !! payment_key q c' k = None) as Hnone by (by apply Hf).
  apply (commits_wpc _ _ _ _ _ _ _ _ (payment_wpc false Commute q _ g wv dv c' cv Hwv Hdv Hch Hcv k Hg Hnone))
    in Hc as (co & [_ ->] & <-). cbn [c_pend].
  constructor; cbn; try assumption.
  - by apply payment_well_formed.
  - by apply payment_consistent.
  - intros w hk. rewrite lookup_insert_is_Some'. intros [[= <- <-]|H]; [done|by apply I7].
  - intros w k' [Hx Hne]%elem_of_difference. destruct (I8 _ _ Hx) as [H1 H2]. split; [done|]. intros hk Hhk.
    rewrite lookup_insert_ne; [by apply H2|]. intros [= <- <-]. apply Hne, elem_of_singleton. by rewrite <-Hhk.
Qed.

Lemma inv_delivery Commute w carrier_id delivery_date last_delivered garbage g ids t' :
  1 <= w <= n -> 1 <= carrier_id <= 10 -> delivery_date <> 0 -> length last_delivered = 10%nat ->
  commits (txn_delivery Commute w carrier_id delivery_date last_delivered) (sy_tbl s) g garbage ids t' ->
  sys_inv n (s <| sy_tbl := t' |>).
Proof.
  intros Hw Hcar Hdate Hlen Hc. destruct HI as [I1 I2 I3 I4 I5 I6 I7 I8].
  apply (commits_wpc _ _ _ _ _ _ _ _ (delivery_wpc false Commute n w carrier_id delivery_date _ g I1 I2 True (fun _ => True)
    ltac:(done) last_delivered garbage Hlen ltac:(done))) in Hc as (co & (oid & p & He & ->) & <-). cbn [c_pend].
  destruct (delivery_effect_preserves n w carrier_id delivery_date _ Hcar Hdate _ _ 11 _ _ _ I1 I2 ltac:(lia) He) as (W & C & [Ho Hh] & _).
  constructor; cbn; rewrite ?Hh; try assumption.
  - intros w' d o. rewrite Ho. apply I4.
  - intros w' d o Hin. destruct (I5 _ _ _ Hin) as [H1 H2]. split; [done|]. apply eq_None_not_Some. rewrite Ho, H2. by intros [].
Qed.
End steps.
