(* ===== verification/TpccFill.v ===== *)
(** The phases of the loader, table by table: which rows they put and what the
    rows are like. *)

From stdpp Require Import functions.
From S2P Require Import Prelude TpccData TpccGen TpccLoad TpccInv.

(** * Tables that are filled key by key *)

(** The keys in [D] have good rows, the others are as in [m0]. *)
Definition filled {K V} `{Countable K} (G : K -> V -> Prop) (D : K -> Prop) (m0 m : gmap K V) : Prop :=
  forall k, (D k /\ exists v, m !! k = Some v /\ G k v) \/ (~ D k /\ m !! k = m0 !! k).

Section filled.
Context {K V : Type} `{Countable K}.
Implicit Types (G : K -> V -> Prop) (D : K -> Prop) (m : gmap K V).

Lemma filled_refl G D m : (forall k, ~ D k) -> filled G D m m.
Proof. intros HD k. by right. Qed.

Lemma filled_insert G m k v : G k v -> filled G (fun x => x = k) m (<[k := v]> m).
Proof.
  intros HG x. destruct (decide (x = k)) as [->|Hne].
  - left. rewrite lookup_insert_eq. by eauto.
  - right. by rewrite lookup_insert_ne.
Qed.

Lemma filled_iff G D D' m0 m : filled G D m0 m -> (forall x, D' x <-> D x) -> filled G D' m0 m.
Proof. intros HF HD x. rewrite HD. apply HF. Qed.

Lemma filled_trans G D1 D2 m0 m1 m2 :
  filled G D1 m0 m1 -> filled G D2 m1 m2 -> filled G (fun k => D1 k \/ D2 k) m0 m2.
Proof.
  intros H1 H2 k. destruct (H2 k) as [[Hd Hv]|[Hd ->]]; [by left; eauto|].
  destruct (H1 k) as [[Hd1 Hv]|[Hd1 ->]]; [left; by eauto|right; naive_solver].
Qed.

(** Where the table was empty, the rows are those of [D]. *)
Lemma filled_some G D m0 m k : filled G D m0 m -> m0 !! k = None ->
  (is_Some (m !! k) <-> D k) /\ forall v, m !! k = Some v -> G k v.
Proof.
  intros HF Hk. destruct (HF k) as [(Hd & v & Hv & HG)|[Hd ->]].
  - rewrite Hv. split; [by split; eauto|]. by intros ? [= <-].
  - rewrite Hk. split; [|done]. split; [by intros []|done].
Qed.

Lemma filled_out G D m0 m k : filled G D m0 m -> ~ D k -> m !! k = m0 !! k.
Proof. intros HF Hk. by destruct (HF k) as [[? _]|[_ ?]]. Qed.

(** One more turn. *)
Lemma filled_next G (D : Z -> K -> Prop) b j m0 m m' :
  b <= j -> filled G (fun k => exists i, b <= i < j /\ D i k) m0 m -> filled G (D j) m m' ->
  filled G (fun k => exists i, b <= i < j + 1 /\ D i k) m0 m'.
Proof.
  intros Hj HF HF'. eapply filled_iff; [eapply filled_trans; [exact HF|exact HF']|]. intros k. split.
  - intros (i & Hi0 & Hk). destruct (decide (i = j)) as [->|]; [by right|left; exists i; split; [lia|done]].
  - intros [(i & Hi0 & Hk)|Hk]; [exists i|exists j]; (split; [lia|done]).
Qed.

(** A loop whose turn [i] fills [D i]; its state has the table and a rest, with
    an invariant. *)
Lemma loop_filled {S X} G (D : Z -> K -> Prop) (I : Z -> gmap K V -> X -> Prop) (st : gmap K V -> X -> S)
    b e (body : Z -> S -> S) m0 x0 :
  b <= e -> I b m0 x0 ->
  (forall i m x, b <= i < e -> I i m x -> exists m' x', body i (st m x) = st m' x' /\ I (i + 1) m' x' /\ filled G (D i) m m') ->
  exists m x, for_range b e body (st m0 x0) = st m x /\ I e m x /\
    filled G (fun k => exists i, b <= i < e /\ D i k) m0 m.
Proof.
  intros Hbe HI Hb. apply (for_range_ind (fun j y => exists m x, y = st m x /\ I j m x /\
    filled G (fun k => exists i, b <= i < j /\ D i k) m0 m) b e); [done| |].
  - exists m0, x0. split_and!; [done..|]. apply filled_refl. intros k (i & ? & _). lia.
  - intros j y Hj (m & x & -> & Hi & HF). destruct (Hb j m x Hj Hi) as (m' & x' & -> & Hi' & HF').
    exists m', x'. split_and!; [done..|]. eapply filled_next; [lia|exact HF|exact HF'].
Qed.

(** A loop that puts one row per turn. *)
Lemma put_loop {S X} G (key : Z -> K) (st : gmap K V -> X -> S) b e (body : Z -> S -> S) m0 x0 :
  b <= e ->
  (forall i m x, b <= i < e -> exists v x', body i (st m x) = st (<[key i := v]> m) x' /\ G (key i) v) ->
  exists m x, for_range b e body (st m0 x0) = st m x /\ filled G (fun k => exists i, b <= i < e /\ k = key i) m0 m.
Proof.
  intros Hbe Hb. destruct (loop_filled G (fun i k => k = key i) (fun _ _ _ => True) st b e body m0 x0)
    as (m & x & E & _ & HF); [done..| |by eauto].
  intros i m x Hi _. destruct (Hb i m x Hi) as (v & x' & E & HG). exists (<[key i := v]> m), x'.
  split_and!; [done..|]. by apply filled_insert.
Qed.
End filled.

Section load.
#[local] Set Default Proof Using "Type*".
Context {R : Mt19937} {RO : Mt19937Ok R} (garbage : Z).

Lemma random_ok x y g v g' : random x y g = (v, g') -> x <= y -> x <= v <= y.
Proof. intros [= <- _] Hle. by apply uniform_range. Qed.

(** Takes the draws of a body apart. *)
Ltac draws :=
  repeat match goal with
  | |- context [let '(_, _) := ?e in _] => destruct e as [? ?] eqn:?
  end.

(** ** Items, warehouses, stocks, districts *)

Definition item_good (i : Z) (iv : item_value) : Prop := 1 <= i_im_id iv <= 10000 /\ 100 <= i_price iv <= 10000.

Lemma fill_items_ok t g : exists m g', fill_items 1 100001 (t, g) = (t <| its := m |>, g') /\
  filled item_good (fun k => exists i, 1 <= i < 100001 /\ k = i) (its t) m.
Proof.
  unfold fill_items. replace (t, g) with (t <| its := its t |>, g) by (by destruct t).
  apply (put_loop item_good (fun i => i) (fun m g => (t <| its := m |>, g))); [lia|].
  intros i m x Hi. unfold fill_item. draws. do 2 eexists. split; [reflexivity|].
  split; eapply random_ok; eauto; lia.
Qed.

Definition warehouse_good (w : Z) (wv : warehouse_value) : Prop := w_ytd wv = 30000000.

Lemma fill_warehouses_ok n t g : 0 <= n -> exists m g', fill_warehouses n (t, g) = (t <| whs := m |>, g') /\
  filled warehouse_good (fun k => exists i, 1 <= i < 1 + n /\ k = i) (whs t) m.
Proof.
  intros Hn. unfold fill_warehouses. replace (t, g) with (t <| whs := whs t |>, g) by (by destruct t).
  apply (put_loop warehouse_good (fun i => i) (fun m g => (t <| whs := m |>, g))); [lia|].
  intros i m x Hi. unfold fill_warehouse. draws. do 2 eexists. by split.
Qed.

Definition stock_good (k : stock_key) (sv : stock_value) : Prop :=
  length (s_dists sv) = 10%nat /\ 10 <= s_quantity sv <= 100.

Lemma draw_dists_length g : length (draw_dists g).1 = 10%nat.
Proof.
  apply (for_range_ind (fun k s => length s.1 = Z.to_nat k) 0 NUM_DISTRICTS_PER_WAREHOUSE); [done..|].
  intros k [l1 g1] Hk IH. cbn in IH. destruct (random_a_string 24 24 g1) as [x g2]. cbn.
  rewrite length_app, IH. cbn. lia.
Qed.

Lemma fill_stocks_ok w t g : exists m g', for_range 1 (1 + NUM_ITEMS) (fill_stock w) (t, g) = (t <| sts := m |>, g') /\
  filled stock_good (fun k => exists i, 1 <= i < 1 + NUM_ITEMS /\ k = (w, i)) (sts t) m.
Proof.
  replace (t, g) with (t <| sts := sts t |>, g) by (by destruct t).
  apply (put_loop stock_good (fun i => (w, i)) (fun m g => (t <| sts := m |>, g))); [unfold NUM_ITEMS; lia|].
  intros i m x Hi. unfold fill_stock. destruct (random 10 100 x) as [q g1] eqn:Hq.
  pose proof (draw_dists_length g1) as Hl. draws. do 2 eexists. split; [reflexivity|]. split; [done|].
  eapply random_ok; eauto. lia.
Qed.

Definition district_good (k : district_key) (dv : district_value) : Prop := d_ytd dv = 3000000 /\ d_next_o_id dv = 3001.

Lemma fill_districts_ok w t g : exists m g',
  for_range 1 (1 + NUM_DISTRICTS_PER_WAREHOUSE) (fill_district w) (t, g) = (t <| dts := m |>, g') /\
  filled district_good (fun k => exists i, 1 <= i < 1 + NUM_DISTRICTS_PER_WAREHOUSE /\ k = (w, i)) (dts t) m.
Proof.
  replace (t, g) with (t <| dts := dts t |>, g) by (by destruct t).
  apply (put_loop district_good (fun i => (w, i)) (fun m g => (t <| dts := m |>, g)));
    [unfold NUM_DISTRICTS_PER_WAREHOUSE; lia|].
  intros i m x Hi. unfold fill_district. draws. do 2 eexists. by split.
Qed.

Lemma expand_warehouse_ok w t g : exists ms md g', expand_warehouse w (t, g) = (t <| sts := ms |> <| dts := md |>, g') /\
  filled stock_good (fun k => exists i, 1 <= i < 1 + NUM_ITEMS /\ k = (w, i)) (sts t) ms /\
  filled district_good (fun k => exists i, 1 <= i < 1 + NUM_DISTRICTS_PER_WAREHOUSE /\ k = (w, i)) (dts t) md.
Proof.
  unfold expand_warehouse. destruct (fill_stocks_ok w t g) as (ms & g1 & -> & H1).
  destruct (fill_districts_ok w (t <| sts := ms |>) g1) as (md & g2 & -> & H2). by exists ms, md, g2.
Qed.

(** ** Customers and their names *)

(** The name of a number has at most 15 characters, none of them NUL. *)
Lemma last_names_ok x : x ∈ last_names -> (length x <= 5)%nat /\ Forall (fun z => z <> 0) x.
Proof.
  assert (Forall (fun x : list Z => (length x <= 5)%nat /\ Forall (fun z => z <> 0) x) last_names) as HF
    by (apply (bool_decide_unpack _); vm_compute; exact I).
  by rewrite Forall_forall in HF; intros; apply HF.
Qed.

Lemma to_last_name_ok num last : to_last_name num = Some last -> (length last <= 15)%nat /\ Forall (fun z => z <> 0) last.
Proof.
  intros (a & Ha & (b & Hb & (c & Hc & H)%bind_Some)%bind_Some)%bind_Some.
  destruct (_ && _) in H; [|done]. injection H as <-.
  apply list_elem_of_lookup_2, last_names_ok in Ha as [? ?], Hb as [? ?], Hc as [? ?].
  rewrite !length_app, !Forall_app. split; [lia|done].
Qed.

Lemma to_last_name_some num : 0 <= num <= 999 <-> is_Some (to_last_name num).
Proof.
  unfold to_last_name. split.
  - intros Hn. assert (forall z, 0 <= z < 10 -> is_Some (last_names !! Z.to_nat z)) as Hl
      by (intros z Hz; apply lookup_lt_is_Some_2; cbn; lia).
    destruct (Hl (num / 100)) as [a ->]; [split; [apply Z.div_pos|apply Z.div_lt_upper_bound]; lia|]. cbn [mbind option_bind].
    assert (0 <= num mod 100 < 100) by (apply Z.mod_pos_bound; lia).
    destruct (Hl (num mod 100 / 10)) as [b ->]; [split; [apply Z.div_pos|apply Z.div_lt_upper_bound]; lia|]. cbn [mbind option_bind].
    destruct (Hl ((num mod 100) mod 10)) as [c ->]; [apply Z.mod_pos_bound; lia|]. cbn [mbind option_bind].
    rewrite (proj2 (Z.leb_le 0 num)), (proj2 (Z.leb_le num 999)) by lia. by eexists.
  - intros (l & (? & _ & (? & _ & (? & _ & H)%bind_Some)%bind_Some)%bind_Some). destruct (_ && _) eqn:E in H; [lia|done].
Qed.

Lemma pad_inj (a b : list Z) i j : Forall (fun z => z <> 0) a -> Forall (fun z => z <> 0) b ->
  a ++ replicate i 0 = b ++ replicate j 0 -> a = b.
Proof.
  intros Ha. revert b. induction Ha as [|x a Hx Ha IH]; intros b Hb E.
  - destruct Hb as [|y b Hy Hb]; [done|]. destruct i; cbn in E; [done|]. by injection E as <- _.
  - destruct Hb as [|y b Hy Hb].
    + destruct j; cbn in E; [done|]. by injection E as -> _.
    + cbn in E. injection E as -> E. f_equal. by apply IH.
Qed.

Lemma idx_key_inj w d w' d' num num' last last' :
  to_last_name num = Some last -> to_last_name num' = Some last' -> idx_key w d last = idx_key w' d' last' ->
  w = w' /\ d = d' /\ last = last'.
Proof.
  intros [_ H1]%to_last_name_ok [_ H2]%to_last_name_ok [= -> -> E]. split_and!; [done..|]. by eapply pad_inj.
Qed.

Definition customer_good (k : customer_key) (cv : customer_value) : Prop :=
  c_balance cv = -1000 /\ c_ytd_payment cv = 1000 /\
  (exists num, to_last_name num = Some (c_last cv)) /\ (k.2 <= 1000 -> to_last_name (k.2 - 1) = Some (c_last cv)).

(** The name index of warehouse [w] lists the customers by name. *)
Definition names_of (w : Z) (m : gmap customer_key customer_value) (cids : gmap customer_idx_key (list Z)) : Prop :=
  (forall k c, c ∈ default [] (cids !! k) <-> exists d cv, k = idx_key w d (c_last cv) /\ m !! (w, d, c) = Some cv) /\
  forall k, cids !! k <> Some [].

Lemma names_of_put w m cids d c cv :
  names_of w m cids -> m !! (w, d, c) = None ->
  names_of w (<[(w, d, c) := cv]> m)
    (<[idx_key w d (c_last cv) := c :: default [] (cids !! idx_key w d (c_last cv))]> cids).
Proof.
  intros [H1 H2] Hf. set (k0 := idx_key w d (c_last cv)). split; intros k.
  2:{ destruct (decide (k0 = k)) as [<-|Hne]; [by rewrite lookup_insert_eq|by rewrite lookup_insert_ne]. }
  intros c'. assert (c' ∈ default [] (<[k0 := c :: default [] (cids !! k0)]> cids !! k) <->
    (k = k0 /\ c' = c) \/ c' ∈ default [] (cids !! k)) as ->.
  { destruct (decide (k0 = k)) as [<-|Hne]; [rewrite lookup_insert_eq|rewrite lookup_insert_ne by done]; cbn.
    - rewrite elem_of_cons. naive_solver.
    - naive_solver. }
  rewrite H1. split.
  - intros [[-> ->]|(d' & cv' & -> & Hc)].
    + exists d, cv. by rewrite lookup_insert_eq.
    + exists d', cv'. rewrite lookup_insert_ne; [done|]. congruence.
  - intros (d' & cv' & -> & Hc). apply lookup_insert_Some in Hc as [[E <-]|[_ Hc]]; [|right; by eauto].
    injection E as <- <-. by left.
Qed.

(** One draw of the loader: what is put for customer [c]. *)
Lemma fill_customer_ok w d c t g cids : 1 <= c ->
  exists cv g', customer_good (w, d, c) cv /\
    fill_customer w d c ((t, g), cids) =
      ((t <| cus := <[(w, d, c) := cv]> (cus t) |>, g'),
       <[idx_key w d (c_last cv) := c :: default [] (cids !! idx_key w d (c_last cv))]> cids).
Proof.
  intros Hc. unfold fill_customer.
  destruct (if c <=? 1000 then _ else _) as [num g0] eqn:Hnum.
  assert (0 <= num <= 999 /\ (c <= 1000 -> num = c - 1)) as [Hr Hc1].
  { destruct (Z.leb_spec c 1000).
    - injection Hnum as <- <-. lia.
    - unfold gen_customer_last_name_num, nurand in Hnum. destruct (random 0 255 g) as [r g1], (random 0 999 g1) as [r' g2].
      injection Hnum as <- _. change (999 - 0 + 1) with 1000. pose proof (Z.mod_pos_bound (u64 (Z.lor r r' + 157)) 1000).
      lia. }
  destruct (proj1 (to_last_name_some num) Hr) as [last Hlast]. pose proof (to_last_name_ok _ _ Hlast) as [Hlen _].
  rewrite Hlast. cbn [default]. unfold default, id, var_string at 1. rewrite (take_ge last) by lia.
  repeat match goal with |- context [let '(_, _) := ?e in _] => destruct e as [? ?] end.
  do 2 eexists. split; [|apply (f_equal2 pair); [reflexivity|]; reflexivity]. split_and!; [done..|by eexists|].
  cbn [snd]. intros H1. by rewrite <-(Hc1 H1).
Qed.

Lemma expand_districts_ok w t g :
  (forall d c, cus t !! (w, d, c) = None) -> exists m cids g',
  expand_districts w (t, g) = (t <| cus := m |> <| cni := cids ∪ cni t |>, g') /\
  filled customer_good (fun k => exists d, 1 <= d < 1 + NUM_DISTRICTS_PER_WAREHOUSE /\
    exists c, 1 <= c < 1 + NUM_CUSTOMERS_PER_DISTRICT /\ k = (w, d, c)) (cus t) m /\
  names_of w m cids.
Proof.
  intros Hf. unfold expand_districts.
  set (st := fun m (x : input_generator * gmap customer_idx_key (list Z)) => ((t <| cus := m |>, x.1), x.2)).
  assert (((t, g), ∅) = st (cus t) (g, ∅)) as -> by (by destruct t).
  destruct (loop_filled customer_good (fun d k => exists c, 1 <= c < 1 + NUM_CUSTOMERS_PER_DISTRICT /\ k = (w, d, c))
    (fun d m x => names_of w m x.2 /\ forall d' c, d <= d' -> m !! (w, d', c) = None) st 1 (1 + NUM_DISTRICTS_PER_WAREHOUSE)
    (fun did => for_range 1 (1 + NUM_CUSTOMERS_PER_DISTRICT) (fill_customer w did)) (cus t) (g, ∅)) as (m & [g' cids] & E & [HN _] & HF).
  - unfold NUM_DISTRICTS_PER_WAREHOUSE. lia.
  - split; [|by eauto]. split; [|done]. intros k c. cbn. split; [by intros ?%not_elem_of_nil|].
    intros (d & cv & _ & Hc). by rewrite Hf in Hc.
  - intros d m x Hd [HN Hm].
    destruct (loop_filled customer_good (fun c k => k = (w, d, c))
      (fun c m x => names_of w m x.2 /\ (forall c', c <= c' -> m !! (w, d, c') = None) /\
         forall d' c', d + 1 <= d' -> m !! (w, d', c') = None) st 1 (1 + NUM_CUSTOMERS_PER_DISTRICT)
      (fill_customer w d) m x) as (m' & x' & E & (HN' & _ & Hm') & HF).
    + unfold NUM_CUSTOMERS_PER_DISTRICT. lia.
    + split_and!; [done|intros; apply Hm; lia..].
    + intros c m1 [g1 cids1] Hc (HN1 & Hf1 & Ho1). unfold st. cbn [fst snd] in HN1 |- *.
      destruct (fill_customer_ok w d c (t <| cus := m1 |>) g1 cids1 ltac:(lia)) as (cv & g2 & Hg & E).
      exists (<[(w, d, c) := cv]> m1), (g2, <[idx_key w d (c_last cv) := c :: default [] (cids1 !! idx_key w d (c_last cv))]> cids1).
      split; [rewrite E; reflexivity|]. split; [|by apply filled_insert]. cbn [snd]. split_and!.
      * apply names_of_put; [done|apply Hf1; lia].
      * intros c' Hc'. rewrite lookup_insert_ne; [apply Hf1; lia|intros [= ?]; lia].
      * intros d' c' Hd'. rewrite lookup_insert_ne; [by apply Ho1|intros [= ? ?]; lia].
    + exists m', x'. split; [exact E|]. split; [|exact HF]. split; [exact HN'|exact Hm'].
  - rewrite E. exists m, cids, g'. split; [reflexivity|]. split; [exact HF|exact HN].
Qed.

(** ** Histories *)

(** The number of the history row of customer [c] of district [d]. *)
Definition history_number (d c : Z) : Z := (d - 1) * NUM_CUSTOMERS_PER_DISTRICT + (c - 1).

Definition history_row_key (w d c : Z) : Z * history_key := (w, (u32 w, u32 d, c, history_number d c)).

Lemma history_row_key_inj w d c w' d' c' :
  history_row_key w d c = history_row_key w' d' c' -> w = w' /\ d = d' /\ c = c'.
Proof.
  unfold history_row_key, history_number, NUM_CUSTOMERS_PER_DISTRICT. intros [= -> _ _ -> E]. split_and!; [done|lia|done].
Qed.

Definition history_good (k : Z * history_key) (hv : history_value) : Prop :=
  h_c_w_id hv = k.1 /\ k = history_row_key (h_c_w_id hv) (h_c_d_id hv) (h_c_id hv) /\ h_amount hv = 1000.

Lemma fill_histories_ok w t g : exists m g',
  for_range 1 (1 + NUM_DISTRICTS_PER_WAREHOUSE) (fun did =>
    for_range 1 (1 + NUM_CUSTOMERS_PER_DISTRICT) (fill_history garbage w did)) ((t, g), 0) =
    ((t <| hts := m |>, g'), NUM_DISTRICTS_PER_WAREHOUSE * NUM_CUSTOMERS_PER_DISTRICT) /\
  filled history_good (fun k => exists d, 1 <= d < 1 + NUM_DISTRICTS_PER_WAREHOUSE /\
    exists c, 1 <= c < 1 + NUM_CUSTOMERS_PER_DISTRICT /\ k = history_row_key w d c) (hts t) m.
Proof.
  set (st := fun m (x : input_generator * Z) => ((t <| hts := m |>, x.1), x.2)).
  assert (((t, g), 0) = st (hts t) (g, 0)) as -> by (by destruct t).
  destruct (loop_filled history_good
    (fun d k => exists c, 1 <= c < 1 + NUM_CUSTOMERS_PER_DISTRICT /\ k = history_row_key w d c)
    (fun d _ x => x.2 = history_number d 1) st 1 (1 + NUM_DISTRICTS_PER_WAREHOUSE)
    (fun did => for_range 1 (1 + NUM_CUSTOMERS_PER_DISTRICT) (fill_history garbage w did)) (hts t) (g, 0))
    as (m & [g' k] & E & Hk & HF).
  - unfold NUM_DISTRICTS_PER_WAREHOUSE. lia.
  - done.
  - intros d m x Hd Hx.
    destruct (loop_filled history_good (fun c k => k = history_row_key w d c) (fun c _ x => x.2 = history_number d c)
      st 1 (1 + NUM_CUSTOMERS_PER_DISTRICT) (fill_history garbage w d) m x) as (m' & x' & E & Hx' & HF).
    + unfold NUM_CUSTOMERS_PER_DISTRICT. lia.
    + exact Hx.
    + intros c m1 [g1 k1] Hc Hk. cbn [snd] in Hk. subst k1. unfold st. cbn [fst snd]. unfold fill_history.
      destruct (gen_date g1) as [date g2], (random_a_string 12 24 g2) as [data g3].
      eexists (<[history_row_key w d c := _]> m1), (g3, history_number d (c + 1)).
      split; [apply (f_equal2 pair); [reflexivity|]|split; [done|by apply filled_insert]].
      cbn [fst snd]. unfold history_number, NUM_CUSTOMERS_PER_DISTRICT, NUM_DISTRICTS_PER_WAREHOUSE in *.
      rewrite wrap_small by (unfold uint; lia). lia.
    + exists m', x'. split; [exact E|]. split; [|exact HF]. rewrite Hx'. unfold history_number. lia.
  - rewrite E. exists m, g'. split; [|exact HF]. unfold st. cbn [fst snd] in Hk |- *. f_equal. rewrite Hk.
    unfold history_number. lia.
Qed.
End load.
