(* ===== verification/TpccSafe.v ===== *)
(** The database the loader leaves is well formed and consistent, and what holds from
    there on in every state that the concurrent attempts can reach. *)

From stdpp Require Import functions.
From S2P Require Import Prelude Feature TpccData TpccGen TpccIndex TpccTxn TpccLoad TpccKeys TpccInv TpccLogic.
From S2P Require Import TpccNewOrder TpccPayment TpccDeliver TpccRead TpccSys TpccFill.

(** * Orders *)

(** What the loader has of [well_formed] and [consistent] for the tables of the
    orders. *)
Record orders_part (t : tables) : Prop := {
  op_order : forall w d o ov, ods t !! (w, d, o) = Some ov ->
    1 <= o_c_id ov <= NUM_CUSTOMERS_PER_DISTRICT /\ 1 <= o_ol_cnt ov <= 15 /\ 0 <= o_carrier_id ov <= 10 /\
    (o_carrier_id ov = 0 <-> 2101 <= o);
  op_line : forall k l, ols t !! k = Some l -> 0 <= ol_amount l <= 999999;
  op_lines : forall w d o ov, ods t !! (w, d, o) = Some ov ->
    forall k, is_Some (ols t !! (w, d, o, k)) <-> 1 <= k <= o_ol_cnt ov;
  op_line_order : forall w d o k, is_Some (ols t !! (w, d, o, k)) -> is_Some (ods t !! (w, d, o));
  op_new : forall w d o, is_Some (nos t !! (w, d, o)) <-> exists ov, ods t !! (w, d, o) = Some ov /\ o_carrier_id ov = 0;
  op_index : forall w d c o, is_Some (oci t !! (w, d, c, o)) <-> exists ov, ods t !! (w, d, o) = Some ov /\ o_c_id ov = c;
  op_date : forall w d o k ov l, ods t !! (w, d, o) = Some ov -> ols t !! (w, d, o, k) = Some l ->
    (ol_delivery_d l = 0 <-> o_carrier_id ov = 0);
  op_delivered : forall w d o k ov l, ods t !! (w, d, o) = Some ov -> o_carrier_id ov <> 0 ->
    ols t !! (w, d, o, k) = Some l -> ol_amount l = 0 }.

(** The line of an order that is, or is not, delivered. *)
Definition line_good (delivered : bool) (k : orderline_key) (l : orderline_value) : Prop :=
  0 <= ol_amount l <= 999999 /\ if delivered then ol_amount l = 0 /\ ol_delivery_d l <> 0 else ol_delivery_d l = 0.

Section add.
#[local] Set Default Proof Using "Type*".
Context (t t' : tables) (w d o : Z) (ov : order_value) (HP : orders_part t) (Hf : ods t !! (w, d, o) = None).
Context (Hods : ods t' = <[(w, d, o) := ov]> (ods t)) (Hoci : oci t' = <[(w, d, o_c_id ov, o) := tt]> (oci t)).
Context (Hnos : nos t' = if o_carrier_id ov =? 0 then <[(w, d, o) := tt]> (nos t) else nos t).
Context (Hols : filled (line_good (negb (o_carrier_id ov =? 0))) (fun k => exists i, 1 <= i < 1 + o_ol_cnt ov /\ k = (w, d, o, i)) (ols t) (ols t')).
Context (Hov : 1 <= o_c_id ov <= NUM_CUSTOMERS_PER_DISTRICT /\ 1 <= o_ol_cnt ov <= 15 /\ 0 <= o_carrier_id ov <= 10 /\
  (o_carrier_id ov = 0 <-> 2101 <= o)).

Lemma add_lines k : (is_Some (ols t' !! (w, d, o, k)) <-> 1 <= k <= o_ol_cnt ov) /\
  forall l, ols t' !! (w, d, o, k) = Some l -> line_good (negb (o_carrier_id ov =? 0)) (w, d, o, k) l.
Proof.
  assert (ols t !! (w, d, o, k) = None) as Hn
    by (apply eq_None_not_Some; intros H%(op_line_order _ HP); rewrite Hf in H; by destruct H).
  destruct (filled_some _ _ _ _ _ Hols Hn) as [H1 H2]. split; [|exact H2]. rewrite H1. split.
  - intros (i & Hi & [= ->]). lia.
  - intros Hk. exists k. split; [lia|done].
Qed.

Lemma add_other k : k.1 <> (w, d, o) -> ols t' !! k = ols t !! k.
Proof. intros Hk. apply (filled_out _ _ _ _ _ Hols). intros (i & _ & ->). done. Qed.

Lemma orders_part_add : orders_part t'.
Proof.
  pose proof add_lines as HL. pose proof add_other as HO.
  constructor.
  - intros w' d' o' ov'. rewrite Hods. intros [[[= <- <- <-] <-]|[_ H]]%lookup_insert_Some; [done|by eapply (op_order _ HP)].
  - intros [k i] l H. destruct (decide (k = (w, d, o))) as [->|Hne]; [by apply (HL i) in H as [? _]|].
    rewrite HO in H by done. by apply (op_line _ HP) in H.
  - intros w' d' o' ov'. rewrite Hods. intros [[[= <- <- <-] <-]|[Hne H]]%lookup_insert_Some k; [apply HL|].
    rewrite HO by done. by apply (op_lines _ HP).
  - intros w' d' o' k. rewrite Hods, lookup_insert_is_Some'. destruct (decide ((w, d, o) = (w', d', o'))); [by left|].
    rewrite HO by (cbn; congruence). intros H. right. by apply (op_line_order _ HP) in H.
  - intros w' d' o'. rewrite Hnos, Hods. destruct (decide ((w, d, o) = (w', d', o'))) as [E|Hne].
    + injection E as <- <- <-. rewrite lookup_insert_eq. destruct (Z.eqb_spec (o_carrier_id ov) 0).
      * rewrite lookup_insert_eq. split; [by exists ov|by eauto].
      * split; [|naive_solver]. intros (ov' & Ho & _)%(op_new _ HP). congruence.
    + rewrite lookup_insert_ne by done. destruct (_ =? _); rewrite ?lookup_insert_ne by done; apply (op_new _ HP).
  - intros w' d' c o'. rewrite Hoci, Hods, lookup_insert_is_Some', (op_index _ HP). split.
    + intros [[= <- <- <- <-]|(ov' & Ho & Hc)]; [exists ov; by rewrite lookup_insert_eq|].
      exists ov'. rewrite lookup_insert_ne; [done|]. congruence.
    + intros (ov' & [[[= <- <- <-] <-]|[_ Ho]]%lookup_insert_Some & <-); [by left|right; by eauto].
  - intros w' d' o' k ov' l. rewrite Hods. intros [[[= <- <- <-] <-]|[Hne H]]%lookup_insert_Some Hl.
    + apply (HL k) in Hl as [_ Hl]. destruct (Z.eqb_spec (o_carrier_id ov) 0); cbn in Hl; naive_solver.
    + rewrite HO in Hl by done. by eapply (op_date _ HP).
  - intros w' d' o' k ov' l. rewrite Hods. intros [[[= <- <- <-] <-]|[Hne H]]%lookup_insert_Some Hc Hl.
    + apply (HL k) in Hl as [_ Hl]. destruct (Z.eqb_spec (o_carrier_id ov) 0); cbn in Hl; naive_solver.
    + rewrite HO in Hl by done. by eapply (op_delivered _ HP).
Qed.
End add.

(** Only the tables of the orders change. *)
Definition orders_only (t t' : tables) : Prop :=
  t' = t <| ods := ods t' |> <| oci := oci t' |> <| ols := ols t' |> <| nos := nos t' |>.

Lemma orders_only_refl t : orders_only t t.
Proof. by destruct t. Qed.

Lemma orders_only_trans t1 t2 t3 : orders_only t1 t2 -> orders_only t2 t3 -> orders_only t1 t3.
Proof. destruct t1, t2, t3. unfold orders_only. cbn. congruence. Qed.

Section load.
#[local] Set Default Proof Using "Type*".
Context {R : Mt19937} {RO : Mt19937Ok R} (garbage : Z).

Lemma fill_lines_ok w d o cnt date t g : 0 <= cnt -> date <> 0 -> exists m g',
  for_range 1 (1 + cnt) (fill_line w d o date) (t, g) = (t <| ols := m |>, g') /\
  filled (line_good (o <? 2101)) (fun k => exists i, 1 <= i < 1 + cnt /\ k = (w, d, o, i)) (ols t) m.
Proof.
  intros Hc Hd. replace (t, g) with (t <| ols := ols t |>, g) by (by destruct t).
  apply (put_loop (line_good (o <? 2101)) (fun i => (w, d, o, i)) (fun m g => (t <| ols := m |>, g))); [lia|].
  intros i m x Hi. unfold fill_line. destruct (random 1 100000 x) as [i_id g1].
  destruct (if o <? 2101 then _ else _) as [amount g2] eqn:Ha. destruct (random_a_string 24 24 g2) as [info g3].
  do 2 eexists. split; [reflexivity|]. unfold line_good. cbn. destruct (o <? 2101).
  - injection Ha as <- _. lia.
  - apply random_ok in Ha; lia.
Qed.

Lemma fill_order_ok w d perm o t g :
  orders_part t -> ods t !! (w, d, o) = None -> 1 <= default 0 (perm !! Z.to_nat (o - 1)) <= NUM_CUSTOMERS_PER_DISTRICT ->
  exists t' g', fill_order w d perm o (t, g) = (t', g') /\ orders_part t' /\ orders_only t t' /\
    forall k, is_Some (ods t' !! k) <-> k = (w, d, o) \/ is_Some (ods t !! k).
Proof.
  intros HP Hf Hc. unfold fill_order.
  destruct (random 5 15 g) as [cnt g1] eqn:Hcnt. apply random_ok in Hcnt; [|lia].
  destruct (gen_date g1) as [date g2] eqn:Hdate. apply random_ok in Hdate; [|lia].
  destruct (if o <? 2101 then _ else _) as [carrier g3] eqn:Hcar.
  assert (0 <= carrier <= 10 /\ (carrier =? 0) = negb (o <? 2101)) as [Hcr Hcz].
  { destruct (o <? 2101); cbn; [apply random_ok in Hcar; [|lia]|injection Hcar as <- _]; lia. }
  set (c := default 0 _) in *.
  match goal with |- context [for_range _ _ _ (?x, _)] => set (t1 := x) end.
  destruct (fill_lines_ok w d o cnt date t1 g3) as (m & g4 & -> & HF); [lia..|].
  do 2 eexists. split; [reflexivity|].
  match goal with |- orders_part ?x /\ _ => set (t2 := x) end.
  assert (negb (2101 <=? o) = (o <? 2101)) as Ho by lia.
  assert (t2 = t <| ods := ods t1 |> <| oci := oci t1 |> <| ols := m |>
    <| nos := if carrier =? 0 then <[(w, d, o) := tt]> (nos t) else nos t |>) as Et.
  { unfold t2. rewrite Hcz, <-Ho, negb_involutive. destruct t, (2101 <=? o); reflexivity. }
  clearbody t2. subst t2. split_and!.
  - eapply (orders_part_add t _ w d o _ HP Hf); try reflexivity; cbn; [|lia].
    rewrite Hcz, negb_involutive. exact HF.
  - by destruct t.
  - intros k. cbn. rewrite lookup_insert_is_Some'. naive_solver.
Qed.

(** A loop whose turn [i] adds the orders of [D i]. *)
Lemma loop_orders (D : Z -> order_key -> Prop) b e (body : Z -> loader -> loader) t g :
  b <= e -> orders_part t -> (forall i k, b <= i < e -> D i k -> ods t !! k = None) ->
  (forall i j k, D i k -> D j k -> i = j) ->
  (forall i t1 g1, b <= i < e -> orders_part t1 -> (forall k, D i k -> ods t1 !! k = None) ->
     exists t' g', body i (t1, g1) = (t', g') /\ orders_part t' /\ orders_only t1 t' /\
       forall k, is_Some (ods t' !! k) <-> D i k \/ is_Some (ods t1 !! k)) ->
  exists t' g', for_range b e body (t, g) = (t', g') /\ orders_part t' /\ orders_only t t' /\
    forall k, is_Some (ods t' !! k) <-> (exists i, b <= i < e /\ D i k) \/ is_Some (ods t !! k).
Proof.
  intros Hbe HP Hf Hdis Hb. apply (for_range_ind (fun j y => exists t' g', y = (t', g') /\ orders_part t' /\ orders_only t t' /\
    forall k, is_Some (ods t' !! k) <-> (exists i, b <= i < j /\ D i k) \/ is_Some (ods t !! k)) b e); [done| |].
  - exists t, g. split_and!; [done..|apply orders_only_refl|]. intros k. split; [by right|].
    intros [(i & ? & _)|?]; [lia|done].
  - intros j y Hj (t1 & g1 & -> & HP1 & HO1 & HD1). destruct (Hb j t1 g1 Hj HP1) as (t2 & g2 & E & HP2 & HO2 & HD2).
    { intros k Hk. apply eq_None_not_Some. intros [(i & Hi & Hk')|[? H]]%HD1; [|by rewrite (Hf j) in H].
      assert (i = j) by by eapply Hdis. lia. }
    exists t2, g2. split_and!; [done..|by eapply orders_only_trans|]. intros k. rewrite HD2, HD1. split.
    + intros [Hk|[(i & Hi & Hk)|Hk]]; [left; exists j|left; exists i|by right]; (split; [lia|done]).
    + intros [(i & Hi & Hk)|Hk]; [|by auto]. destruct (decide (i = j)) as [->|]; [by left|].
      right; left. exists i. split; [lia|done].
Qed.

Lemma fill_orders_ok w d t g :
  orders_part t -> (forall o, 1 <= o < 1 + NUM_CUSTOMERS_PER_DISTRICT -> ods t !! (w, d, o) = None) ->
  exists t' g', fill_orders w d (t, g) = (t', g') /\ orders_part t' /\ orders_only t t' /\
    forall k, is_Some (ods t' !! k) <->
      (exists o, 1 <= o < 1 + NUM_CUSTOMERS_PER_DISTRICT /\ k = (w, d, o)) \/ is_Some (ods t !! k).
Proof.
  intros HP Hf. unfold fill_orders. destruct (random_shuffle _ g) as [perm g1] eqn:Hp.
  assert (Permutation perm (seqZ 1 NUM_CUSTOMERS_PER_DISTRICT)) as Hperm by (injection Hp as <- _; apply shuffle_perm).
  apply (loop_orders (fun o k => k = (w, d, o))); [unfold NUM_CUSTOMERS_PER_DISTRICT; lia|done|intros ? ? ? ->; by apply Hf|congruence|].
  intros o t1 g2 Ho HP1 Hf1. apply fill_order_ok; [done|by apply Hf1|].
  destruct (lookup_lt_is_Some_2 perm (Z.to_nat (o - 1))) as [c Hc].
  { rewrite Hperm, length_seqZ. lia. }
  rewrite Hc. cbn. apply list_elem_of_lookup_2 in Hc. rewrite Hperm in Hc. apply elem_of_seqZ in Hc. lia.
Qed.

Lemma expand_orders_ok w t g :
  orders_part t -> (forall d o, ods t !! (w, d, o) = None) ->
  exists t' g', for_range 1 (1 + NUM_DISTRICTS_PER_WAREHOUSE) (fill_orders w) (t, g) = (t', g') /\ orders_part t' /\
    orders_only t t' /\ forall k, is_Some (ods t' !! k) <->
      (exists d, 1 <= d < 1 + NUM_DISTRICTS_PER_WAREHOUSE /\ exists o, 1 <= o < 1 + NUM_CUSTOMERS_PER_DISTRICT /\ k = (w, d, o)) \/
      is_Some (ods t !! k).
Proof.
  intros HP Hf.
  apply (loop_orders (fun d k => exists o, 1 <= o < 1 + NUM_CUSTOMERS_PER_DISTRICT /\ k = (w, d, o)));
    [unfold NUM_DISTRICTS_PER_WAREHOUSE; lia|done|by intros ? ? _ (o & _ & ->)|intros i j k (? & _ & ->) (? & _ & E); congruence|].
  intros d t1 g1 Hd HP1 Hf1. apply fill_orders_ok; [done|]. intros o Ho. by apply Hf1; exists o.
Qed.

(** * The workers *)

Definition stock_keys (w : Z) (k : stock_key) : Prop := exists i, 1 <= i < 1 + NUM_ITEMS /\ k = (w, i).
Definition district_keys (w : Z) (k : district_key) : Prop := exists d, 1 <= d < 1 + NUM_DISTRICTS_PER_WAREHOUSE /\ k = (w, d).
Definition customer_keys (w : Z) (k : customer_key) : Prop := exists d, 1 <= d < 1 + NUM_DISTRICTS_PER_WAREHOUSE /\
  exists c, 1 <= c < 1 + NUM_CUSTOMERS_PER_DISTRICT /\ k = (w, d, c).
Definition history_keys (w : Z) (k : Z * history_key) : Prop := exists d, 1 <= d < 1 + NUM_DISTRICTS_PER_WAREHOUSE /\
  exists c, 1 <= c < 1 + NUM_CUSTOMERS_PER_DISTRICT /\ k = history_row_key w d c.

(** The database after the workers below [j]. *)
Record loaded (n j : Z) (db : tpcc_db) : Prop := {
  ld_its : filled item_good (fun i => 1 < j /\ 1 <= i < 1 + NUM_ITEMS) ∅ (its (tbl db));
  ld_whs : filled warehouse_good (fun w => 1 < j /\ 1 <= w < 1 + n) ∅ (whs (tbl db));
  ld_sts : filled stock_good (fun k => exists w, 1 <= w < j /\ stock_keys w k) ∅ (sts (tbl db));
  ld_dts : filled district_good (fun k => exists w, 1 <= w < j /\ district_keys w k) ∅ (dts (tbl db));
  ld_cus : filled customer_good (fun k => exists w, 1 <= w < j /\ customer_keys w k) ∅ (cus (tbl db));
  ld_hts : filled history_good (fun k => exists w, 1 <= w < j /\ history_keys w k) ∅ (hts (tbl db));
  ld_orders : orders_part (tbl db);
  ld_ods : forall k, is_Some (ods (tbl db) !! k) <-> exists w, 1 <= w < j /\ customer_keys w k;
  ld_names : forall k c, c ∈ default [] (cni (tbl db) !! k) <->
    exists w d cv, k = idx_key w d (c_last cv) /\ cus (tbl db) !! (w, d, c) = Some cv;
  ld_key_gen : forall w, (key_gen (gens db)).[w] =
    if decide (1 <= w < j) then NUM_DISTRICTS_PER_WAREHOUSE * NUM_CUSTOMERS_PER_DISTRICT else 0;
  ld_oid_gen : oid_gen_ (gens db) = oid_generator_init }.

(** The first worker's part. *)
Lemma shared_tables_ok n j t g :
  1 <= j <= n -> filled item_good (fun i => 1 < j /\ 1 <= i < 1 + NUM_ITEMS) ∅ (its t) ->
  filled warehouse_good (fun w => 1 < j /\ 1 <= w < 1 + n) ∅ (whs t) ->
  exists mi mw g', (if j =? 1 then fill_warehouses n (fill_items 1 100001 (t, g)) else (t, g)) =
    (t <| its := mi |> <| whs := mw |>, g') /\
    filled item_good (fun i => 1 < j + 1 /\ 1 <= i < 1 + NUM_ITEMS) ∅ mi /\
    filled warehouse_good (fun w => 1 < j + 1 /\ 1 <= w < 1 + n) ∅ mw.
Proof.
  intros Hj HI HW. destruct (Z.eqb_spec j 1) as [->|Hne].
  - destruct (fill_items_ok t g) as (mi & g1 & -> & HI1).
    destruct (fill_warehouses_ok n (t <| its := mi |>) g1 ltac:(lia)) as (mw & g2 & -> & HW1).
    exists mi, mw, g2. split_and!; [done| |].
    + eapply filled_iff; [eapply filled_trans; [exact HI|exact HI1]|]. intros i. unfold NUM_ITEMS. split; [|intros [?|(? & ? & ->)]; lia].
      intros [_ Hi]. right. exists i. split; [lia|done].
    + eapply filled_iff; [eapply filled_trans; [exact HW|exact HW1]|]. intros i. split; [|intros [?|(? & ? & ->)]; lia].
      intros [_ Hi]. right. exists i. split; [lia|done].
  - exists (its t), (whs t), g. split_and!; [by destruct t|eapply filled_iff; [exact HI|intros; lia]|].
    eapply filled_iff; [exact HW|intros; lia].
Qed.

Lemma names_union (w : Z) (m m' : gmap customer_key customer_value) (cids idx : gmap customer_idx_key (list Z)) :
  names_of w m' cids ->
  (forall k c, c ∈ default [] (idx !! k) <-> exists w d cv, k = idx_key w d (c_last cv) /\ m !! (w, d, c) = Some cv) ->
  (forall w' d c, w' <> w -> m' !! (w', d, c) = m !! (w', d, c)) -> (forall d c, m !! (w, d, c) = None) ->
  forall k c, c ∈ default [] ((cids ∪ idx) !! k) <-> exists w d cv, k = idx_key w d (c_last cv) /\ m' !! (w, d, c) = Some cv.
Proof.
  intros [HN HE] HI Hout Hf k c. specialize (HN k). specialize (HE k). destruct (cids !! k) as [l|] eqn:Hk; cbn in HN.
  - rewrite (lookup_union_Some_l _ _ _ _ Hk). cbn. rewrite HN. split; [by intros (d & cv & ? & ?); eauto|].
    assert (k.1.1 = w) as Hw.
    { destruct l as [|x l]; [done|]. destruct (proj1 (HN x)) as (d & cv & -> & _); [by left|done]. }
    intros (w' & d & cv & -> & Hc). cbn in Hw. subst w'. by eauto.
  - rewrite lookup_union_r by done. rewrite HI. split; intros (w' & d & cv & -> & Hc); exists w', d, cv; (split; [done|]).
    + rewrite Hout; [done|]. intros ->. by rewrite Hf in Hc.
    + rewrite <-Hout; [done|]. intros ->. apply (not_elem_of_nil c). apply HN. by eauto.
Qed.

(** A key of warehouse [j] is not one of an earlier worker. *)
Lemma filled_fresh {V} (G : customer_key -> V -> Prop) (j d c : Z) (m : gmap customer_key V) :
  filled G (fun k => exists w, 1 <= w < j /\ customer_keys w k) ∅ m -> m !! (j, d, c) = None.
Proof.
  intros HF. rewrite (filled_out _ _ _ _ _ HF); [done|]. intros (w & Hw & d' & _ & c' & _ & [= -> -> ->]). lia.
Qed.

Lemma loaded_step n j db : 1 <= j < 1 + n -> loaded n j db -> loaded n (j + 1) (prepopulator_run garbage n j db).
Proof.
  intros Hj [L1 L2 L3 L4 L5 L6 L7 L8 L9 L10 L11]. unfold prepopulator_run.
  set (g0 := {| ig_seed := j; ig_draws := 0; num_whs_ := n |}).
  destruct (shared_tables_ok n j (tbl db) g0 ltac:(lia) L1 L2) as (mi & mw & g1 & -> & HI & HW).
  destruct (expand_warehouse_ok j ((tbl db) <| its := mi |> <| whs := mw |>) g1) as (ms & md & g2 & -> & HS & HD).
  set (t2 := (tbl db) <| its := mi |> <| whs := mw |> <| sts := ms |> <| dts := md |>).
  destruct (expand_districts_ok j t2 g2) as (mc & cids & g3 & -> & HC & HN).
  { intros d c. by eapply filled_fresh. }
  unfold expand_customers. rewrite L10, decide_False by lia.
  destruct (fill_histories_ok garbage j (t2 <| cus := mc |> <| cni := cids ∪ cni t2 |>) g3) as (mh & g4 & -> & HH).
  set (t4 := t2 <| cus := mc |> <| cni := cids ∪ cni t2 |> <| hts := mh |>).
  destruct (expand_orders_ok j t4 g4) as (t5 & g5 & -> & HP & HO & Hods).
  { by destruct L7; constructor. }
  { intros d o. apply eq_None_not_Some. intros (w & Hw & d' & _ & c' & _ & [= -> -> ->])%L8. lia. }
  assert (forall w d c, w <> j -> mc !! (w, d, c) = cus (tbl db) !! (w, d, c)) as Hout.
  { intros w d c Hw. apply (filled_out _ _ _ _ _ HC). intros (? & _ & ? & _ & [= ->]). done. }
  rewrite HO. constructor; cbn.
  - exact HI.
  - exact HW.
  - eapply filled_next; [lia|exact L3|exact HS].
  - eapply filled_next; [lia|exact L4|exact HD].
  - eapply filled_next; [lia|exact L5|exact HC].
  - eapply filled_next; [lia|exact L6|exact HH].
  - rewrite HO in HP. exact HP.
  - intros k. rewrite Hods. cbn. rewrite L8. split.
    + intros [Hk|(w & Hw & Hk)]; [exists j|exists w]; (split; [lia|done]).
    + intros (w & Hw & Hk). destruct (decide (w = j)) as [->|]; [by left|right; exists w; split; [lia|done]].
  - eapply names_union; [exact HN|exact L9|exact Hout|]. intros d c. by eapply filled_fresh.
  - intros w. rewrite rd_insert. destruct (decide (j = w)) as [<-|]; [by rewrite decide_True by lia|].
    rewrite L10. by repeat case_decide; lia.
  - done.
Qed.

Lemma loaded_db n : 0 <= n -> loaded n (1 + n) (prepopulate_db garbage n).
Proof.
  intros Hn. apply (for_range_ind (loaded n) 1 (1 + n)); [lia| |by intros; apply loaded_step].
  constructor; cbn; try (apply filled_refl; intros k; first [intros [? _]; lia|intros (? & ? & _); lia]).
  - constructor; cbn; try done; try (by intros w d o k [? ?]); (intros; split; [by intros [? ?]|by intros (? & ? & _)]).
  - intros k. split; [by intros [? ?]|]. intros (? & ? & _). lia.
  - intros k c. split; [by intros ?%not_elem_of_nil|]. by intros (? & ? & ? & _ & ?).
  - intros w. rewrite decide_False by lia. done.
  - done.
Qed.

(** * The invariant of the loaded database *)

Section loaded_db.
Context (n : Z) (db : tpcc_db) (Hn : 1 <= n <= max_whs) (HL : loaded n (1 + n) db).

Lemma loaded_customer w d c : is_Some (cus (tbl db) !! (w, d, c)) <->
  district_ok n w d /\ 1 <= c <= NUM_CUSTOMERS_PER_DISTRICT.
Proof.
  rewrite (proj1 (filled_some _ _ _ _ _ (ld_cus _ _ _ HL) (lookup_empty _))). unfold district_ok, customer_keys. split.
  - intros (w' & Hw & d' & Hd & c' & Hc & [= -> -> ->]). lia.
  - intros ((Hw & Hd) & Hc). exists w. split; [lia|]. exists d. split; [lia|]. exists c. split; [lia|done].
Qed.

Lemma loaded_customer_good k cv : cus (tbl db) !! k = Some cv -> customer_good k cv.
Proof. apply (filled_some _ _ _ _ _ (ld_cus _ _ _ HL) (lookup_empty _)). Qed.

Lemma loaded_order w d o : is_Some (ods (tbl db) !! (w, d, o)) -> district_ok n w d /\ 1 <= o <= 3000.
Proof.
  intros (w' & Hw & d' & Hd & c' & Hc & [= -> -> ->])%(ld_ods _ _ _ HL). unfold district_ok, NUM_CUSTOMERS_PER_DISTRICT in *. lia.
Qed.

Lemma loaded_names w d num last : district_ok n w d -> to_last_name num = Some last ->
  exists c_ids, cni (tbl db) !! idx_key w d last = Some c_ids /\ c_ids <> [] /\
    forall c, c ∈ c_ids <-> exists cv, cus (tbl db) !! (w, d, c) = Some cv /\ c_last cv = last.
Proof.
  intros Hd Hlast. assert (0 <= num <= 999) as Hr by (apply to_last_name_some; by eexists).
  assert (forall c, c ∈ default [] (cni (tbl db) !! idx_key w d last) <->
    exists cv, cus (tbl db) !! (w, d, c) = Some cv /\ c_last cv = last) as HI.
  { intros c. rewrite (ld_names _ _ _ HL). split.
    - intros (w' & d' & cv & E & Hc). destruct (loaded_customer_good _ _ Hc) as (_ & _ & [num' Hn'] & _).
      destruct (idx_key_inj _ _ _ _ _ _ _ _ Hlast Hn' E) as (<- & <- & El). by exists cv.
    - intros (cv & Hc & <-). by eauto. }
  destruct (proj2 (loaded_customer w d (num + 1))) as [cv Hcv]; [split; [done|unfold NUM_CUSTOMERS_PER_DISTRICT; lia]|].
  destruct (loaded_customer_good _ _ Hcv) as (_ & _ & _ & Hc1). cbn [snd] in Hc1.
  replace (num + 1 - 1) with num in Hc1 by lia. rewrite Hlast in Hc1. specialize (Hc1 ltac:(lia)).
  assert (num + 1 ∈ default [] (cni (tbl db) !! idx_key w d last)) as Hin by (apply HI; exists cv; split; [done|congruence]).
  destruct (cni (tbl db) !! idx_key w d last) as [l|]; cbn in Hin, HI; [|by apply not_elem_of_nil in Hin].
  exists l. split_and!; [done|by intros ->; apply not_elem_of_nil in Hin|done].
Qed.

Lemma loaded_well_formed : well_formed n (tbl db).
Proof.
  pose proof (fun k => filled_some _ _ _ _ k (ld_its _ _ _ HL) (lookup_empty _)) as HI.
  pose proof (fun k => filled_some _ _ _ _ k (ld_whs _ _ _ HL) (lookup_empty _)) as HW.
  pose proof (fun k => filled_some _ _ _ _ k (ld_sts _ _ _ HL) (lookup_empty _)) as HS.
  pose proof (fun k => filled_some _ _ _ _ k (ld_dts _ _ _ HL) (lookup_empty _)) as HD.
  constructor.
  - lia.
  - intros k dv Hk. destruct (HD k) as [_ H]. destruct (H _ Hk) as [_ ->]. lia.
  - intros w. rewrite (proj1 (HW w)). lia.
  - intros w d. rewrite (proj1 (HD (w, d))). unfold district_ok, district_keys. split.
    + intros (w' & Hw & d' & Hd & [= -> ->]). lia.
    + intros [Hw Hd]. exists w. split; [lia|]. exists d. split; [lia|done].
  - exact loaded_customer.
  - intros i. rewrite (proj1 (HI i)). lia.
  - intros i iv. apply HI.
  - intros w i. rewrite (proj1 (HS (w, i))). unfold stock_keys. split.
    + intros (w' & Hw & d' & Hd & [= -> ->]). lia.
    + intros [Hw Hd]. exists w. split; [lia|]. exists i. split; [lia|done].
  - intros k sv. apply HS.
  - intros w d o ov Ho. destruct (loaded_order w d o) as [Hd Hr]; [by eauto|].
    pose proof (op_order _ (ld_orders _ _ _ HL) _ _ _ _ Ho). split_and!; [done|unfold uint64_max; lia..].
  - apply (op_line _ (ld_orders _ _ _ HL)).
  - exact loaded_names.
Qed.

Lemma loaded_ytd w : 1 <= w <= n -> districts_ytd (tbl db) w = 30000000.
Proof.
  intros Hw. pose proof (fun k => filled_some _ _ _ _ k (ld_dts _ _ _ HL) (lookup_empty _)) as HD.
  assert (forall k, k ∈ (fun d => (w, d)) <$> seqZ 1 10 <-> exists d, 1 <= d < 11 /\ k = (w, d)) as Hk.
  { intros k. rewrite list_elem_of_fmap. setoid_rewrite elem_of_seqZ. split; intros (d & ? & ?); exists d; (split; [lia||done|lia||done]). }
  unfold districts_ytd. rewrite (sum_map_keys _ _ ((fun d => (w, d)) <$> seqZ 1 10)).
  - rewrite (sumZ_ext _ (fun _ => 3000000)); [reflexivity|]. intros k (d & Hd & ->)%Hk.
    destruct (proj2 (proj1 (HD (w, d)))) as [dv Hdv].
    { exists w. split; [lia|]. by exists d. }
    rewrite Hdv. cbn. rewrite Z.eqb_refl. by apply (HD (w, d)).
  - apply NoDup_fmap_2; [intros ?? [= ->]; done|apply NoDup_seqZ].
  - intros k dv Hdv Hout. destruct (Z.eqb_spec k.1 w) as [Hkw|]; [|done]. exfalso. apply Hout. apply Hk.
    destruct (proj1 (proj1 (HD k))) as (w' & _ & d & Hd & ->); [by eauto|]. cbn in Hkw. subst. by exists d.
Qed.

Lemma loaded_delivered w d c : delivered_total (tbl db) w d c = 0.
Proof.
  apply sum_map_zero. intros [[w' d'] o] ov Ho. case_decide as Hd; [|done]. destruct Hd as (-> & -> & _ & Hc).
  apply sumZ_zero. intros k _. destruct (ols (tbl db) !! (w, d, o, k)) as [l|] eqn:Hl; [|done]. cbn.
  by eapply (op_delivered _ (ld_orders _ _ _ HL)).
Qed.

Lemma loaded_paid w d c : is_Some (cus (tbl db) !! (w, d, c)) -> paid_total (tbl db) w d c = 1000.
Proof.
  intros [[Hw Hd] Hc]%loaded_customer. pose proof (fun k => filled_some _ _ _ _ k (ld_hts _ _ _ HL) (lookup_empty _)) as HH.
  unfold paid_total. rewrite (sum_map_keys _ _ [history_row_key w d c]).
  - destruct (proj2 (proj1 (HH (history_row_key w d c)))) as [hv Hhv].
    { exists w. split; [lia|]. exists d. split; [lia|]. exists c. split; [lia|done]. }
    destruct (HH (history_row_key w d c)) as [_ H]. destruct (H _ Hhv) as (_ & E & Ha). cbn. rewrite Hhv. cbn.
    rewrite decide_True; [by rewrite Ha|]. by apply history_row_key_inj in E as (-> & -> & ->).
  - repeat constructor. apply not_elem_of_nil.
  - intros k hv Hk Hout. rewrite decide_False; [done|]. intros (<- & <- & <-). apply Hout, list_elem_of_singleton.
    by apply (HH k).
Qed.

Lemma loaded_consistent : consistent (tbl db).
Proof.
  pose proof (ld_orders _ _ _ HL) as HP. constructor; try (by destruct HP).
  - intros w wv Hw. pose proof (filled_some _ _ _ _ w (ld_whs _ _ _ HL) (lookup_empty _)) as [H1 H2].
    rewrite (H2 _ Hw), loaded_ytd; [done|]. destruct (proj1 H1); [by eauto|lia].
  - intros w d c cv Hc. destruct (loaded_customer_good _ _ Hc) as (-> & -> & _). by rewrite loaded_delivered.
  - intros w d c cv Hc. destruct (loaded_customer_good _ _ Hc) as (_ & -> & _). by rewrite loaded_paid by eauto.
Qed.
End loaded_db.
End load.

(** * The loaded system *)

Lemma oid_init w d : oid_get w d oid_generator_init = 3001.
Proof.
  set (key := fun (i : Z) (k : Z * Z) => exists j, 0 <= j < max_dts /\ k = (i, j)).
  destruct (loop_filled (fun _ (v : Z) => v = 3001) key (fun _ _ (_ : unit) => True) (fun m _ => m) 0 max_whs
    (fun i g => for_range 0 max_dts (fun j g => <[(i, j) := 3001]> g) g) ∅ tt) as (m & [] & E & _ & HF).
  - done.
  - done.
  - intros i m [] Hi _. destruct (put_loop (fun _ v => v = 3001) (fun j => (i, j)) (fun m (_ : unit) => m) 0 max_dts
      (fun j g => <[(i, j) := 3001]> g) m tt) as (m' & [] & E & HF); [done|by intros j m' [] _; exists 3001, tt|].
    exists m', tt. split; [exact E|]. split; [done|exact HF].
  - unfold oid_get, oid_generator_init. rewrite E.
    destruct (filled_some _ _ _ _ (w mod max_whs, d mod max_dts) HF (lookup_empty _)) as [H1 H2].
    destruct (proj2 H1) as [v Hv].
    + exists (w mod max_whs). split; [apply Z.mod_pos_bound; done|]. exists (d mod max_dts).
      split; [apply Z.mod_pos_bound; done|done].
    + unfold rd. rewrite Hv. by apply H2.
Qed.

(** A database that no attempt is working on. *)
Definition sys_of (db : tpcc_db) : tpcc_sys :=
  {| sy_tbl := tbl db; sy_gens := gens db; open_oids := ∅; open_keys := ∅ |}.

Lemma step_inv n s s' : sys_inv n s -> tpcc_step n s s' -> sys_inv n s'.
Proof.
  intros HI [].
  - by apply inv_take_oid.
  - by apply inv_drop_oid.
  - by apply inv_take_key.
  - by apply inv_drop_key.
  - by eapply inv_neworder.
  - by eapply inv_payment.
  - by eapply inv_delivery.
Qed.

Lemma reachable_inv n s s' : sys_inv n s -> rtc (tpcc_step n) s s' -> sys_inv n s'.
Proof. intros HI. induction 1; [done|]. by eauto using step_inv. Qed.

Section safe.
#[local] Set Default Proof Using "Type*".
Context {R : Mt19937} {RO : Mt19937Ok R}.

Lemma loaded_inv garbage n : 1 <= n <= max_whs -> sys_inv n (sys_of (prepopulate_db garbage n)).
Proof.
  intros Hn. pose proof (loaded_db garbage n ltac:(lia)) as HL. set (db := prepopulate_db garbage n) in *.
  pose proof (ld_key_gen _ _ _ HL) as HK.
  constructor; cbn; unfold oid_of, hkey_of.
  - by apply loaded_well_formed.
  - by eapply loaded_consistent.
  - intros w d. rewrite (ld_oid_gen _ _ _ HL), oid_init. done.
  - intros w d o Ho. rewrite (ld_oid_gen _ _ _ HL), oid_init. apply (loaded_order n db Hn HL) in Ho as [_ ?]. lia.
  - intros w d o Ho. by apply not_elem_of_empty in Ho.
  - intros w. rewrite HK. case_decide; done.
  - intros w hk Hk. destruct (filled_some _ _ _ _ (w, hk) (ld_hts _ _ _ HL) (lookup_empty _)) as [H1 _].
    apply H1 in Hk as (w' & Hw & d & Hd & c & Hc & [= -> ->]). rewrite HK, decide_True by done. cbn.
    unfold history_number, NUM_DISTRICTS_PER_WAREHOUSE, NUM_CUSTOMERS_PER_DISTRICT in *. lia.
  - intros w k Hk. by apply not_elem_of_empty in Hk.
Qed.

(** C6: every state that the workers' attempts can reach from the loaded
    database, in any interleaving of taking and giving up order ids and history
    numbers and of commits of new orders, payments and deliveries, is consistent:
    the revenue of a warehouse is the sum of its districts', an order has exactly
    the lines it counts, an order is in the table of new orders iff it has no
    carrier, in the customer index iff it is the customer's, its lines have a
    delivery date iff it is delivered, a customer's balance and payments add up to
    the delivered orders, and the payments are those of the history. *)
Theorem tpcc_consistent (garbage n : Z) (s : tpcc_sys) :
  1 <= n <= max_whs -> rtc (tpcc_step n) (sys_of (prepopulate_db garbage n)) s -> consistent (sy_tbl s).
Proof. intros Hn Hs. exact (si_consistent _ _ (reachable_inv _ _ _ (loaded_inv garbage n Hn) Hs)). Qed.

(** C7: in every state that can be reached from the loaded database the rows have
    the keys and the ranges of their types: one row per warehouse, district,
    customer, item and stock and no others, stock quantities from 10 to 100, line
    amounts from 0 to 999999, orders of 1 to 15 lines with a customer of their
    district, and a name index that lists exactly the customers of a name. *)
Theorem tpcc_well_formed (garbage n : Z) (s : tpcc_sys) :
  1 <= n <= max_whs -> rtc (tpcc_step n) (sys_of (prepopulate_db garbage n)) s -> well_formed n (sy_tbl s).
Proof. intros Hn Hs. exact (si_wf _ _ (reachable_inv _ _ _ (loaded_inv garbage n Hn) Hs)). Qed.

End safe.
