(* ===== verification/TpccServe.v ===== *)
(** What one transaction does, from its first attempt to the one that commits:
    the loops of the new order, the payment and the delivery as steps of the
    system, with their effects on the tables. *)

From stdpp Require Import functions.
From S2P Require Import Prelude Feature TpccData TpccGen TpccIndex TpccTxn TpccKeys TpccInv TpccLogic.
From S2P Require Import TpccNewOrder TpccCommute TpccPayment TpccDeliver TpccRead TpccSys TpccLoad TpccSafe.

(** * A transaction in the system *)

(** A committed attempt, as a step of the system has it. *)
Lemma attempt_commits {L A} (body : txn L A) confl (r r' : run L) a :
  attempt body confl r = Some (Some a, r') ->
  commits body (tbl (r_db r)) (gens (r_db r)) (r_locals r) a (tbl (r_db r')).
Proof.
  unfold attempt, begin_txn. destruct (body _) as [a' s|s|] eqn:Hb; [|done..].
  destruct (default true (head (conflicts s))); [|done]. intros [= <- <-]. by exists (r_aborts r), confl, s.
Qed.

Lemma union_drop `{Countable K} (x : K) : ({[x]} ∪ (∅ : gset K)) ∖ {[x]} = ∅.
Proof. apply leibniz_equiv. set_solver. Qed.

Section neworder.
#[local] Set Default Proof Using "Type*".
Context (n : Z) (Commute : bool) (q : neworder_input) (HV : neworder_valid n q).
Implicit Types (r : run unit) (db : tpcc_db).

#[local] Abbreviation w := (no_w_id q).
#[local] Abbreviation d := (no_d_id q).

Lemma neworder_body calm db :
  sys_inv n (sys_of db) ->
  wpc calm (tbl db) (txn_neworder Commute q) (Core (tbl db) (gens db) tt)
    (fun o' c => o' = oid_of w d (gens db) /\
       c = Core (neworder_tables q (tbl db) (oid_of w d (gens db))) (claim_oid w d (gens db)) tt)
    (fun c => calm = false /\ (c_gens c = gens db \/ c_gens c = claim_oid w d (gens db))).
Proof.
  intros HI. destruct HI as [I1 I2 I3 I4 _ _ _ _]. cbn in I1, I2, I3, I4.
  assert (ods (tbl db) !! (w, d, oid_of w d (gens db)) = None) as Hf
    by (apply eq_None_not_Some; intros Ho%I4; lia).
  apply neworder_wpc; [by eapply neworder_valid_ready|by eapply neworder_fresh|done|pose proof (nv_items _ _ HV); lia].
Qed.

(** An attempt is taking the id, or nothing, then a commit or giving up. *)
Lemma neworder_attempt confl r :
  sys_inv n (sys_of (r_db r)) -> oid_of w d (gens (r_db r)) < uint64_max ->
  let o := oid_of w d (gens (r_db r)) in
  exists res r', attempt (txn_neworder Commute q) confl r = Some (res, r') /\
    rtc (tpcc_step n) (sys_of (r_db r)) (sys_of (r_db r')) /\ o <= oid_of w d (gens (r_db r')) <= o + 1 /\
    match res with
    | Some o' => o' = o /\ oid_of w d (gens (r_db r')) = o + 1 /\ tbl (r_db r') = neworder_tables q (tbl (r_db r)) o
    | None => tbl (r_db r') = tbl (r_db r)
    end.
Proof.
  intros HI Hlt o. set (g := gens (r_db r)) in *.
  assert (oid_of w d (claim_oid w d g) = o + 1) as Hg'
    by (pose proof (si_gen _ _ HI w d : 1 <= oid_of w d g <= _); apply (oid_of_claim_ge w d w d); lia).
  assert (tpcc_step n (sys_of (r_db r)) {| sy_tbl := tbl (r_db r); sy_gens := claim_oid w d g;
    open_oids := {[(w, d, o)]} ∪ ∅; open_keys := ∅ |}) as Htake by exact (take_oid n (sys_of (r_db r)) w d Hlt).
  assert (forall r', tbl (r_db r') = tbl (r_db r) -> gens (r_db r') = g \/ gens (r_db r') = claim_oid w d g ->
    rtc (tpcc_step n) (sys_of (r_db r)) (sys_of (r_db r')) /\ o <= oid_of w d (gens (r_db r')) <= o + 1) as Hnone.
  { intros r' Ht [Hg|Hg]; unfold sys_of at 2; rewrite Ht, Hg; [by split; [|fold o; lia]|]. split; [|lia].
    eapply rtc_l; [exact Htake|]. eapply rtc_l; [exact (drop_oid n _ (w, d, o))|]. cbn. rewrite union_drop. done. }
  destruct (r_locals r) eqn:Hl.
  destruct (wpc_attempt _ _ _ _ _ _ confl r (neworder_body false (r_db r) HI) eq_refl eq_refl Hl) as (res & r' & Ha & _ & _ & Hr).
  exists res, r'. split; [done|]. destruct res as [o'|].
  - destruct Hr as [-> [= Ht Hg _]]. change (gens (r_db r)) with g in Hg, Ht |- *. rewrite Hg, Hg'. split_and!; [|lia..|done|done|exact Ht].
    eapply rtc_l; [exact Htake|]. apply rtc_once.
    apply attempt_commits in Ha. rewrite Hl in Ha.
    pose proof (commit_neworder n {| sy_tbl := tbl (r_db r); sy_gens := claim_oid w d g;
      open_oids := {[(w, d, o)]} ∪ ∅; open_keys := ∅ |} Commute q g o _ _ HV ltac:(cbn; set_solver) eq_refl Ha) as Hc.
    cbn in Hc. rewrite union_drop in Hc. unfold sys_of. rewrite Hg. exact Hc.
  - destruct Hr as (Ht & p & [[_ Hg]|(a & -> & [= _ Hg _])]); (split; [|split]; [by apply Hnone; auto| |done]); apply Hnone; auto.
Qed.

(** The loop: how far the counter got, and what was committed. *)
Definition neworder_result db (confls : list (list bool)) (res : option Z) r : Prop :=
  rtc (tpcc_step n) (sys_of db) (sys_of (r_db r)) /\ oid_of w d (gens db) <= oid_of w d (gens (r_db r)) /\
  oid_of w d (gens (r_db r)) <= oid_of w d (gens db) + Z.of_nat (length confls) /\
  match res with
  | Some o => oid_of w d (gens db) <= o < oid_of w d (gens (r_db r)) /\ ods (tbl db) !! (w, d, o) = None /\
              tbl (r_db r) = neworder_tables q (tbl db) o
  | None => tbl (r_db r) = tbl db
  end.

Lemma neworder_run db (confls : list (list bool)) ab k :
  sys_inv n (sys_of db) -> oid_of w d (gens db) + Z.of_nat (length confls) <= uint64_max ->
  exists res r, RWTXN (txn_neworder Commute q) confls (Run db ab tt k) = Some (res, r) /\ ([] ∈ confls -> res <> None) /\
    neworder_result db confls res r.
Proof.
  intros HI Hmax. set (o0 := oid_of w d (gens db)) in *. set (len := Z.of_nat (length confls)) in *.
  set (P := fun k r => rtc (tpcc_step n) (sys_of db) (sys_of (r_db r)) /\
    o0 <= oid_of w d (gens (r_db r)) <= o0 + len - Z.of_nat k /\ tbl (r_db r) = tbl db).
  destruct (RWTXN_ind (txn_neworder Commute q) P (fun a r => neworder_result db confls (Some a) r) confls (Run db ab tt k))
    as (res & r & H1 & H2 & H3).
  - intros j confl r (Hs & Ho & Ht). pose proof (reachable_inv _ _ _ HI Hs) as HI'.
    destruct (neworder_attempt confl r HI') as (res & r' & Ha & Hs' & Ho' & Hr); [lia|]. exists res, r'. split; [done|].
    rewrite Ht in Hr. destruct res as [o'|]; [|split_and!; [by etrans|lia..|done]].
    destruct Hr as (-> & Hg & Ht'). unfold neworder_result. fold o0 len. split_and!; [by etrans|lia..| |done].
    rewrite <-Ht. apply eq_None_not_Some. intros H%(si_order _ _ HI'). cbn in H. lia.
  - intros j r (Hs & Ho & Ht). pose proof (reachable_inv _ _ _ HI Hs) as HI'.
    eapply wpc_calm_commits. destruct (r_locals r). apply (neworder_body true (r_db r) HI').
  - split_and!; [done|cbn; lia..|done].
  - exists res, r. split; [done|]. split; [done|]. destruct res as [o|]; [done|]. destruct H3 as (? & ? & ?).
    split_and!; [done|lia..|done].
Qed.
End neworder.

Section payment.
#[local] Set Default Proof Using "Type*".
Context (n : Z) (Commute : bool) (q : payment_input) (HV : payment_valid n q).
Implicit Types (r : run unit) (db : tpcc_db).

#[local] Abbreviation w := (pay_c_w_id q).

(** The effect on the tables [t] of a payment with history number [k]. *)
Definition paid (t t' : tables) (c k : Z) : Prop :=
  exists wv dv cv, whs t !! pay_w_id q = Some wv /\ dts t !! (pay_w_id q, pay_d_id q) = Some dv /\
    payment_chosen q t = Some c /\ cus t !! (w, pay_c_d_id q, c) = Some cv /\
    (pay_by_name q = true -> c_last cv = pay_last q) /\ t' = payment_tables q t c k wv dv cv.

Lemma payment_body calm db :
  sys_inv n (sys_of db) ->
  wpc calm (tbl db) (txn_payment Commute q) (Core (tbl db) (gens db) tt)
    (fun c co => paid (tbl db) (c_pend co) c (hkey_of w (gens db)) /\ c_gens co = claim_history w (gens db) /\ c_loc co = tt)
    (fun co => calm = false /\ c_gens co = gens db).
Proof.
  intros HI. destruct (payment_rows n q _ (si_wf _ _ HI) HV) as (wv & dv & c & cv & H1 & H2 & H3 & H4 & H5).
  assert (hts (tbl db) !! payment_key q c (hkey_of w (gens db)) = None) as Hf.
  { apply eq_None_not_Some. intros H%(si_history _ _ HI). cbn in H. lia. }
  eapply wpc_mono; [by eapply payment_wpc|cbv beta|done].
  intros c' co [-> ->]. split_and!; [|done..]. by exists wv, dv, cv.
Qed.

Lemma payment_attempt confl r :
  sys_inv n (sys_of (r_db r)) -> hkey_of w (gens (r_db r)) < uint64_max ->
  let k := hkey_of w (gens (r_db r)) in
  exists res r', attempt (txn_payment Commute q) confl r = Some (res, r') /\
    rtc (tpcc_step n) (sys_of (r_db r)) (sys_of (r_db r')) /\ k <= hkey_of w (gens (r_db r')) <= k + 1 /\
    match res with
    | Some c => hkey_of w (gens (r_db r')) = k + 1 /\ paid (tbl (r_db r)) (tbl (r_db r')) c k
    | None => tbl (r_db r') = tbl (r_db r)
    end.
Proof.
  intros HI Hlt k. set (g := gens (r_db r)) in *.
  assert (hkey_of w (claim_history w g) = k + 1) as Hg'.
  { pose proof (si_key _ _ HI w : 0 <= hkey_of w g <= _). rewrite hkey_of_claim, decide_True by done.
    apply wrap_small. unfold uint, uint64_max in *. lia. }
  assert (tpcc_step n (sys_of (r_db r)) {| sy_tbl := tbl (r_db r); sy_gens := claim_history w g;
    open_oids := ∅; open_keys := {[(w, k)]} ∪ ∅ |}) as Htake by exact (take_key n (sys_of (r_db r)) w Hlt).
  destruct (r_locals r) eqn:Hl.
  destruct (wpc_attempt _ _ _ _ _ _ confl r (payment_body false (r_db r) HI) eq_refl eq_refl Hl) as (res & r' & Ha & _ & _ & Hr).
  exists res, r'. split; [done|]. destruct res as [c|]; cbn [c_pend c_gens c_loc] in Hr; fold g k in Hr.
  - destruct Hr as (Hp & Hg & _). rewrite Hg, Hg'. split_and!; [|lia..|done]. eapply rtc_l; [exact Htake|]. apply rtc_once.
    apply attempt_commits in Ha. rewrite Hl in Ha.
    pose proof (commit_payment n {| sy_tbl := tbl (r_db r); sy_gens := claim_history w g;
      open_oids := ∅; open_keys := {[(w, k)]} ∪ ∅ |} Commute q g k _ _ HV ltac:(cbn; set_solver) eq_refl Ha) as Hc.
    cbn in Hc. rewrite union_drop in Hc. unfold sys_of. rewrite Hg. exact Hc.
  - destruct Hr as (Ht & p & Hr). unfold sys_of at 2. rewrite Ht.
    assert (gens (r_db r') = g \/ gens (r_db r') = claim_history w g) as [-> | ->] by (destruct Hr as [[_ ?]|(? & _ & ? & _)]; auto).
    + split_and!; [done|fold k; lia..|done].
    + split_and!; [|lia..|done]. eapply rtc_l; [exact Htake|]. eapply rtc_l; [exact (drop_key n _ (w, k))|].
      cbn. by rewrite union_drop.
Qed.

Lemma payment_run db (confls : list (list bool)) ab j :
  sys_inv n (sys_of db) -> hkey_of w (gens db) + Z.of_nat (length confls) <= uint64_max ->
  exists res r, RWTXN (txn_payment Commute q) confls (Run db ab tt j) = Some (res, r) /\ ([] ∈ confls -> res <> None) /\
    rtc (tpcc_step n) (sys_of db) (sys_of (r_db r)) /\
    match res with
    | Some c => exists k, hkey_of w (gens db) <= k < hkey_of w (gens (r_db r)) /\ paid (tbl db) (tbl (r_db r)) c k
    | None => tbl (r_db r) = tbl db
    end.
Proof.
  intros HI Hmax. set (k0 := hkey_of w (gens db)) in *. set (len := Z.of_nat (length confls)) in *.
  set (P := fun k r => rtc (tpcc_step n) (sys_of db) (sys_of (r_db r)) /\
    k0 <= hkey_of w (gens (r_db r)) <= k0 + len - Z.of_nat k /\ tbl (r_db r) = tbl db).
  destruct (RWTXN_ind (txn_payment Commute q) P (fun c r => rtc (tpcc_step n) (sys_of db) (sys_of (r_db r)) /\
      exists k, k0 <= k < hkey_of w (gens (r_db r)) /\ paid (tbl db) (tbl (r_db r)) c k) confls (Run db ab tt j))
    as (res & r & H1 & H2 & H3).
  - intros i confl r (Hs & Ho & Ht). pose proof (reachable_inv _ _ _ HI Hs) as HI'.
    destruct (payment_attempt confl r HI') as (res & r' & Ha & Hs' & Ho' & Hr); [lia|]. exists res, r'. split; [done|].
    rewrite Ht in Hr. destruct res as [c|]; [|split_and!; [by etrans|lia..|done]].
    destruct Hr as (Hg & Hp). split; [by etrans|]. eexists. split; [|exact Hp]. lia.
  - intros i r (Hs & Ho & Ht). pose proof (reachable_inv _ _ _ HI Hs) as HI'.
    eapply wpc_calm_commits. destruct (r_locals r). apply (payment_body true (r_db r) HI').
  - split_and!; [done|cbn; lia..|done].
  - exists res, r. split; [done|]. split; [done|]. destruct res as [c|]; [done|]. by destruct H3 as (? & _ & ?).
Qed.
End payment.

(** * Deliveries *)

(** Order [o] is the oldest new order of the district from [from] on. *)
Definition oldest_new (t : tables) (w d from o : Z) : Prop :=
  is_Some (nos t !! (w, d, o)) /\ from <= o /\ forall o', is_Some (nos t !! (w, d, o')) -> from <= o' -> o <= o'.

(** Between [t] and [t'], order [o] of the district was delivered and nothing
    else happened in the district. *)
Definition district_delivered (t t' : tables) (w carrier_id delivery_date d o : Z) : Prop :=
  exists ov, ods t !! (w, d, o) = Some ov /\ o_carrier_id ov = 0 /\
    (forall o', ods t' !! (w, d, o') =
       if decide (o' = o) then Some (ov <| o_carrier_id := carrier_id |>) else ods t !! (w, d, o')) /\
    (forall o', nos t' !! (w, d, o') = if decide (o' = o) then None else nos t !! (w, d, o')) /\
    (forall o' k, ols t' !! (w, d, o', k) =
       if decide (o' = o) then (fun l => l <| ol_delivery_d := delivery_date |>) <$> ols t !! (w, d, o', k)
       else ols t !! (w, d, o', k)) /\
    forall c, cus t' !! (w, d, c) =
      if decide (c = o_c_id ov) then delivered_cu (order_total t w d o ov) <$> cus t !! (w, d, c) else cus t !! (w, d, c).

Section delivery.
#[local] Set Default Proof Using "Type*".
Context (n w carrier_id delivery_date : Z) (t : tables) (HW : well_formed n t) (HC : consistent t).
Context (Hw : 1 <= w <= n).

Lemma first_new_spec d from : 1 <= d <= 10 -> word from ->
  match first_new w t d from with
  | Some o => oldest_new t w d from o
  | None => forall o, is_Some (nos t !! (w, d, o)) -> o < from
  end.
Proof.
  intros Hd Hfrom. pose proof (wf_n _ _ HW) as Hn. unfold max_whs in Hn.
  assert (forall k, is_Some (nos t !! k) -> word k.1.1 /\ word k.1.2 /\ 1 <= k.2 < uint64_max) as Hk.
  { intros [[w' d'] o] (ov & Ho & _)%(cs_new _ HC). apply (wf_order _ _ HW) in Ho as ([? ?] & ? & _).
    unfold word, NUM_DISTRICTS_PER_WAREHOUSE in *. cbn. lia. }
  assert (forall w' d' o, is_Some (nos t !! (w', d', o)) ->
    in_scan false (w, d, from) (w, d, uint64_max) (w', d', o) <-> w' = w /\ d' = d /\ from <= o) as Hin.
  { intros w' d' o (? & ? & ?)%Hk. cbn [fst snd] in *. rewrite in_scan_district; unfold word, uint64_max in *; lia. }
  unfold first_new. pose proof (scan_first false (w, d, from) (w, d, uint64_max) (nos t)) as Hs.
  destruct (last _) as [[[[w' d'] o] u]|]; cbn.
  - destruct Hs as (Hu & Hr & Hmin). apply Hin in Hr as (-> & -> & Hr); [|by eexists].
    split; [by eexists|]. split; [done|]. intros o' Ho' Hle. specialize (Hmin _ Ho' (proj2 (Hin _ _ _ Ho') ltac:(done))).
    pose proof (Hk (w, d, o) ltac:(by eexists)) as (? & ? & ?). pose proof (Hk _ Ho') as (_ & _ & ?). cbn [fst snd] in *.
    rewrite key_leb_order in Hmin by (unfold u64_key, word, uint64_max in *; repeat constructor; cbn; lia).
    cbn [lex_leb fields3 fst snd] in Hmin. rewrite !Z.ltb_irrefl, !Z.eqb_refl in Hmin. cbn in Hmin.
    apply orb_true_iff in Hmin. rewrite Z.ltb_lt, andb_true_iff, Z.eqb_eq in Hmin. lia.
  - intros o Ho. destruct (decide (o < from)); [done|]. exfalso. apply (Hs _ Ho). apply Hin; [done|]. split_and!; [done..|lia].
Qed.

Lemma deliver_delivered d o ov p :
  untouched w t d p -> ods t !! (w, d, o) = Some ov -> is_Some (nos t !! (w, d, o)) ->
  district_delivered t (deliver_tables w carrier_id delivery_date t d o ov p) w carrier_id delivery_date d o.
Proof.
  intros [U1 U2 U3 U4] Ho (ov' & Ho' & Hcar)%(cs_new _ HC). assert (ov' = ov) as -> by congruence.
  destruct (wf_order _ _ HW _ _ _ _ Ho) as (_ & _ & _ & Hcnt & _).
  destruct (line_sum_total w t (o_ol_cnt ov) d o) as [Hsum _]; [lia|apply (wf_line _ _ HW)|].
  exists ov. split; [done|]. split; [done|]. cbn. split_and!.
  - intros o'. case_decide as E; [subst; by rewrite lookup_insert_eq|]. rewrite lookup_insert_ne by congruence. apply U1.
  - intros o'. case_decide as E; [subst; by rewrite lookup_delete_eq|]. rewrite lookup_delete_ne by congruence. apply U2.
  - intros o' k. rewrite delivered_ols_lookup by lia. cbn [fst snd]. rewrite U3.
    pose proof (cs_lines _ HC _ _ _ _ Ho k) as Hl. case_decide as E.
    + destruct E as [[= ->] Hk]. rewrite decide_True by done. by destruct (ols t !! (w, d, o, k)).
    + case_decide; [|done]. subst o'. destruct (ols t !! (w, d, o, k)) as [l|] eqn:El; [|done].
      exfalso. apply E. split; [done|]. apply Hl. by eexists.
  - intros c. rewrite Hsum. case_decide as E.
    + subst c. destruct (cus t !! (w, d, o_c_id ov)) eqn:Ec; [by rewrite lookup_insert_eq|]. by rewrite U4.
    + destruct (cus t !! (w, d, o_c_id ov)); [rewrite lookup_insert_ne by congruence|]; apply U4.
Qed.

(** The later districts leave it. *)
Lemma delivered_later d o p p' :
  district_delivered t p w carrier_id delivery_date d o -> untouched w p d p' ->
  district_delivered t p' w carrier_id delivery_date d o.
Proof.
  intros (ov & H1 & H2 & H3 & H4 & H5 & H6) [U1 U2 U3 U4]. exists ov.
  split_and!; [done..|intros; by rewrite U1|intros; by rewrite U2|intros; by rewrite U3|intros; by rewrite U4].
Qed.

(** What the districts 1 to [e - 1] have, of the ids returned. *)
Definition delivered_upto (last_delivered ids : list Z) (e : Z) (p : tables) : Prop :=
  length ids = Z.to_nat (e - 1) /\
  forall d, 1 <= d < e -> exists from o, last_delivered !! Z.to_nat (d - 1) = Some from /\ ids !! Z.to_nat (d - 1) = Some o /\
    oldest_new t w d from o /\ district_delivered t p w carrier_id delivery_date d o.

Definition all_new (last_delivered : list Z) : Prop := forall d, 1 <= d <= 10 -> exists from,
  last_delivered !! Z.to_nat (d - 1) = Some from /\ word from /\ exists o, is_Some (nos t !! (w, d, o)) /\ from <= o.

Lemma district_effect_new d from l p :
  1 <= d <= 10 -> word from -> (exists o, is_Some (nos t !! (w, d, o)) /\ from <= o) -> untouched w t d p ->
  exists o p', district_effect w carrier_id delivery_date t from d l p = Some (o, p') /\
    oldest_new t w d from o /\ district_delivered t p' w carrier_id delivery_date d o.
Proof.
  intros Hd Hf (o0 & Hn0 & Hle) HU. pose proof (first_new_spec d from Hd Hf) as Hs. unfold district_effect.
  destruct (first_new w t d from) as [o|]; [|specialize (Hs _ Hn0); lia]. cbn. pose proof Hs as (Hn & _).
  destruct (proj1 (cs_new _ HC _ _ _) Hn) as (ov & Ho & _). destruct (wf_order _ _ HW _ _ _ _ Ho) as (_ & Hr & _).
  unfold found_effect. rewrite (proj2 (Z.eqb_neq o 0)) by lia. rewrite Ho, decide_True by done.
  do 2 eexists. split; [done|]. split; [done|]. by apply deliver_delivered.
Qed.

Lemma delivery_effect_new last_delivered garbage e :
  all_new last_delivered -> 1 <= e <= 11 -> exists ids oid p,
    delivery_effect w carrier_id delivery_date t last_delivered garbage e = Some (ids, oid, p) /\
    delivered_upto last_delivered ids e p /\ forall d, e <= d -> untouched w t d p.
Proof.
  intros HN [He He']. replace e with (1 + (e - 1)) in * by lia. assert (0 <= e - 1) as Hk by lia. revert He'.
  pattern (e - 1). apply natlike_ind; [| |exact Hk]; clear e He Hk.
  - intros _. exists [], garbage, t. split; [|split; [|done]].
    + unfold delivery_effect. by rewrite for_opt_nil by lia.
    + split; [done|]. intros d Hd. lia.
  - intros k Hk IH Hle. destruct IH as (ids & oid & p & He & [Hlen Hd] & HU); [lia|].
    replace (1 + Z.succ k) with (1 + k + 1) by lia.
    destruct (HN (1 + k)) as (from & Hfrom & Hwf & Ho); [lia|].
    destruct (district_effect_new (1 + k) from oid p) as (o & p' & Hp & Hold & Hdel); [lia|done|done|apply HU; lia|].
    exists (ids ++ [o]), o, p'. split; [|split; [split|]].
    + unfold delivery_effect in *. rewrite for_opt_snoc by lia. rewrite He. cbn. rewrite Hfrom. cbn. by rewrite Hp.
    + rewrite length_app, Hlen. cbn. lia.
    + intros d Hd'. destruct (decide (d = 1 + k)) as [->|Hne].
      * exists from, o. split_and!; [done| |done|done]. apply lookup_app_Some. right. rewrite Hlen.
        split; [lia|]. by replace (_ - _)%nat with 0%nat by lia.
      * destruct (Hd d) as (from' & o' & H1 & H2 & H3 & H4); [lia|]. exists from', o'.
        split_and!; [done|by apply lookup_app_l_Some|done|]. eapply delivered_later; [exact H4|].
        eapply district_effect_untouched; [exact HW|exact Hp|lia|apply untouched_refl].
    + intros d Hd'. eapply district_effect_untouched; [exact HW|exact Hp|lia|apply HU; lia].
Qed.

(** A district without new orders after one whose order has the number of an
    order it has delivered. *)
Lemma delivery_effect_stuck last_delivered garbage d from from' o :
  1 <= d < 10 -> word from -> word from' -> last_delivered !! Z.to_nat (d - 1) = Some from ->
  last_delivered !! Z.to_nat d = Some from' -> oldest_new t w d from o ->
  (forall o', is_Some (nos t !! (w, d + 1, o')) -> o' < from') ->
  is_Some (ods t !! (w, d + 1, o)) -> nos t !! (w, d + 1, o) = None ->
  delivery_effect w carrier_id delivery_date t last_delivered garbage 11 = None.
Proof.
  intros Hd Hf Hf' Hl Hl' Ho Hnone [ov' Hov'] Hno.
  replace 11 with (d + 1 + 1 + (9 - d)) by lia. apply delivery_effect_none; [lia| |lia].
  unfold delivery_effect. rewrite !for_opt_snoc by lia. destruct (for_opt 1 d _ _) as [[[ids oid] p]|]; [|done]. cbn.
  rewrite Hl. cbn. pose proof (first_new_spec d from ltac:(lia) Hf) as Hs. unfold district_effect at 1.
  destruct (first_new w t d from) as [o1|]; cbn.
  2:{ destruct Ho as (Hn & Hle & _). specialize (Hs _ Hn). lia. }
  assert (o1 = o) as ->. { destruct Hs as (H1 & H2 & H3), Ho as (H4 & H5 & H6). specialize (H3 _ H4 H5). specialize (H6 _ H1 H2). lia. }
  destruct (found_effect w carrier_id delivery_date t d o p) as [[o2 p2]|] eqn:Hfe; [|done]. cbn.
  assert (o2 = o) as ->.
  { unfold found_effect in Hfe. destruct (o =? 0); [by injection Hfe|]. destruct (ods t !! (w, d, o)); [|by injection Hfe].
    case_decide; [by injection Hfe|done]. }
  replace (d + 1 - 1) with d by lia. rewrite Hl'. cbn.
  pose proof (first_new_spec (d + 1) from' ltac:(lia) Hf') as Hs'. unfold district_effect.
  destruct (first_new w t (d + 1) from') as [o3|]; cbn.
  { destruct Hs' as (H1 & H2 & _). specialize (Hnone _ H1). lia. }
  unfold found_effect. destruct (wf_order _ _ HW _ _ _ _ Hov') as (_ & Hr & _).
  rewrite (proj2 (Z.eqb_neq o 0)) by lia. rewrite Hov', decide_False by (rewrite Hno; by intros [? ?]). done.
Qed.
End delivery.

Section delivery_loop.
#[local] Set Default Proof Using "Type*".
Context (n : Z) (Commute : bool) (w carrier_id delivery_date : Z) (last_delivered : list Z) (db : tpcc_db).
Context (HI : sys_inv n (sys_of db)) (Hw : 1 <= w <= n) (Hcar : 1 <= carrier_id <= 10) (Hdate : delivery_date <> 0).
Context (Hlen : length last_delivered = 10%nat).

#[local] Abbreviation body := (txn_delivery Commute w carrier_id delivery_date last_delivered).
#[local] Abbreviation effect l := (delivery_effect w carrier_id delivery_date (tbl db) last_delivered l 11).

Lemma delivery_body calm l :
  wpc calm (tbl db) body (Core (tbl db) (gens db) l)
    (fun ids c => exists oid p, effect l = Some (ids, oid, p) /\ c = Core p (gens db) oid)
    (fun c => (calm = false \/ effect l = None) /\ c_gens c = gens db).
Proof. apply (delivery_wpc _ _ n) with (stuck := effect l = None); [apply HI|apply HI|done|done|done]. Qed.

Lemma delivery_attempt confl r :
  tbl (r_db r) = tbl db -> gens (r_db r) = gens db -> exists res r', attempt body confl r = Some (res, r') /\
    gens (r_db r') = gens db /\
    match res with
    | Some ids => rtc (tpcc_step n) (sys_of db) (sys_of (r_db r')) /\
        exists l oid, effect l = Some (ids, oid, tbl (r_db r'))
    | None => tbl (r_db r') = tbl db
    end.
Proof.
  intros Ht Hg. destruct (wpc_attempt _ _ _ _ _ _ confl r (delivery_body false (r_locals r)) Ht Hg eq_refl)
    as (res & r' & Ha & _ & _ & Hr).
  exists res, r'. split; [done|]. destruct res as [ids|].
  - destruct Hr as (oid & p & He & [= Hp Hg' Hl]). split; [done|]. split; [|by exists (r_locals r), oid; rewrite Hp].
    apply rtc_once. apply attempt_commits in Ha. rewrite Ht, Hg in Ha.
    pose proof (commit_delivery n (sys_of db) Commute w carrier_id delivery_date last_delivered _ _ _ _ Hw Hcar Hdate Hlen Ha) as Hc.
    unfold sys_of in *. cbn in Hc. by rewrite Hg'.
  - destruct Hr as (Ht' & p & [[_ Hg']|(ids & oid & p' & _ & [= _ Hg' _])]); done.
Qed.

Lemma delivery_loop (confls : list (list bool)) ab l k : exists res r,
  RWTXN body confls (Run db ab l k) = Some (res, r) /\
  ((forall l, effect l <> None) -> [] ∈ confls -> res <> None) /\
  rtc (tpcc_step n) (sys_of db) (sys_of (r_db r)) /\
  match res with
  | Some ids => exists l oid, effect l = Some (ids, oid, tbl (r_db r))
  | None => tbl (r_db r) = tbl db
  end.
Proof.
  destruct (RWTXN_safe body (fun _ r => tbl (r_db r) = tbl db /\ gens (r_db r) = gens db)
    (fun ids r => rtc (tpcc_step n) (sys_of db) (sys_of (r_db r)) /\
       exists l oid, effect l = Some (ids, oid, tbl (r_db r))) confls (Run db ab l k)) as (res & r & H1 & H2 & H3).
  - intros j confl r [Ht Hg]. destruct (delivery_attempt confl r Ht Hg) as (res & r' & Ha & Hg' & Hr).
    exists res, r'. split; [done|]. by destruct res as [ids|].
  - done.
  - exists res, r. split; [done|]. split.
    + intros He. apply H2. intros j r1 [Ht Hg].
      assert (wpc true (tbl db) body (Core (tbl db) (gens db) (r_locals r1)) (fun _ _ => True) (fun _ => False)) as Hc.
      { eapply wpc_mono; [apply (delivery_body true (r_locals r1))|done|]. intros c [[?|Hn] _]; [done|by apply He in Hn]. }
      destruct (wpc_attempt_calm _ _ _ _ _ r1 Hc Ht Hg eq_refl) as (a & r' & Ha & _). by exists a, r'.
    + destruct res as [ids|]; [done|]. destruct H3 as [Ht Hg]. unfold sys_of. by rewrite Ht, Hg.
Qed.
End delivery_loop.

(** * A concrete database *)

(** A generator that always draws the least number. *)
Definition low_rng : Mt19937 := {| uniform _ _ lo _ := lo; shuffle _ _ l := l |}.

#[export] Instance low_rng_ok : Mt19937Ok low_rng.
Proof. split; [cbn; intros; lia|done]. Qed.

(** The database of [n] warehouses; sealed, so that nothing evaluates it. *)
Definition low_db_seal : seal (prepopulate_db (R := low_rng) 0).
Proof. by eexists. Qed.
Definition low_db : Z -> tpcc_db := unseal low_db_seal.

Lemma low_loaded n : 0 <= n -> loaded n (1 + n) (low_db n).
Proof. intros Hn. unfold low_db. rewrite (seal_eq low_db_seal). exact (loaded_db (RO := low_rng_ok) 0 n Hn). Qed.

Lemma low_inv n : 1 <= n <= max_whs -> sys_inv n (sys_of (low_db n)).
Proof. intros Hn. unfold low_db. rewrite (seal_eq low_db_seal). by apply (loaded_inv (RO := low_rng_ok)). Qed.

Lemma low_oid n w d : 0 <= n -> oid_of w d (gens (low_db n)) = 3001.
Proof. intros Hn. unfold oid_of. rewrite (ld_oid_gen _ _ _ (low_loaded n Hn)). apply oid_init. Qed.

Definition small_db : tpcc_db := low_db 1.

Lemma small_db_eq : small_db = prepopulate_db (R := low_rng) 0 1.
Proof. unfold small_db, low_db. by rewrite (seal_eq low_db_seal). Qed.

Lemma small_loaded : loaded 1 2 small_db.
Proof. exact (low_loaded 1 ltac:(lia)). Qed.

Lemma small_inv : sys_inv 1 (sys_of small_db).
Proof. apply low_inv. unfold max_whs. lia. Qed.

Lemma small_oid w d : oid_of w d (gens small_db) = 3001.
Proof. by apply low_oid. Qed.

Lemma small_hkey : hkey_of 1 (gens small_db) = 30000.
Proof. exact (ld_key_gen _ _ _ small_loaded 1). Qed.

Lemma small_order d o : 1 <= d <= 10 -> 1 <= o <= 3000 -> is_Some (ods (tbl small_db) !! (1, d, o)).
Proof.
  intros Hd Ho. apply (ld_ods _ _ _ small_loaded). exists 1. split; [lia|]. exists d.
  unfold NUM_DISTRICTS_PER_WAREHOUSE, NUM_CUSTOMERS_PER_DISTRICT. split; [lia|]. exists o. split; [lia|done].
Qed.

Lemma small_new d o : 1 <= d <= 10 -> 1 <= o <= 3000 -> is_Some (nos (tbl small_db) !! (1, d, o)) <-> 2101 <= o.
Proof.
  intros Hd Ho. rewrite (cs_new _ (si_consistent _ _ small_inv)). destruct (small_order d o Hd Ho) as [ov Hov].
  destruct (op_order _ (ld_orders _ _ _ small_loaded) _ _ _ _ Hov) as (_ & _ & _ & Hc). rewrite <-Hc. cbn.
  split; [|by exists ov]. intros (ov' & H & ?). congruence.
Qed.

Definition small_order_input : neworder_input :=
  {| no_w_id := 1; no_d_id := 1; no_c_id := 7; no_items := [(5, 1, 3); (9, 1, 4)]; no_entry_d := 1 |}.

Lemma small_order_valid : neworder_valid 1 small_order_input.
Proof.
  constructor; cbn; try (unfold district_ok, NUM_DISTRICTS_PER_WAREHOUSE, NUM_CUSTOMERS_PER_DISTRICT; lia).
  - unfold num_items. cbn. lia.
  - unfold NUM_ITEMS. intros iid wid qty [[= -> -> ->]|[[= -> -> ->]|[]%elem_of_nil]%elem_of_cons]%elem_of_cons; lia.
Qed.

Definition small_payment_input (by_name : bool) : payment_input :=
  {| pay_w_id := 1; pay_d_id := 1; pay_c_w_id := 1; pay_c_d_id := 2; pay_by_name := by_name;
     pay_last := default [] (to_last_name 371); pay_c_id := 7; pay_amount := 1234; pay_date := 1 |}.

Lemma small_payment_valid by_name : payment_valid 1 (small_payment_input by_name).
Proof.
  constructor; cbn [pay_w_id pay_d_id pay_c_w_id pay_c_d_id pay_by_name pay_last pay_c_id small_payment_input];
    try (unfold district_ok, NUM_DISTRICTS_PER_WAREHOUSE; lia).
  destruct by_name; cbn [customer_valid]; [by exists 371|unfold NUM_CUSTOMERS_PER_DISTRICT; lia].
Qed.

(** * The theorems *)

(** What a new order with id [o] does to the tables [t]. *)
Record order_entered (q : neworder_input) (t : tables) (o : Z) (t' : tables) : Prop := {
  oe_fresh : ods t !! (no_w_id q, no_d_id q, o) = None;
  oe_order : ods t' = <[(no_w_id q, no_d_id q, o) := order_row q]> (ods t);
  oe_new : nos t' = <[(no_w_id q, no_d_id q, o) := tt]> (nos t);
  oe_index : oci t' = <[(no_w_id q, no_d_id q, no_c_id q, o) := tt]> (oci t);
  oe_lines : forall i iid wid qty, no_items q !! i = Some (iid, wid, qty) -> exists iv s_dist,
    its t !! iid = Some iv /\
    ols t' !! (no_w_id q, no_d_id q, o, Z.of_nat i + 1) = Some (order_line iid wid qty iv s_dist);
  oe_other_lines : forall k, k.1 <> (no_w_id q, no_d_id q, o) -> ols t' !! k = ols t !! k;
  oe_stock : NoDup (line_stock <$> no_items q) -> forall iid wid qty, (iid, wid, qty) ∈ no_items q -> exists sv,
    sts t !! (wid, iid) = Some sv /\
    sts t' !! (wid, iid) = Some (stock_in_place qty (negb (wid =? no_w_id q)) sv);
  oe_other_stock : forall k, k ∉ line_stock <$> no_items q -> sts t' !! k = sts t !! k;
  oe_district : dts t' = alter (fun dv => dv <| d_next_o_id := o |>) (no_w_id q, no_d_id q) (dts t);
  oe_rest : whs t' = whs t /\ cus t' = cus t /\ its t' = its t /\ hts t' = hts t /\ cni t' = cni t }.

Lemma neworder_entered n q t o :
  well_formed n t -> neworder_valid n q -> ods t !! (no_w_id q, no_d_id q, o) = None ->
  order_entered q t o (neworder_tables q t o).
Proof.
  intros HW HV Hf. pose proof (neworder_valid_ready n q t HW HV) as HR. pose proof (nv_items _ _ HV) as Hn.
  constructor; try done.
  - intros i iid wid qty Hi. rewrite (neworder_line_lookup n) by done. cbn [fst snd].
    assert (0 <= Z.of_nat i < num_items q) as Hr by (apply lookup_lt_Some in Hi; unfold num_items; lia).
    rewrite decide_True by (split; [done|lia]). replace (Z.of_nat i + 1 - 1) with (Z.of_nat i) by lia.
    destruct (line_row_ready q t _ HR Hr) as (? & ? & ? & iv & sv & s_dist & Hi' & _ & Hiv & _ & _ & _ & ->).
    rewrite Nat2Z.id, Hi in Hi'. injection Hi' as <- <- <-. by exists iv, s_dist.
  - intros k Hk. rewrite (neworder_line_lookup n), decide_False; [done|by intros [? _]|done|done].
  - intros Hnd iid wid qty [i Hi]%list_elem_of_lookup. destruct (nr_line _ _ HR _ _ _ _ Hi) as (_ & _ & sv & _ & _ & _ & Hsv & _).
    exists sv. split; [done|]. eapply neworder_sts_line; [done|exact Hi| |done].
    apply lookup_lt_Some in Hi. unfold num_items. lia.
  - intros k Hk. apply neworder_sts_other; [lia|]. intros i iid wid qty Hi ->. apply Hk.
    apply list_elem_of_fmap. exists (iid, wid, qty). split; [done|]. by eapply list_elem_of_lookup_2.
Qed.

(** C10: a new order is entered exactly once, whatever its attempts meet.  The loop
    has no undefined behaviour and commits as soon as an attempt meets no
    conflict; an attempt that fails leaves the tables.  The order gets an id that
    no order of the district has, one row per item in the order of the request,
    priced by the item, and an entry in the new orders and in the customer's
    index; from each stock its quantity is taken, and nothing else changes but
    the district's next id. *)
Theorem new_order_served (n : Z) (Commute : bool) (q : neworder_input) (db : tpcc_db) (confls : list (list bool)) :
  sys_inv n (sys_of db) -> neworder_valid n q ->
  oid_of (no_w_id q) (no_d_id q) (gens db) + Z.of_nat (length confls) <= uint64_max ->
  exists res r, RWTXN (txn_neworder Commute q) confls (Run db [] tt 0) = Some (res, r) /\
    ([] ∈ confls -> res <> None) /\
    match res with
    | Some o => oid_of (no_w_id q) (no_d_id q) (gens db) <= o < oid_of (no_w_id q) (no_d_id q) (gens (r_db r)) /\
                order_entered q (tbl db) o (tbl (r_db r))
    | None => tbl (r_db r) = tbl db
    end.
Proof.
  intros HI HV Hmax. destruct (neworder_run n Commute q HV db confls [] 0 HI Hmax) as (res & r & H1 & H2 & _ & _ & _ & H3).
  exists res, r. split; [done|]. split; [done|]. destruct res as [o|]; [|done]. destruct H3 as (Ho & Hf & ->).
  split; [done|]. by apply (neworder_entered n); [apply HI|..].
Qed.

Lemma new_order_served_witness :
  exists res r, RWTXN (txn_neworder false small_order_input) [[false]; []] (Run small_db [] tt 0) = Some (res, r) /\
    ([] ∈ [[false]; []] -> res <> None) /\
    match res with
    | Some o => oid_of 1 1 (gens small_db) <= o < oid_of 1 1 (gens (r_db r)) /\
                order_entered small_order_input (tbl small_db) o (tbl (r_db r))
    | None => tbl (r_db r) = tbl small_db
    end.
Proof.
  apply (new_order_served 1 false small_order_input small_db [[false]; []] small_inv small_order_valid).
  rewrite small_oid. cbn. unfold uint64_max. lia.
Defined.

(** C11: a payment is booked exactly once, whatever its attempts meet.  The loop
    has no undefined behaviour and commits as soon as an attempt meets no
    conflict; an attempt that fails leaves the tables.  The amount is added to
    the revenue of the warehouse and of the district, moved from the balance to
    the payments of the customer asked for (by name: one with that name), and
    recorded under a history number that was not used; nothing else changes. *)
Theorem payment_served (n : Z) (Commute : bool) (q : payment_input) (db : tpcc_db) (confls : list (list bool)) :
  sys_inv n (sys_of db) -> payment_valid n q ->
  hkey_of (pay_c_w_id q) (gens db) + Z.of_nat (length confls) <= uint64_max ->
  exists res r, RWTXN (txn_payment Commute q) confls (Run db [] tt 0) = Some (res, r) /\
    ([] ∈ confls -> res <> None) /\
    match res with
    | Some c => exists k wv dv cv,
        hkey_of (pay_c_w_id q) (gens db) <= k < hkey_of (pay_c_w_id q) (gens (r_db r)) /\
        whs (tbl db) !! pay_w_id q = Some wv /\ dts (tbl db) !! (pay_w_id q, pay_d_id q) = Some dv /\
        cus (tbl db) !! (pay_c_w_id q, pay_c_d_id q, c) = Some cv /\
        (if pay_by_name q then c_last cv = pay_last q else c = pay_c_id q) /\
        hts (tbl db) !! payment_key q c k = None /\
        tbl (r_db r) = (tbl db)
          <| whs := <[pay_w_id q := wv <| w_ytd := u64 (w_ytd wv + pay_amount q) |>]> (whs (tbl db)) |>
          <| dts := <[(pay_w_id q, pay_d_id q) := dv <| d_ytd := s64 (d_ytd dv + pay_amount q) |>]> (dts (tbl db)) |>
          <| cus := <[(pay_c_w_id q, pay_c_d_id q, c) := payment_in_place q c cv]> (cus (tbl db)) |>
          <| hts := <[payment_key q c k := history_row q c wv dv]> (hts (tbl db)) |>
    | None => tbl (r_db r) = tbl db
    end.
Proof.
  intros HI HV Hmax. destruct (payment_run n Commute q HV db confls [] 0 HI Hmax) as (res & r & H1 & H2 & _ & H3).
  exists res, r. split; [done|]. split; [done|]. destruct res as [c|]; [|done].
  destruct H3 as (k & Hk & wv & dv & cv & Hwv & Hdv & Hc & Hcv & Hlast & ->). exists k, wv, dv, cv. split; [exact Hk|].
  split_and!; try done.
  - unfold payment_chosen, chosen_customer in Hc. destruct (pay_by_name q); [by apply Hlast|].
    destruct (pay_c_id q =? 0); [done|by injection Hc].
  - apply eq_None_not_Some. intros H%(si_history _ _ HI). cbn in H. lia.
Qed.

Lemma payment_served_witness :
  exists res r, RWTXN (txn_payment true (small_payment_input true)) [[false]; []] (Run small_db [] tt 0) = Some (res, r) /\
    ([] ∈ [[false]; []] -> res <> None) /\
    match res with
    | Some c => exists k wv dv cv,
        hkey_of 1 (gens small_db) <= k < hkey_of 1 (gens (r_db r)) /\
        whs (tbl small_db) !! 1 = Some wv /\ dts (tbl small_db) !! (1, 1) = Some dv /\
        cus (tbl small_db) !! (1, 2, c) = Some cv /\ c_last cv = pay_last (small_payment_input true) /\
        hts (tbl small_db) !! payment_key (small_payment_input true) c k = None /\
        tbl (r_db r) = (tbl small_db)
          <| whs := <[1 := wv <| w_ytd := u64 (w_ytd wv + 1234) |>]> (whs (tbl small_db)) |>
          <| dts := <[(1, 1) := dv <| d_ytd := s64 (d_ytd dv + 1234) |>]> (dts (tbl small_db)) |>
          <| cus := <[(1, 2, c) := payment_in_place (small_payment_input true) c cv]> (cus (tbl small_db)) |>
          <| hts := <[payment_key (small_payment_input true) c k := history_row (small_payment_input true) c wv dv]>
                    (hts (tbl small_db)) |>
    | None => tbl (r_db r) = tbl small_db
    end.
Proof.
  apply (payment_served 1 true (small_payment_input true) small_db [[false]; []] small_inv (small_payment_valid true)).
  change (pay_c_w_id (small_payment_input true)) with 1. rewrite small_hkey. cbn. unfold uint64_max. lia.
Defined.

(** C12: if every district of the warehouse has a new order from its
    [last_delivered] on, a delivery delivers the oldest such order of each of the
    ten districts, exactly: the order is taken out of the new orders and gets the
    carrier, its lines get the date, its customer's balance the sum of its
    lines, and its id is the district's next [last_delivered]; the other orders
    and customers of the district stay.  The loop ends as soon as an attempt
    meets no conflict, and attempts that fail leave the tables. *)
Theorem delivery_oldest (n : Z) (Commute : bool) (w carrier_id delivery_date garbage : Z) (last_delivered : list Z)
    (db : tpcc_db) (confls : list (list bool)) :
  sys_inv n (sys_of db) -> 1 <= w <= n -> 1 <= carrier_id <= 10 -> delivery_date <> 0 ->
  length last_delivered = 10%nat -> all_new w (tbl db) last_delivered ->
  exists res r, RWTXN (txn_delivery Commute w carrier_id delivery_date last_delivered) confls (Run db [] garbage 0) =
      Some (res, r) /\
    ([] ∈ confls -> res <> None) /\
    match res with
    | Some ids => delivered_upto w carrier_id delivery_date (tbl db) last_delivered ids 11 (tbl (r_db r))
    | None => tbl (r_db r) = tbl db
    end.
Proof.
  intros HI Hw Hcar Hdate Hlen HN. pose proof (si_wf _ _ HI) as HW. pose proof (si_consistent _ _ HI) as HC. cbn [sy_tbl sys_of] in HW, HC.
  pose proof (fun l => delivery_effect_new n w carrier_id delivery_date _ HW HC Hw last_delivered l 11 HN ltac:(lia)) as He.
  destruct (delivery_loop n Commute w carrier_id delivery_date last_delivered db HI Hw Hcar Hdate Hlen confls [] garbage 0)
    as (res & r & H1 & H2 & _ & H3). exists res, r. split; [done|]. split.
  - apply H2. intros l. destruct (He l) as (? & ? & ? & He' & _). by rewrite He'.
  - destruct res as [ids|]; [|done]. destruct H3 as (l & oid & H3). destruct (He l) as (? & ? & ? & He' & Hd & _).
    rewrite He' in H3. injection H3 as <- <- <-. exact Hd.
Qed.

Lemma small_all_new : all_new 1 (tbl small_db) (replicate 10 2100).
Proof.
  intros d Hd. exists 2100. split; [|split; [done|]].
  - apply lookup_replicate. split; [done|lia].
  - exists 2101. split; [|lia]. by apply small_new; [|lia..].
Qed.

Lemma delivery_oldest_witness :
  exists res r, RWTXN (txn_delivery false 1 3 1 (replicate 10 2100)) [[false]; []] (Run small_db [] 77 0) = Some (res, r) /\
    ([] ∈ [[false]; []] -> res <> None) /\
    match res with
    | Some ids => delivered_upto 1 3 1 (tbl small_db) (replicate 10 2100) ids 11 (tbl (r_db r))
    | None => tbl (r_db r) = tbl small_db
    end.
Proof.
  apply (delivery_oldest 1 false 1 3 1 77 (replicate 10 2100) small_db [[false]; []] small_inv);
    [lia|lia|done|done|exact small_all_new].
Defined.

(** C13: a delivery can retry for ever.  [order_id] is not reset between the
    districts: if a district has a new order [o], the next district has none from
    its [last_delivered] on, but has delivered an order with the same number, then
    every attempt aborts, conflicts or not, and the delivery never commits. *)
Theorem delivery_stuck (n : Z) (Commute : bool) (w carrier_id delivery_date garbage d from from' o : Z)
    (last_delivered : list Z) (db : tpcc_db) (confls : list (list bool)) :
  well_formed n (tbl db) -> consistent (tbl db) -> 1 <= w <= n -> length last_delivered = 10%nat ->
  1 <= d < 10 -> word from -> word from' ->
  last_delivered !! Z.to_nat (d - 1) = Some from -> last_delivered !! Z.to_nat d = Some from' ->
  oldest_new (tbl db) w d from o -> (forall o', is_Some (nos (tbl db) !! (w, d + 1, o')) -> o' < from') ->
  is_Some (ods (tbl db) !! (w, d + 1, o)) -> nos (tbl db) !! (w, d + 1, o) = None ->
  exists r, RWTXN (txn_delivery Commute w carrier_id delivery_date last_delivered) confls (Run db [] garbage 0) =
      Some (None, r) /\ tbl (r_db r) = tbl db.
Proof.
  intros HW HC Hw Hlen Hd Hf Hf' Hl Hl' Ho Hn Hod Hnn.
  pose proof (fun l => delivery_effect_stuck n w carrier_id delivery_date _ HW HC Hw last_delivered l d from from' o
    Hd Hf Hf' Hl Hl' Ho Hn Hod Hnn) as He.
  destruct (RWTXN_safe (txn_delivery Commute w carrier_id delivery_date last_delivered)
    (fun _ r => tbl (r_db r) = tbl db /\ gens (r_db r) = gens db) (fun _ _ => False) confls (Run db [] garbage 0))
    as (res & r & H1 & _ & H3); [|done|].
  - intros j confl r [Ht Hg].
    pose proof (delivery_wpc false Commute n w carrier_id delivery_date (tbl db) (gens db) HW HC True
      (fun c => c_gens c = gens db) ltac:(done) last_delivered (r_locals r) Hlen ltac:(done)) as Hwp.
    destruct (wpc_attempt _ _ _ _ _ _ confl r Hwp Ht Hg eq_refl) as (res & r' & Ha & _ & _ & Hr).
    exists res, r'. split; [done|]. destruct res as [ids|]; [destruct Hr as (oid & p & Hr & _); by rewrite He in Hr|].
    destruct Hr as (Ht' & p & [Hg'|(ids & oid & p' & Hr & _)]); [done|by rewrite He in Hr].
  - destruct res as [ids|]; [done|]. exists r. by destruct H3.
Qed.

(** After district 2 delivered order 2101. *)
Lemma small_stuck_db : exists t, well_formed 1 t /\ consistent t /\ is_Some (nos t !! (1, 1, 2101)) /\
  (forall d o, is_Some (nos t !! (1, d, o)) -> 2101 <= o <= 3000) /\
  is_Some (ods t !! (1, 2, 2101)) /\ nos t !! (1, 2, 2101) = None.
Proof.
  pose proof (si_wf _ _ small_inv) as HW. pose proof (si_consistent _ _ small_inv) as HC. cbn [sy_tbl sys_of] in HW, HC.
  destruct (small_order 2 2101) as [ov Hov]; [lia..|].
  assert (is_Some (nos (tbl small_db) !! (1, 2, 2101))) as Hn by (by apply small_new; [lia..|]).
  set (t := deliver_tables 1 1 1 (tbl small_db) 2 2101 ov (tbl small_db)). exists t.
  pose proof (untouched_refl 1 (tbl small_db) 2) as HU.
  split; [by apply deliver_well_formed|]. split; [by apply (deliver_consistent 1)|].
  assert (nos t = delete (1, 2, 2101) (nos (tbl small_db))) as En by done.
  assert (ods t = <[(1, 2, 2101) := ov <| o_carrier_id := 1 |>]> (ods (tbl small_db))) as Eo by done.
  rewrite En, Eo, lookup_insert_eq, lookup_delete_eq. clearbody t. split_and!; [| |by eexists|done].
  - rewrite lookup_delete_ne by done. by apply small_new; [lia..|].
  - intros d o [_ H]%lookup_delete_is_Some. pose proof H as (ov' & Ho & _)%(cs_new _ HC).
    destruct (loaded_order 1 small_db ltac:(unfold max_whs; lia) small_loaded 1 d o) as [[_ Hd] Hr]; [by eexists|].
    apply small_new in H; unfold NUM_DISTRICTS_PER_WAREHOUSE in *; lia.
Qed.

Lemma delivery_stuck_witness : exists t,
  well_formed 1 t /\ exists r,
    RWTXN (txn_delivery true 1 1 1 (2100 :: replicate 9 3001)) [[]; []; []]
      (Run {| tbl := t; gens := gens small_db; dlvy_queue_ := ∅ |} [] 0 0) = Some (None, r) /\ tbl (r_db r) = t.
Proof.
  destruct small_stuck_db as (t & HW & HC & H1 & H2 & H3 & H4). exists t. split; [exact HW|].
  apply (delivery_stuck 1 true 1 1 1 0 1 2100 3001 2101 (2100 :: replicate 9 3001)
    {| tbl := t; gens := gens small_db; dlvy_queue_ := ∅ |} [[]; []; []]); try done.
  - split; [exact H1|]. split; [lia|]. intros o' Ho' _. apply H2 in Ho'. lia.
  - intros o' Ho'. apply H2 in Ho'. lia.
Defined.

(** * Witnesses of the invariants and of the transactions that read *)

(** A run of the loaded system that enters an order. *)
Lemma small_run : exists o r,
  RWTXN (txn_neworder true small_order_input) [[]] (Run small_db [] tt 0) = Some (Some o, r) /\
  rtc (tpcc_step 1) (sys_of (prepopulate_db (R := low_rng) 0 1)) (sys_of (r_db r)) /\
  is_Some (ods (tbl (r_db r)) !! (1, 1, o)).
Proof.
  destruct (neworder_run 1 true small_order_input small_order_valid small_db [[]] [] 0 small_inv) as (res & r & H1 & H2 & H3 & _ & _ & H4).
  { change (no_w_id small_order_input) with 1. rewrite small_oid. unfold uint64_max. cbn. lia. }
  rewrite <-small_db_eq. destruct res as [o|]; [|by destruct H2; [left|]]. exists o, r.
  split; [exact H1|]. split; [exact H3|]. destruct H4 as (_ & _ & ->). cbn. rewrite lookup_insert_eq. by eexists.
Qed.

Lemma tpcc_consistent_witness : exists o r,
  RWTXN (txn_neworder true small_order_input) [[]] (Run small_db [] tt 0) = Some (Some o, r) /\ consistent (tbl (r_db r)).
Proof.
  destruct small_run as (o & r & H1 & H2 & _). exists o, r. split; [exact H1|].
  exact (tpcc_consistent (RO := low_rng_ok) 0 1 (sys_of (r_db r)) ltac:(unfold max_whs; lia) H2).
Defined.

Lemma tpcc_well_formed_witness : exists o r,
  RWTXN (txn_neworder true small_order_input) [[]] (Run small_db [] tt 0) = Some (Some o, r) /\
  well_formed 1 (tbl (r_db r)).
Proof.
  destruct small_run as (o & r & H1 & H2 & _). exists o, r. split; [exact H1|].
  exact (tpcc_well_formed (RO := low_rng_ok) 0 1 (sys_of (r_db r)) ltac:(unfold max_whs; lia) H2).
Defined.

Definition small_status (by_name : bool) : orderstatus_input :=
  {| os_w_id := 1; os_d_id := 4; os_by_name := by_name; os_last := default [] (to_last_name 371); os_c_id := 9 |}.

Lemma small_status_valid by_name : orderstatus_valid 1 (small_status by_name).
Proof.
  constructor; cbn [os_w_id os_d_id os_by_name os_last os_c_id small_status];
    [unfold district_ok, NUM_DISTRICTS_PER_WAREHOUSE; lia|].
  destruct by_name; cbn [customer_valid]; [by exists 371|unfold NUM_CUSTOMERS_PER_DISTRICT; lia].
Qed.

Lemma order_status_latest_witness :
  exists res r, RWTXN (txn_orderstatus (small_status true)) [[]] (Run small_db [] tt 0) = Some (res, r) /\
    tbl (r_db r) = tbl small_db /\ gens (r_db r) = gens small_db /\ (([] : list bool) ∈ [[]] -> res <> None) /\
    forall out, res = Some out -> exists c,
      chosen_customer (tbl small_db) true 1 4 (os_last (small_status true)) 9 = Some c /\
      (true = true -> c_last (os_customer out) = os_last (small_status true)) /\
      orderstatus_answer (tbl small_db) 1 4 c out.
Proof.
  exact (order_status_latest 1 small_db (small_status true) [[]] (si_wf _ _ small_inv) (si_consistent _ _ small_inv)
    (small_status_valid true)).
Defined.

Lemma stock_level_counts_nothing_witness :
  exists res r, RWTXN (txn_stocklevel 1 3 15) [[true]; []] (Run small_db [] 0 0) = Some (res, r) /\
    tbl (r_db r) = tbl small_db /\ r_locals r = 0 /\ ([] ∈ [[true]; []] -> res <> None).
Proof.
  apply (stock_level_counts_nothing 1 small_db 1 3 15 [[true]; []] (si_wf _ _ small_inv)).
  unfold district_ok, NUM_DISTRICTS_PER_WAREHOUSE. lia.
Defined.

Lemma commute_equivalent_witness :
  RWTXN (txn_neworder true small_order_input) [[false]; []] (Run small_db [] tt 0) =
    RWTXN (txn_neworder false small_order_input) [[false]; []] (Run small_db [] tt 0) /\
  RWTXN (txn_payment true (small_payment_input false)) [[false]; []] (Run small_db [] tt 0) =
    RWTXN (txn_payment false (small_payment_input false)) [[false]; []] (Run small_db [] tt 0) /\
  RWTXN (txn_delivery true 1 3 1 (replicate 10 2100)) [[false]; []] (Run small_db [] 77 0) =
    RWTXN (txn_delivery false 1 3 1 (replicate 10 2100)) [[false]; []] (Run small_db [] 77 0).
Proof. apply commute_equivalent. repeat constructor; cbn; lia. Defined.
