(* ===== verification/TpccRun.v ===== *)
(** The TPC-C workers as steps of the system: a turn of a worker and a pass of a
    delivery owner are sequences of the steps of [TpccSys]; what a client's
    request asks for is valid. *)

From stdpp Require Import functions.
From S2P Require Import Prelude Memory Config Feature RpcCommon Msg Central Worker.
From S2P Require Import TpccData TpccGen TpccIndex TpccTxn TpccRunner TpccKeys TpccInv TpccLogic.
From S2P Require Import TpccNewOrder TpccPayment TpccRead TpccSys TpccLoad TpccSafe TpccServe.

#[local] Arguments ld : simpl never.

(** * Valid requests *)

Section valid.
Variables (n : Z) (m : memory) (x : msg_t).

Definition msg_valid : Prop :=
  match txn_of_type (m_type x) with
  | new_order => district_ok n (get_w_id m x) (get_d_id m x) /\ 1 <= get_c_id m x <= NUM_CUSTOMERS_PER_DISTRICT /\
      1 <= get_s_num m x <= 15 /\ forall i, 0 <= i < get_s_num m x ->
        1 <= get_i_id m x i <= NUM_ITEMS /\ 1 <= get_s_w m x (get_s_num m x) i <= n
  | payment => district_ok n (get_w_id_pay m x) (get_d_id_pay m x) /\
      (get_is_home_pay m x = false -> district_ok n (get_c_w_id_pay m x) (get_c_d_id_pay m x)) /\
      if get_by_name_pay m x then 0 <= get_c_id_pay m x <= 999 else 1 <= get_c_id_pay m x <= NUM_CUSTOMERS_PER_DISTRICT
  | order_status => district_ok n (get_w_id_order m x) (get_d_id_order m x) /\
      (get_by_name_order m x = false -> 1 <= get_c_id_order m x <= NUM_CUSTOMERS_PER_DISTRICT)
  | stock_level => district_ok n (get_w_id_stock m x) (get_d_id_stock m x)
  | delivery => 1 <= get_w_id_del m x <= n
  end.

End valid.

Section inputs.
#[local] Set Default Proof Using "Type*".
Context {R : Mt19937} {RO : Mt19937Ok R}.
Variables (n : Z) (m : memory) (x : msg_t).

Lemma random_range lo hi g v g' : random lo hi g = (v, g') -> lo <= hi -> lo <= v <= hi.
Proof. intros [= <- _] Hle. by apply uniform_range. Qed.

Lemma neworder_args_valid g :
  msg_valid n m x -> txn_of_type (m_type x) = new_order ->
  exists q g', neworder_args m x g = Some (q, g') /\ neworder_valid n q /\
    no_w_id q = get_w_id m x /\ no_d_id q = get_d_id m x /\ no_c_id q = get_c_id m x /\
    fst <$> no_items q = (fun i => (get_i_id m x i, get_s_w m x (get_s_num m x) i)) <$> seqZ 0 (get_s_num m x).
Proof.
  unfold msg_valid. intros HV Ht. rewrite Ht in HV. destruct HV as (Hd & Hc & Hn & HI). unfold neworder_args.
  destruct (gen_date g) as [date g1]. rewrite (proj2 (Z.eqb_neq (get_c_id m x) 0)), (proj2 (Z.leb_le _ 15)) by lia. cbn [negb andb].
  set (num := get_s_num m x) in *.
  destruct (for_range 0 num _ ([], g1)) as [items g2] eqn:E.
  assert (fst <$> items = (fun i => (get_i_id m x i, get_s_w m x num i)) <$> seqZ 0 num /\ Forall (fun it => 1 <= it.2 <= 10) items)
    as [HF HQ].
  { change items with ((items, g2).1). rewrite <-E. clear E items g2.
    apply (for_range_ind (fun j s => fst <$> s.1 = (fun i => (get_i_id m x i, get_s_w m x num i)) <$> seqZ 0 j /\
      Forall (fun it => 1 <= it.2 <= 10) s.1) 0 num); [lia|done|].
    intros j [l g3] Hj [IH1 IH2]. destruct (random 1 10 g3) as [qty g4] eqn:Hq. apply random_range in Hq; [|lia]. cbn [fst snd] in *.
    rewrite seqZ_app by lia. rewrite !fmap_app, IH1, Z.add_0_l. split; [done|]. apply Forall_app. split; [done|].
    constructor; [done|constructor]. }
  do 2 eexists. split; [reflexivity|]. cbn [no_w_id no_d_id no_c_id no_items]. split_and!; [|done..].
  assert (length items = Z.to_nat num) as Hlen
    by (rewrite <-(length_fmap fst items), HF, length_fmap, length_seqZ; done).
  constructor; cbn [no_w_id no_d_id no_c_id no_items]; [done|done|unfold num_items; cbn; lia|].
  intros iid wid qty Hin. rewrite Forall_forall in HQ. pose proof (HQ _ Hin) as Hq.
  assert ((iid, wid) ∈ fst <$> items) as Hk by (apply list_elem_of_fmap; by exists (iid, wid, qty)).
  rewrite HF in Hk. apply list_elem_of_fmap in Hk as (i & [= -> ->] & Hi%elem_of_seqZ).
  destruct (HI i) as [H1 H2]; [lia|]. done.
Qed.

Lemma payment_args_valid g :
  msg_valid n m x -> txn_of_type (m_type x) = payment ->
  exists q g', payment_args m x g = Some (q, g') /\ payment_valid n q /\
    pay_w_id q = get_w_id_pay m x /\ pay_d_id q = get_d_id_pay m x /\ 100 <= pay_amount q <= 500000.
Proof.
  unfold msg_valid. intros HV Ht. rewrite Ht in HV. destruct HV as (Hd & Hh & Hc). unfold payment_args.
  set (home := if get_is_home_pay m x then _ else _).
  assert (district_ok n home.1 home.2) as Hhome by (unfold home; destruct (get_is_home_pay m x); [done|by apply Hh]).
  destruct home as [cw cd]. cbn [fst snd] in Hhome.
  assert (exists last, (if get_by_name_pay m x then to_last_name (get_c_id_pay m x) else Some []) = Some last /\
    customer_valid (get_by_name_pay m x) last (if get_by_name_pay m x then 0 else get_c_id_pay m x)) as (last & Hl & HC).
  { destruct (get_by_name_pay m x); [|by exists []]. destruct (proj1 (TpccFill.to_last_name_some _) Hc) as [last Hl].
    exists last. split; [done|]. by exists (get_c_id_pay m x). }
  rewrite Hl. cbn [mbind option_bind]. destruct (random 100 500000 g) as [amount g1] eqn:Ha. apply random_range in Ha; [|lia].
  destruct (gen_date g1) as [date g2]. do 2 eexists. split; [reflexivity|]. cbn. split_and!; [|done..|lia|lia]. by constructor.
Qed.

Lemma orderstatus_args_valid g :
  msg_valid n m x -> txn_of_type (m_type x) = order_status ->
  exists q g', orderstatus_args m x g = Some (q, g') /\ orderstatus_valid n q.
Proof.
  unfold msg_valid. intros HV Ht. rewrite Ht in HV. destruct HV as (Hd & Hc). unfold orderstatus_args.
  destruct (get_by_name_order m x) eqn:Hb.
  - unfold gen_customer_last_name_run. destruct (gen_customer_last_name_num true g) as [num g1] eqn:Hn.
    assert (0 <= num <= 999) as Hr.
    { unfold gen_customer_last_name_num, nurand in Hn. destruct (random 0 255 g) as [r1 g2], (random 0 999 g2) as [r2 g3].
      injection Hn as <- _. change (999 - 0 + 1) with 1000. pose proof (Z.mod_pos_bound (u64 (Z.lor r1 r2 + 223)) 1000). lia. }
    destruct (proj1 (TpccFill.to_last_name_some num) Hr) as [last Hl]. rewrite Hl. cbn [mbind option_bind].
    do 2 eexists. split; [reflexivity|]. constructor; [done|]. by exists num.
  - cbn [mbind option_bind]. do 2 eexists. split; [reflexivity|]. constructor; [done|]. by apply Hc.
Qed.
End inputs.

(** * A worker's turn *)

(** The counters do not reach [2^64] in a transaction of so many attempts. *)
Definition room (attempts : nat) (db : tpcc_db) : Prop :=
  (forall w d, oid_of w d (gens db) + Z.of_nat attempts <= uint64_max) /\
  forall w, hkey_of w (gens db) + Z.of_nat attempts <= uint64_max.

Section turn.
#[local] Set Default Proof Using "Type*".
Context {C : Config} {R : Mt19937} {RO : Mt19937Ok R} (n : Z) (Commute : bool).

Lemma finish_txn_db {A L} (x : input_generator * (option A * run L)) rn sv rn' sv' done :
  finish_txn x rn sv = Some (rn', sv', done) -> sv_db sv' = r_db x.2.2.
Proof.
  destruct x as [g [res r]]. unfold finish_txn. intros ([w h] & _ & H)%bind_Some. apply bind_Some in H as (h' & _ & H).
  by injection H as <- <- <-.
Qed.

Lemma tpcc_execute_steps confls rn sv rn' sv' done flag :
  sys_inv n (sys_of (sv_db sv)) -> msg_valid n (mem (sv_host sv)) (now_msg (rmsg rn)) -> room (length confls) (sv_db sv) ->
  tpcc_execute Commute confls rn sv = Some (rn', sv', done, flag) ->
  rtc (tpcc_step n) (sys_of (sv_db sv)) (sys_of (sv_db sv')).
Proof.
  intros HI HV [R1 R2]. pose proof (si_wf _ _ HI) as HW. pose proof (si_consistent _ _ HI) as HC. cbn [sy_tbl sys_of] in HW, HC.
  unfold tpcc_execute. destruct (txn_of_type (m_type (now_msg (rmsg rn)))) eqn:Ht.
  - destruct (neworder_args_valid n _ _ (ig rn) HV Ht) as (q & g & Hq & HQ & _). unfold run_txn_neworder. rewrite Hq. cbn [mbind option_bind].
    destruct (neworder_run n Commute q HQ (sv_db sv) confls [] 0 HI) as (res & r & -> & _ & Hs & _); [apply R1|]. cbn [mbind option_bind].
    intros ([[rn1 sv1] d1] & Hf & [= <- <- <- <-])%bind_Some. by rewrite (finish_txn_db _ _ _ _ _ _ Hf).
  - destruct (payment_args_valid n _ _ (ig rn) HV Ht) as (q & g & Hq & HQ & _). unfold run_txn_payment. rewrite Hq. cbn [mbind option_bind].
    destruct (payment_run n Commute q HQ (sv_db sv) confls [] 0 HI) as (res & r & -> & _ & Hs & _); [apply R2|]. cbn [mbind option_bind].
    intros ([[rn1 sv1] d1] & Hf & [= <- <- <- <-])%bind_Some. by rewrite (finish_txn_db _ _ _ _ _ _ Hf).
  - destruct (orderstatus_args_valid n _ _ (ig rn) HV Ht) as (q & g & Hq & HQ). unfold run_txn_orderstatus. rewrite Hq. cbn [mbind option_bind].
    destruct (read_only_loop (txn_orderstatus q) (sv_db sv) tt (fun _ => True) confls [] 0) as (res & r & -> & Htb & Hg & _).
    { intros calm. eapply wpc_mono; [apply (orderstatus_wpc calm n q (tbl (sv_db sv)) (gens (sv_db sv)) HW HC HQ)| |done]. by intros a c [-> _]. }
    cbn [mbind option_bind]. intros ([[rn1 sv1] d1] & Hf & [= <- <- <- <-])%bind_Some. rewrite (finish_txn_db _ _ _ _ _ _ Hf).
    unfold sys_of. cbn [fst snd]. by rewrite Htb, Hg.
  - intros (sv1 & He & [= <- <- <- <-])%bind_Some. unfold enqueue_delivery in He. apply bind_Some in He as (d & _ & [= <-]). done.
  - unfold run_txn_stocklevel. destruct (random 10 20 (ig rn)) as [threshold g]. unfold msg_valid in HV. rewrite Ht in HV.
    destruct (read_only_loop (txn_stocklevel (get_w_id_stock (mem (sv_host sv)) (now_msg (rmsg rn)))
      (get_d_id_stock (mem (sv_host sv)) (now_msg (rmsg rn))) threshold) (sv_db sv) 0 (fun _ => True) confls [] 0) as (res & r & -> & Htb & Hg & _).
    { intros calm. by apply (stocklevel_wpc calm n). }
    cbn [mbind option_bind]. intros ([[rn1 sv1] d1] & Hf & [= <- <- <- <-])%bind_Some. rewrite (finish_txn_db _ _ _ _ _ _ Hf).
    unfold sys_of. cbn [fst snd]. by rewrite Htb, Hg.
Qed.

Lemma tpcc_turn_steps confls rn sv rn' sv' e :
  sys_inv n (sys_of (sv_db sv)) -> room (length confls) (sv_db sv) ->
  (forall w h, next_txn_check (rmsg rn) (sv_host sv) = Some (w, h, true) -> msg_valid n (mem h) (now_msg w)) ->
  tpcc_turn Commute confls rn sv = Some (rn', sv', e) ->
  rtc (tpcc_step n) (sys_of (sv_db sv)) (sys_of (sv_db sv')).
Proof.
  intros HI HR HV. unfold tpcc_turn. intros ([[w h] found] & Hn & H)%bind_Some. destruct found; cbn [negb] in H.
  2:{ injection H as <- <- <-. done. }
  apply bind_Some in H as ([[[rn1 sv1] done] flag] & He & H).
  apply tpcc_execute_steps in He; [|done|by apply HV|done]. destruct done; cbn [negb] in H.
  - apply bind_Some in H as ([w1 h1] & _ & [= <- <- <-]). exact He.
  - injection H as <- <- <-. exact He.
Qed.

(** ** Deliveries *)

Context (confls_at : Z -> Z -> list (list bool)) (garbage_at : Z -> Z -> Z).

Lemma delivery_effect_length w carrier_id delivery_date t last_delivered garbage e ids oid p :
  1 <= e -> TpccDeliver.delivery_effect w carrier_id delivery_date t last_delivered garbage e = Some (ids, oid, p) ->
  length ids = Z.to_nat (e - 1).
Proof using.
  intros He. replace e with (1 + (e - 1)) by lia. assert (0 <= e - 1) as Hk by lia. revert ids oid p. pattern (e - 1).
  apply natlike_ind; [| |exact Hk]; unfold TpccDeliver.delivery_effect.
  - intros ids oid p. rewrite for_opt_nil by lia. by intros [= <- _ _].
  - intros k Hk' IH ids oid p. replace (1 + Z.succ k) with (1 + k + 1) by lia. rewrite for_opt_snoc by lia.
    intros ([[ids0 oid0] p0] & H0%IH & H)%bind_Some. apply bind_Some in H as (ld & _ & H).
    apply bind_Some in H as ([o p1] & _ & [= <- _ _]). rewrite length_app, H0. cbn. lia.
Qed.

(** The last orders an owner remembers are ten ids per warehouse. *)
Definition owner_ok (o : owner) : Prop :=
  sys_inv n (sys_of (sv_db (ow_server o))) /\ forall k l, last_delivered_multi o !! k = Some l -> length l = 10%nat.

Definition owner_steps (o o' : owner) : Prop :=
  rtc (tpcc_step n) (sys_of (sv_db (ow_server o))) (sys_of (sv_db (ow_server o'))) /\
  forall k l, last_delivered_multi o' !! k = Some l -> length l = 10%nat.

Lemma owner_steps_ok o o' : owner_ok o -> owner_steps o o' -> owner_ok o'.
Proof. intros [HI _] [Hs Hl]. split; [by eapply reachable_inv|done]. Qed.

Lemma owner_steps_trans o1 o2 o3 : owner_steps o1 o2 -> owner_steps o2 o3 -> owner_steps o1 o3.
Proof. intros [H1 _] [H2 H3]. split; [by etrans|done]. Qed.

Lemma deliver_next_steps w i o o' :
  owner_ok o -> 1 <= w <= n -> deliver_next Commute confls_at garbage_at w i o = Some o' -> owner_steps o o'.
Proof.
  intros [HI HL] Hw. unfold deliver_next. intros (ready & _ & H)%bind_Some. destruct ready; cbn [negb] in H.
  2:{ injection H as <-. by split. }
  apply bind_Some in H as (last & Hlast & H). unfold run_txn_delivery in H.
  destruct (random 1 10 (ow_ig o)) as [carrier g1] eqn:Hcar. apply random_range in Hcar; [|lia].
  destruct (gen_date g1) as [date g2] eqn:Hdate. apply random_range in Hdate; [|lia].
  destruct (delivery_loop n Commute w carrier date last (sv_db (ow_server o)) HI Hw Hcar ltac:(lia) (HL _ _ Hlast)
    (confls_at w i) [] (garbage_at w i) 0) as (res & r & E & _ & Hs & Hr). rewrite E in H. cbn [mbind option_bind] in H.
  apply bind_Some in H as (h & _ & H). destruct res as [ids|].
  - destruct Hr as (l & oid & He). apply delivery_effect_length in He; [|lia].
    apply bind_Some in H as ([[d flags] h'] & _ & [= <-]). split; [exact Hs|]. cbn. intros k l' [[_ <-]|[_ Hk]]%lookup_insert_Some; [done|by eapply HL].
  - injection H as <-. by split.
Qed.

Lemma unless_retrying_steps f o o' :
  owner_ok o -> (f o = Some o' -> owner_steps o o') -> unless_retrying f o = Some o' -> owner_steps o o'.
Proof. intros [_ HL] Hf. unfold unless_retrying. destruct (ow_retrying o); [|done]. intros [= <-]. by split. Qed.

Lemma for_opt_steps b e (f : Z -> owner -> option owner) o o' :
  owner_ok o -> (forall i o o', owner_ok o -> f i o = Some o' -> owner_steps o o') ->
  for_opt b e f o = Some o' -> owner_steps o o'.
Proof.
  intros HO Hf. destruct (decide (b <= e)) as [Hle|]; [|rewrite for_opt_nil by lia; intros [= <-]; destruct HO; by split].
  apply (for_opt_ind (fun _ o' => owner_steps o o')); [done|destruct HO; by split|].
  intros i o1 o2 _ H1 H2. eapply owner_steps_trans; [exact H1|]. eapply Hf; [|exact H2]. by eapply owner_steps_ok.
Qed.

Lemma deliver_queued_steps w o o' :
  owner_ok o -> 1 <= w <= n -> deliver_queued Commute confls_at garbage_at w o = Some o' -> owner_steps o o'.
Proof.
  intros HO Hw. unfold deliver_queued. destruct (0 <? _); [|intros [= <-]; destruct HO; by split].
  intros (o1 & H1 & H2)%bind_Some. apply for_opt_steps in H1; [|exact HO|].
  2:{ intros i o2 o3 HO2 H. eapply unless_retrying_steps; [done| |exact H]. by apply deliver_next_steps. }
  pose proof (owner_steps_ok _ _ HO H1) as HO1. eapply owner_steps_trans; [exact H1|].
  eapply unless_retrying_steps; [done| |exact H2]. intros [= <-]. destruct HO1. by split.
Qed.

Lemma for_owned_steps ws o o' :
  owner_ok o -> Forall (fun w => 1 <= w <= n) ws -> for_owned Commute confls_at garbage_at ws o = Some o' -> owner_steps o o'.
Proof.
  intros HO HF. revert o HO. induction HF as [|w ws Hw HF IH]; intros o HO; cbn [for_owned].
  - intros [= <-]. destruct HO. by split.
  - intros (o1 & H1 & H2)%bind_Some.
    assert (owner_steps o o1) as Hs by (eapply unless_retrying_steps; [done| |exact H1]; by apply deliver_queued_steps).
    eapply owner_steps_trans; [exact Hs|]. apply IH; [by eapply owner_steps_ok|exact H2].
Qed.

Lemma owned_range own w : 1 <= own <= 2 -> w ∈ owned_warehouses own n <-> 1 <= w <= n /\ (w - own) mod 2 = 0 /\ own <= w.
Proof.
  intros Hown. unfold owned_warehouses. rewrite list_elem_of_fmap. split.
  - intros (k & -> & Hk%elem_of_seqZ). pose proof (Z.mul_div_le (n - own) 2). replace (own + 2 * k - own) with (k * 2) by lia.
    rewrite Z.mod_mul by lia. lia.
  - intros (Hw & Hm & Hle). exists ((w - own) / 2). pose proof (Z.div_mod (w - own) 2). split; [lia|]. apply elem_of_seqZ.
    split; [apply Z.div_pos; lia|]. pose proof (Z.div_le_mono (w - own) (n - own) 2). lia.
Qed.

Lemma delivery_pass_steps own o o' :
  owner_ok o -> 1 <= own <= 2 -> delivery_pass Commute confls_at garbage_at own n o = Some o' -> owner_steps o o'.
Proof.
  intros HO Hown. apply for_owned_steps; [done|]. apply Forall_forall. intros w Hw. by apply owned_range in Hw as [? _].
Qed.
End turn.
