(* ===== verification/TpccAnswer.v ===== *)
(** A TPC-C worker that finds a request in its queue runs it and answers it in
    the reply block of the client's slot: the message loop of [Worker], the
    transactions of [TpccTxn] and the database of [TpccSys] together. *)

From stdpp Require Import functions.
From S2P Require Import Prelude Memory Config Ring Feature ModelUpdate Perf RpcCommon Msg RpcConnect Central CentralProps Worker Runner RunnerProps.
From S2P Require Import TpccData TpccGen TpccIndex TpccTxn TpccRunner TpccInv TpccLogic.
From S2P Require Import TpccNewOrder TpccPayment TpccRead TpccSys TpccSafe TpccServe TpccRun.

(** * The keys that are reported *)

(** Their tables are among those of the feature partition. *)
Definition key_ok (k : tx_key_t) : Prop := 0 <= k.1 < 12.

(** Whatever an attempt does, it reports such keys only. *)
Definition keeps {L A} (m : txn L A) : Prop := forall s, Forall key_ok (aborts s) ->
  match m s with Done _ s' => Forall key_ok (aborts s') | Aborted s' => Forall key_ok (aborts s') | Undefined => True end.

Section keeps.
Context {L : Type}.

Lemma keeps_ret {A} (a : A) : keeps (mret a : txn L A).
Proof. by intros s. Qed.

Lemma keeps_bind {A B} (m : txn L A) (k : A -> txn L B) : keeps m -> (forall a, keeps (k a)) -> keeps (m ≫= k).
Proof. intros Hm Hk s Hs. specialize (Hm s Hs). unfold mbind, txn_bind. destruct (m s) as [a s'|s'|]; [by apply Hk|done..]. Qed.

Lemma keeps_RECORED_ABORT b k : key_ok k -> keeps (RECORED_ABORT b k : txn L unit).
Proof. intros Hk s Hs. unfold RECORED_ABORT. destruct b; cbn; [done|]. apply Forall_app. split; [done|]. constructor; [done|constructor]. Qed.

Lemma keeps_CHK b : keeps (CHK b : txn L unit).
Proof. intros s Hs. unfold CHK. by destruct b. Qed.
Lemma keeps_assert b : keeps (assert b : txn L unit).
Proof. intros s Hs. unfold assert. by destruct b. Qed.
Lemma keeps_assert_row {V} (r : option V) : keeps (assert_row r : txn L V).
Proof. intros s Hs. unfold assert_row. by destruct r. Qed.
Lemma keeps_get_state : keeps (get_state : txn L _).
Proof. by intros s. Qed.
Lemma keeps_get_locals : keeps (get_locals : txn L _).
Proof. by intros s. Qed.
Lemma keeps_set_locals l : keeps (set_locals l : txn L _).
Proof. by intros s. Qed.
Lemma keeps_granted : keeps (granted : txn L bool).
Proof. by intros s. Qed.
Lemma keeps_oid_next w d : keeps (oid_generator_next w d : txn L Z).
Proof. by intros s. Qed.
Lemma keeps_gen_key w : keeps (gen_key w : txn L Z).
Proof. by intros s. Qed.
Lemma keeps_write {K V} `{Countable K} (ix : tables -> gmap K V) {ST : Setter ix} f : keeps (write ix f : txn L unit).
Proof. by intros s. Qed.
Lemma keeps_for {S} (body : Z -> S -> txn L S) l x : (forall i x, keeps (body i x)) -> keeps (for_txn body l x).
Proof. intros Hb. revert x. induction l as [|i l IH]; intros x; [apply keeps_ret|]. cbn [for_txn]. by apply keeps_bind. Qed.
End keeps.

Create HintDb keeps.
#[local] Hint Resolve keeps_ret keeps_CHK keeps_assert keeps_assert_row keeps_get_state keeps_get_locals
  keeps_set_locals keeps_granted keeps_oid_next keeps_gen_key keeps_write : keeps.

(** Goes through a body. *)
Ltac keeps := repeat match goal with
  | |- keeps (mbind _ _) => apply keeps_bind; [|intros ?]
  | |- keeps (match ?x with _ => _ end) => destruct x
  | |- keeps (for_txn _ _ _) => apply keeps_for; intros ? ?
  | |- keeps (RECORED_ABORT _ _) => apply keeps_RECORED_ABORT; unfold key_ok; cbn; unfold WARE, DIST, CUST, ITEM, STOC, ORLI; lia
  | |- keeps (let _ := _ in _) => cbv zeta
  | |- keeps _ => solve [eauto with keeps]
  end.

Section index.
Context {L K V : Type} `{Countable K} (ix : tables -> gmap K V) {ST : Setter ix}.

Lemma keeps_select k : keeps (select_split_row ix k : txn L _).
Proof. unfold select_split_row. keeps. Qed.
Lemma keeps_update k v : keeps (update_row ix k v : txn L _).
Proof. unfold update_row. keeps. Qed.
Lemma keeps_update_comm k f : keeps (update_row_comm ix k f : txn L _).
Proof. unfold update_row_comm, update_row. keeps. Qed.
Lemma keeps_insert b k v : keeps (insert_row ix b k v : txn L _).
Proof. unfold insert_row. keeps. Qed.
Lemma keeps_delete k : keeps (delete_row ix k : txn L _).
Proof. unfold delete_row. keeps. Qed.
Lemma keeps_scan `{KeyStr K} rev b e limit : keeps (range_scan ix rev b e limit : txn L _).
Proof. unfold range_scan. keeps. Qed.
End index.

#[local] Hint Resolve keeps_select keeps_update keeps_update_comm keeps_insert keeps_delete keeps_scan : keeps.

Lemma keeps_neworder Commute q : keeps (txn_neworder Commute q).
Proof. unfold txn_neworder, neworder_insert, neworder_line. keeps. Qed.
Lemma keeps_payment Commute q : keeps (txn_payment Commute q).
Proof. unfold txn_payment, payment_warehouse, payment_district, payment_customer_id, payment_customer, payment_history. keeps. Qed.
Lemma keeps_orderstatus q : keeps (txn_orderstatus q).
Proof. unfold txn_orderstatus, orderstatus_customer_id. keeps. Qed.
Lemma keeps_stocklevel w d threshold : keeps (txn_stocklevel w d threshold).
Proof. unfold txn_stocklevel, stocklevel_item. keeps. Qed.

Lemma keeps_RWTXN {L A} (body : txn L A) confls r res r' :
  keeps body -> Forall key_ok (r_aborts r) -> RWTXN body confls r = Some (res, r') -> Forall key_ok (r_aborts r').
Proof.
  intros Hb. revert r. induction confls as [|confl confls IH]; intros r Hr; cbn [RWTXN]; [by intros [= _ <-]|].
  intros ([res1 r1] & Ha & H)%bind_Some.
  assert (Forall key_ok (r_aborts r1)) as Hr1.
  { unfold attempt in Ha. specialize (Hb (begin_txn confl r) Hr). destruct (body _) as [a s|s|]; [| |done].
    - destruct (default true _); by injection Ha as _ <-.
    - by injection Ha as _ <-. }
  destruct res1 as [a|]; [by injection H as _ <-|by eapply IH].
Qed.

(** * What a request asks for *)

Section asked.
Variables (m : memory) (x : msg_t).

(** The input of the transaction has the parameters of the request. *)
Definition order_asked (q : neworder_input) : Prop :=
  no_w_id q = get_w_id m x /\ no_d_id q = get_d_id m x /\ no_c_id q = get_c_id m x /\
  fst <$> no_items q = (fun i => (get_i_id m x i, get_s_w m x (get_s_num m x) i)) <$> seqZ 0 (get_s_num m x).

Definition payment_asked (q : payment_input) : Prop :=
  pay_w_id q = get_w_id_pay m x /\ pay_d_id q = get_d_id_pay m x /\
  (pay_c_w_id q, pay_c_d_id q) = (if get_is_home_pay m x then (get_w_id_pay m x, get_d_id_pay m x)
    else (get_c_w_id_pay m x, get_c_d_id_pay m x)) /\
  pay_by_name q = get_by_name_pay m x /\
  (if get_by_name_pay m x then to_last_name (get_c_id_pay m x) = Some (pay_last q) else pay_c_id q = get_c_id_pay m x) /\
  100 <= pay_amount q <= 500000.

Definition status_asked (q : orderstatus_input) : Prop :=
  os_w_id q = get_w_id_order m x /\ os_d_id q = get_d_id_order m x /\ os_by_name q = get_by_name_order m x /\
  (get_by_name_order m x = false -> os_c_id q = get_c_id_order m x).

Context {R : Mt19937} {RO : Mt19937Ok R}.

Lemma payment_args_asked g q g' : payment_args m x g = Some (q, g') -> payment_asked q.
Proof using RO.
  unfold payment_args, payment_asked. destruct (if get_is_home_pay m x then _ else _) as [cw cd].
  intros (last & Hl & H)%bind_Some. destruct (random 100 500000 g) as [amount g1] eqn:Ha. apply random_range in Ha; [|lia].
  destruct (gen_date g1) as [date g2]. injection H as <- <-. cbn. split_and!; try done; try lia. by destruct (get_by_name_pay m x).
Qed.

Lemma orderstatus_args_asked g q g' : orderstatus_args m x g = Some (q, g') -> status_asked q.
Proof using.
  unfold orderstatus_args, status_asked. destruct (if get_by_name_order m x then _ else _) as [[last|] g1]; [|done].
  intros [= <- _]. cbn. split_and!; try done. by intros ->.
Qed.

(** The request [x] has been executed: the transaction of its type ran with its
    parameters on [db] and committed, leaving [db'] and the worker's generator
    [g'].  A new order is entered; a payment booked; an order status has found
    the customer's latest order and a stock level has committed, both without a
    change.  (Deliveries are queued.) *)
Definition executed (Commute : bool) (confls : list (list bool)) (db : tpcc_db) (g : input_generator)
    (db' : tpcc_db) (g' : input_generator) : Prop :=
  match txn_of_type (m_type x) with
  | new_order => exists q o r, neworder_args m x g = Some (q, g') /\ order_asked q /\
      RWTXN (txn_neworder Commute q) confls (Run db [] tt 0) = Some (Some o, r) /\ db' = r_db r /\
      order_entered q (tbl db) o (tbl db')
  | payment => exists q c k r, payment_args m x g = Some (q, g') /\ payment_asked q /\
      RWTXN (txn_payment Commute q) confls (Run db [] tt 0) = Some (Some c, r) /\ db' = r_db r /\
      hkey_of (pay_c_w_id q) (gens db) <= k < hkey_of (pay_c_w_id q) (gens db') /\ paid q (tbl db) (tbl db') c k
  | order_status => exists q out c r, orderstatus_args m x g = Some (q, g') /\ status_asked q /\
      RWTXN (txn_orderstatus q) confls (Run db [] tt 0) = Some (Some out, r) /\ db' = r_db r /\
      tbl db' = tbl db /\ gens db' = gens db /\
      chosen_customer (tbl db) (os_by_name q) (os_w_id q) (os_d_id q) (os_last q) (os_c_id q) = Some c /\
      orderstatus_answer (tbl db) (os_w_id q) (os_d_id q) c out
  | stock_level => exists threshold r, random 10 20 g = (threshold, g') /\
      RWTXN (txn_stocklevel (get_w_id_stock m x) (get_d_id_stock m x) threshold) confls (Run db [] 0 0) = Some (Some tt, r) /\
      db' = r_db r /\ tbl db' = tbl db /\ gens db' = gens db
  | delivery => False
  end.
End asked.

(** * The turn *)

Section turn.
#[local] Set Default Proof Using "Type*".
Context {C : Config} {CO : ConfigOk C} {R : Mt19937} {RO : Mt19937Ok R}.

Lemma abort_keys_ok keys w h :
  Forall key_ok keys -> abort_depth (abort_queue w) = 0 -> exists w' h', abort_keys keys w h = Some (w', h') /\
    worker_frame w w' /\ host_frame h h' /\ abort_depth (abort_queue w') = 0.
Proof using.
  intros HF. revert w h. induction HF as [|k keys Hk HF IH]; intros w h Hd; cbn [abort_keys]; [by exists w, h|].
  assert (is_Some (hash_k2f tpcc_partition k)) as [f Hf].
  { unfold hash_k2f. assert (0 < (fsize tpcc_partition).[k.1]) as Hs.
    { apply Z.ltb_lt. apply (forallb_seqZ (fun i => 0 <? (fsize tpcc_partition).[i]) 0 12); [vm_compute; reflexivity|exact Hk]. }
    rewrite (proj2 (Z.eqb_neq _ _)) by lia. by eexists. }
  unfold worker_abort_key, record_abort, abort_push. cbn [fst snd]. rewrite Hd. change (0 =? ABORT_DEPTH) with false.
  cbn [mbind option_bind]. rewrite Hf, (proj2 (Z.eqb_neq k.1 65535)) by (unfold key_ok in Hk; lia). cbn [mbind option_bind].
  match goal with |- context [abort_keys keys ?w1 ?h1] => destruct (IH w1 h1) as (w' & h' & -> & F1 & F2 & F3) end; [exact Hd|].
  exists w', h'. split; [done|]. split; [|split; [|done]].
  - eapply worker_frame_trans; [|exact F1]. done.
  - eapply host_frame_trans; [|exact F2]. apply host_frame_model.
Qed.

Lemma count_retries_ok id k h :
  is_Some (req_retry_count (performance h) !! id) -> exists h', count_retries id k h = Some h' /\ host_frame h h'.
Proof using.
  intros Hid. unfold count_retries. destruct (decide (1 <= k)) as [Hk|]; [|rewrite for_opt_nil by lia; by exists h].
  destruct (for_opt_fuel (fun _ h' => host_frame h h') 1 k (fun (_ : nat) _ h =>
    p ← retry_count (performance h) id; Some (h <| performance := p |>)) h) as (fuel & h' & E & F);
    [done|apply host_frame_refl| |rewrite (E fuel) by done; by exists h'].
  intros i h1 Hi (F1 & F2 & F3 & F4 & F5 & F6). exists 0%nat. destruct (F6 id Hid) as [a Ha]. unfold retry_count. rewrite Ha.
  eexists. split; [reflexivity|]. split_and!; [done..|]. intros t Ht. cbn [set_field performance req_retry_count].
  destruct (decide (id = t)) as [->|]; [rewrite lookup_insert_eq; by eexists|]. rewrite lookup_insert_ne by done. by apply F6.
Qed.

(** What a transaction leaves of the worker and of the server. *)
Definition served (rn : tpcc_runner) (sv : tpcc_server) (rn' : tpcc_runner) (sv' : tpcc_server) : Prop :=
  worker_frame (rmsg rn) (rmsg rn') /\ host_frame (sv_host sv) (sv_host sv') /\ abort_depth (abort_queue (rmsg rn')) = 0 /\
  runner_id rn' = runner_id rn /\ tpcc_delivery sv' = tpcc_delivery sv /\ reply_flags sv' = reply_flags sv.

Lemma finish_txn_ok {A L} g (res : option A) (r : run L) rn sv :
  Forall key_ok (r_aborts r) -> abort_depth (abort_queue (rmsg rn)) = 0 ->
  is_Some (req_retry_count (performance (sv_host sv)) !! runner_id rn) -> res <> None ->
  exists rn' sv', finish_txn (g, (res, r)) rn sv = Some (rn', sv', true) /\ served rn sv rn' sv' /\
    ig rn' = g /\ sv_db sv' = r_db r.
Proof using.
  intros HF Hd Hid Hres. unfold finish_txn. destruct (abort_keys_ok _ (rmsg rn) (sv_host sv) HF Hd) as (w & h & -> & F1 & F2 & F3).
  cbn [mbind option_bind]. destruct (count_retries_ok (runner_id rn) (starts r) h) as (h' & -> & F4).
  { destruct F2 as (_ & _ & _ & _ & _ & F2). by apply F2. }
  cbn [mbind option_bind]. rewrite bool_decide_eq_true_2 by (destruct res; [by eexists|done]). do 2 eexists. split; [reflexivity|].
  split; [|by split]. split_and!; try done; [apply F1..|]. by eapply host_frame_trans.
Qed.

Context (n : Z) (Commute : bool).

Lemma tpcc_execute_ok confls rn sv :
  sys_inv n (sys_of (sv_db sv)) -> msg_valid n (mem (sv_host sv)) (now_msg (rmsg rn)) -> room (length confls) (sv_db sv) ->
  [] ∈ confls -> txn_of_type (m_type (now_msg (rmsg rn))) <> delivery -> abort_depth (abort_queue (rmsg rn)) = 0 ->
  is_Some (req_retry_count (performance (sv_host sv)) !! runner_id rn) ->
  exists rn' sv', tpcc_execute Commute confls rn sv = Some (rn', sv', true, false) /\ served rn sv rn' sv' /\
    executed (mem (sv_host sv)) (now_msg (rmsg rn)) Commute confls (sv_db sv) (ig rn) (sv_db sv') (ig rn').
Proof using RO.
  intros HI HV [R1 R2] Hc Hty Hd Hid. pose proof (si_wf _ _ HI) as HW. pose proof (si_consistent _ _ HI) as HC. cbn [sy_tbl sys_of] in HW, HC.
  set (m := mem (sv_host sv)) in *. set (x := now_msg (rmsg rn)) in *.
  assert (forall {A L} (body : txn L A) l g a r, keeps body ->
    RWTXN body confls (Run (sv_db sv) [] l 0) = Some (Some a, r) ->
    exists rn' sv', ('(rn, sv, done) ← finish_txn (g, (Some a, r)) rn sv; Some (rn, sv, done, false)) = Some (rn', sv', true, false) /\
      served rn sv rn' sv' /\ ig rn' = g /\ sv_db sv' = r_db r) as Hfin.
  { intros A L body l g a r Hk Hr. destruct (finish_txn_ok g (Some a) r rn sv) as (rn' & sv' & -> & Hs);
      [by eapply (keeps_RWTXN _ _ _ _ _ Hk); [|exact Hr]|done|done|done|]. by exists rn', sv'. }
  unfold tpcc_execute, executed. fold m x. destruct (txn_of_type (m_type x)) eqn:Ht.
  - destruct (neworder_args_valid n m x (ig rn) HV Ht) as (q & g & Hq & HQ & HA). unfold run_txn_neworder. rewrite Hq. cbn [mbind option_bind].
    destruct (neworder_run n Commute q HQ (sv_db sv) confls [] 0 HI) as (res & r & E & Hres & _ & _ & _ & Hr); [apply R1|]. rewrite E.
    destruct res as [o|]; [|by destruct (Hres Hc)]. destruct Hr as (_ & Hf & Htb).
    destruct (Hfin _ _ _ _ g _ _ (keeps_neworder Commute q) E) as (rn' & sv' & E' & Hs & <- & Hdb). exists rn', sv'.
    split; [exact E'|]. split; [exact Hs|]. exists q, o, r. rewrite Hdb, Htb. split_and!; try done; try apply HA. by apply (neworder_entered n).
  - destruct (payment_args_valid n m x (ig rn) HV Ht) as (q & g & Hq & HQ & _). unfold run_txn_payment. rewrite Hq. cbn [mbind option_bind].
    destruct (payment_run n Commute q HQ (sv_db sv) confls [] 0 HI) as (res & r & E & Hres & _ & Hr); [apply R2|]. rewrite E.
    destruct res as [c|]; [|by destruct (Hres Hc)]. destruct Hr as (k & Hk & Hp).
    destruct (Hfin _ _ _ _ g _ _ (keeps_payment Commute q) E) as (rn' & sv' & E' & Hs & <- & Hdb). exists rn', sv'.
    split; [exact E'|]. split; [exact Hs|]. exists q, c, k, r. rewrite Hdb. split_and!; try done; try apply Hk. by eapply payment_args_asked.
  - destruct (orderstatus_args_valid n m x (ig rn) HV Ht) as (q & g & Hq & HQ). unfold run_txn_orderstatus. rewrite Hq. cbn [mbind option_bind].
    destruct (read_only_loop (txn_orderstatus q) (sv_db sv) tt _ confls [] 0
      (fun calm => orderstatus_wpc calm n q (tbl (sv_db sv)) (gens (sv_db sv)) HW HC HQ)) as (res & r & E & Htb & Hg & _ & Hres & Hr).
    rewrite E. destruct res as [out|]; [|by destruct (Hres Hc)]. destruct (Hr out eq_refl) as (c & H1 & _ & H2).
    destruct (Hfin _ _ _ _ g _ _ (keeps_orderstatus q) E) as (rn' & sv' & E' & Hs & <- & Hdb). exists rn', sv'.
    split; [exact E'|]. split; [exact Hs|]. exists q, out, c, r. rewrite Hdb. split_and!; try done. by eapply orderstatus_args_asked.
  - done.
  - unfold run_txn_stocklevel. destruct (random 10 20 (ig rn)) as [threshold g]. unfold msg_valid in HV. rewrite Ht in HV.
    set (w := get_w_id_stock m x) in *. set (d := get_d_id_stock m x) in *.
    destruct (read_only_loop (txn_stocklevel w d threshold) (sv_db sv) 0 (fun _ => True) confls [] 0) as (res & r & E & Htb & Hg & _ & Hres & _).
    { intros calm. by apply (stocklevel_wpc calm n). }
    rewrite E. destruct res as [[]|]; [|by destruct (Hres Hc)].
    destruct (Hfin _ _ _ _ g _ _ (keeps_stocklevel w d threshold) E) as (rn' & sv' & E' & Hs & <- & Hdb). exists rn', sv'.
    split; [exact E'|]. split; [exact Hs|]. exists threshold, r. rewrite Hdb. by split_and!.
Qed.

(** C9: a TPC-C worker whose next queue cell names slot [i] serves the request of
    that slot.  If the request is valid, is no delivery and the attempts meet no
    conflict in the end, one iteration of the worker's loop has no undefined
    behaviour, executes the transaction of the request's type with the request's
    parameters ([executed]: the order is entered, the payment booked, the reading
    transactions change nothing; all of it a sequence of steps of the system, so
    every invariant of the system is kept), stores the
    request's id plus [NOTHING_DEBUG] in the reply block of slot [i], changes no
    memory outside the head of that block, empties its queue cell and no other
    and moves to the next one. *)
Theorem tpcc_worker_answers (confls : list (list bool)) (rn : tpcc_runner) (sv : tpcc_server) (q : fpga_dispatch_queue_t) (i a : Z) :
  server_ready (server (sv_host sv)) -> buffers_apart (server (sv_host sv)) -> NULLRPC = false ->
  abort_depth (abort_queue (rmsg rn)) = 0 ->
  is_Some (req_count (performance (sv_host sv)) !! worker_thread_id (rmsg rn)) ->
  is_Some (req_retry_count (performance (sv_host sv)) !! runner_id rn) ->
  dispatch (sv_host sv) !! my_fpga_queue (rmsg rn) = Some q -> (queue_message q).[(msg_id (rmsg rn), 0)] = i ->
  0 <= i < total_slots -> slot_rev_addr (server (sv_host sv)) i = Some a ->
  let x := deserialization (mem (sv_host sv)) a (now_msg (rmsg rn)) in
  msg_valid n (mem (sv_host sv)) x -> txn_of_type (m_type x) <> delivery ->
  sys_inv n (sys_of (sv_db sv)) -> room (length confls) (sv_db sv) -> [] ∈ confls ->
  exists rn' sv' b, tpcc_turn Commute confls rn sv = Some (rn', sv', Answered) /\
    slot_send_addr (server (sv_host sv)) i = Some b /\
    ld 4 (mem (sv_host sv')) (b + 4) = u32 (ld 4 (mem (sv_host sv)) (a + 4) + NOTHING_DEBUG) /\
    (forall y, y < b \/ b + 8 <= y -> byte (mem (sv_host sv')) y = byte (mem (sv_host sv)) y) /\
    dispatch (sv_host sv') = <[my_fpga_queue (rmsg rn) := Dispatch.set_message_down q (msg_id (rmsg rn))]> (dispatch (sv_host sv)) /\
    msg_id (rmsg rn') = (msg_id (rmsg rn) + 1) mod MESS_NUM /\ my_fpga_queue (rmsg rn') = my_fpga_queue (rmsg rn) /\
    executed (mem (sv_host sv)) x Commute confls (sv_db sv) (ig rn) (sv_db sv') (ig rn') /\
    rtc (tpcc_step n) (sys_of (sv_db sv)) (sys_of (sv_db sv')).
Proof.
  set (h := sv_host sv). set (w := rmsg rn). intros HR HB HN Hd Hc1 Hc2 Hq Hcell Hi Ea x HV Hty HI Hroom Hcalm.
  destruct (slot_addrs _ i HR Hi) as (_ & _ & Eb). match type of Eb with _ = Some ?y => remember y as b eqn:Db end.
  pose proof (slot_blocks _ _ _ _ HR HB Hi Ea Eb) as Hab.
  destruct (next_txn_check_found w h q i a b HR HN Hq Hcell Hi Ea Eb) as (w1 & h1 & E1 & F1 & F2 & F3 & F4 & F5 & F6 & G1).
  pose proof (next_txn_check_msg w h q i a w1 h1 HR HN Hq Hcell Hi Ea E1) as F7.
  destruct G1 as (M1 & M2 & M3 & M4 & M5 & M6).
  set (rn1 := rn <| rmsg := w1 |>). set (sv1 := sv <| sv_host := h1 |>).
  assert (msg_valid n (mem (sv_host sv1)) (now_msg (rmsg rn1))) as HV1 by (change (msg_valid n (mem h1) (now_msg w1)); by rewrite F7, M1).
  destruct (tpcc_execute_ok confls rn1 sv1 HI HV1 Hroom Hcalm) as (rn2 & sv2 & E2 & ((W1 & W2 & W3 & W4 & W5) & (N1 & N2 & N3 & N4 & N5 & N6) & Hd2 & _) & HX).
  { change (txn_of_type (m_type (now_msg w1)) <> delivery). by rewrite F7. }
  { change (abort_depth (abort_queue w1) = 0). by rewrite F6. }
  { by apply M6. }
  pose proof (tpcc_execute_steps n Commute confls rn1 sv1 _ _ _ _ HI HV1 Hroom E2) as Hsteps.
  change (sv_host sv1) with h1 in *. change (rmsg rn1) with w1 in *. rewrite F7, M1 in HX.
  destruct (reply_now_writes (rmsg rn2) (sv_host sv2) q HN) as (w3 & h3 & E3 & R1 & R2 & R3 & R4 & R5 & R6 & _).
  { by rewrite N3, W5, F5, M3. }
  { by rewrite N4, W1, F3, M4. }
  { rewrite W3, F2, W2, F1. exact Hab. }
  exists (rn2 <| rmsg := w3 |>), (sv2 <| sv_host := h3 |>), b.
  rewrite W3, F2, W2, F1, N1, M1 in R1. rewrite W2, F1, N1, M1 in R2. rewrite N3, W4, W5, F4, F5, M3 in R3.
  rewrite W4, F4 in R5. rewrite W5, F5 in R6.
  split; [|by split_and!].
  unfold tpcc_turn. fold w h. rewrite E1. cbn [mbind option_bind negb]. fold rn1 sv1. rewrite E2. cbn [mbind option_bind negb]. by rewrite E3.
Qed.
End turn.

(** * Example *)

Lemma tpcc_demo_ready : server_ready (C := tpcc_alnico) (demo_server tpcc_alnico).
Proof. exact (proj2 (new_connects_ready (C := tpcc_alnico) _ _ _ _ _ (demo_cluster_ok_of tpcc_alnico (or_intror eq_refl)))). Qed.

(** Slot 3 holds a new order for customer 7 of district 4 of warehouse 1, of the
    items 5 and 9, with id 41; the first cell of worker 2 names it. *)
Definition order_request (a : Z) : memory :=
  let m := st 1 (st 2 (st 4 ∅ (a + 4) 41) (a + 8) 0) (a + 10) 4 in
  let m := st 4 (st 4 (st 4 (st 4 m (a + 28) 4) (a + 32) 112) (a + 36) 80) (a + 40) 64 in
  let m := st 8 (st 8 m (a + 48 + 16 * 3 + 8) 5) (a + 48 + 16 * 4 + 8) 100005 in
  let m := st 8 (st 8 m (a + 48 + 16 * 5 + 8) 9) (a + 48 + 16 * 6 + 8) 100009 in
  st 4 (st 4 (st 4 (st 4 m (a + 160) 1) (a + 164) 4) (a + 168) 7) (a + 172) 2.

Definition tpcc_demo_server : tpcc_server := {|
  sv_host := (demo_host tpcc_alnico) <| mem := order_request (0x30000000 + 2048 * 3) |>
    <| dispatch := <[2 := Dispatch.post (Dispatch.init empty_dispatch) 0 3]> ∅ |>
    <| performance := perf_init_thread (latency_new 24 0) 2 0 |>;
  sv_db := small_db; tpcc_delivery := {| d_head := ∅; d_tail := ∅; delivery_queue := ∅ |}; reply_flags := ∅ |}.

Definition tpcc_demo_runner : tpcc_runner := {|
  runner_id := 2; ig := {| ig_seed := 2; ig_draws := 0; num_whs_ := 1 |};
  rmsg := worker_zero <| worker_thread_id := 2 |> <| my_fpga_queue := 2 |> |}.

Lemma small_room k : (k <= 1000)%nat -> room k small_db.
Proof.
  intros Hk. split; [intros w d; rewrite small_oid; unfold uint64_max; lia|]. intros w. unfold hkey_of.
  rewrite (TpccSafe.ld_key_gen _ _ _ small_loaded). case_decide;
    unfold uint64_max, NUM_DISTRICTS_PER_WAREHOUSE, NUM_CUSTOMERS_PER_DISTRICT; lia.
Qed.

Lemma executed_order {R : Mt19937} m x Commute confls db g db' g' :
  txn_of_type (m_type x) = new_order -> executed m x Commute confls db g db' g' ->
  exists q o, order_asked m x q /\ order_entered q (tbl db) o (tbl db').
Proof. unfold executed. intros ->. intros (q & o & r & _ & HA & _ & _ & HO). by exists q, o. Qed.

(** What the worker reads in the request. *)
Lemma demo_order_values :
  let m := mem (sv_host tpcc_demo_server) in
  let x := deserialization (C := tpcc_alnico) m (0x30000000 + 2048 * 3) (now_msg (rmsg tpcc_demo_runner)) in
  txn_of_type (m_type x) = new_order /\ get_w_id m x = 1 /\ get_d_id m x = 4 /\ get_c_id m x = 7 /\ get_s_num m x = 2 /\
  (fun i => (get_i_id m x i, get_s_w m x 2 i)) <$> seqZ 0 2 = [(5, 1); (9, 1)].
Proof. vm_compute. by split_and!. Qed.

Lemma demo_order_valid :
  let m := mem (sv_host tpcc_demo_server) in
  let x := deserialization (C := tpcc_alnico) m (0x30000000 + 2048 * 3) (now_msg (rmsg tpcc_demo_runner)) in
  msg_valid 1 m x.
Proof.
  pose proof demo_order_values as K. cbv zeta in K. intros m x. fold m in K. fold x in K.
  destruct K as (E0 & E1 & E2 & E3 & E4 & E5). clearbody x m. unfold msg_valid. rewrite E0, E1, E2, E3, E4.
  split; [split; unfold NUM_DISTRICTS_PER_WAREHOUSE; lia|]. split; [unfold NUM_CUSTOMERS_PER_DISTRICT; lia|]. split; [lia|].
  change (seqZ 0 2) with [0; 1] in E5. injection E5 as F1 F2 F3 F4.
  intros i Hi. assert (i = 0 \/ i = 1) as [-> | ->] by lia; rewrite ?F1, ?F2, ?F3, ?F4; unfold NUM_ITEMS; lia.
Qed.

Lemma demo_order_asked q :
  let m := mem (sv_host tpcc_demo_server) in
  let x := deserialization (C := tpcc_alnico) m (0x30000000 + 2048 * 3) (now_msg (rmsg tpcc_demo_runner)) in
  order_asked m x q -> no_w_id q = 1 /\ no_d_id q = 4 /\ no_c_id q = 7 /\ fst <$> no_items q = [(5, 1); (9, 1)].
Proof.
  pose proof demo_order_values as K. cbv zeta in K. intros m x. fold m in K. fold x in K.
  destruct K as (_ & E1 & E2 & E3 & E4 & E5). clearbody x m. unfold order_asked. rewrite E1, E2, E3, E4. by rewrite <-E5.
Qed.

(** The first attempt meets a conflict; the second enters the order. *)
Lemma tpcc_worker_answers_witness : exists rn' sv',
  tpcc_turn (C := tpcc_alnico) (R := low_rng) true [[true]; []] tpcc_demo_runner tpcc_demo_server = Some (rn', sv', Answered) /\
  (exists b, ld 4 (mem (sv_host sv')) (b + 4) = 41 + NOTHING_DEBUG) /\ msg_id (rmsg rn') = 1 /\
  exists q o, (no_w_id q = 1 /\ no_d_id q = 4 /\ no_c_id q = 7 /\ fst <$> no_items q = [(5, 1); (9, 1)]) /\
    order_entered q (tbl small_db) o (tbl (sv_db sv')).
Proof.
  destruct (tpcc_worker_answers (C := tpcc_alnico) (R := low_rng) (RO := low_rng_ok) 1 true [[true]; []]
    tpcc_demo_runner tpcc_demo_server
    (Dispatch.post (Dispatch.init empty_dispatch) 0 3) 3 (0x30000000 + 2048 * 3))
    as (rn' & sv' & b & H1 & _ & H2 & _ & _ & H3 & _ & H4 & _).
  - exact tpcc_demo_ready.
  - left. vm_compute. congruence.
  - reflexivity.
  - reflexivity.
  - eexists. vm_compute. reflexivity.
  - eexists. vm_compute. reflexivity.
  - exact (lookup_insert_eq _ _ _).
  - exact (rd_insert_eq _ (0, 0) 3).
  - vm_compute. split; congruence.
  - vm_compute. reflexivity.
  - exact demo_order_valid.
  - destruct demo_order_values as [E _]. cbv zeta in E. rewrite E. discriminate.
  - exact small_inv.
  - apply small_room. cbn. lia.
  - right. by left.
  - exists rn', sv'. split; [exact H1|]. split; [exists b; rewrite H2; vm_compute; reflexivity|]. split; [exact H3|].
    destruct (executed_order _ _ _ _ _ _ _ _ (proj1 demo_order_values) H4) as (q & o & HA & HO). exists q, o.
    split; [exact (demo_order_asked q HA)|exact HO].
Defined.
