(* ===== verification/TpccWhole.v ===== *)
(** The TPC-C system as a whole: what a client asks for is valid on the server,
    every warehouse has one delivery owner, and the turns of all workers and
    owners, in any order, are steps of the database's system. *)

From stdpp Require Import functions.
From S2P Require Import Prelude Memory Config Feature RpcCommon RpcConnect Msg Central Worker Runner Reply ReplyProps.
From S2P Require Import Client ClientProps ClientSend ClientTransfer ClientLoop ProcedureProps OrderProps TpccProps.
From S2P Require Import TpccData TpccGen TpccIndex TpccTxn TpccRunner TpccKeys TpccInv TpccLogic.
From S2P Require Import TpccNewOrder TpccPayment TpccRead TpccSys TpccLoad TpccSafe TpccServe TpccRun TpccAnswer.

#[local] Arguments ld : simpl never.

(** * Clients and workers *)

Lemma item_keys_lookup w (its : list (Z * Z)) i iid qty :
  its !! i = Some (iid, qty) ->
  item_keys w its !! (2 * i)%nat = Some (Procedure.ITEM, iid) /\
  item_keys w its !! (2 * i + 1)%nat = Some (Procedure.STOC, Procedure.makeStockKey w iid).
Proof.
  revert i. induction its as [|it its IH]; intros [|i] Hi; [done..|by injection Hi as ->|].
  replace (2 * S i)%nat with (S (S (2 * i))) by lia. by apply IH.
Qed.

Lemma client_order {C : Config} n (m : memory) (x : msg_t) w d cid its :
  n <= max_whs -> 1 <= w <= n -> 1 <= cid <= 3000 -> (5 <= length its <= 15)%nat -> Forall (fun y => 1 <= y <= 100000) its.*1 ->
  (forall (j : nat) k, order_keys w d cid its !! j = Some k -> key_at m x (Z.of_nat j) = k) ->
  (forall (j : nat) v, order_args w d cid its !! j = Some v -> arg_at m x (Z.of_nat j) = v) ->
  get_w_id m x = w /\ get_d_id m x = d /\ get_c_id m x = cid /\ get_s_num m x = Z.of_nat (length its) /\
  forall i iid qty, its !! i = Some (iid, qty) ->
    get_i_id m x (Z.of_nat i) = iid /\ get_s_w m x (Z.of_nat (length its)) (Z.of_nat i) = w.
Proof.
  intros Hmax Hw Hc Hl HF Hks Hvs. split_and!; [exact (Hvs 0%nat w eq_refl)|exact (Hvs 1%nat d eq_refl)|exact (Hvs 2%nat cid eq_refl)
    |exact (Hvs 3%nat _ eq_refl)|].
  intros i iid qty Hi. destruct (item_keys_lookup w its i iid qty Hi) as [H1 H2].
  assert (1 <= iid <= 100000) as Hiid.
  { rewrite Forall_forall in HF. apply HF. apply list_elem_of_fmap. exists (iid, qty). split; [done|]. by eapply list_elem_of_lookup_2. }
  pose proof (Hks (3 + 2 * i)%nat _ H1) as K1. pose proof (Hks (3 + (2 * i + 1))%nat _ H2) as K2.
  unfold get_i_id, get_s_w. replace (2 * Z.of_nat i + 3) with (Z.of_nat (3 + 2 * i)) by lia.
  replace (2 * Z.of_nat i + 4) with (Z.of_nat (3 + (2 * i + 1))) by lia. rewrite K1, K2. cbn [snd]. split; [done|].
  unfold Procedure.makeStockKey. unfold max_whs in Hmax. rewrite (wrap_small 32 (iid + w * 100000)) by (unfold uint; lia).
  replace (iid + w * 100000) with (w * 100000 + iid) by lia. rewrite (proj2 (keys_in_table m x 0 w iid ltac:(lia) Hiid)).
  unfold s32. rewrite (Z.mod_small (w + 2 ^ 31)) by lia. replace (w + 2 ^ 31 - 2 ^ 31) with w by lia. apply wrap_small. unfold uint. lia.
Qed.

(** Reads argument [j] of the request. *)
Ltac arg H j z := let E := fresh in epose proof (H j _ eq_refl) as E; change (Z.of_nat j) with z in E; rewrite E; clear E.

Section client.
#[local] Set Default Proof Using "Type*".
Context {C : Config} {CC : ClientConfig}.
Context (n cur ty : Z) (ks : list (Z * Z)) (vs : list Z) (m : memory) (x : msg_t).
Context (HR : tpcc_request cur ty ks vs) (Hty : m_type x = ty).
Context (Hks : forall (j : nat) k, ks !! j = Some k -> key_at m x (Z.of_nat j) = k).
Context (Hvs : forall (j : nat) v, vs !! j = Some v -> arg_at m x (Z.of_nat j) = v).
Context (Hn : scale_factor = n) (Hmax : n <= max_whs) (Hd : MAX_THREAD <= 20).

Lemma client_districts : Procedure.NumDistrictsPerWarehouse_ <= NUM_DISTRICTS_PER_WAREHOUSE.
Proof using Hd. unfold Procedure.NumDistrictsPerWarehouse_, NUM_DISTRICTS_PER_WAREHOUSE. apply Z.div_le_upper_bound; lia. Qed.

Lemma client_request_valid : msg_valid n m x.
Proof.
  pose proof client_districts as HD. unfold msg_valid. rewrite Hty.
  destruct HR as [w d cid its Hw Hdd Hc Hl Hnd HF Hq|w d cw cd home cid Hw Hdd Hcw Hcd Hc Hhome|w d by_name cid Hw Hdd Hc|w d Hw Hdd|w Hw];
    rewrite Hn in *; cbn [txn_of_type Z.eqb Pos.eqb].
  - destruct (client_order n m x w d cid its Hmax Hw Hc Hl HF Hks Hvs) as (-> & -> & -> & -> & HI).
    split; [split; lia|]. split; [unfold NUM_CUSTOMERS_PER_DISTRICT; lia|]. split; [lia|]. intros i Hi.
    destruct (lookup_lt_is_Some_2 its (Z.to_nat i)) as [[iid qty] Hit]; [lia|].
    destruct (HI _ _ _ Hit) as [H1 H2]. rewrite Z2Nat.id in H1, H2 by lia. rewrite H1, H2. split; [|done].
    rewrite Forall_forall in HF. apply HF. apply list_elem_of_fmap. exists (iid, qty). split; [done|]. by eapply list_elem_of_lookup_2.
  - unfold get_w_id_pay, get_d_id_pay, get_is_home_pay, get_by_name_pay, get_c_w_id_pay, get_c_d_id_pay, get_c_id_pay.
    arg Hvs 0%nat 0. arg Hvs 1%nat 1. arg Hvs 2%nat 2. arg Hvs 3%nat 3. arg Hvs 5%nat 5. arg Hvs 6%nat 6. cbn [Z.eqb negb]. unfold district_ok, NUM_CUSTOMERS_PER_DISTRICT. lia.
  - unfold get_w_id_order, get_d_id_order, get_by_name_order, get_c_id_order.
    arg Hvs 0%nat 0. arg Hvs 1%nat 1. arg Hvs 2%nat 2. arg Hvs 3%nat 3.
    unfold district_ok, NUM_CUSTOMERS_PER_DISTRICT. destruct by_name; cbn; lia.
  - unfold get_w_id_stock, get_d_id_stock. arg Hvs 0%nat 0. arg Hvs 1%nat 1. unfold district_ok. lia.
  - unfold get_w_id_del. arg Hvs 0%nat 0. lia.
Qed.
End client.

(** * From the client to the database *)

Section end_to_end.
#[local] Set Default Proof Using "Type*".
Context {C : Config} {CO : ConfigOk C} {CC : ClientConfig} {Rc : Procedure.Rng} {RcO : RngOk Rc}.
Context {W : Type} `{!Verbs W, !VerbsLaws W} {R : Mt19937} {RO : Mt19937Ok R}.

(** The order of the request [its] is in the tables [t] under id [o]. *)
Definition order_in (t : tables) (w d cid o : Z) (its : list (Z * Z)) : Prop :=
  (exists ov, ods t !! (w, d, o) = Some ov /\ o_c_id ov = cid /\ o_ol_cnt ov = Z.of_nat (length its)) /\
  is_Some (nos t !! (w, d, o)) /\
  forall i iid qty, its !! i = Some (iid, qty) -> exists l, ols t !! (w, d, o, Z.of_nat i + 1) = Some l /\
    ol_i_id l = iid /\ ol_supply_w_id l = w.

Lemma order_request_served n Commute confls db g m x w d cid its :
  n <= max_whs -> MAX_THREAD <= 20 -> scale_factor = n ->
  1 <= w <= n -> 1 <= cid <= 3000 -> (5 <= length its <= 15)%nat -> Forall (fun y => 1 <= y <= 100000) its.*1 ->
  (forall (j : nat) k, order_keys w d cid its !! j = Some k -> key_at m x (Z.of_nat j) = k) ->
  (forall (j : nat) v, order_args w d cid its !! j = Some v -> arg_at m x (Z.of_nat j) = v) ->
  m_type x = 0 -> msg_valid n m x -> sys_inv n (sys_of db) -> room (length confls) db -> [] ∈ confls ->
  exists g' o r, run_txn_neworder Commute m x db confls g = Some (g', (Some o, r)) /\
    ods (tbl db) !! (w, d, o) = None /\ order_in (tbl (r_db r)) w d cid o its /\
    rtc (tpcc_step n) (sys_of db) (sys_of (r_db r)).
Proof using RO.
  intros Hmax Hd Hsf Hw Hc Hl HF Hks Hvs Hty HV HI [R1 _] Hcalm.
  destruct (client_order n m x w d cid its Hmax Hw Hc Hl HF Hks Hvs) as (Ew & Ed & Ec & En & EI).
  destruct (neworder_args_valid n m x g HV) as (q & g' & Hq & HQ & Qw & Qd & Qc & Qi); [by rewrite Hty|].
  unfold run_txn_neworder. rewrite Hq. cbn [mbind option_bind].
  destruct (neworder_run n Commute q HQ db confls [] 0 HI) as (res & r & -> & Hres & Hs & _ & _ & Hr); [apply R1|].
  destruct res as [o|]; [|by destruct (Hres Hcalm)]. cbn [mbind option_bind]. exists g', o, r. split; [done|].
  destruct Hr as (_ & Hf & Ht). rewrite Qw, Qd, Ew, Ed in Hf. split; [done|]. split; [|done].
  assert (ods (tbl db) !! (no_w_id q, no_d_id q, o) = None) as Hf' by (by rewrite Qw, Qd, Ew, Ed).
  pose proof (neworder_entered n q (tbl db) o (si_wf _ _ HI) HQ Hf') as [_ EO EN _ EL _ _ _ _ _]. rewrite Ht.
  rewrite Qw, Qd, Ew, Ed in EO, EN, EL.
  assert (length (no_items q) = length its) as Hlen
    by (rewrite <-(length_fmap fst (no_items q)), Qi, length_fmap, length_seqZ, En; lia).
  split_and!.
  - exists (order_row q). rewrite EO, lookup_insert_eq. split; [done|]. cbn. rewrite Qc, Ec. split; [done|].
    unfold num_items. rewrite Hlen. apply wrap_small. unfold uint. lia.
  - rewrite EN, lookup_insert_eq. by eexists.
  - intros i iid qty Hi. destruct (EI _ _ _ Hi) as [I1 I2].
    destruct (lookup_lt_is_Some_2 (no_items q) i) as [[[iid' wid'] qty'] Hq'].
    { rewrite Hlen. by eapply lookup_lt_Some. }
    assert ((fst <$> no_items q) !! i = Some (iid', wid')) as E by (by rewrite list_lookup_fmap, Hq').
    rewrite Qi, list_lookup_fmap, lookup_seqZ_lt in E by (rewrite En; apply lookup_lt_Some in Hi; lia). cbn [fmap option_fmap option_map] in E.
    rewrite Z.add_0_l, En, I1, I2 in E. injection E as <- <-.
    destruct (EL _ _ _ _ Hq') as (iv & s_dist & _ & El). eexists. split; [exact El|]. done.
Qed.

(** C8: a new order that a client draws becomes that order in the database.  A
    client thread between two calls whose generator draws a new order finishes the
    call; once its data write is carried out on a server with the client's number
    of warehouses, the request that the scheduler takes is a valid new order; if
    the worker's attempts meet no conflict in the end, its transaction commits and
    the database has, under an id that the district did not have, an order of the
    customer drawn with one line per item drawn, in their order, and it is among
    the new orders. *)
Theorem client_order_entered (n : Z) (Commute : bool) (i : Z) (x : Connect) (t : switch_tx) (c : client) (w : W)
    (s : Connect) (ms : memory) (x0 : msg_t) (db : tpcc_db) (confls : list (list bool)) (g : input_generator) :
  NULLRPC = false -> YCSBHOT = false -> YCSBplusT = false -> 2 <= MAX_THREAD <= 20 -> scale_factor = n -> n <= max_whs ->
  client_ok 0 x c w -> my_tx c !! i = Some t -> tx_id t = i -> tx_layout t -> slot_apart x t ->
  uint 32 (warehouse_id t) -> drawn_type t = 0 ->
  data_addr s = remote_data_addr x -> 0 <= get_rev_addr s i -> get_rev_addr s i + DATA_LEN < 2 ^ 63 ->
  sys_inv n (sys_of db) -> room (length confls) db -> [] ∈ confls ->
  exists k c' w' dw rest ms2 T,
    (forall fuel, (k <= fuel)%nat -> generate_tx post_chain ibv_poll_cq fuel i c w = Some (c', w')) /\
    posted w' = posted w ++ (qp x, dw) :: rest /\
    let a := get_rev_addr s i in
    take_request a (rdma_deliver (cl_mem c') dw ms) = Some (ms2, T) /\
    let msg := deserialization ms2 a x0 in
    m_type msg = 0 /\ msg_valid n ms2 msg /\
    exists wh d cid its g' o r,
      main_read_count msg = Z.of_nat (length (order_keys wh d cid its)) /\
      (forall (j : nat) k, order_keys wh d cid its !! j = Some k -> key_at ms2 msg (Z.of_nat j) = k) /\
      (5 <= length its <= 15)%nat /\ NoDup its.*1 /\
      run_txn_neworder Commute ms2 msg db confls g = Some (g', (Some o, r)) /\
      ods (tbl db) !! (wh, d, o) = None /\ order_in (tbl (r_db r)) wh d cid o its /\
      rtc (tpcc_step n) (sys_of db) (sys_of (r_db r)).
Proof.
  intros HN HH HY [MT MT'] Hsf Hmax HC Ht Hi HL HS HW H0 Hs Ha1 Ha2 HI Hroom Hcalm.
  destruct (tpcc_request_arrives i x t c w s ms x0 HN HH HY MT HC Ht Hi HL HS HW Hs Ha1 Ha2)
    as (k & c' & w' & dw & rest & ks & vs & E1 & E2 & HR & ms2 & T & E3 & E4 & E5 & E6 & E7 & _).
  exists k, c', w', dw, rest, ms2, T. split; [exact E1|]. split; [exact E2|]. split; [exact E3|].
  cbv zeta in E4, E5, E6, E7. set (msg := deserialization ms2 (get_rev_addr s i) x0) in *.
  rewrite H0 in HR, E4. split; [exact E4|].
  pose proof (client_request_valid n _ 0 ks vs ms2 msg HR E4 E6 E7 Hsf Hmax MT') as HV. split; [exact HV|].
  inversion HR as [wh d cid its Hw Hd Hc Hl Hnd HF Hq E8 E9 E10| | | |]; subst ks vs.
  rewrite Hsf in Hw.
  destruct (order_request_served n Commute confls db g ms2 msg wh d cid its) as (g' & o & r & F1 & F2 & F3 & F4); [done..|].
  exists wh, d, cid, its, g', o, r. split_and!; (assumption || apply Hl).
Qed.
End end_to_end.

Lemma low_room n k : 0 <= n -> (k <= 1000)%nat -> room k (low_db n).
Proof.
  intros Hn Hk. split; [intros w d; rewrite low_oid by done; unfold uint64_max; lia|]. intros w. unfold hkey_of.
  rewrite (TpccSafe.ld_key_gen _ _ _ (low_loaded n Hn)). case_decide;
    unfold uint64_max, NUM_DISTRICTS_PER_WAREHOUSE, NUM_CUSTOMERS_PER_DISTRICT; lia.
Qed.

(** A client whose generator draws a new order. *)
Definition order_tx : switch_tx := demo_tx <| x_rand := 123456790 |>.
Definition order_client : client := demo_client <| my_tx := {[2 := order_tx]} |>.

Lemma client_order_entered_witness :
  let gen := generate_tx (C := tpcc_alnico) (CC := tpcc_client) (R := counting) (W := sim) post_chain ibv_poll_cq in
  let a := 0x30000000 + 2048 * 2 in
  exists k c' w' dw rest ms2 T,
    (forall fuel, (k <= fuel)%nat -> gen fuel 2 order_client sim_start = Some (c', w')) /\
    sim_log w' = (5, dw) :: rest /\
    take_request a (rdma_deliver (cl_mem c') dw ∅) = Some (ms2, T) /\
    let msg := deserialization (C := tpcc_alnico) ms2 a demo_msg in
    m_type msg = 0 /\ exists wh d cid its g' o r,
      run_txn_neworder (R := low_rng) true ms2 msg (low_db 2) [[true]; []] {| ig_seed := 2; ig_draws := 0; num_whs_ := 2 |} =
        Some (g', (Some o, r)) /\
      order_in (tbl (r_db r)) wh d cid o its /\ (5 <= length its)%nat.
Proof.
  intros gen a.
  assert (client_ok (CC := tpcc_client) 0 demo_client_peer order_client sim_start) as HC
    by (destruct demo_client_ok as [[] ? ? ?]; by split).
  destruct (client_order_entered (C := tpcc_alnico) (CC := tpcc_client) (Rc := counting) (RcO := counting_ok) (W := sim)
    (R := low_rng) (RO := low_rng_ok) 2 true
    2 demo_client_peer order_tx order_client sim_start demo_server_peer ∅ demo_msg (low_db 2) [[true]; []]
    {| ig_seed := 2; ig_draws := 0; num_whs_ := 2 |})
    as (k & c' & w' & dw & rest & ms2 & T & E & Ew & HT & H0 & _ & wh & d & cid & its & g' & o & r & _ & _ & HL & _ & HR & _ & HO & _);
    [reflexivity|reflexivity|reflexivity|cbn; lia|reflexivity|unfold max_whs; lia|exact HC|reflexivity|reflexivity
    |split; vm_compute; left; congruence|split; vm_compute; (split; congruence) || (right; congruence)
    |vm_compute; split; congruence|vm_compute; reflexivity|reflexivity|vm_compute; congruence|vm_compute; reflexivity
    |apply low_inv; unfold max_whs; lia|apply low_room; cbn; lia|right; by left|].
  exists k, c', w', dw, rest, ms2, T. split; [exact E|]. split; [exact Ew|]. split; [exact HT|].
  split; [exact H0|]. exists wh, d, cid, its, g', o, r. split; [exact HR|]. split; [exact HO|exact (proj1 HL)].
Defined.

(** * All workers and owners *)

(** The request that [check] finds for a worker is valid. *)
Definition finds_valid (n : Z) (check : worker_msg_t -> host -> option (worker_msg_t * host * bool)) (w : worker_msg_t) (h : host) : Prop :=
  forall w' h', check w h = Some (w', h', true) -> msg_valid n (mem h') (now_msg w').

Definition own_ok (n : Z) (p : partition_runner) : Prop :=
  p_own p = 0 \/ 1 <= p_own p <= n /\ length (last_delivered p) = 10%nat.

(** What the threads of a server do to the state they share, each from any state
    of its own: a turn of a worker of the builds with the card, a turn of a worker
    of the other builds after its poll, a pass of a delivery owner.  Between them
    the card, the clients' writes, the polls and the reply thread change the
    host in any way. *)
Inductive server_step {C : Config} {R : Mt19937} (n : Z) (Commute : bool) : tpcc_server -> tpcc_server -> Prop :=
  | host_changes sv h flags : server_step n Commute sv (sv <| sv_host := h |> <| reply_flags := flags |>)
  | worker_turn confls rn rn' sv sv' e :
      room (length confls) (sv_db sv) -> finds_valid n next_txn_check (rmsg rn) (sv_host sv) ->
      tpcc_turn Commute confls rn sv = Some (rn', sv', e) -> server_step n Commute sv sv'
  | static_turn confls_at garbage_at confls p p' sv sv' e :
      room (length confls) (sv_db sv) -> finds_valid n next_txn_check_strife (rmsg (p_runner p)) (sv_host sv) -> own_ok n p ->
      static_serve Commute confls_at garbage_at confls p sv = Some (p', sv', e) -> server_step n Commute sv sv'
  | strife_turn confls rn rn' sv sv' e :
      room (length confls) (sv_db sv) -> finds_valid n next_txn_check_strife (rmsg rn) (sv_host sv) ->
      strife_serve Commute confls rn sv = Some (rn', sv', e) -> server_step n Commute sv sv'
  | own_deliveries confls_at garbage_at p p' sv sv' retrying :
      own_ok n p -> deliver_own Commute confls_at garbage_at p sv = Some (p', sv', retrying) -> server_step n Commute sv sv'
  | owner_pass confls_at garbage_at own o o' :
      1 <= own <= 2 -> (forall k l, last_delivered_multi o !! k = Some l -> length l = 10%nat) ->
      delivery_pass Commute confls_at garbage_at own n o = Some o' ->
      server_step n Commute (ow_server o) (ow_server o').

Section server.
#[local] Set Default Proof Using "Type*".
Context {C : Config} {R : Mt19937} {RO : Mt19937Ok R} (n : Z) (Commute : bool).

Lemma deliver_own_steps confls_at garbage_at p sv p' sv' retrying :
  sys_inv n (sys_of (sv_db sv)) -> own_ok n p ->
  deliver_own Commute confls_at garbage_at p sv = Some (p', sv', retrying) ->
  rtc (tpcc_step n) (sys_of (sv_db sv)) (sys_of (sv_db sv')).
Proof.
  intros HI HO. unfold deliver_own. destruct (Z.eqb_spec (p_own p) 0) as [|Hne]; [by intros [= <- <- <-]|].
  destruct HO as [|[Hown HL]]; [done|]. intros (o & H1 & H2)%bind_Some. apply bind_Some in H2 as (last & _ & [= <- <- <-]).
  apply (deliver_queued_steps n) in H1 as [Hs _]; [exact Hs| |done].
  split; [exact HI|]. cbn. intros k l [_ <-]%lookup_singleton_Some. exact HL.
Qed.

Lemma static_serve_steps confls_at garbage_at confls p sv p' sv' e :
  sys_inv n (sys_of (sv_db sv)) -> room (length confls) (sv_db sv) ->
  finds_valid n next_txn_check_strife (rmsg (p_runner p)) (sv_host sv) -> own_ok n p ->
  static_serve Commute confls_at garbage_at confls p sv = Some (p', sv', e) ->
  rtc (tpcc_step n) (sys_of (sv_db sv)) (sys_of (sv_db sv')).
Proof.
  intros HI HR HV HO. unfold static_serve. intros ([[w h] found] & Hn & H)%bind_Some. destruct found; cbn [negb] in H.
  - apply bind_Some in H as ([[[rn1 sv1] done] flag] & He & H).
    apply (tpcc_execute_steps n) in He; [|done|by apply HV|done]. destruct done; cbn [negb] in H.
    + apply bind_Some in H as ([w1 h1] & _ & [= <- <- <-]). exact He.
    + injection H as <- <- <-. exact He.
  - apply bind_Some in H as ([[p1 sv1] retrying] & Hd & [= <- <- <-]). by eapply deliver_own_steps in Hd.
Qed.

Lemma strife_serve_steps confls rn sv rn' sv' e :
  sys_inv n (sys_of (sv_db sv)) -> room (length confls) (sv_db sv) ->
  finds_valid n next_txn_check_strife (rmsg rn) (sv_host sv) ->
  strife_serve Commute confls rn sv = Some (rn', sv', e) ->
  rtc (tpcc_step n) (sys_of (sv_db sv)) (sys_of (sv_db sv')).
Proof.
  intros HI HR HV. unfold strife_serve. intros ([[w h] found] & Hn & H)%bind_Some. destruct found; cbn [negb] in H.
  - apply bind_Some in H as ([[[rn1 sv1] done] flag] & He & H).
    apply (tpcc_execute_steps n) in He; [|done|by apply HV|done]. destruct done; cbn [negb] in H.
    + apply bind_Some in H as ([w1 h1] & _ & [= <- <- <-]). exact He.
    + injection H as <- <- <-. exact He.
  - injection H as <- <- <-. done.
Qed.

(** The turns of [static_hack] and of [strife_hack] are such steps. *)
Lemma static_turn_pieces confls_at garbage_at rand cpubased2 confls p sv p' sv' e :
  tpcc_static_turn Commute confls_at garbage_at rand cpubased2 confls p sv = Some (p', sv', e) ->
  exists h, static_serve Commute confls_at garbage_at confls p (sv <| sv_host := h |>) = Some (p', sv', e).
Proof using. unfold tpcc_static_turn. destruct (strife_slots _ _). intros (h & _ & H)%bind_Some. by exists h. Qed.

Lemma strife_turn_pieces confls_at garbage_at rand fuel ph1 ph2 ph3 confls p cell sv p' cell' sv' e :
  tpcc_strife_turn Commute confls_at garbage_at rand fuel ph1 ph2 ph3 confls p cell sv = Some (p', cell', sv', e) ->
  exists h p1, p_own p1 = p_own p /\ last_delivered p1 = last_delivered p /\ (sv' = sv <| sv_host := h |> \/
    exists p2 sv2 retrying, deliver_own Commute confls_at garbage_at p1 (sv <| sv_host := h |>) = Some (p2, sv2, retrying) /\
      (sv' = sv2 \/ retrying = false /\ exists rn, strife_serve Commute confls (p_runner p2) sv2 = Some (rn, sv', e))).
Proof using.
  unfold tpcc_strife_turn. destruct (strife_slots _ _). intros (h0 & _ & H)%bind_Some. apply bind_Some in H as ([w h] & _ & H).
  apply bind_Some in H as ([[w1 c1] go] & _ & H). exists h, (p <| p_runner := (p_runner p) <| rmsg := w1 |> |>).
  split; [done|]. split; [done|]. destruct go; cbn [negb] in H; [|injection H as <- <- <- <-; by left].
  right. apply bind_Some in H as ([[p2 sv2] retrying] & Hd & H). exists p2, sv2, retrying. split; [exact Hd|].
  destruct retrying; [injection H as <- <- <- <-; by left|].
  destruct (_ =? 0); [injection H as <- <- <- <-; by left|].
  apply bind_Some in H as ([[rn sv3] e3] & Hs & [= <- <- <- <-]). right. split; [done|]. by exists rn.
Qed.

Lemma server_step_steps sv sv' :
  sys_inv n (sys_of (sv_db sv)) -> server_step n Commute sv sv' -> rtc (tpcc_step n) (sys_of (sv_db sv)) (sys_of (sv_db sv')).
Proof.
  intros HI Hs. destruct Hs as [|? ? ? ? ? ? HR HV Ht|? ? ? ? ? ? ? ? HR HV HO Ht|? ? ? ? ? ? HR HV Ht|? ? ? ? ? ? ? HO Ht|? ? ? ? ? Hown HL Ht].
  - done.
  - exact (tpcc_turn_steps n Commute _ _ _ _ _ _ HI HR HV Ht).
  - by eapply static_serve_steps.
  - by eapply strife_serve_steps.
  - by eapply deliver_own_steps.
  - by apply (delivery_pass_steps n Commute _ _ _ _ _ (conj HI HL) Hown Ht).
Qed.

(** C5: the workers implement the database's system.  In any sequence of turns of
    workers that serve valid requests and passes of delivery owners, of any
    threads in any order and with any conflicts, and of changes of the host, the state of the database changes
    by steps of the abstract system (an order entered, a payment, a delivery, a
    draw of an id), and in every state that is reached its invariant holds. *)
Theorem server_refines sv sv' :
  sys_inv n (sys_of (sv_db sv)) -> rtc (server_step n Commute) sv sv' ->
  rtc (tpcc_step n) (sys_of (sv_db sv)) (sys_of (sv_db sv')) /\ sys_inv n (sys_of (sv_db sv')).
Proof.
  intros HI Hs. assert (rtc (tpcc_step n) (sys_of (sv_db sv)) (sys_of (sv_db sv'))) as Hr; [|split; [done|by eapply reachable_inv]].
  induction Hs as [|sv1 sv2 sv3 H12 _ IH]; [done|].
  pose proof (server_step_steps _ _ HI H12) as H. etrans; [exact H|]. apply IH. by eapply reachable_inv.
Qed.
End server.

(** A worker of [TpccAnswer] takes a request for a delivery in warehouse 1. *)
Definition delivery_request (a : Z) : memory :=
  let m := st 1 (st 2 (st 4 ∅ (a + 4) 41) (a + 8) 4) (a + 10) 4 in
  let m := st 4 (st 4 (st 4 (st 4 m (a + 28) 4) (a + 32) 16) (a + 36) 8) (a + 40) 64 in
  st 4 m (a + 64) 1.

Definition delivery_demo_server : tpcc_server :=
  tpcc_demo_server <| sv_host := (sv_host tpcc_demo_server) <| mem := delivery_request (0x30000000 + 2048 * 3) |> |>
    <| tpcc_delivery := {| d_head := ∅; d_tail := ∅; delivery_queue := {[0 := ∅]} |} |>.

Lemma server_refines_witness : exists sv',
  rtc (server_step (C := tpcc_alnico) (R := low_rng) 1 true) delivery_demo_server sv' /\
  rtc (tpcc_step 1) (sys_of small_db) (sys_of (sv_db sv')) /\ sys_inv 1 (sys_of (sv_db sv')).
Proof.
  destruct (tpcc_turn (C := tpcc_alnico) (R := low_rng) true [[]] tpcc_demo_runner delivery_demo_server) as [[[rn' sv'] e]|] eqn:HT.
  2:{ exfalso. assert (is_Some (tpcc_turn (C := tpcc_alnico) (R := low_rng) true [[]] tpcc_demo_runner delivery_demo_server)) as [? Hx]
        by (apply (bool_decide_unpack _); vm_compute; exact I). congruence. }
  assert (server_step (C := tpcc_alnico) (R := low_rng) 1 true delivery_demo_server sv') as Hs.
  { apply (worker_turn 1 true [[]] tpcc_demo_runner rn' delivery_demo_server sv' e); [apply small_room; cbn; lia| |exact HT].
    assert (match next_txn_check (C := tpcc_alnico) (rmsg tpcc_demo_runner) (sv_host delivery_demo_server) with
      | Some (w, h, _) => (m_type (now_msg w), get_w_id_del (mem h) (now_msg w)) | None => (0, 0) end = (4, 1)) as Hc
      by (vm_compute; reflexivity).
    intros w h Hn. rewrite Hn in Hc. injection Hc as Ht Hw. unfold msg_valid. rewrite Ht. cbn [txn_of_type Z.eqb Pos.eqb]. rewrite Hw. lia. }
  exists sv'. split; [by apply rtc_once|].
  apply (server_refines (C := tpcc_alnico) (R := low_rng) (RO := low_rng_ok) 1 true delivery_demo_server sv' small_inv).
  by apply rtc_once.
Defined.

(** * Who delivers *)

(** Runner [i] executes the deliveries of warehouse [w]. *)
Definition delivers {C : Config} (num_runners n i w : Z) : Prop :=
  let own := calc_own_w_id true num_runners n i in
  own <> 0 /\ w ∈ owned_warehouses own n.

(** with one runner per worker thread and two more, as the builds without a
    CPU scheduler start them, the deliveries of every warehouse are executed by
    exactly one runner, which is one of the two that serve no requests. *)
Theorem delivery_owner_unique {C : Config} {CO : ConfigOk C} (n w : Z) :
  1 <= w <= n -> exists i, MAX_THREAD <= i < MAX_THREAD + 2 /\
    forall j, 0 <= j < MAX_THREAD + 2 -> delivers MAX_THREAD n j w <-> j = i.
Proof.
  intros Hw. unfold delivers, calc_own_w_id.
  exists (MAX_THREAD + (w - 1) mod 2). pose proof (Z.mod_pos_bound (w - 1) 2 ltac:(lia)) as Hm. split; [lia|].
  intros j Hj. destruct (Z.ltb_spec j MAX_THREAD).
  - split; [by intros [[] _]|lia].
  - rewrite owned_range by lia. pose proof (Z.div_mod (w - 1) 2). pose proof (Z.div_mod (w - (j - MAX_THREAD + 1)) 2).
    pose proof (Z.mod_pos_bound (w - (j - MAX_THREAD + 1)) 2 ltac:(lia)). lia.
Qed.

Lemma delivery_owner_unique_witness : exists i, 20 <= i < 22 /\
  forall j, 0 <= j < 22 -> delivers (C := tpcc_alnico) 20 20 j 13 <-> j = i.
Proof. exact (delivery_owner_unique (C := tpcc_alnico) 20 13 ltac:(lia)). Defined.
