(* ===== verification/Ycsb.v ===== *)
(** The YCSB database and its transactions ([benchmark/YCSB_structs.hh],
    [YCSB_commutators.hh], [YCSB_bench.cc], [run_txn] of [YCSB_txns.hh]), and the
    workers of [Runner] over them.

    As in [TpccIndex] an attempt reads the committed table, buffers its writes and
    takes the conflicts it meets as an input.  Memory that the code does not
    initialise is an input too: the bytes of an operation's column after the first
    one, and the scratch memory that a new row is built in. *)

From stdpp Require Import functions.
From S2P Require Import Prelude Memory Config Ring Feature ModelUpdate Perf RpcCommon Msg RpcConnect Central CentralProps Worker Runner RunnerProps.
From S2P Require Import TpccData TpccGen.

(** * Rows *)

Definition COL_WIDTH : Z := 1024.
Definition HALF_NUM_COLUMNS : Z := 1.
Definition ycsb_table_size : Z := 10000000.

Record ycsb_value := { odd_columns : list (list Z); even_columns : list (list Z) }.
#[export] Instance eta_ycsb_value : Eta ycsb_value := fun v => {| odd_columns := odd_columns v; even_columns := even_columns v |}.

Abbreviation ycsb_table := (gmap Z ycsb_value) (only parsing).

(** * The loader *)

Section loader.
Context {R : Mt19937}.

Definition random_char_of (n : Z) : Z := if n <? 26 then 97 + n else if n <? 52 then 65 + (n - 26) else 48 + (n - 52).

Definition random_column (g : input_generator) : list Z * input_generator :=
  let '(str, g) := draw_chars random_char_of 61 COL_WIDTH g in (fix_string (Z.to_nat COL_WIDTH) str, g).

Definition random_ycsb_value (g : input_generator) : ycsb_value * input_generator :=
  for_range 0 HALF_NUM_COLUMNS (fun _ '(v, g) =>
    let '(o, g) := random_column g in
    let '(e, g) := random_column g in
    ({| odd_columns := odd_columns v ++ [o]; even_columns := even_columns v ++ [e] |}, g))
    ({| odd_columns := []; even_columns := [] |}, g).

Definition ycsb_prepopulation_thread (tid key_begin key_end : Z) (t : ycsb_table) : ycsb_table :=
  (for_range key_begin key_end (fun i '(t, g) =>
     let '(v, g) := random_ycsb_value g in (<[i := v]> t, g))
     (t, {| ig_seed := tid; ig_draws := 0; num_whs_ := 0 |})).1.

(** The threads fill disjoint parts of the table; they run one after the other. *)
Definition prepopulate : ycsb_table :=
  let segment_size := ycsb_table_size / 32 in
  (for_range 0 32 (fun tid '(t, key_begin, key_end) =>
     (ycsb_prepopulation_thread tid key_begin key_end t, key_begin + segment_size, key_end + segment_size))
     (∅, 0, segment_size)).1.1.

End loader.

(** * Transactions *)

(** [cols[n / 2] = v] *)
Definition column_write (n : Z) (v : list Z) (cols : list (list Z)) : option (list (list Z)) :=
  if decide (Z.to_nat (n / 2) < length cols)%nat then Some (<[Z.to_nat (n / 2) := v]> cols) else None.

(** [Commutator<ycsb_value>::operate] *)
Definition operate (n : Z) (v : list Z) (fv : ycsb_value) : option ycsb_value :=
  if Z.odd n then c ← column_write n v (odd_columns fv); Some (fv <| odd_columns := c |>)
  else c ← column_write n v (even_columns fv); Some (fv <| even_columns := c |>).

(** The new row: one half is copied from [value], the other one is what [scratch]
    held. *)
Definition new_row (n : Z) (v : list Z) (value scratch : ycsb_value) : option ycsb_value :=
  if Z.odd n then c ← column_write n v (odd_columns value); Some (scratch <| odd_columns := c |>)
  else c ← column_write n v (even_columns value); Some (scratch <| even_columns := c |>).

Definition read_column (n : Z) (value : ycsb_value) : option (list Z) :=
  (if Z.odd n then odd_columns value else even_columns value) !! Z.to_nat (n / 2).

(** [tmps.write_value], which nothing assigns. *)
Definition blank : list Z := fix_string (Z.to_nat COL_WIDTH) [].

(** An operation with the memory it finds: the rest of its column and the
    scratch row. *)
Record op_at := { the_op : ycsb_op_t; op_rest : list Z; op_scratch : ycsb_value }.

Inductive body_end := Finished (p : ycsb_table) (conflicts : list bool) | Abort | Undefined.

Section transaction.
Variable Commute : bool.

Definition op_row (o : op_at) (value : ycsb_value) : option ycsb_value :=
  if Commute then operate (col_n (the_op o)) blank value
  else new_row (col_n (the_op o)) (write_value0 (the_op o) :: op_rest o) value (op_scratch o).

(** The loop over the operations; [p] has the rows buffered so far. *)
Fixpoint run_ops (t : ycsb_table) (l : list op_at) (p : ycsb_table) (conflicts : list bool) : body_end :=
  match l with
  | [] => Finished p conflicts
  | o :: l =>
      if negb (List.hd true conflicts) then Abort
      else
        match t !! op_key (the_op o) with
        | None => Undefined
        | Some value =>
            if is_write (the_op o) then
              match op_row o value with
              | Some row => run_ops t l (<[op_key (the_op o) := row]> p) (List.tl conflicts)
              | None => Undefined
              end
            else
              match read_column (col_n (the_op o)) value with
              | Some _ => run_ops t l p (List.tl conflicts)
              | None => Undefined
              end
        end
  end.

Variables (rest_at : Z -> list Z) (scratch_at : Z -> Z -> ycsb_value).

Definition ops_at (attempt : Z) (t : ycsb_txn_t) : list op_at :=
  (fun j => {| the_op := default no_op (ops t !! j); op_rest := rest_at j; op_scratch := scratch_at attempt j |})
    <$> seqZ 0 (cnt t).

(** [TRANSACTION { ... } RETRY(true)]: whether it committed, the table and the
    number of attempts. *)
Fixpoint ycsb_loop (t : ycsb_txn_t) (tb : ycsb_table) (confls : list (list bool)) (attempts : Z)
    : option (bool * ycsb_table * Z) :=
  match confls with
  | [] => Some (false, tb, attempts)
  | confl :: confls =>
      match run_ops tb (ops_at attempts t) tb confl with
      | Undefined => None
      | Finished p c => if List.hd true c then Some (true, p, attempts + 1) else ycsb_loop t tb confls (attempts + 1)
      | Abort => ycsb_loop t tb confls (attempts + 1)
      end
  end.

(** The database as the worker loops of [Runner] use it; the conflicts of the
    attempts are given. *)
Definition ycsb_sto (confls : list (list bool)) (t : ycsb_txn_t) (tb : ycsb_table) : ycsb_table * Z :=
  match ycsb_loop t tb confls 0 with Some (_, tb, n) => (tb, n) | None => (tb, 0) end.

End transaction.

(** * What a transaction does *)

(** A table with every key, and rows with both halves. *)
Definition row_ok (v : ycsb_value) : Prop :=
  length (odd_columns v) = Z.to_nat HALF_NUM_COLUMNS /\ length (even_columns v) = Z.to_nat HALF_NUM_COLUMNS.

Definition table_ok (t : ycsb_table) : Prop :=
  (forall k, is_Some (t !! k) <-> 0 <= k < ycsb_table_size) /\ forall k v, t !! k = Some v -> length (even_columns v) = 1%nat.

Definition op_ok (o : ycsb_op_t) : Prop := 0 <= op_key o < ycsb_table_size /\ col_n o = 0.

(** The last operation that writes row [k]. *)
Definition writes (k : Z) (o : op_at) : Prop := is_write (the_op o) = true /\ op_key (the_op o) = k.
#[export] Instance writes_dec k o : Decision (writes k o).
Proof. unfold writes. apply _. Defined.
Definition last_write (k : Z) (l : list op_at) : option op_at := last (base.filter (writes k) l).

(** The row after [o] has written it. *)
Definition written (Commute : bool) (o : op_at) (value : ycsb_value) : ycsb_value :=
  if Commute then value <| even_columns := [blank] |>
  else (op_scratch o) <| even_columns := [write_value0 (the_op o) :: op_rest o] |>.

Lemma last_write_cons k o l :
  last_write k (o :: l) = match last_write k l with Some o' => Some o' | None => if decide (writes k o) then Some o else None end.
Proof.
  unfold last_write. rewrite filter_cons. case_decide; [|by destruct (last _)]. rewrite last_cons. done.
Qed.

Section effect.
Context (Commute : bool) (t : ycsb_table) (HT : table_ok t).

Lemma op_row_written o v :
  col_n (the_op o) = 0 -> length (even_columns v) = 1%nat -> op_row Commute o v = Some (written Commute o v).
Proof using.
  intros Hc Hv. unfold op_row, written, operate, new_row, column_write. rewrite Hc. cbn [Z.odd].
  change (Z.to_nat (0 / 2)) with 0%nat. destruct (even_columns v) as [|c [|]] eqn:E; [done| |done].
  cbn [length]. rewrite decide_True by lia. cbn. by destruct Commute.
Qed.

Lemma run_ops_effect l p confl :
  Forall (fun o => op_ok (the_op o)) l ->
  match run_ops Commute t l p confl with
  | Undefined => False
  | Abort => confl <> []
  | Finished p' c => (confl = [] -> c = []) /\
      forall k, p' !! k = match last_write k l with Some o => written Commute o <$> t !! k | None => p !! k end
  end.
Proof using HT.
  intros HF. revert p confl. induction HF as [|o l [Hk Hc] HF IH]; intros p confl; cbn [run_ops]; [done|].
  destruct (List.hd true confl) eqn:Hg; cbn [negb]; [|by destruct confl].
  destruct HT as [HT1 HT2]. destruct (proj2 (HT1 _) Hk) as [v Hv]. rewrite Hv. pose proof (HT2 _ _ Hv) as Hev.
  destruct (is_write (the_op o)) eqn:Hw.
  - rewrite (op_row_written o v Hc Hev). specialize (IH (<[op_key (the_op o) := written Commute o v]> p) (List.tl confl)).
    destruct (run_ops _ _ _ _ _) as [p' c| |]; [|by destruct confl|done]. destruct IH as [IH1 IH2]. split; [intros ->; by apply IH1|].
    intros k. rewrite last_write_cons, IH2. destruct (last_write k l); [done|].
    case_decide as Hd; [destruct Hd as [_ <-]; by rewrite lookup_insert_eq, Hv|].
    rewrite lookup_insert_ne; [done|]. intros <-. by apply Hd.
  - unfold read_column. rewrite Hc. cbn [Z.odd]. change (Z.to_nat (0 / 2)) with 0%nat.
    destruct (even_columns v) as [|c0 ?]; [done|]. cbn [lookup list_lookup].
    specialize (IH p (List.tl confl)). destruct (run_ops _ _ _ _ _) as [p' c| |]; [|by destruct confl|done].
    destruct IH as [IH1 IH2]. split; [intros ->; by apply IH1|]. intros k. rewrite last_write_cons, IH2.
    destruct (last_write k l); [done|]. rewrite decide_False; [done|]. intros [Hw' _]. congruence.
Qed.

Context (rest_at : Z -> list Z) (scratch_at : Z -> Z -> ycsb_value).

Lemma ycsb_loop_effect x confls n :
  (forall j, 0 <= j < cnt x -> exists o, ops x !! j = Some o /\ op_ok o) ->
  exists done tb m, ycsb_loop Commute rest_at scratch_at x t confls n = Some (done, tb, m) /\
    n <= m <= n + Z.of_nat (length confls) /\ ([] ∈ confls -> done = true) /\
    if done then n < m /\ forall k, tb !! k = match last_write k (ops_at rest_at scratch_at (m - 1) x) with
      | Some o => written Commute o <$> t !! k | None => t !! k end
    else tb = t.
Proof using HT.
  intros Hops. revert n. induction confls as [|confl confls IH]; intros n; cbn [ycsb_loop].
  { exists false, t, n. cbn. split_and!; [done|lia|lia| |done]. by intros ?%not_elem_of_nil. }
  assert (Forall (fun o => op_ok (the_op o)) (ops_at rest_at scratch_at n x)) as HF.
  { apply Forall_forall. intros o (j & -> & Hj%elem_of_seqZ)%list_elem_of_fmap. cbn. destruct (Hops j) as (o & -> & Ho); [lia|done]. }
  pose proof (run_ops_effect _ t confl HF) as He.
  destruct (IH (n + 1)) as (done & tb & m & E & Hm & Hc & Hr).
  assert (confl <> [] -> exists done tb m, ycsb_loop Commute rest_at scratch_at x t confls (n + 1) = Some (done, tb, m) /\
    n <= m <= n + Z.of_nat (length (confl :: confls)) /\ ([] ∈ confl :: confls -> done = true) /\
    if done then n < m /\ forall k, tb !! k = match last_write k (ops_at rest_at scratch_at (m - 1) x) with
      | Some o => written Commute o <$> t !! k | None => t !! k end
    else tb = t) as Hnext.
  { intros Hne. exists done, tb, m. split; [done|]. cbn [length]. split; [lia|]. split.
    - intros [Heq|Hin]%elem_of_cons; [by destruct Hne|by apply Hc].
    - destruct done; [|done]. destruct Hr. split; [lia|done]. }
  destruct (run_ops _ _ _ _ _) as [p c| |]; [|by apply Hnext|done]. destruct He as [H1 H2].
  destruct (List.hd true c) eqn:Hg; [|apply Hnext; intros ->; by rewrite (H1 eq_refl) in Hg].
  exists true, p, (n + 1). split; [done|]. cbn [length]. split; [lia|]. split; [done|]. split; [lia|].
  by replace (n + 1 - 1) with n by lia.
Qed.
End effect.

(** * The loaded table *)

Section loaded.
Context {R : Mt19937}.

Lemma random_ycsb_value_ok g : row_ok (random_ycsb_value g).1.
Proof.
  unfold random_ycsb_value. change HALF_NUM_COLUMNS with (0 + 1). rewrite for_range_snoc, for_range_nil by lia.
  destruct (random_column g) as [o g1], (random_column g1) as [e g2]. done.
Qed.

Lemma ycsb_prepopulation_thread_rows tid b e t :
  b <= e -> let t' := ycsb_prepopulation_thread tid b e t in
  (forall k, is_Some (t' !! k) <-> is_Some (t !! k) \/ b <= k < e) /\
  ((forall k v, t !! k = Some v -> row_ok v) -> forall k v, t' !! k = Some v -> row_ok v).
Proof.
  intros Hle. cbv zeta. unfold ycsb_prepopulation_thread.
  apply (for_range_ind (fun j s => (forall k, is_Some (s.1 !! k) <-> is_Some (t !! k) \/ b <= k < j) /\
    ((forall k v, t !! k = Some v -> row_ok v) -> forall k v, s.1 !! k = Some v -> row_ok v)) b e); [done| |].
  - split; [|done]. cbn. intros k. split; [by left|]. intros [?|?]; [done|lia].
  - intros j [t1 g] Hj [IH1 IH2]. destruct (random_ycsb_value g) as [v g'] eqn:E. cbn [fst] in *. split.
    + intros k. rewrite lookup_insert_is_Some', IH1. destruct (decide (j = k)); split; intros H; intuition lia.
    + intros Ht k v' [[_ <-]|[_ Hk]]%lookup_insert_Some; [|by eapply IH2].
      pose proof (random_ycsb_value_ok g) as Hv. by rewrite E in Hv.
Qed.

Lemma prepopulate_ok : table_ok prepopulate /\ forall k v, prepopulate !! k = Some v -> row_ok v.
Proof.
  assert ((forall k, is_Some (prepopulate !! k) <-> 0 <= k < ycsb_table_size) /\
    forall k v, prepopulate !! k = Some v -> row_ok v) as [H1 H2].
  { unfold prepopulate. cbv zeta. change (ycsb_table_size / 32) with 312500.
    match goal with |- context [for_range ?b ?e ?f ?s] => set (r := for_range b e f s) end.
    assert (r.1.2 = 312500 * 32 /\ r.2 = 312500 * (32 + 1) /\
      (forall k, is_Some (r.1.1 !! k) <-> 0 <= k < 312500 * 32) /\ forall k v, r.1.1 !! k = Some v -> row_ok v) as (_ & _ & H1 & H2).
    { apply (for_range_ind (fun j (s : gmap Z ycsb_value * Z * Z) => s.1.2 = 312500 * j /\ s.2 = 312500 * (j + 1) /\
        (forall k, is_Some (s.1.1 !! k) <-> 0 <= k < 312500 * j) /\ forall k v, s.1.1 !! k = Some v -> row_ok v) 0 32).
      - lia.
      - cbn. split_and!; [done|done| |done]. intros k. rewrite lookup_empty. split; [by intros []|lia].
      - intros j [[t b] e] Hj (Hb & He & IH1 & IH2). cbn [fst snd] in *. subst b e.
        destruct (ycsb_prepopulation_thread_rows j (312500 * j) (312500 * (j + 1)) t) as [T1 T2]; [lia|].
        split_and!; [lia|lia| |by apply T2]. intros k. rewrite T1, IH1. lia. }
    split; [|done]. intros k. rewrite H1. unfold ycsb_table_size. lia. }
  split; [|done]. split; [done|]. intros k v Hv. exact (proj2 (H2 _ _ Hv)).
Qed.
End loaded.

(** * Requests *)

Section request.
#[local] Set Default Proof Using "Type*".
Context {C : Config} {CO : ConfigOk C}.

(** Operation [j] of the request [x]. *)
Definition decoded (m : memory) (x : msg_t) (j : Z) (o : ycsb_op_t) : Prop :=
  is_write o = get_ycsb_is_write x j /\ op_key o = get_ycsb_key m x j /\ col_n o = 0 /\
  (is_write o = true -> write_value0 o = 65).

Lemma decoded_ok m x j o : 0 <= j -> decoded m x j o -> op_ok o.
Proof using.
  intros Hj (_ & Hk & Hc & _). split; [|done]. rewrite Hk. unfold get_ycsb_key, YCSB_TABLE_SIZE, ycsb_table_size. apply Z.mod_pos_bound. lia.
Qed.

Lemma worker_abort_key_ycsb_keeps i w h w' h' :
  worker_abort_key_ycsb i w h = Some (w', h') -> now_msg w' = now_msg w /\ mem h' = mem h.
Proof using. unfold worker_abort_key_ycsb. intros ([q m] & _ & [= <- <-])%bind_Some. done. Qed.

Lemma msg_next_tx_decoded t w h t' w' h' :
  msg_next_tx t w h = Some (t', w', h') ->
  cnt t' = YCSBSIZE /\ forall j, 0 <= j < YCSBSIZE -> exists o, ops t' !! j = Some o /\ decoded (mem h) (now_msg w) j o.
Proof.
  unfold msg_next_tx. intros ([[[o aw] w1] h1] & H1 & H2)%bind_Some.
  apply bind_Some in H2 as ([w2 h2] & _ & [= <- <- <-]). split; [done|].
  apply (for_opt_ind (fun i '(o, _, w1, h1) => now_msg w1 = now_msg w /\ mem h1 = mem h /\
    forall j, 0 <= j < i -> exists op, o !! j = Some op /\ decoded (mem h) (now_msg w) j op)) in H1.
  - by destruct H1 as (_ & _ & H1).
  - pose proof ycsbsize_ok. unfold get_ycsb_size. lia.
  - split_and!; [done..|]. intros; lia.
  - intros i [[[o1 aw1] w3] h3] [[[o4 aw4] w4] h4] Hi (E1 & E2 & IH). unfold msg_step.
    intros ([w5 h5] & H5 & [= <- _ <- <-])%bind_Some.
    assert (now_msg w5 = now_msg w3 /\ mem h5 = mem h3) as [E3 E4].
    { destruct DYNAMIC; [by injection H5 as <- <-|by apply worker_abort_key_ycsb_keeps in H5]. }
    rewrite E3, E4. split_and!; [done..|]. intros j Hj. destruct (decide (i = j)) as [<-|Hne].
    + rewrite lookup_insert_eq. eexists. split; [reflexivity|]. rewrite E1, E2. unfold msg_op, decoded. cbn. split_and!; try done.
      by intros ->.
    + rewrite lookup_insert_ne by done. apply IH. lia.
Qed.

Context (Commute : bool) (rest_at : Z -> list Z) (scratch_at : Z -> Z -> ycsb_value).

(** C24: a YCSB request is executed.  A worker whose next queue cell names slot [i]
    answers that slot, and the transaction it has run is the request's: one
    operation per key of the request, in order, each on a key of the table.  If
    an attempt meets no conflict the transaction commits, exactly the rows that
    an operation writes change, each as the last operation that writes it says
    (in the build with commutators to a blank column, in the other one to the
    column of the operation beside whatever the scratch memory held), and the
    table still has all its rows. *)
Theorem ycsb_request_executed (confls : list (list bool)) (id i : Z) (t : ycsb_txn_t) (w : worker_msg_t) (h : host)
    (tb : ycsb_table) (q : fpga_dispatch_queue_t) :
  server_ready (server h) -> buffers_apart (server h) -> NULLRPC = false -> aq_ok (abort_queue w) ->
  is_Some (req_count (performance h) !! worker_thread_id w) ->
  is_Some (req_retry_count (performance h) !! id) ->
  dispatch h !! my_fpga_queue w = Some q -> (queue_message q).[(msg_id w, 0)] = i -> 0 <= i < total_slots ->
  table_ok tb -> [] ∈ confls ->
  exists t' w' h' a b tb' n,
    ycsb_turn (ycsb_sto Commute rest_at scratch_at confls) id t w h tb = Some (t', w', h', tb') /\
    slot_rev_addr (server h) i = Some a /\ slot_send_addr (server h) i = Some b /\
    ld 4 (mem h') (b + 4) = u32 (ld 4 (mem h) (a + 4) + NOTHING_DEBUG) /\
    (cnt t' = YCSBSIZE /\ forall j, 0 <= j < YCSBSIZE ->
       exists o, ops t' !! j = Some o /\ decoded (mem h) (deserialization (mem h) a (now_msg w)) j o) /\
    ycsb_loop Commute rest_at scratch_at t' tb confls 0 = Some (true, tb', n) /\
    (forall k, tb' !! k = match last_write k (ops_at rest_at scratch_at (n - 1) t') with
       | Some o => written Commute o <$> tb !! k | None => tb !! k end) /\
    table_ok tb'.
Proof.
  intros HR HB HN HQ Hc1 Hc2 Hq Hcell Hi HT Hcalm.
  destruct (worker_answers_slot (ycsb_sto Commute rest_at scratch_at confls) id i t w h tb q HR HB HN HQ Hc1 Hc2 Hq Hcell Hi)
    as (t' & w' & h' & a & b & E & _ & Ea & Eb & Hld & _).
  assert (cnt t' = YCSBSIZE /\ forall j, 0 <= j < YCSBSIZE ->
    exists o, ops t' !! j = Some o /\ decoded (mem h) (deserialization (mem h) a (now_msg w)) j o) as [Hcnt Hops].
  { destruct (next_txn_check_found w h q i a b HR HN Hq Hcell Hi Ea Eb) as (w1 & h1 & E1 & _ & _ & _ & _ & _ & _ & (M1 & _)).
    pose proof (next_txn_check_msg w h q i a w1 h1 HR HN Hq Hcell Hi Ea E1) as Em.
    unfold ycsb_turn in E. rewrite E1 in E. cbn [mbind option_bind negb] in E. unfold execute in E.
    apply bind_Some in E as ([[[t2 w2] h2] tb2] & E2 & E). apply bind_Some in E as ([w3 h3] & _ & [= -> _ _ _]).
    apply bind_Some in E2 as ([[t4 w4] h4] & E4 & E2). apply bind_Some in E2 as ([h5 tb5] & _ & [= -> _ _ _]).
    rewrite <-Em, <-M1. by eapply msg_next_tx_decoded. }
  destruct (ycsb_loop_effect Commute tb HT rest_at scratch_at t' confls 0) as (done & tb' & n & EL & _ & Hd & Hr).
  { intros j Hj. rewrite Hcnt in Hj. destruct (Hops j Hj) as (o & Ho & Hdec). exists o. split; [done|].
    eapply decoded_ok; [|exact Hdec]. lia. }
  rewrite (Hd Hcalm) in *. destruct Hr as [_ Hr].
  exists t', w', h', a, b, tb', n. unfold ycsb_sto in E. rewrite EL in E. cbn [fst] in E.
  split; [exact E|]. split; [done|]. split; [done|]. split; [done|]. split; [done|]. split; [done|]. split; [exact Hr|].
  destruct HT as [T1 T2]. split.
  - intros k. rewrite Hr. destruct (last_write k _) as [o|]; [|apply T1]. by rewrite fmap_is_Some.
  - intros k v. rewrite Hr. destruct (last_write k _) as [o|]; [|apply T2].
    intros (v0 & Hv & ->)%fmap_Some. unfold written. by destruct Commute.
Qed.
End request.

(** * Example *)

(** A generator that always draws the least number; the table is sealed, so that
    nothing evaluates it. *)
Definition least_rng : Mt19937 := {| uniform _ _ lo _ := lo; shuffle _ _ l := l |}.
Definition least_table_seal : seal (prepopulate (R := least_rng)).
Proof. by eexists. Qed.
Definition least_table : ycsb_table := unseal least_table_seal.

Lemma least_table_ok : table_ok least_table.
Proof. unfold least_table. rewrite (seal_eq least_table_seal). exact (proj1 (prepopulate_ok (R := least_rng))). Qed.

Lemma ycsb_request_executed_witness :
  let w := worker_zero <| worker_thread_id := 2 |> <| my_fpga_queue := 2 |> in
  let sto := ycsb_sto false (fun _ => []) (fun _ _ => {| odd_columns := []; even_columns := [] |}) [[false]; []] in
  exists t' w' h' tb', ycsb_turn (C := ycsb_alnico) sto 2 {| ops := ∅; cnt := 0; rw_txn := false |} w demo_posted least_table
      = Some (t', w', h', tb') /\ cnt t' = 16 /\ table_ok tb'.
Proof.
  intros w sto.
  destruct (ycsb_request_executed (C := ycsb_alnico) false (fun _ => []) (fun _ _ => {| odd_columns := []; even_columns := [] |})
    [[false]; []] 2 3 {| ops := ∅; cnt := 0; rw_txn := false |} w demo_posted least_table
    (Dispatch.post (Dispatch.init empty_dispatch) 0 3))
    as (t' & w' & h' & a & b & tb' & n & H1 & _ & _ & _ & [H2 _] & _ & _ & H3).
  - exact demo_ready.
  - left. vm_compute. congruence.
  - reflexivity.
  - reflexivity.
  - eexists. vm_compute. reflexivity.
  - eexists. vm_compute. reflexivity.
  - exact (lookup_insert_eq _ _ _).
  - exact (rd_insert_eq _ (0, 0) 3).
  - vm_compute. split; congruence.
  - exact least_table_ok.
  - right. by left.
  - exists t', w', h', tb'. split; [exact H1|]. split; [exact H2|exact H3].
Defined.
