(* ===== verification/Rcu.v ===== *)
(** Deferred reclamation ([sto-core/TRcu.hh], [TRcu.cc]): the set of callbacks of a
    thread, each with the epoch in which it was registered, kept in groups that
    are filled from [head_] to [tail_] and used again when they are empty.

    The list of groups from [first_] along [next_] is cut at [current_]; the groups
    after it are empty.  A callback is a function and its argument, and running it
    is an output.  [None] is a failed [assert] or the use of a cell that was not
    written. *)

From S2P Require Import Prelude.

(** [u] is the argument of a callback, or an epoch where [function] is null. *)
Record TRcuElement := { function : Z; u : Z }.
(** [epoch_] is not initialised; it is read only when the group is not empty. *)
Record TRcuGroup := { head_ : Z; tail_ : Z; capacity_ : Z; epoch_ : Z; e_ : gmap Z TRcuElement }.
#[export] Instance eta_group : Eta TRcuGroup := fun g => {|
  head_ := head_ g; tail_ := tail_ g; capacity_ := capacity_ g; epoch_ := epoch_ g; e_ := e_ g |}.

Definition make (capacity : Z) : TRcuGroup := {| head_ := 0; tail_ := 0; capacity_ := capacity; epoch_ := 0; e_ := ∅ |}.
Definition group_empty (g : TRcuGroup) : bool := head_ g =? tail_ g.

Definition group_push (el : TRcuElement) (g : TRcuGroup) : TRcuGroup :=
  g <| e_ := <[tail_ g := el]> (e_ g) |> <| tail_ := tail_ g + 1 |>.
Definition group_add (epoch f argument : Z) (g : TRcuGroup) : option TRcuGroup :=
  if tail_ g + 2 <=? capacity_ g then
    let g := if (head_ g =? tail_ g) || negb (epoch_ g =? epoch)
             then (group_push {| function := 0; u := epoch |} g) <| epoch_ := epoch |> else g in
    Some (group_push {| function := f; u := argument |} g)
  else None.

(** The two loops of [TRcuGroup::clean_until], with the callbacks that are run. *)
Fixpoint run_callbacks (fuel : nat) (g : TRcuGroup) : option (TRcuGroup * list (Z * Z)) :=
  match fuel with
  | O => None
  | S fuel =>
      if head_ g =? tail_ g then Some (g, [])
      else
        el ← e_ g !! head_ g;
        if function el =? 0 then Some (g, [])
        else '(g, out) ← run_callbacks fuel (g <| head_ := head_ g + 1 |>); Some (g, (function el, u el) :: out)
  end.

Fixpoint run_epochs (fuel : nat) (max_epoch : Z) (g : TRcuGroup) : option (TRcuGroup * list (Z * Z)) :=
  match fuel with
  | O => None
  | S fuel =>
      if head_ g =? tail_ g then Some (g, [])
      else
        el ← e_ g !! head_ g;
        if 0 <? s64 (max_epoch - u el) then
          '(g, out) ← run_callbacks (S fuel) (g <| head_ := head_ g + 1 |>);
          '(g, out') ← run_epochs fuel max_epoch g; Some (g, out ++ out')
        else Some (g, [])
  end.

Definition group_clean_until (max_epoch : Z) (g : TRcuGroup) : option (bool * TRcuGroup * list (Z * Z)) :=
  '(g, out) ← run_epochs (S (Z.to_nat (tail_ g - head_ g))) max_epoch g;
  Some (if head_ g =? tail_ g then (true, g <| head_ := 0 |> <| tail_ := 0 |>, out) else (false, g, out)).

(** [before] are the groups from [first_] up to [current_]. *)
Record TRcuSet := { before : list TRcuGroup; current_ : TRcuGroup; after : list TRcuGroup; clean_epoch_ : Z }.
#[export] Instance eta_set : Eta TRcuSet := fun s => {|
  before := before s; current_ := current_ s; after := after s; clean_epoch_ := clean_epoch_ s |}.

Definition sizeof_TRcuGroup : Z := 48.
Definition sizeof_TRcuElement : Z := 16.
Definition first_capacity : Z := (4080 - sizeof_TRcuGroup) / sizeof_TRcuElement.
Definition next_capacity : Z := (16368 - sizeof_TRcuGroup) / sizeof_TRcuElement.

Definition set_new : TRcuSet := {| before := []; current_ := make first_capacity; after := []; clean_epoch_ := 0 |}.

Definition first_ (s : TRcuSet) : TRcuGroup := match before s with g :: _ => g | [] => current_ s end.
Definition set_empty (s : TRcuSet) : bool := group_empty (first_ s).

Definition grow (s : TRcuSet) : option TRcuSet :=
  let '(g, rest) := match after s with [] => (make next_capacity, []) | g :: rest => (g, rest) end in
  if (head_ g =? 0) && (tail_ g =? 0)
  then Some (s <| before := before s ++ [current_ s] |> <| current_ := g |> <| after := rest |>) else None.

Definition set_add (epoch f argument : Z) (s : TRcuSet) : option TRcuSet :=
  s ← (if capacity_ (current_ s) <? tail_ (current_ s) + 2 then grow s else Some s);
  g ← group_add epoch f argument (current_ s);
  Some (s <| current_ := g |>).

(** The loop of [hard_clean_until] over the groups [l] up to [current_]; [empties]
    is the list from [empty_head] to [empty_tail]. *)
Fixpoint clean_groups (max_epoch : Z) (empties l : list TRcuGroup) (s : TRcuSet) : option (TRcuSet * list (Z * Z)) :=
  match l with
  | g :: l =>
      '(emptied, g, out) ← group_clean_until max_epoch g;
      if emptied : bool then '(s, out') ← clean_groups max_epoch (empties ++ [g]) l s; Some (s, out ++ out')
      else Some (s <| before := g :: l |> <| after := empties ++ after s |>, out)
  | [] =>
      '(emptied, g, out) ← group_clean_until max_epoch (current_ s);
      if emptied : bool then
        match empties ++ [g] with
        | [] => None
        | empty_head :: rest =>
            Some (s <| before := [] |> <| current_ := empty_head |> <| after := rest ++ after s |>, out)
        end
      else Some (s <| before := [] |> <| current_ := g |> <| after := empties ++ after s |>, out)
  end.

Definition hard_clean_until (max_epoch : Z) (s : TRcuSet) : option (TRcuSet * list (Z * Z)) :=
  clean_groups max_epoch [] (before s) s.

Definition set_clean_until (max_epoch : Z) (s : TRcuSet) : option (TRcuSet * list (Z * Z)) :=
  '(s, out) ← (if clean_epoch_ s =? max_epoch then Some (s, []) else hard_clean_until max_epoch s);
  Some (s <| clean_epoch_ := max_epoch |>, out).

(** [TRcuSet::check], and the assertions of the destructors. *)
Definition check_group (g : TRcuGroup) : bool := (head_ g <=? tail_ g) && (tail_ g <=? capacity_ g).
Definition check (s : TRcuSet) : bool :=
  forallb (fun g => check_group g && negb (head_ g =? tail_ g)) (before s) && check_group (current_ s) &&
  forallb (fun g => check_group g && (head_ g =? 0) && (tail_ g =? 0)) (after s).
Definition destroy (s : TRcuSet) : bool := forallb group_empty (before s ++ current_ s :: after s).

(** * A queue of callbacks *)

(** What the set promises: the callbacks wait in the order in which they were added,
    and cleaning runs those at the front whose epoch is before the given one. *)
Record pending := { p_epoch : Z; p_function : Z; p_argument : Z }.
Definition due (max_epoch : Z) (p : pending) : bool := 0 <? s64 (max_epoch - p_epoch p).
Definition callback (p : pending) : Z * Z := (p_function p, p_argument p).

Fixpoint expired (max_epoch : Z) (q : list pending) : list pending :=
  match q with p :: q => if due max_epoch p then p :: expired max_epoch q else [] | [] => [] end.
Fixpoint waiting (max_epoch : Z) (q : list pending) : list pending :=
  match q with p :: q' => if due max_epoch p then waiting max_epoch q' else q | [] => [] end.

Inductive rcu_op := Add (epoch f argument : Z) | Clean (max_epoch : Z).

Fixpoint queue_run (ops : list rcu_op) (cleaned : Z) (q : list pending) : list pending * list (Z * Z) :=
  match ops with
  | [] => (q, [])
  | Add epoch f argument :: ops =>
      queue_run ops cleaned (q ++ [{| p_epoch := epoch; p_function := f; p_argument := argument |}])
  | Clean m :: ops =>
      if cleaned =? m then queue_run ops m q
      else let '(q', out) := queue_run ops m (waiting m q) in (q', (callback <$> expired m q) ++ out)
  end.

Fixpoint set_run (ops : list rcu_op) (s : TRcuSet) : option (TRcuSet * list (Z * Z)) :=
  match ops with
  | [] => Some (s, [])
  | Add epoch f argument :: ops => s ← set_add epoch f argument s; set_run ops s
  | Clean m :: ops => '(s, out) ← set_clean_until m s; '(s, out') ← set_run ops s; Some (s, out ++ out')
  end.

Lemma expired_app m q q' : expired m (q ++ q') =
  if forallb (due m) q then q ++ expired m q' else expired m q.
Proof. induction q as [|p q IH]; cbn; [done|]. destruct (due m p); [|done]. rewrite IH. by destruct (forallb _ q). Qed.

Lemma waiting_app m q q' : waiting m (q ++ q') = if forallb (due m) q then waiting m q' else waiting m q ++ q'.
Proof. induction q as [|p q IH]; cbn; [done|]. by destruct (due m p). Qed.

Lemma expired_all m q : forallb (due m) q = true -> expired m q = q /\ waiting m q = [].
Proof. intros Hq. rewrite <-(app_nil_r q) at 1 3. rewrite expired_app, waiting_app, Hq. by rewrite app_nil_r. Qed.

Lemma expired_waiting m q : expired m q ++ waiting m q = q.
Proof. induction q as [|p q IH]; cbn; [done|]. destruct (due m p); cbn; [by rewrite IH|done]. Qed.

(** * Groups *)

(** A group holds blocks: an epoch and the callbacks registered in it. *)
Abbreviation block := (Z * list (Z * Z))%type.
Definition element (c : Z * Z) : TRcuElement := {| function := c.1; u := c.2 |}.
Definition marker (epoch : Z) : TRcuElement := {| function := 0; u := epoch |}.
Definition cells (B : list block) : list TRcuElement := B ≫= fun b => marker b.1 :: (element <$> b.2).
Definition in_block (epoch : Z) (c : Z * Z) : pending := {| p_epoch := epoch; p_function := c.1; p_argument := c.2 |}.
Definition items (B : list block) : list pending := B ≫= fun b => in_block b.1 <$> b.2.
Definition block_ok (b : block) : Prop := b.2 <> [] /\ Forall (fun c => c.1 <> 0) b.2.

(** The cells of the group from [head_] to [tail_]. *)
Record stores (g : TRcuGroup) (l : list TRcuElement) : Prop := {
  st_head : 0 <= head_ g;
  st_len : tail_ g = head_ g + Z.of_nat (length l);
  st_cap : tail_ g <= capacity_ g /\ 2 <= capacity_ g;
  st_cells (i : nat) el : l !! i = Some el -> e_ g !! (head_ g + Z.of_nat i) = Some el }.

Record holds_group (g : TRcuGroup) (B : list block) : Prop := {
  hg_stores : stores g (cells B);
  hg_ok : Forall block_ok B;
  hg_last b : last B = Some b -> epoch_ g = b.1;
  hg_reset : B = [] -> head_ g = 0 /\ tail_ g = 0 }.

Lemma cells_app B B' : cells (B ++ B') = cells B ++ cells B'.
Proof. apply bind_app. Qed.
Lemma items_app B B' : items (B ++ B') = items B ++ items B'.
Proof. apply bind_app. Qed.

Lemma stores_empty g l : stores g l -> (head_ g =? tail_ g) = bool_decide (l = []).
Proof.
  intros [_ Hl _ _]. rewrite Hl. destruct l; cbn [length].
  - rewrite bool_decide_true by done. apply Z.eqb_eq. lia.
  - rewrite bool_decide_false by done. apply Z.eqb_neq. lia.
Qed.

Lemma cells_nil B : cells B = [] -> B = [].
Proof. by destruct B. Qed.

Lemma push_stores g l el : stores g l -> tail_ g + 1 <= capacity_ g -> stores (group_push el g) (l ++ [el]).
Proof.
  intros [H1 H2 H3 H4] Hc. split; cbn; [done|rewrite length_app; cbn; lia|lia|].
  intros i el' [Hi|[Hi Hel]]%lookup_app_Some.
  - rewrite lookup_insert_ne; [by apply H4|]. apply lookup_lt_Some in Hi. lia.
  - apply list_lookup_singleton_Some in Hel as [Hi' ->]. rewrite H2.
    replace (head_ g + Z.of_nat i) with (head_ g + Z.of_nat (length l)) by lia. by rewrite lookup_insert_eq.
Qed.

Lemma stores_epoch g l epoch : stores g l -> stores (g <| epoch_ := epoch |>) l.
Proof. by intros []. Qed.

Lemma group_add_ok epoch f a g B :
  holds_group g B -> tail_ g + 2 <= capacity_ g -> f <> 0 ->
  exists g' B', group_add epoch f a g = Some g' /\ holds_group g' B' /\ B' <> [] /\
    items B' = items B ++ [in_block epoch (f, a)].
Proof.
  intros [Hs Hok Hlast _] Hc Hf. unfold group_add. rewrite (proj2 (Z.leb_le _ _)) by lia. rewrite (stores_empty _ _ Hs).
  destruct (bool_decide (cells B = []) || negb (epoch_ g =? epoch)) eqn:E.
  - exists (group_push (element (f, a)) ((group_push (marker epoch) g) <| epoch_ := epoch |>)), (B ++ [(epoch, [(f, a)])]).
    split; [done|]. split_and!; [|by destruct B|by rewrite items_app].
    split.
    + rewrite cells_app. change (cells [(epoch, [(f, a)])]) with ([marker epoch] ++ [element (f, a)]). rewrite app_assoc.
      apply push_stores; [apply stores_epoch, push_stores; [done|lia]|cbn; lia].
    + apply Forall_app. split; [done|]. repeat constructor; done.
    + intros b. rewrite last_snoc. by intros [= <-].
    + by destruct B.
  - apply orb_false_iff in E as [E1 E2]. apply negb_false_iff, Z.eqb_eq in E2. subst epoch.
    apply bool_decide_eq_false in E1. destruct B as [|b0 B0 _] using rev_ind; [done|]. destruct b0 as [ep cbs].
    specialize (Hlast _ (last_snoc _ _)). cbn in Hlast. subst ep.
    exists (group_push (element (f, a)) g), (B0 ++ [(epoch_ g, cbs ++ [(f, a)])]). split; [done|].
    split_and!; [|by destruct B0|].
    + split.
      * replace (cells (B0 ++ [(epoch_ g, cbs ++ [(f, a)])])) with (cells (B0 ++ [(epoch_ g, cbs)]) ++ [element (f, a)]).
        { apply push_stores; [done|lia]. }
        rewrite !cells_app. cbn. rewrite !app_nil_r, fmap_app, <-app_assoc. done.
      * apply Forall_app in Hok as [Hok0 [[_ Hf0] _]%Forall_cons]. apply Forall_app. split; [done|]. apply Forall_singleton.
        split; [by destruct cbs|]. cbn in *. apply Forall_app. split; [done|]. by apply Forall_singleton.
      * intros b. rewrite last_snoc. by intros [= <-].
      * by destruct B0.
    + rewrite !items_app. cbn. rewrite !app_nil_r, fmap_app, <-app_assoc. done.
Qed.

Lemma stores_next g el l : stores g (el :: l) ->
  head_ g <> tail_ g /\ e_ g !! head_ g = Some el /\ stores (g <| head_ := head_ g + 1 |>) l.
Proof.
  intros [H1 H2 H3 H4]. cbn [length] in H2. split; [lia|]. split; [rewrite <-(Z.add_0_r (head_ g)); by apply (H4 0%nat)|].
  split; cbn; [lia|lia|lia|]. intros i el' Hi. replace (head_ g + 1 + Z.of_nat i) with (head_ g + Z.of_nat (S i)) by lia. by apply H4.
Qed.

(** [g'] is [g] with a later [head_]. *)
Definition advanced (g g' : TRcuGroup) : Prop := epoch_ g' = epoch_ g /\ tail_ g' = tail_ g /\ capacity_ g' = capacity_ g.

Lemma run_callbacks_ok cbs l : forall fuel g,
  stores g ((element <$> cbs) ++ l) -> Forall (fun c => c.1 <> 0) cbs ->
  match l with el :: _ => function el = 0 | [] => True end -> (length cbs < fuel)%nat ->
  exists g', run_callbacks fuel g = Some (g', cbs) /\ stores g' l /\ advanced g g'.
Proof.
  induction cbs as [|c cbs IH]; intros [|fuel] g Hs Hf Hl Hfuel; cbn in Hfuel; try lia; cbn [run_callbacks fmap list_fmap app] in *.
  - rewrite (stores_empty _ _ Hs). case_bool_decide; [by exists g|]. destruct l as [|el l]; [done|].
    destruct (stores_next _ _ _ Hs) as (_ & -> & _). cbn [mbind option_bind]. rewrite (proj2 (Z.eqb_eq _ _) Hl). by exists g.
  - apply Forall_cons in Hf as [Hc Hf]. destruct (stores_next _ _ _ Hs) as (Hne & -> & Hs').
    rewrite (proj2 (Z.eqb_neq _ _) Hne). cbn [mbind option_bind element function u]. rewrite (proj2 (Z.eqb_neq _ _) Hc).
    destruct (IH fuel _ Hs' Hf Hl ltac:(lia)) as (g' & -> & ? & ?). cbn [mbind option_bind]. exists g'. split; [by destruct c|done].
Qed.

Fixpoint block_waiting (m : Z) (B : list block) : list block :=
  match B with b :: B' => if 0 <? s64 (m - b.1) then block_waiting m B' else B | [] => [] end.

Lemma run_epochs_ok m B : forall fuel g,
  stores g (cells B) -> Forall block_ok B -> (length (cells B) < fuel)%nat ->
  exists g', run_epochs fuel m g = Some (g', callback <$> expired m (items B)) /\ stores g' (cells (block_waiting m B)) /\
    advanced g g'.
Proof.
  induction B as [|[ep cbs] B IH]; intros [|fuel] g Hs Hok Hfuel; try (cbn in Hfuel; lia); cbn [run_epochs].
  - rewrite (stores_empty _ _ Hs), bool_decide_true by done. by exists g.
  - apply Forall_cons in Hok as [[Hn Hf] Hok]. cbn in Hn, Hf. destruct (stores_next _ _ _ Hs) as (Hne & He & Hs'). rewrite He.
    rewrite (proj2 (Z.eqb_neq _ _) Hne). cbn [mbind option_bind marker u block_waiting fst snd].
    assert (items ((ep, cbs) :: B) = (in_block ep <$> cbs) ++ items B) as -> by done.
    assert (cells ((ep, cbs) :: B) = marker ep :: ((element <$> cbs) ++ cells B)) as Hcells by done.
    rewrite Hcells in Hfuel. cbn [length] in Hfuel. rewrite length_app, length_fmap in Hfuel.
    rewrite expired_app. assert (forallb (due m) (in_block ep <$> cbs) = (0 <? s64 (m - ep))) as Hdue.
    { clear -Hn. induction cbs as [|c [|c' cbs] IH]; [done|cbn; apply andb_true_r|]. cbn in *. rewrite IH by done. apply andb_diag. }
    rewrite Hdue. destruct (0 <? s64 (m - ep)) eqn:E.
    + destruct (run_callbacks_ok cbs (cells B) (S fuel) _ Hs' Hf) as (g1 & E1 & S1 & A1); [by destruct B|lia|].
      change (run_callbacks (S fuel) (g <| head_ := head_ g + 1 |>) = Some (g1, cbs)) in E1. rewrite E1. cbn [mbind option_bind].
      destruct (IH fuel g1 S1 Hok ltac:(lia)) as (g2 & -> & S2 & A2). cbn [mbind option_bind]. exists g2. split.
      * do 2 f_equal. rewrite fmap_app. f_equal. clear. by induction cbs as [|[f a] cbs IH]; [|cbn; rewrite <-IH].
      * split; [done|]. destruct A1 as (? & ? & ?), A2 as (? & ? & ?). unfold advanced in *. cbn in *. split_and!; congruence.
    + exists g. split; [|done]. destruct cbs as [|c cbs]; [done|]. cbn. unfold due. cbn. by rewrite E.
Qed.

Lemma block_waiting_suffix m B : exists B0, B = B0 ++ block_waiting m B.
Proof.
  induction B as [|b B [B0 IH]]; [by exists []|]. cbn. destruct (0 <? s64 (m - b.1)); [|by exists []].
  exists (b :: B0). cbn. by rewrite <-IH.
Qed.

Lemma items_waiting m B : Forall block_ok B -> items (block_waiting m B) = waiting m (items B).
Proof.
  induction 1 as [|[ep cbs] B [Hn _] _ IH]; [done|]. cbn [block_waiting fst]. assert (items ((ep, cbs) :: B) = (in_block ep <$> cbs) ++ items B) as -> by done.
  destruct (0 <? s64 (m - ep)) eqn:E.
  - rewrite IH. clear -E. induction cbs as [|c cbs IH]; [done|]. cbn. unfold due. cbn. by rewrite E.
  - destruct cbs as [|c cbs]; [done|]. cbn. unfold due. cbn. by rewrite E.
Qed.

Lemma items_nil B : Forall block_ok B -> items B = [] -> B = [].
Proof. destruct 1 as [|[ep [|c cbs]] B [Hn _] _]; done. Qed.

Lemma group_clean_ok m g B : holds_group g B ->
  exists g', group_clean_until m g = Some (bool_decide (block_waiting m B = []), g', callback <$> expired m (items B)) /\
    holds_group g' (block_waiting m B).
Proof.
  intros [Hs Hok Hlast _]. unfold group_clean_until.
  destruct (run_epochs_ok m B (S (Z.to_nat (tail_ g - head_ g))) g Hs Hok) as (g1 & -> & S1 & A1 & A2 & A3).
  { rewrite (st_len _ _ Hs). lia. }
  cbn [mbind option_bind]. rewrite (stores_empty _ _ S1). destruct (block_waiting_suffix m B) as [B0 HB].
  assert (Forall block_ok (block_waiting m B)) as Hok' by (rewrite HB in Hok; by apply Forall_app in Hok as [_ ?]).
  case_bool_decide as Hc.
  - apply cells_nil in Hc. rewrite Hc in *. eexists. rewrite bool_decide_true by done. split; [done|].
    destruct S1 as [_ _ [_ Hcap] _]. split; [|done|done|done]. split; cbn; [lia|lia|lia|done].
  - exists g1. rewrite bool_decide_false by (intros HX; by rewrite HX in Hc). split; [done|].
    split; [done|done| |by intros HX; rewrite HX in Hc]. intros b Hb. rewrite A1. apply Hlast. rewrite HB, last_app, Hb. done.
Qed.

(** * Sets *)

Definition idle (g : TRcuGroup) : Prop := holds_group g [].

(** The set [s] holds the queue [q]. *)
Definition holds_set (s : TRcuSet) (q : list pending) : Prop :=
  exists Bs Bc, Forall2 (fun g B => holds_group g B /\ B <> []) (before s) Bs /\ holds_group (current_ s) Bc /\
    Forall idle (after s) /\ q = (Bs ≫= items) ++ items Bc.

Lemma make_idle capacity : 2 <= capacity -> idle (make capacity).
Proof. intros Hc. split; [|constructor|done|done]. split; cbn; [lia|lia|lia|done]. Qed.

Lemma new_holds : holds_set set_new [].
Proof. exists [], []. split_and!; [constructor|by apply make_idle|constructor|done]. Qed.

Lemma set_add_ok epoch f a s q : holds_set s q -> f <> 0 ->
  exists s', set_add epoch f a s = Some s' /\ clean_epoch_ s' = clean_epoch_ s /\ holds_set s' (q ++ [in_block epoch (f, a)]).
Proof.
  intros (Bs & Bc & Hb & Hc & Ha & ->) Hf. unfold set_add. destruct (Z.ltb_spec (capacity_ (current_ s)) (tail_ (current_ s) + 2)) as [Hfull|Hroom].
  - set (after' := match after s with [] => [make next_capacity] | l => l end).
    assert (exists g rest, after' = g :: rest /\ idle g /\ Forall idle rest /\
      grow s = Some (s <| before := before s ++ [current_ s] |> <| current_ := g |> <| after := rest |>)) as (g & rest & _ & Hg & Hrest & ->).
    { unfold grow, after'. destruct Ha as [|g rest Hg Hrest].
      - exists (make next_capacity), []. split_and!; [done|by apply make_idle|constructor|done].
      - exists g, rest. split_and!; [done|done|done|]. destruct (hg_reset _ _ Hg eq_refl) as [-> ->]. done. }
    cbn [mbind option_bind current_ set_field]. destruct (hg_reset _ _ Hg eq_refl) as [Hh Ht].
    destruct (group_add_ok epoch f a g [] Hg) as (g' & B' & -> & Hg' & _ & Hi); [destruct (st_cap _ _ (hg_stores _ _ Hg)); lia|done|].
    cbn [mbind option_bind]. eexists. split; [done|]. split; [done|]. exists (Bs ++ [Bc]), B'. cbn. split_and!; [|done|done|].
    + apply Forall2_app; [done|]. constructor; [|constructor]. split; [done|]. intros ->.
      destruct (hg_reset _ _ Hc eq_refl) as [_ Ht0]. destruct (st_cap _ _ (hg_stores _ _ Hc)). lia.
    + rewrite Hi, bind_app. cbn. by rewrite app_nil_r.
  - cbn [mbind option_bind]. destruct (group_add_ok epoch f a (current_ s) Bc Hc ltac:(lia) Hf) as (g' & B' & -> & Hg' & _ & Hi).
    cbn [mbind option_bind]. eexists. split; [done|]. split; [done|]. exists Bs, B'. cbn. split_and!; [done|done|done|].
    by rewrite Hi, app_assoc.
Qed.

Lemma clean_groups_ok m s Bc : holds_group (current_ s) Bc -> Forall idle (after s) ->
  forall l Bs empties, Forall2 (fun g B => holds_group g B /\ B <> []) l Bs -> Forall idle empties ->
  exists s', clean_groups m empties l s = Some (s', callback <$> expired m ((Bs ≫= items) ++ items Bc)) /\
    holds_set s' (waiting m ((Bs ≫= items) ++ items Bc)).
Proof.
  intros Hc Ha. induction l as [|g l IH]; intros Bs empties HF He; inversion HF as [|? B ? Bs' [Hg Hn] HF']; subst; cbn [clean_groups mbind list_bind app].
  - destruct (group_clean_ok m _ _ Hc) as (g' & -> & Hg'). cbn [mbind option_bind].
    rewrite <-(items_waiting m Bc) by apply (hg_ok _ _ Hc). case_bool_decide as E.
    + rewrite E in *. destruct empties as [|g0 empties]; cbn [app].
      * eexists. split; [done|]. exists [], []. cbn. split_and!; [constructor|done|done|done].
      * apply Forall_cons in He as [Hg0 He]. eexists. split; [done|]. exists [], []. cbn. split_and!; [constructor|done| |done].
        apply Forall_app. split; [|done]. apply Forall_app. split; [done|]. by apply Forall_singleton.
    + eexists. split; [done|]. exists [], (block_waiting m Bc). cbn. split_and!; [constructor|done| |done]. by apply Forall_app.
  - destruct (group_clean_ok m _ _ Hg) as (g' & -> & Hg'). cbn [mbind option_bind].
    pose proof (items_waiting m B (hg_ok _ _ Hg)) as HB. rewrite <-!app_assoc. rewrite expired_app, waiting_app.
    assert (forallb (due m) (items B) = bool_decide (block_waiting m B = [])) as ->.
    { destruct (forallb (due m) (items B)) eqn:E.
      - symmetry. apply bool_decide_eq_true. apply expired_all in E as [_ E]. rewrite E in HB. apply items_nil in HB; [done|]. apply (hg_ok _ _ Hg').
      - symmetry. apply bool_decide_eq_false. intros E'. rewrite E' in HB. pose proof (expired_waiting m (items B)) as HX. rewrite <-HB in HX.
        cbn in HX. rewrite app_nil_r in HX. apply not_true_iff_false in E. apply E. rewrite <-HX. clear.
        induction (items B) as [|p q IH]; [done|]. cbn. destruct (due m p) eqn:Hd; [|done]. cbn. by rewrite Hd. }
    case_bool_decide as E.
    + rewrite E in *. destruct (IH Bs' (empties ++ [g']) HF') as (s' & -> & Hs').
      { apply Forall_app. split; [done|]. by apply Forall_singleton. }
      cbn [mbind option_bind]. exists s'. split; [|done]. rewrite fmap_app. do 3 f_equal.
      pose proof (expired_waiting m (items B)) as HX. rewrite <-HB in HX. cbn in HX. rewrite app_nil_r in HX.
      by rewrite HX.
    + eexists. split; [done|]. exists (block_waiting m B :: Bs'), Bc. cbn. split_and!; [by constructor|done|by apply Forall_app|].
      by rewrite HB, app_assoc.
Qed.

Lemma set_clean_ok m s q : holds_set s q ->
  exists s', set_clean_until m s = Some (s', if clean_epoch_ s =? m then [] else callback <$> expired m q) /\ clean_epoch_ s' = m /\
    holds_set s' (if clean_epoch_ s =? m then q else waiting m q).
Proof.
  intros (Bs & Bc & Hb & Hc & Ha & ->). unfold set_clean_until. destruct (clean_epoch_ s =? m); cbn [mbind option_bind].
  - eexists. split; [done|]. split; [done|]. by exists Bs, Bc.
  - unfold hard_clean_until. destruct (clean_groups_ok m s Bc Hc Ha (before s) Bs [] Hb) as (s' & -> & Hs'); [constructor|].
    cbn [mbind option_bind]. eexists. split; [done|]. split; [done|]. destruct Hs' as (Bs' & Bc' & ? & ? & ? & ->). by exists Bs', Bc'.
Qed.

(** The assertions of [check] hold, and [empty] tells whether something waits. *)
Lemma holds_check s q : holds_set s q -> check s = true /\ set_empty s = bool_decide (q = []).
Proof.
  intros (Bs & Bc & Hb & Hc & Ha & ->).
  assert (forall g B, holds_group g B -> check_group g = true) as Hg.
  { intros g B [[H1 H2 [H3 _] _] _ _]. unfold check_group. apply andb_true_iff. split; apply Z.leb_le; lia. }
  assert (forall g B, holds_group g B -> (head_ g =? tail_ g) = bool_decide (items B = [])) as Hempty.
  { intros g B [Hs Hok _ _]. rewrite (stores_empty _ _ Hs). apply bool_decide_ext. split; [by intros ->%cells_nil|]. by intros ->%(items_nil _ Hok). }
  assert (forall B, Forall block_ok B -> B <> [] -> items B <> []) as Hni by (intros B Hok Hn HX; by apply Hn, items_nil).
  split.
  - unfold check. rewrite !andb_true_iff. split_and!; [|by eapply Hg|].
    + apply forallb_forall. intros g Hin%list_elem_of_In. apply list_elem_of_lookup in Hin as [i Hi].
      destruct (Forall2_lookup_l _ _ _ _ _ Hb Hi) as (B & _ & HB & Hn). rewrite (Hg _ _ HB), (Hempty _ _ HB), bool_decide_false; [done|].
      apply Hni; [apply (hg_ok _ _ HB)|done].
    + apply forallb_forall. intros g Hin%list_elem_of_In. rewrite Forall_forall in Ha. specialize (Ha g Hin).
      rewrite (Hg _ _ Ha). destruct (hg_reset _ _ Ha eq_refl) as [-> ->]. done.
  - unfold set_empty, group_empty, first_. inversion Hb as [|g B l Bs' [HB Hn] ? E1 E2]; subst; cbn.
    + by rewrite (Hempty _ _ Hc).
    + rewrite (Hempty _ _ HB), !bool_decide_false; [done| |].
      * intros HX. apply app_eq_nil in HX as [HX _]. apply app_eq_nil in HX as [HX _].
        by apply (Hni B (hg_ok _ _ HB) Hn).
      * apply Hni; [apply (hg_ok _ _ HB)|done].
Qed.

Definition op_ok (op : rcu_op) : Prop := match op with Add _ f _ => f <> 0 | Clean _ => True end.

Lemma set_run_ok ops : forall s q, holds_set s q -> Forall op_ok ops ->
  exists s', set_run ops s = Some (s', (queue_run ops (clean_epoch_ s) q).2) /\
    holds_set s' (queue_run ops (clean_epoch_ s) q).1.
Proof.
  induction ops as [|[epoch f a|m] ops IH]; intros s q Hs Hok; cbn [set_run queue_run].
  - by exists s.
  - apply Forall_cons in Hok as [Hf Hok]. destruct (set_add_ok epoch f a s q Hs Hf) as (s1 & -> & Hce & Hs1). cbn [mbind option_bind].
    rewrite <-Hce. by apply IH.
  - apply Forall_cons in Hok as [_ Hok]. destruct (set_clean_ok m s q Hs) as (s1 & -> & Hce & Hs1). cbn [mbind option_bind].
    destruct (IH s1 _ Hs1 Hok) as (s2 & -> & Hs2). cbn [mbind option_bind]. rewrite Hce in *. destruct (clean_epoch_ s =? m).
    + by exists s2.
    + destruct (queue_run ops m (waiting m q)) as [q' out] eqn:E. exists s2. done.
Qed.

(** C19: The groups of a thread's [TRcuSet] implement a queue.  Whatever callbacks are
    added and whenever it is cleaned, no assertion fails, the callbacks that run
    are those the queue runs (in the order of their registration, exactly those
    at the front whose epoch is before the given one), the assertions of
    [check] hold, [empty] says whether a callback is left, and the destructor's
    assertions hold when none is. *)
Theorem rcu_set_is_queue ops :
  Forall op_ok ops ->
  exists s, set_run ops set_new = Some (s, (queue_run ops 0 []).2) /\ check s = true /\
    set_empty s = bool_decide ((queue_run ops 0 []).1 = []) /\ (set_empty s = true -> destroy s = true).
Proof.
  intros Hok. destruct (set_run_ok ops set_new [] new_holds Hok) as (s & E & Hs). exists s. split; [exact E|].
  destruct (holds_check s _ Hs) as [Hc He]. split_and!; [done|done|]. rewrite He. intros Hq%bool_decide_eq_true. cbn in Hq.
  destruct Hs as (Bs & Bc & Hb & Hc' & Ha & Hq'). cbn in Hq'. rewrite Hq in Hq'. symmetry in Hq'. apply app_eq_nil in Hq' as [HBs HBc].
  inversion Hb as [E1 E2|g B l Bs' [HB Hn] _ E1 E2]; subst Bs.
  - unfold destroy. rewrite <-E1. cbn. unfold group_empty at 1. apply (items_nil _ (hg_ok _ _ Hc')) in HBc. subst Bc.
    destruct (hg_reset _ _ Hc' eq_refl) as [-> ->]. cbn. apply forallb_forall. intros g Hin%list_elem_of_In. rewrite Forall_forall in Ha.
    unfold group_empty. by destruct (hg_reset _ _ (Ha g Hin) eq_refl) as [-> ->].
  - cbn in HBs. apply app_eq_nil in HBs as [HBs _]. by apply (items_nil _ (hg_ok _ _ HB)) in HBs.
Qed.

(** Two epochs, of which the first is over when the set is cleaned. *)
Definition demo_ops : list rcu_op := [Add 2 7 100; Add 2 7 101; Add 3 7 102; Clean 3; Add 3 7 103; Clean 3; Clean 4].

Lemma rcu_set_is_queue_witness : Forall op_ok demo_ops /\
  exists s, set_run demo_ops set_new = Some (s, [(7, 100); (7, 101); (7, 102); (7, 103)]) /\ destroy s = true.
Proof.
  assert (Forall op_ok demo_ops) as Hok by (unfold demo_ops; repeat constructor; cbn; lia).
  split; [exact Hok|]. destruct (rcu_set_is_queue demo_ops Hok) as (s & E & _ & He & Hd). exists s.
  split; [rewrite E; vm_compute; reflexivity|]. apply Hd. rewrite He. vm_compute. reflexivity.
Defined.
