(* ===== verification/Epoch.v ===== *)
(** The epochs of STO ([Transaction::start], [epoch_advancer], [rcu_delete],
    [rcu_release_all] of [sto-core/Transaction.hh] and [Transaction.cc]): when
    memory that transactions share may be freed.

    A step is one access to the shared epochs; the steps of the threads and of the
    advancer interleave in any order.  What the transactions do with the memory is
    abstract: an object is allocated and linked into a structure, a running
    transaction can get hold of a linked object and keeps it until it ends, can
    unlink an object and then gives it to [rcu_delete].  [None] is an object freed
    twice or a failed assertion. *)

From Stdlib Require Import FunctionalExtensionality.
From stdpp Require Import functions.
From S2P Require Import Prelude Rcu.

Definition MAX_THREADS : Z := 128.

(** Where a thread is in [start]: the value it has loaded, or what it has stored. *)
Inductive txn_pc := Idle | LoadedW (g : Z) | StoredW | LoadedR (r : Z) | StoredR | LoadedA (a : Z) | Running.
Record threadinfo_t := {
  write_snapshot_epoch : Z; epoch : Z; rcu_set : TRcuSet; pc : txn_pc; held : gset Z; unlinked : list Z }.

(** Where the advancer is in its loop; in [Scan] it has looked at the threads before
    [i], and at [write_snapshot_epoch] of thread [i] if [half]. *)
Inductive adv_pc :=
  | Sleep
  | LoadedGe (ge : Z)
  | LoadedRe (ge re : Z)
  | Scan (ge re ae i : Z) (half : bool)
  | StoredGlobal (re ae : Z)
  | StoredRead (ae : Z).

Inductive object := Linked | Unlinked | Freed.
#[export] Instance object_eq : EqDecision object.
Proof. solve_decision. Defined.

Record epochs := {
  global_epoch : Z; read_epoch : Z; active_epoch : Z; adv : adv_pc;
  tinfo : Z -> threadinfo_t; objects : gmap Z object }.

#[export] Instance eta_thr : Eta threadinfo_t := fun t => {|
  write_snapshot_epoch := write_snapshot_epoch t; epoch := epoch t; rcu_set := rcu_set t; pc := pc t; held := held t;
  unlinked := unlinked t |}.
#[export] Instance eta_epochs : Eta epochs := fun s => {|
  global_epoch := global_epoch s; read_epoch := read_epoch s; active_epoch := active_epoch s; adv := adv s;
  tinfo := tinfo s; objects := objects s |}.

(** [tinfo] is static, so its fields are 0. *)
Definition thread_new : threadinfo_t := {|
  write_snapshot_epoch := 0; epoch := 0; rcu_set := set_new; pc := Idle; held := ∅; unlinked := [] |}.
Definition epochs_new : epochs := {|
  global_epoch := 2; read_epoch := 1; active_epoch := 0; adv := Sleep; tinfo := fun _ => thread_new; objects := ∅ |}.

Definition set_thread (t : Z) (thr : threadinfo_t) (s : epochs) : epochs := s <| tinfo := <[t := thr]> (tinfo s) |>.

(** [rcu_delete_cb], the only callback here. *)
Definition rcu_delete_cb : Z := 1.

(** The callbacks that [clean_until] runs free their objects. *)
Fixpoint free_all (out : list (Z * Z)) (m : gmap Z object) : option (gmap Z object) :=
  match out with
  | [] => Some m
  | (_, o) :: out => match m !! o with Some Unlinked => free_all out (<[o := Freed]> m) | _ => None end
  end.

(** The next access of [start].  A thread whose [write_snapshot_epoch] is still 0
    loads the global epoch and stores it in one step unless [split]. *)
Definition start (split : bool) (t : Z) (s : epochs) : option epochs :=
  let thr := tinfo s t in
  match pc thr with
  | Idle =>
      let g := global_epoch s in
      if negb split && (write_snapshot_epoch thr =? 0)
      then Some (set_thread t (thr <| write_snapshot_epoch := g |> <| pc := StoredW |>) s)
      else Some (set_thread t (thr <| pc := LoadedW g |>) s)
  | LoadedW g => Some (set_thread t (thr <| write_snapshot_epoch := g |> <| pc := StoredW |>) s)
  | StoredW => Some (set_thread t (thr <| pc := LoadedR (read_epoch s) |>) s)
  | LoadedR r => Some (set_thread t (thr <| epoch := r |> <| pc := StoredR |>) s)
  | StoredR => Some (set_thread t (thr <| pc := LoadedA (active_epoch s) |>) s)
  | LoadedA a =>
      '(rs, out) ← set_clean_until a (rcu_set thr);
      m ← free_all out (objects s);
      Some ((set_thread t (thr <| rcu_set := rs |> <| pc := Running |>) s) <| objects := m |>)
  | Running => Some s
  end.

(** The next access of [epoch_advancer]. *)
Definition epoch_advancer (s : epochs) : epochs :=
  match adv s with
  | Sleep => s <| adv := LoadedGe (global_epoch s) |>
  | LoadedGe ge => s <| adv := LoadedRe ge (global_epoch s) |>
  | LoadedRe ge re => s <| adv := Scan ge re (read_epoch s) 0 false |>
  | Scan ge re ae i half =>
      if i <? MAX_THREADS then
        if half then
          let trepoch := epoch (tinfo s i) in
          let ae := if negb (trepoch =? 0) && (s64 (trepoch - ae) <? 0) then trepoch else ae in
          s <| adv := Scan ge re ae (i + 1) false |>
        else
          let twepoch := write_snapshot_epoch (tinfo s i) in
          let re := if negb (twepoch =? 0) && (s64 (twepoch - re) <? 0) then twepoch else re in
          s <| adv := Scan ge re ae i true |>
      else s <| global_epoch := Z.max (u64 (ge + 1)) 1 |> <| adv := StoredGlobal re ae |>
  | StoredGlobal re ae => s <| read_epoch := re |> <| adv := StoredRead ae |>
  | StoredRead ae => s <| active_epoch := ae |> <| adv := Sleep |>
  end.

(** [rcu_delete] of the object that was unlinked last. *)
Definition rcu_delete (t : Z) (s : epochs) : option epochs :=
  let thr := tinfo s t in
  match unlinked thr with
  | [] => Some s
  | o :: l =>
      rs ← set_add (write_snapshot_epoch thr) rcu_delete_cb o (rcu_set thr);
      Some (set_thread t (thr <| rcu_set := rs |> <| unlinked := l |>) s)
  end.

Inductive eaction := Start (t : Z) | New (o : Z) | Acquire (t o : Z) | Unlink (t o : Z) | RcuDelete (t : Z) | Stop (t : Z) | Advance.

(** Only threads in a transaction use objects.  An address can be allocated again
    when it has been freed.  A transaction ends when it has deleted what it unlinked. *)
Definition estep (split : bool) (a : eaction) (s : epochs) : option epochs :=
  let running t := match pc (tinfo s t) with Running => true | _ => false end in
  match a with
  | Start t => if (0 <=? t) && (t <? MAX_THREADS) then start split t s else Some s
  | New o =>
      match objects s !! o with
      | Some Linked | Some Unlinked => Some s
      | _ => Some (s <| objects := <[o := Linked]> (objects s) |>)
      end
  | Acquire t o =>
      match objects s !! o with
      | Some Linked => if running t then Some (set_thread t ((tinfo s t) <| held := {[o]} ∪ held (tinfo s t) |>) s) else Some s
      | _ => Some s
      end
  | Unlink t o =>
      match objects s !! o with
      | Some Linked =>
          if running t then
            Some ((set_thread t ((tinfo s t) <| unlinked := o :: unlinked (tinfo s t) |>) s) <| objects := <[o := Unlinked]> (objects s) |>)
          else Some s
      | _ => Some s
      end
  | RcuDelete t => if running t then rcu_delete t s else Some s
  | Stop t =>
      match unlinked (tinfo s t) with
      | [] => if running t then Some (set_thread t ((tinfo s t) <| pc := Idle |> <| held := ∅ |>) s) else Some s
      | _ => Some s
      end
  | Advance => Some (epoch_advancer s)
  end.

Fixpoint erun (split : bool) (l : list eaction) (s : epochs) : option epochs :=
  match l with [] => Some s | a :: l => s ← estep split a s; erun split l s end.

(** * The end of the program *)

(** The body of the inner loop of [rcu_release_all]; the flag is [more]. *)
Definition release_thread (wse ae i : Z) (x : epochs * bool) : option (epochs * bool) :=
  let '(s, more) := x in
  let thr := tinfo s i in
  '(rs, out) ← set_clean_until ae (rcu_set thr);
  m ← free_all out (objects s);
  Some ((set_thread i (thr <| write_snapshot_epoch := wse |> <| rcu_set := rs |>) s) <| objects := m |>, more || negb (set_empty rs)).

Fixpoint release_loop (fuel : nat) (num_work_threads wse : Z) (s : epochs) : option epochs :=
  match fuel with
  | O => None
  | S fuel =>
      let ae := active_epoch s in
      '(s, more) ← for_opt 0 num_work_threads (release_thread wse ae) (s, false);
      let s := s <| active_epoch := u64 (ae + 1) |> in
      if more : bool then release_loop fuel num_work_threads (u64 (wse + 1)) s else Some s
  end.

(** The advancer has been joined, so it sleeps. *)
Definition rcu_release_all (fuel : nat) (num_work_threads : Z) (s : epochs) : option epochs :=
  let wse := for_range 1 num_work_threads (fun i wse => Z.max wse (write_snapshot_epoch (tinfo s i)))
               (u64 (write_snapshot_epoch (tinfo s 0) + 1)) in
  if active_epoch s <? wse then release_loop fuel num_work_threads wse s else None.

(** * The invariant *)

Definition scanned (i : Z) (half : bool) (t : Z) : Prop := t < i \/ t = i /\ half = true.
(** [re] is not after the epoch in which thread [t] writes. *)
Definition bounds_writer (s : epochs) (re t : Z) : Prop :=
  write_snapshot_epoch (tinfo s t) <> 0 -> re <= write_snapshot_epoch (tinfo s t).

Definition adv_ok (s : epochs) : Prop :=
  match adv s with
  | Sleep => True
  | LoadedGe ge => ge = global_epoch s
  | LoadedRe ge re => ge = global_epoch s /\ re = global_epoch s
  | Scan ge re ae i half => ge = global_epoch s /\ read_epoch s <= re <= global_epoch s /\ 0 <= ae <= read_epoch s /\
      forall t, scanned i half t -> bounds_writer s re t
  | StoredGlobal re ae => read_epoch s <= re <= global_epoch s /\ 0 <= ae <= read_epoch s /\ forall t, bounds_writer s re t
  | StoredRead ae => 0 <= ae <= read_epoch s
  end.

(** As long as the thread [A] runs, the active epoch does not pass [e]. *)
Definition limit (s : epochs) (A e : Z) : Prop :=
  active_epoch s <= e /\ epoch (tinfo s A) <= e /\
  match adv s with
  | Scan _ _ ae i _ => A < i -> ae <= e
  | StoredGlobal _ ae | StoredRead ae => ae <= e
  | _ => True
  end.

Record thread_ok (re ge t : Z) (thr : threadinfo_t) : Prop := {
  to_range : write_snapshot_epoch thr <> 0 \/ pc thr <> Idle -> 0 <= t < MAX_THREADS;
  to_w : write_snapshot_epoch thr = 0 \/ re <= write_snapshot_epoch thr <= ge;
  to_r : 0 <= epoch thr <= re;
  to_pc : match pc thr with
          | Idle => True
          | LoadedW g => write_snapshot_epoch thr <> 0 /\ write_snapshot_epoch thr <= g <= ge
          | StoredW => write_snapshot_epoch thr <> 0
          | LoadedR r => write_snapshot_epoch thr <> 0 /\ 1 <= r <= re
          | StoredR | Running => write_snapshot_epoch thr <> 0 /\ epoch thr <> 0
          | LoadedA a => write_snapshot_epoch thr <> 0 /\ epoch thr <> 0 /\ 0 <= a <= ge
          end;
  to_idle : pc thr = Running \/ held thr = ∅ /\ unlinked thr = [] }.

(** What a thread has unlinked and nobody has freed. *)
Definition limbo (thr : threadinfo_t) (q : list pending) : list Z := unlinked thr ++ (p_argument <$> q).

Record queue_ok (ge : Z) (m : gmap Z object) (thr : threadinfo_t) (q : list pending) : Prop := {
  qo_set : holds_set (rcu_set thr) q;
  qo_epochs : Forall (fun p => 0 <= p_epoch p <= ge) q;
  qo_unlinked o : o ∈ limbo thr q -> m !! o = Some Unlinked;
  qo_nodup : NoDup (limbo thr q);
  qo_writer : q = [] \/ write_snapshot_epoch thr <> 0 }.

(** [Q] has the callbacks of each thread. *)
Record einv (n : Z) (s : epochs) (Q : Z -> list pending) : Prop := {
  ei_order : 0 <= active_epoch s <= read_epoch s /\ 1 <= read_epoch s <= global_epoch s /\ 2 <= global_epoch s <= n;
  ei_adv : adv_ok s;
  ei_thread t : thread_ok (read_epoch s) (global_epoch s) t (tinfo s t);
  ei_queue t : queue_ok (global_epoch s) (objects s) (tinfo s t) (Q t);
  ei_apart t t' o : o ∈ limbo (tinfo s t) (Q t) -> o ∈ limbo (tinfo s t') (Q t') -> t = t';
  ei_limbo o : objects s !! o = Some Unlinked -> exists t, o ∈ limbo (tinfo s t) (Q t);
  ei_held A o : o ∈ held (tinfo s A) -> objects s !! o = Some Linked \/ objects s !! o = Some Unlinked;
  ei_clean t a p A : pc (tinfo s t) = LoadedA a -> p ∈ Q t -> p_argument p ∈ held (tinfo s A) -> a <= p_epoch p;
  ei_safe A D p : p ∈ Q D -> p_argument p ∈ held (tinfo s A) -> limit s A (p_epoch p) }.

Lemma s64_small z : - 2 ^ 63 <= z < 2 ^ 63 -> s64 z = z.
Proof. intros Hz. unfold s64. rewrite Z.mod_small; lia. Qed.

Lemma set_thread_same t thr s : tinfo (set_thread t thr s) t = thr.
Proof. cbn. by rewrite fn_lookup_insert. Qed.
Lemma set_thread_other t t' thr s : t' <> t -> tinfo (set_thread t thr s) t' = tinfo s t'.
Proof. intros Hne. cbn. by rewrite fn_lookup_insert_ne. Qed.

Lemma einv_new : einv 2 epochs_new (fun _ => []).
Proof.
  split; cbn; try done; try lia.
  - intros t. split; cbn; try done; try lia; [|by right]. by intros [?|?].
  - intros t. split; cbn; [apply new_holds|constructor| |constructor|by left]. intros o Ho. by apply not_elem_of_nil in Ho.
  - intros t t' o Ho. by apply not_elem_of_nil in Ho.
Qed.

(** Callbacks that may run free their objects, each once. *)
Lemma free_all_ok out : forall m, NoDup (snd <$> out) -> (forall o, o ∈ snd <$> out -> m !! o = Some Unlinked) ->
  exists m', free_all out m = Some m' /\ forall o, m' !! o = if decide (o ∈ snd <$> out) then Some Freed else m !! o.
Proof.
  induction out as [|[f o] out IH]; intros m Hd Hu; cbn [free_all].
  - exists m. split; [done|]. intros o. by rewrite decide_False by apply not_elem_of_nil.
  - cbn [fmap list_fmap snd] in *. apply NoDup_cons in Hd as [Hn' Hd]. rewrite (Hu o) by left.
    destruct (IH (<[o := Freed]> m) Hd) as (m' & -> & Hm').
    { intros o' Ho'. rewrite lookup_insert_ne by (intros ->; done). apply Hu. by right. }
    exists m'. split; [done|]. intros o'. rewrite Hm'. destruct (decide (o' = o)) as [->|Hne].
    + rewrite decide_False by done. rewrite lookup_insert_eq, decide_True by left. done.
    + rewrite lookup_insert_ne by done. apply decide_ext. rewrite elem_of_cons. naive_solver.
Qed.

Lemma due_before m p : 0 <= m < 2 ^ 62 -> 0 <= p_epoch p < 2 ^ 62 -> due m p = (p_epoch p <? m).
Proof. intros Hm Hp. unfold due. rewrite s64_small by lia. destruct (Z.ltb_spec (p_epoch p) m), (Z.ltb_spec 0 (m - p_epoch p)); lia || done. Qed.

Lemma expired_due m (q : list pending) p : p ∈ expired m q -> due m p = true.
Proof.
  induction q as [|p' q IH]; cbn; [by intros ?%not_elem_of_nil|]. destruct (due m p') eqn:E; [|by intros ?%not_elem_of_nil].
  intros [->|Hin]%elem_of_cons; [done|by apply IH].
Qed.

(** [clean_until] takes a part [E] of the queue, which was due, and frees it. *)
Lemma clean_frees ge m thr q a : queue_ok ge m thr q -> unlinked thr = [] -> 0 <= a < 2 ^ 62 -> ge < 2 ^ 62 ->
  exists rs E W m', set_clean_until a (rcu_set thr) = Some (rs, callback <$> E) /\ free_all (callback <$> E) m = Some m' /\
    q = E ++ W /\ holds_set rs W /\ clean_epoch_ rs = a /\ (forall p, p ∈ E -> p_epoch p < a) /\
    (clean_epoch_ (rcu_set thr) <> a -> (forall p, p ∈ q -> p_epoch p < a) -> W = []) /\
    (forall o, m' !! o = if decide (o ∈ p_argument <$> E) then Some Freed else m !! o) /\
    (forall o, o ∈ p_argument <$> W -> o ∉ p_argument <$> E).
Proof.
  intros [QS QE QU QN _] Hu Ha Hge. unfold limbo in QU, QN. rewrite Hu in QU, QN. cbn [app] in QU, QN.
  assert (forall p, p ∈ q -> due a p = (p_epoch p <? a)) as Hdue.
  { intros p Hp. rewrite Forall_forall in QE. specialize (QE p Hp). apply due_before; lia. }
  destruct (set_clean_ok a _ _ QS) as (rs & Ers & Hce & Hrs).
  assert (exists E W, set_clean_until a (rcu_set thr) = Some (rs, callback <$> E) /\ q = E ++ W /\ holds_set rs W /\
    (forall p, p ∈ E -> p_epoch p < a) /\ (clean_epoch_ (rcu_set thr) <> a -> (forall p, p ∈ q -> p_epoch p < a) -> W = []))
    as (E & W & Ec & HEW & HW & HE & Hall).
  { rewrite Ers. destruct (Z.eqb_spec (clean_epoch_ (rcu_set thr)) a).
    - exists [], q. split_and!; [done|done|done|by intros p ?%not_elem_of_nil|done].
    - exists (expired a q), (waiting a q). split_and!; [done|by rewrite expired_waiting|done| |].
      + intros p Hp. apply Z.ltb_lt. rewrite <-Hdue; [by apply expired_due in Hp|]. rewrite <-(expired_waiting a q). apply elem_of_app. by left.
      + intros _ Hq. apply expired_all. apply forallb_forall. intros p Hp%list_elem_of_In. rewrite Hdue by done. by apply Z.ltb_lt, Hq. }
  assert (snd <$> (callback <$> E) = p_argument <$> E) as HsE by (rewrite <-list_fmap_compose; done).
  rewrite HEW, fmap_app in QN, QU. apply NoDup_app in QN as (NE & NX & NW).
  destruct (free_all_ok (callback <$> E) m) as (m' & Em & Hm).
  { by rewrite HsE. } { intros o Hin. rewrite HsE in Hin. apply QU, elem_of_app. by left. }
  rewrite HsE in Hm. exists rs, E, W, m'. split_and!; try done. intros o HoW HoE. by eapply NX.
Qed.

Section step.
Context (n : Z) (s : epochs) (Q : Z -> list pending) (I : einv n s Q) (Hn : n + 1 < 2 ^ 62).
#[local] Set Default Proof Using "Type*".

(** An access of [start] that only changes epochs of thread [t]. *)
Lemma start_local t thr :
  0 <= t < MAX_THREADS -> held (tinfo s t) = ∅ -> held thr = ∅ -> unlinked thr = unlinked (tinfo s t) ->
  rcu_set thr = rcu_set (tinfo s t) ->
  (write_snapshot_epoch thr = global_epoch s \/
   write_snapshot_epoch (tinfo s t) <> 0 /\ write_snapshot_epoch (tinfo s t) <= write_snapshot_epoch thr \/
   write_snapshot_epoch thr = write_snapshot_epoch (tinfo s t)) ->
  (forall a, pc thr = LoadedA a -> a = active_epoch s) -> thread_ok (read_epoch s) (global_epoch s) t thr ->
  einv n (set_thread t thr s) Q.
Proof.
  intros Ht Hh Hh' Hu Hrs Hw Ha Hok. pose proof (ei_order _ _ _ I) as Ho.
  assert (forall re t', re <= global_epoch s -> bounds_writer s re t' -> bounds_writer (set_thread t thr s) re t') as Hbw.
  { intros re t' Hre Hb. unfold bounds_writer in *. destruct (decide (t' = t)) as [->|Hne].
    - rewrite set_thread_same. intros Hnz. destruct Hw as [->|[[? ?]|Heq]]; [done|specialize (Hb ltac:(done)); lia|]. rewrite Heq in *. by apply Hb.
    - by rewrite set_thread_other. }
  assert (forall t', unlinked (tinfo (set_thread t thr s) t') = unlinked (tinfo s t')) as Hunl.
  { intros t'. destruct (decide (t' = t)) as [->|Hne]; [by rewrite set_thread_same|by rewrite set_thread_other]. }
  split.
  - exact Ho.
  - pose proof (ei_adv _ _ _ I) as Hadv. unfold adv_ok in *. cbn [adv set_thread set_field global_epoch read_epoch]. destruct (adv s); try done.
    + destruct Hadv as (-> & ? & ? & Hb). split_and!; try done; try lia. intros t' Hs. apply Hbw; [lia|by apply Hb].
    + destruct Hadv as (? & ? & Hb). split_and!; try done; try lia. intros t'. apply Hbw; [lia|by apply Hb].
  - intros t'. destruct (decide (t' = t)) as [->|Hne]; [rewrite set_thread_same|rewrite set_thread_other by done; apply (ei_thread _ _ _ I)]. exact Hok.
  - intros t'. destruct (decide (t' = t)) as [->|Hne]; [rewrite set_thread_same|rewrite set_thread_other by done; apply (ei_queue _ _ _ I)].
    destruct (ei_queue _ _ _ I t) as [H1 H2 H3 H4 H5]. split; unfold limbo in *; rewrite ?Hrs, ?Hu; try done.
    destruct H5 as [?|H5]; [by left|right]. destruct Hw as [->|[[_ Hle]| ->]]; [lia| |done].
    destruct (to_w _ _ _ _ (ei_thread _ _ _ I t)); lia.
  - intros t1 t2 o. unfold limbo. rewrite !Hunl. apply (ei_apart _ _ _ I).
  - intros o. unfold limbo. setoid_rewrite Hunl. apply (ei_limbo _ _ _ I).
  - intros A o. destruct (decide (A = t)) as [->|Hne]; [rewrite set_thread_same, Hh'; set_solver|rewrite set_thread_other by done].
    apply (ei_held _ _ _ I).
  - intros t' a p A Hpc Hp HA. destruct (decide (A = t)) as [->|HneA]; [rewrite set_thread_same, Hh' in HA; set_solver|].
    rewrite set_thread_other in HA by done. destruct (decide (t' = t)) as [->|Hne].
    + rewrite set_thread_same in Hpc. rewrite (Ha a Hpc). by apply (ei_safe _ _ _ I A t p).
    + rewrite set_thread_other in Hpc by done. by eapply (ei_clean _ _ _ I).
  - intros A D p Hp HA. destruct (decide (A = t)) as [->|HneA]; [rewrite set_thread_same, Hh' in HA; set_solver|].
    rewrite set_thread_other in HA by done. unfold limit. rewrite set_thread_other by done. by apply (ei_safe _ _ _ I A D p).
Qed.

(** A step of thread [t] that leaves its epochs: it may free objects of its queue
    that nobody holds, unlink an object, register one, get hold of a linked one or end. *)
Lemma thread_step t thr m q :
  write_snapshot_epoch thr = write_snapshot_epoch (tinfo s t) -> epoch thr = epoch (tinfo s t) ->
  (forall a, pc thr <> LoadedA a) -> thread_ok (read_epoch s) (global_epoch s) t thr -> queue_ok (global_epoch s) m thr q ->
  (forall o, o ∈ limbo thr q -> o ∈ limbo (tinfo s t) (Q t) \/ objects s !! o = Some Linked) ->
  (forall o, m !! o = Some Unlinked -> o ∈ limbo thr q \/ objects s !! o = Some Unlinked /\ o ∉ limbo (tinfo s t) (Q t)) ->
  (forall t' o, t' <> t -> o ∈ limbo (tinfo s t') (Q t') -> m !! o = Some Unlinked) ->
  (forall A o, o ∈ held (tinfo s A) \/ o ∈ held thr -> m !! o = Some Linked \/ m !! o = Some Unlinked) ->
  (forall p, p ∈ q -> p ∈ Q t \/ forall A, limit s A (p_epoch p)) ->
  (forall o, o ∈ held thr -> o ∈ held (tinfo s t) \/ objects s !! o = Some Linked) ->
  einv n ((set_thread t thr s) <| objects := m |>) (<[t := q]> Q).
Proof.
  intros Hw Hr Hpc Hok Hq Hlimbo Hkept Hothers Hheld Hsafe Hacq. pose proof (ei_order _ _ _ I) as Ho.
  assert (forall t', <[t := q]> Q t' = if decide (t' = t) then q else Q t') as HQ.
  { intros t'. case_decide; [subst; by rewrite fn_lookup_insert|by rewrite fn_lookup_insert_ne]. }
  assert (forall t', tinfo (set_thread t thr s) t' = if decide (t' = t) then thr else tinfo s t') as HT.
  { intros t'. case_decide; [subst; apply set_thread_same|by apply set_thread_other]. }
  assert (forall t' p, p ∈ Q t' -> objects s !! p_argument p = Some Unlinked) as Hun.
  { intros t' p Hp. apply (qo_unlinked _ _ _ _ (ei_queue _ _ _ I t')). apply elem_of_app. right. by apply list_elem_of_fmap_2. }
  assert (forall A o t', o ∈ held (if decide (A = t) then thr else tinfo s A) -> o ∈ limbo (tinfo s t') (Q t') -> o ∈ held (tinfo s A)) as Hold.
  { intros A o t' HA Hl. case_decide; [subst|done]. destruct (Hacq o HA) as [?|HL]; [done|].
    rewrite (qo_unlinked _ _ _ _ (ei_queue _ _ _ I t') o Hl) in HL. done. }
  assert (forall t' p, p ∈ Q t' -> p_argument p ∈ limbo (tinfo s t') (Q t')) as Hin.
  { intros t' p Hp. apply elem_of_app. right. by apply list_elem_of_fmap_2. }
  assert (forall t' o, o ∈ limbo (if decide (t' = t) then thr else tinfo s t') (if decide (t' = t) then q else Q t') ->
    o ∈ limbo (tinfo s t') (Q t') \/ t' = t /\ objects s !! o = Some Linked) as Hlm.
  { intros t' o. case_decide; [subst|by left]. intros Hl%Hlimbo. naive_solver. }
  split; cbn [global_epoch read_epoch active_epoch objects set_field]; try setoid_rewrite HQ; try setoid_rewrite HT.
  - exact Ho.
  - pose proof (ei_adv _ _ _ I) as Hadv. unfold adv_ok, bounds_writer in *. cbn [adv set_field set_thread global_epoch read_epoch] in *.
    assert (forall t', write_snapshot_epoch (tinfo (set_thread t thr s) t') = write_snapshot_epoch (tinfo s t')) as HX.
    { intros t'. rewrite HT. by case_decide; subst. }
    cbn [tinfo set_field set_thread] in *. destruct (adv s); try done; setoid_rewrite HX; done.
  - intros t'. case_decide; [by subst|apply (ei_thread _ _ _ I)].
  - intros t'. case_decide; [by subst|]. destruct (ei_queue _ _ _ I t') as [H1 H2 H3 H4 H5]. split; [done|done| |done|done].
    intros o Hl. by eapply Hothers.
  - intros t1 t2 o [H1|[-> HL1]]%Hlm [H2|[-> HL2]]%Hlm; [by eapply (ei_apart _ _ _ I)|..|done].
    + rewrite (qo_unlinked _ _ _ _ (ei_queue _ _ _ I t1) o H1) in HL2. done.
    + rewrite (qo_unlinked _ _ _ _ (ei_queue _ _ _ I t2) o H2) in HL1. done.
  - intros o Ho'. destruct (Hkept o Ho') as [Hl|[Hu Hnl]]; [exists t; by rewrite !decide_True|].
    destruct (ei_limbo _ _ _ I o Hu) as [t' Hl]. exists t'. rewrite !decide_False by (intros ->; done). done.
  - intros A o HA. apply (Hheld A). case_decide; [by right|by left].
  - intros t' a p A. destruct (decide (t' = t)) as [->|]; [intros HX; by destruct (Hpc a)|]. intros Hp' Hp HA.
    eapply (ei_clean _ _ _ I); [done|done|]. eapply Hold; [done|by apply Hin].
  - intros A D p Hp HA.
    assert (limit s A (p_epoch p)) as HL.
    { revert Hp. destruct (decide (D = t)) as [->|]; [intros Hp|intros Hp; eapply (ei_safe _ _ _ I); [done|eapply Hold; [done|by apply Hin]]].
      destruct (Hsafe p Hp) as [Hp'|Hall]; [|by apply Hall]. eapply (ei_safe _ _ _ I); [done|eapply Hold; [done|by apply Hin]]. }
    unfold limit in *. cbn [tinfo set_field active_epoch adv]. rewrite HT. case_decide; [subst; by rewrite Hr|done].
Qed.

(** The end of [start]: what is due is freed, and nobody holds it. *)
Lemma clean_inv split t a :
  pc (tinfo s t) = LoadedA a -> exists s' Q', start split t s = Some s' /\ einv n s' Q'.
Proof.
  intros Hpc. destruct (ei_thread _ _ _ I t) as [T1 T2 T3 T4 T5]. rewrite Hpc in T4.
  destruct T4 as (Hw & Hr & Ha). destruct T5 as [?|[Hheld Hunl]]; [congruence|].
  pose proof (ei_order _ _ _ I) as Hord. pose proof (ei_queue _ _ _ I t) as Hq.
  destruct (clean_frees _ _ _ _ a Hq Hunl) as (rs & E & W & m & Ec & Ef & HEW & HW & _ & HE & _ & Hm & HX); [lia|lia|].
  destruct Hq as [_ QE QU QN _]. unfold limbo in QU, QN. rewrite Hunl, HEW, fmap_app in QU, QN. cbn [app] in QU, QN.
  apply NoDup_app in QN as (_ & _ & NW). rewrite HEW in QE. apply Forall_app in QE as [_ QE].
  unfold start. rewrite Hpc, Ec. cbn [mbind option_bind]. rewrite Ef. cbn [mbind option_bind]. do 2 eexists. split; [done|].
  apply (thread_step t _ m W); cbn; try done.
  - split; cbn; try done; [intros _; apply T1; by left|by left].
  - split; cbn; [exact HW|exact QE| | |by right]; unfold limbo; cbn; rewrite Hunl; cbn; [|done].
    intros o Hin. rewrite Hm, decide_False by (by apply HX). apply QU, elem_of_app. by right.
  - unfold limbo. cbn. rewrite Hunl, HEW, fmap_app. intros o Ho. left. cbn in *. apply elem_of_app. by right.
  - intros o. rewrite Hm. case_decide as HoE; [done|]. intros Hou. unfold limbo. cbn. rewrite Hunl, HEW, fmap_app. cbn. rewrite elem_of_app.
    destruct (decide (o ∈ p_argument <$> W)); [by left|right; split; [done|]]. by intros [?|?].
  - intros t' o Hne Hl. rewrite Hm, decide_False; [by apply (qo_unlinked _ _ _ _ (ei_queue _ _ _ I t'))|].
    intros HoE. apply Hne. eapply (ei_apart _ _ _ I); [exact Hl|]. unfold limbo. rewrite Hunl, HEW, fmap_app. cbn. apply elem_of_app. by left.
  - intros A o [HA|HA]; [|rewrite Hheld in HA; set_solver]. rewrite Hm, decide_False; [by eapply (ei_held _ _ _ I)|].
    intros (p & -> & Hp)%list_elem_of_fmap. pose proof (HE p Hp).
    assert (p ∈ Q t) as Hpq by (rewrite HEW; apply elem_of_app; by left). pose proof (ei_clean _ _ _ I t a p A Hpc Hpq HA). lia.
  - intros p Hp. left. rewrite HEW. apply elem_of_app. by right.
  - intros o Ho. by left.
Qed.

(** What a running transaction registers cannot be freed while one runs that may hold it. *)
Lemma writer_limit t A : write_snapshot_epoch (tinfo s t) <> 0 -> limit s A (write_snapshot_epoch (tinfo s t)).
Proof.
  intros Hw. pose proof (ei_order _ _ _ I) as Ho. destruct (to_w _ _ _ _ (ei_thread _ _ _ I t)) as [?|Ht]; [done|].
  pose proof (to_r _ _ _ _ (ei_thread _ _ _ I A)) as HA. pose proof (ei_adv _ _ _ I) as Hadv. unfold limit, adv_ok in *.
  split_and!; [lia|lia|]. destruct (adv s); try done.
  - intros _. destruct Hadv as (_ & _ & ? & _). lia.
  - destruct Hadv as (_ & ? & _). lia.
  - lia.
Qed.

(** The operations of a running transaction. *)
Lemma running_range t : pc (tinfo s t) = Running ->
  write_snapshot_epoch (tinfo s t) <> 0 /\ epoch (tinfo s t) <> 0 /\ 0 <= t < MAX_THREADS.
Proof.
  intros Hpc. destruct (ei_thread _ _ _ I t) as [T1 T2 T3 T4 T5]. rewrite Hpc in T4. destruct T4. split_and!; try done; by apply T1; left.
Qed.

Lemma acquire_inv t o : objects s !! o = Some Linked -> pc (tinfo s t) = Running ->
  einv n ((set_thread t ((tinfo s t) <| held := {[o]} ∪ held (tinfo s t) |>) s) <| objects := objects s |>) (<[t := Q t]> Q).
Proof.
  intros Ho Hpc. destruct (running_range t Hpc) as (Hw & Hr & Ht). destruct (ei_thread _ _ _ I t) as [T1 T2 T3 T4 T5].
  apply thread_step; try done; cbn.
  - intros a. by rewrite Hpc.
  - split; cbn; try done; by rewrite Hpc; left.
  - by destruct (ei_queue _ _ _ I t).
  - by left.
  - intros o' Ho'. destruct (decide (o' ∈ limbo (tinfo s t) (Q t))); [by left|by right].
  - intros t' o' _ Hl. by apply (qo_unlinked _ _ _ _ (ei_queue _ _ _ I t')).
  - intros A o'. rewrite elem_of_union, elem_of_singleton. intros [HA|[->|HA]]; [by eapply (ei_held _ _ _ I)|by left|by eapply (ei_held _ _ _ I)].
  - by left.
  - intros o'. rewrite elem_of_union, elem_of_singleton. intros [->|?]; [by right|by left].
Qed.

Lemma unlink_inv t o : objects s !! o = Some Linked -> pc (tinfo s t) = Running ->
  einv n ((set_thread t ((tinfo s t) <| unlinked := o :: unlinked (tinfo s t) |>) s) <| objects := <[o := Unlinked]> (objects s) |>) (<[t := Q t]> Q).
Proof.
  intros Ho Hpc. destruct (running_range t Hpc) as (Hw & Hr & Ht). destruct (ei_thread _ _ _ I t) as [T1 T2 T3 T4 T5].
  destruct (ei_queue _ _ _ I t) as [Q1 Q2 Q3 Q4 Q5]. apply thread_step; try done; cbn.
  - intros a. by rewrite Hpc.
  - split; cbn; try done; by rewrite Hpc; left.
  - split; [done|done| | |done].
    + intros o' [->|Hl]%elem_of_cons; [by rewrite lookup_insert_eq|]. specialize (Q3 o' Hl). rewrite lookup_insert_ne; [done|]. intros ->. congruence.
    + apply NoDup_cons. split; [|done]. intros Hl%Q3. congruence.
  - intros o' [->|Hl]%elem_of_cons; [by right|by left].
  - intros o' [[<- _]|[Hne Ho']]%lookup_insert_Some; [left; left|]. destruct (decide (o' ∈ limbo (tinfo s t) (Q t))); [by left; right|by right].
  - intros t' o' _ Hl. pose proof (qo_unlinked _ _ _ _ (ei_queue _ _ _ I t') o' Hl). rewrite lookup_insert_ne; [done|]. intros ->. congruence.
  - intros A o' HA. destruct (decide (o' = o)) as [->|Hne]; [rewrite lookup_insert_eq; by right|rewrite lookup_insert_ne by done].
    destruct HA as [HA|HA]; by eapply (ei_held _ _ _ I).
  - by left.
  - by left.
Qed.

Lemma delete_inv t : pc (tinfo s t) = Running -> exists s' Q', rcu_delete t s = Some s' /\ einv n s' Q'.
Proof.
  intros Hpc. destruct (running_range t Hpc) as (Hw & Hr & Ht). destruct (ei_thread _ _ _ I t) as [T1 T2 T3 T4 T5].
  destruct (ei_queue _ _ _ I t) as [Q1 Q2 Q3 Q4 Q5]. unfold rcu_delete. destruct (unlinked (tinfo s t)) as [|o l] eqn:Hu; [by exists s, Q|].
  destruct (set_add_ok (write_snapshot_epoch (tinfo s t)) rcu_delete_cb o _ _ Q1) as (rs & -> & _ & Hrs); [done|].
  cbn [mbind option_bind]. set (p := in_block _ _) in Hrs. do 2 eexists. split; [done|].
  unfold limbo in Q3, Q4. rewrite Hu in Q3, Q4.
  assert (l ++ (p_argument <$> Q t ++ [p]) ≡ₚ o :: l ++ (p_argument <$> Q t)) as Hperm.
  { rewrite fmap_app, app_assoc. cbn. by rewrite <-Permutation_cons_append. }
  replace (set_thread t _ s) with ((set_thread t ((tinfo s t) <| rcu_set := rs |> <| unlinked := l |>) s) <| objects := objects s |>) by done.
  apply (thread_step t _ _ (Q t ++ [p])); try done; cbn.
  - intros a. by rewrite Hpc.
  - split; cbn; try done; by rewrite Hpc; left.
  - split; cbn; [done| | | |by right].
    + apply Forall_app. split; [done|]. apply Forall_singleton. cbn. pose proof (ei_order _ _ _ I). destruct T2; [done|]. lia.
    + unfold limbo. cbn. intros o' Ho'. rewrite Hperm in Ho'. by apply Q3.
    + unfold limbo. cbn. by rewrite Hperm.
  - unfold limbo. cbn. intros o' Ho'. left. rewrite Hperm in Ho'. by rewrite Hu.
  - unfold limbo. cbn. intros o' Ho'. rewrite Hperm, Hu. cbn. destruct (decide (o' ∈ o :: l ++ (p_argument <$> Q t))); [by left|by right].
  - intros t' o' _ Hl. by apply (qo_unlinked _ _ _ _ (ei_queue _ _ _ I t')).
  - intros A o' [HA|HA]; by eapply (ei_held _ _ _ I).
  - intros p' [Hp'|Hp']%elem_of_app; [by left|right]. apply list_elem_of_singleton in Hp' as ->. intros A. by apply writer_limit.
  - by left.
Qed.

Lemma finish_inv t : pc (tinfo s t) = Running -> unlinked (tinfo s t) = [] ->
  einv n ((set_thread t ((tinfo s t) <| pc := Idle |> <| held := ∅ |>) s) <| objects := objects s |>) (<[t := Q t]> Q).
Proof.
  intros Hpc Hu. destruct (running_range t Hpc) as (Hw & Hr & Ht). destruct (ei_thread _ _ _ I t) as [T1 T2 T3 T4 T5].
  apply thread_step; try done; cbn.
  - split; cbn; try done. by right.
  - by destruct (ei_queue _ _ _ I t).
  - by left.
  - intros o' Ho'. destruct (decide (o' ∈ limbo (tinfo s t) (Q t))); [by left|by right].
  - intros t' o' _ Hl. by apply (qo_unlinked _ _ _ _ (ei_queue _ _ _ I t')).
  - intros A o' [HA|HA]; [by eapply (ei_held _ _ _ I)|set_solver].
  - by left.
Qed.

Lemma new_inv o : objects s !! o = None \/ objects s !! o = Some Freed -> einv n (s <| objects := <[o := Linked]> (objects s) |>) Q.
Proof.
  intros Ho. destruct I as [I1 I2 I3 I4 I5 I9 I6 I7 I8]. split; try done.
  - intros t. destruct (I4 t) as [Q1 Q2 Q3 Q4 Q5]. split; [done|done| |done|done]. intros o' Hl. cbn. pose proof (Q3 o' Hl).
    rewrite lookup_insert_ne; [done|]. intros ->. destruct Ho; congruence.
  - intros o'. cbn. intros [[_ ?]|[_ Ho']]%lookup_insert_Some; [done|]. by apply I9.
  - intros A o' HA. cbn. destruct (I6 A o' HA) as [HX|HX]; rewrite lookup_insert_ne; (by left) || (by right) || (intros ->; destruct Ho; congruence).
Qed.

(** The accesses of [start] before it cleans. *)
Lemma start_access_inv t : 0 <= t < MAX_THREADS -> exists s' Q', start false t s = Some s' /\ einv n s' Q'.
Proof.
  intros Ht. destruct (pc (tinfo s t)) as [| | | | |a|] eqn:Hpc; try (by eapply clean_inv);
    unfold start; rewrite Hpc; try (by exists s, Q).
  all: pose proof (ei_order _ _ _ I) as Ho; destruct (ei_thread _ _ _ I t) as [T1 T2 T3 T4 T5]; rewrite Hpc in T4;
    destruct T5 as [?|[Hh Hu]]; [congruence|].
  - cbn [negb andb]. destruct (Z.eqb_spec (write_snapshot_epoch (tinfo s t)) 0) as [Hw|Hw]; do 2 eexists; (split; [done|]);
      apply start_local; cbn; try done; try (by left); try (right; by right); split; cbn; try done; try lia; try by right.
  - destruct T4 as [? []]. do 2 eexists; (split; [done|]). apply start_local; cbn; try done; [right; by left|]. split; cbn; try done; try lia; try by right.
  - do 2 eexists; (split; [done|]). apply start_local; cbn; try done; [right; by right|]. split; cbn; try done; try lia; try by right.
  - destruct T4. do 2 eexists; (split; [done|]). apply start_local; cbn; try done; [right; by right|]. split; cbn; try done; try lia; try by right.
  - destruct T4. do 2 eexists; (split; [done|]). apply start_local; cbn; try done; [right; by right|by intros a [= <-]|].
    split; cbn; try done; try lia; try by right.
Qed.

(** Steps of the advancer. *)
Lemma advancer_step s' :
  tinfo s' = tinfo s -> objects s' = objects s -> global_epoch s <= global_epoch s' <= n + 1 ->
  read_epoch s <= read_epoch s' <= global_epoch s' -> 0 <= active_epoch s' <= read_epoch s' ->
  (forall t, bounds_writer s (read_epoch s') t) -> adv_ok s' ->
  (forall A e, 0 <= A < MAX_THREADS -> epoch (tinfo s A) <> 0 -> limit s A e -> limit s' A e) -> einv (n + 1) s' Q.
Proof.
  intros HT HO Hg Hr Ha Hb Hadv Hl. destruct I as [I1 I2 I3 I4 I5 I9 I6 I7 I8]. split; rewrite ?HT, ?HO; try done; try lia.
  - intros t. destruct (I3 t) as [T1 T2 T3 T4 T5]. specialize (Hb t). unfold bounds_writer in Hb. split; try done; try lia.
    destruct (pc (tinfo s t)); try done; intuition lia.
  - intros t. destruct (I4 t) as [Q1 Q2 Q3 Q4 Q5]. split; try done. eapply Forall_impl; [exact Q2|]. cbn. intros p ?. lia.
  - intros A D p Hp HA. destruct (I3 A) as [T1 T2 T3 T4 T5].
    destruct T5 as [Hpc|[Hh _]]; [|rewrite Hh in HA; set_solver]. rewrite Hpc in T4. destruct T4.
    apply Hl; [by apply T1; left|done|by eapply I8].
Qed.

Lemma advance_inv : einv (n + 1) (epoch_advancer s) Q.
Proof.
  pose proof (ei_order _ _ _ I) as Ho. pose proof (ei_adv _ _ _ I) as Hadv.
  assert (forall t, bounds_writer s (read_epoch s) t) as Hre.
  { intros t Hw. destruct (to_w _ _ _ _ (ei_thread _ _ _ I t)); [done|]. lia. }
  unfold epoch_advancer. unfold adv_ok in Hadv. destruct (adv s) as [|ge|ge re|ge re ae i half|re ae|ae] eqn:Ha.
  - apply advancer_step; cbn; try done; try lia. unfold limit. cbn. rewrite Ha. done.
  - apply advancer_step; cbn; try done; try lia. unfold limit. cbn. rewrite Ha. done.
  - destruct Hadv as [-> ->]. apply advancer_step; cbn; try done; try lia.
    + unfold adv_ok. cbn. split_and!; try done; try lia. intros t [?|[_ ?]] Hw; [|done].
      pose proof (to_range _ _ _ _ (ei_thread _ _ _ I t) (or_introl Hw)). lia.
    + unfold limit. cbn. rewrite Ha. intros A e HA _ (? & ? & _). split_and!; try done. lia.
  - destruct Hadv as (-> & Hr & Hae & Hb). destruct (Z.ltb_spec i MAX_THREADS) as [Hi|Hi].
    + destruct half.
      * set (te := epoch (tinfo s i)). pose proof (to_r _ _ _ _ (ei_thread _ _ _ I i)) as Hte. fold te in Hte.
        assert (exists ae', (if negb (te =? 0) && (s64 (te - ae) <? 0) then te else ae) = ae' /\ 0 <= ae' <= ae /\ (te <> 0 -> ae' <= te))
          as (ae' & -> & Hae' & Hte').
        { rewrite s64_small by lia. eexists. split; [done|]. destruct (Z.eqb_spec te 0), (Z.ltb_spec (te - ae) 0); cbn; lia. }
        apply advancer_step; cbn; try done; try lia.
        -- unfold adv_ok. cbn. split_and!; try done; try lia. intros t [?|[_ ?]]; [|done]. apply Hb. unfold scanned.
           destruct (decide (t = i)); [by right|left; lia].
        -- unfold limit. cbn. rewrite Ha. intros A e HA Hne (? & ? & HL). split_and!; try done. intros Hlt.
           destruct (decide (A = i)) as [->|]; [fold te in Hne; specialize (Hte' Hne); fold te in H; lia|]. specialize (HL ltac:(lia)). lia.
      * set (tw := write_snapshot_epoch (tinfo s i)). pose proof (to_w _ _ _ _ (ei_thread _ _ _ I i)) as Htw. fold tw in Htw.
        assert (exists re', (if negb (tw =? 0) && (s64 (tw - re) <? 0) then tw else re) = re' /\ read_epoch s <= re' <= re /\ (tw <> 0 -> re' <= tw))
          as (re' & -> & Hre' & Htw').
        { rewrite s64_small by lia. eexists. split; [done|]. destruct (Z.eqb_spec tw 0), (Z.ltb_spec (tw - re) 0); cbn; lia. }
        apply advancer_step; cbn; try done; try lia.
        -- unfold adv_ok. cbn. split_and!; try done; try lia. unfold bounds_writer in *. cbn. intros t [?|[-> _]] Hw; [|by apply Htw'].
           specialize (Hb t (or_introl H) Hw). lia.
        -- unfold limit. cbn. by rewrite Ha.
    + rewrite wrap_small by (unfold uint; lia). apply advancer_step; cbn; try done; try lia.
      * unfold adv_ok. cbn. split_and!; try lia. intros t Hw. apply Hb; [|done]. left.
        pose proof (to_range _ _ _ _ (ei_thread _ _ _ I t) (or_introl Hw)). lia.
      * unfold limit. cbn. rewrite Ha. intros A e HA Hne (? & ? & HL). split_and!; try done. apply HL. lia.
  - destruct Hadv as (Hr & Hae & Hb). apply advancer_step; cbn; try done; try lia.
    unfold limit. cbn. by rewrite Ha.
  - apply advancer_step; cbn; try done; try lia. unfold limit. cbn. rewrite Ha. intros A e _ _ (? & ? & ?). done.
Qed.

End step.

Lemma estep_inv n s Q a : einv n s Q -> n + 1 < 2 ^ 62 ->
  exists s' Q', estep false a s = Some s' /\ einv (n + 1) s' Q'.
Proof.
  intros I Hn.
  assert (forall s' Q', einv n s' Q' -> einv (n + 1) s' Q') as Hmono.
  { intros s' Q' []. split; try done. lia. }
  assert (exists Q', einv (n + 1) s Q') as [Qs Is] by (exists Q; by apply Hmono).
  assert (forall t thr m, (set_thread t thr s) <| objects := objects s |> = set_thread t thr s) as Hobj by done.
  destruct a as [t|o|t o|t o|t|t|]; cbn [estep].
  - destruct ((0 <=? t) && (t <? MAX_THREADS)) eqn:E; [|by exists s, Qs]. apply andb_true_iff in E as [E1%Z.leb_le E2%Z.ltb_lt].
    destruct (start_access_inv n s Q I Hn t) as (s' & Q' & -> & I'); [lia|]. exists s', Q'. split; [done|by apply Hmono].
  - destruct (objects s !! o) as [[]|] eqn:Ho; try (by exists s, Qs); do 2 eexists; (split; [done|]); apply Hmono, (new_inv n s Q I Hn); by (left + right).
  - destruct (objects s !! o) as [[]|] eqn:Ho; try (by exists s, Qs). destruct (pc (tinfo s t)) eqn:Hpc; try (by exists s, Qs).
    do 2 eexists. split; [done|]. rewrite <-Hobj by done. by apply Hmono, (acquire_inv n s Q I Hn).
  - destruct (objects s !! o) as [[]|] eqn:Ho; try (by exists s, Qs). destruct (pc (tinfo s t)) eqn:Hpc; try (by exists s, Qs).
    do 2 eexists. split; [done|]. by apply Hmono, (unlink_inv n s Q I Hn).
  - destruct (pc (tinfo s t)) eqn:Hpc; try (by exists s, Qs). destruct (delete_inv n s Q I Hn t Hpc) as (s' & Q' & -> & I').
    exists s', Q'. split; [done|by apply Hmono].
  - destruct (unlinked (tinfo s t)) eqn:Hu; [|by exists s, Qs]. destruct (pc (tinfo s t)) eqn:Hpc; try (by exists s, Qs).
    do 2 eexists. split; [done|]. rewrite <-Hobj by done. by apply Hmono, (finish_inv n s Q I Hn).
  - do 2 eexists. split; [done|]. by apply advance_inv.
Qed.

Lemma erun_inv l : forall n s Q, einv n s Q -> n + Z.of_nat (length l) < 2 ^ 62 ->
  exists s' Q', erun false l s = Some s' /\ einv (n + Z.of_nat (length l)) s' Q'.
Proof.
  induction l as [|a l IH]; intros n s Q I Hn; cbn [erun].
  - exists s, Q. split; [done|]. cbn. by rewrite Z.add_0_r.
  - rewrite length_cons in *. destruct (estep_inv n s Q a I ltac:(lia)) as (s1 & Q1 & -> & I1). cbn [mbind option_bind].
    destruct (IH (n + 1) s1 Q1 I1 ltac:(lia)) as (s2 & Q2 & -> & I2). exists s2, Q2. split; [done|].
    by replace (n + Z.of_nat (S (length l))) with (n + 1 + Z.of_nat (length l)) by lia.
Qed.

(** * Releasing everything *)

(** All threads are idle, and their callbacks have epochs up to [E]; those of the
    threads before [i] have been cleaned with [ae]. *)
Record releasing (num E ae i : Z) (more : bool) (s : epochs) (Q : Z -> list pending) : Prop := {
  re_queue t : queue_ok E (objects s) (tinfo s t) (Q t);
  re_unlinked t : unlinked (tinfo s t) = [];
  re_apart t t' o : o ∈ p_argument <$> Q t -> o ∈ p_argument <$> Q t' -> t = t';
  re_limbo o : objects s !! o = Some Unlinked -> exists t, o ∈ p_argument <$> Q t;
  re_held A o : o ∈ held (tinfo s A) -> False;
  re_range t : Q t <> [] -> 0 <= t < num;
  re_clean t : 0 <= t < i -> clean_epoch_ (rcu_set (tinfo s t)) = ae;
  re_more : more = false -> forall t, 0 <= t < i -> Q t = [];
  re_active : active_epoch s = ae }.

Lemma release_thread_ok num E ae wse i more s Q :
  releasing num E ae i more s Q -> 0 <= i -> 0 <= ae < 2 ^ 62 -> E < 2 ^ 62 -> wse <> 0 ->
  exists s' more' Q', release_thread wse ae i (s, more) = Some (s', more') /\ releasing num E ae (i + 1) more' s' Q' /\
    (more = true -> more' = true) /\
    (E < ae -> clean_epoch_ (rcu_set (tinfo s i)) <> ae -> more' = more) /\
    forall t, i < t -> rcu_set (tinfo s' t) = rcu_set (tinfo s t).
Proof.
  intros R Hi Hae HE Hwse. pose proof (re_queue _ _ _ _ _ _ _ R i) as Hq. pose proof (re_unlinked _ _ _ _ _ _ _ R i) as Hu.
  destruct (clean_frees _ _ _ _ ae Hq Hu Hae HE) as (rs & F & W & m & Ec & Ef & HFW & HW & Hce & HF & Hall & Hm & HX).
  destruct Hq as [_ QE QU QN Qw]. unfold limbo in QU, QN. rewrite Hu, HFW, fmap_app in QU, QN. cbn [app] in QU, QN.
  apply NoDup_app in QN as (_ & _ & NW). unfold release_thread. rewrite Ec. cbn [mbind option_bind]. rewrite Ef. cbn [mbind option_bind].
  rewrite (proj2 (holds_check rs W HW)). set (thr := _ <| rcu_set := rs |>). do 2 eexists. exists (<[i := W]> Q). split; [done|].
  assert (forall t, <[i := W]> Q t = if decide (t = i) then W else Q t) as HQ.
  { intros t. case_decide; [subst; by rewrite fn_lookup_insert|by rewrite fn_lookup_insert_ne]. }
  assert (forall t, tinfo (set_thread i thr s) t = if decide (t = i) then thr else tinfo s t) as HT.
  { intros t. case_decide; [subst; apply set_thread_same|by apply set_thread_other]. }
  assert (forall t o, o ∈ p_argument <$> <[i := W]> Q t -> o ∈ p_argument <$> Q t /\ o ∉ p_argument <$> F) as Hsub.
  { intros t o. rewrite HQ. destruct (decide (t = i)) as [->|Hne]; intros Ho.
    - split; [rewrite HFW, fmap_app; apply elem_of_app; by right|by apply HX].
    - split; [done|]. intros HoF. apply Hne. eapply (re_apart _ _ _ _ _ _ _ R); [exact Ho|]. rewrite HFW, fmap_app. apply elem_of_app. by left. }
  split_and!.
  - split; cbn [objects active_epoch tinfo set_field].
    + intros t. rewrite HQ, HT. destruct (decide (t = i)) as [->|Hne].
      * rewrite HFW in QE. apply Forall_app in QE as [_ QE]. split; cbn; [done|done| | |by right]; unfold limbo; cbn; rewrite Hu; cbn; [|done].
        intros o Ho. rewrite Hm, decide_False by (by apply HX). apply QU, elem_of_app. by right.
      * destruct (re_queue _ _ _ _ _ _ _ R t) as [H1 H2 H3 H4 H5]. split; try done. intros o Ho. rewrite Hm, decide_False; [by apply H3|].
        unfold limbo in Ho. rewrite (re_unlinked _ _ _ _ _ _ _ R t) in Ho. cbn in Ho. apply (Hsub t). by rewrite HQ, decide_False.
    + intros t. rewrite HT. case_decide; [subst; exact Hu|apply (re_unlinked _ _ _ _ _ _ _ R)].
    + intros t t' o [H1 _]%Hsub [H2 _]%Hsub. by eapply (re_apart _ _ _ _ _ _ _ R).
    + intros o. rewrite Hm. case_decide as HoF; [done|]. intros Ho. destruct (re_limbo _ _ _ _ _ _ _ R o Ho) as [t Hl]. exists t. rewrite HQ.
      case_decide; [subst|done]. rewrite HFW, fmap_app in Hl. apply elem_of_app in Hl as [?|?]; done.
    + intros A o. rewrite HT. case_decide; [subst; cbn|]; apply (re_held _ _ _ _ _ _ _ R).
    + intros t. rewrite HQ. case_decide; [subst|apply (re_range _ _ _ _ _ _ _ R)]. intros HW0. apply (re_range _ _ _ _ _ _ _ R). rewrite HFW. by destruct F.
    + intros t Ht. rewrite HT. case_decide; [by subst|]. apply (re_clean _ _ _ _ _ _ _ R). lia.
    + intros [Hm0 HW0%negb_false_iff%bool_decide_eq_true]%orb_false_iff t Ht. rewrite HQ. case_decide; [done|].
      apply (re_more _ _ _ _ _ _ _ R Hm0). lia.
    + apply (re_active _ _ _ _ _ _ _ R).
  - by intros ->.
  - intros HEa Hne. rewrite Hall; [by rewrite bool_decide_true, orb_false_r by done|done|]. intros p Hp. rewrite Forall_forall in QE.
    specialize (QE p Hp). lia.
  - intros t Ht. cbn [tinfo set_field]. rewrite HT. by rewrite decide_False by lia.
Qed.

Lemma release_round num E ae wse s Q :
  releasing num E ae 0 false s Q -> 0 <= num -> 0 <= ae < 2 ^ 62 -> E < 2 ^ 62 -> wse <> 0 ->
  exists s' more Q', for_opt 0 num (release_thread wse ae) (s, false) = Some (s', more) /\ releasing num E ae num more s' Q' /\
    (E < ae -> (forall t, 0 <= t < num -> clean_epoch_ (rcu_set (tinfo s t)) <> ae) -> more = false).
Proof.
  intros R Hnum Hae HE Hwse.
  destruct (for_opt_fuel (fun i (x : epochs * bool) => exists Q', releasing num E ae i x.2 x.1 Q' /\
    (E < ae -> (forall t, 0 <= t < num -> clean_epoch_ (rcu_set (tinfo s t)) <> ae) -> x.2 = false) /\
    forall t, i <= t -> rcu_set (tinfo x.1 t) = rcu_set (tinfo s t)) 0 num (fun _ => release_thread wse ae) (s, false) Hnum)
    as (k & [s' more] & Ef & Q' & R' & Hm & _).
  - by exists Q.
  - intros i [s1 more] Hi (Q1 & R1 & Hm & Hrest). destruct (release_thread_ok num E ae wse i more s1 Q1 R1 ltac:(lia) Hae HE Hwse) as (s2 & more2 & Q2 & E2 & R2 & _ & Hd & Hk).
    exists 0%nat, (s2, more2). split; [done|]. exists Q2. cbn in *. split_and!; [done| |].
    + intros Ha Hc. rewrite Hd; [by apply Hm|done|]. rewrite Hrest by lia. apply Hc. lia.
    + intros t Ht. rewrite Hk by lia. apply Hrest. lia.
  - exists s', more, Q'. split; [by apply (Ef k)|done].
Qed.

(** The next round starts. *)
Lemma releasing_next num E ae more s Q : releasing num E ae num more s Q ->
  releasing num E (ae + 1) 0 false (s <| active_epoch := ae + 1 |>) Q.
Proof. intros []. split; try done; cbn; intros; lia. Qed.

Lemma releasing_done num E ae s Q : releasing num E ae num false s Q ->
  (forall t, set_empty (rcu_set (tinfo s t)) = true) /\ forall o, objects s !! o <> Some Unlinked.
Proof.
  intros R. assert (forall t, Q t = []) as HQ.
  { intros t. destruct (decide (Q t = [])) as [|Hne]; [done|]. by eapply (re_more _ _ _ _ _ _ _ R), (re_range _ _ _ _ _ _ _ R). }
  split.
  - intros t. rewrite (proj2 (holds_check _ _ (qo_set _ _ _ _ (re_queue _ _ _ _ _ _ _ R t)))). by rewrite HQ, bool_decide_true.
  - intros o Ho. destruct (re_limbo _ _ _ _ _ _ _ R o Ho) as [t Ht]. rewrite HQ in Ht. by apply not_elem_of_nil in Ht.
Qed.

(** Each round moves the active epoch; the round that passes [E] is the last, if it
    is not the first, which skips the sets that were cleaned at its epoch before. *)
Lemma release_loop_ends num E : 0 <= num -> E < 2 ^ 62 ->
  forall k ae wse s Q fuel, releasing num E ae 0 false s Q ->
  (k = O -> forall t, 0 <= t < num -> clean_epoch_ (rcu_set (tinfo s t)) <> ae) ->
  0 <= ae -> E < ae + Z.of_nat k < 2 ^ 62 -> 0 < wse -> wse + Z.of_nat k < 2 ^ 63 -> (k < fuel)%nat ->
  exists s', release_loop fuel num wse s = Some s' /\
    (forall t, set_empty (rcu_set (tinfo s' t)) = true) /\ forall o, objects s' !! o <> Some Unlinked.
Proof.
  intros Hnum HE. induction k as [|k IH]; intros ae wse s Q fuel R Hskip Hae Hk Hw Hwk Hf;
    (destruct fuel as [|fuel]; [lia|]); cbn [release_loop]; rewrite (re_active _ _ _ _ _ _ _ R);
    (destruct (release_round num E ae wse s Q R Hnum ltac:(lia) HE ltac:(lia)) as (s1 & more & Q1 & -> & R1 & Hlast));
    cbn [mbind option_bind].
  - rewrite Hlast in * by (lia || by apply Hskip). eexists. split; [done|]. cbn. by eapply releasing_done.
  - destruct more; [|eexists; split; [done|]; cbn; by eapply releasing_done].
    rewrite !wrap_small by (unfold uint; lia). eapply (IH (ae + 1)); [by eapply releasing_next| |lia..].
    intros _ t Ht. cbn. rewrite (re_clean _ _ _ _ _ _ _ R1 t Ht). lia.
Qed.

(** Each of the threads [ts] makes the two accesses of its first start, one thread
    after the other. *)
Definition first_stores (ts : list Z) : list eaction := ts ≫= fun t => [Start t; Start t].

Definition starts_in (ts : list Z) (a : eaction) : Prop := match a with Start t => t ∈ ts | _ => True end.
#[export] Instance starts_in_dec ts a : Decision (starts_in ts a).
Proof. destruct a; cbn; apply _. Defined.

(** The accesses of a first start do not interleave with the advancer: either because
    the load and the store are one step, or because the threads of [l] have made them
    before [l]. *)
Definition started (split : bool) (ts : list Z) (l : list eaction) : Prop :=
  NoDup ts /\ Forall (fun t => 0 <= t < MAX_THREADS) ts /\
  (split = true -> Forall (starts_in ts) l).
#[export] Instance started_dec split ts l : Decision (started split ts l).
Proof. unfold started. apply _. Defined.

Lemma estep_writer n s Q a s' t : einv n s Q -> estep false a s = Some s' ->
  write_snapshot_epoch (tinfo s t) <> 0 -> write_snapshot_epoch (tinfo s' t) <> 0.
Proof.
  intros I E Hw. pose proof (ei_order _ _ _ I) as Ho.
  assert (forall t' thr, write_snapshot_epoch thr = write_snapshot_epoch (tinfo s t') \/ write_snapshot_epoch thr <> 0 ->
    write_snapshot_epoch (<[t' := thr]> (tinfo s) t) <> 0) as Hset.
  { intros t' thr Hthr. destruct (decide (t = t')) as [->|Hne].
    - rewrite fn_lookup_insert. destruct Hthr as [->|]; done.
    - by rewrite fn_lookup_insert_ne. }
  destruct a as [t'|o|t' o|t' o|t'|t'|]; cbn [estep] in E; unfold start, rcu_delete in E;
    repeat (case_match; simplify_option_eq); try done;
    try (apply Hset; (by left) || (right; cbn; lia)).
  - destruct (ei_thread _ _ _ I t') as [_ T2 _ T4 _]. rewrite H0 in T4. apply Hset. right. cbn. lia.
  - unfold epoch_advancer in E. by repeat (case_match; simplify_option_eq).
Qed.

Lemma erun_app split l1 l2 : forall s, erun split (l1 ++ l2) s = s' ← erun split l1 s; erun split l2 s'.
Proof. induction l1 as [|a l1 IH]; intros s; cbn [erun app]; [done|]. destruct (estep split a s); [apply IH|done]. Qed.

(** For threads that have started once it does not matter whether the load and the
    store of the global epoch are one step. *)
Lemma erun_split (ts : list Z) l : Forall (starts_in ts) l -> forall n s Q,
  einv n s Q -> n + Z.of_nat (length l) < 2 ^ 62 -> (forall t, t ∈ ts -> write_snapshot_epoch (tinfo s t) <> 0) ->
  erun true l s = erun false l s.
Proof.
  induction 1 as [|a l Ha Hl IH]; intros n s Q I Hn Hts; [done|]. rewrite length_cons in Hn. cbn [erun].
  assert (estep true a s = estep false a s) as ->.
  { destruct a as [t| | | | | |]; try done. cbn [estep]. unfold start. destruct (pc (tinfo s t)); try done.
    by rewrite (proj2 (Z.eqb_neq _ _) (Hts t Ha)). }
  destruct (estep_inv n s Q a I ltac:(lia)) as (s1 & Q1 & E & I1). rewrite E. cbn [mbind option_bind].
  apply (IH (n + 1) s1 Q1 I1); [lia|]. intros t Ht. by eapply estep_writer, Hts.
Qed.

Lemma first_stores_split ts : NoDup ts -> Forall (fun t => 0 <= t < MAX_THREADS) ts -> forall s,
  (forall t, t ∈ ts -> tinfo s t = thread_new) -> global_epoch s <> 0 ->
  exists s', erun true (first_stores ts) s = Some s' /\ erun false (Start <$> ts) s = Some s' /\
    forall t, t ∈ ts \/ write_snapshot_epoch (tinfo s t) <> 0 -> write_snapshot_epoch (tinfo s' t) <> 0.
Proof.
  induction ts as [|t ts IH]; intros Hd Hr s Hn Hg; [exists s; split_and!; try done; set_solver|].
  apply NoDup_cons in Hd as [Hni Hd]. apply Forall_cons in Hr as [Ht Hr].
  assert ((0 <=? t) && (t <? MAX_THREADS) = true) as Hb by (apply andb_true_iff; rewrite Z.leb_le, Z.ltb_lt; lia).
  set (thr := thread_new <| write_snapshot_epoch := global_epoch s |> <| pc := StoredW |>).
  destruct (IH Hd Hr (set_thread t thr s)) as (s' & E1 & E2 & Hw); [|done|].
  { intros t' Ht'. rewrite set_thread_other by (intros ->; done). apply Hn. by right. }
  exists s'. cbn [first_stores mbind list_bind fmap list_fmap app erun estep]. rewrite Hb. unfold start.
  rewrite (Hn t) by left. cbn [pc thread_new negb andb mbind option_bind write_snapshot_epoch Z.eqb].
  rewrite set_thread_same. cbn [pc set_field]. split_and!; [| |].
  - cbn [mbind option_bind]. rewrite <-E1. f_equal. unfold set_thread. cbn. f_equal. apply functional_extensionality.
    intros t'. destruct (decide (t = t')) as [->|]; by rewrite ?fn_lookup_insert, ?fn_lookup_insert_ne.
  - exact E2.
  - intros t' Ht'. apply Hw. destruct (decide (t' = t)) as [->|Hne]; [right; by rewrite set_thread_same|].
    rewrite set_thread_other by done. set_solver.
Qed.

Lemma started_inv split ts l : started split ts l -> 2 * Z.of_nat (length ts) + Z.of_nat (length l) + 3 < 2 ^ 62 ->
  exists n s Q, erun split (first_stores ts ++ l) epochs_new = Some s /\ einv n s Q /\ n + 1 < 2 ^ 62.
Proof.
  intros (Hd & Hr & Hl) Hn. destruct split.
  - destruct (first_stores_split ts Hd Hr epochs_new) as (s1 & E1 & E2 & Hw); [done|done|].
    destruct (erun_inv (Start <$> ts) 2 epochs_new _ einv_new) as (s1' & Q1 & E1' & I1); rewrite length_fmap in *; [lia|].
    simplify_eq. destruct (erun_inv l _ _ _ I1) as (s2 & Q2 & E & I2); [lia|].
    eexists _, s2, Q2. split_and!; [|exact I2|lia]. rewrite erun_app, E1. cbn [mbind option_bind]. rewrite <-E.
    eapply erun_split; [by apply Hl|exact I1|lia|]. intros t Ht. apply Hw. by left.
  - assert (length (first_stores ts) = 2 * length ts)%nat as Hlen.
    { clear. induction ts as [|t ts IH]; [done|]. unfold first_stores in *. rewrite bind_cons, length_app, IH. cbn [length]. lia. }
    destruct (erun_inv (first_stores ts ++ l) 2 epochs_new _ einv_new) as (s & Q & E & I); rewrite length_app, Hlen in *; [lia|].
    eexists _, s, Q. split_and!; [exact E|exact I|lia].
Qed.

(** C18: safety of the reclamation.  In every interleaving of transactions that start,
    take hold of objects, unlink and [rcu_delete] them and end, with the passes of the
    advancer, no object is freed twice, no assertion of the callback sets fails, and
    an object that a running transaction has got hold of is not freed before the
    transaction ends.  The first start of a thread is in the prefix (or atomic, when
    [split] is false): see [first_start_race]. *)
Theorem rcu_never_frees_held split ts l : started split ts l -> 2 * Z.of_nat (length ts) + Z.of_nat (length l) + 3 < 2 ^ 62 ->
  exists s, erun split (first_stores ts ++ l) epochs_new = Some s /\
    forall A o, o ∈ held (tinfo s A) -> objects s !! o = Some Linked \/ objects s !! o = Some Unlinked.
Proof.
  intros Hs Hn. destruct (started_inv split ts l Hs Hn) as (n & s & Q & E & I & _). exists s. split; [done|]. apply (ei_held _ _ _ I).
Qed.

(** A pass of the advancer, and all accesses of a start. *)
Definition pass : list eaction := replicate 262 Advance.
Definition whole_start (t : Z) : list eaction := replicate 6 (Start t).

(** Thread 1 unlinks an object that thread 0 holds; after five passes and a start of
    thread 1 it is still there; when thread 0 has ended and both go on it is freed. *)
Definition held_schedule : list eaction :=
  whole_start 0 ++ whole_start 1 ++ [New 5; Acquire 0 5; Unlink 1 5; RcuDelete 1; Stop 1] ++
  pass ++ pass ++ pass ++ pass ++ pass ++ whole_start 1.
Definition free_schedule : list eaction :=
  let both := pass ++ whole_start 0 ++ whole_start 1 ++ [Stop 0; Stop 1] in
  held_schedule ++ [Stop 0; Stop 1] ++ both ++ both ++ both ++ both.
(** What can be seen of a state: an object, and whether a running thread holds it. *)
Definition observe (t o : Z) (s : option epochs) : option (option object * bool) :=
  s ← s; Some (objects s !! o, match pc (tinfo s t) with Running => bool_decide (o ∈ held (tinfo s t)) | _ => false end).

Lemma rcu_never_frees_held_witness :
  observe 0 5 (erun true (first_stores [0; 1] ++ held_schedule) epochs_new) = Some (Some Unlinked, true) /\
  observe 0 5 (erun true (first_stores [0; 1] ++ free_schedule) epochs_new) = Some (Some Freed, false) /\
  exists s, erun true (first_stores [0; 1] ++ held_schedule) epochs_new = Some s /\
    forall A o, o ∈ held (tinfo s A) -> objects s !! o = Some Linked \/ objects s !! o = Some Unlinked.
Proof.
  split_and!; [vm_compute; reflexivity|vm_compute; reflexivity|].
  apply (rcu_never_frees_held true [0; 1] held_schedule); [|vm_compute; reflexivity].
  apply (bool_decide_unpack _). vm_compute. exact Logic.I.
Defined.

(** The first start of a thread is not safe.  Thread 1 has loaded the global epoch
    for its first [write_snapshot_epoch] and not stored it while the advancer makes
    two passes: as the old value is 0 they do not wait for it.  It then deletes with an epoch
    that has passed: object 5 is freed while thread 0, which runs, holds it. *)
Example first_start_race :
  observe 0 5 (erun true ([New 5; Start 1] ++ pass ++ pass ++ whole_start 0 ++ whole_start 1 ++
    [Acquire 0 5; Unlink 1 5; RcuDelete 1; Stop 1] ++ pass ++ whole_start 1) epochs_new) = Some (Some Freed, true).
Proof. vm_compute. reflexivity. Qed.

(** All the threads have ended their transactions, thread 0 has run one, and only the
    first [num] threads have; the advancer has been joined. *)
Definition finished (num : Z) (s : epochs) : bool :=
  match adv s with Sleep => true | _ => false end && negb (write_snapshot_epoch (tinfo s 0) =? 0) &&
  forallb (fun t => match pc (tinfo s t) with Idle => (t <? num) || (write_snapshot_epoch (tinfo s t) =? 0) | _ => false end)
    (seqZ 0 MAX_THREADS).

Lemma finished_releasing num n s Q : einv n s Q -> finished num s = true ->
  releasing num (global_epoch s) (active_epoch s) 0 false s Q /\ write_snapshot_epoch (tinfo s 0) <> 0.
Proof.
  intros I [[_ H0%negb_true_iff%Z.eqb_neq]%andb_true_iff Hf]%andb_true_iff. rewrite forallb_forall in Hf.
  assert (forall t, pc (tinfo s t) = Idle /\ (write_snapshot_epoch (tinfo s t) <> 0 -> 0 <= t < num)) as Hidle.
  { intros t. destruct (ei_thread _ _ _ I t) as [T1 _ _ _ _].
    destruct (decide (0 <= t < MAX_THREADS)) as [Hr|Hr].
    - specialize (Hf t). rewrite <-list_elem_of_In, elem_of_seqZ in Hf. specialize (Hf ltac:(lia)). destruct (pc (tinfo s t)); try done.
      split; [done|]. intros Hw. rewrite (proj2 (Z.eqb_neq _ _) Hw), orb_false_r, Z.ltb_lt in Hf. lia.
    - split; [destruct (pc (tinfo s t)) eqn:E; try done; exfalso; apply Hr, T1; by right|]. intros Hw. exfalso. apply Hr, T1. by left. }
  assert (forall t, held (tinfo s t) = ∅ /\ unlinked (tinfo s t) = []) as Hlocal.
  { intros t. destruct (to_idle _ _ _ _ (ei_thread _ _ _ I t)) as [Hpc|]; [|done]. rewrite (proj1 (Hidle t)) in Hpc. done. }
  split; [|done]. split; try done; try (intros; lia).
  - intros t. apply (ei_queue _ _ _ I).
  - intros t. apply Hlocal.
  - intros t t' o H1 H2. apply (ei_apart _ _ _ I t t' o); apply elem_of_app; by right.
  - intros o Ho. destruct (ei_limbo _ _ _ I o Ho) as [t Ht]. exists t. unfold limbo in Ht. by rewrite (proj2 (Hlocal t)) in Ht.
  - intros A o. rewrite (proj1 (Hlocal A)). set_solver.
  - intros t HQ. apply Hidle. by destruct (qo_writer _ _ _ _ (ei_queue _ _ _ I t)).
Qed.

(** C20: termination of [rcu_release_all] and no leak.  When the threads have ended, the loop ends
    after at most one round per epoch ([fuel] counts the rounds); then every set of
    callbacks is empty and every object that was unlinked has been freed. *)
Theorem release_all_frees split ts l num s fuel :
  started split ts l -> 2 * Z.of_nat (length ts) + Z.of_nat (length l) + 3 < 2 ^ 62 ->
  erun split (first_stores ts ++ l) epochs_new = Some s -> finished num s = true ->
  0 < num -> global_epoch s + 2 <= Z.of_nat fuel ->
  exists s', rcu_release_all fuel num s = Some s' /\
    (forall t, set_empty (rcu_set (tinfo s' t)) = true) /\ forall o, objects s' !! o <> Some Unlinked.
Proof.
  intros Hs Hl E Hf Hnum Hfuel. destruct (started_inv split ts l Hs Hl) as (n & s1 & Q & E1 & I & Hn). simplify_eq.
  destruct (finished_releasing num n s Q I Hf) as [R H0]. pose proof (ei_order _ _ _ I) as Ho.
  assert (forall t, 0 <= write_snapshot_epoch (tinfo s t) <= global_epoch s) as Hw.
  { intros t. destruct (to_w _ _ _ _ (ei_thread _ _ _ I t)); lia. }
  pose proof (to_w _ _ _ _ (ei_thread _ _ _ I 0)) as Hw0. pose proof (Hw 0).
  assert (active_epoch s < for_range 1 num (fun i wse => Z.max wse (write_snapshot_epoch (tinfo s i)))
    (u64 (write_snapshot_epoch (tinfo s 0) + 1)) <= global_epoch s + 1) as Hwse.
  { apply (for_range_ind (fun _ w => active_epoch s < w <= global_epoch s + 1)); [lia|rewrite wrap_small by (unfold uint; lia); lia|].
    intros i w Hi Hb. specialize (Hw i). lia. }
  unfold rcu_release_all. destruct (Z.ltb_spec (active_epoch s)
    (for_range 1 num (fun i wse => Z.max wse (write_snapshot_epoch (tinfo s i))) (u64 (write_snapshot_epoch (tinfo s 0) + 1)))); [|lia].
  eapply (release_loop_ends num (global_epoch s) ltac:(lia) ltac:(lia) (Z.to_nat (global_epoch s + 1 - active_epoch s)) _ _ _ _ _ R); lia.
Qed.

Lemma release_all_frees_witness :
  exists s s', erun true (first_stores [0; 1] ++ held_schedule ++ [Stop 0; Stop 1]) epochs_new = Some s /\
    objects s !! 5 = Some Unlinked /\ rcu_release_all 20 2 s = Some s' /\
    (forall t, set_empty (rcu_set (tinfo s' t)) = true) /\ forall o, objects s' !! o <> Some Unlinked.
Proof.
  assert (match erun true (first_stores [0; 1] ++ held_schedule ++ [Stop 0; Stop 1]) epochs_new with
    | Some s => finished 2 s && bool_decide (objects s !! 5 = Some Unlinked) && (global_epoch s <? 18) | None => false end = true) as H
    by (vm_compute; reflexivity).
  destruct (erun true _ _) as [s|] eqn:E; [|done]. apply andb_true_iff in H as [[Hf Ho%bool_decide_eq_true]%andb_true_iff Hg%Z.ltb_lt].
  destruct (release_all_frees true [0; 1] (held_schedule ++ [Stop 0; Stop 1]) 2 s 20) as (s' & E' & Hs').
  - apply (bool_decide_unpack _). vm_compute. exact Logic.I.
  - vm_compute. reflexivity.
  - exact E.
  - exact Hf.
  - lia.
  - lia.
  - exists s, s'. exact (conj eq_refl (conj Ho (conj E' Hs'))).
Defined.
