(* ===== verification/UIndex.v ===== *)
(** The hash index of the database ([unordered_index] of [benchmark/DB_uindex.hh],
    with [index_common] and [version_adapter] of [DB_index.hh]) and the
    transactions over it, in the default build: non-opaque versions, a version per
    row, [RdMyWr = false].

    A bucket is the list of the addresses of its elements, from [head] along
    [next]; the elements are a heap.  An address is never used again: elements are
    freed by [rcu_delete], when no transaction that can hold them is running.  The
    items of a transaction are a list in the order of their first use, as in [Sto];
    an item belongs to a row (the address of its element, cell 0) or to a bucket.

    An operation on the index, and the whole of [try_commit] or [stop], is one step
    of its thread ([step]); the steps of the threads interleave in any order
    ([run]).  How the phases of [try_commit] interleave is the subject of [Sto].

    [None] is a failed assertion, the use of a pointer that is not one, or a lock
    that is never released. *)

From stdpp Require Import functions.
From S2P Require Import Prelude Tid.

(** * Item keys *)

(** [item_key_t] of a 48-bit pointer and a cell, and the key of a bucket. *)
Module ItemKey.

Definition shift : Z := 16.
Definition cell_mask : Z := 0xfffc.
Definition item_key (e cell_num : Z) : Z :=
  Z.lor (u64 (Z.shiftl e shift)) (Z.land (Z.shiftl cell_num 2) cell_mask).
Definition row_item_key (e : Z) : Z := item_key e 0.
Definition internal_elem_ptr (key_ : Z) : Z := Z.shiftr key_ shift.
Definition cell_num (key_ : Z) : Z := Z.shiftr (Z.land key_ cell_mask) 2.
Definition is_row_item (key_ : Z) : bool := cell_num key_ =? 0.

Definition bucket_bit : Z := 1.
Definition make_bucket_key (b : Z) : Z := Z.lor b bucket_bit.
Definition is_bucket (key_ : Z) : bool := negb (Z.land key_ bucket_bit =? 0).
Definition bucket_address (key_ : Z) : Z := Z.ldiff key_ bucket_bit.

End ItemKey.

(** What such a key stands for. *)
Inductive item_key := Row (e : Z) | Bucket (b : Z).
#[export] Instance item_key_eq_dec : EqDecision item_key.
Proof. solve_decision. Defined.

Inductive access_t := access_read | access_write | access_update.
Definition access_reads (a : access_t) : bool := match a with access_write => false | _ => true end.
Definition access_writes (a : access_t) : bool := match a with access_read => false | _ => true end.

Section uindex.
Context {K V A : Type} `{Countable K}.

(** * Transaction items *)

(** [wdata_]: nothing yet, a pointer to a row, or a commutator. *)
Inductive wvalue := NoValue | Pointer (v : V) | Comm (operate : V -> V).

(** The flags of an item that concern writing.  [row_update_bit] is not among
    them: only code under [#if 0] sets it. *)
Record wflags := {
  has_write : bool; has_commute : bool; has_insert : bool; has_delete : bool; has_row_cell : bool; wdata : wvalue }.

Record TransItem := {
  it_key : item_key; has_read : bool; rdata : Z; needs_unlock : bool; locked_at_commit : bool; it_w : wflags }.

Record Transaction := { tset : list TransItem; any_writes : bool; any_nonopaque : bool }.

#[global] Instance eta_wflags : Eta wflags := fun w => {|
  has_write := has_write w; has_commute := has_commute w; has_insert := has_insert w; has_delete := has_delete w;
  has_row_cell := has_row_cell w; wdata := wdata w |}.
#[global] Instance eta_titem : Eta TransItem := fun i => {|
  it_key := it_key i; has_read := has_read i; rdata := rdata i; needs_unlock := needs_unlock i;
  locked_at_commit := locked_at_commit i; it_w := it_w i |}.
#[global] Instance eta_ttxn : Eta Transaction := fun t => {|
  tset := tset t; any_writes := any_writes t; any_nonopaque := any_nonopaque t |}.

Definition no_flags : wflags := {|
  has_write := false; has_commute := false; has_insert := false; has_delete := false; has_row_cell := false;
  wdata := NoValue |}.
Definition item_new (k : item_key) : TransItem := {|
  it_key := k; has_read := false; rdata := 0; needs_unlock := false; locked_at_commit := false; it_w := no_flags |}.
Definition start : Transaction := {| tset := []; any_writes := false; any_nonopaque := false |}.

(** [Sto::item]: the item of a key, a new one if there is none; [put] stores what
    an operation does to it. *)
Fixpoint find_item (l : list TransItem) (k : item_key) : option TransItem :=
  match l with
  | [] => None
  | it :: l => if decide (it_key it = k) then Some it else find_item l k
  end.
Definition item (tx : Transaction) (k : item_key) : TransItem := default (item_new k) (find_item (tset tx) k).

Fixpoint put_item (it : TransItem) (l : list TransItem) : list TransItem :=
  match l with
  | [] => [it]
  | it' :: l => if decide (it_key it' = it_key it) then it :: l else it' :: put_item it l
  end.
Definition put (it : TransItem) (tx : Transaction) : Transaction := tx <| tset := put_item it (tset tx) |>.

(** [TransProxy::add_write] without and with a value, and [add_commute]. *)
Definition add_write_none (w : wflags) : wflags := w <| has_commute := false |> <| has_write := true |>.
Definition add_write (x : wvalue) (w : wflags) : wflags :=
  w <| has_commute := false |> <| has_write := true |> <| wdata := x |>.
Definition add_commute (operate : V -> V) (w : wflags) : wflags :=
  let w := if has_write w && negb (has_commute w) then w <| has_write := false |> else w in
  (add_write (Comm operate) w) <| has_commute := true |>.

(** An operation on the write flags of the item of [k]; all of them set
    [has_write] and so [any_writes_]. *)
Definition writing (f : wflags -> wflags) (k : item_key) (tx : Transaction) : Transaction :=
  let it := item tx k in
  (put (it <| it_w := f (it_w it) |>) tx) <| any_writes := true |>.

(** [TransProxy::observe] of a version that reads [v]: whether it succeeds. *)
Definition observe (k : item_key) (v : Z) (tx : Transaction) : bool * Transaction :=
  let it := item tx k in
  if Tid.is_locked v then (false, put it tx)
  else if negb (has_read it) then
    (true, (put (it <| has_read := true |> <| rdata := v |>) tx) <| any_nonopaque := true |>)
  else (true, put it tx).

(** [version_adapter::select_for_update] *)
Definition select_for_update (k : item_key) (v : Z) (tx : Transaction) : bool * Transaction :=
  let '(ok, tx) := observe k v tx in
  if ok then (true, writing add_write_none k tx) else (false, tx).

(** [TransProxy::update_read] *)
Definition update_read (k : item_key) (old_rdata new_rdata : Z) (tx : Transaction) : Transaction :=
  let it := item tx k in
  put (if has_read it && (rdata it =? old_rdata) then it <| rdata := new_rdata |> else it) tx.

(** * The index *)

Record internal_elem := { e_key : K; version : Z; row : V; deleted : bool }.
Record bucket_entry := { chain : list Z; b_version : Z }.
(** [brk] is the next address [new] returns. *)
Record unordered_index := { map_ : Z -> bucket_entry; heap : gmap Z internal_elem; brk : Z }.

#[global] Instance eta_elem : Eta internal_elem := fun e => {|
  e_key := e_key e; version := version e; row := row e; deleted := deleted e |}.
#[global] Instance eta_bucket : Eta bucket_entry := fun b => {| chain := chain b; b_version := b_version b |}.
#[global] Instance eta_index : Eta unordered_index := fun x => {| map_ := map_ x; heap := heap x; brk := brk x |}.

Definition invalid_bit : Z := Tid.user_bit.

(** The constructor of [internal_elem]: the version of [TNonopaqueVersion(v, insert)]. *)
Definition elem_new (k : K) (v : V) (valid : bool) : internal_elem := {|
  e_key := k; row := v; deleted := false;
  version := Z.lor (if valid then Tid.initialized_tid else Z.lor Tid.initialized_tid invalid_bit) Tid.nonopaque_bit |}.

Definition valid (e : internal_elem) : bool := Z.land (version e) invalid_bit =? 0.

(** The hash function and the number of buckets. *)
Variables (hasher_ : K -> Z) (nbuckets : Z).

Definition find_bucket_idx (k : K) : Z := hasher_ k mod nbuckets.

(** The main constructor: [map_.resize(size)], a bucket is [head(nullptr), version(0)]. *)
Definition index_new : unordered_index := {|
  map_ := fun _ => {| chain := []; b_version := Z.lor 0 Tid.nonopaque_bit |}; heap := ∅; brk := 0 |}.

Definition key_at (x : unordered_index) (k : K) (e : Z) : bool :=
  match heap x !! e with Some el => bool_decide (e_key el = k) | None => false end.

Fixpoint find_in_chain (x : unordered_index) (l : list Z) (k : K) : option Z :=
  match l with
  | [] => None
  | e :: l => if key_at x k e then Some e else find_in_chain x l k
  end.
Definition find_in_bucket (x : unordered_index) (b : Z) (k : K) : option Z := find_in_chain x (chain (map_ x b)) k.

Definition set_bucket (b : Z) (f : bucket_entry -> bucket_entry) (x : unordered_index) : unordered_index :=
  x <| map_ := <[b := f (map_ x b)]> (map_ x) |>.
Definition set_elem (e : Z) (el : internal_elem) (x : unordered_index) : unordered_index :=
  x <| heap := <[e := el]> (heap x) |>.

(** [lock_exclusive] spins while another thread has the lock. *)
Definition lock_bucket (here b : Z) (x : unordered_index) : option unordered_index :=
  let v := b_version (map_ x b) in
  if Tid.is_locked v then None else Some (set_bucket b (fun bk => bk <| b_version := Tid.set_lock v here |>) x).
Definition unlock_bucket (b : Z) (x : unordered_index) : unordered_index :=
  set_bucket b (fun bk => bk <| b_version := Tid.unlock (b_version bk) |>) x.

(** [insert_in_bucket]: the address of the new element. *)
Definition insert_in_bucket (here b : Z) (k : K) (v : V) (is_valid : bool) (x : unordered_index)
    : option (Z * unordered_index) :=
  if negb (Tid.is_locked (b_version (map_ x b))) then None
  else
    bv ← Tid.inc_nonopaque_version (b_version (map_ x b)) here;
    let e := brk x in
    let x := (set_elem e (elem_new k v is_valid) x) <| brk := e + 1 |> in
    Some (e, set_bucket b (fun bk => bk <| chain := e :: chain bk |> <| b_version := bv |>) x).

Definition is_phantom (el : internal_elem) (it : TransItem) : bool := negb (valid el) && negb (has_insert (it_w it)).

(** The [prev]/[curr] loop of [_remove]: [None] if [el] is not in the list. *)
Fixpoint unlink (e : Z) (l : list Z) : option (list Z) :=
  match l with
  | [] => None
  | curr :: l => if curr =? e then Some l else l ← unlink e l; Some (curr :: l)
  end.

Definition _remove (here e : Z) (x : unordered_index) : option unordered_index :=
  el ← heap x !! e;
  let b := find_bucket_idx (e_key el) in
  x ← lock_bucket here b x;
  l ← unlink e (chain (map_ x b));
  Some (unlock_bucket b (set_bucket b (fun bk => bk <| chain := l |>) x)).

(** * Operations *)

(** [access_all] on the row's only cell. *)
Definition access_all (a : access_t) (e : Z) (el : internal_elem) (tx : Transaction) : bool * Transaction :=
  let '(ok, tx) := if access_reads a then observe (Row e) (version el) tx else (true, tx) in
  if negb ok then (false, tx)
  else if access_writes a
       then (true, writing (fun w => (add_write_none w) <| has_row_cell := true |>) (Row e) tx)
       else (true, tx).

(** [select_split_row] of an element: whether it succeeded, and the row. *)
Definition select_elem (e : Z) (a : access_t) (x : unordered_index) (tx : Transaction)
    : option (bool * option (Z * V) * Transaction) :=
  el ← heap x !! e;
  let tx := put (item tx (Row e)) tx in
  if is_phantom el (item tx (Row e)) then Some (false, None, tx)
  else
    let '(ok, tx) := access_all a e el tx in
    Some (ok, if ok : bool then Some (e, row el) else None, tx).

Definition select_split_row (k : K) (a : access_t) (x : unordered_index) (tx : Transaction)
    : option (bool * option (Z * V) * Transaction) :=
  let b := find_bucket_idx k in
  let buck_vers := b_version (map_ x b) in
  match find_in_bucket x b k with
  | Some e => select_elem e a x tx
  | None => let '(ok, tx) := observe (Bucket b) buck_vers tx in Some (ok, None, tx)
  end.

Definition update_row (rid : Z) (new_row : V) (tx : Transaction) : Transaction :=
  writing (add_write (Pointer new_row)) (Row rid) tx.
Definition update_row_comm (rid : Z) (operate : V -> V) (tx : Transaction) : Transaction :=
  writing (add_commute operate) (Row rid) tx.

(** [insert_row]: whether it succeeded, and whether the row was there. *)
Definition insert_row (here : Z) (k : K) (v : V) (overwrite : bool) (x : unordered_index) (tx : Transaction)
    : option (bool * bool * unordered_index * Transaction) :=
  let b := find_bucket_idx k in
  x ← lock_bucket here b x;
  match find_in_bucket x b k with
  | Some e =>
      let x := unlock_bucket b x in
      el ← heap x !! e;
      let tx := put (item tx (Row e)) tx in
      if is_phantom el (item tx (Row e)) then Some (false, false, x, tx)
      else if overwrite then Some (true, true, x, writing (add_write (Pointer v)) (Row e) tx)
      else
        let '(ok, tx) := observe (Row e) (version el) tx in
        Some (ok, ok, x, tx)
  | None =>
      let buck_vers_0 := Z.lor (Tid.unlocked (b_version (map_ x b))) Tid.nonopaque_bit in
      '(new_head, x) ← insert_in_bucket here b k v false x;
      let buck_vers_1 := Z.lor (Tid.unlocked (b_version (map_ x b))) Tid.nonopaque_bit in
      let x := unlock_bucket b x in
      let tx := update_read (Bucket b) buck_vers_0 buck_vers_1 tx in
      Some (true, false, x, writing (fun w => (add_write (Pointer v) w) <| has_insert := true |>) (Row new_head) tx)
  end.

(** [delete_row]: whether it succeeded, and whether the row was there. *)
Definition delete_row (k : K) (x : unordered_index) (tx : Transaction) : option (bool * bool * Transaction) :=
  let b := find_bucket_idx k in
  let buck_vers := b_version (map_ x b) in
  match find_in_bucket x b k with
  | Some e =>
      el ← heap x !! e;
      let tx := put (item tx (Row e)) tx in
      if is_phantom el (item tx (Row e)) then Some (false, false, tx)
      else
        let '(ok, tx) := select_for_update (Row e) (version el) tx in
        if negb ok then Some (false, false, tx)
        else if deleted el then Some (false, false, tx)
        else Some (true, true, writing (fun w => w <| has_delete := true |>) (Row e) tx)
  | None =>
      let '(ok, tx) := observe (Bucket b) buck_vers tx in Some (ok, false, tx)
  end.

Definition nontrans_get (k : K) (x : unordered_index) : option V :=
  e ← find_in_bucket x (find_bucket_idx k) k; row <$> heap x !! e.

(** Here a new element does not change the version of the bucket. *)
Definition nontrans_put (here : Z) (k : K) (v : V) (x : unordered_index) : option unordered_index :=
  let b := find_bucket_idx k in
  x ← lock_bucket here b x;
  match find_in_bucket x b k with
  | None =>
      let e := brk x in
      let x := (set_elem e (elem_new k v true) x) <| brk := e + 1 |> in
      Some (unlock_bucket b (set_bucket b (fun bk => bk <| chain := e :: chain bk |>) x))
  | Some e =>
      el ← heap x !! e;
      let x := set_elem e (el <| row := v |>) x in
      bv ← Tid.inc_nonopaque_version (b_version (map_ x b)) here;
      Some (unlock_bucket b (set_bucket b (fun bk => bk <| b_version := bv |>) x))
  end.

(** [remove], which frees the element at once. *)
Definition remove (here : Z) (k : K) (x : unordered_index) : option (bool * unordered_index) :=
  let b := find_bucket_idx k in
  x ← lock_bucket here b x;
  match find_in_bucket x b k with
  | None => Some (false, unlock_bucket b x)
  | Some e =>
      l ← unlink e (chain (map_ x b));
      let x := unlock_bucket b (set_bucket b (fun bk => bk <| chain := l |>) x) in
      Some (true, x <| heap := delete e (heap x) |>)
  end.

(** [gen_key]: the key, and the next value of [key_gen_]. *)
Definition gen_key (key_gen_ : Z) : Z * Z := (key_gen_, u64 (key_gen_ + 1)).

(** * Commit *)

(** [lock] of an item: [Transaction::try_lock] gives up if the word stays locked. *)
Definition lock (here : Z) (it : TransItem) (x : unordered_index) : option (bool * unordered_index) :=
  match it_key it with
  | Bucket _ => None
  | Row e =>
      el ← heap x !! e;
      let '(ok, v) := Tid.try_lock (version el) here in
      Some (ok, set_elem e (el <| version := v |>) x)
  end.

Definition check (it : TransItem) (x : unordered_index) : option bool :=
  v ← match it_key it with
      | Bucket b => Some (b_version (map_ x b))
      | Row e => version <$> heap x !! e
      end;
  Some (TNonopaqueVersion.cp_check_locked v (has_write (it_w it)) && TNonopaqueVersion.cp_check_version v (rdata it)).

(** The row that [install] leaves in place of [r]: [install_cell]. *)
Definition install_cell (w : wflags) (r : V) : option V :=
  if has_row_cell w then
    match has_commute w, wdata w with
    | true, Comm operate => Some (operate r)
    | false, Pointer v => Some v
    | _, _ => None
    end
  else Some r.

(** [commit_tid_] is 0: nothing of the default build assigns it. *)
Definition install (here : Z) (it : TransItem) (x : unordered_index) : option (TransItem * unordered_index) :=
  match it_key it with
  | Bucket _ => None
  | Row e =>
      el ← heap x !! e;
      let tid := TNonopaqueVersion.cp_commit_tid 0 (version el) in
      if has_delete (it_w it) then
        if valid el && negb (deleted el) then
          v ← Tid.set_version (version el) tid here;
          Some (it, set_elem e (el <| deleted := true |> <| version := v |>) x)
        else None
      else
        r ← (if has_insert (it_w it) then Some (row el) else install_cell (it_w it) (row el));
        Some (it <| needs_unlock := false |>,
              set_elem e (el <| row := r |> <| version := Tid.set_version_unlock tid |>) x)
  end.

Definition unlock (it : TransItem) (x : unordered_index) : option unordered_index :=
  match it_key it with
  | Bucket _ => None
  | Row e => el ← heap x !! e; Some (set_elem e (el <| version := Tid.unlock (version el) |>) x)
  end.

Definition cleanup (here : Z) (committed : bool) (it : TransItem) (x : unordered_index)
    : option (TransItem * unordered_index) :=
  if (if committed then has_delete (it_w it) else has_insert (it_w it)) then
    match it_key it with
    | Bucket _ => None
    | Row e =>
        el ← heap x !! e;
        if negb (valid el) || deleted el then
          x ← _remove here e x; Some (it <| needs_unlock := false |>, x)
        else None
    end
  else Some (it, x).

(** The loops of [try_commit] and [stop] over the items. *)
Fixpoint lock_all (here : Z) (l : list TransItem) (x : unordered_index)
    : option (bool * list TransItem * unordered_index) :=
  match l with
  | [] => Some (true, [], x)
  | it :: l =>
      if has_write (it_w it) then
        '(ok, x) ← (if needs_unlock it then Some (true, x) else lock here it x);
        if negb ok then Some (false, it :: l, x)
        else '(ok, l, x) ← lock_all here l x;
             Some (ok, it <| needs_unlock := true |> <| locked_at_commit := true |> :: l, x)
      else '(ok, l, x) ← lock_all here l x; Some (ok, it :: l, x)
  end.

Fixpoint check_all (l : list TransItem) (x : unordered_index) : option bool :=
  match l with
  | [] => Some true
  | it :: l =>
      ok ← (if has_read it && (locked_at_commit it || negb (needs_unlock it)) then check it x else Some true);
      if ok : bool then check_all l x else Some false
  end.

Fixpoint install_all (here : Z) (l : list TransItem) (x : unordered_index) : option (list TransItem * unordered_index) :=
  match l with
  | [] => Some ([], x)
  | it :: l =>
      '(it, x) ← (if has_write (it_w it) then install here it x else Some (it, x));
      '(l, x) ← install_all here l x; Some (it :: l, x)
  end.

(** These two go from the last item to the first. *)
Fixpoint cleanup_all (here : Z) (committed : bool) (l : list TransItem) (x : unordered_index)
    : option (list TransItem * unordered_index) :=
  match l with
  | [] => Some ([], x)
  | it :: l =>
      '(l, x) ← cleanup_all here committed l x;
      '(it, x) ← (if has_write (it_w it) then cleanup here committed it x else Some (it, x));
      Some (it :: l, x)
  end.

Fixpoint unlock_all (l : list TransItem) (x : unordered_index) : option unordered_index :=
  match l with
  | [] => Some x
  | it :: l => x ← unlock_all l x; if needs_unlock it then unlock it x else Some x
  end.

Definition stop (here : Z) (committed : bool) (l : list TransItem) (tx : Transaction) (x : unordered_index)
    : option unordered_index :=
  '(l, x) ← (if any_writes tx then cleanup_all here committed l x else Some (l, x));
  unlock_all l x.

Definition try_commit (here : Z) (tx : Transaction) (x : unordered_index) : option (bool * unordered_index) :=
  if negb (any_writes tx) && negb (any_nonopaque tx) then x ← stop here true (tset tx) tx x; Some (true, x)
  else
    '(locked, l, x) ← lock_all here (tset tx) x;
    ok ← (if locked : bool then check_all l x else Some false);
    if ok : bool then
      '(l, x) ← install_all here l x;
      x ← stop here true l tx x; Some (true, x)
    else x ← stop here false l tx x; Some (false, x).

(** * Threads *)

(** The body of a transaction.  It looks at a row only if it selected it for
    reading; [Update] and [Commute] are on the row it selected last under the key. *)
Inductive prog :=
  | Done (r : A)
  | Abort
  | Select (k : K) (a : access_t) (c : option (option V) -> prog)
  | Update (k : K) (v : V) (p : prog)
  | Commute (k : K) (operate : V -> V) (p : prog)
  | Insert (k : K) (v : V) (overwrite : bool) (c : bool -> prog)
  | Delete (k : K) (c : bool -> prog).

Record thread := { th_prog : prog; th_body : prog; th_txn : Transaction; th_rows : gmap K Z }.
Record sys := { index : unordered_index; threads : gmap Z thread }.

#[global] Instance eta_thread : Eta thread := fun t => {|
  th_prog := th_prog t; th_body := th_body t; th_txn := th_txn t; th_rows := th_rows t |}.

Inductive event := Committed (id : Z) (p : prog) (r : A) | Aborted (id : Z).
Inductive action := Run (id : Z) (p : prog) | Step (id : Z).

(** After an operation: the thread goes on with [p], or it aborts. *)
Definition continue_or_abort (here : Z) (ok : bool) (t : thread) (x : unordered_index)
    : option (option thread * unordered_index * list event) :=
  if ok then Some (Some t, x, [])
  else x ← stop here false (tset (th_txn t)) (th_txn t) x; Some (None, x, [Aborted here]).

(** One step of a body: the thread is [None] when its transaction has ended. *)
Definition step_thread (here : Z) (t : thread) (x : unordered_index)
    : option (option thread * unordered_index * list event) :=
  let tx := th_txn t in
  match th_body t with
  | Done r =>
      '(ok, x) ← try_commit here tx x;
      Some (None, x, [if ok : bool then Committed here (th_prog t) r else Aborted here])
  | Abort => continue_or_abort here false t x
  | Select k a c =>
      '(ok, r, tx) ← select_split_row k a x tx;
      let seen := (fun ev : Z * V => if access_reads a then Some ev.2 else None) <$> r in
      let rows := match r with Some ev => <[k := ev.1]> (th_rows t) | None => th_rows t end in
      continue_or_abort here ok (t <| th_body := c seen |> <| th_txn := tx |> <| th_rows := rows |>) x
  | Update k v p =>
      rid ← th_rows t !! k;
      Some (Some (t <| th_body := p |> <| th_txn := update_row rid v tx |>), x, [])
  | Commute k f p =>
      rid ← th_rows t !! k;
      Some (Some (t <| th_body := p |> <| th_txn := update_row_comm rid f tx |>), x, [])
  | Insert k v overwrite c =>
      '(ok, found, x, tx) ← insert_row here k v overwrite x tx;
      continue_or_abort here ok (t <| th_body := c found |> <| th_txn := tx |>) x
  | Delete k c =>
      '(ok, found, tx) ← delete_row k x tx;
      continue_or_abort here ok (t <| th_body := c found |> <| th_txn := tx |>) x
  end.

(** An idle thread is given a body, or a thread makes a step; a busy thread cannot
    be given one and an idle thread makes no step. *)
Definition step (a : action) (s : sys) : option (sys * list event) :=
  match a with
  | Run id p =>
      match threads s !! id with
      | Some _ => Some (s, [])
      | None =>
          let t := {| th_prog := p; th_body := p; th_txn := start; th_rows := ∅ |} in
          Some ({| index := index s; threads := <[id := t]> (threads s) |}, [])
      end
  | Step id =>
      match threads s !! id with
      | None => Some (s, [])
      | Some t =>
          '(t, x, ev) ← step_thread id t (index s);
          Some ({| index := x; threads := partial_alter (fun _ => t) id (threads s) |}, ev)
      end
  end.

Fixpoint run (sched : list action) (s : sys) : option (sys * list event) :=
  match sched with
  | [] => Some (s, [])
  | a :: sched => '(s, ev) ← step a s; '(s, tr) ← run sched s; Some (s, ev ++ tr)
  end.

(** [nontrans_put] of the rows, by one thread. *)
Fixpoint load (here : Z) (l : list (K * V)) (x : unordered_index) : option unordered_index :=
  match l with
  | [] => Some x
  | (k, v) :: l => x ← nontrans_put here k v x; load here l x
  end.

End uindex.

Arguments wvalue V : clear implicits.
Arguments wflags V : clear implicits.
Arguments TransItem V : clear implicits.
Arguments Transaction V : clear implicits.
Arguments internal_elem K V : clear implicits.
Arguments unordered_index K V : clear implicits.
Arguments prog K V A : clear implicits.
Arguments thread K V A {_ _}.
Arguments sys K V A {_ _}.
Arguments event K V A : clear implicits.
Arguments action K V A : clear implicits.
