(* ===== verification/UIndexSpec.v ===== *)
(** What a transaction over the hash index means when nothing runs beside it: a
    function on the table of the committed rows.

    Within a transaction a read sees the committed rows and the rows the
    transaction itself has inserted, but none of its updates and deletions
    ([RdMyWr = false]); what it intends to do to a row is kept until the end
    ([todo], by key), where [finish] applies it.  [path] is an execution of a body
    by what it has seen of the table, without the table. *)

From S2P Require Import Prelude UIndex.

Section spec.
Context {K V A : Type} `{Countable K}.

Record local := { mine : gmap K V; todo : gmap K (wflags V); held : gset K }.
#[global] Instance eta_local : Eta local := fun L => {| mine := mine L; todo := todo L; held := held L |}.
Definition local_new : local := {| mine := ∅; todo := ∅; held := ∅ |}.

Definition intend (f : wflags V -> wflags V) (k : K) (L : local) : local :=
  L <| todo := <[k := f (default no_flags (todo L !! k))]> (todo L) |>.

Definition for_write (w : wflags V) : wflags V := (add_write_none w) <| has_row_cell := true |>.
Definition for_insert (v : V) (w : wflags V) : wflags V := (add_write (Pointer v) w) <| has_insert := true |>.
Definition for_delete (w : wflags V) : wflags V := (add_write_none w) <| has_delete := true |>.

Definition look (m : gmap K V) (L : local) (k : K) : option V :=
  match mine L !! k with Some v => Some v | None => m !! k end.

(** The row [k] and the intent [w] of the transaction when it commits. *)
Definition intent_ok (m : gmap K V) (L : local) (k : K) (w : wflags V) : bool :=
  match mine L !! k with
  | Some _ => negb (has_delete w)
  | None => match m !! k with
            | Some r => has_delete w || bool_decide (is_Some (install_cell w r))
            | None => false
            end
  end.

Definition installed (r : option V) (w : option (wflags V)) : option V :=
  match r, w with
  | Some r, Some w => if has_delete w then None else install_cell w r
  | Some r, None => Some r
  | None, _ => None
  end.

Definition finish (m : gmap K V) (L : local) : option (gmap K V) :=
  if bool_decide (map_Forall (fun k w => intent_ok m L k w = true) (todo L))
  then Some (mine L ∪ merge installed m (todo L)) else None.

(** The body alone on the table [m]: its result, [None] if it gives up, and the
    table it leaves. *)
Fixpoint serial (p : prog K V A) (m : gmap K V) (L : local) : option (option A * gmap K V) :=
  match p with
  | Done r => m ← finish m L; Some (Some r, m)
  | Abort => Some (None, m)
  | Select k a c =>
      match look m L k with
      | Some v =>
          let L := L <| held := {[k]} ∪ held L |> in
          serial (c (Some (if access_reads a then Some v else None))) m
            (if access_writes a then intend for_write k L else L)
      | None => serial (c None) m L
      end
  | Update k v p => if decide (k ∈ held L) then serial p m (intend (add_write (Pointer v)) k L) else None
  | Commute k f p => if decide (k ∈ held L) then serial p m (intend (add_commute f) k L) else None
  | Insert k v overwrite c =>
      match look m L k with
      | Some _ => serial (c true) m (if overwrite then intend (add_write (Pointer v)) k L else L)
      | None => serial (c false) m (intend (for_insert v) k (L <| mine := <[k := v]> (mine L) |>))
      end
  | Delete k c =>
      match look m L k with
      | Some _ => serial (c true) m (intend for_delete k L)
      | None => serial (c false) m L
      end
  end.

(** * Executions by what was seen *)

Inductive obs := SawRow (k : K) (v : V) | SawExists (k : K) | SawNone (k : K).

Definition holds (m : gmap K V) (o : obs) : Prop :=
  match o with
  | SawRow k v => m !! k = Some v
  | SawExists k => is_Some (m !! k)
  | SawNone k => m !! k = None
  end.

(** The key an operation looks up, and whether the body gets the row. *)
Definition looks_up (p : prog K V A) : option K :=
  match p with
  | Select k _ _ | Insert k _ _ _ | Delete k _ => Some k
  | _ => None
  end.
Definition value_free (p : prog K V A) : bool :=
  match p with Select _ a _ => negb (access_reads a) | _ => true end.

(** One operation, given the row that was found. *)
Definition sstep (p : prog K V A) (L : local) (found : option V) : option (prog K V A * local) :=
  match p with
  | Done _ | Abort => None
  | Select k a c =>
      match found with
      | Some v =>
          let L := L <| held := {[k]} ∪ held L |> in
          Some (c (Some (if access_reads a then Some v else None)),
                if access_writes a then intend for_write k L else L)
      | None => Some (c None, L)
      end
  | Update k v p => if decide (k ∈ held L) then Some (p, intend (add_write (Pointer v)) k L) else None
  | Commute k f p => if decide (k ∈ held L) then Some (p, intend (add_commute f) k L) else None
  | Insert k v overwrite c =>
      match found with
      | Some _ => Some (c true, if overwrite then intend (add_write (Pointer v)) k L else L)
      | None => Some (c false, intend (for_insert v) k (L <| mine := <[k := v]> (mine L) |>))
      end
  | Delete k c =>
      match found with
      | Some _ => Some (c true, intend for_delete k L)
      | None => Some (c false, L)
      end
  end.

(** What was seen of the table when [found] was found. *)
Definition seen (p : prog K V A) (L : local) (found : option V) (o : list obs) : Prop :=
  match looks_up p with
  | None => o = []
  | Some k =>
      match mine L !! k with
      | Some v => found = Some v /\ o = []
      | None =>
          match found with
          | Some v => o = [SawRow k v] \/ value_free p = true /\ o = [SawExists k]
          | None => o = [SawNone k]
          end
      end
  end.

Inductive path (p0 : prog K V A) : list obs -> prog K V A -> local -> Prop :=
  | path_start : path p0 [] p0 local_new
  | path_step l p L found o p' L' :
      path p0 l p L -> seen p L found o -> sstep p L found = Some (p', L') -> path p0 (o ++ l) p' L'.

Lemma sstep_value_free p L v v' : value_free p = true -> sstep p L (Some v) = sstep p L (Some v').
Proof. intros Hf. destruct p; try done. cbn in *. by apply negb_true_iff in Hf as ->. Qed.

Lemma serial_step p m L p' L' :
  sstep p L (match looks_up p with Some k => look m L k | None => None end) = Some (p', L') ->
  serial p m L = serial p' m L'.
Proof.
  destruct p; cbn [sstep looks_up serial]; try done; intros E.
  - destruct (look m L k); by inversion E.
  - case_decide; [|done]. by inversion E.
  - case_decide; [|done]. by inversion E.
  - destruct (look m L k); by inversion E.
  - destruct (look m L k); by inversion E.
Qed.

(** A table in which everything holds that was seen leads to the same place. *)
Lemma path_serial p0 l p L m : path p0 l p L -> Forall (holds m) l -> serial p0 m local_new = serial p m L.
Proof.
  induction 1 as [|l p L found o p' L' _ IH Hs E]; [done|]. intros [Ho Hl]%Forall_app. rewrite IH by done.
  apply serial_step. rewrite <-E. unfold seen in Hs. destruct (looks_up p) as [k|] eqn:Hk.
  - unfold look. destruct (mine L !! k) as [v|]; [by destruct Hs as [-> _]|]. destruct found as [v|].
    + destruct Hs as [->|[Hf ->]]; apply Forall_inv in Ho; cbn in Ho; [by rewrite Ho|].
      destruct Ho as [v' ->]. by apply sstep_value_free.
    + subst o. apply Forall_inv in Ho. cbn in Ho. by rewrite Ho.
  - destruct p; try done.
Qed.

(** The committed transactions of a run, one after the other. *)
Definition commit_of (e : event K V A) : option (prog K V A * A) :=
  match e with Committed _ p r => Some (p, r) | Aborted _ => None end.

Inductive serial_run : gmap K V -> list (prog K V A * A) -> gmap K V -> Prop :=
  | serial_nil m : serial_run m [] m
  | serial_snoc m l m1 p r m2 :
      serial_run m l m1 -> serial p m1 local_new = Some (Some r, m2) -> serial_run m (l ++ [(p, r)]) m2.

(** * The table after a transaction *)

Lemma finish_lookup m L m' :
  finish m L = Some m' -> forall k, m' !! k = match mine L !! k with Some v => Some v | None => installed (m !! k) (todo L !! k) end.
Proof.
  unfold finish. case_bool_decide as Hok; [|done]. intros [= <-] k.
  destruct (mine L !! k) as [v|] eqn:Hk; [by apply lookup_union_Some_l|]. rewrite lookup_union_r, lookup_merge by done.
  destruct (m !! k), (todo L !! k); done.
Qed.

Lemma finish_defined m L :
  (forall k w, todo L !! k = Some w -> intent_ok m L k w = true) -> exists m', finish m L = Some m'.
Proof. intros Hok. unfold finish. rewrite bool_decide_true; [by eexists|exact Hok]. Qed.

End spec.
Arguments local K V {_ _}.
Arguments obs K V : clear implicits.
