(* ===== verification/UIndexInv.v ===== *)
(** The invariant of the hash index: well-formed buckets ([wf]), what the items of
    a running transaction know of the index ([tx_ok]), transactions that can no
    longer commit ([doomed]), and transactions whose observations are those of the
    committed rows ([good]); and what one thread's step may do to the index as
    another one sees it ([evolves]). *)

From stdpp Require Import functions.
From S2P Require Import Prelude Tid UIndex UIndexSpec.

Definition num (v : Z) : Z := v / 4096.

(** A word of an element; [N] bounds the version numbers. *)
Definition word_ok (N v : Z) : Prop := exists n i o, v = vword n i o /\ owner_ok o /\ 0 <= n <= N.

Lemma num_vword n i o : owner_ok o -> num (vword n i o) = n.
Proof. apply vword_div. Qed.

Lemma word_ok_mono N N' v : word_ok N v -> N <= N' -> word_ok N' v.
Proof. intros (n & i & o & -> & Ho & Hn) ?. exists n, i, o. split_and!; [done|done|lia|lia]. Qed.

Lemma word_ok_num N v : word_ok N v -> 0 <= num v <= N.
Proof. intros (n & i & o & -> & Ho & Hn). by rewrite num_vword. Qed.

Section items.
Context {V : Type}.
Implicit Types (tx : Transaction V) (it : TransItem V) (l : list (TransItem V)) (w : wflags V).

Definition flagged it : bool := has_read it || has_write (it_w it).
Definition own tx (e : Z) : Prop := has_insert (it_w (item tx (Row e))) = true.
#[global] Instance own_dec tx e : Decision (own tx e).
Proof. unfold own. apply _. Defined.

(** The items of a transaction that is not committing. *)
Record tx_self tx : Prop := {
  ts_nodup : NoDup (it_key <$> tset tx);
  ts_unlocked k : needs_unlock (item tx k) = false /\ locked_at_commit (item tx k) = false;
  ts_noflags k : has_write (it_w (item tx k)) = false -> it_w (item tx k) = no_flags;
  ts_bucket b : has_write (it_w (item tx (Bucket b))) = false;
  ts_any_w k : has_write (it_w (item tx k)) = true -> any_writes tx = true;
  ts_any_r k : has_read (item tx k) = true -> any_nonopaque tx = true }.

Lemma find_item_key l k it : find_item l k = Some it -> it_key it = k.
Proof. induction l as [|it' l IH]; cbn; [done|]. case_decide; [by intros [= <-]|done]. Qed.

Lemma item_key_of tx k : it_key (item tx k) = k.
Proof. unfold item. destruct (find_item _ _) eqn:E; [by apply find_item_key in E|done]. Qed.

Lemma find_item_elem l k it : find_item l k = Some it -> it ∈ l.
Proof.
  induction l as [|it' l IH]; cbn; [done|]. case_decide; [intros [= <-]; left|intros E; right; by apply IH].
Qed.

Lemma find_item_in l it : NoDup (it_key <$> l) -> it ∈ l -> find_item l (it_key it) = Some it.
Proof.
  induction l as [|it' l IH]; cbn; [by intros _ ?%not_elem_of_nil|]. intros [Hn Hd]%NoDup_cons [->|Hin]%elem_of_cons.
  { by rewrite decide_True. }
  rewrite decide_False; [by apply IH|]. intros E. apply Hn. rewrite E. by apply list_elem_of_fmap_2.
Qed.

Lemma item_in tx it : NoDup (it_key <$> tset tx) -> it ∈ tset tx -> item tx (it_key it) = it.
Proof. intros Hd Hin. unfold item. by rewrite find_item_in. Qed.

(** An item that differs from a new one is in the list. *)
Lemma item_elem tx k : flagged (item tx k) = true -> item tx k ∈ tset tx.
Proof. unfold item. destruct (find_item _ _) eqn:E; [intros _; by eapply find_item_elem|done]. Qed.

Lemma put_item_keys it l :
  it_key <$> put_item it l = (it_key <$> l) ++ (if decide (it_key it ∈ it_key <$> l) then [] else [it_key it]).
Proof.
  induction l as [|it' l IH]; cbn; [by rewrite decide_False by (apply not_elem_of_nil)|].
  destruct (decide (it_key it' = it_key it)) as [E|E]; cbn.
  - rewrite decide_True; [by rewrite E, app_nil_r|]. rewrite E. left.
  - f_equal. rewrite IH. f_equal. apply decide_ext. rewrite elem_of_cons. naive_solver.
Qed.

Lemma find_put it l k : find_item (put_item it l) k = if decide (k = it_key it) then Some it else find_item l k.
Proof.
  induction l as [|it' l IH]; cbn.
  { by case_decide; case_decide. }
  destruct (decide (it_key it' = it_key it)) as [E|E]; cbn; [|rewrite IH];
    repeat case_decide; congruence.
Qed.

Lemma item_put it tx k : item (put it tx) k = if decide (k = it_key it) then it else item tx k.
Proof. unfold item, put. cbn. rewrite find_put. by case_decide. Qed.

Lemma item_tset tx tx' k : tset tx = tset tx' -> item tx k = item tx' k.
Proof. unfold item. by intros ->. Qed.

(** [tx'] is [tx] but for the item of [k]. *)
Record sets tx (k : item_key) (it : TransItem V) tx' : Prop := {
  set_item_ k' : item tx' k' = if decide (k' = k) then it else item tx k';
  set_nodup : NoDup (it_key <$> tset tx) -> NoDup (it_key <$> tset tx');
  set_any_w : any_writes tx = true \/ has_write (it_w it) && negb (has_write (it_w (item tx k))) = true -> any_writes tx' = true;
  set_any_r : any_nonopaque tx = true \/ has_read it && negb (has_read (item tx k)) = true -> any_nonopaque tx' = true }.

Lemma put_nodup it tx : NoDup (it_key <$> tset tx) -> NoDup (it_key <$> tset (put it tx)).
Proof.
  intros Hd. cbn. rewrite put_item_keys. apply NoDup_app. split_and!; [done| |].
  - intros k Hk. case_decide; [apply not_elem_of_nil|]. rewrite list_elem_of_singleton. by intros ->.
  - case_decide; [apply NoDup_nil_2|apply NoDup_singleton].
Qed.

Lemma sets_self tx k it tx' :
  sets tx k it tx' -> tx_self tx -> needs_unlock it = false -> locked_at_commit it = false ->
  (has_write (it_w it) = false -> it_w it = no_flags) -> (forall b, k = Bucket b -> has_write (it_w it) = false) ->
  tx_self tx'.
Proof.
  intros S [H1 H2 H3 H4 H5 H6] Hu Hl Hn Hb. split.
  - by apply (set_nodup _ _ _ _ S).
  - intros k'. rewrite (set_item_ _ _ _ _ S). case_decide; [done|apply H2].
  - intros k'. rewrite (set_item_ _ _ _ _ S). case_decide; [done|apply H3].
  - intros b. rewrite (set_item_ _ _ _ _ S). case_decide; [by eapply Hb|apply H4].
  - intros k'. rewrite (set_item_ _ _ _ _ S). intros Hw. apply (set_any_w _ _ _ _ S).
    destruct (has_write (it_w (item tx k))) eqn:E; [left; by eapply H5|]. case_decide; [right; by rewrite Hw|left; by eapply H5].
  - intros k'. rewrite (set_item_ _ _ _ _ S). intros Hw. apply (set_any_r _ _ _ _ S).
    destruct (has_read (item tx k)) eqn:E; [left; by eapply H6|]. case_decide; [right; by rewrite Hw|left; by eapply H6].
Qed.

Lemma sets_put tx k : sets tx k (item tx k) (put (item tx k) tx).
Proof.
  split; [|apply put_nodup| |].
  - intros k'. rewrite item_put, item_key_of. by case_decide; subst.
  - by rewrite andb_negb_r; intros [?|?].
  - by rewrite andb_negb_r; intros [?|?].
Qed.

Lemma sets_trans tx k it tx1 it2 tx2 : sets tx k it tx1 -> sets tx1 k it2 tx2 -> 
  (has_write (it_w it) = true -> has_write (it_w it2) = true) -> (has_read it = true -> has_read it2 = true) ->
  sets tx k it2 tx2.
Proof.
  intros S1 S2 Hw Hr. split.
  - intros k'. rewrite (set_item_ _ _ _ _ S2), (set_item_ _ _ _ _ S1). by case_decide.
  - intros Hd. by apply (set_nodup _ _ _ _ S2), (set_nodup _ _ _ _ S1).
  - intros Ha. apply (set_any_w _ _ _ _ S2). rewrite (set_item_ _ _ _ _ S1), decide_True by done.
    destruct (has_write (it_w it)) eqn:E; [left; apply (set_any_w _ _ _ _ S1); rewrite E|].
    + destruct Ha as [?|[_ ?]%andb_true_iff]; [by left|right; by apply andb_true_iff].
    + destruct Ha as [?|[? ?]%andb_true_iff]; [left; apply (set_any_w _ _ _ _ S1); by left|right; by apply andb_true_iff].
  - intros Ha. apply (set_any_r _ _ _ _ S2). rewrite (set_item_ _ _ _ _ S1), decide_True by done.
    destruct (has_read it) eqn:E; [left; apply (set_any_r _ _ _ _ S1); rewrite E|].
    + destruct Ha as [?|[_ ?]%andb_true_iff]; [by left|right; by apply andb_true_iff].
    + destruct Ha as [?|[? ?]%andb_true_iff]; [left; apply (set_any_r _ _ _ _ S1); by left|right; by apply andb_true_iff].
Qed.

Definition read_of it (v : Z) : TransItem V := if has_read it then it else it <| has_read := true |> <| rdata := v |>.

Lemma observe_sets k v tx :
  exists tx', observe k v tx = (negb (Tid.is_locked v), tx') /\
    sets tx k (if Tid.is_locked v then item tx k else read_of (item tx k) v) tx'.
Proof.
  unfold observe, read_of. destruct (Tid.is_locked v); cbn; [eexists; split; [done|apply sets_put]|].
  destruct (has_read (item tx k)) eqn:E; cbn; eexists; (split; [done|]); [apply sets_put|].
  split; [|intros Hd; cbn; by apply put_nodup|cbn|done].
  - intros k'. transitivity (item (put ((item tx k) <| has_read := true |> <| rdata := v |>) tx) k'); [by apply item_tset|]. rewrite item_put. cbn. rewrite item_key_of. by case_decide; subst.
  - rewrite andb_negb_r. by intros [?|?].
Qed.

Lemma writing_sets f k tx :
  sets tx k ((item tx k) <| it_w := f (it_w (item tx k)) |>) (writing f k tx).
Proof.
  unfold writing. split; [|intros Hd; cbn; by apply put_nodup|done|].
  - intros k'. transitivity (item (put ((item tx k) <| it_w := f (it_w (item tx k)) |>) tx) k'); [by apply item_tset|]. rewrite item_put. cbn. rewrite item_key_of. by case_decide; subst.
  - cbn. rewrite andb_negb_r. by intros [?|?].
Qed.

Lemma sets_item tx k it tx' : sets tx k it tx' -> item tx' k = it.
Proof. intros S. rewrite (set_item_ _ _ _ _ S). by rewrite decide_True. Qed.

Lemma start_self : tx_self start.
Proof. split; try done. cbn. apply NoDup_nil_2. Qed.

End items.

Section invariant.
Context {K V A : Type} `{Countable K} (hasher_ : K -> Z) (nbuckets : Z).
Implicit Types (x : unordered_index K V) (el : internal_elem K V) (tx : Transaction V) (m : gmap K V).
Abbreviation find_bucket_idx := (find_bucket_idx hasher_ nbuckets).

(** * The index *)

Definition linked x (e : Z) : Prop := exists b, e ∈ chain (map_ x b).
Definition locked el : bool := Tid.is_locked (version el).
(** A committed element. *)
Definition live x (e : Z) el : Prop := heap x !! e = Some el /\ linked x e /\ valid el = true.

Record wf (N : Z) x : Prop := {
  wf_heap e el : heap x !! e = Some el -> word_ok N (version el) /\ e < brk x;
  wf_bucket b : exists n, b_version (map_ x b) = vword n false None /\ 0 <= n <= N;
  wf_chain b e : e ∈ chain (map_ x b) ->
    exists el, heap x !! e = Some el /\ find_bucket_idx (e_key el) = b /\ locked el = false /\ deleted el = false;
  wf_keys e e' el el' : linked x e -> linked x e' -> heap x !! e = Some el -> heap x !! e' = Some el' ->
    e_key el = e_key el' -> e = e';
  wf_nodup b : NoDup (chain (map_ x b)) }.

(** The committed rows are [m]. *)
Definition represents x m : Prop :=
  forall k v, m !! k = Some v <-> exists e el, live x e el /\ e_key el = k /\ row el = v.

Lemma linked_elem N x e :
  wf N x -> linked x e -> exists el, heap x !! e = Some el /\ e ∈ chain (map_ x (find_bucket_idx (e_key el))) /\
    locked el = false /\ deleted el = false.
Proof. intros W [b Hb]. destruct (wf_chain _ _ W _ _ Hb) as (el & ? & <- & ? & ?). by exists el. Qed.

Lemma find_in_chain_Some x l k e :
  find_in_chain x l k = Some e -> e ∈ l /\ exists el, heap x !! e = Some el /\ e_key el = k.
Proof.
  induction l as [|e' l IH]; cbn; [done|]. unfold key_at. destruct (heap x !! e') as [el|] eqn:He.
  - case_bool_decide; [|intros E; destruct (IH E); split; [by right|done]].
    intros [= <-]. split; [left|by exists el].
  - intros E. destruct (IH E). split; [by right|done].
Qed.

Lemma find_in_chain_None x l k e el :
  find_in_chain x l k = None -> e ∈ l -> heap x !! e = Some el -> e_key el <> k.
Proof.
  induction l as [|e' l IH]; cbn; [by intros _ ?%not_elem_of_nil|].
  unfold key_at. intros E [->|Hin]%elem_of_cons He; [rewrite He in E; by case_bool_decide|].
  destruct (heap x !! e') as [el'|]; [case_bool_decide; [done|]|]; by apply IH.
Qed.

Lemma find_in_bucket_Some x b k e :
  find_in_bucket x b k = Some e -> linked x e /\ exists el, heap x !! e = Some el /\ e_key el = k.
Proof. intros [Hin Hel]%find_in_chain_Some. split; [by exists b|done]. Qed.

Lemma find_in_bucket_None N x k e el :
  wf N x -> find_in_bucket x (find_bucket_idx k) k = None -> linked x e -> heap x !! e = Some el -> e_key el <> k.
Proof.
  intros W E [b Hb] He Hk. destruct (wf_chain _ _ W _ _ Hb) as (el' & He' & Hb' & _). simplify_eq.
  by eapply find_in_chain_None.
Qed.

Lemma represents_None x m k :
  represents x m -> (forall e el, live x e el -> e_key el <> k) -> m !! k = None.
Proof.
  intros R Hn. destruct (m !! k) as [v|] eqn:E; [|done]. apply R in E as (e & el & Hl & Hk & _). by eapply Hn in Hl.
Qed.

(** * Transactions *)

(** What an item knows of its element: it is the transaction's own new row, a
    committed row, or a row that has been removed. *)
Definition row_ok (N : Z) x (e : Z) (it : TransItem V) : Prop :=
  exists el, heap x !! e = Some el /\
    (if has_insert (it_w it) then linked x e /\ valid el = false
     else linked x e /\ valid el = true \/ locked el = true) /\
    (has_read it = true -> word_ok N (rdata it) /\ num (rdata it) <= num (version el)).

Definition bucket_ok (N : Z) x (b : Z) (it : TransItem V) : Prop :=
  has_read it = true -> exists n, rdata it = vword n false None /\ 0 <= n <= num (b_version (map_ x b)).

Record tx_ok (N : Z) x tx : Prop := {
  to_self : tx_self tx;
  to_rows e : flagged (item tx (Row e)) = true -> row_ok N x e (item tx (Row e));
  to_buckets b : bucket_ok N x b (item tx (Bucket b)) }.

(** An item that keeps its transaction from committing. *)
Definition doomed_item x (it : TransItem V) : bool :=
  match it_key it with
  | Row e =>
      match heap x !! e with
      | Some el => flagged it && (locked el || has_read it && (num (rdata it) <? num (version el)))
      | None => false
      end
  | Bucket b => has_read it && (num (rdata it) <? num (b_version (map_ x b)))
  end.
Definition doomed x tx : Prop := exists k, doomed_item x (item tx k) = true.

Lemma doomed_flagged x it : doomed_item x it = true -> flagged it = true.
Proof.
  unfold doomed_item, flagged. destruct (it_key it); [destruct (heap x !! e); [|done]|];
  intros E; apply andb_true_iff in E as [-> _]; done.
Qed.

Lemma doomed_dec x tx : {doomed x tx} + {~ doomed x tx}.
Proof.
  destruct (existsb (doomed_item x) ((fun it => item tx (it_key it)) <$> tset tx)) eqn:E.
  - left. apply existsb_exists in E as (it & Hin & Hd). apply list_elem_of_In, list_elem_of_fmap in Hin as (it' & -> & _).
    by exists (it_key it').
  - right. intros [k Hk]. assert (existsb (doomed_item x) ((fun it => item tx (it_key it)) <$> tset tx) = true); [|congruence].
    apply existsb_exists. exists (item tx k). split; [|done]. apply list_elem_of_In, list_elem_of_fmap.
    exists (item tx k). rewrite item_key_of. split; [done|]. by apply item_elem, (doomed_flagged x).
Qed.

(** What was seen is so. *)
Definition obs_ok x tx (o : obs K V) : Prop :=
  match o with
  | SawRow k v => exists e el, has_read (item tx (Row e)) = true /\ live x e el /\ e_key el = k /\ row el = v
  | SawExists k => exists e el, flagged (item tx (Row e)) = true /\ live x e el /\ e_key el = k
  | SawNone k =>
      has_read (item tx (Bucket (find_bucket_idx k))) = true /\
        (forall e el, linked x e -> heap x !! e = Some el -> e_key el = k -> own tx e) \/
      (exists e el, own tx e /\ heap x !! e = Some el /\ e_key el = k)
  end.

(** The items are what the transaction intends, and [rows] the elements it holds. *)
Record agrees x tx (L : local K V) (rows : gmap K Z) : Prop := {
  ag_todo e el : heap x !! e = Some el -> linked x e -> has_write (it_w (item tx (Row e))) = true ->
    todo L !! e_key el = Some (it_w (item tx (Row e)));
  ag_items k w : todo L !! k = Some w ->
    exists e el, heap x !! e = Some el /\ linked x e /\ e_key el = k /\
      has_write (it_w (item tx (Row e))) = true /\ it_w (item tx (Row e)) = w;
  ag_mine k v : mine L !! k = Some v <-> exists e el, own tx e /\ heap x !! e = Some el /\ e_key el = k /\ row el = v;
  ag_rows k e : rows !! k = Some e -> exists el, heap x !! e = Some el /\ e_key el = k /\ flagged (item tx (Row e)) = true;
  ag_held k : k ∈ held L <-> is_Some (rows !! k) }.

Definition good x (t : thread K V A) : Prop :=
  exists l L, path (th_prog t) l (th_body t) L /\ Forall (obs_ok x (th_txn t)) l /\ agrees x (th_txn t) L (th_rows t).

(** * What a step does to the index *)

(** [mine] are the new rows of the thread that makes the step. *)
Record evolves (mine : Z -> Prop) x x' : Prop := {
  ev_brk : brk x <= brk x';
  ev_heap e el : heap x !! e = Some el -> exists el', heap x' !! e = Some el' /\ e_key el' = e_key el /\
    num (version el) <= num (version el') /\ (locked el = true -> locked el' = true) /\
    (linked x e -> valid el = true ->
       linked x' e /\ valid el' = true /\ (num (version el') = num (version el) -> row el' = row el) \/ locked el' = true) /\
    (linked x e -> valid el = false -> ~ mine e -> el' = el /\ linked x' e);
  ev_bucket b : num (b_version (map_ x b)) <= num (b_version (map_ x' b)) /\
    (num (b_version (map_ x' b)) = num (b_version (map_ x b)) -> forall e, e ∈ chain (map_ x' b) -> e ∈ chain (map_ x b)) }.

Lemma evolves_refl mine x : evolves mine x x.
Proof.
  split; [lia| |].
  - intros e el He. exists el. split_and!; [done|done|lia|done| |done]. intros ? ?. left. done.
  - intros b. split; [lia|done].
Qed.

Lemma evolves_trans mine1 mine2 x x1 x' : evolves mine1 x x1 -> evolves mine2 x1 x' -> evolves (fun e => mine1 e \/ mine2 e) x x'.
Proof.
  intros E1 E2. split; [pose proof (ev_brk _ _ _ E1); pose proof (ev_brk _ _ _ E2); lia| |].
  - intros e el He. destruct (ev_heap _ _ _ E1 e el He) as (el1 & He1 & Hk1 & Hn1 & Hl1 & Hv1 & Hm1).
    destruct (ev_heap _ _ _ E2 e el1 He1) as (el' & He' & Hk2 & Hn2 & Hl2 & Hv2 & Hm2).
    exists el'. split_and!; [done|congruence|lia|by intros ?%Hl1%Hl2| |].
    + intros Hl Hv. destruct (Hv1 Hl Hv) as [(Hl' & Hv' & Hr)|?%Hl2]; [|by right].
      destruct (Hv2 Hl' Hv') as [(? & ? & Hr')|?]; [left|by right]. split_and!; [done|done|]. intros Hn.
      rewrite Hr', Hr by lia. done.
    + intros Hl Hv Hno. destruct (Hm1 Hl Hv) as [-> Hl']; [naive_solver|]. apply Hm2; [done|done|naive_solver].
  - intros b. destruct (ev_bucket _ _ _ E1 b) as [Hb1 Hs1]. destruct (ev_bucket _ _ _ E2 b) as [Hb2 Hs2]. split; [lia|].
    intros Hn e Hin. apply Hs1, Hs2; [lia..|done].
Qed.

Lemma evolves_weaken (mine1 mine2 : Z -> Prop) x x' :
  (forall e el, heap x !! e = Some el -> mine1 e -> mine2 e) -> evolves mine1 x x' -> evolves mine2 x x'.
Proof.
  intros Hw [E1 E2 E3]. split; [done| |done]. intros e el He. destruct (E2 e el He) as (el' & ? & ? & ? & ? & ? & Hn).
  exists el'. split_and!; try done. intros Hl Hv Hno. apply Hn; [done|done|]. intros Hm. by apply Hno, (Hw e el).
Qed.

(** The bound on the version numbers may grow. *)
Lemma wf_mono N N' x : N <= N' -> wf N x -> wf N' x.
Proof.
  intros Hle [H1 H2 H3 H4 H5]. split; [| |done..].
  - intros e el He. destruct (H1 e el He). split; [by eapply word_ok_mono|done].
  - intros b. destruct (H2 b) as (n & ? & ?). exists n. split; [done|lia].
Qed.

Lemma tx_ok_mono N N' x tx : N <= N' -> tx_ok N x tx -> tx_ok N' x tx.
Proof.
  intros Hle [H1 H2 H3]. split; [done| |].
  - intros e Hf. destruct (H2 e Hf) as (el & ? & ? & Hr). exists el. split_and!; [done|done|]. intros Hh.
    destruct (Hr Hh). split; [by eapply word_ok_mono|done].
  - done.
Qed.

Section other.
Context (N : Z) (mine : Z -> Prop) (x x' : unordered_index K V) (tx : Transaction V).
Context (E : evolves mine x x') (W : wf N x) (W' : wf (N + 1) x') (T : tx_ok N x tx).
Context (Hown : forall e, own tx e -> ~ mine e).
#[local] Set Default Proof Using "Type*".

Lemma own_flagged e : own tx e -> flagged (item tx (Row e)) = true.
Proof using T.
  unfold own, flagged. intros Ho. destruct (has_write (it_w (item tx (Row e)))) eqn:Hw; [by rewrite orb_true_r|].
  by rewrite (ts_noflags _ (to_self _ _ _ T) _ Hw) in Ho.
Qed.

(** The new row of another transaction is left alone. *)
Lemma other_own e : own tx e -> exists el, heap x !! e = Some el /\ heap x' !! e = Some el /\ linked x e /\ linked x' e /\ valid el = false.
Proof.
  intros Ho. destruct (to_rows _ _ _ T e (own_flagged e Ho)) as (el & He & Hr & _). unfold own in Ho. rewrite Ho in Hr.
  destruct Hr as [Hl Hv]. destruct (ev_heap _ _ _ E e el He) as (el' & He' & _ & _ & _ & _ & Hm).
  destruct (Hm Hl Hv (Hown e Ho)) as [-> Hl']. by exists el.
Qed.

Lemma other_tx_ok : tx_ok (N + 1) x' tx.
Proof.
  split; [apply (to_self _ _ _ T)| |].
  - intros e Hf. destruct (to_rows _ _ _ T e Hf) as (el & He & Hr & Hd). unfold row_ok.
    destruct (has_insert (it_w (item tx (Row e)))) eqn:Ho.
    + destruct (other_own e Ho) as (el0 & ? & He' & _ & Hl & Hv). simplify_eq. exists el. split_and!; [done|done|done|].
      intros Hh. destruct (Hd Hh) as [? ?]. split; [eapply word_ok_mono; [done|lia]|done].
    + destruct (ev_heap _ _ _ E e el He) as (el' & He' & _ & Hn & Hk & Hlv & _). exists el'. split_and!; [done| |].
      * destruct Hr as [[Hl Hv]|Hr]; [|right; by apply Hk]. destruct (Hlv Hl Hv) as [(? & ? & _)|?]; [by left|by right].
      * intros Hh. destruct (Hd Hh) as [? ?]. split; [eapply word_ok_mono; [done|lia]|lia].
  - intros b Hh. destruct (to_buckets _ _ _ T b Hh) as (n & ? & ?). destruct (ev_bucket _ _ _ E b) as [? _].
    exists n. split; [done|lia].
Qed.

Lemma other_doomed : doomed x tx -> doomed x' tx.
Proof.
  intros [k Hk]. exists k. revert Hk. unfold doomed_item. destruct (it_key (item tx k)) as [e|b].
  - destruct (heap x !! e) as [el|] eqn:He; [|done]. destruct (ev_heap _ _ _ E e el He) as (el' & -> & _ & Hn & Hl & _).
    intros [-> Hd]%andb_true_iff. cbn [andb]. apply orb_true_iff in Hd as [Hd|[-> Hd]%andb_true_iff].
    + by rewrite (Hl Hd).
    + apply Z.ltb_lt in Hd. apply orb_true_iff. right. cbn [andb]. apply Z.ltb_lt. lia.
  - intros [-> Hd]%andb_true_iff. destruct (ev_bucket _ _ _ E b) as [? _]. cbn [andb].
    apply Z.ltb_lt in Hd. apply Z.ltb_lt. lia.
Qed.

(** A committed row of a transaction that is not doomed. *)
Lemma other_live e el :
  ~ doomed x' tx -> flagged (item tx (Row e)) = true -> live x e el ->
  exists el', live x' e el' /\ e_key el' = e_key el /\ (has_read (item tx (Row e)) = true -> row el' = row el).
Proof.
  intros Hnd Hf (He & Hl & Hv). destruct (ev_heap _ _ _ E e el He) as (el' & He' & Hk & Hn & _ & Hlv & _).
  assert (doomed_item x' (item tx (Row e)) = false) as Hd.
  { destruct (doomed_item x' (item tx (Row e))) eqn:Hd; [|done]. destruct Hnd. by exists (Row e). }
  unfold doomed_item in Hd. rewrite item_key_of, He', Hf in Hd. cbn [andb] in Hd. apply orb_false_iff in Hd as [Hd1 Hd2].
  destruct (Hlv Hl Hv) as [(Hl' & Hv' & Hr)|?]; [|congruence]. exists el'. split_and!; [done|done|].
  intros Hh. apply Hr. rewrite Hh in Hd2. cbn [andb] in Hd2. apply Z.ltb_ge in Hd2.
  destruct (to_rows _ _ _ T e Hf) as (el0 & ? & _ & Hb). simplify_eq. destruct (Hb Hh). lia.
Qed.

Lemma other_obs o : ~ doomed x' tx -> obs_ok x tx o -> obs_ok x' tx o.
Proof.
  intros Hnd. destruct o as [k v|k|k]; cbn.
  - intros (e & el & Hh & Hl & <- & <-). destruct (other_live e el Hnd) as (el' & ? & ? & Hr); [|done|].
    { unfold flagged. by rewrite Hh. }
    exists e, el'. split_and!; [done|done|done|by apply Hr].
  - intros (e & el & Hf & Hl & <-). destruct (other_live e el Hnd Hf Hl) as (el' & ? & ? & _). exists e, el'. done.
  - intros [[Hh Hall]|(e & el & Ho & He & <-)].
    + left. split; [done|]. intros e el Hl He Hk. set (b := find_bucket_idx k) in *.
      assert (doomed_item x' (item tx (Bucket b)) = false) as Hd.
      { destruct (doomed_item x' (item tx (Bucket b))) eqn:Hd; [|done]. destruct Hnd. by exists (Bucket b). }
      unfold doomed_item in Hd. rewrite item_key_of, Hh in Hd. cbn [andb] in Hd. apply Z.ltb_ge in Hd.
      destruct (to_buckets _ _ _ T b Hh) as (n & Hrd & Hn). rewrite Hrd, num_vword in Hd by done.
      destruct (ev_bucket _ _ _ E b) as [Hle Hsub].
      destruct (linked_elem _ _ _ W' Hl) as (el0 & ? & Hin & _). simplify_eq.
      pose proof (Hsub ltac:(lia) e Hin) as Hin'. destruct (wf_chain _ _ W _ _ Hin') as (el1 & He1 & _).
      destruct (ev_heap _ _ _ E e el1 He1) as (? & ? & Hk1 & _). simplify_eq. eapply Hall; [by eexists|done|done].
    + right. destruct (other_own e Ho) as (? & ? & ? & _). simplify_eq. by exists e, el.
Qed.

Lemma other_agrees L rows : ~ doomed x' tx -> agrees x tx L rows -> agrees x' tx L rows.
Proof.
  intros Hnd [H1 H2 H3 H4 H5].
  assert (forall e, flagged (item tx (Row e)) = true -> exists el el', heap x !! e = Some el /\ heap x' !! e = Some el' /\
    e_key el' = e_key el /\ linked x e /\ linked x' e /\ (own tx e -> row el' = row el)) as HX.
  { intros e Hf. destruct (to_rows _ _ _ T e Hf) as (el & He & Hr & _).
    destruct (has_insert (it_w (item tx (Row e)))) eqn:Ho.
    - destruct (other_own e Ho) as (el0 & ? & ? & ? & ? & ?). by exists el0, el0.
    - destruct Hr as [[Hl Hv]|Hlk].
      + destruct (other_live e el Hnd Hf) as (el' & (? & ? & ?) & ? & _); [done|]. exists el, el'. split_and!; try done.
        unfold own. congruence.
      + destruct Hnd. apply other_doomed. exists (Row e). unfold doomed_item. by rewrite item_key_of, He, Hf, Hlk. }
  split.
  - intros e el' He' Hl' Hw. destruct (HX e) as (el & ? & He & ? & Hk & Hl & _); [unfold flagged; by rewrite Hw, orb_true_r|].
    simplify_eq. rewrite Hk. by apply H1.
  - intros k w Hw. destruct (H2 k w Hw) as (e & el & He & Hl & Hk & Hhw & Hiw).
    destruct (HX e) as (? & el' & ? & He' & Hk' & _ & Hl' & _); [unfold flagged; by rewrite Hhw, orb_true_r|].
    simplify_eq. by exists e, el'.
  - intros k v. rewrite H3. split.
    + intros (e & el & Ho & He & Hk & Hr). destruct (HX e (own_flagged e Ho)) as (? & el' & ? & He' & Hk' & _ & _ & Hr').
      simplify_eq. exists e, el'. split_and!; [done|done|congruence|rewrite <-Hr'; done].
    + intros (e & el' & Ho & He' & Hk & Hr). destruct (HX e (own_flagged e Ho)) as (el & ? & He & ? & Hk' & _ & _ & Hr').
      simplify_eq. exists e, el. split_and!; [done|done|congruence|rewrite <-Hr'; done].
  - intros k e Hr. destruct (H4 k e Hr) as (el & He & Hk & Hf). destruct (HX e Hf) as (? & el' & ? & He' & Hk' & _).
    simplify_eq. exists el'. split_and!; [done|congruence|done].
  - done.
Qed.

End other.

Lemma other_good N mine x x' (t : thread K V A) :
  evolves mine x x' -> wf N x -> wf (N + 1) x' -> tx_ok N x (th_txn t) -> (forall e, own (th_txn t) e -> ~ mine e) ->
  doomed x (th_txn t) \/ good x t -> doomed x' (th_txn t) \/ good x' t.
Proof.
  intros E W W' T Ho [Hd|(l & L & Hp & Hl & Ha)]; [left; by eapply other_doomed|].
  destruct (doomed_dec x' (th_txn t)) as [|Hnd]; [by left|right]. exists l, L. split_and!; [done| |by eapply other_agrees].
  eapply Forall_impl; [exact Hl|]. intros o. by eapply other_obs.
Qed.

End invariant.
