(* ===== verification/UIndexOps.v ===== *)
(** The operations of a transaction over the hash index keep its invariant: what
    was seen stays what the committed rows show, or the transaction is doomed. *)

From stdpp Require Import functions.
From S2P Require Import Prelude Tid UIndex UIndexSpec UIndexInv.

Section ops.
Context {K V A : Type} `{Countable K} (hasher_ : K -> Z) (nbuckets : Z).
Implicit Types (x : unordered_index K V) (el : internal_elem K V) (tx : Transaction V) (it : TransItem V).
Abbreviation find_bucket_idx := (find_bucket_idx hasher_ nbuckets).
Abbreviation wf := (wf hasher_ nbuckets).
Abbreviation obs_ok := (obs_ok hasher_ nbuckets).
Abbreviation good := (good (A := A) hasher_ nbuckets).

(** [it'] is [it] after an operation that may have observed the word [v]. *)
Record grows it it' (v : Z) : Prop := {
  gr_read : has_read it = true -> has_read it' = true /\ rdata it' = rdata it;
  gr_new : has_read it = false -> has_read it' = true -> rdata it' = v;
  gr_write : has_write (it_w it) = true -> has_write (it_w it') = true;
  gr_insert : has_insert (it_w it') = has_insert (it_w it) }.

Lemma grows_refl it v : grows it it v.
Proof. by split; [..|congruence| |]. Qed.

Lemma grows_flagged it it' v : grows it it' v -> flagged it = true -> flagged it' = true.
Proof.
  unfold flagged. intros G [Hr|Hw]%orb_true_iff; apply orb_true_iff; [left; by apply (gr_read _ _ _ G)|].
  right. by apply (gr_write _ _ _ G).
Qed.

Lemma sets_own tx k it' tx' v e : sets tx k it' tx' -> grows (item tx k) it' v -> own tx' e <-> own tx e.
Proof.
  intros S G. unfold own. rewrite (set_item_ _ _ _ _ S). case_decide as E; [|done]. subst. by rewrite (gr_insert _ _ _ G).
Qed.

Lemma sets_flagged tx k it' tx' v k' :
  sets tx k it' tx' -> grows (item tx k) it' v -> flagged (item tx k') = true -> flagged (item tx' k') = true.
Proof. intros S G. rewrite (set_item_ _ _ _ _ S). case_decide as E; [|done]. subst. by eapply grows_flagged. Qed.

Lemma sets_read tx k it' tx' v k' :
  sets tx k it' tx' -> grows (item tx k) it' v -> has_read (item tx k') = true -> has_read (item tx' k') = true.
Proof. intros S G. rewrite (set_item_ _ _ _ _ S). case_decide as E; [|done]. subst. apply (gr_read _ _ _ G). Qed.

Lemma sets_doomed x tx k it' tx' v : sets tx k it' tx' -> grows (item tx k) it' v -> doomed x tx -> doomed x tx'.
Proof.
  intros S G [k' Hd]. exists k'. rewrite (set_item_ _ _ _ _ S). case_decide as E; [|done]. subst k'.
  assert (it_key it' = k) as Hk by (rewrite <-(sets_item _ _ _ _ S); apply item_key_of).
  pose proof (grows_flagged _ _ _ G (doomed_flagged _ _ Hd)) as Hf.
  revert Hd. unfold doomed_item. rewrite item_key_of, Hk. destruct k as [e|b].
  - destruct (heap x !! e) as [el|]; [|done]. rewrite Hf. intros [_ Hd]%andb_true_iff. cbn [andb].
    apply orb_true_iff in Hd as [->|[Hr Hd]%andb_true_iff]; [done|].
    destruct (gr_read _ _ _ G Hr) as [-> ->]. by rewrite Hd, orb_true_r.
  - intros [Hr Hd]%andb_true_iff. by destruct (gr_read _ _ _ G Hr) as [-> ->].
Qed.

Lemma sets_obs x tx k it' tx' v o : sets tx k it' tx' -> grows (item tx k) it' v -> obs_ok x tx o -> obs_ok x tx' o.
Proof.
  intros S G. destruct o as [k0 v0|k0|k0]; cbn.
  - intros (e & el & Hr & Ho). exists e, el. split; [by eapply sets_read|done].
  - intros (e & el & Hr & Ho). exists e, el. split; [by eapply sets_flagged|done].
  - intros [[Hr Hall]|(e & el & Ho & He)].
    + left. split; [by eapply sets_read|]. intros e el Hl He Hk. eapply sets_own; [done|done|]. by eapply Hall.
    + right. exists e, el. split; [by eapply sets_own|done].
Qed.

Lemma obs_sets x tx k it' tx' v l :
  sets tx k it' tx' -> grows (item tx k) it' v -> Forall (obs_ok x tx) l -> Forall (obs_ok x tx') l.
Proof. intros S G Hl. eapply Forall_impl; [exact Hl|]. intros o. by eapply sets_obs. Qed.

(** * Touching a row *)

Section touch.
Context (N : Z) (x : unordered_index K V) (tx tx' : Transaction V) (e : Z) (el : internal_elem K V) (it' : TransItem V).
Context (W : wf N x) (T : tx_ok N x tx) (He : heap x !! e = Some el) (Hl : linked x e) (Hv : valid el = true \/ own tx e).
Context (S : sets tx (Row e) it' tx') (G : grows (item tx (Row e)) it' (version el)) (TS : tx_self tx').
#[local] Set Default Proof Using "Type*".

Lemma touch_ok : tx_ok N x tx'.
Proof.
  split; [done| |].
  - intros e'. rewrite (set_item_ _ _ _ _ S). case_decide as E; [|by apply (to_rows _ _ _ T)]. intros Hf. inversion E; subst e'.
    exists el. split; [done|]. split.
    + rewrite (gr_insert _ _ _ G). destruct (has_insert (it_w (item tx (Row e)))) eqn:Ho.
      * destruct (to_rows _ _ _ T e) as (el' & He' & Hr & _); [by eapply own_flagged|]. rewrite Ho in Hr. simplify_eq. done.
      * destruct Hv as [Hv'|Hv']; [by left|]. unfold own in Hv'. congruence.
    + intros Hr'. destruct (has_read (item tx (Row e))) eqn:Hr.
      * destruct (gr_read _ _ _ G Hr) as [_ ->]. destruct (to_rows _ _ _ T e) as (el' & He' & _ & Hd); [unfold flagged; by rewrite Hr|].
        simplify_eq. by apply Hd.
      * rewrite (gr_new _ _ _ G Hr Hr'). split; [by apply (wf_heap _ _ _ _ W) in He as [? _]|lia].
  - intros b. rewrite (set_item_ _ _ _ _ S). by apply (to_buckets _ _ _ T).
Qed.

(** The intent of the transaction for this row. *)
Lemma touch_intent L rows :
  agrees x tx L rows -> default no_flags (todo L !! e_key el) = it_w (item tx (Row e)).
Proof.
  intros Ag. destruct (has_write (it_w (item tx (Row e)))) eqn:Hw.
  - by rewrite (ag_todo _ _ _ _ Ag e el).
  - destruct (todo L !! e_key el) as [w|] eqn:Ht.
    + destruct (ag_items _ _ _ _ Ag _ _ Ht) as (e' & el' & He' & Hl' & Hk & Hw' & _).
      assert (e' = e) as -> by (by eapply (wf_keys _ _ _ _ W)). congruence.
    + cbn. symmetry. by apply (ts_noflags _ (to_self _ _ _ T)).
Qed.

Lemma touch_agrees_same L rows :
  it_w it' = it_w (item tx (Row e)) -> agrees x tx L rows -> agrees x tx' L rows.
Proof.
  intros Hw [H1 H2 H3 H4 H5].
  assert (forall e', it_w (item tx' (Row e')) = it_w (item tx (Row e'))) as HX.
  { intros e'. rewrite (set_item_ _ _ _ _ S). case_decide as E; [|done]. inversion E; by subst. }
  split; [..|done].
  - intros e' el'. rewrite HX. apply H1.
  - intros k w Hk. setoid_rewrite HX. by apply H2.
  - intros k v. unfold own. setoid_rewrite HX. apply H3.
  - intros k e' Hr. destruct (H4 k e' Hr) as (el' & ? & ? & ?). exists el'. split_and!; [done|done|by eapply sets_flagged].
Qed.

Lemma touch_agrees f L rows :
  it_w it' = f (it_w (item tx (Row e))) -> has_write (it_w it') = true -> agrees x tx L rows ->
  agrees x tx' (intend f (e_key el) L) rows.
Proof.
  intros Hw Hwr Ag. pose proof (touch_intent L rows Ag) as Hi. pose proof Ag as [H1 H2 H3 H4 H5].
  assert (forall e' el', heap x !! e' = Some el' -> linked x e' -> e_key el' = e_key el -> e' = e) as Hu.
  { intros e' el' He' Hl' Hk. by eapply (wf_keys _ _ _ _ W). }
  split; [| | | |done]; unfold intend; cbn [set_field todo mine held].
  - intros e' el' He' Hl'. rewrite (set_item_ _ _ _ _ S). case_decide as E.
    + inversion E; subst e'. simplify_eq. intros _. by rewrite lookup_insert_eq, Hi, Hw.
    + intros Hw'. rewrite lookup_insert_ne; [by apply H1|]. intros Hk. by destruct E; rewrite (Hu e' el').
  - intros k w [[<- <-]|[Hk Hw']]%lookup_insert_Some.
    + exists e, el. rewrite (sets_item _ _ _ _ S). split_and!; try done. by rewrite Hi, Hw.
    + destruct (H2 k w Hw') as (e' & el' & He' & Hl' & Hk' & ?). exists e', el'. rewrite (set_item_ _ _ _ _ S).
      rewrite decide_False; [done|]. intros [= ->]. simplify_eq.
  - intros k v. rewrite H3. setoid_rewrite (sets_own _ _ _ _ _ _ S G). done.
  - intros k e' Hr. destruct (H4 k e' Hr) as (el' & ? & ? & ?). exists el'. split_and!; [done|done|by eapply sets_flagged].
Qed.

(** Whether the row is the transaction's own. *)
Lemma touch_mine L rows :
  agrees x tx L rows ->
  (mine L !! e_key el = Some (row el) /\ own tx e) \/ (mine L !! e_key el = None /\ live x e el).
Proof.
  intros Ag. destruct (mine L !! e_key el) as [v|] eqn:Hm.
  - apply (ag_mine _ _ _ _ Ag) in Hm as (e' & el' & Ho & He' & Hk & Hr). left.
    destruct (to_rows _ _ _ T e') as (el0 & He0 & Hr0 & _); [by eapply own_flagged|]. unfold own in Ho. rewrite Ho in Hr0.
    destruct Hr0 as [Hl' _]. rewrite He' in He0. injection He0 as <-. assert (e' = e) as -> by (by eapply (wf_keys _ _ _ _ W)). simplify_eq. done.
  - right. split; [done|]. split_and!; [done|done|]. destruct Hv as [Hv'|Ho]; [done|].
    assert (mine L !! e_key el = Some (row el)); [|congruence]. apply (ag_mine _ _ _ _ Ag). by exists e, el.
Qed.

(** A step of the body that finds this row, and sees it if it observes it. *)
Lemma touch_good (t t' : thread K V A) p' f :
  th_txn t = tx -> th_txn t' = tx' -> th_prog t' = th_prog t ->
  good x t -> ~ doomed x tx' -> flagged it' = true ->
  looks_up (th_body t) = Some (e_key el) ->
  (value_free (th_body t) = true \/ has_read it' = true) ->
  (forall L, agrees x tx L (th_rows t) ->
    sstep (th_body t) L (Some (row el)) = Some (p', f L) /\ agrees x tx' (f L) (th_rows t')) ->
  th_body t' = p' -> good x t'.
Proof.
  intros Ht Ht' Hp (l & L & Hpa & Hobs & Ag) Hnd Hf Hk Hval Hstep Hb. rewrite Ht in *.
  destruct (Hstep L Ag) as [Hs Ag']. unfold UIndexInv.good. rewrite Ht', Hp, Hb.
  assert (forall o, seen (th_body t) L (Some (row el)) o -> Forall (obs_ok x tx') o ->
    exists l0 L0, path (th_prog t) l0 p' L0 /\ Forall (obs_ok x tx') l0 /\ agrees x tx' L0 (th_rows t')) as Hfin.
  { intros o Hseen Ho. exists (o ++ l), (f L). split_and!; [by econstructor| |done]. apply Forall_app. split; [done|].
    by eapply obs_sets. }
  destruct (touch_mine L (th_rows t) Ag) as [[Hm Ho]|[Hm Hlive]].
  - apply (Hfin []); [|by apply Forall_nil]. unfold seen. by rewrite Hk, Hm.
  - destruct Hval as [Hvf|Hr].
    + apply (Hfin [SawExists (e_key el)]).
      * unfold seen. rewrite Hk, Hm. by right.
      * apply Forall_singleton. exists e, el. by rewrite (sets_item _ _ _ _ S).
    + apply (Hfin [SawRow (e_key el) (row el)]).
      * unfold seen. rewrite Hk, Hm. by left.
      * apply Forall_singleton. exists e, el. by rewrite (sets_item _ _ _ _ S).
Qed.

End touch.

(** * Select *)

Definition accessed (a : access_t) it (v : Z) : TransItem V :=
  let it := if access_reads a then read_of it v else it in
  if access_writes a then it <| it_w := for_write (it_w it) |> else it.

Lemma read_of_grows it v : grows it (read_of it v) v.
Proof. unfold read_of. destruct (has_read it) eqn:E; [apply grows_refl|]. split; cbn; congruence. Qed.

Lemma accessed_grows a it v : grows it (accessed a it v) v.
Proof.
  unfold accessed. pose proof (read_of_grows it v) as [H1 H2 H3 H4]. destruct a; cbn; [by split|..].
  - by apply (Build_grows _ _ _); cbn; try done; congruence.
  - by apply (Build_grows _ _ _); cbn.
Qed.

Lemma accessed_flagged a it v : flagged (accessed a it v) = true.
Proof. unfold flagged, accessed, read_of. by destruct a, (has_read it) eqn:E; cbn; rewrite ?E, ?orb_true_r. Qed.

Lemma accessed_w a it v : it_w (accessed a it v) = if access_writes a then for_write (it_w it) else it_w it.
Proof. unfold accessed, read_of. by destruct a, (has_read it). Qed.

Lemma writing_self f k tx :
  tx_self tx -> (forall w, has_write (f w) = true) -> (exists e, k = Row e) -> tx_self (writing f k tx).
Proof.
  intros TS Hf [e ->]. eapply (sets_self tx _ _ _ (writing_sets f (Row e) tx)); [done|apply (ts_unlocked _ TS)..| |done].
  cbn. by rewrite Hf.
Qed.

Lemma observe_self k v tx ok tx' : observe k v tx = (ok, tx') -> tx_self tx -> tx_self tx'.
Proof.
  intros E TS. destruct (observe_sets k v tx) as (tx0 & E0 & S). rewrite E in E0. injection E0 as -> <-.
  eapply (sets_self tx _ _ _ S); [done|..]; unfold read_of; destruct (Tid.is_locked v), (has_read (item tx k)); cbn;
    try apply (ts_unlocked _ TS); try apply (ts_noflags _ TS); intros b ->; apply (ts_bucket _ TS).
Qed.

Lemma put_self k tx : tx_self tx -> tx_self (put (item tx k) tx).
Proof.
  intros TS. eapply (sets_self tx _ _ _ (sets_put tx k)); [done|apply (ts_unlocked _ TS)..|apply (ts_noflags _ TS)|].
  intros b ->. apply (ts_bucket _ TS).
Qed.

Lemma access_all_sets a e el tx :
  locked el = false -> tx_self tx ->
  exists tx', access_all a e el tx = (true, tx') /\ sets tx (Row e) (accessed a (item tx (Row e)) (version el)) tx' /\ tx_self tx'.
Proof.
  unfold locked. intros Hl TS. unfold access_all, accessed.
  destruct (observe_sets (Row e) (version el) tx) as (tx1 & E1 & S1). rewrite Hl in *. pose proof (observe_self _ _ _ _ _ E1 TS) as TS1.
  pose proof (writing_sets for_write (Row e) tx1) as S2. rewrite (sets_item _ _ _ _ S1) in S2.
  pose proof (read_of_grows (item tx (Row e)) (version el)) as G.
  destruct a; cbn [access_reads access_writes]; rewrite ?E1; cbn [negb].
  - by exists tx1.
  - eexists. split; [done|]. split; [apply writing_sets|]. apply writing_self; [done|done|by eexists].
  - eexists. split; [done|]. split; [|apply writing_self; [done|done|by eexists]]. eapply (sets_trans _ _ _ _ _ _ S1 S2); [done|done].
Qed.

Lemma sets_trans_put tx k it tx' : sets (put (item tx k) tx) k it tx' -> 
  (has_write (it_w (item tx k)) = true -> has_write (it_w it) = true) -> (has_read (item tx k) = true -> has_read it = true) ->
  sets tx k it tx'.
Proof. intros S Hw Hr. by eapply (sets_trans _ _ _ _ _ _ (sets_put tx k) S). Qed.

Lemma item_put_same tx k k' : item (put (item tx k) tx) k' = item tx k'.
Proof. rewrite (set_item_ _ _ _ _ (sets_put tx k)). by case_decide; subst. Qed.

(** The element an operation finds: another transaction's new row, or one that can
    be touched. *)
Lemma phantom_or N x tx e el :
  tx_ok N x tx -> heap x !! e = Some el ->
  is_phantom el (item (put (item tx (Row e)) tx) (Row e)) = false -> valid el = true \/ own tx e.
Proof.
  intros T He. rewrite item_put_same. unfold is_phantom, own. destruct (valid el); [by left|].
  destruct (has_insert _) eqn:Ho; [by right|done].
Qed.

(** The rows a thread holds have items. *)
Definition rows_ok (t : thread K V A) : Prop :=
  forall k e, th_rows t !! k = Some e -> flagged (item (th_txn t) (Row e)) = true.

Section own_step.
Context (N : Z) (x : unordered_index K V) (t : thread K V A).
Context (W : wf N x) (T : tx_ok N x (th_txn t)) (RO : rows_ok t) (I : doomed x (th_txn t) \/ good x t).
#[local] Set Default Proof Using "Type*".

(** The invariant of the thread after an operation that left the index as it was. *)
Definition kept (ok : bool) (t' : thread K V A) : Prop :=
  th_prog t' = th_prog t /\ tx_ok N x (th_txn t') /\ (forall e, own (th_txn t') e <-> own (th_txn t) e) /\
  (ok = true -> rows_ok t') /\ (ok = true -> doomed x (th_txn t') \/ good x t').

Lemma kept_put k : tx_ok N x (put (item (th_txn t) k) (th_txn t)).
Proof.
  destruct T as [TS TR TB]. split; [by apply put_self| |]; setoid_rewrite item_put_same; done.
Qed.

(** A phantom: the operation fails. *)
Lemma kept_phantom k t' : th_prog t' = th_prog t -> th_txn t' = put (item (th_txn t) k) (th_txn t) -> kept false t'.
Proof.
  intros Hp Ht. split_and!; [done|rewrite Ht; apply kept_put| |done|done]. intros e. rewrite Ht. unfold own. by rewrite item_put_same.
Qed.

(** An operation that found the element [e] and changed its item. *)
Lemma kept_touch e el it' f ok t' :
  heap x !! e = Some el -> linked x e -> valid el = true \/ own (th_txn t) e ->
  sets (th_txn t) (Row e) it' (th_txn t') -> grows (item (th_txn t) (Row e)) it' (version el) -> tx_self (th_txn t') ->
  th_prog t' = th_prog t -> flagged it' = true -> looks_up (th_body t) = Some (e_key el) ->
  value_free (th_body t) = true \/ has_read it' = true ->
  (forall k e', th_rows t' !! k = Some e' -> e' = e \/ th_rows t !! k = Some e') ->
  (forall L, agrees x (th_txn t) L (th_rows t) ->
    sstep (th_body t) L (Some (row el)) = Some (th_body t', f L) /\ agrees x (th_txn t') (f L) (th_rows t')) ->
  kept ok t'.
Proof.
  intros He Hl Hv S G TS Hp Hf Hk Hval Hrows Hstep. split_and!; [done|by eapply touch_ok|intros e'; by eapply sets_own| |].
  { intros _ k e' [->|Hr]%Hrows; [by rewrite (sets_item _ _ _ _ S)|]. eapply sets_flagged; [done|done|]. by eapply RO. }
  intros _. destruct I as [Hd|Hg]; [left; by eapply sets_doomed|].
  destruct (doomed_dec x (th_txn t')) as [|Hnd]; [by left|right]. by eapply touch_good.
Qed.

Lemma agrees_held tx L rows k e el :
  heap x !! e = Some el -> e_key el = k -> flagged (item tx (Row e)) = true -> agrees x tx L rows ->
  agrees x tx (L <| held := {[k]} ∪ held L |>) (<[k := e]> rows).
Proof.
  intros He Hk Hf [H1 H2 H3 H4 H5]. split; [done..| |].
  - intros k' e' [[<- <-]|[_ Hr]]%lookup_insert_Some; [by exists el|by apply H4].
  - intros k'. cbn. rewrite elem_of_union, elem_of_singleton, H5, lookup_insert_is_Some'. naive_solver.
Qed.

(** An operation that found nothing in the bucket of [k]. *)
Lemma kept_absent k p' ok tx' :
  find_in_bucket x (find_bucket_idx k) k = None -> looks_up (th_body t) = Some k ->
  (forall L, sstep (th_body t) L None = Some (p', L)) ->
  observe (Bucket (find_bucket_idx k)) (b_version (map_ x (find_bucket_idx k))) (th_txn t) = (ok, tx') ->
  kept ok (t <| th_body := p' |> <| th_txn := tx' |>).
Proof.
  intros Hf Hk Hstep E. set (b := find_bucket_idx k) in *.
  destruct (observe_sets (Bucket b) (b_version (map_ x b)) (th_txn t)) as (tx0 & E0 & S). rewrite E in E0. injection E0 as -> <-.
  destruct (wf_bucket _ _ _ _ W b) as (n & Hbv & Hn). rewrite Hbv, vword_locked in S by done.
  rewrite bool_decide_false in S by (by intros []).
  pose proof (read_of_grows (item (th_txn t) (Bucket b)) (b_version (map_ x b))) as G. rewrite Hbv in G.
  pose proof (observe_self _ _ _ _ _ E (to_self _ _ _ T)) as TS.
  split_and!; [done| |intros e'; by eapply sets_own|intros _ k' e' Hr; eapply sets_flagged; [done|done|by eapply RO]|].
  - cbn. split; [done| |].
    + intros e. rewrite (set_item_ _ _ _ _ S). by apply (to_rows _ _ _ T).
    + intros b'. rewrite (set_item_ _ _ _ _ S). case_decide as Eb; [|by apply (to_buckets _ _ _ T)]. inversion Eb; subst b'.
      intros Hr'. destruct (has_read (item (th_txn t) (Bucket b))) eqn:Hr.
      * destruct (gr_read _ _ _ G Hr) as [_ ->]. by apply (to_buckets _ _ _ T).
      * rewrite (gr_new _ _ _ G Hr Hr'). exists n. rewrite Hbv, num_vword by done. split; [done|lia].
  - intros _. destruct I as [Hd|(l & L & Hp & Ho & Ag)]; [left; by eapply sets_doomed|right].
    exists ([SawNone k] ++ l), L. cbn [th_prog th_body th_txn th_rows set_field]. split_and!.
    + econstructor; [done| |apply Hstep]. unfold seen. rewrite Hk.
      destruct (mine L !! k) as [v|] eqn:Hm; [|done]. exfalso.
      apply (ag_mine _ _ _ _ Ag) in Hm as (e & el & Hoe & He & Hke & _).
      destruct (to_rows _ _ _ T e) as (el' & He' & Hr & _); [by eapply own_flagged|]. unfold own in Hoe. rewrite Hoe in Hr.
      by eapply (find_in_bucket_None _ _ _ _ _ _ _ W Hf (proj1 Hr) He).
    + apply Forall_app. split; [|by eapply obs_sets]. apply Forall_singleton. left. fold b. rewrite (sets_item _ _ _ _ S).
      split; [unfold read_of; by destruct (has_read (item (th_txn t) (Bucket b))) eqn:Hr|]. intros e el Hle He Hke.
      by destruct (find_in_bucket_None _ _ _ _ _ _ _ W Hf Hle He).
    + destruct Ag as [H1 H2 H3 H4 H5]. assert (forall e, item tx' (Row e) = item (th_txn t) (Row e)) as HX.
      { intros e. by rewrite (set_item_ _ _ _ _ S). }
      split; unfold own in *; try setoid_rewrite HX; done.
Qed.


(** [select_split_row] *)
Lemma select_kept k a c :
  th_body t = Select k a c ->
  exists ok r tx', select_split_row hasher_ nbuckets k a x (th_txn t) = Some (ok, r, tx') /\
    kept ok (t <| th_body := c ((fun ev : Z * V => if access_reads a then Some ev.2 else None) <$> r) |> <| th_txn := tx' |>
               <| th_rows := match r with Some ev => <[k := ev.1]> (th_rows t) | None => th_rows t end |>).
Proof.
  intros Hb. unfold select_split_row. destruct (find_in_bucket x (find_bucket_idx k) k) as [e|] eqn:Hf.
  - apply find_in_bucket_Some in Hf as (Hl & el & He & Hk). unfold select_elem. rewrite He. cbn [mbind option_bind].
    destruct (is_phantom el _) eqn:Hph; [do 3 eexists; split; [done|by eapply kept_phantom]|].
    destruct (linked_elem _ _ _ _ _ W Hl) as (el' & He' & _ & Hlk & _). rewrite He in He'. injection He' as <-.
    destruct (access_all_sets a e el (put (item (th_txn t) (Row e)) (th_txn t)) Hlk) as (tx' & -> & S & TS).
    { apply put_self, (to_self _ _ _ T). }
    rewrite item_put_same in S. do 3 eexists. split; [done|]. cbn [fmap option_fmap option_map fst snd].
    pose proof (accessed_grows a (item (th_txn t) (Row e)) (version el)) as G.
    apply sets_trans_put in S; [|apply (gr_write _ _ _ G)|apply (gr_read _ _ _ G)].
    eapply (kept_touch e el _ (fun L => let L := L <| held := {[k]} ∪ held L |> in
      if access_writes a then intend for_write k L else L)); try done.
    + by eapply phantom_or.
    + apply accessed_flagged.
    + rewrite Hb, Hk. done.
    + rewrite Hb. cbn. unfold accessed, read_of. destruct a; cbn; [right|by left|right]; by destruct (has_read (item (th_txn t) (Row e))) eqn:E.
    + cbn. intros k' e' [[<- <-]|[_ ?]]%lookup_insert_Some; [by left|by right].
    + intros L Ag. rewrite Hb. cbn [sstep th_body th_txn th_rows set_field]. split; [done|].
      destruct (access_writes a) eqn:Ha.
      * assert (agrees x tx' (intend for_write (e_key el) L) (th_rows t)) as Ag'.
        { eapply touch_agrees; try done; [by eapply phantom_or|by rewrite accessed_w, Ha..]. }
        eapply (agrees_held _ _ _ k e el) in Ag'; [|done|done|rewrite (sets_item _ _ _ _ S); apply accessed_flagged].
        subst k. done.
      * eapply agrees_held; [done|done|rewrite (sets_item _ _ _ _ S); apply accessed_flagged|].
        eapply touch_agrees_same; try done; [by eapply phantom_or|by rewrite accessed_w, Ha].
  - destruct (observe _ _ _) as [ok tx'] eqn:E. do 3 eexists. split; [done|]. cbn [fmap option_fmap option_map].
    eapply (kept_absent k (c None) ok tx'); try done; rewrite Hb; done.
Qed.

(** [update_row], by value and by commutator *)
Lemma write_kept k p f rid :
  (forall w, has_write (f w) = true) -> (forall w, has_insert (f w) = has_insert w) ->
  looks_up (th_body t) = None -> th_rows t !! k = Some rid ->
  (forall L, k ∈ held L -> sstep (th_body t) L None = Some (p, intend f k L)) ->
  kept true (t <| th_body := p |> <| th_txn := writing f (Row rid) (th_txn t) |>).
Proof.
  intros Hfw Hfi Hlk Hr Hstep. pose proof (writing_sets f (Row rid) (th_txn t)) as S.
  pose proof (writing_self f (Row rid) (th_txn t) (to_self _ _ _ T) Hfw ltac:(by eexists)) as TS.
  set (it' := (item (th_txn t) (Row rid)) <| it_w := _ |>) in S. pose proof (RO _ _ Hr) as Hfl.
  assert (forall v, grows (item (th_txn t) (Row rid)) it' v) as G by (intros v; split; cbn; try done; congruence).
  destruct (to_rows _ _ _ T rid Hfl) as (el & He & Hrow & Hrd).
  split_and!; [done| |intros e; by eapply (sets_own _ _ _ _ 0)| |].
  - cbn. split; [done| |].
    + intros e. rewrite (set_item_ _ _ _ _ S). case_decide as E; [|by apply (to_rows _ _ _ T)]. inversion E; subst e. intros _.
      exists el. cbn. by rewrite Hfi.
    + intros b. rewrite (set_item_ _ _ _ _ S). by apply (to_buckets _ _ _ T).
  - intros _ k' e' Hr'. eapply (sets_flagged _ _ _ _ 0); [done|done|by eapply RO].
  - intros _. destruct I as [Hd|(l & L & Hp & Ho & Ag)]; [left; by eapply (sets_doomed _ _ _ _ _ 0)|].
    cbn [th_txn set_field]. destruct (doomed_dec x (th_txn t)) as [Hd|Hnd]; [left; by eapply (sets_doomed _ _ _ _ _ 0)|right].
    assert (linked x rid /\ (valid el = true \/ own (th_txn t) rid)) as [Hl Hv].
    { unfold own. destruct (has_insert _) eqn:Hi; [destruct Hrow; split; [done|by right]|].
      destruct Hrow as [[? ?]|Hlock]; [by split; [|left]|]. destruct Hnd. exists (Row rid). unfold doomed_item.
      by rewrite item_key_of, He, Hfl, Hlock. }
    destruct (ag_rows _ _ _ _ Ag _ _ Hr) as (el' & He' & Hk & _). rewrite He in He'. injection He' as <-.
    exists ([] ++ l), (intend f k L). cbn [th_prog th_body th_txn th_rows set_field]. split_and!.
    + econstructor; [done| |apply Hstep; apply (ag_held _ _ _ _ Ag); by eexists]. unfold seen. by rewrite Hlk.
    + by eapply (obs_sets _ _ _ _ _ 0).
    + subst k. eapply touch_agrees; try done. by cbn.
Qed.

(** [delete_row] *)
Lemma delete_kept k c :
  th_body t = Delete k c ->
  exists ok found tx', delete_row hasher_ nbuckets k x (th_txn t) = Some (ok, found, tx') /\
    kept ok (t <| th_body := c found |> <| th_txn := tx' |>).
Proof.
  intros Hb. unfold delete_row. destruct (find_in_bucket x (find_bucket_idx k) k) as [e|] eqn:Hf.
  - apply find_in_bucket_Some in Hf as (Hl & el & He & Hk). rewrite He. cbn [mbind option_bind].
    destruct (is_phantom el _) eqn:Hph; [do 3 eexists; split; [done|by eapply kept_phantom]|].
    destruct (linked_elem _ _ _ _ _ W Hl) as (el' & He' & _ & Hlk & Hdel). rewrite He in He'. injection He' as <-.
    set (tx0 := put (item (th_txn t) (Row e)) (th_txn t)).
    assert (tx_self tx0) as TS0 by apply put_self, (to_self _ _ _ T).
    unfold select_for_update. destruct (observe_sets (Row e) (version el) tx0) as (tx1 & E1 & S1).
    pose proof (observe_self _ _ _ _ _ E1 TS0) as TS1. unfold locked in Hlk. rewrite E1, Hlk in *. cbn [negb]. rewrite Hdel.
    do 3 eexists. split; [done|].
    pose proof (writing_sets add_write_none (Row e) tx1) as S2. set (tx2 := writing add_write_none (Row e) tx1) in *.
    pose proof (writing_sets (fun w => w <| has_delete := true |>) (Row e) tx2) as S3.
    set (tx3 := writing _ (Row e) tx2) in *. rewrite (sets_item _ _ _ _ S2) in S3. rewrite (sets_item _ _ _ _ S1) in S2, S3.
    pose proof (sets_trans _ _ _ _ _ _ S1 S2 ltac:(done) ltac:(done)) as S12.
    pose proof (sets_trans _ _ _ _ _ _ S12 S3 ltac:(done) ltac:(done)) as S.
    unfold tx0 in S. rewrite !item_put_same in S. pose proof (read_of_grows (item (th_txn t) (Row e)) (version el)) as [G1 G2 G3 G4].
    apply sets_trans_put in S; [|done|apply G1].
    assert (tx_self tx2) as TS2 by (apply writing_self; [done|done|by eexists]).
    match type of S with sets _ _ ?it _ => assert (grows (item (th_txn t) (Row e)) it (version el)) as G by
      (by apply Build_grows; cbn) end.
    assert (tx_self tx3) as TS3.
    { destruct (ts_unlocked _ TS1 (Row e)) as [U1 U2]. rewrite (sets_item _ _ _ _ S1) in U1, U2.
      by eapply (sets_self _ _ _ _ S3). }
    pose proof (phantom_or _ _ _ _ _ T He Hph) as Hv. clearbody tx3.
    eapply (kept_touch e el _ (intend for_delete k)); [exact He|exact Hl|exact Hv|exact S|exact G|exact TS3|done|..].
    + unfold flagged. cbn. by rewrite orb_true_r.
    + by rewrite Hb, Hk.
    + left. by rewrite Hb.
    + by right.
    + intros L Ag. rewrite Hb. split; [done|]. subst k.
      eapply (touch_agrees _ _ _ _ _ _ _ W T He Hl Hv S G TS3); [|done|done]. cbn. unfold read_of. by case_match.
  - destruct (observe _ _ _) as [ok tx'] eqn:E. do 3 eexists. split; [done|].
    eapply (kept_absent k (c false) ok tx'); try done; rewrite Hb; done.
Qed.

End own_step.
End ops.
