(* ===== verification/UIndexInsert.v ===== *)
(** Insertions into the hash index keep its invariant: the new element changes the
    version of its bucket, which dooms every other transaction that has seen the
    bucket without it.  Then [nontrans_put], which loads it, and [nontrans_get]. *)

From stdpp Require Import functions.
From S2P Require Import Prelude Tid UIndex UIndexSpec UIndexInv UIndexOps.

Section insert.
Context {K V A : Type} `{Countable K} (hasher_ : K -> Z) (nbuckets : Z).
Implicit Types (x : unordered_index K V) (el : internal_elem K V) (tx : Transaction V) (it : TransItem V) (m : gmap K V).
Abbreviation find_bucket_idx := (find_bucket_idx hasher_ nbuckets).
Abbreviation wf := (wf hasher_ nbuckets).
Abbreviation obs_ok := (obs_ok hasher_ nbuckets).
Abbreviation good := (good (A := A) hasher_ nbuckets).

Definition reread it (old_rdata new_rdata : Z) : TransItem V :=
  if has_read it && (rdata it =? old_rdata) then it <| rdata := new_rdata |> else it.

Lemma update_read_sets bk old_rdata new_rdata tx :
  sets tx bk (reread (item tx bk) old_rdata new_rdata) (update_read bk old_rdata new_rdata tx).
Proof.
  unfold update_read, reread. destruct (has_read (item tx bk) && _); [|apply sets_put].
  split; [|apply put_nodup|cbn; rewrite andb_negb_r; by intros [?|?]..].
  intros k'. rewrite item_put. cbn. rewrite item_key_of. by repeat case_decide; subst.
Qed.

(** * Locking and unlocking a bucket *)

Record same_index x x' : Prop := {
  sa_heap : heap x' = heap x; sa_brk : brk x' = brk x; sa_map b : map_ x' b = map_ x b }.

Lemma same_linked x x' e : same_index x x' -> linked x' e <-> linked x e.
Proof. intros S. unfold linked. by setoid_rewrite (sa_map _ _ S). Qed.

Lemma same_wf N x x' : same_index x x' -> wf N x -> wf (N + 1) x'.
Proof.
  intros S [H1 H2 H3 H4 H5]. split; try setoid_rewrite (sa_map _ _ S); try setoid_rewrite (sa_heap _ _ S).
  - intros e el He. rewrite (sa_brk _ _ S). destruct (H1 e el He). split; [eapply word_ok_mono; [done|lia]|done].
  - intros b. destruct (H2 b) as (n & ? & ?). exists n. split; [done|lia].
  - done.
  - intros e e' el el'. rewrite !(same_linked _ _ _ S). apply H4.
  - done.
Qed.

Lemma same_evolves x x' : same_index x x' -> evolves (fun _ => False) x x'.
Proof.
  intros S. split; [by rewrite (sa_brk _ _ S)| |].
  - intros e el He. exists el. rewrite (sa_heap _ _ S), (same_linked _ _ _ S). split_and!; [done|done|lia|done| |done].
    intros ? ?. by left.
  - intros b. rewrite (sa_map _ _ S). split; [lia|done].
Qed.

Lemma same_represents x x' m : same_index x x' -> represents x m -> represents x' m.
Proof.
  intros S R k v. rewrite (R k v). unfold live. setoid_rewrite (sa_heap _ _ S). by setoid_rewrite (same_linked _ _ _ S).
Qed.

Definition with_bucket (b : Z) (bk : bucket_entry) x x' : Prop :=
  forall b', map_ x' b' = if decide (b' = b) then bk else map_ x b'.

Lemma set_bucket_map b f x : with_bucket b (f (map_ x b)) x (set_bucket b f x).
Proof.
  intros b'. cbn. case_decide; [subst; by rewrite fn_lookup_insert|by rewrite fn_lookup_insert_ne].
Qed.

Section lock.
Context (x : unordered_index K V) (here b n : Z) (Hh : uint 7 here) (Hn : b_version (map_ x b) = vword n false None).
#[local] Set Default Proof Using "Type*".

Lemma lock_bucket_ok :
  exists x1, lock_bucket here b x = Some x1 /\ heap x1 = heap x /\ brk x1 = brk x /\
    with_bucket b {| chain := chain (map_ x b); b_version := vword n false (Some here) |} x x1.
Proof using Hh Hn.
  unfold lock_bucket. rewrite Hn, vword_locked, bool_decide_false by (done || by intros []).
  eexists. split_and!; [done|done|done|]. intros b'. rewrite set_bucket_map. rewrite vword_set_lock by done. done.
Qed.

(** A locked bucket with another list, unlocked. *)
Lemma unlock_bucket_map x1 x2 l n' :
  with_bucket b {| chain := l; b_version := vword n' false (Some here) |} x1 x2 ->
  with_bucket b {| chain := l; b_version := vword n' false None |} x1 (unlock_bucket b x2).
Proof using Hh.
  intros Hm b'. unfold unlock_bucket. rewrite set_bucket_map. case_decide as E; [|by rewrite Hm, decide_False].
  rewrite (Hm b), decide_True by done. unfold Tid.unlock. cbn. by rewrite vword_unlocked.
Qed.

Lemma unlock_same x1 :
  heap x1 = heap x -> brk x1 = brk x ->
  with_bucket b {| chain := chain (map_ x b); b_version := vword n false (Some here) |} x x1 ->
  same_index x (unlock_bucket b x1).
Proof.
  intros Hhe Hb Hm. split; [done|done|]. intros b'. rewrite (unlock_bucket_map x x1 (chain (map_ x b)) n Hm).
  case_decide; [subst; by destruct (map_ x b); cbn in *; subst|done].
Qed.

End lock.

Lemma find_in_chain_heap x x1 l k : heap x1 = heap x -> find_in_chain x1 l k = find_in_chain x l k.
Proof.
  intros Hhe. induction l as [|e l IH]; [done|]. cbn. unfold key_at. rewrite Hhe. by rewrite IH.
Qed.

(** * A row that is there *)

Section insert_row.
Context (N : Z) (x : unordered_index K V) (t : thread K V A) (here : Z) (k : K) (v : V) (overwrite : bool) (c : bool -> prog K V A).
Context (W : wf N x) (T : tx_ok N x (th_txn t)) (RO : rows_ok t).
Context (I : doomed x (th_txn t) \/ good x t) (Hh : uint 7 here).
Context (Hb : th_body t = Insert k v overwrite c).
#[local] Set Default Proof Using "Type*".

(** The invariant after an insertion. *)
Record inserted (ok : bool) x' (t' : thread K V A) : Prop := {
  in_wf : wf (N + 1) x';
  in_evolves : evolves (fun _ => False) x x';
  in_rows m : represents x m -> represents x' m;
  in_prog : th_prog t' = th_prog t;
  in_tx : tx_ok (N + 1) x' (th_txn t');
  in_own e : own (th_txn t') e -> own (th_txn t) e \/ heap x !! e = None;
  in_still e : own (th_txn t) e -> own (th_txn t') e;
  in_linked e : linked x' e -> linked x e \/ own (th_txn t') e;
  in_rows_ok : ok = true -> rows_ok t';
  in_good : ok = true -> doomed x' (th_txn t') \/ good x' t' }.

Lemma same_thread x1 : same_index x x1 -> tx_ok (N + 1) x1 (th_txn t) /\ (doomed x1 (th_txn t) \/ good x1 t).
Proof using T W I.
  intros S. pose proof (same_wf _ _ _ S W) as W1. pose proof (same_evolves _ _ S) as E.
  split; [by eapply (other_tx_ok hasher_ nbuckets N (fun _ => False)); [..|done|done|naive_solver]|].
  by eapply (other_good hasher_ nbuckets N (fun _ => False)); [..|done|done|done|naive_solver|].
Qed.

Lemma kept_inserted ok x1 t' : same_index x x1 -> kept hasher_ nbuckets (N + 1) x1 t ok t' -> inserted ok x1 t'.
Proof using W.
  intros S (Hp & Ht & Ho & Hr & Hg). split; [by eapply same_wf|by eapply same_evolves|intros m; by apply same_represents|done|done| | | |done|done].
  - intros e He. left. by apply Ho.
  - intros e He. by apply Ho.
  - intros e He. left. by apply (same_linked _ _ _ S).
Qed.

Lemma insert_found e :
  find_in_bucket x (find_bucket_idx k) k = Some e ->
  exists ok found x' tx', insert_row hasher_ nbuckets here k v overwrite x (th_txn t) = Some (ok, found, x', tx') /\
    inserted ok x' (t <| th_body := c found |> <| th_txn := tx' |>).
Proof.
  intros Hf. set (b := find_bucket_idx k) in *. destruct (wf_bucket _ _ _ _ W b) as (n & Hn & Hnb).
  destruct (lock_bucket_ok x here b n Hh Hn) as (x1 & E1 & Hh1 & Hb1 & Hm1).
  unfold insert_row. fold b. rewrite E1. cbn [mbind option_bind].
  assert (find_in_bucket x1 b k = Some e) as ->.
  { unfold find_in_bucket. rewrite (find_in_chain_heap x) by done. by rewrite (Hm1 b), decide_True. }
  pose proof (unlock_same x here b n Hh Hn x1 Hh1 Hb1 Hm1) as S. set (x2 := unlock_bucket b x1) in *.
  apply find_in_bucket_Some in Hf as (Hl & el & He & Hk). rewrite <-(sa_heap _ _ S) in He. apply (same_linked _ _ _ S) in Hl.
  rewrite He. cbn [mbind option_bind]. destruct (same_thread x2 S) as [T2 I2]. pose proof (same_wf _ _ _ S W) as W2.
  destruct (is_phantom el _) eqn:Hph.
  { do 4 eexists. split; [done|]. apply kept_inserted; [done|]. by eapply kept_phantom. }
  pose proof (phantom_or _ _ _ _ _ T2 He Hph) as Hv. set (tx0 := put (item (th_txn t) (Row e)) (th_txn t)).
  assert (tx_self tx0) as TS0 by apply put_self, (to_self _ _ _ T).
  destruct overwrite.
  - do 4 eexists. split; [done|]. apply kept_inserted; [done|].
    pose proof (writing_sets (add_write (Pointer v)) (Row e) tx0) as S1. unfold tx0 in S1. rewrite item_put_same in S1.
    apply sets_trans_put in S1; [|done|done].
    match type of S1 with sets _ _ ?it _ => assert (grows (item (th_txn t) (Row e)) it (version el)) as G by
      (by split; cbn; [done|congruence|done|done]) end.
    assert (tx_self (writing (add_write (Pointer v)) (Row e) tx0)) as TS1 by (apply writing_self; [done|done|by eexists]).
    eapply (kept_touch hasher_ nbuckets _ _ _ W2 T2 RO I2 e el _ (intend (add_write (Pointer v)) k));
      [exact He|exact Hl|exact Hv|exact S1|exact G|exact TS1|done|..].
    + unfold flagged. cbn. by rewrite orb_true_r.
    + by rewrite Hb, Hk.
    + left. by rewrite Hb.
    + by right.
    + intros L Ag. rewrite Hb. split; [done|]. subst k.
      by eapply (touch_agrees _ _ _ _ _ _ _ _ _ W2 T2 He Hl Hv S1 G TS1).
  - destruct (linked_elem _ _ _ _ _ W2 Hl) as (el' & He' & _ & Hlk & _). rewrite He in He'. injection He' as <-. unfold locked in Hlk.
    destruct (observe_sets (Row e) (version el) tx0) as (tx1 & E & S1). rewrite E. rewrite Hlk in *. cbn [negb].
    pose proof (observe_self _ _ _ _ _ E TS0) as TS1. do 4 eexists. split; [done|]. apply kept_inserted; [done|].
    unfold tx0 in S1. rewrite item_put_same in S1. pose proof (read_of_grows (item (th_txn t) (Row e)) (version el)) as G.
    apply sets_trans_put in S1; [|apply (gr_write _ _ _ G)|apply (gr_read _ _ _ G)].
    assert (has_read (read_of (item (th_txn t) (Row e)) (version el)) = true) as Hr
      by (unfold read_of; by destruct (has_read (item (th_txn t) (Row e))) eqn:?).
    eapply (kept_touch hasher_ nbuckets _ _ _ W2 T2 RO I2 e el _ (fun L => L));
      [exact He|exact Hl|exact Hv|exact S1|exact G|exact TS1|done|..].
    + unfold flagged. by rewrite Hr.
    + by rewrite Hb, Hk.
    + by right.
    + by right.
    + intros L Ag. rewrite Hb. split; [done|].
      eapply (touch_agrees_same _ _ _ _ _ _ _ _ _ W2 T2 He Hl Hv S1 G TS1); [|done]. unfold read_of. by case_match.
Qed.


(** * A new row *)

(** [x'] is [x] with a new element [e] at the head of bucket [b]. *)
Record grown (n : Z) x x' : Prop := {
  gw_heap : heap x' = <[brk x := elem_new k v false]> (heap x);
  gw_brk : brk x' = brk x + 1;
  gw_map : with_bucket (find_bucket_idx k)
    {| chain := brk x :: chain (map_ x (find_bucket_idx k)); b_version := vword (n + 1) false None |} x x' }.

Context (HN : N + 1 < 2 ^ 52) (Hf : find_in_bucket x (find_bucket_idx k) k = None).

Lemma insert_new_eq n :
  b_version (map_ x (find_bucket_idx k)) = vword n false None -> 0 <= n <= N ->
  exists x', grown n x x' /\
    insert_row hasher_ nbuckets here k v overwrite x (th_txn t) =
      Some (true, false, x', writing (for_insert v) (Row (brk x))
        (update_read (Bucket (find_bucket_idx k)) (vword n false None) (vword (n + 1) false None) (th_txn t))).
Proof using Hh HN Hf.
  intros Hn Hnb. set (b := find_bucket_idx k) in *.
  destruct (lock_bucket_ok x here b n Hh Hn) as (x1 & E1 & Hh1 & Hb1 & Hm1).
  unfold insert_row. fold b. rewrite E1. cbn [mbind option_bind].
  assert (find_in_bucket x1 b k = None) as ->.
  { unfold find_in_bucket. rewrite (find_in_chain_heap x) by done. by rewrite (Hm1 b), decide_True. }
  assert (b_version (map_ x1 b) = vword n false (Some here)) as Hv1 by (by rewrite (Hm1 b), decide_True).
  rewrite Hv1, vword_unlocked, vword_nonopaque by done.
  unfold insert_in_bucket. rewrite Hv1, vword_locked, bool_decide_true by (done || by eexists). cbn [negb].
  unfold Tid.inc_nonopaque_version. rewrite vword_locked_here by done.
  rewrite wrap_small. 2: { pose proof (low_range false (Some here) Hh). change Tid.increment_value with 4096. unfold uint, vword. lia. }
  rewrite vword_inc by done. cbn [mbind option_bind].
  set (x2 := set_bucket b _ _).
  assert (with_bucket b {| chain := brk x :: chain (map_ x b); b_version := vword (n + 1) false (Some here) |} x x2) as Hm2.
  { intros b'. unfold x2. rewrite set_bucket_map. case_decide; [|cbn; by rewrite Hm1, decide_False]. cbn. f_equal.
    by rewrite Hb1, (Hm1 b), decide_True. }
  assert (b_version (map_ x2 b) = vword (n + 1) false (Some here)) as Hv2 by (by rewrite (Hm2 b), decide_True).
  rewrite Hv2, vword_unlocked, vword_nonopaque by done.
  exists (unlock_bucket b x2). split; [|by rewrite Hb1]. split.
  - cbn. by rewrite Hh1, Hb1.
  - cbn. by rewrite Hb1.
  - by apply (unlock_bucket_map here).
Qed.

Section grown.
Context (n : Z) (x' : unordered_index K V) (Hn : b_version (map_ x (find_bucket_idx k)) = vword n false None) (Hnb : 0 <= n <= N).
Context (Gx : grown n x x').

Lemma grown_fresh : heap x !! brk x = None.
Proof using W.
  destruct (heap x !! brk x) as [el|] eqn:E; [|done]. apply (wf_heap _ _ _ _ W) in E as [_ ?]. lia.
Qed.

Lemma grown_old e el : heap x !! e = Some el -> e <> brk x /\ heap x' !! e = Some el.
Proof using W Gx.
  intros He. assert (e <> brk x) by (intros ->; by rewrite grown_fresh in He). split; [done|].
  by rewrite (gw_heap _ _ _ Gx), lookup_insert_ne.
Qed.

Lemma grown_linked e : linked x' e <-> linked x e \/ e = brk x.
Proof using Gx.
  unfold linked. split.
  - intros [b Hin]. rewrite (gw_map _ _ _ Gx b) in Hin. case_decide; [|by left; exists b].
    apply elem_of_cons in Hin as [->|Hin]; [by right|left; by eexists].
  - intros [[b Hin]| ->].
    + exists b. rewrite (gw_map _ _ _ Gx b). case_decide; [subst; by right|done].
    + exists (find_bucket_idx k). rewrite (gw_map _ _ _ Gx), decide_True by done. left.
Qed.

Lemma elem_new_word : version (elem_new k v false) = vword 1 true None.
Proof using. done. Qed.

Lemma grown_wf : wf (N + 1) x'.
Proof using W Gx Hf Hnb.
  assert (valid (elem_new k v false) = false /\ locked (elem_new k v false) = false) as [Hv Hl] by done.
  split.
  - intros e el. rewrite (gw_heap _ _ _ Gx), (gw_brk _ _ _ Gx). intros [[<- <-]|[_ He]]%lookup_insert_Some.
    + split; [|lia]. rewrite elem_new_word. exists 1, true, None. split_and!; [done|done|lia|lia].
    + destruct (wf_heap _ _ _ _ W e el He). split; [eapply word_ok_mono; [done|lia]|lia].
  - intros b. rewrite (gw_map _ _ _ Gx b). case_decide; [exists (n + 1); split; [done|lia]|].
    destruct (wf_bucket _ _ _ _ W b) as (n' & ? & ?). exists n'. split; [done|lia].
  - intros b e Hin.
    assert (e ∈ chain (map_ x b) \/ e = brk x /\ b = find_bucket_idx k) as [Hin'|[-> ->]].
    { rewrite (gw_map _ _ _ Gx b) in Hin. case_decide; [|by left]. subst. apply elem_of_cons in Hin as [->|?]; [by right|by left]. }
    + destruct (wf_chain _ _ _ _ W b e Hin') as (el & He & ?). exists el. split; [by apply grown_old|done].
    + exists (elem_new k v false). rewrite (gw_heap _ _ _ Gx), lookup_insert_eq. done.
  - intros e e' el el' Hl1 Hl2. rewrite (gw_heap _ _ _ Gx).
    intros [[<- <-]|[Hne He]]%lookup_insert_Some [[<- <-]|[Hne' He']]%lookup_insert_Some Hk; [done|..].
    + apply grown_linked in Hl2 as [Hl2|Hl2]; [|congruence]. by destruct (find_in_bucket_None _ _ _ _ _ _ _ W Hf Hl2 He').
    + apply grown_linked in Hl1 as [Hl1|Hl1]; [|congruence]. by destruct (find_in_bucket_None _ _ _ _ _ _ _ W Hf Hl1 He).
    + apply grown_linked in Hl1 as [Hl1|?]; [|congruence]. apply grown_linked in Hl2 as [Hl2|?]; [|congruence].
      by eapply (wf_keys _ _ _ _ W).
  - intros b. rewrite (gw_map _ _ _ Gx b). case_decide; [|apply (wf_nodup _ _ _ _ W)]. apply NoDup_cons. split; [|apply (wf_nodup _ _ _ _ W)].
    intros Hin. destruct (wf_chain _ _ _ _ W _ _ Hin) as (el & He & _). by rewrite grown_fresh in He.
Qed.

Lemma grown_evolves : evolves (fun _ => False) x x'.
Proof using W Gx Hn.
  split; [rewrite (gw_brk _ _ _ Gx); lia| |].
  - intros e el He. exists el. destruct (grown_old e el He) as [_ He']. setoid_rewrite grown_linked.
    split_and!; [done|done|lia|done|intros ? ?; left; by split; [left|]|intros ? ? _; split; [done|by left]].
  - intros b. rewrite (gw_map _ _ _ Gx b). case_decide; [subst b|split; [lia|done]]. cbn. rewrite Hn, !num_vword by done. split; [lia|lia].
Qed.

Lemma grown_represents m : represents x m -> represents x' m.
Proof using W Gx.
  intros R k' v'. rewrite (R k' v'). split; intros (e & el & (He & Hl & Hv) & Hk & Hr).
  - exists e, el. split; [|done]. split_and!; [by apply grown_old|apply grown_linked; by left|done].
  - rewrite (gw_heap _ _ _ Gx) in He. apply lookup_insert_Some in He as [[<- <-]|[Hne He]]; [done|].
    apply grown_linked in Hl as [Hl|?]; [|congruence]. by exists e, el.
Qed.


(** The transaction after the insertion. *)
Abbreviation e := (brk x) (only parsing).
Abbreviation b := (find_bucket_idx k) (only parsing).
Definition new_tx : Transaction V :=
  writing (for_insert v) (Row e) (update_read (Bucket b) (vword n false None) (vword (n + 1) false None) (th_txn t)).
Definition new_row_item : TransItem V := (item_new (Row e)) <| it_w := for_insert v no_flags |>.

Lemma fresh_item : flagged (item (th_txn t) (Row e)) = false.
Proof.
  destruct (flagged _) eqn:Hfl; [|done]. destruct (to_rows _ _ _ T _ Hfl) as (el & He & _). by rewrite grown_fresh in He.
Qed.

Lemma new_items k' : item new_tx k' =
  if decide (k' = Row e) then (item (th_txn t) (Row e)) <| it_w := for_insert v no_flags |>
  else if decide (k' = Bucket b) then reread (item (th_txn t) (Bucket b)) (vword n false None) (vword (n + 1) false None)
  else item (th_txn t) k'.
Proof.
  unfold new_tx. rewrite (set_item_ _ _ _ _ (writing_sets _ _ _)), !(set_item_ _ _ _ _ (update_read_sets _ _ _ _)).
  case_decide; [|done]. rewrite decide_False by done.
  pose proof fresh_item as Hfl. unfold flagged in Hfl. apply orb_false_iff in Hfl as [_ Hw].
  by rewrite (ts_noflags _ (to_self _ _ _ T) _ Hw).
Qed.

Lemma new_self : tx_self new_tx.
Proof.
  apply writing_self; [|done|by eexists]. pose proof (to_self _ _ _ T) as TS.
  eapply (sets_self _ _ _ _ (update_read_sets _ _ _ _)); [done|..]; unfold reread; case_match; cbn;
    try apply (ts_unlocked _ TS); try apply (ts_noflags _ TS); intros b' _; apply (ts_bucket _ TS).
Qed.

(** The items of the other rows are as before. *)
Lemma new_old_row e' : flagged (item (th_txn t) (Row e')) = true -> item new_tx (Row e') = item (th_txn t) (Row e').
Proof.
  intros Hfl. rewrite new_items. rewrite decide_False, decide_False by (done || by intros [= ->]; rewrite fresh_item in Hfl). done.
Qed.

Lemma new_own e' : own new_tx e' <-> e' = e \/ own (th_txn t) e'.
Proof.
  unfold own. rewrite new_items. case_decide as E; [inversion E; subst e'; cbn; naive_solver|].
  rewrite decide_False by done. split; [by right|]. intros [->|?]; done.
Qed.

Lemma new_flagged k' : flagged (item (th_txn t) k') = true -> flagged (item new_tx k') = true.
Proof.
  intros Hfl. rewrite new_items. case_decide; [subst; by rewrite fresh_item in Hfl|].
  case_decide; [subst; unfold reread; by case_match|done].
Qed.

Lemma new_tx_ok : tx_ok (N + 1) x' new_tx.
Proof.
  split; [apply new_self| |].
  - intros e' Hfl. destruct (decide (e' = e)) as [->|Hne].
    + rewrite new_items, decide_True by done. exists (elem_new k v false).
      rewrite (gw_heap _ _ _ Gx), lookup_insert_eq. split_and!; [done| |].
      * cbn. split; [apply grown_linked; by right|done].
      * cbn. intros Hr. pose proof fresh_item as Hfl'. unfold flagged in Hfl'. by rewrite Hr in Hfl'.
    + rewrite new_items in *. rewrite !decide_False in * by (done || congruence).
      destruct (to_rows _ _ _ T _ Hfl) as (el & He & Hr & Hd). exists el. split_and!; [by apply grown_old| |].
      * case_match; [destruct Hr; split; [|done]|destruct Hr as [[? ?]|?]; [left; split; [|done]|by right]];
          apply grown_linked; by left.
      * intros Hr'. destruct (Hd Hr'). split; [eapply word_ok_mono; [done|lia]|done].
  - intros b'. rewrite new_items, decide_False by done. case_decide as E.
    + inversion E; subst b'. unfold bucket_ok, reread. rewrite (gw_map _ _ _ Gx), decide_True by done. cbn [b_version].
      rewrite num_vword by done. destruct (has_read (item (th_txn t) (Bucket b))) eqn:Hr; cbn [andb]; [|congruence].
      case_match; cbn [rdata set_field]; intros _; [exists (n + 1); split; [done|lia]|].
      destruct (to_buckets _ _ _ T b Hr) as (n' & Hrd & Hn'). rewrite Hn, num_vword in Hn' by done. exists n'. split; [done|lia].
    + intros Hr. rewrite (gw_map _ _ _ Gx), decide_False by congruence.
      by apply (to_buckets _ _ _ T).
Qed.

Lemma new_doomed : doomed x (th_txn t) -> doomed x' new_tx.
Proof.
  intros [k' Hd]. exists k'. pose proof (doomed_flagged _ _ Hd) as Hfl. destruct k' as [e'|b'].
  - rewrite new_old_row by done. revert Hd. unfold doomed_item. rewrite item_key_of.
    destruct (heap x !! e') as [el|] eqn:He; [|done]. by destruct (grown_old e' el He) as [_ ->].
  - rewrite new_items, decide_False by done. revert Hd. unfold doomed_item. rewrite item_key_of.
    intros [Hr Hd]%andb_true_iff. destruct (decide (Bucket b' = Bucket b)) as [E|E].
    + inversion E; subst b'. unfold reread. rewrite Hr. cbn [andb]. rewrite Hn, num_vword in Hd by done.
      destruct (Z.eqb_spec (rdata (item (th_txn t) (Bucket b))) (vword n false None)) as [E'|_].
      { rewrite E', num_vword in Hd by done. apply Z.ltb_lt in Hd. lia. }
      rewrite item_key_of, Hr, (gw_map _ _ _ Gx), decide_True by done. cbn [b_version andb]. rewrite num_vword by done.
      apply Z.ltb_lt. apply Z.ltb_lt in Hd. lia.
    + rewrite item_key_of, Hr, (gw_map _ _ _ Gx), decide_False by congruence. done.
Qed.

Lemma new_obs o : ~ doomed x' new_tx -> obs_ok x (th_txn t) o -> obs_ok x' new_tx o.
Proof.
  intros Hnd. destruct o as [k' v'|k'|k']; unfold UIndexInv.obs_ok.
  - intros (e' & el & Hr & (He & Hl & Hv) & Hk & Hrow). exists e', el. rewrite new_old_row by (unfold flagged; by rewrite Hr).
    split_and!; [done| |done|done]. split_and!; [by apply grown_old|apply grown_linked; by left|done].
  - intros (e' & el & Hfl & (He & Hl & Hv) & Hk). exists e', el. rewrite new_old_row by done.
    split_and!; [done| |done]. split_and!; [by apply grown_old|apply grown_linked; by left|done].
  - intros [[Hr Hall]|(e' & el & Ho & He & Hk)].
    + left. split.
      { rewrite new_items, decide_False by done. case_decide as E; [|done]. rewrite E in Hr. unfold reread. by case_match. }
      intros e' el Hl He Hk. rewrite (gw_heap _ _ _ Gx) in He. apply new_own.
      apply lookup_insert_Some in He as [[<- _]|[Hne He]]; [by left|right].
      apply grown_linked in Hl as [Hl|?]; [|congruence]. by eapply Hall.
    + right. exists e', el. split_and!; [apply new_own; by right|by apply grown_old|done].
Qed.

Lemma new_agrees L rows :
  agrees x (th_txn t) L rows ->
  agrees x' new_tx (intend (for_insert v) k (L <| mine := <[k := v]> (mine L) |>)) rows.
Proof.
  intros [H1 H2 H3 H4 H5].
  assert (forall e' el, linked x e' -> heap x !! e' = Some el -> e_key el <> k) as Hno.
  { intros e' el Hl He. by eapply (find_in_bucket_None _ _ _ _ _ _ _ W Hf). }
  assert (todo L !! k = None) as Htodo.
  { destruct (todo L !! k) as [w|] eqn:E; [|done]. destruct (H2 _ _ E) as (e' & el & He & Hl & Hk & _). by destruct (Hno e' el). }
  split; [| | | |done]; unfold intend; cbn [set_field todo mine held]; rewrite ?Htodo; cbn [default].
  - intros e' el. rewrite (gw_heap _ _ _ Gx). intros [[<- <-]|[Hne He]]%lookup_insert_Some Hl Hw.
    + rewrite new_items, decide_True by done. cbn. by rewrite lookup_insert_eq.
    + rewrite new_items, !decide_False in * by congruence. apply grown_linked in Hl as [Hl|?]; [|congruence].
      rewrite lookup_insert_ne; [by apply H1|]. intros E. by destruct (Hno e' el).
  - intros k' w [[<- <-]|[Hne Hw]]%lookup_insert_Some.
    + exists e, (elem_new k v false). rewrite (gw_heap _ _ _ Gx), lookup_insert_eq, new_items, decide_True by done.
      split_and!; [done| |done|done|done]. apply grown_linked. by right.
    + destruct (H2 k' w Hw) as (e' & el & He & Hl & Hk & Hhw & Hiw). exists e', el.
      rewrite new_old_row by (unfold flagged; by rewrite Hhw, orb_true_r).
      split_and!; [by apply grown_old|apply grown_linked; by left|done..].
  - intros k' v'. setoid_rewrite new_own. rewrite lookup_insert_Some, H3. split.
    + intros [[<- <-]|(Hne & e' & el & Ho & He & Hk & Hr)].
      * exists e, (elem_new k v false). rewrite (gw_heap _ _ _ Gx), lookup_insert_eq. split_and!; [by left|done..].
      * exists e', el. split_and!; [by right|by apply grown_old|done|done].
    + intros (e' & el & Ho & He & Hk & Hr). rewrite (gw_heap _ _ _ Gx) in He.
      apply lookup_insert_Some in He as [[<- <-]|[Hne He]]; [by left|]. right. destruct Ho as [?|Ho]; [congruence|].
      split; [|by exists e', el]. intros <-. destruct (to_rows _ _ _ T e') as (el' & He' & Hrow & _); [by eapply own_flagged|].
      unfold own in Ho. rewrite Ho in Hrow. by destruct (Hno e' el (proj1 Hrow) He).
  - intros k' e' Hr. destruct (H4 k' e' Hr) as (el & He & Hk & Hfl). exists el. split_and!; [by apply grown_old|done|].
    by apply new_flagged.
Qed.

Lemma insert_new : inserted true x' (t <| th_body := c false |> <| th_txn := new_tx |>).
Proof.
  split.
  - apply grown_wf.
  - apply grown_evolves.
  - intros m. apply grown_represents.
  - done.
  - apply new_tx_ok.
  - intros e' [->|?]%new_own; [right; apply grown_fresh|by left].
  - intros e' ?. apply new_own. by right.
  - intros e' [?| ->]%grown_linked; [by left|right; apply new_own; by left].
  - intros _ k' e' Hr. apply new_flagged. by eapply RO.
  - intros _. cbn [th_txn set_field]. destruct I as [Hd|(l & L & Hp & Ho & Ag)]; [left; by apply new_doomed|].
    destruct (doomed_dec x' new_tx) as [|Hnd]; [by left|right].
    exists ([SawNone k] ++ l), (intend (for_insert v) k (L <| mine := <[k := v]> (mine L) |>)).
    cbn [th_prog th_body th_txn th_rows set_field]. split_and!; [| |by apply new_agrees].
    + apply (path_step _ l (th_body t) L None); [done| |by rewrite Hb]. unfold seen. rewrite Hb. cbn [looks_up].
      destruct (mine L !! k) as [v'|] eqn:Hm; [|done]. exfalso.
      apply (ag_mine _ _ _ _ Ag) in Hm as (e' & el & Hoe & He & Hke & _).
      destruct (to_rows _ _ _ T e') as (el' & He' & Hr & _); [by eapply own_flagged|]. unfold own in Hoe. rewrite Hoe in Hr.
      by eapply (find_in_bucket_None _ _ _ _ _ _ _ W Hf (proj1 Hr) He).
    + apply Forall_app. split.
      * apply Forall_singleton. right. exists e, (elem_new k v false). rewrite (gw_heap _ _ _ Gx), lookup_insert_eq.
        split_and!; [apply new_own; by left|done|done].
      * eapply Forall_impl; [exact Ho|]. intros o. by apply new_obs.
Qed.

End grown.
End insert_row.

Lemma insert_kept N x (t : thread K V A) here k v overwrite c :
  wf N x -> tx_ok N x (th_txn t) -> rows_ok t -> doomed x (th_txn t) \/ good x t -> uint 7 here ->
  th_body t = Insert k v overwrite c -> N + 1 < 2 ^ 52 ->
  exists ok found x' tx', insert_row hasher_ nbuckets here k v overwrite x (th_txn t) = Some (ok, found, x', tx') /\
    inserted N x t ok x' (t <| th_body := c found |> <| th_txn := tx' |>).
Proof.
  intros W T RO I Hh Hb HN. destruct (find_in_bucket x (find_bucket_idx k) k) as [e|] eqn:Hf.
  - by eapply insert_found.
  - destruct (wf_bucket _ _ _ _ W (find_bucket_idx k)) as (n & Hn & Hnb).
    destruct (insert_new_eq N x t here k v overwrite Hh HN Hf n Hn Hnb) as (x' & Gx & E).
    do 4 eexists. split; [exact E|]. by eapply insert_new.
Qed.

End insert.

Section load.
Context {K V : Type} `{Countable K} (hasher_ : K -> Z) (nbuckets : Z).
Implicit Types (x : unordered_index K V) (el : internal_elem K V) (m : gmap K V).
Abbreviation find_bucket_idx := (find_bucket_idx hasher_ nbuckets).
Abbreviation wf := (wf hasher_ nbuckets).

(** Every element of the index is committed. *)
Definition settled x : Prop := forall e el, linked x e -> heap x !! e = Some el -> valid el = true.

Lemma settled_lookup N x m k :
  wf N x -> represents x m -> settled x ->
  m !! k = (e ← find_in_bucket x (find_bucket_idx k) k; row <$> heap x !! e).
Proof.
  intros W R S. destruct (find_in_bucket x (find_bucket_idx k) k) as [e|] eqn:Hf; cbn [mbind option_bind].
  - apply find_in_bucket_Some in Hf as (Hl & el & He & <-). rewrite He. cbn. apply R. exists e, el.
    split_and!; [|done|done]. split_and!; [done|done|by eapply S].
  - apply (represents_None x m k R). intros e el (He & Hl & _). by eapply (find_in_bucket_None _ _ _ _ _ _ _ W Hf).
Qed.

(** * A key that is new *)

Record placed (k : K) (v : V) x x' : Prop := {
  pc_heap : heap x' = <[brk x := elem_new k v true]> (heap x);
  pc_brk : brk x' = brk x + 1;
  pc_map : with_bucket (find_bucket_idx k)
    {| chain := brk x :: chain (map_ x (find_bucket_idx k)); b_version := b_version (map_ x (find_bucket_idx k)) |} x x' }.

Section placed.
Context (N : Z) (x x' : unordered_index K V) (k : K) (v : V).
Context (W : wf N x) (Hf : find_in_bucket x (find_bucket_idx k) k = None) (P : placed k v x x').
#[local] Set Default Proof Using "Type*".

Lemma placed_fresh : heap x !! brk x = None.
Proof using W.
  destruct (heap x !! brk x) as [el|] eqn:E; [|done]. apply (wf_heap _ _ _ _ W) in E as [_ ?]. lia.
Qed.

Lemma placed_old e el : heap x !! e = Some el -> e <> brk x /\ heap x' !! e = Some el.
Proof using W P.
  intros He. assert (e <> brk x) by (intros ->; by rewrite placed_fresh in He). split; [done|].
  by rewrite (pc_heap _ _ _ _ P), lookup_insert_ne.
Qed.

Lemma placed_chain b e : e ∈ chain (map_ x' b) <-> e ∈ chain (map_ x b) \/ e = brk x /\ b = find_bucket_idx k.
Proof using P.
  rewrite (pc_map _ _ _ _ P b). case_decide as E; [subst; cbn; rewrite elem_of_cons|]; naive_solver.
Qed.

Lemma placed_linked e : linked x' e <-> linked x e \/ e = brk x.
Proof using P. unfold linked. setoid_rewrite placed_chain. naive_solver. Qed.

Lemma placed_heap e el : heap x' !! e = Some el -> e = brk x /\ el = elem_new k v true \/ heap x !! e = Some el.
Proof using P. rewrite (pc_heap _ _ _ _ P). intros [[<- <-]|[_ He]]%lookup_insert_Some; [by left|by right]. Qed.

Lemma placed_unlinked : ~ linked x (brk x).
Proof using W. intros (el & He & _)%(linked_elem _ _ _ _ _ W). by rewrite placed_fresh in He. Qed.

Lemma placed_wf : wf (N + 1) x'.
Proof.
  assert (version (elem_new k v true) = vword 1 false None) as Hnew by done.
  pose proof placed_unlinked as Hu. destruct (wf_bucket _ _ _ _ W 0) as (n0 & _ & Hn0). split.
  - intros e el. rewrite (pc_brk _ _ _ _ P). intros [[-> ->]|He]%placed_heap.
    + split; [|lia]. rewrite Hnew. exists 1, false, None. split_and!; [done|done|lia|lia].
    + destruct (wf_heap _ _ _ _ W e el He). split; [eapply word_ok_mono; [done|lia]|lia].
  - intros b. destruct (wf_bucket _ _ _ _ W b) as (n & Hn & ?). exists n. split; [|lia]. rewrite (pc_map _ _ _ _ P b).
    case_decide; [by subst|done].
  - intros b e [Hin|[-> ->]]%placed_chain.
    + destruct (wf_chain _ _ _ _ W b e Hin) as (el & He & ?). exists el. split; [by apply placed_old|done].
    + exists (elem_new k v true). rewrite (pc_heap _ _ _ _ P), lookup_insert_eq. done.
  - intros e e' el el' [Hl| ->]%placed_linked [Hl'| ->]%placed_linked [[? ->]|He]%placed_heap [[? ->]|He']%placed_heap Hk;
      subst; try done; try (by rewrite placed_fresh in *).
    + by eapply (wf_keys _ _ _ _ W).
    + by destruct (find_in_bucket_None _ _ _ _ _ _ _ W Hf Hl He).
    + by destruct (find_in_bucket_None _ _ _ _ _ _ _ W Hf Hl' He').
  - intros b. rewrite (pc_map _ _ _ _ P b). case_decide; [|apply (wf_nodup _ _ _ _ W)]. apply NoDup_cons. split; [|apply (wf_nodup _ _ _ _ W)].
    intros Hin. apply Hu. by eexists.
Qed.

Lemma placed_represents m : represents x m -> represents x' (<[k := v]> m).
Proof.
  intros R k' v'. rewrite lookup_insert_Some. split.
  - intros [[<- <-]|[Hne Hm]].
    + exists (brk x), (elem_new k v true). split_and!; [|done|done]. split_and!; [|apply placed_linked; by right|done].
      by rewrite (pc_heap _ _ _ _ P), lookup_insert_eq.
    + apply R in Hm as (e & el & (He & Hl & Hv) & Hk & Hr). exists e, el. split_and!; [|done|done].
      split_and!; [by apply placed_old|apply placed_linked; by left|done].
  - intros (e & el & (He & Hl & Hv) & <- & <-). apply placed_heap in He as [[-> ->]|He]; [by left|]. right.
    apply placed_linked in Hl as [Hl|Hb]; [|subst e; by rewrite placed_fresh in He].
    split; [intros Hk; by destruct (find_in_bucket_None _ _ _ _ _ _ _ W Hf Hl He)|]. apply R. by exists e, el.
Qed.

Lemma placed_settled : settled x -> settled x'.
Proof.
  intros S e el [Hl| ->]%placed_linked [[? ->]|He]%placed_heap; try done; [by eapply S|]. by rewrite placed_fresh in He.
Qed.

End placed.

(** * A key that is there *)

Record replaced (e : Z) (v : V) x x' : Prop := {
  rp_heap : heap x' = alter (fun el => el <| row := v |>) e (heap x);
  rp_brk : brk x' = brk x;
  rp_chain b : chain (map_ x' b) = chain (map_ x b);
  rp_version N b : wf N x -> exists n, b_version (map_ x' b) = vword n false None /\ 0 <= n <= N + 1 }.

Section replaced.
Context (N : Z) (x x' : unordered_index K V) (e0 : Z) (el0 : internal_elem K V) (v : V).
Context (W : wf N x) (He0 : heap x !! e0 = Some el0) (Hl0 : linked x e0) (P : replaced e0 v x x').
#[local] Set Default Proof Using "Type*".

Lemma replaced_linked e : linked x' e <-> linked x e.
Proof using P. unfold linked. by setoid_rewrite (rp_chain _ _ _ _ P). Qed.

Lemma replaced_heap e el' : heap x' !! e = Some el' -> exists el, heap x !! e = Some el /\ e_key el' = e_key el /\
  version el' = version el /\ deleted el' = deleted el /\ row el' = if decide (e = e0) then v else row el.
Proof.
  rewrite (rp_heap _ _ _ _ P), lookup_alter_Some. intros [(-> & el & He & ->)|[Hne He]].
  - exists el. by rewrite decide_True.
  - exists el'. by rewrite decide_False.
Qed.

Lemma replaced_old e el : heap x !! e = Some el -> exists el', heap x' !! e = Some el' /\ e_key el' = e_key el /\
  version el' = version el /\ deleted el' = deleted el /\ row el' = if decide (e = e0) then v else row el.
Proof.
  intros He. rewrite (rp_heap _ _ _ _ P). destruct (decide (e = e0)) as [->|Hne].
  - rewrite lookup_alter_eq, He. by eexists.
  - rewrite lookup_alter_ne, He by done. by eexists.
Qed.

Lemma replaced_wf : wf (N + 1) x'.
Proof.
  split.
  - intros e el' (el & He & _ & -> & _)%replaced_heap. rewrite (rp_brk _ _ _ _ P).
    destruct (wf_heap _ _ _ _ W e el He). split; [eapply word_ok_mono; [done|lia]|done].
  - intros b. by apply (rp_version _ _ _ _ P).
  - intros b e. rewrite (rp_chain _ _ _ _ P). intros Hin. destruct (wf_chain _ _ _ _ W b e Hin) as (el & He & Hb & Hlk & Hd).
    destruct (replaced_old e el He) as (el' & He' & Hk & Hv & Hd' & _). exists el'.
    unfold locked in *. rewrite Hk, Hv, Hd'. done.
  - intros e e' el el' Hl%replaced_linked Hl'%replaced_linked (el1 & He & -> & _)%replaced_heap (el2 & He' & -> & _)%replaced_heap.
    by apply (wf_keys _ _ _ _ W).
  - intros b. rewrite (rp_chain _ _ _ _ P). apply (wf_nodup _ _ _ _ W).
Qed.

Lemma replaced_represents m : valid el0 = true -> represents x m -> represents x' (<[e_key el0 := v]> m).
Proof.
  intros Hv0 R k v'. rewrite lookup_insert_Some. split.
  - intros [[<- <-]|[Hne Hm]].
    + destruct (replaced_old e0 el0 He0) as (el' & He' & Hk & Hv & _ & Hr). exists e0, el'. rewrite decide_True in Hr by done.
      split_and!; [|done|done]. split_and!; [done|by apply replaced_linked|]. unfold valid in *. by rewrite Hv.
    + apply R in Hm as (e & el & (He & Hl & Hv) & <- & <-). destruct (replaced_old e el He) as (el' & He' & Hk' & Hv' & _ & Hr).
      exists e, el'. rewrite decide_False in Hr by congruence. split_and!; [|done|done]. split_and!; [done|by apply replaced_linked|].
      unfold valid in *. by rewrite Hv'.
  - intros (e & el' & (He' & Hl%replaced_linked & Hv) & <- & <-). destruct (replaced_heap e el' He') as (el & He & -> & Hv' & _ & ->).
    destruct (decide (e = e0)) as [->|Hne]; [left; split; [congruence|done]|right].
    split; [intros Hk; by apply Hne, (wf_keys _ _ _ _ W e e0 el el0)|]. apply R. exists e, el. split_and!; [|done|done].
    split_and!; [done|done|]. unfold valid in *. by rewrite <-Hv'.
Qed.

Lemma replaced_settled : settled x -> settled x'.
Proof.
  intros S e el' Hl%replaced_linked (el & He & _ & Hv & _)%replaced_heap. unfold valid. rewrite Hv. by eapply S.
Qed.

End replaced.

(** * [nontrans_put] and [load] *)

Lemma nontrans_put_ok here N x m k v :
  uint 7 here -> N + 1 < 2 ^ 52 -> wf N x -> represents x m -> settled x ->
  exists x', nontrans_put hasher_ nbuckets here k v x = Some x' /\ wf (N + 1) x' /\ represents x' (<[k := v]> m) /\ settled x'.
Proof.
  intros Hh HN W R S. unfold nontrans_put. set (b := find_bucket_idx k). destruct (wf_bucket _ _ _ _ W b) as (n & Hn & Hnb).
  destruct (lock_bucket_ok x here b n Hh Hn) as (x1 & -> & Hh1 & Hb1 & Hm1). cbn [mbind option_bind].
  assert (find_in_bucket x1 b k = find_in_bucket x b k) as ->.
  { unfold find_in_bucket. rewrite (find_in_chain_heap x) by done. by rewrite (Hm1 b), decide_True. }
  assert (map_ x1 b = {| chain := chain (map_ x b); b_version := vword n false (Some here) |}) as Hb by (by rewrite (Hm1 b), decide_True).
  destruct (find_in_bucket x b k) as [e|] eqn:Hf.
  - apply find_in_bucket_Some in Hf as (Hl & el & He & <-). rewrite Hh1, He. cbn [mbind option_bind]. cbn [map_ set_elem set_field].
    rewrite Hb. cbn [b_version]. unfold Tid.inc_nonopaque_version. rewrite vword_locked_here by done.
    rewrite wrap_small. 2: { pose proof (low_range false (Some here) Hh). change Tid.increment_value with 4096. unfold uint, vword. lia. }
    rewrite vword_inc by done. cbn [mbind option_bind]. eexists. split; [done|]. set (x2 := unlock_bucket b _).
    assert (with_bucket b {| chain := chain (map_ x b); b_version := vword (n + 1) false None |} x x2) as Hm2.
    { apply (unlock_bucket_map here b Hh). intros b'. rewrite set_bucket_map. case_decide; [|cbn; by rewrite Hm1, decide_False].
      cbn. by rewrite Hb. }
    assert (replaced e v x x2) as P.
    { split.
      - cbn. rewrite Hh1. apply map_eq. intros e'. rewrite lookup_alter, lookup_insert. case_decide; [subst; by rewrite He|done].
      - done.
      - intros b'. rewrite Hm2. case_decide; [by subst|done].
      - intros N' b' W'. rewrite Hm2. case_decide.
        + exists (n + 1). split; [done|]. destruct (wf_bucket _ _ _ _ W' b) as (n' & Hn' & ?). rewrite Hn in Hn'.
          apply (f_equal num) in Hn'. rewrite !num_vword in Hn' by done. lia.
        + destruct (wf_bucket _ _ _ _ W' b') as (n' & ? & ?). exists n'. split; [done|lia]. }
    split; [by eapply replaced_wf|]. split; [|by eapply replaced_settled]. eapply replaced_represents; [done..|by eapply S|done].
  - eexists. split; [done|]. set (x2 := unlock_bucket b _).
    assert (placed k v x x2) as P.
    { split; [cbn; by rewrite Hh1, Hb1|cbn; by rewrite Hb1|]. fold b. rewrite Hn.
      apply (unlock_bucket_map here b Hh). intros b'. rewrite set_bucket_map. case_decide; [|cbn; by rewrite Hm1, decide_False].
      cbn. by rewrite Hb, Hb1. }
    split; [by eapply placed_wf|]. split; [by eapply placed_represents|by eapply placed_settled].
Qed.

(** The table of the rows that were loaded: the last one of a key counts. *)
Definition table (l : list (K * V)) (m : gmap K V) : gmap K V := foldl (fun m kv => <[kv.1 := kv.2]> m) m l.

Lemma load_ok here l : forall N x m,
  uint 7 here -> N + Z.of_nat (length l) < 2 ^ 52 -> wf N x -> represents x m -> settled x ->
  exists x', load hasher_ nbuckets here l x = Some x' /\ wf (N + Z.of_nat (length l)) x' /\ represents x' (table l m) /\ settled x'.
Proof.
  induction l as [|[k v] l IH]; intros N x m Hh HN W R S; cbn [load].
  - exists x. cbn. by rewrite Z.add_0_r.
  - rewrite length_cons in *. destruct (nontrans_put_ok here N x m k v Hh ltac:(lia) W R S) as (x1 & -> & W1 & R1 & S1). cbn [mbind option_bind].
    destruct (IH (N + 1) x1 _ Hh ltac:(lia) W1 R1 S1) as (x2 & -> & W2 & R2 & S2). exists x2.
    replace (N + Z.of_nat (Datatypes.S (length l))) with (N + 1 + Z.of_nat (length l)) by lia. done.
Qed.

Lemma new_ok : wf 0 (index_new (K := K) (V := V)) /\ represents (index_new (K := K) (V := V)) ∅ /\ settled index_new.
Proof.
  assert (forall e, ~ linked (index_new (K := K) (V := V)) e) as Hl by (intros e [b Hin]; by apply not_elem_of_nil in Hin).
  split_and!.
  - split.
    + intros e el. cbn. by rewrite lookup_empty.
    + intros b. exists 0. done.
    + intros b e Hin. by apply not_elem_of_nil in Hin.
    + intros e e' el el' Hle. by destruct (Hl e).
    + intros b. apply NoDup_nil_2.
  - intros k v. rewrite lookup_empty. split; [done|]. intros (e & el & (_ & Hle & _) & _). by destruct (Hl e).
  - intros e el Hle. by destruct (Hl e).
Qed.

End load.
