(* ===== verification/UIndexLoops.v ===== *)
(** The loops of [try_commit] and [stop] over the items of a transaction: what
    each of them does to every element and every bucket. *)

From stdpp Require Import functions.
From S2P Require Import Prelude Tid UIndex UIndexSpec UIndexInv UIndexInsert.

Section items.
Context {V : Type}.
Implicit Types (l : list (TransItem V)) (it : TransItem V) (P : TransItem V -> bool).

(** What holds of the item of row [e], if there is one. *)
Definition at_row P l (e : Z) : bool := match find_item l (Row e) with Some it => P it | None => false end.

Lemma find_item_absent l k : k ∉ it_key <$> l -> find_item l k = None.
Proof.
  induction l as [|it l IH]; [done|]. cbn. intros [Hne Hk]%not_elem_of_cons. rewrite decide_False by done. by apply IH.
Qed.

Lemma at_row_cons P it l e :
  NoDup (it_key <$> it :: l) -> at_row P (it :: l) e = (if decide (it_key it = Row e) then P it else at_row P l e) /\
    (it_key it = Row e -> forall Q l', it_key <$> l' = it_key <$> l -> at_row Q l' e = false).
Proof.
  cbn. intros [Hn _]%NoDup_cons. split; [unfold at_row; cbn; by case_decide|].
  intros Hk Q l' Hl'. unfold at_row. rewrite find_item_absent; [done|]. by rewrite Hl', <-Hk.
Qed.

Lemma at_row_elem P l e : at_row P l e = true -> exists it, it ∈ l /\ it_key it = Row e /\ P it = true.
Proof.
  unfold at_row. destruct (find_item l (Row e)) as [it|] eqn:E; [|done]. intros Hp. exists it.
  split_and!; [by eapply find_item_elem|by eapply find_item_key|done].
Qed.

Lemma at_row_in P l it e : NoDup (it_key <$> l) -> it ∈ l -> it_key it = Row e -> at_row P l e = P it.
Proof. intros Hd Hin Hk. unfold at_row. by rewrite <-Hk, find_item_in. Qed.

Lemma at_row_item P (tx : Transaction V) e : P (item_new (Row e)) = false -> at_row P (tset tx) e = P (item tx (Row e)).
Proof. intros Hp. unfold at_row, item. by destruct (find_item _ _). Qed.

(** A list of items with the same keys, related item by item. *)
Lemma Forall2_keys (R : TransItem V -> TransItem V -> Prop) l l' :
  (forall it it', R it it' -> it_key it' = it_key it) -> Forall2 R l l' -> it_key <$> l' = it_key <$> l.
Proof. intros HR. induction 1 as [|it it' l l' Hr _ IH]; [done|]. cbn. by rewrite IH, (HR it it'). Qed.

Lemma find_item_Forall2 (R : TransItem V -> TransItem V -> Prop) l l' k :
  (forall it it', R it it' -> it_key it' = it_key it) -> Forall2 R l l' ->
  match find_item l k, find_item l' k with Some it, Some it' => R it it' | None, None => True | _, _ => False end.
Proof.
  intros HR. induction 1 as [|it it' l l' Hr _ IH]; [done|]. cbn. rewrite (HR _ _ Hr). by case_decide.
Qed.

End items.

Section loops.
Context {K V : Type} `{Countable K} (hasher_ : K -> Z) (nbuckets : Z) (here : Z) (Hh : uint 7 here).
Implicit Types (x : unordered_index K V) (el : internal_elem K V) (l : list (TransItem V)) (it : TransItem V).
Abbreviation find_bucket_idx := (find_bucket_idx hasher_ nbuckets).

Definition lock_el el : internal_elem K V := el <| version := Tid.set_lock (version el) here |>.
Definition unlock_el el : internal_elem K V := el <| version := Tid.unlock (version el) |>.
Definition locked_item it : TransItem V := it <| needs_unlock := true |> <| locked_at_commit := true |>.

Definition locked_or_not it it' : Prop := it' = it \/ has_write (it_w it) = true /\ it' = locked_item it.

Lemma locked_or_not_key it it' : locked_or_not it it' -> it_key it' = it_key it.
Proof. by intros [->|[_ ->]]. Qed.

(** * Locking *)

Lemma lock_all_spec N l x :
  NoDup (it_key <$> l) -> (forall it, it ∈ l -> needs_unlock it = false) ->
  (forall it, it ∈ l -> has_write (it_w it) = true ->
    exists e el, it_key it = Row e /\ heap x !! e = Some el /\ word_ok N (version el)) ->
  exists ok l' x', lock_all here l x = Some (ok, l', x') /\ map_ x' = map_ x /\ brk x' = brk x /\
    Forall2 locked_or_not l l' /\
    (forall e, heap x' !! e = (fun el => if at_row needs_unlock l' e then lock_el el else el) <$> heap x !! e) /\
    (forall e el, at_row needs_unlock l' e = true -> heap x !! e = Some el -> locked el = false) /\
    (ok = true -> forall it, it ∈ l' -> has_write (it_w it) = true -> needs_unlock it = true).
Proof using Hh.
  revert x. induction l as [|it l IH]; intros x Hd Hu Hw.
  { exists true, [], x. split_and!; [done..|constructor| |done|by intros _ it ?%not_elem_of_nil].
    intros e. by destruct (heap x !! e). }
  pose proof Hd as [Hn Hd']%NoDup_cons. cbn [lock_all]. destruct (has_write (it_w it)) eqn:Hwi.
  - rewrite (Hu it) by left. destruct (Hw it ltac:(left) Hwi) as (e & el & Hk & He & (n & i & o & Hv & Ho & Hnb)).
    unfold lock. rewrite Hk, He. cbn [mbind option_bind]. rewrite Hv, vword_try_lock by done. destruct o as [id|]; cbn [mbind option_bind negb].
    + exists false, (it :: l), (set_elem e (el <| version := vword n i (Some id) |>) x). split_and!; try done.
      * apply Forall_Forall2_diag, Forall_forall. intros it' _. by left.
      * intros e'. assert (at_row needs_unlock (it :: l) e' = false) as ->.
        { unfold at_row. destruct (find_item _ _) as [it'|] eqn:E; [|done]. by apply Hu, (find_item_elem _ _ _ E). }
        assert (el <| version := vword n i (Some id) |> = el) as -> by (rewrite <-Hv; by destruct el).
        unfold set_elem. cbn [heap set_field]. rewrite insert_id by done. by destruct (heap x !! e').
      * intros e' el' Ha. apply at_row_elem in Ha as (it' & Hin & _ & Hu'). by rewrite (Hu it') in Hu'.
    + set (x1 := set_elem e (el <| version := vword n i (Some here) |>) x).
      destruct (IH x1 Hd') as (ok & l' & x' & -> & Hm & Hbr & Hl & Hhe & Hlk & Hok).
      { intros it' Hin. apply Hu. by right. }
      { intros it' Hin Hw'. destruct (Hw it' ltac:(by right) Hw') as (e' & el' & Hk' & He' & Hv'). exists e', el'. split_and!; [done| |done].
        cbn. rewrite lookup_insert_ne; [done|]. intros <-. apply Hn. rewrite Hk, <-Hk'. by apply list_elem_of_fmap_2. }
      assert (it_key <$> l' = it_key <$> l) as Hkeys by (by eapply Forall2_keys; [exact locked_or_not_key|]).
      assert (NoDup (it_key <$> locked_item it :: l')) as Hd1 by (cbn; rewrite Hkeys; by apply NoDup_cons).
      exists ok, (locked_item it :: l'), x'. cbn [mbind option_bind]. split_and!; try done.
      * constructor; [by right|done].
      * intros e'. rewrite Hhe. destruct (at_row_cons needs_unlock _ _ e' Hd1) as [-> Hno]. cbn [it_key locked_item set_field].
        destruct (decide (it_key it = Row e')) as [E|E].
        -- assert (e' = e) as -> by congruence. rewrite (Hno E) by done. cbn. rewrite lookup_insert_eq, He. cbn. unfold lock_el.
           by rewrite Hv, vword_set_lock.
        -- cbn. by rewrite lookup_insert_ne by congruence.
      * intros e' el'. destruct (at_row_cons needs_unlock _ _ e' Hd1) as [-> Hno]. cbn [it_key locked_item set_field].
        destruct (decide (it_key it = Row e')) as [E|E].
        -- assert (e' = e) as -> by congruence. intros _ He'. rewrite He in He'. injection He' as <-. unfold locked.
           rewrite Hv, vword_locked by done. apply bool_decide_false. by intros [].
        -- intros Ha He'. eapply Hlk; [done|]. cbn. by rewrite lookup_insert_ne by congruence.
      * intros Hok' it' [->|Hin]%elem_of_cons; [done|by apply Hok].
  - destruct (IH x Hd') as (ok & l' & x' & -> & Hm & Hbr & Hl & Hhe & Hlk & Hok).
    { intros it' Hin. apply Hu. by right. } { intros it' Hin. apply Hw. by right. }
    assert (it_key <$> l' = it_key <$> l) as Hkeys by (by eapply Forall2_keys; [exact locked_or_not_key|]).
    assert (NoDup (it_key <$> it :: l')) as Hd1 by (cbn; rewrite Hkeys; by apply NoDup_cons).
    assert (forall e', at_row needs_unlock (it :: l') e' = at_row needs_unlock l' e') as HX.
    { intros e'. destruct (at_row_cons needs_unlock _ _ e' Hd1) as [-> Hno]. case_decide as E; [|done].
      rewrite (Hno E) by done. apply Hu. left. }
    exists ok, (it :: l'), x'. cbn [mbind option_bind]. split_and!; try done.
    + constructor; [by left|done].
    + intros e'. by rewrite HX, Hhe.
    + intros e' el'. rewrite HX. apply Hlk.
    + intros Hok' it' [->|Hin]%elem_of_cons; [congruence|by apply Hok].
Qed.

(** * Unlocking *)

Lemma unlock_all_spec l x :
  NoDup (it_key <$> l) ->
  (forall it, it ∈ l -> needs_unlock it = true -> exists e el, it_key it = Row e /\ heap x !! e = Some el) ->
  exists x', unlock_all l x = Some x' /\ map_ x' = map_ x /\ brk x' = brk x /\
    forall e, heap x' !! e = (fun el => if at_row needs_unlock l e then unlock_el el else el) <$> heap x !! e.
Proof using.
  induction l as [|it l IH]; intros Hd Hw.
  { exists x. split_and!; try done. intros e. cbn. by destruct (heap x !! e). }
  pose proof Hd as [Hn Hd']%NoDup_cons. cbn [unlock_all].
  destruct (IH Hd') as (x1 & -> & Hm & Hbr & Hhe); [intros it' Hin; apply Hw; by right|]. cbn [mbind option_bind].
  destruct (needs_unlock it) eqn:Hu.
  - destruct (Hw it ltac:(left) Hu) as (e & el & Hk & He). unfold unlock. rewrite Hk.
    destruct (at_row_cons needs_unlock it l e Hd) as [_ Hno]. rewrite Hhe, He. cbn [fmap option_fmap option_map mbind option_bind].
    rewrite (Hno Hk) by done. eexists. split_and!; [done|done|done|]. intros e'.
    destruct (at_row_cons needs_unlock it l e' Hd) as [-> _]. cbn. destruct (decide (e' = e)) as [->|Hne].
    + rewrite lookup_insert_eq, He, decide_True by done. cbn. by rewrite Hu.
    + rewrite lookup_insert_ne, Hhe by done. by rewrite decide_False by congruence.
  - exists x1. split_and!; try done. intros e. destruct (at_row_cons needs_unlock it l e Hd) as [-> Hno]. rewrite Hhe.
    case_decide as E; [|done]. rewrite (Hno E) by done. by rewrite Hu.
Qed.

(** * Checking *)

Lemma check_all_spec l x :
  (forall it, it ∈ l -> has_read it = true -> is_Some (check it x)) ->
  exists ok, check_all l x = Some ok /\
    (ok = true -> forall it, it ∈ l -> has_read it = true -> locked_at_commit it = true \/ needs_unlock it = false -> check it x = Some true).
Proof using.
  induction l as [|it l IH]; intros Hw; [exists true; split; [done|by intros _ it ?%not_elem_of_nil]|].
  destruct IH as (ok & IH1 & IH2); [intros it' Hin; apply Hw; by right|]. cbn [check_all].
  destruct (has_read it && _) eqn:Hc.
  - apply andb_true_iff in Hc as [Hr Hc]. destruct (Hw it ltac:(left) Hr) as [c Hcheck]. rewrite Hcheck. cbn [mbind option_bind].
    destruct c; [|exists false; done]. exists ok. split; [done|]. intros Hok it' [->|Hin]%elem_of_cons; [done|by apply IH2].
  - cbn [mbind option_bind]. exists ok. split; [done|]. intros Hok it' [->|Hin]%elem_of_cons Hr Hl; [|by apply IH2].
    rewrite Hr in Hc. cbn in Hc. destruct Hl as [Hl|Hl]; rewrite Hl in Hc; [done|by rewrite orb_true_r in Hc].
Qed.

(** * Installing *)

(** The element after [install]. *)
Definition inst it el : option (internal_elem K V) :=
  let tid := TNonopaqueVersion.cp_commit_tid 0 (version el) in
  if has_delete (it_w it) then
    if valid el && negb (deleted el) then
      v ← Tid.set_version (version el) tid here; Some (el <| deleted := true |> <| version := v |>)
    else None
  else
    r ← (if has_insert (it_w it) then Some (row el) else install_cell (it_w it) (row el));
    Some (el <| row := r |> <| version := Tid.set_version_unlock tid |>).

Definition installed_item it : TransItem V :=
  if has_write (it_w it) && negb (has_delete (it_w it)) then it <| needs_unlock := false |> else it.

Lemma install_inst it x :
  install here it x = match it_key it with
                      | Bucket _ => None
                      | Row e => el ← heap x !! e; el' ← inst it el;
                                 Some (if has_delete (it_w it) then it else it <| needs_unlock := false |>, set_elem e el' x)
                      end.
Proof using.
  unfold install, inst. destruct (it_key it) as [e|]; [|done]. destruct (heap x !! e) as [el|]; [|done]. cbn [mbind option_bind].
  destruct (has_delete (it_w it)).
  - destruct (valid el && negb (deleted el)); [|done]. by destruct (Tid.set_version _ _ _).
  - destruct (if has_insert (it_w it) then _ else _); done.
Qed.

Lemma install_all_spec l x l' x' :
  NoDup (it_key <$> l) -> install_all here l x = Some (l', x') ->
  map_ x' = map_ x /\ brk x' = brk x /\ l' = installed_item <$> l /\
  (forall it, it ∈ l -> has_write (it_w it) = true -> exists e el el', it_key it = Row e /\ heap x !! e = Some el /\
     inst it el = Some el' /\ heap x' !! e = Some el') /\
  (forall e, at_row (fun it => has_write (it_w it)) l e = false -> heap x' !! e = heap x !! e).
Proof using.
  revert x l' x'. induction l as [|it l IH]; intros x l' x' Hd; cbn [install_all].
  { intros [= <- <-]. split_and!; try done. by intros it ?%not_elem_of_nil. }
  pose proof Hd as [Hn Hd']%NoDup_cons. destruct (has_write (it_w it)) eqn:Hw.
  - rewrite install_inst. destruct (it_key it) as [e|] eqn:Hk; [|done].
    destruct (heap x !! e) as [el|] eqn:He; [|done]. cbn [mbind option_bind].
    destruct (inst it el) as [el'|] eqn:Hi; [|done]. cbn [mbind option_bind].
    destruct (install_all here l _) as [[l1 x1]|] eqn:E1; [|done]. cbn [mbind option_bind]. intros [= <- <-].
    destruct (IH _ _ _ Hd' E1) as (Hm & Hbr & -> & Hin & Hout).
    assert (forall it', it' ∈ l -> it_key it' <> Row e) as Hne.
    { intros it' Hit E. apply Hn. rewrite <-E. by apply list_elem_of_fmap_2. }
    split_and!; [done|done|cbn; f_equal; unfold installed_item; rewrite Hw; by destruct (has_delete (it_w it))| |].
    + intros it' [->|Hit]%elem_of_cons Hw'.
      * exists e, el, el'. split_and!; try done. rewrite Hout; [cbn; by rewrite lookup_insert_eq|].
        by apply (at_row_cons (fun it => has_write (it_w it)) it l e Hd).
      * destruct (Hin it' Hit Hw') as (e' & el0 & el1 & Hk' & He0 & ? & ?). exists e', el0, el1. split_and!; try done.
        cbn in He0. rewrite lookup_insert_ne in He0; [done|]. intros <-. by eapply Hne.
    + intros e'. destruct (at_row_cons (fun it => has_write (it_w it)) it l e' Hd) as [-> _]. rewrite Hk.
      case_decide as E; [congruence|]. intros Ha. rewrite Hout by done. cbn. by rewrite lookup_insert_ne by congruence.
  - cbn [mbind option_bind]. destruct (install_all here l x) as [[l1 x1]|] eqn:E1; [|done]. cbn [mbind option_bind]. intros [= <- <-].
    destruct (IH _ _ _ Hd' E1) as (Hm & Hbr & -> & Hin & Hout). split_and!; [done|done| | |].
    + cbn. f_equal. unfold installed_item. by rewrite Hw.
    + intros it' [->|Hit]%elem_of_cons; [congruence|by apply Hin].
    + intros e'. destruct (at_row_cons (fun it => has_write (it_w it)) it l e' Hd) as [-> Hno].
      case_decide as E; [|apply Hout]. intros _. apply Hout. by apply Hno.
Qed.

(** It is defined when every written item can be installed. *)
Lemma install_all_defined l x :
  NoDup (it_key <$> l) ->
  (forall it, it ∈ l -> has_write (it_w it) = true -> exists e el, it_key it = Row e /\ heap x !! e = Some el /\ is_Some (inst it el)) ->
  is_Some (install_all here l x).
Proof using.
  revert x. induction l as [|it l IH]; intros x Hd Hw; cbn [install_all]; [done|]. pose proof Hd as [Hn Hd']%NoDup_cons.
  destruct (has_write (it_w it)) eqn:Hwi.
  - destruct (Hw it ltac:(left) Hwi) as (e & el & Hk & He & el' & Hi). rewrite install_inst, Hk, He. cbn [mbind option_bind].
    rewrite Hi. cbn [mbind option_bind]. destruct (IH (set_elem e el' x) Hd') as [[l1 x1] ->]; [|done].
    intros it' Hin Hw'. destruct (Hw it' ltac:(by right) Hw') as (e' & el0 & Hk' & He' & ?). exists e', el0. split_and!; [done| |done].
    cbn. rewrite lookup_insert_ne; [done|]. intros <-. apply Hn. rewrite Hk, <-Hk'. by apply list_elem_of_fmap_2.
  - cbn [mbind option_bind]. destruct (IH x Hd') as [[l1 x1] ->]; [|done]. intros it' Hin. apply Hw. by right.
Qed.

(** * Removing *)

Lemma unlink_spec e (l : list Z) : e ∈ l -> NoDup l -> exists l' : list Z, unlink e l = Some l' /\ NoDup l' /\ forall e', e' ∈ l' <-> e' ∈ l /\ e' <> e.
Proof using.
  induction l as [|e0 l IH]; [by intros ?%not_elem_of_nil|]. intros Hin [Hn Hd]%NoDup_cons. cbn [unlink].
  destruct (Z.eqb_spec e0 e) as [->|Hne].
  - exists l. split_and!; [done|done|]. intros e'. rewrite elem_of_cons. split; [|naive_solver]. intros Hi. split; [by right|].
    by intros ->.
  - apply elem_of_cons in Hin as [?|Hin]; [congruence|]. destruct (IH Hin Hd) as (l' & -> & Hd' & Hl'). cbn [mbind option_bind].
    exists (e0 :: l'). split_and!; [done| |].
    + apply NoDup_cons. split; [|done]. rewrite Hl'. naive_solver.
    + intros e'. rewrite !elem_of_cons, Hl'. naive_solver.
Qed.

Definition buckets_ok x : Prop :=
  (forall b, exists n, b_version (map_ x b) = vword n false None) /\ forall b, NoDup (chain (map_ x b)).

(** [x'] is [x] without the elements in [gone]. *)
Record without (gone : Z -> bool) x x' : Prop := {
  wo_heap : heap x' = heap x; wo_brk : brk x' = brk x;
  wo_version b : b_version (map_ x' b) = b_version (map_ x b);
  wo_nodup b : NoDup (chain (map_ x' b));
  wo_chain b e : e ∈ chain (map_ x' b) <-> e ∈ chain (map_ x b) /\ gone e = false }.

Lemma remove_spec e el x :
  buckets_ok x -> heap x !! e = Some el -> e ∈ chain (map_ x (find_bucket_idx (e_key el))) ->
  (forall b, e ∈ chain (map_ x b) -> b = find_bucket_idx (e_key el)) ->
  exists x', _remove hasher_ nbuckets here e x = Some x' /\ without (Z.eqb e) x x'.
Proof using Hh.
  intros [Hbv Hnd] He Hin Honly. unfold _remove. rewrite He. cbn [mbind option_bind]. set (b := find_bucket_idx (e_key el)) in *.
  destruct (Hbv b) as [n Hn]. destruct (lock_bucket_ok x here b n Hh Hn) as (x1 & -> & Hh1 & Hb1 & Hm1). cbn [mbind option_bind].
  rewrite (Hm1 b), decide_True by done. cbn [chain]. destruct (unlink_spec e _ Hin (Hnd b)) as (l' & -> & Hd' & Hl').
  cbn [mbind option_bind]. eexists. split; [done|].
  assert (with_bucket b {| chain := l'; b_version := vword n false None |} x (unlock_bucket b (set_bucket b (fun bk => bk <| chain := l' |>) x1))) as Hm.
  { apply (unlock_bucket_map here); [done|]. intros b'. rewrite set_bucket_map.
    case_decide; [by rewrite (Hm1 b), decide_True|by rewrite Hm1, decide_False]. }
  split; [done|done|..]; intros b'; rewrite (Hm b').
  - case_decide; [subst; by rewrite Hn|done].
  - case_decide; [done|apply Hnd].
  - intros e'. case_decide as E; cbn [chain].
    + subst b'. rewrite Hl', Z.eqb_neq. naive_solver.
    + rewrite Z.eqb_neq. split; [|by intros [? _]]. intros Hi. split; [done|]. intros <-. by apply E, Honly.
Qed.

Definition removes (committed : bool) it : bool :=
  has_write (it_w it) && (if committed then has_delete (it_w it) else has_insert (it_w it)).
Definition cleaned_item (committed : bool) it : TransItem V :=
  if removes committed it then it <| needs_unlock := false |> else it.

Lemma cleanup_all_spec committed l x :
  NoDup (it_key <$> l) -> buckets_ok x ->
  (forall it, it ∈ l -> removes committed it = true -> exists e el, it_key it = Row e /\ heap x !! e = Some el /\
     negb (valid el) || deleted el = true /\ e ∈ chain (map_ x (find_bucket_idx (e_key el))) /\
     forall b, e ∈ chain (map_ x b) -> b = find_bucket_idx (e_key el)) ->
  exists x', cleanup_all hasher_ nbuckets here committed l x = Some (cleaned_item committed <$> l, x') /\
    without (at_row (removes committed) l) x x'.
Proof using Hh.
  induction l as [|it l IH]; intros Hd Hbk Hw.
  { exists x. split; [done|]. split; try done; [apply Hbk|]. intros b e. cbn. naive_solver. }
  pose proof Hd as [Hn Hd']%NoDup_cons. cbn [cleanup_all].
  destruct (IH Hd' Hbk) as (x1 & -> & [W1 W2 W3 W4 W5]); [intros it' Hin; apply Hw; by right|]. cbn [mbind option_bind].
  pose proof (eq_refl (cleaned_item committed it)) as Hci. unfold cleaned_item in Hci at 2.
  destruct (removes committed it) eqn:Hr.
  - destruct (Hw it ltac:(left) Hr) as (e & el & Hk & He & Hv & Hin & Honly). pose proof Hr as [Hwr Hsel]%andb_true_iff.
    rewrite Hwr. unfold cleanup. rewrite Hsel, Hk, W1, He. cbn [mbind option_bind]. rewrite Hv.
    destruct (at_row_cons (removes committed) it l e Hd) as [_ Hno].
    destruct (remove_spec e el x1) as (x2 & -> & [V1 V2 V3 V4 V5]).
    + split; [intros b; rewrite W3; apply Hbk|apply W4].
    + by rewrite W1.
    + apply W5. split; [done|]. by apply Hno.
    + intros b Hi. apply Honly. by apply W5 in Hi as [? _].
    + cbn [mbind option_bind]. exists x2. split; [rewrite fmap_cons, Hci; done|]. split.
      * congruence.
      * congruence.
      * intros b. by rewrite V3.
      * done.
      * intros b e'. rewrite V5, W5. destruct (at_row_cons (removes committed) it l e' Hd) as [-> _].
        destruct (decide (it_key it = Row e')) as [E|E].
        -- assert (e' = e) as -> by congruence. rewrite Hr, Z.eqb_refl. naive_solver.
        -- assert ((e =? e') = false) as -> by (apply Z.eqb_neq; congruence). naive_solver.
  - assert ((if has_write (it_w it) then cleanup hasher_ nbuckets here committed it x1 else Some (it, x1)) = Some (it, x1)) as ->.
    { unfold removes in Hr. unfold cleanup. destruct (has_write (it_w it)); [|done]. cbn in Hr. by rewrite Hr. }
    cbn [mbind option_bind]. exists x1. split; [rewrite fmap_cons, Hci; done|]. split; try done.
    intros b e'. rewrite W5. destruct (at_row_cons (removes committed) it l e' Hd) as [-> Hno].
    case_decide as E; [|done]. rewrite (Hno E) by done. by rewrite Hr.
Qed.

End loops.
