(* ===== verification/UIndexCommit.v ===== *)
(** [try_commit] and [stop] over the hash index: an aborted transaction leaves the
    committed rows as they were, and one that commits has the effect of its body
    alone on them. *)

From stdpp Require Import functions.
From S2P Require Import Prelude Tid UIndex UIndexSpec UIndexInv UIndexOps UIndexInsert UIndexLoops.

Section commit.
Context {K V A : Type} `{Countable K} (hasher_ : K -> Z) (nbuckets : Z) (here : Z) (Hh : uint 7 here).
Implicit Types (x : unordered_index K V) (el : internal_elem K V) (l : list (TransItem V)) (it : TransItem V) (m : gmap K V).
Abbreviation find_bucket_idx := (find_bucket_idx hasher_ nbuckets).
Abbreviation wf := (wf hasher_ nbuckets).
Abbreviation good := (good (A := A) hasher_ nbuckets).
Abbreviation stop := (stop hasher_ nbuckets here).
Abbreviation try_commit := (try_commit hasher_ nbuckets here).
Abbreviation writes := (fun it : TransItem V => has_write (it_w it)) (only parsing).

(** * [stop] *)

Lemma find_item_fmap (f : TransItem V -> TransItem V) l k :
  (forall it, it_key (f it) = it_key it) -> find_item (f <$> l) k = f <$> find_item l k.
Proof. intros Hf. induction l as [|it l IH]; [done|]. cbn. rewrite Hf. by case_decide. Qed.

Lemma at_row_fmap (f : TransItem V -> TransItem V) P l e :
  (forall it, it_key (f it) = it_key it) -> at_row P (f <$> l) e = at_row (fun it => P (f it)) l e.
Proof. intros Hf. unfold at_row. rewrite find_item_fmap by done. by destruct (find_item l (Row e)). Qed.

Lemma cleaned_key c it : it_key (cleaned_item c it) = it_key it.
Proof. unfold cleaned_item. by case_match. Qed.
Lemma installed_key it : it_key (installed_item it) = it_key it.
Proof. unfold installed_item. by case_match. Qed.

Lemma fmap_keys (f : TransItem V -> TransItem V) l : (forall it, it_key (f it) = it_key it) -> it_key <$> (f <$> l) = it_key <$> l.
Proof. intros Hf. rewrite <-list_fmap_compose. apply list_fmap_ext. intros i it _. apply Hf. Qed.

Lemma stop_spec c l (tx : Transaction V) x :
  NoDup (it_key <$> l) -> buckets_ok x ->
  (any_writes tx = true \/ forall it, it ∈ l -> has_write (it_w it) = false) ->
  (forall it, it ∈ l -> removes c it = true -> exists e el, it_key it = Row e /\ heap x !! e = Some el /\
     negb (valid el) || deleted el = true /\ e ∈ chain (map_ x (find_bucket_idx (e_key el))) /\
     forall b, e ∈ chain (map_ x b) -> b = find_bucket_idx (e_key el)) ->
  (forall it, it ∈ l -> needs_unlock it = true -> exists e el, it_key it = Row e /\ heap x !! e = Some el) ->
  exists x', stop c l tx x = Some x' /\ brk x' = brk x /\ (forall b, b_version (map_ x' b) = b_version (map_ x b)) /\
    (forall b, NoDup (chain (map_ x' b))) /\
    (forall b e, e ∈ chain (map_ x' b) <-> e ∈ chain (map_ x b) /\ at_row (removes c) l e = false) /\
    (forall e, heap x' !! e = (fun el => if at_row (fun it => negb (removes c it) && needs_unlock it) l e then unlock_el el else el)
                                <$> heap x !! e).
Proof using Hh.
  intros Hd Hbk Hany Hrm Hu. unfold UIndex.stop.
  assert (exists x1, (if any_writes tx then cleanup_all hasher_ nbuckets here c l x else Some (l, x)) = Some (cleaned_item c <$> l, x1) /\
    without (at_row (removes c) l) x x1) as (x1 & -> & [W1 W2 W3 W4 W5]).
  { destruct (any_writes tx); [by apply cleanup_all_spec|]. destruct Hany as [?|Hno]; [done|]. exists x.
    assert (forall it, it ∈ l -> removes c it = false) as Hr by (intros it Hin; unfold removes; by rewrite Hno).
    split.
    - do 2 f_equal. rewrite <-(list_fmap_id l) at 1. apply list_fmap_ext. intros i it Hi%list_elem_of_lookup_2.
      unfold cleaned_item. by rewrite Hr.
    - split; try done; [apply Hbk|]. intros b e. split; [|by intros [? _]]. intros Hin. split; [done|]. unfold at_row.
      destruct (find_item l (Row e)) eqn:E; [|done]. by apply Hr, (find_item_elem _ _ _ E). }
  cbn [mbind option_bind].
  destruct (unlock_all_spec (cleaned_item c <$> l) x1) as (x' & -> & Hm & Hb & Hhe).
  { by rewrite fmap_keys by apply cleaned_key. }
  { intros it (it0 & -> & Hin)%list_elem_of_fmap Hn. rewrite cleaned_key, W1. apply Hu; [done|].
    unfold cleaned_item in Hn. by case_match. }
  exists x'. split_and!; [done|congruence|by intros; rewrite Hm|by intros; rewrite Hm|by intros; rewrite Hm|].
  intros e. rewrite Hhe, W1. assert (at_row needs_unlock (cleaned_item c <$> l) e = at_row (fun it => negb (removes c it) && needs_unlock it) l e) as ->; [|done].
  rewrite at_row_fmap by apply cleaned_key. unfold at_row. destruct (find_item l (Row e)); [|done].
  unfold cleaned_item. by case_match.
Qed.

Section thread.
Context (N : Z) (x : unordered_index K V) (t : thread K V A).
Context (W : wf N x) (T : tx_ok N x (th_txn t)) (HN : N + 1 < 2 ^ 52).
Abbreviation tx := (th_txn t).
#[local] Set Default Proof Using "Type*".

Lemma wf_buckets_ok : buckets_ok x.
Proof.
  split; [|apply (wf_nodup _ _ _ _ W)]. intros b. destruct (wf_bucket _ _ _ _ W b) as (n & ? & _). by exists n.
Qed.

Lemma tset_item it : it ∈ tset tx -> item tx (it_key it) = it.
Proof. apply item_in, (ts_nodup _ (to_self _ _ _ T)). Qed.

Lemma written_row it : it ∈ tset tx -> has_write (it_w it) = true ->
  exists e el, it_key it = Row e /\ it = item tx (Row e) /\ heap x !! e = Some el /\ word_ok N (version el).
Proof.
  intros Hin Hw. pose proof (tset_item it Hin) as Hit. destruct (it_key it) as [e|b] eqn:Hk.
  - destruct (to_rows _ _ _ T e) as (el & He & _); [rewrite Hit; unfold flagged; by rewrite Hw, orb_true_r|].
    exists e, el. split_and!; [done|done|done|]. by apply (wf_heap _ _ _ _ W) in He as [? _].
  - pose proof (ts_bucket _ (to_self _ _ _ T) b) as Hb. rewrite Hit in Hb. congruence.
Qed.

Lemma own_row e : own tx e -> exists el, heap x !! e = Some el /\ valid el = false /\ locked el = false /\ deleted el = false /\
  e ∈ chain (map_ x (find_bucket_idx (e_key el))) /\ has_write (it_w (item tx (Row e))) = true.
Proof.
  intros Ho. destruct (to_rows _ _ _ T e) as (el & He & Hr & _); [by eapply own_flagged|]. unfold own in Ho. rewrite Ho in Hr.
  destruct Hr as [Hl Hv]. destruct (linked_elem _ _ _ _ _ W Hl) as (el' & He' & Hin & Hlk & Hdel). rewrite He in He'. injection He' as <-.
  exists el. split_and!; try done. destruct (has_write _) eqn:Hw; [done|].
  by rewrite (ts_noflags _ (to_self _ _ _ T) _ Hw) in Ho.
Qed.

Lemma chain_bucket e el b : heap x !! e = Some el -> e ∈ chain (map_ x b) -> b = find_bucket_idx (e_key el).
Proof. intros He Hin. destruct (wf_chain _ _ _ _ W b e Hin) as (el' & ? & <- & _). by simplify_eq. Qed.

(** * Aborting *)

(** The state after some items have been locked. *)
Record partly_locked l x1 : Prop := {
  pl_items : Forall2 locked_or_not (tset tx) l;
  pl_map : map_ x1 = map_ x; pl_brk : brk x1 = brk x;
  pl_heap e : heap x1 !! e = (fun el => if at_row needs_unlock l e then lock_el here el else el) <$> heap x !! e;
  pl_free e el : at_row needs_unlock l e = true -> heap x !! e = Some el -> locked el = false }.

Lemma nothing_locked : partly_locked (tset tx) x.
Proof.
  assert (forall e, at_row needs_unlock (tset tx) e = false) as HX.
  { intros e. rewrite at_row_item by done. apply (ts_unlocked _ (to_self _ _ _ T)). }
  split; [apply Forall_Forall2_diag, Forall_forall; intros; by left|done|done| |].
  - intros e. rewrite HX. by destruct (heap x !! e).
  - intros e el. by rewrite HX.
Qed.

Section partly.
Context (l : list (TransItem V)) (x1 : unordered_index K V) (P : partly_locked l x1).

Lemma partly_keys : it_key <$> l = it_key <$> tset tx.
Proof. eapply Forall2_keys; [exact locked_or_not_key|apply (pl_items _ _ P)]. Qed.

Lemma partly_nodup : NoDup (it_key <$> l).
Proof. rewrite partly_keys. apply (ts_nodup _ (to_self _ _ _ T)). Qed.

(** An item after the locking: the same but for the lock. *)
Lemma partly_item it : it ∈ l -> exists it0, it0 ∈ tset tx /\ locked_or_not it0 it.
Proof. intros [i Hi]%list_elem_of_lookup. destruct (Forall2_lookup_r _ _ _ _ _ (pl_items _ _ P) Hi) as (it0 & ? & ?).
  exists it0. split; [by eapply list_elem_of_lookup_2|done].
Qed.

Lemma partly_at (Q : TransItem V -> bool) e :
  (forall it it', locked_or_not it it' -> Q it' = Q it) -> at_row Q l e = at_row Q (tset tx) e.
Proof.
  intros HQ. unfold at_row. pose proof (find_item_Forall2 _ _ _ (Row e) locked_or_not_key (pl_items _ _ P)) as HF.
  destruct (find_item (tset tx) (Row e)), (find_item l (Row e)); try done. by apply HQ.
Qed.

Lemma partly_buckets_ok : buckets_ok x1.
Proof. unfold buckets_ok. rewrite (pl_map _ _ P). apply wf_buckets_ok. Qed.

(** A locked element keeps its validity; unlocking it gives it back. *)
Lemma lock_el_fields e el : heap x !! e = Some el -> locked el = false ->
  valid (lock_el here el) = valid el /\ unlock_el (lock_el here el) = el /\ num (version (lock_el here el)) = num (version el) /\
  word_ok N (version (lock_el here el)) /\ locked (lock_el here el) = true.
Proof using Hh W.
  intros He Hl. apply (wf_heap _ _ _ _ W) in He as [(n & i & o & Hv & Ho & Hn) _].
  unfold locked in Hl. rewrite Hv, vword_locked in Hl by done. destruct o as [id|]; [by rewrite bool_decide_true in Hl by (by eexists)|].
  assert (version (lock_el here el) = vword n i (Some here)) as Hv' by (cbn; by rewrite Hv, vword_set_lock).
  split_and!.
  - unfold valid, invalid_bit. by rewrite Hv', Hv, !vword_invalid.
  - unfold unlock_el. rewrite Hv'. unfold Tid.unlock. rewrite vword_unlocked by done. rewrite <-Hv. by destruct el.
  - by rewrite Hv', Hv, !num_vword.
  - exists n, i, (Some here). done.
  - unfold locked. rewrite Hv', vword_locked by done. apply bool_decide_true. by eexists.
Qed.

(** [x'] is [x] without the transaction's new rows. *)
Record aborted_to x' : Prop := {
  ab_brk : brk x' = brk x;
  ab_version b : b_version (map_ x' b) = b_version (map_ x b);
  ab_nodup b : NoDup (chain (map_ x' b));
  ab_chain b e : e ∈ chain (map_ x' b) <-> e ∈ chain (map_ x b) /\ has_insert (it_w (item tx (Row e))) = false;
  ab_heap e : ~ own tx e -> heap x' !! e = heap x !! e;
  ab_own e el : own tx e -> heap x !! e = Some el -> exists el', heap x' !! e = Some el' /\ e_key el' = e_key el /\
    num (version el') = num (version el) /\ word_ok N (version el') }.

Lemma removes_own e : at_row (removes false) (tset tx) e = has_insert (it_w (item tx (Row e))).
Proof.
  rewrite at_row_item by done. unfold removes. destruct (has_write _) eqn:Hw; [done|].
  by rewrite (ts_noflags _ (to_self _ _ _ T) _ Hw).
Qed.

Lemma stop_aborts : exists x', stop false l tx x1 = Some x' /\ aborted_to x'.
Proof.
  assert (forall it it', locked_or_not it it' -> removes false it' = removes false it) as Hrm by (by intros it it' [->|[_ ->]]).
  destruct (stop_spec false l tx x1) as (x' & E & Hb & Hbv & Hnd & Hch & Hhe).
  - apply partly_nodup.
  - apply partly_buckets_ok.
  - destruct (any_writes tx) eqn:Ha; [by left|right]. intros it (it0 & Hin & Hl)%partly_item.
    destruct (has_write (it_w it0)) eqn:Hw; [|by destruct Hl as [->|[? _]]; [|congruence]].
    rewrite <-(tset_item it0 Hin) in Hw. apply (ts_any_w _ (to_self _ _ _ T)) in Hw. congruence.
  - intros it Hin Hr. destruct (partly_item it Hin) as (it0 & Hin0 & Hl). rewrite (Hrm _ _ Hl) in Hr.
    pose proof Hr as [Hw Hi]%andb_true_iff. destruct (written_row it0 Hin0 Hw) as (e & el & Hk & Hit & He & _).
    destruct (own_row e) as (el' & He' & Hv & Hlk & _ & Hch & _); [unfold own; by rewrite <-Hit|]. rewrite He in He'. injection He' as <-.
    rewrite (locked_or_not_key _ _ Hl), (pl_map _ _ P). exists e. eexists. rewrite (pl_heap _ _ P), He. split_and!; [done|done|..].
    + case_match; [|by rewrite Hv]. destruct (lock_el_fields e el He Hlk) as (-> & _). by rewrite Hv.
    + by case_match.
    + intros b Hb. replace b with (find_bucket_idx (e_key el)) by (symmetry; by eapply chain_bucket). by case_match.
  - intros it Hin Hu. destruct (partly_item it Hin) as (it0 & Hin0 & Hl). rewrite (locked_or_not_key _ _ Hl).
    destruct Hl as [->|[Hw ->]].
    { rewrite <-(tset_item it0 Hin0) in Hu. by rewrite (proj1 (ts_unlocked _ (to_self _ _ _ T) _)) in Hu. }
    destruct (written_row it0 Hin0 Hw) as (e & el & Hk & _ & He & _). exists e. eexists. split; [done|]. by rewrite (pl_heap _ _ P), He.
  - exists x'. split; [done|]. split.
    + by rewrite Hb, (pl_brk _ _ P).
    + intros b. by rewrite Hbv, (pl_map _ _ P).
    + done.
    + intros b e. rewrite Hch, (pl_map _ _ P), partly_at, removes_own by done. done.
    + intros e Ho. rewrite Hhe, (pl_heap _ _ P). destruct (heap x !! e) as [el|] eqn:He; [|done]. cbn. f_equal.
      assert (at_row (fun it => negb (removes false it) && needs_unlock it) l e = at_row needs_unlock l e) as ->.
      { unfold at_row. destruct (find_item l (Row e)) as [it|] eqn:Ei; [|done]. unfold own in Ho.
        assert (removes false it = false) as ->; [|done].
        pose proof (removes_own e) as Hro. rewrite <-partly_at in Hro by done. unfold at_row in Hro. rewrite Ei in Hro. rewrite Hro.
        by destruct (has_insert _). }
      case_match eqn:Hu; [|done]. by destruct (lock_el_fields e el He (pl_free _ _ P e el Hu He)) as (_ & -> & _).
    + intros e el Ho He. rewrite Hhe, (pl_heap _ _ P), He. cbn.
      assert (at_row (fun it => negb (removes false it) && needs_unlock it) l e = false) as ->.
      { pose proof (removes_own e) as Hro. rewrite <-partly_at in Hro by done. unfold own in Ho. rewrite Ho in Hro. unfold at_row in *.
        destruct (find_item l (Row e)); [|done]. by rewrite Hro. }
      eexists. split; [done|]. destruct (own_row e Ho) as (el' & He' & _ & Hlk & _). rewrite He in He'. injection He' as <-.
      destruct (lock_el_fields e el He Hlk) as (_ & _ & ? & ? & _).
      case_match; [done|]. split_and!; [done|done|]. by apply (wf_heap _ _ _ _ W) in He as [? _].
Qed.

End partly.

(** The invariant after an abort. *)
Section aborted.
Context (x' : unordered_index K V) (AB : aborted_to x').

Lemma aborted_linked e : linked x' e <-> linked x e /\ ~ own tx e.
Proof.
  unfold linked, own. setoid_rewrite (ab_chain _ AB). rewrite not_true_iff_false. naive_solver.
Qed.

Lemma aborted_wf : wf (N + 1) x'.
Proof.
  split.
  - intros e el' He'. destruct (decide (own tx e)) as [Ho|Ho].
    + destruct (own_row e Ho) as (el & He & _). destruct (ab_own _ AB e el Ho He) as (? & ? & _ & _ & ?). simplify_eq.
      rewrite (ab_brk _ AB). apply (wf_heap _ _ _ _ W) in He as [_ ?]. split; [eapply word_ok_mono; [done|lia]|done].
    + rewrite (ab_heap _ AB e Ho) in He'. apply (wf_heap _ _ _ _ W) in He' as [? ?]. rewrite (ab_brk _ AB).
      split; [eapply word_ok_mono; [done|lia]|done].
  - intros b. rewrite (ab_version _ AB). destruct (wf_bucket _ _ _ _ W b) as (n & ? & ?). exists n. split; [done|lia].
  - intros b e [Hin Ho]%(ab_chain _ AB). destruct (wf_chain _ _ _ _ W b e Hin) as (el & He & ?). exists el.
    split; [|done]. rewrite (ab_heap _ AB); [done|]. unfold own. congruence.
  - intros e e' el el' [Hl Ho]%aborted_linked [Hl' Ho']%aborted_linked. rewrite !(ab_heap _ AB) by done. by apply (wf_keys _ _ _ _ W).
  - apply (ab_nodup _ AB).
Qed.

Lemma aborted_evolves : evolves (own tx) x x'.
Proof.
  split; [by rewrite (ab_brk _ AB)| |].
  - intros e el He. destruct (decide (own tx e)) as [Ho|Ho].
    + destruct (own_row e Ho) as (el0 & He0 & Hv & Hlk & _). rewrite He in He0. injection He0 as <-.
      destruct (ab_own _ AB e el Ho He) as (el' & He' & Hk & Hn & _). exists el'. split_and!; [done|done|lia|congruence|congruence|done].
    + exists el. rewrite (ab_heap _ AB e Ho). setoid_rewrite aborted_linked. split_and!; [done|done|lia|done|by left|done].
  - intros b. rewrite (ab_version _ AB). split; [lia|]. by intros _ e [? _]%(ab_chain _ AB).
Qed.

Lemma aborted_represents m : represents x m -> represents x' m.
Proof.
  intros R k v. rewrite (R k v). split; intros (e & el & (He & Hl & Hv) & Hkr).
  - assert (~ own tx e) as Ho. { intros Ho. destruct (own_row e Ho) as (el' & ? & ? & _). simplify_eq. congruence. }
    exists e, el. split; [|done]. split_and!; [by rewrite (ab_heap _ AB)|by apply aborted_linked|done].
  - apply aborted_linked in Hl as [Hl Ho]. rewrite (ab_heap _ AB) in He by done. by exists e, el.
Qed.

End aborted.

(** * Committing *)

(** A transaction that has its locks and whose reads check is not doomed. *)
Lemma checked_not_doomed l x1 :
  partly_locked l x1 -> (forall it, it ∈ l -> has_write (it_w it) = true -> needs_unlock it = true) ->
  (forall it, it ∈ l -> has_read it = true -> locked_at_commit it = true \/ needs_unlock it = false -> check it x1 = Some true) ->
  ~ doomed x tx.
Proof.
  intros P Hlock Hcheck [k Hd]. pose proof (item_elem _ _ (doomed_flagged _ _ Hd)) as Hin. set (it := item tx k) in *.
  pose proof (find_item_Forall2 _ _ _ k locked_or_not_key (pl_items _ _ P)) as HF.
  rewrite <-(item_key_of tx k) in HF. fold it in HF. rewrite (find_item_in _ it) in HF; [|apply (ts_nodup _ (to_self _ _ _ T))|done].
  destruct (find_item l (it_key it)) as [it'|] eqn:E; [|done]. pose proof (find_item_elem _ _ _ E) as Hin'.
  assert (needs_unlock it = false) as Hnu by apply (ts_unlocked _ (to_self _ _ _ T)).
  assert (it_w it' = it_w it /\ has_read it' = has_read it /\ rdata it' = rdata it /\ it_key it' = it_key it) as (Ew & Er & Ed & Ek)
    by (by destruct HF as [->|[_ ->]]).
  assert (has_read it = true -> check it' x1 = Some true) as Hc.
  { intros Hr. apply Hcheck; [done|congruence|]. destruct HF as [->|[_ ->]]; [by right|by left]. }
  unfold check in Hc. rewrite Ek, Ew, Ed in Hc. revert Hd. unfold doomed_item.
  assert (it_key it = k) as Hk by apply item_key_of. destruct (it_key it) as [e|b] eqn:Ekey; subst k.
  - destruct (heap x !! e) as [el|] eqn:He; [|done]. rewrite (pl_heap _ _ P), He in Hc. cbn [fmap option_fmap option_map mbind option_bind] in Hc.
    assert (at_row needs_unlock l e = needs_unlock it') as Hat by (unfold at_row; by rewrite E). rewrite Hat in Hc.
    intros [Hfl Hd]%andb_true_iff. destruct (locked el) eqn:Hlk.
    + destruct (has_write (it_w it)) eqn:Hw.
      * assert (needs_unlock it' = true) as Hu by (apply Hlock; [done|congruence]).
        pose proof (pl_free _ _ P e el) as Hfree. rewrite Hat, Hu, Hlk in Hfree. by specialize (Hfree eq_refl He).
      * unfold flagged in Hfl. rewrite Hw, orb_false_r in Hfl. specialize (Hc Hfl).
        assert (needs_unlock it' = false) as Hu by (destruct HF as [->|[? _]]; [done|congruence]). rewrite Hu in Hc.
        unfold TNonopaqueVersion.cp_check_locked in Hc. unfold locked in Hlk. by rewrite Hlk in Hc.
    + cbn [orb] in Hd. apply andb_true_iff in Hd as [Hr Hd]. specialize (Hc Hr). injection Hc as Hc. apply andb_true_iff in Hc as [_ Hc].
      destruct (to_rows _ _ _ T e Hfl) as (el0 & He0 & _ & Hrd). rewrite He in He0. injection He0 as <-.
      destruct (Hrd Hr) as [(n & i & o & Erd & Ho & _) _]. fold it in Erd. unfold TNonopaqueVersion.cp_check_version in Hc.
      assert (exists n' i' o', version (if needs_unlock it' then lock_el here el else el) = vword n' i' o' /\ owner_ok o' /\ n' = num (version el)) as (n' & i' & o' & Ev & Ho' & En').
      { destruct (lock_el_fields e el He Hlk) as (_ & _ & Hnum & (n' & i' & o' & Ev & Ho' & _) & _). case_match.
        - exists n', i', o'. rewrite <-Hnum, Ev, num_vword by done. done.
        - apply (wf_heap _ _ _ _ W) in He as [(n1 & i1 & o1 & Ev1 & Ho1 & _) _]. exists n1, i1, o1. rewrite Ev1, num_vword by done. done. }
      rewrite Ev, Erd, vword_check in Hc by done. apply Z.eqb_eq in Hc. rewrite Erd, num_vword in Hd by done.
      apply Z.ltb_lt in Hd. lia.
  - rewrite (pl_map _ _ P) in Hc. cbn [mbind option_bind] in Hc. intros [Hr Hd]%andb_true_iff. specialize (Hc Hr).
    injection Hc as Hc. apply andb_true_iff in Hc as [_ Hc]. destruct (to_buckets _ _ _ T b Hr) as (n & Erd & _). fold it in Erd.
    destruct (wf_bucket _ _ _ _ W b) as (n' & Ev & _). unfold TNonopaqueVersion.cp_check_version in Hc.
    rewrite Ev, Erd, vword_check in Hc by done. apply Z.eqb_eq in Hc. rewrite Ev, Erd, !num_vword in Hd by done. apply Z.ltb_lt in Hd. lia.
Qed.

(** [x'] is [x] with the writes of the transaction installed. *)
Record committed_to x' : Prop := {
  cm_brk : brk x' = brk x;
  cm_version b : b_version (map_ x' b) = b_version (map_ x b);
  cm_nodup b : NoDup (chain (map_ x' b));
  cm_chain b e : e ∈ chain (map_ x' b) <-> e ∈ chain (map_ x b) /\ removes true (item tx (Row e)) = false;
  cm_heap e : has_write (it_w (item tx (Row e))) = false -> heap x' !! e = heap x !! e;
  cm_written e : has_write (it_w (item tx (Row e))) = true -> exists el el', heap x !! e = Some el /\ heap x' !! e = Some el' /\
    locked el = false /\ inst here (item tx (Row e)) (lock_el here el) = Some el' }.

Lemma inst_fields e el it el' :
  heap x !! e = Some el -> locked el = false -> inst here it (lock_el here el) = Some el' ->
  e_key el' = e_key el /\ num (version el') = num (version el) + 1 /\ word_ok (N + 1) (version el') /\ valid el' = true /\
  if has_delete (it_w it) then valid el = true /\ locked el' = true /\ deleted el' = true
  else locked el' = false /\ deleted el' = deleted el /\
       (if has_insert (it_w it) then row el' = row el else install_cell (it_w it) (row el) = Some (row el')).
Proof.
  intros He Hl. destruct (lock_el_fields e el He Hl) as (Hvalid & _). unfold inst. rewrite Hvalid.
  apply (wf_heap _ _ _ _ W) in He as [(n & i & o & Hv & Ho & Hn) _].
  unfold locked in Hl. rewrite Hv, vword_locked in Hl by done. destruct o as [id|]; [by rewrite bool_decide_true in Hl by (by eexists)|].
  assert (version (lock_el here el) = vword n i (Some here)) as Hv' by (cbn; by rewrite Hv, vword_set_lock).
  assert (forall w : internal_elem K V, version w = vword (n + 1) false None \/ version w = vword (n + 1) false (Some here) ->
    num (version w) = num (version el) + 1 /\ word_ok (N + 1) (version w) /\ valid w = true) as Hw.
  { intros w. rewrite Hv, num_vword by done. unfold valid, invalid_bit.
    intros [->| ->]; rewrite num_vword, vword_invalid by done; (split; [done|split; [|done]]); do 3 eexists; (split; [done|split; [done|lia]]). }
  rewrite Hv', vword_next by (done || lia). destruct (has_delete (it_w it)).
  - change (deleted (lock_el here el)) with (deleted el). destruct (valid el && negb (deleted el)) eqn:Hvd; [|done].
    apply andb_true_iff in Hvd as [-> _]. rewrite vword_set_version by done. cbn [mbind option_bind]. intros [= <-].
    match goal with |- context [num (version ?w)] => destruct (Hw w) as (H1 & H2 & H3) end; [by right|].
    split_and!; try done. unfold locked. cbn. rewrite vword_locked by done. apply bool_decide_true. by eexists.
  - change (row (lock_el here el)) with (row el). rewrite vword_set_version_unlock by done.
    destruct (if has_insert (it_w it) then _ else _) as [r|] eqn:Hr; [|done]. cbn [mbind option_bind]. intros [= <-].
    match goal with |- context [num (version ?w)] => destruct (Hw w) as (H1 & H2 & H3) end; [by left|].
    split_and!; try done; [unfold locked; cbn; rewrite vword_locked by done; apply bool_decide_false; by intros []|].
    cbn [row set_field]. destruct (has_insert (it_w it)); [by injection Hr|done].
Qed.

(** The end of a transaction that has been checked. *)
Lemma install_commits l x1 l2 x2 :
  partly_locked l x1 -> (forall it, it ∈ l -> has_write (it_w it) = true -> needs_unlock it = true) -> ~ doomed x tx ->
  install_all here l x1 = Some (l2, x2) -> exists x', stop true l2 tx x2 = Some x' /\ committed_to x'.
Proof.
  intros P Hlock Hnd E. destruct (install_all_spec here l x1 l2 x2 (partly_nodup l x1 P) E) as (Hm2 & Hb2 & -> & Hw2 & Hh2).
  assert (forall it it', locked_or_not it it' -> has_write (it_w it') = has_write (it_w it)) as Hww by (by intros it it' [->|[_ ->]]).
  assert (forall it it', locked_or_not it it' -> removes true it' = removes true it) as Hrm by (by intros it it' [->|[_ ->]]).
  assert (forall e, at_row (fun it => has_write (it_w it)) l e = has_write (it_w (item tx (Row e)))) as Hatw.
  { intros e. rewrite (partly_at l x1 P) by done. by apply (at_row_item (fun it => has_write (it_w it))). }
  (* what a written element has become *)
  assert (forall e, has_write (it_w (item tx (Row e))) = true -> exists el el', heap x !! e = Some el /\ heap x2 !! e = Some el' /\
    locked el = false /\ inst here (item tx (Row e)) (lock_el here el) = Some el') as Hwr.
  { intros e Hw. rewrite <-Hatw in Hw. apply at_row_elem in Hw as (it & Hin & Hk & Hw).
    destruct (Hw2 it Hin Hw) as (e' & el1 & el' & Hk' & He1 & Hi & He'). rewrite Hk in Hk'. injection Hk' as <-.
    assert (at_row needs_unlock l e = true) as Hu.
    { rewrite (at_row_in _ l it e); [by apply Hlock|by apply (partly_nodup l x1)|done|done]. }
    rewrite (pl_heap _ _ P), Hu in He1. destruct (heap x !! e) as [el|] eqn:He; [|done]. injection He1 as <-.
    exists el, el'. split_and!; [done|done|by eapply (pl_free _ _ P)|]. rewrite <-Hi. unfold inst.
    assert (it_w (item tx (Row e)) = it_w it) as ->; [|done].
    pose proof (find_item_Forall2 _ _ _ (Row e) locked_or_not_key (pl_items _ _ P)) as HF.
    pose proof (find_item_in l it (partly_nodup l x1 P) Hin) as Hfi. rewrite Hk in Hfi. rewrite Hfi in HF. unfold item.
    destruct (find_item (tset tx) (Row e)) as [it0|]; [|done]. cbn. by destruct HF as [->|[_ ->]]. }
  destruct (stop_spec true (installed_item <$> l) tx x2) as (x' & E' & Hb & Hbv & Hdup & Hch & Hhe).
  - rewrite fmap_keys by apply installed_key. apply (partly_nodup l x1 P).
  - unfold buckets_ok. rewrite Hm2, (pl_map _ _ P). apply wf_buckets_ok.
  - destruct (any_writes tx) eqn:Ha; [by left|right]. intros it (it1 & -> & Hin)%list_elem_of_fmap.
    assert (has_write (it_w it1) = false) as Hw; [|unfold installed_item; rewrite Hw; done].
    destruct (partly_item l x1 P it1 Hin) as (it0 & Hin0 & Hl0). rewrite (Hww _ _ Hl0).
    destruct (has_write (it_w it0)) eqn:Hw; [|done]. rewrite <-(tset_item it0 Hin0) in Hw. apply (ts_any_w _ (to_self _ _ _ T)) in Hw. congruence.
  - intros it (it1 & -> & Hin)%list_elem_of_fmap Hr. rewrite installed_key.
    assert (it_w (installed_item it1) = it_w it1) as Ew by (unfold installed_item; by case_match).
    unfold removes in Hr. rewrite Ew in Hr. apply andb_true_iff in Hr as [Hw Hdel].
    destruct (Hw2 it1 Hin Hw) as (e & el1 & el' & Hk & He1 & Hi & He').
    rewrite (pl_heap _ _ P) in He1. destruct (heap x !! e) as [el|] eqn:He; [|done].
    assert (at_row needs_unlock l e = true) as Hu.
    { rewrite (at_row_in _ l it1 e); [by apply Hlock|by apply (partly_nodup l x1)|done|done]. }
    rewrite Hu in He1. injection He1 as <-. pose proof (pl_free _ _ P e el Hu He) as Hlk.
    destruct (inst_fields e el it1 el' He Hlk Hi) as (Hkey & _ & _ & _ & Hf). rewrite Hdel in Hf. destruct Hf as (_ & _ & Hd).
    exists e, el'. rewrite Hm2, (pl_map _ _ P), Hkey. split_and!; [done|done|by rewrite Hd, orb_true_r| |intros b; by apply chain_bucket].
    assert (linked x e) as Hl; [|destruct (linked_elem _ _ _ _ _ W Hl) as (el0 & He0 & ? & _); congruence].
    destruct (to_rows _ _ _ T e) as (el0 & He0 & Hr0 & _).
    { unfold flagged. rewrite <-Hatw, (at_row_in _ l it1 e) by (done || by apply (partly_nodup l x1)). by rewrite Hw, orb_true_r. }
    case_match; [by destruct Hr0|]. destruct Hr0 as [[? _]|?]; [done|]. congruence.
  - intros it (it1 & -> & Hin)%list_elem_of_fmap Hu. rewrite installed_key.
    assert (has_write (it_w it1) = true) as Hw.
    { destruct (has_write (it_w it1)) eqn:Hw; [done|]. unfold installed_item in Hu. rewrite Hw in Hu. cbn in Hu.
      destruct (partly_item l x1 P it1 Hin) as (it0 & Hin0 & [->|[Hw0 ->]]); [|cbn in Hw; congruence].
      rewrite <-(tset_item it0 Hin0) in Hu. by rewrite (proj1 (ts_unlocked _ (to_self _ _ _ T) _)) in Hu. }
    destruct (Hw2 it1 Hin Hw) as (e & el1 & el' & Hk & _ & _ & He'). by exists e, el'.
  - exists x'. split; [done|].
    assert (forall e, at_row (fun it => negb (removes true it) && needs_unlock it) (installed_item <$> l) e = false) as HX.
    { intros e. rewrite at_row_fmap by apply installed_key. unfold at_row. destruct (find_item l (Row e)) as [it|] eqn:Ei; [|done].
      apply find_item_elem in Ei as Hin. unfold installed_item. destruct (has_write (it_w it)) eqn:Hw; cbn [andb].
      - destruct (has_delete (it_w it)) eqn:Hdel; cbn; [unfold removes; by rewrite Hw, Hdel|by rewrite andb_false_r].
      - destruct (partly_item l x1 P it Hin) as (it0 & Hin0 & [->|[Hw0 ->]]); [|cbn in Hw; congruence].
        rewrite <-(tset_item it0 Hin0), (proj1 (ts_unlocked _ (to_self _ _ _ T) _)). by rewrite andb_false_r. }
    assert (forall e, heap x' !! e = heap x2 !! e) as Hhe'.
    { intros e. rewrite Hhe, HX. by destruct (heap x2 !! e). }
    split.
    + by rewrite Hb, Hb2, (pl_brk _ _ P).
    + intros b. by rewrite Hbv, Hm2, (pl_map _ _ P).
    + done.
    + intros b e. rewrite Hch, Hm2, (pl_map _ _ P), at_row_fmap by apply installed_key.
      assert (at_row (fun it => removes true (installed_item it)) l e = at_row (removes true) l e) as ->.
      { unfold at_row. destruct (find_item l (Row e)); [|done]. unfold removes, installed_item. by case_match. }
      rewrite (partly_at l x1 P), at_row_item by done. done.
    + intros e Hw. rewrite Hhe', Hh2 by (by rewrite Hatw). rewrite (pl_heap _ _ P).
      destruct (at_row needs_unlock l e) eqn:Hu; [|by destruct (heap x !! e)].
      apply at_row_elem in Hu as (it & Hin & Hk & Hu). destruct (partly_item l x1 P it Hin) as (it0 & Hin0 & Hl0).
      destruct Hl0 as [->|[Hw0 ->]].
      * rewrite <-(tset_item it0 Hin0) in Hu. by rewrite (proj1 (ts_unlocked _ (to_self _ _ _ T) _)) in Hu.
      * change (it_key (locked_item it0)) with (it_key it0) in Hk. rewrite <-(tset_item it0 Hin0), Hk in Hw0. congruence.
    + intros e Hw. destruct (Hwr e Hw) as (el & el' & ? & ? & ? & ?). exists el, el'. by rewrite Hhe'.
Qed.

(** [try_commit] aborts, or it installs the writes of a transaction that is not
    doomed. *)
Lemma try_commit_cases :
  (exists x', try_commit tx x = Some (false, x') /\ aborted_to x') \/
  ~ doomed x tx /\ exists l x1, partly_locked l x1 /\
    (forall it, it ∈ l -> has_write (it_w it) = true -> needs_unlock it = true) /\
    try_commit tx x = ('(l2, x2) ← install_all here l x1; x' ← stop true l2 tx x2; Some (true, x')).
Proof.
  unfold UIndex.try_commit. destruct (negb (any_writes tx) && negb (any_nonopaque tx)) eqn:Hro.
  - right. apply andb_true_iff in Hro as [Hw%negb_true_iff Hr%negb_true_iff].
    assert (forall k, flagged (item tx k) = false) as Hnf.
    { intros k. unfold flagged. apply orb_false_iff. split.
      - destruct (has_read _) eqn:E; [|done]. by rewrite (ts_any_r _ (to_self _ _ _ T) k E) in Hr.
      - destruct (has_write _) eqn:E; [|done]. by rewrite (ts_any_w _ (to_self _ _ _ T) k E) in Hw. }
    assert (forall it, it ∈ tset tx -> has_write (it_w it) = false) as Hnw.
    { intros it Hi. pose proof (Hnf (it_key it)) as Hn. rewrite (tset_item it Hi) in Hn. by apply orb_false_iff in Hn as [_ ?]. }
    split; [intros [k Hd%doomed_flagged]; by rewrite Hnf in Hd|]. exists (tset tx), x. split; [apply nothing_locked|]. split.
    { intros it Hi Hwi. by rewrite (Hnw it Hi) in Hwi. }
    assert (install_all here (tset tx) x = Some (tset tx, x)) as ->; [|done].
    induction (tset tx) as [|it l IH]; [done|]. cbn [install_all]. rewrite Hnw by left. cbn [mbind option_bind].
    rewrite IH by (intros it' ?; apply Hnw; by right). done.
  - destruct (lock_all_spec here Hh N (tset tx) x) as (locked & l & x1 & -> & Hm & Hb & Hl & Hhe & Hfree & Hok).
    + apply (ts_nodup _ (to_self _ _ _ T)).
    + intros it Hin. rewrite <-(tset_item it Hin). apply (ts_unlocked _ (to_self _ _ _ T)).
    + intros it Hin Hw. destruct (written_row it Hin Hw) as (e & el & ? & _ & ? & ?). by exists e, el.
    + assert (partly_locked l x1) as P by done. cbn [mbind option_bind].
      assert (exists c, (if locked then check_all l x1 else Some false) = Some c /\ (c = true -> locked = true /\
        forall it, it ∈ l -> has_read it = true -> locked_at_commit it = true \/ needs_unlock it = false -> check it x1 = Some true)) as (c & -> & Hc).
      { destruct locked; [|by exists false]. destruct (check_all_spec l x1) as (c & Ec & Hc); [|by exists c; split; [|split; [|apply Hc]]].
        intros it Hin Hr. destruct (partly_item l x1 P it Hin) as (it0 & Hin0 & Hl0).
        assert (has_read it0 = true) as Hr0 by (by destruct Hl0 as [->|[_ ->]]).
        unfold check. rewrite (locked_or_not_key _ _ Hl0). pose proof (tset_item it0 Hin0) as Hit0.
        destruct (it_key it0) as [e|b]; [|by eexists]. destruct (to_rows _ _ _ T e) as (el & He & _).
        { rewrite Hit0. unfold flagged. by rewrite Hr0. }
        rewrite (pl_heap _ _ P), He. by eexists. }
      cbn [mbind option_bind]. destruct c.
      * right. destruct (Hc eq_refl) as [-> Hchk]. split; [eapply checked_not_doomed; [done|by apply Hok|done]|].
        exists l, x1. split; [done|]. split; [by apply Hok|]. done.
      * left. destruct (stop_aborts l x1 P) as (x3 & -> & AB). by exists x3.
Qed.

Lemma try_commit_spec ok x' :
  try_commit tx x = Some (ok, x') -> if ok then ~ doomed x tx /\ committed_to x' else aborted_to x'.
Proof.
  destruct try_commit_cases as [(x0 & -> & AB)|(Hnd & l & x1 & P & Hlock & ->)]; [by intros [= <- <-]|].
  destruct (install_all here l x1) as [[l2 x2]|] eqn:Ei; [|done]. cbn [mbind option_bind].
  destruct (install_commits l x1 l2 x2 P Hlock Hnd Ei) as (x3 & -> & C). cbn [mbind option_bind]. by intros [= <- <-].
Qed.

(** It ends if everything it writes can be installed. *)
Lemma try_commit_defined :
  (~ doomed x tx -> forall e el, has_write (it_w (item tx (Row e))) = true -> heap x !! e = Some el -> locked el = false ->
    is_Some (inst here (item tx (Row e)) (lock_el here el))) ->
  exists ok x', try_commit tx x = Some (ok, x').
Proof.
  intros Hinst. destruct try_commit_cases as [(x0 & -> & AB)|(Hnd & l & x1 & P & Hlock & ->)]; [by do 2 eexists|].
  destruct (install_all_defined here l x1 (partly_nodup l x1 P)) as [[l2 x2] Ei].
  { intros it Hin Hw. destruct (partly_item l x1 P it Hin) as (it0 & Hin0 & Hl0). pose proof (locked_or_not_key _ _ Hl0) as Hk.
    assert (it_w it = it_w it0) as Ew by (by destruct Hl0 as [->|[_ ->]]).
    destruct (written_row it0 Hin0) as (e & el & Hke & Hr & He & _); [congruence|]. rewrite Hke in Hk.
    assert (at_row needs_unlock l e = true) as Hu.
    { rewrite (at_row_in _ l it e); [by apply Hlock|by apply (partly_nodup l x1)|done|done]. }
    exists e, (lock_el here el). split; [done|]. rewrite (pl_heap _ _ P), Hu, He. split; [done|].
    assert (item tx (Row e) = it0) as Hit by (rewrite <-Hke; by apply tset_item).
    replace (inst here it (lock_el here el)) with (inst here (item tx (Row e)) (lock_el here el)) by (unfold inst; by rewrite Hit, Ew).
    apply Hinst; [done|by rewrite Hit, <-Ew|done|by eapply (pl_free _ _ P)]. }
  rewrite Ei. cbn [mbind option_bind]. destruct (install_commits l x1 l2 x2 P Hlock Hnd Ei) as (x3 & -> & C). by do 2 eexists.
Qed.

(** The next version of an element can be installed, unless a row that is not
    committed is deleted or there is nothing to write. *)
Lemma inst_defined e el it :
  heap x !! e = Some el -> locked el = false ->
  (if has_delete (it_w it) then valid el = true /\ deleted el = false
   else has_insert (it_w it) = true \/ is_Some (install_cell (it_w it) (row el))) ->
  is_Some (inst here it (lock_el here el)).
Proof using Hh W HN.
  intros He Hl Hok. destruct (lock_el_fields e el He Hl) as (Hvalid & _). unfold inst. rewrite Hvalid.
  apply (wf_heap _ _ _ _ W) in He as [(n & i & o & Hv & Ho & Hn) _].
  unfold locked in Hl. rewrite Hv, vword_locked in Hl by done. destruct o as [id|]; [by rewrite bool_decide_true in Hl by (by eexists)|].
  assert (version (lock_el here el) = vword n i (Some here)) as Hv' by (cbn; by rewrite Hv, vword_set_lock).
  rewrite Hv', vword_next by (done || lia). destruct (has_delete (it_w it)).
  - change (deleted (lock_el here el)) with (deleted el). destruct Hok as [-> ->]. cbn [andb negb].
    rewrite vword_set_version by done. by eexists.
  - change (row (lock_el here el)) with (row el). destruct (has_insert (it_w it)); [by eexists|].
    destruct Hok as [?|[r ->]]; [done|]. by eexists.
Qed.

End thread.
End commit.

Section committed.
Context {K V A : Type} `{Countable K} (hasher_ : K -> Z) (nbuckets : Z) (here : Z) (Hh : uint 7 here).
Context (N : Z) (x x' : unordered_index K V) (t : thread K V A).
Context (W : wf hasher_ nbuckets N x) (T : tx_ok N x (th_txn t)) (HN : N + 1 < 2 ^ 52).
Context (Hnd : ~ doomed x (th_txn t)) (CM : committed_to here x t x').
Abbreviation tx := (th_txn t).
Implicit Types (m : gmap K V).
#[local] Set Default Proof Using "Type*".

Lemma committed_linked e : linked x' e <-> linked x e /\ removes true (item tx (Row e)) = false.
Proof. unfold linked. setoid_rewrite (cm_chain _ _ _ _ CM). naive_solver. Qed.

Lemma written_linked e : has_write (it_w (item tx (Row e))) = true -> linked x e.
Proof using T Hnd.
  intros Hw. destruct (to_rows _ _ _ T e) as (el & He & Hr & _); [unfold flagged; by rewrite Hw, orb_true_r|].
  case_match; [by destruct Hr|]. destruct Hr as [[? _]|Hlk]; [done|]. destruct Hnd. exists (Row e). unfold doomed_item.
  rewrite item_key_of, He, Hlk. unfold flagged. by rewrite Hw, orb_true_r.
Qed.

(** What has become of an element. *)
Lemma committed_elem e el : heap x !! e = Some el -> exists el', heap x' !! e = Some el' /\ e_key el' = e_key el /\
  if has_write (it_w (item tx (Row e))) then
    locked el = false /\ inst here (item tx (Row e)) (lock_el here el) = Some el' /\
    num (version el') = num (version el) + 1 /\ word_ok (N + 1) (version el') /\ valid el' = true /\
    if has_delete (it_w (item tx (Row e))) then valid el = true /\ locked el' = true
    else locked el' = false /\ deleted el' = deleted el /\
      (if has_insert (it_w (item tx (Row e))) then row el' = row el
       else install_cell (it_w (item tx (Row e))) (row el) = Some (row el'))
  else el' = el.
Proof.
  intros He. destruct (has_write (it_w (item tx (Row e)))) eqn:Hw.
  - destruct (cm_written _ _ _ _ CM e Hw) as (el0 & el' & He0 & He' & Hlk & Hi). rewrite He in He0. injection He0 as <-.
    destruct (inst_fields hasher_ nbuckets here Hh N x t W T HN e el _ el' He Hlk Hi) as (? & ? & ? & ? & Hf).
    exists el'. split_and!; try done. case_match; [|done]. by destruct Hf as (? & ? & _).
  - exists el. by rewrite (cm_heap _ _ _ _ CM e Hw).
Qed.

Lemma committed_old e el' : heap x' !! e = Some el' -> exists el, heap x !! e = Some el.
Proof.
  intros He'. destruct (has_write (it_w (item tx (Row e)))) eqn:Hw.
  - destruct (cm_written _ _ _ _ CM e Hw) as (el & ? & ? & _). by exists el.
  - rewrite (cm_heap _ _ _ _ CM e Hw) in He'. by exists el'.
Qed.

Lemma committed_wf : wf hasher_ nbuckets (N + 1) x'.
Proof.
  assert (forall e el', heap x' !! e = Some el' -> exists el, heap x !! e = Some el /\ e_key el' = e_key el) as Hold.
  { intros e el' He'. destruct (committed_old e el' He') as [el He]. exists el. split; [done|].
    destruct (committed_elem e el He) as (el0 & He0 & Hk & _). congruence. }
  split.
  - intros e el' He'. destruct (committed_old e el' He') as [el He]. rewrite (cm_brk _ _ _ _ CM).
    destruct (wf_heap _ _ _ _ W e el He) as [Hv ?]. split; [|done].
    destruct (committed_elem e el He) as (el0 & He0 & _ & Hf). rewrite He' in He0. injection He0 as <-. case_match.
    + by destruct Hf as (_ & _ & _ & ? & _).
    + subst. eapply word_ok_mono; [done|lia].
  - intros b. rewrite (cm_version _ _ _ _ CM). destruct (wf_bucket _ _ _ _ W b) as (n & ? & ?). exists n. split; [done|lia].
  - intros b e [Hin Hrm]%(cm_chain _ _ _ _ CM). destruct (wf_chain _ _ _ _ W b e Hin) as (el & He & <- & Hlk & Hdel).
    destruct (committed_elem e el He) as (el' & He' & Hk & Hf). exists el'. rewrite Hk. split_and!; try done.
    + case_match eqn:Hw; [|by subst]. destruct Hf as (_ & _ & _ & _ & _ & Hf). unfold removes in Hrm. rewrite Hw in Hrm. cbn in Hrm.
      rewrite Hrm in Hf. by destruct Hf.
    + case_match eqn:Hw; [|by subst]. destruct Hf as (_ & _ & _ & _ & _ & Hf). unfold removes in Hrm. rewrite Hw in Hrm. cbn in Hrm.
      rewrite Hrm in Hf. destruct Hf as (_ & -> & _). done.
  - intros e1 e2 el1' el2' [Hl1 _]%committed_linked [Hl2 _]%committed_linked He1' He2' Hk.
    destruct (Hold _ _ He1') as (el1 & He1 & Hk1). destruct (Hold _ _ He2') as (el2 & He2 & Hk2).
    eapply (wf_keys _ _ _ _ W _ _ _ _ Hl1 Hl2 He1 He2). congruence.
  - apply (cm_nodup _ _ _ _ CM).
Qed.

Lemma committed_evolves : evolves (own tx) x x'.
Proof.
  split; [by rewrite (cm_brk _ _ _ _ CM)| |].
  - intros e el He. destruct (committed_elem e el He) as (el' & He' & Hk & Hf). exists el'. split; [done|]. split; [done|].
    destruct (has_write (it_w (item tx (Row e)))) eqn:Hw.
    + destruct Hf as (Hlk & _ & Hn & _ & Hv' & Hf). split_and!; [lia|congruence| |].
      * intros Hl Hv. destruct (has_delete (it_w (item tx (Row e)))) eqn:Hdel; [right; by destruct Hf|left].
        split_and!; [|done|lia]. apply committed_linked. split; [done|]. unfold removes. by rewrite Hw, Hdel.
      * intros Hl Hv Ho. destruct (to_rows _ _ _ T e) as (el0 & He0 & Hr & _); [unfold flagged; by rewrite Hw, orb_true_r|].
        rewrite He in He0. injection He0 as <-. unfold own in Ho. apply not_true_iff_false in Ho. rewrite Ho in Hr.
        destruct Hr as [[_ ?]|?]; congruence.
    + subst el'. assert (linked x e -> linked x' e) as Hl.
      { intros Hl. apply committed_linked. split; [done|]. unfold removes. by rewrite Hw. }
      split_and!; [lia|done|intros ? ?; left; split_and!; [by apply Hl|done|done]|intros ? ? _; split; [done|by apply Hl]].
  - intros b. rewrite (cm_version _ _ _ _ CM). split; [lia|]. by intros _ e [? _]%(cm_chain _ _ _ _ CM).
Qed.

(** A row of the transaction is its own or a committed one. *)
Lemma mine_cases L rows e el :
  agrees x tx L rows -> heap x !! e = Some el -> linked x e -> valid el = true \/ own tx e ->
  own tx e /\ mine L !! e_key el = Some (row el) \/ ~ own tx e /\ valid el = true /\ mine L !! e_key el = None.
Proof using W T HN.
  intros Ag He Hl Hv. destruct (decide (own tx e)) as [Ho|Ho].
  - left. split; [done|]. apply (ag_mine _ _ _ _ Ag). by exists e, el.
  - right. destruct Hv as [Hv|?]; [|done]. split_and!; [done|done|]. destruct (mine L !! e_key el) as [v|] eqn:Hm; [|done].
    apply (ag_mine _ _ _ _ Ag) in Hm as (e' & el' & Ho' & He' & Hk & _).
    destruct (own_row hasher_ nbuckets N x t W T HN e' Ho') as (el0 & He0 & _ & _ & _ & Hin & _).
    assert (e' = e) as -> by (eapply (wf_keys _ _ _ _ W); [by eexists|exact Hl|exact He'|exact He|exact Hk]). done.
Qed.

Lemma written_el e : has_write (it_w (item tx (Row e))) = true ->
  exists el, heap x !! e = Some el /\ linked x e /\ (valid el = true \/ own tx e).
Proof using W T Hnd.
  intros Hw. destruct (to_rows _ _ _ T e) as (el & He & Hr & _); [unfold flagged; by rewrite Hw, orb_true_r|].
  pose proof (written_linked e Hw) as Hl. exists el. split_and!; [done|done|]. unfold own. case_match; [by right|].
  destruct Hr as [[_ ?]|Hlk]; [by left|]. destruct (linked_elem _ _ _ _ _ W Hl) as (el0 & He0 & _ & ? & _). congruence.
Qed.

Lemma committed_represents L rows m :
  agrees x tx L rows -> represents x m -> exists m', finish m L = Some m' /\ represents x' m'.
Proof.
  intros Ag R.
  assert (forall e el, heap x !! e = Some el -> linked x e -> valid el = true -> m !! e_key el = Some (row el)) as Hm.
  { intros e el He Hl Hv. apply R. by exists e, el. }
  destruct (finish_defined m L) as [m' Hfin].
  { intros k w Hw. destruct (ag_items _ _ _ _ Ag k w Hw) as (e & el & He & Hl & <- & Hhw & <-).
    destruct (written_el e Hhw) as (el0 & He0 & _ & Hv). rewrite He in He0. injection He0 as <-.
    destruct (committed_elem e el He) as (el' & _ & _ & Hf). rewrite Hhw in Hf. destruct Hf as (_ & _ & _ & _ & _ & Hf).
    unfold intent_ok. destruct (mine_cases L rows e el Ag He Hl Hv) as [[Ho ->]|(Ho & Hv' & ->)].
    - destruct (has_delete _); [|done]. destruct Hf as [Hv' _].
      destruct (own_row hasher_ nbuckets N x t W T HN e Ho) as (el0 & He0 & ? & _). congruence.
    - rewrite (Hm e el He Hl Hv'). destruct (has_delete _); [done|]. unfold own in Ho. apply not_true_iff_false in Ho. rewrite Ho in Hf.
      destruct Hf as (_ & _ & ->). by rewrite bool_decide_true by (by eexists). }
  exists m'. split; [done|]. intros k v. rewrite (finish_lookup m L m' Hfin k). split.
  - destruct (mine L !! k) as [v0|] eqn:Hmine.
    + intros [= <-]. apply (ag_mine _ _ _ _ Ag) in Hmine as (e & el & Ho & He & <- & <-).
      destruct (own_row hasher_ nbuckets N x t W T HN e Ho) as (el0 & He0 & Hinv & _ & _ & Hin & Hw). rewrite He in He0. injection He0 as <-.
      destruct (committed_elem e el He) as (el' & He' & Hk & Hf). rewrite Hw in Hf. destruct Hf as (_ & _ & _ & _ & Hv' & Hf).
      destruct (has_delete _) eqn:Hdel; [destruct Hf; congruence|]. unfold own in Ho. rewrite Ho in Hf.
      exists e, el'. split_and!; [|done|by destruct Hf as (_ & _ & ->)]. split_and!; [done| |done]. apply committed_linked.
      split; [by eexists|]. unfold removes. by rewrite Hw, Hdel.
    + destruct (m !! k) as [r|] eqn:Hmk; [|done]. apply R in Hmk as (e & el & (He & Hl & Hv) & <- & <-).
      destruct (committed_elem e el He) as (el' & He' & Hk & Hf). destruct (has_write (it_w (item tx (Row e)))) eqn:Hw.
      * rewrite (ag_todo _ _ _ _ Ag e el He Hl Hw). cbn. destruct Hf as (_ & _ & _ & _ & Hv' & Hf).
        destruct (has_delete _) eqn:Hdel; [done|]. intros Hi.
        assert (has_insert (it_w (item tx (Row e))) = false) as Hni.
        { apply not_true_iff_false. intros Ho. destruct (own_row hasher_ nbuckets N x t W T HN e Ho) as (el0 & He0 & ? & _). congruence. }
        rewrite Hni in Hf. destruct Hf as (_ & _ & Hi'). exists e, el'. split_and!; [|done|congruence]. split_and!; [done| |done].
        apply committed_linked. split; [done|]. unfold removes. by rewrite Hw, Hdel.
      * subst el'. assert (todo L !! e_key el = None) as ->.
        { destruct (todo L !! e_key el) as [w|] eqn:Ht; [|done]. destruct (ag_items _ _ _ _ Ag _ _ Ht) as (e2 & el2 & He2 & Hl2 & Hk2 & Hw2 & _).
          assert (e2 = e) as -> by (by eapply (wf_keys _ _ _ _ W)). congruence. }
        intros [= <-]. exists e, el. split_and!; [|done|done]. split_and!; [done| |done]. apply committed_linked. split; [done|]. unfold removes. by rewrite Hw.
  - intros (e & el' & (He' & [Hl Hrm]%committed_linked & Hv') & <- & <-). destruct (committed_old e el' He') as [el He].
    destruct (committed_elem e el He) as (el0 & He0 & Hk & Hf). rewrite He' in He0. injection He0 as <-. rewrite Hk.
    destruct (has_write (it_w (item tx (Row e)))) eqn:Hw.
    + unfold removes in Hrm. rewrite Hw in Hrm. cbn in Hrm. rewrite Hrm in Hf. destruct Hf as (_ & _ & _ & _ & _ & _ & _ & Hrow).
      destruct (written_el e Hw) as (el0 & He0 & _ & Hv). rewrite He in He0. injection He0 as <-.
      destruct (mine_cases L rows e el Ag He Hl Hv) as [[Ho ->]|(Ho & Hv0 & ->)].
      * unfold own in Ho. rewrite Ho in Hrow. by rewrite Hrow.
      * rewrite (Hm e el He Hl Hv0), (ag_todo _ _ _ _ Ag e el He Hl Hw). cbn. rewrite Hrm.
        unfold own in Ho. apply not_true_iff_false in Ho. by rewrite Ho in Hrow.
    + subst el'. destruct (mine_cases L rows e el Ag He Hl (or_introl Hv')) as [[Ho _]|(_ & _ & ->)].
      { destruct (own_row hasher_ nbuckets N x t W T HN e Ho) as (? & ? & _ & _ & _ & _ & ?). congruence. }
      rewrite (Hm e el He Hl Hv'). destruct (todo L !! e_key el) as [w|] eqn:Ht; [|done].
      destruct (ag_items _ _ _ _ Ag _ _ Ht) as (e2 & el2 & He2 & Hl2 & Hk2 & Hw2 & _).
      assert (e2 = e) as -> by (by eapply (wf_keys _ _ _ _ W)). congruence.
Qed.

(** What was seen holds of the committed rows. *)
Lemma obs_holds m o : represents x m -> obs_ok hasher_ nbuckets x tx o -> holds m o.
Proof using W T HN.
  intros R. destruct o as [k v|k|k]; cbn.
  - intros (e & el & _ & Hl & <- & <-). apply R. by exists e, el.
  - intros (e & el & _ & Hl & <-). exists (row el). apply R. by exists e, el.
  - intros Ho. apply (represents_None x m k R). intros e el (He & Hl & Hv) Hk.
    assert (own tx e) as Hoe.
    { destruct Ho as [[_ Hall]|(e' & el' & Ho' & He' & Hk')]; [by eapply Hall|].
      destruct (own_row hasher_ nbuckets N x t W T HN e' Ho') as (el0 & He0 & _ & _ & _ & Hin & _).
      assert (e' = e) as -> by (eapply (wf_keys _ _ _ _ W); [by eexists|exact Hl|exact He'|exact He|congruence]). done. }
    destruct (own_row hasher_ nbuckets N x t W T HN e Hoe) as (? & ? & ? & _). congruence.
Qed.

Lemma committed_serial m r :
  good hasher_ nbuckets x t -> th_body t = Done r -> represents x m ->
  exists m', serial (th_prog t) m local_new = Some (Some r, m') /\ represents x' m'.
Proof.
  intros (l & L & Hp & Ho & Ag) Hb R. destruct (committed_represents L _ m Ag R) as (m' & Hfin & R').
  exists m'. split; [|done]. rewrite (path_serial _ _ _ _ m Hp).
  - rewrite Hb. cbn. by rewrite Hfin.
  - eapply Forall_impl; [exact Ho|]. intros o. by apply obs_holds.
Qed.

End committed.
