(* ===== verification/UIndexMain.v ===== *)
(** Runs of transactions over the hash index: the invariant of the whole system, and
    the theorems: runs are serializable and come to their end; and the keys of the
    transaction items. *)

From stdpp Require Import functions.
From S2P Require Import Prelude Tid UIndex UIndexSpec UIndexInv UIndexOps UIndexInsert.
From S2P Require Import UIndexLoops UIndexCommit.

Section run.
Context {K V A : Type} `{Countable K} (hasher_ : K -> Z) (nbuckets : Z).
Implicit Types (x : unordered_index K V) (m : gmap K V) (s : sys K V A) (t : thread K V A).
Abbreviation wf := (wf hasher_ nbuckets).
Abbreviation good := (good (A := A) hasher_ nbuckets).
Abbreviation step := (step hasher_ nbuckets).
Abbreviation run := (run hasher_ nbuckets).

(** A body updates only rows that it has selected. *)
Fixpoint holds_rows (p : prog K V A) (h : gset K) : Prop :=
  match p with
  | Done _ | Abort => True
  | Select k _ c => holds_rows (c None) h /\ forall v, holds_rows (c (Some v)) ({[k]} ∪ h)
  | Update k _ p | Commute k _ p => k ∈ h /\ holds_rows p h
  | Insert _ _ _ c | Delete _ c => forall b, holds_rows (c b) h
  end.

(** A body that comes to its end alone on any table. *)
Definition total (p : prog K V A) : Prop := holds_rows p ∅ /\ forall m, is_Some (serial p m local_new).
Definition ready t : Prop :=
  holds_rows (th_body t) (dom (th_rows t)) /\ forall m, is_Some (serial (th_prog t) m local_new).

Lemma continue_thread id ok t x t' x' ev :
  continue_or_abort hasher_ nbuckets id ok t x = Some (Some t', x', ev) -> t' = t.
Proof. unfold continue_or_abort. destruct ok; [by intros [= <-]|]. by destruct (stop _ _ _ _ _ _). Qed.

Record thread_ok (N : Z) x t : Prop := {
  tk_tx : tx_ok N x (th_txn t);
  tk_rows : rows_ok t;
  tk_state : doomed x (th_txn t) \/ good x t }.

Record inv (N : Z) s m : Prop := {
  inv_wf : wf N (index s);
  inv_ids id t : threads s !! id = Some t -> uint 7 id;
  inv_threads id t : threads s !! id = Some t -> thread_ok N (index s) t;
  inv_own id id' t t' e : threads s !! id = Some t -> threads s !! id' = Some t' ->
    own (th_txn t) e -> own (th_txn t') e -> id = id';
  inv_new e el : linked (index s) e -> heap (index s) !! e = Some el -> valid el = false ->
    exists id t, threads s !! id = Some t /\ own (th_txn t) e;
  inv_rows : represents (index s) m }.

(** A step of thread [id] that took the index to [x'] and the thread to [ot]. *)
Lemma inv_moves N s m id t x' m' (ot : option (thread K V A)) (mine : Z -> Prop) :
  inv N s m -> threads s !! id = Some t ->
  wf (N + 1) x' -> evolves mine (index s) x' -> (forall e, mine e -> own (th_txn t) e) ->
  (forall e, linked x' e -> linked (index s) e \/ exists t', ot = Some t' /\ own (th_txn t') e) ->
  (forall e el', own (th_txn t) e -> linked x' e -> heap x' !! e = Some el' -> valid el' = false ->
    exists t', ot = Some t' /\ own (th_txn t') e) ->
  represents x' m' ->
  (forall t', ot = Some t' -> thread_ok (N + 1) x' t' /\
     forall e, own (th_txn t') e -> own (th_txn t) e \/ heap (index s) !! e = None) ->
  inv (N + 1) {| index := x'; threads := partial_alter (fun _ => ot) id (threads s) |} m'.
Proof.
  intros I Ht W' E Hmine Hlinked Hown R' Hot.
  assert (forall id' t', partial_alter (fun _ => ot) id (threads s) !! id' = Some t' ->
    id' = id /\ ot = Some t' \/ id' <> id /\ threads s !! id' = Some t') as Hthreads.
  { intros id' t'. destruct (decide (id' = id)) as [->|Hne]; [rewrite lookup_partial_alter_eq; by left|].
    rewrite lookup_partial_alter_ne by done. by right. }
  assert (forall id' t' e, id' <> id -> threads s !! id' = Some t' -> own (th_txn t') e -> ~ own (th_txn t) e /\ heap (index s) !! e <> None) as Hother.
  { intros id' t' e Hne Ht' Ho. split; [intros Ho'; by destruct Hne; eapply (inv_own _ _ _ I)|].
    destruct (inv_threads _ _ _ I _ _ Ht') as [T' _ _]. destruct (to_rows _ _ _ T' e) as (el & -> & _); [by eapply own_flagged|done]. }
  split; cbn [index threads].
  - done.
  - intros id' t' [[-> _]|[_ Ht']]%Hthreads; by eapply (inv_ids _ _ _ I).
  - intros id' t' [[-> Hs]|[Hne Ht']]%Hthreads; [by apply Hot|].
    destruct (inv_threads _ _ _ I _ _ Ht') as [T' RO' I']. pose proof (inv_wf _ _ _ I) as W.
    assert (forall e, own (th_txn t') e -> ~ mine e) as Hnm.
    { intros e Ho Hm. destruct (Hother id' t' e Hne Ht' Ho) as [Hn _]. by apply Hn, Hmine. }
    split; [by eapply other_tx_ok|done|by eapply other_good].
  - intros id1 id2 t1 t2 e [[-> H1]|[Hne1 H1]]%Hthreads [[-> H2]|[Hne2 H2]]%Hthreads Ho1 Ho2; [done|..].
    + destruct (proj2 (Hot _ H1) e Ho1) as [Ho|Hn]; by destruct (Hother id2 t2 e Hne2 H2 Ho2).
    + destruct (proj2 (Hot _ H2) e Ho2) as [Ho|Hn]; by destruct (Hother id1 t1 e Hne1 H1 Ho1).
    + by eapply (inv_own _ _ _ I).
  - intros e el' Hl He' Hv. destruct (Hlinked e Hl) as [Hl0|(t' & -> & Ho)]; [|exists id, t'; by rewrite lookup_partial_alter_eq].
    destruct (linked_elem _ _ _ _ _ (inv_wf _ _ _ I) Hl0) as (el & He & _).
    destruct (ev_heap _ _ _ E e el He) as (el0 & He0 & _ & _ & _ & Hlv & _). rewrite He' in He0. injection He0 as <-.
    destruct (valid el) eqn:Hv0.
    { destruct (Hlv Hl0 eq_refl) as [(_ & ? & _)|Hlk]; [congruence|].
      destruct (linked_elem _ _ _ _ _ W' Hl) as (el1 & He1 & _ & ? & _). congruence. }
    destruct (inv_new _ _ _ I e el Hl0 He Hv0) as (id' & t0 & Ht0 & Ho0). destruct (decide (id' = id)) as [->|Hne].
    + rewrite Ht in Ht0. injection Ht0 as <-. destruct (Hown e el' Ho0 Hl He' Hv) as (t' & -> & Ho'). exists id, t'.
      by rewrite lookup_partial_alter_eq.
    + exists id', t0. by rewrite lookup_partial_alter_ne.
  - done.
Qed.

(** The rows that a commit adds to the serial run. *)
Definition explains m (ev : list (event K V A)) m' : Prop := serial_run m (omap commit_of ev) m'.

Lemma explains_none m ev : omap commit_of ev = [] -> explains m ev m.
Proof. unfold explains. intros ->. constructor. Qed.

Lemma inv_mono N N' s m : N <= N' -> inv N s m -> inv N' s m.
Proof.
  intros Hle [H1 H2 H3 H4 H5 H6]. split; [by eapply wf_mono|done| |done..].
  intros id t Ht. destruct (H3 id t Ht). split; [by eapply tx_ok_mono|done..].
Qed.

Section step.
Context (N : Z) (s : sys K V A) (m : gmap K V) (id : Z) (t : thread K V A).
Context (I : inv N s m) (HN : N + 1 < 2 ^ 52) (Ht : threads s !! id = Some t).
Abbreviation x := (index s).
#[local] Set Default Proof Using "Type*".

(** The thread stops without committing. *)
Lemma abort_inv x' : aborted_to N x t x' ->
  inv (N + 1) {| index := x'; threads := partial_alter (fun _ => None) id (threads s) |} m.
Proof.
  intros AB. pose proof (inv_wf _ _ _ I) as W. destruct (inv_threads _ _ _ I _ _ Ht) as [T RO _].
  eapply (inv_moves N s m id t x' m None (own (th_txn t)) I Ht); try done.
  - by eapply aborted_wf.
  - by eapply aborted_evolves.
  - intros e Hl. left. by apply (aborted_linked hasher_ nbuckets N x t W T HN x' AB) in Hl as [? _].
  - intros e el' Ho Hl. by apply (aborted_linked hasher_ nbuckets N x t W T HN x' AB) in Hl as [_ ?].
  - by eapply aborted_represents; [..|apply (inv_rows _ _ _ I)].
Qed.

Lemma stop_inv : exists x', stop hasher_ nbuckets id false (tset (th_txn t)) (th_txn t) x = Some x' /\
  inv (N + 1) {| index := x'; threads := partial_alter (fun _ => None) id (threads s) |} m.
Proof.
  pose proof (inv_wf _ _ _ I) as W. destruct (inv_threads _ _ _ I _ _ Ht) as [T RO _]. pose proof (inv_ids _ _ _ I _ _ Ht) as Hh.
  destruct (stop_aborts hasher_ nbuckets id Hh N x t W T HN (tset (th_txn t)) x) as (x' & E & AB).
  { by eapply nothing_locked. }
  exists x'. split; [done|]. by apply abort_inv.
Qed.

(** A thread that goes on, with the index as it was. *)
Lemma kept_inv t' : kept hasher_ nbuckets N x t true t' ->
  inv (N + 1) {| index := x; threads := partial_alter (fun _ => Some t') id (threads s) |} m.
Proof.
  intros (Hp & T' & Ho & Hr & Hg). pose proof (inv_wf _ _ _ I) as W.
  assert (same_index x x) as S by done. pose proof (same_wf _ _ _ _ _ S W) as W1. pose proof (evolves_refl (fun _ => False) x) as E.
  eapply (inv_moves N s m id t x m (Some t') (fun _ => False) I Ht); try done.
  - by left.
  - intros e el' Hoe _ _ _. exists t'. split; [done|]. by apply Ho.
  - apply (inv_rows _ _ _ I).
  - intros t0 [= <-]. split; [|intros e Hoe; left; by apply Ho]. split.
    + by eapply (other_tx_ok hasher_ nbuckets N (fun _ => False)); [..|naive_solver].
    + by apply Hr.
    + eapply (other_good hasher_ nbuckets N (fun _ => False)); [done..|naive_solver|by apply Hg].
Qed.

(** An operation that failed: the transaction stops. *)
Lemma failed_stop t' : kept hasher_ nbuckets N x t false t' ->
  exists x', stop hasher_ nbuckets id false (tset (th_txn t')) (th_txn t') x = Some x' /\
    inv (N + 1) {| index := x'; threads := partial_alter (fun _ => None) id (threads s) |} m.
Proof.
  intros (Hp & T' & Ho & _ & _). pose proof (inv_wf _ _ _ I) as W. pose proof (inv_ids _ _ _ I _ _ Ht) as Hh.
  destruct (stop_aborts hasher_ nbuckets id Hh N x t' W T' HN (tset (th_txn t')) x) as (x' & E & AB).
  { by eapply nothing_locked. }
  exists x'. split; [done|].
  eapply (inv_moves N s m id t x' m None (own (th_txn t)) I Ht); try done.
  - by eapply aborted_wf.
  - eapply evolves_weaken; [|by eapply aborted_evolves]. intros e _ _. by apply Ho.
  - intros e Hl. left. by apply (aborted_linked hasher_ nbuckets N x t' W T' HN x' AB) in Hl as [? _].
  - intros e el' Hoe Hl. apply (aborted_linked hasher_ nbuckets N x t' W T' HN x' AB) in Hl as [_ Hn]. by destruct Hn; apply Ho.
  - by eapply aborted_represents; [..|apply (inv_rows _ _ _ I)].
Qed.

Lemma continue_inv ok t' : kept hasher_ nbuckets N x t ok t' ->
  exists ot x' ev, continue_or_abort hasher_ nbuckets id ok t' x = Some (ot, x', ev) /\ omap commit_of ev = [] /\
    inv (N + 1) {| index := x'; threads := partial_alter (fun _ => ot) id (threads s) |} m.
Proof.
  intros Hk. unfold continue_or_abort. destruct ok.
  - do 3 eexists. split; [done|]. split; [done|]. by apply kept_inv.
  - destruct (failed_stop t' Hk) as (x' & -> & Hi). cbn [mbind option_bind]. do 3 eexists. split; [done|]. done.
Qed.

(** An insertion. *)
Lemma inserted_inv ok x1 t' : inserted hasher_ nbuckets N x t ok x1 t' -> N + 2 < 2 ^ 52 ->
  exists ot x' ev, continue_or_abort hasher_ nbuckets id ok t' x1 = Some (ot, x', ev) /\ omap commit_of ev = [] /\
    inv (N + 2) {| index := x'; threads := partial_alter (fun _ => ot) id (threads s) |} m.
Proof.
  intros IN HN2. pose proof (inv_ids _ _ _ I _ _ Ht) as Hh. unfold continue_or_abort. destruct ok.
  - do 3 eexists. split; [done|]. split; [done|]. apply (inv_mono (N + 1)); [lia|].
    eapply (inv_moves N s m id t x1 m (Some t') (fun _ => False) I Ht); try done.
    + apply (in_wf _ _ _ _ _ _ _ _ IN).
    + apply (in_evolves _ _ _ _ _ _ _ _ IN).
    + intros e [?|?]%(in_linked _ _ _ _ _ _ _ _ IN); [by left|right; by eexists].
    + intros e el' Ho _ _ _. exists t'. split; [done|]. by apply (in_still _ _ _ _ _ _ _ _ IN).
    + apply (in_rows _ _ _ _ _ _ _ _ IN), (inv_rows _ _ _ I).
    + intros t0 [= <-]. split; [|apply (in_own _ _ _ _ _ _ _ _ IN)]. split; [apply (in_tx _ _ _ _ _ _ _ _ IN)|..].
      * by apply (in_rows_ok _ _ _ _ _ _ _ _ IN).
      * by apply (in_good _ _ _ _ _ _ _ _ IN).
  - pose proof (in_wf _ _ _ _ _ _ _ _ IN) as W1. pose proof (in_tx _ _ _ _ _ _ _ _ IN) as T1.
    assert (N + 1 + 1 < 2 ^ 52) as HN1 by lia.
    destruct (stop_aborts hasher_ nbuckets id Hh (N + 1) x1 t' W1 T1 HN1 (tset (th_txn t')) x1) as (x' & E & AB).
    { by eapply nothing_locked. }
    rewrite E. cbn [mbind option_bind]. do 3 eexists. split; [done|]. split; [done|].
    replace (N + 2) with (N + 1 + 1) by lia.
    eapply (inv_moves (N + 1) s m id t x' m None (own (th_txn t)) (inv_mono N (N + 1) s m ltac:(lia) I) Ht); try done.
    + by eapply aborted_wf.
    + eapply evolves_weaken; [|eapply evolves_trans; [apply (in_evolves _ _ _ _ _ _ _ _ IN)|by eapply aborted_evolves]].
      intros e el He [[]|Ho]. destruct (in_own _ _ _ _ _ _ _ _ IN e Ho); [done|congruence].
    + intros e Hl. left. apply (aborted_linked hasher_ nbuckets (N + 1) x1 t' W1 T1 HN1 x' AB) in Hl as [Hl Hn].
      by destruct (in_linked _ _ _ _ _ _ _ _ IN e Hl).
    + intros e el' Ho Hl. apply (aborted_linked hasher_ nbuckets (N + 1) x1 t' W1 T1 HN1 x' AB) in Hl as [_ Hn].
      by destruct Hn; apply (in_still _ _ _ _ _ _ _ _ IN).
    + eapply aborted_represents; [done..|]. apply (in_rows _ _ _ _ _ _ _ _ IN), (inv_rows _ _ _ I).
Qed.

(** The end of a body. *)
Lemma done_inv r ok x' : th_body t = Done r -> try_commit hasher_ nbuckets id (th_txn t) x = Some (ok, x') ->
  exists m', inv (N + 1) {| index := x'; threads := partial_alter (fun _ => None) id (threads s) |} m' /\
    explains m [if ok then Committed id (th_prog t) r else Aborted id] m'.
Proof.
  intros Hb E. pose proof (inv_wf _ _ _ I) as W. destruct (inv_threads _ _ _ I _ _ Ht) as [T RO G]. pose proof (inv_ids _ _ _ I _ _ Ht) as Hh.
  pose proof (try_commit_spec hasher_ nbuckets id Hh N x t W T HN ok x' E) as Hc. destruct ok; cycle 1.
  { exists m. split; [by apply abort_inv|by apply explains_none]. }
  destruct Hc as [Hnd CM]. destruct G as [?|G]; [done|].
  destruct (committed_serial hasher_ nbuckets id Hh N x x' t W T HN Hnd CM m r G Hb (inv_rows _ _ _ I)) as (m' & Hs & R').
  exists m'. split; [|apply (serial_snoc m [] m); [constructor|done]].
  eapply (inv_moves N s m id t x' m' None (own (th_txn t)) I Ht); try done.
  - by eapply committed_wf.
  - by eapply committed_evolves.
  - intros e Hl. left. by apply (committed_linked hasher_ nbuckets id Hh N x x' t W T HN Hnd CM) in Hl as [? _].
  - intros e el' Ho Hl He' Hv.
    destruct (own_row hasher_ nbuckets N x t W T HN e Ho) as (el & He & _ & _ & _ & _ & Hw).
    destruct (committed_elem hasher_ nbuckets id Hh N x x' t W T HN Hnd CM e el He) as (el0 & He0 & _ & Hf). rewrite Hw in Hf.
    destruct Hf as (_ & _ & _ & _ & ? & _). congruence.
Qed.

(** A body that ends alone on the committed rows ends here too. *)
Lemma done_defined r : th_body t = Done r -> is_Some (serial (th_prog t) m local_new) ->
  exists ok x', try_commit hasher_ nbuckets id (th_txn t) x = Some (ok, x').
Proof.
  intros Hb Hs. pose proof (inv_wf _ _ _ I) as W. destruct (inv_threads _ _ _ I _ _ Ht) as [T RO G]. pose proof (inv_ids _ _ _ I _ _ Ht) as Hh.
  pose proof (inv_rows _ _ _ I) as R. apply (try_commit_defined hasher_ nbuckets id Hh N x t W T HN). intros Hnd e el Hw He Hlk.
  destruct G as [?|(l & L & Hp & Ho & Ag)]; [done|]. apply (inst_defined hasher_ nbuckets id Hh N x W HN e el); [done|done|].
  rewrite (path_serial _ _ _ _ m Hp), Hb in Hs.
  2: { eapply Forall_impl; [exact Ho|]. intros o. by apply (obs_holds hasher_ nbuckets N x t W T HN). }
  cbn in Hs. destruct (finish m L) as [m'|] eqn:Hfin; [|by destruct Hs]. unfold finish in Hfin. case_bool_decide as Hok; [|done].
  destruct (written_el hasher_ nbuckets N x t W T Hnd e Hw) as (el0 & He0 & Hl & Hv). rewrite He in He0. injection He0 as <-.
  specialize (Hok (e_key el) _ (ag_todo _ _ _ _ Ag e el He Hl Hw)). cbn beta in Hok. unfold intent_ok in Hok.
  destruct (mine_cases hasher_ nbuckets N x t W T HN L _ e el Ag He Hl Hv) as [[Hoe Hm]|(Hoe & Hv' & Hm)]; rewrite Hm in Hok.
  - apply negb_true_iff in Hok. rewrite Hok. by left.
  - assert (m !! e_key el = Some (row el)) as Hme by (apply R; by exists e, el). rewrite Hme in Hok.
    destruct (linked_elem _ _ _ _ _ W Hl) as (el0 & He0 & _ & _ & Hdel). rewrite He in He0. injection He0 as <-.
    destruct (has_delete _); [done|]. right. by apply bool_decide_eq_true in Hok.
Qed.

(** A step of the thread. *)
Lemma thread_inv ot x' ev : N + 2 < 2 ^ 52 -> step_thread hasher_ nbuckets id t x = Some (ot, x', ev) ->
  exists m', inv (N + 2) {| index := x'; threads := partial_alter (fun _ => ot) id (threads s) |} m' /\ explains m ev m'.
Proof.
  intros HN2. pose proof (inv_wf _ _ _ I) as W. destruct (inv_threads _ _ _ I _ _ Ht) as [T RO G]. pose proof (inv_ids _ _ _ I _ _ Ht) as Hh.
  unfold step_thread. destruct (th_body t) as [r| |k a c|k v p|k f p|k v ow c|k c] eqn:Hb; intros E.
  - destruct (try_commit hasher_ nbuckets id (th_txn t) x) as [[ok x1]|] eqn:Ec; [|done]. cbn [mbind option_bind] in E. injection E as <- <- <-.
    destruct (done_inv r ok x1 Hb Ec) as (m' & Hi & He). exists m'. split; [|done]. eapply inv_mono; [|done]. lia.
  - destruct stop_inv as (x1 & Es & Hi). unfold continue_or_abort in E. rewrite Es in E. injection E as <- <- <-.
    exists m. split; [|by apply explains_none]. eapply inv_mono; [|done]. lia.
  - destruct (select_kept hasher_ nbuckets N x t W T RO G k a c Hb) as (ok & r & tx' & Es & Hk). rewrite Es in E. cbn [mbind option_bind] in E.
    destruct (continue_inv _ _ Hk) as (ot1 & x1 & ev1 & E1 & Hev & Hi). rewrite E1 in E. injection E as <- <- <-.
    exists m. split; [|by apply explains_none]. eapply inv_mono; [|done]. lia.
  - destruct (th_rows t !! k) as [rid|] eqn:Hr; [|done]. cbn [mbind option_bind] in E. injection E as <- <- <-.
    exists m. split; [|by apply explains_none]. apply (inv_mono (N + 1)); [lia|]. apply kept_inv.
    eapply (write_kept hasher_ nbuckets N x t W T RO G k p); [done|done|by rewrite Hb|done|].
    intros L HL. rewrite Hb. cbn. by rewrite decide_True.
  - destruct (th_rows t !! k) as [rid|] eqn:Hr; [|done]. cbn [mbind option_bind] in E. injection E as <- <- <-.
    exists m. split; [|by apply explains_none]. apply (inv_mono (N + 1)); [lia|]. apply kept_inv.
    eapply (write_kept hasher_ nbuckets N x t W T RO G k p); [done| |by rewrite Hb|done|].
    + intros w. unfold add_commute. by destruct (has_write w && negb (has_commute w)).
    + intros L HL. rewrite Hb. cbn. by rewrite decide_True.
  - destruct (insert_kept hasher_ nbuckets N x t id k v ow c W T RO G Hh Hb HN) as (ok & found & x1 & tx' & Es & Hk).
    rewrite Es in E. cbn [mbind option_bind] in E.
    destruct (inserted_inv _ _ _ Hk HN2) as (ot1 & x2 & ev1 & E1 & Hev & Hi). rewrite E1 in E. injection E as <- <- <-.
    exists m. split; [done|by apply explains_none].
  - destruct (delete_kept hasher_ nbuckets N x t W T RO G k c Hb) as (ok & found & tx' & Es & Hk). rewrite Es in E. cbn [mbind option_bind] in E.
    destruct (continue_inv _ _ Hk) as (ot1 & x1 & ev1 & E1 & Hev & Hi). rewrite E1 in E. injection E as <- <- <-.
    exists m. split; [|by apply explains_none]. eapply inv_mono; [|done]. lia.
Qed.

Lemma thread_defined : N + 2 < 2 ^ 52 -> ready t -> exists ot x' ev, step_thread hasher_ nbuckets id t x = Some (ot, x', ev) /\
  forall t', ot = Some t' -> ready t'.
Proof.
  intros HN2 [Hrows Hser]. pose proof (inv_wf _ _ _ I) as W. destruct (inv_threads _ _ _ I _ _ Ht) as [T RO G]. pose proof (inv_ids _ _ _ I _ _ Ht) as Hh.
  unfold step_thread. destruct (th_body t) as [r| |k a c|k v p|k f p|k v ow c|k c] eqn:Hb; cbn [holds_rows] in Hrows.
  - destruct (done_defined r Hb (Hser m)) as (ok & x' & ->). by do 3 eexists.
  - destruct stop_inv as (x1 & Es & Hi). unfold continue_or_abort. rewrite Es. by do 3 eexists.
  - destruct (select_kept hasher_ nbuckets N x t W T RO G k a c Hb) as (ok & r & tx' & Es & Hk). rewrite Es. cbn [mbind option_bind].
    destruct (continue_inv _ _ Hk) as (ot1 & x1 & ev1 & E1 & Hev & Hi). rewrite E1. do 3 eexists. split; [done|].
    intros t' ->. apply continue_thread in E1 as ->. split; [|done]. cbn. destruct Hrows as [Hn Hs].
    destruct r as [[e v]|]; cbn; [rewrite dom_insert_L|]; done.
  - destruct Hrows as [[rid Hr]%elem_of_dom Hp]. rewrite Hr. cbn [mbind option_bind]. do 3 eexists. split; [done|]. by intros t' [= <-].
  - destruct Hrows as [[rid Hr]%elem_of_dom Hp]. rewrite Hr. cbn [mbind option_bind]. do 3 eexists. split; [done|]. by intros t' [= <-].
  - destruct (insert_kept hasher_ nbuckets N x t id k v ow c W T RO G Hh Hb HN) as (ok & found & x1 & tx' & Es & Hk).
    rewrite Es. cbn [mbind option_bind].
    destruct (inserted_inv _ _ _ Hk HN2) as (ot1 & x2 & ev1 & E1 & Hev & Hi). rewrite E1. do 3 eexists. split; [done|].
    intros t' ->. apply continue_thread in E1 as ->. split; [apply Hrows|done].
  - destruct (delete_kept hasher_ nbuckets N x t W T RO G k c Hb) as (ok & found & tx' & Es & Hk). rewrite Es. cbn [mbind option_bind].
    destruct (continue_inv _ _ Hk) as (ot1 & x1 & ev1 & E1 & Hev & Hi). rewrite E1. do 3 eexists. split; [done|].
    intros t' ->. apply continue_thread in E1 as ->. split; [apply Hrows|done].
Qed.

End step.

(** A thread that is given a body. *)
Lemma given_inv N s m id p : inv N s m -> uint 7 id -> threads s !! id = None ->
  inv N {| index := index s;
           threads := <[id := {| th_prog := p; th_body := p; th_txn := start; th_rows := ∅ |}]> (threads s) |} m.
Proof.
  intros I Hid Hn. destruct I as [H1 H2 H3 H4 H5 H6]. split; cbn [index threads]; [done| | | | |done].
  - intros id' t' [[<- _]|[_ ?]]%lookup_insert_Some; [done|by eapply H2].
  - intros id' t' [[<- <-]|[_ ?]]%lookup_insert_Some; [|by eapply H3]. split; cbn.
    + split; [apply start_self|done|done].
    + intros k e. cbn. by rewrite lookup_empty.
    + right. exists [], local_new. split_and!; [constructor|constructor|]. split; try done.
      * intros k v. cbn. rewrite lookup_empty. split; [done|]. by intros (e & el & ? & _).
      * intros k. cbn. rewrite lookup_empty. split; [set_solver|by intros []].
  - intros id1 id2 t1 t2 e [[<- <-]|[? ?]]%lookup_insert_Some [[<- <-]|[? ?]]%lookup_insert_Some Ho1 Ho2; try done. by eapply H4.
  - intros e el Hl He Hv. destruct (H5 e el Hl He Hv) as (id' & t' & Ht' & Ho). exists id', t'. split; [|done].
    rewrite lookup_insert_ne; [done|]. intros ->. congruence.
Qed.

Definition action_ok (a : action K V A) : Prop := match a with Run id _ => uint 7 id | Step _ => True end.

Lemma action_inv N s m a s' ev :
  inv N s m -> N + 2 < 2 ^ 52 -> action_ok a -> step a s = Some (s', ev) -> exists m', inv (N + 2) s' m' /\ explains m ev m'.
Proof.
  intros I HN Ha E. unfold UIndex.step in E. destruct a as [id p|id].
  - exists m. destruct (threads s !! id) as [t|] eqn:Ht; injection E as <- <-; (split; [|by apply explains_none]).
    + eapply inv_mono; [|done]. lia.
    + apply (inv_mono N); [lia|]. by apply given_inv.
  - destruct (threads s !! id) as [t|] eqn:Ht.
    + destruct (step_thread hasher_ nbuckets id t (index s)) as [[[ot x'] ev']|] eqn:Es; [|done]. cbn [mbind option_bind] in E.
      injection E as <- <-. eapply thread_inv; [done|lia|done|done|done].
    + injection E as <- <-. exists m. split; [|by apply explains_none]. eapply inv_mono; [|done]. lia.
Qed.

Lemma serial_run_app m l1 m1 l2 m2 : serial_run m l1 m1 -> serial_run m1 l2 m2 -> serial_run (A := A) m (l1 ++ l2) m2.
Proof. intros H1. induction 1 as [|m1 l m3 p r m4 _ IH Hs]; [by rewrite app_nil_r|]. rewrite app_assoc. econstructor; [by apply IH|done]. Qed.

Lemma run_explains sched : forall N s m s' ev,
  inv N s m -> N + 2 * Z.of_nat (length sched) < 2 ^ 52 -> Forall action_ok sched -> run sched s = Some (s', ev) ->
  exists m', inv (N + 2 * Z.of_nat (length sched)) s' m' /\ explains m ev m'.
Proof.
  induction sched as [|a sched IH]; intros N s m s' ev I HN Ha E; cbn [UIndex.run] in E.
  - injection E as <- <-. exists m. split; [|by apply explains_none]. cbn. by rewrite Z.add_0_r.
  - apply Forall_cons in Ha as [Ha Has]. rewrite length_cons in *. destruct (step a s) as [[s1 ev1]|] eqn:E1; [|done].
    cbn [mbind option_bind] in E. destruct (run sched s1) as [[s2 ev2]|] eqn:E2; [|done]. cbn [mbind option_bind] in E.
    injection E as <- <-. destruct (action_inv N s m a s1 ev1 I ltac:(lia) Ha E1) as (m1 & I1 & X1).
    destruct (IH (N + 2) s1 m1 s2 ev2 I1 ltac:(lia) Has E2) as (m2 & I2 & X2). exists m2.
    split; [by replace (N + 2 * Z.of_nat (S (length sched))) with (N + 2 + 2 * Z.of_nat (length sched)) by lia|].
    unfold explains in *. rewrite omap_app. by eapply serial_run_app.
Qed.

Definition total_action (a : action K V A) : Prop := match a with Run _ p => total p | Step _ => True end.

Lemma run_defined sched : forall N s m,
  inv N s m -> N + 2 * Z.of_nat (length sched) < 2 ^ 52 -> Forall action_ok sched -> Forall total_action sched ->
  map_Forall (fun _ => ready) (threads s) -> is_Some (run sched s).
Proof.
  induction sched as [|a sched IH]; intros N s m I HN Ha Hp Hr; cbn [UIndex.run]; [done|].
  apply Forall_cons in Ha as [Ha Has]. apply Forall_cons in Hp as [Hp Hps]. rewrite length_cons in HN.
  assert (exists s1 ev, step a s = Some (s1, ev) /\ map_Forall (fun _ => ready) (threads s1)) as (s1 & ev & E & Hr1).
  { unfold UIndex.step. destruct a as [id p|id].
    - destruct (threads s !! id) eqn:Ht; do 2 eexists; (split; [done|]); [done|]. cbn [threads].
      apply map_Forall_insert_2; [|done]. destruct Hp as [Hh Hs]. split; [|done]. cbn. by rewrite dom_empty_L.
    - destruct (threads s !! id) as [t|] eqn:Ht; [|by do 2 eexists].
      destruct (thread_defined N s m id t I ltac:(lia) Ht ltac:(lia) (Hr id t Ht)) as (ot & x' & ev & -> & Hot).
      do 2 eexists. split; [done|]. cbn [threads]. intros id' t'. destruct (decide (id' = id)) as [->|Hne].
      + rewrite lookup_partial_alter_eq. apply Hot.
      + rewrite lookup_partial_alter_ne by done. apply Hr. }
  rewrite E. cbn [mbind option_bind]. destruct (action_inv N s m a s1 ev I ltac:(lia) Ha E) as (m1 & I1 & _).
  destruct (IH (N + 2) s1 m1 I1 ltac:(lia) Has Hps Hr1) as [[s2 ev2] ->]. by eexists.
Qed.

End run.

(** * Runs from a loaded index *)

Section loaded.
Context {K V A : Type} `{Countable K} (hasher_ : K -> Z) (nbuckets : Z).
Context (here : Z) (l : list (K * V)) (sched : list (action K V A)).
Context (Hh : uint 7 here) (Hids : Forall action_ok sched).
Context (HN : Z.of_nat (length l) + 2 * Z.of_nat (length sched) < 2 ^ 52).
#[local] Set Default Proof Using "Type*".

Definition initially (x : unordered_index K V) : sys K V A := {| index := x; threads := ∅ |}.

Lemma index_loaded : exists x, load hasher_ nbuckets here l index_new = Some x /\
  inv hasher_ nbuckets (Z.of_nat (length l)) (initially x) (table l ∅).
Proof using Hh HN.
  destruct (new_ok (V := V) hasher_ nbuckets) as (W & R & S).
  destruct (load_ok hasher_ nbuckets here l 0 index_new ∅ Hh ltac:(lia) W R S) as (x & E & Wx & Rx & Sx).
  exists x. split; [done|]. split; cbn; try done.
  intros e el Hl He Hv. by rewrite (Sx e el Hl He) in Hv.
Qed.

Lemma inv_settled N (s : sys K V A) m : inv hasher_ nbuckets N s m -> threads s = ∅ -> settled (index s).
Proof using.
  intros I Hn e el Hl He. destruct (valid el) eqn:Hv; [done|].
  destruct (inv_new _ _ _ _ _ I e el Hl He Hv) as (id & t & Ht & _). rewrite Hn in Ht. by rewrite lookup_empty in Ht.
Qed.

Lemma loaded_serializable x s ev :
  load hasher_ nbuckets here l index_new = Some x -> run hasher_ nbuckets sched (initially x) = Some (s, ev) ->
  exists m, serial_run (table l ∅) (omap commit_of ev) m /\ represents (index s) m /\
    (threads s = ∅ -> forall k, nontrans_get hasher_ nbuckets k (index s) = m !! k).
Proof.
  intros El Er. destruct index_loaded as (x' & El' & I). rewrite El in El'. injection El' as <-.
  destruct (run_explains hasher_ nbuckets sched _ _ _ _ _ I HN Hids Er) as (m & I' & X). exists m.
  split; [exact X|]. split; [apply (inv_rows _ _ _ _ _ I')|]. intros Hn k. symmetry.
  eapply settled_lookup; [apply (inv_wf _ _ _ _ _ I')|apply (inv_rows _ _ _ _ _ I')|by eapply inv_settled].
Qed.

Lemma loaded_defined :
  Forall total_action sched -> exists x s ev, load hasher_ nbuckets here l index_new = Some x /\
    run hasher_ nbuckets sched (initially x) = Some (s, ev).
Proof.
  intros Ht. destruct index_loaded as (x & El & I). exists x.
  destruct (run_defined hasher_ nbuckets sched _ _ _ I HN Hids Ht) as [[s ev] Er]; [by apply map_Forall_empty|].
  by exists s, ev.
Qed.

End loaded.

(** C3: The hash index is serializable.  Whatever rows are loaded into it and in
    whatever order threads are given bodies and make steps (an operation, the end
    of a body, an abort), the transactions that commit return what their bodies
    return when they run alone one after the other in the order of their commits,
    and the committed rows of the index are the table that these leave; when no
    transaction is running, [nontrans_get] of any key returns the row of that
    table.  There are no phantoms: that a key was absent when it was looked up is
    part of what a body returns. *)
Theorem uindex_serializable {K V A : Type} `{Countable K} (hasher_ : K -> Z) (nbuckets here : Z)
    (l : list (K * V)) (sched : list (action K V A)) x s ev :
  uint 7 here -> Forall action_ok sched -> Z.of_nat (length l) + 2 * Z.of_nat (length sched) < 2 ^ 52 ->
  load hasher_ nbuckets here l index_new = Some x -> run hasher_ nbuckets sched (initially x) = Some (s, ev) ->
  exists m, serial_run (table l ∅) (omap commit_of ev) m /\ represents (index s) m /\
    (threads s = ∅ -> forall k, nontrans_get hasher_ nbuckets k (index s) = m !! k).
Proof. intros. by eapply loaded_serializable. Qed.

(** C4: No step of a run fails: if every body holds the rows it updates and comes to
    its end alone on any table, then loading and every step of every schedule are
    defined.  No assertion of [DB_uindex.hh] fails, no pointer that is not one is
    followed, no bucket is left locked, and what commits can be installed. *)
Theorem uindex_never_stuck {K V A : Type} `{Countable K} (hasher_ : K -> Z) (nbuckets here : Z)
    (l : list (K * V)) (sched : list (action K V A)) :
  uint 7 here -> Forall action_ok sched -> Z.of_nat (length l) + 2 * Z.of_nat (length sched) < 2 ^ 52 ->
  Forall total_action sched ->
  exists x s ev, load hasher_ nbuckets here l index_new = Some x /\ run hasher_ nbuckets sched (initially x) = Some (s, ev).
Proof. intros. by apply loaded_defined. Qed.

(** * An example *)

(** Keys 1, 5 and 9 share a bucket.  The first body adds one to row 1 and inserts
    row 9; the second deletes row 2 and looks for row 9. *)
Module Example.

Definition rows : list (Z * Z) := [(1, 10); (2, 20); (5, 50)].
Definition grow : prog Z Z bool :=
  Select 1 access_update (fun r => match r with
    | Some (Some v) => Update 1 (v + 1) (Insert 9 v false (fun found => Done found))
    | _ => Done false
    end).
Definition drop : prog Z Z bool :=
  Delete 2 (fun _ => Select 9 access_read (fun r => Done (match r with Some _ => true | None => false end))).

(** The second transaction first sees the bucket without row 9 and aborts at its
    commit; then it meets the row before it is committed and aborts there. *)
Definition sched : list (action Z Z bool) :=
  [Run 1 grow; Run 2 drop; Step 2; Step 2; Step 1; Step 1; Step 1; Step 2;
   Run 2 drop; Step 2; Step 2; Step 1; Run 2 drop; Step 2; Step 2; Step 2].

Definition loaded : unordered_index Z Z := default index_new (load (fun k => k) 4 0 rows index_new).
Definition outcome : option (list (option Z) * list (event Z Z bool)) :=
  '(s, ev) ← run (fun k => k) 4 sched (initially loaded);
  Some ((fun k => nontrans_get (fun k => k) 4 k (index s)) <$> [1; 2; 5; 9], ev).

Lemma sched_ok : Forall action_ok sched.
Proof. unfold sched. repeat constructor; cbn; unfold uint; lia. Qed.

Lemma ends (m : gmap Z Z) (L : local Z Z) (r : bool) :
  map_Forall (fun k w => intent_ok m L k w = true) (todo L) -> is_Some (m' ← finish m L; Some (Some r, m')).
Proof. intros Hok. destruct (finish_defined m L) as [m' ->]; [exact Hok|by eexists]. Qed.

Ltac lookups := repeat (rewrite lookup_empty || rewrite lookup_insert_eq || rewrite lookup_insert_ne by done).
(** Decide the intents of a transaction. *)
Ltac intents :=
  apply ends; unfold intend; cbn [todo mine set_field local_new]; lookups; rewrite ?insert_insert_eq;
  repeat lazymatch goal with
    | |- map_Forall _ (<[_ := _]> _) => apply map_Forall_insert_2
    | |- map_Forall _ ∅ => apply map_Forall_empty
    end;
  unfold intent_ok; cbn [mine]; lookups; repeat match goal with E : _ = Some _ |- _ => rewrite E end; done.

Lemma grow_total : total grow.
Proof.
  split; [by cbn; split; [|intros []; cbn; set_solver]|]. intros m. cbn [serial grow]. unfold look at 1. cbn [mine local_new]. lookups.
  destruct (m !! 1) as [v|] eqn:E1; [|intents]. cbn [access_reads access_writes serial]. unfold intend at 1. cbn [held set_field].
  rewrite decide_True by set_solver. unfold look, intend at 1 2. cbn [mine set_field]. lookups. destruct (m !! 9) as [v'|] eqn:E9; intents.
Qed.

Lemma drop_total : total drop.
Proof.
  split; [by cbn|]. intros m. cbn [serial drop]. unfold look at 1. cbn [mine local_new]. lookups.
  destruct (m !! 2) as [v|] eqn:E2; cbn [serial access_reads access_writes]; unfold look; try unfold intend at 1; cbn [mine set_field local_new]; lookups;
    destruct (m !! 9) as [v'|] eqn:E9; intents.
Qed.

Lemma sched_total : Forall total_action sched.
Proof. unfold sched. repeat constructor; apply grow_total || apply drop_total. Qed.

End Example.

Lemma example_outcome : Example.outcome =
  Some ([Some 11; None; Some 50; Some 10], [Aborted 2; Aborted 2; Committed 1 Example.grow false; Committed 2 Example.drop true]).
Proof. vm_compute. reflexivity. Qed.

Lemma uindex_serializable_witness : exists s ev m,
  run (fun k => k) 4 Example.sched (initially Example.loaded) = Some (s, ev) /\
  omap commit_of ev = [(Example.grow, false); (Example.drop, true)] /\
  serial_run (table Example.rows ∅) [(Example.grow, false); (Example.drop, true)] m /\ represents (index s) m.
Proof.
  pose proof example_outcome as O. unfold Example.outcome in O.
  destruct (run (fun k => k) 4 Example.sched (initially Example.loaded)) as [[s ev]|] eqn:E; [|discriminate O].
  apply (f_equal (fmap snd)) in O. cbn [mbind option_bind fmap option_fmap option_map snd] in O. injection O as O.
  destruct (uindex_serializable (fun k => k) 4 0 Example.rows Example.sched Example.loaded s ev) as (m & Hs & R & _).
  - unfold uint. lia.
  - apply Example.sched_ok.
  - vm_compute. reflexivity.
  - vm_compute. reflexivity.
  - exact E.
  - exists s, ev, m. rewrite O in Hs |- *. split; [reflexivity|]. split; [reflexivity|]. split; [exact Hs|exact R].
Defined.

Lemma uindex_never_stuck_witness : exists x s ev,
  load (fun k => k) 4 0 Example.rows index_new = Some x /\ run (fun k => k) 4 Example.sched (initially x) = Some (s, ev).
Proof.
  apply uindex_never_stuck.
  - unfold uint. lia.
  - apply Example.sched_ok.
  - vm_compute. reflexivity.
  - apply Example.sched_total.
Defined.

(** * Item keys *)

(** The bits of a key: two that are 0 in a row's key, the cell, the address. *)
Lemma item_key_bits e cell i : uint 48 e -> uint 14 cell -> 0 <= i ->
  Z.testbit (ItemKey.item_key e cell) i =
    if i <? 2 then false else if i <? 16 then Z.testbit cell (i - 2) else Z.testbit e (i - 16).
Proof.
  intros He Hc Hi. unfold ItemKey.item_key, ItemKey.shift. rewrite Z.lor_spec, Z.land_spec, testbit_wrap, !Z.shiftl_spec by lia.
  assert (Z.testbit ItemKey.cell_mask i = negb (i <? 2) && (i <? 16)) as ->.
  { change ItemKey.cell_mask with (Z.shiftl (Z.ones 14) 2). rewrite Z.shiftl_spec by lia. destruct (Z.ltb_spec i 2); [by rewrite Z.testbit_neg_r by lia|].
    destruct (Z.ltb_spec i 16); [by rewrite Z.ones_spec_low by lia|by rewrite Z.ones_spec_high by lia]. }
  destruct (Z.ltb_spec i 2), (Z.ltb_spec i 16); cbn [negb andb]; rewrite ?andb_true_r, ?andb_false_r, ?orb_false_r; try lia.
  - by rewrite (Z.testbit_neg_r e), andb_false_r by lia.
  - by rewrite (Z.testbit_neg_r e), andb_false_r by lia.
  - destruct (Z.ltb_spec i 64); [done|]. symmetry. apply (testbit_small 48); [done|lia].
Qed.

(** C39: The key of a transaction item identifies the row or bucket: from the key of
    a cell of an element at a 48-bit address both are read back, it is not the key
    of a bucket, and the key of a bucket, which lies at an even address, is one and
    gives the address back; so no two different rows or buckets share an item. *)
Theorem item_key_roundtrip (e cell b : Z) :
  uint 48 e -> uint 14 cell -> uint 64 b -> b mod 2 = 0 ->
  ItemKey.internal_elem_ptr (ItemKey.item_key e cell) = e /\ ItemKey.cell_num (ItemKey.item_key e cell) = cell /\
  ItemKey.is_bucket (ItemKey.item_key e cell) = false /\
  ItemKey.is_bucket (ItemKey.make_bucket_key b) = true /\ ItemKey.bucket_address (ItemKey.make_bucket_key b) = b /\
  ItemKey.item_key e cell <> ItemKey.make_bucket_key b.
Proof.
  intros He Hc Hb H2. assert (Z.testbit b 0 = false) as H0 by (rewrite Z.bit0_odd, Zodd_mod; by rewrite H2).
  assert (ItemKey.is_bucket (ItemKey.item_key e cell) = false) as Hrow.
  { unfold ItemKey.is_bucket. apply negb_false_iff, Z.eqb_eq, Z.bits_inj'. intros i Hi. rewrite Z.bits_0, Z.land_spec, item_key_bits by done.
    destruct (decide (i = 0)) as [->|]; [done|]. rewrite (testbit_small 1 ItemKey.bucket_bit); [apply andb_false_r|done|lia]. }
  assert (ItemKey.is_bucket (ItemKey.make_bucket_key b) = true) as Hbk.
  { unfold ItemKey.is_bucket, ItemKey.make_bucket_key. apply negb_true_iff, Z.eqb_neq. intros E. apply (f_equal (fun z => Z.testbit z 0)) in E.
    by rewrite Z.land_spec, Z.lor_spec, orb_true_r in E. }
  split_and!; [| |done|done| |congruence].
  - unfold ItemKey.internal_elem_ptr, ItemKey.shift. apply Z.bits_inj'. intros i Hi. rewrite Z.shiftr_spec, item_key_bits by (done || lia).
    rewrite !(proj2 (Z.ltb_ge _ _)) by lia. f_equal. lia.
  - unfold ItemKey.cell_num. apply Z.bits_inj'. intros i Hi. rewrite Z.shiftr_spec, Z.land_spec, item_key_bits by (done || lia).
    change ItemKey.cell_mask with (Z.shiftl (Z.ones 14) 2). rewrite Z.shiftl_spec by lia. rewrite (proj2 (Z.ltb_ge _ 2)) by lia.
    destruct (Z.ltb_spec (i + 2) 16).
    + rewrite Z.ones_spec_low by lia. rewrite andb_true_r. f_equal. lia.
    + rewrite Z.ones_spec_high by lia. rewrite andb_false_r. symmetry. apply (testbit_small 14); [done|lia].
  - unfold ItemKey.bucket_address, ItemKey.make_bucket_key. apply Z.bits_inj'. intros i Hi. rewrite Z.ldiff_spec, Z.lor_spec.
    destruct (decide (i = 0)) as [->|]; [by rewrite H0|]. rewrite (testbit_small 1 ItemKey.bucket_bit i); [|done|lia].
    by rewrite orb_false_r, andb_true_r.
Qed.

Lemma item_key_roundtrip_witness :
  ItemKey.internal_elem_ptr (ItemKey.item_key 0x7f00dead0010 0) = 0x7f00dead0010 /\
  ItemKey.item_key 0x7f00dead0010 0 <> ItemKey.make_bucket_key 0x55d0c0ffee00.
Proof.
  destruct (item_key_roundtrip 0x7f00dead0010 0 0x55d0c0ffee00) as (H1 & _ & _ & _ & _ & H2).
  - unfold uint. lia.
  - unfold uint. lia.
  - unfold uint. lia.
  - vm_compute. reflexivity.
  - split; [exact H1|exact H2].
Defined.
